(* ===== verification/_CoqProject ===== *)
-Q . S2P
Prelude.v
PyStr.v
Json.v
PyValue.v
Sha256.v
ProtocolBoundary.v
CognitiveState.v
Goal.v
Completion.v
CompletionEvaluator.v
ControlDb.v
GoalRepository.v
CompletionRepository.v
CompletionGate.v
PlanDag.v
ToolBudget.v
SubagentScheduler.v
TurnLedger.v
CompletionRecovery.v
CompletionFlow.v
Recovery.v
Authority.v
OperationLedger.v
Approvals.v
ApprovalWaits.v
ShellSemantics.v
ShellLexing.v
PyText.v
Coroutine.v
PermissionStore.v
PermissionRules.v
PermissionEvaluator.v
PermissionEngine.v
SchedulerStore.v
CronSchedule.v
CronEngine.v
CronLifecycle.v
CronControl.v
AuditChain.v
AuditAnchor.v
SecretRedaction.v
AuditLog.v
ResourceScope.v
EffectivePolicy.v
PyRegex.v
NetworkGuard.v
CommandGuard.v
PathGuard.v
SecretScanner.v
Middleware.v
