(* ===== verification/Prelude.v ===== *)
(** * The Khaos agent control plane: a verification development

    Khaos is an agent runtime in Python.  A user's goal becomes a coding task; an
    agent loop drives a model and tools; a control plane of small, deterministic
    components decides what is recorded, what may run and when a task counts as
    done.  This library models that control plane, from the text it stores to
    the transactions that change a task, and proves what it promises.  All paths
    below are relative to src/python/khaos.

    ** The parts and how they interact

    - [Prelude], [PyStr], [Json], [PyValue], [Sha256] give the parts of Python
      the source uses: exceptions and the error monad, [sorted] with a key,
      [str], [json.loads]/[json.dumps], comparison and truth of decoded values,
      and SHA-256.
    - [ProtocolBoundary] (security/protocol_boundary.py): canonical JSON and
      digests, strict decoding, closed schemas, version negotiation, receipts and
      resource owners, effect bindings, bounded line framing.
    - [CognitiveState] (agent/control/state.py, state_repository.py): the phases
      of a task and the owner-scoped compare-and-set on [coding_tasks].
    - [Goal] and [GoalRepository] (agent/control/goal.py, goal_repository.py): the
      immutable declaration of what the user asked for, and its table.
    - [Completion], [CompletionEvaluator], [CompletionRepository]
      (agent/control/completion.py, completion_evaluator.py,
      completion_repository.py): the decision record, the function that computes
      it from a goal, a task snapshot and structured facts, and the append-only
      ledger of decisions.
    - [CompletionGate] (agent/control/completion_gate.py,
      completion_gate_repository.py): the only path by which a task becomes
      completed.  It reads the newest decision from the ledger, asks an authority
      policy (an interface, [AuthorityPolicy]) and projects the result in one
      transaction that checks everything again.
    - [CompletionFlow] (agent/control/completion_flow.py): one proposal composes
      the goal repository, the cognitive state repository, a fact provider (an
      interface, [FactProvider]), the evaluator and the ledger.
    - [TurnLedger] (agent/events.py and the turn tables of db/database.py): the
      ordered durable events of each turn, its in-memory coordinator, restarts
      and storage outages.
    - [CompletionRecovery] (agent/control/completion_recovery.py): after a
      restart, gate events of the turn ledger and decisions of the completion
      ledger are read back and interpreted.
    - [Recovery] (agent/control/recovery.py): failure signatures, the recovery
      policy, and the evaluator that picks the next action after a failure.
    - [PlanDag] (coding/planning/dag.py): validation and topological order of the
      steps of an implementation plan.
    - [ToolBudget] (tools/budget.py): reservations of calls, time and output
      bytes for tool calls, and the measure of an output before it is serialised.
    - [SubagentScheduler] (subagents/scheduler.py): concurrent child workers under
      limits on their number, on mutating children and on the shared budget.
    - [Authority] (agent/approval.py, security/authority_context.py): the
      immutable records that tie an approval to one execution, with their
      digests.
    - [OperationLedger] (db/database.py): the durable approvals of destructive
      operations and their audit events.
    - [Approvals] and [ApprovalWaits] (agent/approval.py): the broker of tool
      approvals, with its waiting tasks, futures, quotas and sweep, and the
      operation approvals it keeps in memory or in the ledger.
    - [ShellSemantics] (security/shell_semantics.py, verdicts of
      tools/terminal_tools.py): the parser of shell scripts and the argument
      policies that decide which commands run without approval.  [ShellLexing]
      has a reference lexer of the literal shell fragment and the comparison.
    - [PermissionStore] (db/repositories/permissions.py), [PermissionRules]
      (permissions/rules.py and the resource of permissions/resource.py),
      [PermissionEvaluator] (permissions/models.py, evaluator.py) and
      [PermissionEngine] (permissions/engine.py): the rules a principal has
      granted, their typed language, the decision on one tool call, and the engine
      that keeps the rules of the current authorization epoch.  [PyText] has the
      parts of [posixpath], [fnmatch] and [shlex] they use.
    - [Coroutine]: coroutines over a shared database, with the writes of others
      before each access and accesses that fail before or after their effect.  The
      permission engine and the cron engine are such coroutines.
    - [SchedulerStore] (db/repositories/scheduler.py, scheduler/repository.py),
      [CronSchedule] (scheduler/models.py, calculator.py, due_selector.py and the
      schedule expressions of tools/cron_tools.py) and [CronEngine]
      (scheduler/engine.py, execution.py, recovery.py): the tables of scheduled
      tasks and of the operation journal, the times tasks are due, and the engine
      that runs them, with its markers of unwritten states, its epochs, leases and
      lifecycle.  [CronLifecycle] and [CronControl] have its theorems.
    - [AuditChain] (db/repositories/audit.py), [AuditAnchor] (audit/anchor.py) and
      [AuditLog] (audit/logger.py): the hash-chained table of audit events, the
      anchor file that keeps its head outside the database, and the logger that
      redacts an event, checks the anchor, appends the row and moves the anchor.
      [SecretRedaction] (security/secret_redaction.py) removes registered secrets
      from what is logged.
    - [ResourceScope] (security/resource_scope.py): the typed scopes of resources
      (file trees, network origins, Git refs, executions, credentials), their
      containment, and the content-addressed catalog that checks each delegation.
    - [EffectivePolicy] (security/policy.py, effective_policy.py, sandbox.py): the
      policy documents of the project and of the user, their compilation into one
      policy with a digest and a catalog of scopes, and the sandbox that enforces
      its mode and its path capabilities.
    - [NetworkGuard] (security/network_guard.py), [CommandGuard]
      (security/command_guard.py), [PathGuard] (security/path_guard.py) and
      [SecretScanner] (security/secret_scanner.py): the checks of domains, of
      commands, of paths and of texts; [PyRegex] has the regular expressions they
      use.  [Middleware] (security/middleware.py, its construction in
      runtime/factory.py) runs them and the sandbox before each tool call, records
      a refusal in the audit log and redacts what a tool returns.

    [ControlDb] declares the tables shared by the repositories (db/schema.sql).

    ** What the theorems show

    - A task becomes completed only by a projection whose checks all held on the
      database it changed, and stays completed; the gate refines its
      specification; every failure leaves the task as it was, and with the
      checks satisfied the gate does complete ([CompletionGate]).
    - The evaluator equals a reference definition of the outcome, does not depend
      on the order of its inputs, and constraints only narrow its result.
    - The decision ledger is append-only with consecutive sequence numbers; what
      is appended is what is read; a proposal appends exactly one evaluated
      decision or nothing, and after a restart the task continues as its status
      and the decision call for; recovery refuses a bad task id and otherwise
      answers an unreadable history with an integrity error ([CompletionRepository],
      [CompletionFlow], [CompletionRecovery]).
    - Stored text is accepted only in its canonical form, and encoding then
      decoding is the identity ([ProtocolBoundary], [Goal], [Completion],
      [Recovery]).
    - The compare-and-set commits exactly the requests whose owner, state, version,
      status, workspace and edge fit the stored row, and serialises concurrent
      commits ([CognitiveState]).
    - Turn events are consecutive, closed turns are frozen, completed turns have
      a result for every tool call ([TurnLedger]).
    - Negative signals only narrow the recovery actions, and the number of
      retries and replans is bounded on the branches where the code bounds it
      ([Recovery]).
    - The topological sort returns a valid order or diagnostics, always
      terminates, and does not depend on the order of declaration ([PlanDag]).
    - Budgets are never oversubscribed, the early-stopping measure equals the
      size of the output ([ToolBudget]); live workers and their limits are
      bounded under every interleaving ([SubagentScheduler]).
    - A tool approval is dispatched at most once and only with the decision its
      owner recorded, in every interleaving of the broker's users; quotas hold;
      waiting calls are woken ([Approvals], [ApprovalWaits]).  A durable approval
      is consumed at most once, only for the binding, principal and session it
      was approved for, and the audit events explain its state
      ([OperationLedger]).  The digest of an authority binds every field
      ([Authority]).
    - The verdict on a script without escapes is the one the reference lexer
      gives; what the lexer refuses is never safe; quoted argument vectors are
      read back exactly; the parser terminates ([ShellLexing]).
    - The authorization epoch identifies the rules of an owner, and a dispatch that
      validates the epoch of its snapshot runs under the rules of the snapshot,
      whatever the engines did meanwhile.  As long as the calls of one engine do not
      overlap and no reload fails half-way, its cache has the current rules when it
      has the current epoch, a check decides on them unless another engine writes
      between its two reads, and a revoked rule does not decide again
      ([PermissionStore], [PermissionEngine]).  A call runs without asking only by
      a typed rule in scope that matches it, a relaxing default or a read-only
      command at a terminal; a remembered rule matches only calls for the same
      thing, for a network origin the same scheme and host, the port if it had one,
      and paths below its own;
      an argument vector is compared with the policy exactly as it is executed
      ([PermissionEvaluator], [PermissionRules]).
    - Exactly the running tasks have a claim and a lease, and an execution that
      lost its task can write nothing ([SchedulerStore]).  A repeating task gets
      its next occurrence ([CronSchedule]).  However the database fails, pausing
      or removing a task with the answer "ok" halts it for good, a write that was
      committed before it raised counts as made, and an executor runs only a task
      it has claimed, under the present policy if the engine has one
      ([CronControl]).  In every history whose operations do not overlap in memory a
      start spares live executions, a stop that succeeds leaves nothing behind and
      one that fails locks the engine ([CronLifecycle]).
    - Events recorded through the logger always replay clean and are never refused;
      a table accepted at startup has the anchored rows with the same hashed text in
      the same order, up to one forged first row and collisions of SHA-256; an event gets an id only if the
      chain from the anchored row to it is intact; what the anchor writes is what
      it reads; queries stay in their principal and project ([AuditChain],
      [AuditAnchor], [AuditLog]).  No registered secret the markers cannot spell
      is left in a redacted value or in the redacted columns of a logged event
      ([SecretRedaction]).
    - Containment of scopes is a preorder that only shrinks what is permitted, so
      a chain of allowed transitions never gains an access; a digest resolves to
      one scope in every catalog of a policy, up to collisions of SHA-256; a
      catalog is read back from its text ([ResourceScope]).
    - The compiled policy is the meet of the project layer, the user layer and the
      mode of the platform; without a user file no project document can leave
      the confined defaults; what the catalog of a policy grants on files its sandbox
      allows; the digest binds every field; compilation fails only on an unknown mode
      or a claimed grant ([EffectivePolicy]).
    - A tool call that the middleware of a compiled policy lets pass is within both
      layers of the policy in what the middleware looks at: its tool, the paths in the
      listed parameters, its command as the guards read it, the scanned arguments and
      the domain of its URL; a refusal is recorded; no registered secret is
      returned ([Middleware]).  The guards enforce their lists on what they see of a
      URL, a script and a path ([NetworkGuard], [CommandGuard], [PathGuard]); a scan
      reports a secret exactly when a line has a text that a pattern describes
      ([SecretScanner], from the soundness and completeness of the matcher in
      [PyRegex]).
    - Where the code does not do what its documents say, a theorem states what it
      does ([second_repository_interrupts_live_turn],
      [completion_replan_ignores_budget], [lost_result_still_completes],
      [second_cancellation_leaks_worker], [retention_reopens_consumed],
      [orphaned_wait_hangs], [empty_quotation_hides_command],
      [continued_words_are_safe], [expansion_skips_commands],
      [failed_reload_revives_revoked_rule], [overlapping_check_uses_revoked_rule],
      [concurrent_grant_hides_deny_rule],
      [change_before_snapshot_unnoticed], [newline_hides_required_command],
      [relaxing_root_not_refused], [remembered_origin_ignores_port],
      [rebinding_hides_then_revives], [zoned_time_stops_selection],
      [negative_interval_always_due], [resumed_task_never_runs],
      [repeated_pause_claims_ok], [failed_pause_cannot_be_resumed],
      [start_discards_intents_of_other_projects], [stopped_engine_never_retries],
      [empty_principal_breaks_chain], [two_legacy_rows_break_chain],
      [nul_shifts_columns], [prefix_edit_unnoticed], [stale_anchor_accepts_rollback],
      [empty_anchor_trusts_forged_row], [nameless_logger_locks_out],
      [security_event_result], [marker_secrets_survive],
      [containment_not_antisymmetric], [backslash_root_is_not_stable],
      [null_is_not_default], [backslash_widens_catalog], [network_off_is_catalogued],
      [missing_platform_bounds_mode], [bad_file_blocks_start],
      [allowlist_opens_disabled_network], [local_git_hides_network_command],
      [path_hides_network_command], [separator_hides_blocked_command],
      [phrase_blocks_nothing], [sudo_prefixes_have_no_effect],
      [default_denials_do_not_deny], [script_is_not_scanned],
      [env_with_arguments_is_refused], [unscanned_outputs]).

    ** Conventions

    - A [str] is the byte string of its (generalised) UTF-8 encoding; [len] and
      [strip] work on code points ([PyStr]).  JSON values are [pyval]; a number
      with a fraction or an exponent is kept as its literal.
    - An exception is its class and its message; the parts a message interpolates
      with [repr] are left out.  [result] is the error monad; an operation that
      also changes state returns the state next to its result.
    - SQL tables are finite maps or lists of rows in insertion order with the
      constraints of the schema.  A transaction is one atomic step, because the
      database object holds its writer lock around it.  Reads made at different
      awaits see unrelated databases unless a transaction joins them.
    - A critical section under an asyncio lock that does not suspend is one atomic
      step; concurrency is an interleaving of such steps.  A coroutine ([Coroutine])
      is interleaved with what others write to the database at each of its accesses;
      calls of one permission engine, or operations of one cron engine, that overlap
      in that engine's memory are not interleaved with each other.
    - Clocks, random identities and the outcome of external calls are arguments.
      Times are finite binary64 values as integer multiples of [2^-1074].
    - Interfaces implemented outside the modelled code (authority policy, fact
      provider, stream socket) are type classes; results of a Python type
      other than the declared one are not representable.
    - Path resolution, IDNA, URL splitting and case mapping of the host platform
      are the class [Platform], with what the proofs use of them in
      [PlatformLaws] ([PermissionRules]); [expanduser] and [resolve] of [pathlib] are
      the class [HostPaths] with its laws ([ResourceScope]), the home directory and
      symbolic links the class [HostHome] ([PathGuard]).  A YAML document is the
      value its parser returns.  The order in which a set of strings is iterated
      is the class [SetOrder] ([Middleware]).
    - An anchor check reads the database at up to four awaits, each with its own
      contents ([Snapshots]); the logger's theorems are about checks during which
      nobody else writes ([quiet]).
    - A storage outage raises before anything is written, except in [Coroutine],
      where a write may also raise after it was committed.  Logging, recursion
      limits and memory exhaustion are not modelled.

    ** Fuel and bounds

    The JSON decoder runs with fuel [3 * length + 1], which [loads] never
    exhausts; the worklists and the Kahn loop of [PlanDag] have fuel from the
    size of the graph, and [toposort_correct] shows the result is never the
    out-of-fuel value; the output measure descends at most 65 levels because
    the code refuses depth 65; reading a bounded line ends after as many
    receives as bytes; the shell parser has one unit of fuel per character,
    which [shell_parser_terminates] shows to be enough.  All other recursion is structural.

    ** Not modelled

    Drivers of external processes and services (model providers, browser, Git,
    language servers, sandboxes, gateways, terminal interface), because their
    behaviour is not in these sources; schema migrations and connection handling;
    the evaluation harness; the Go, Rust and web parts; of the audit log, the
    directory checks of opening, the file that receives copies of the events and
    its archives; the ownership checks on the catalog file of resource scopes.  Within reach of the same methods, and left: persistence and
    control of recovery decisions (agent/control/recovery_repository.py,
    recovery_gate.py, recovery_control.py), the resolvers of authorization
    resources, the authorization of tool calls (tools/authorization.py), plan
    revisions. *)
From stdpp Require Export base list strings gmap.
From Stdlib Require Export ZArith Lia Permutation Sorted.
From Stdlib Require Import Ascii.
Open Scope Z_scope.

#[global] Arguments String.append !_ _ / : simpl nomatch.

(** ** Python exceptions and the error monad *)

(** The exception classes raised by the modelled code, one constructor per
    class. *)
Inductive exn_class :=
| Exception | ValueError | TypeError | KeyError | PermissionError | OverflowError | AttributeError
| RuntimeError | UnicodeEncodeError | UnicodeDecodeError | JSONDecodeError
| ProtocolBoundaryError
| GoalSpecValidationError
| CompletionDecisionValidationError
| CompletionEvaluationInputError
| CompletionDecisionRepositoryError
| CompletionDecisionIntegrityError
| CompletionDecisionBindingError
| CompletionDecisionConflictError
| GoalSpecRepositoryError
| GoalSpecConflictError
| GoalSpecIntegrityError
| SqliteError
| SqliteIntegrityError
| CognitiveStateIntegrityError
| RecoveryContractError
| InvalidPlanDagError
| SubagentBudgetExceeded
| SubagentSchedulerError
| ParallelSubagentContractError
| ToolOutputBudgetExceeded
| KhaosError | PermissionDeniedError | ServiceShutdownError
| AuditAnchorError | OSError
| ResourceScopeError | PolicyCompilationError.

#[export] Instance exn_class_eq_dec : EqDecision exn_class.
Proof. solve_decision. Defined.

(** [exn_base c] is the Python base class of [c] ([None] for [Exception]). *)
Definition exn_base (c : exn_class) : option exn_class :=
  match c with
  | Exception => None
  | ValueError | TypeError | KeyError | RuntimeError
  | SqliteError | KhaosError | OverflowError | AttributeError | OSError => Some Exception
  | UnicodeEncodeError | UnicodeDecodeError | JSONDecodeError | ProtocolBoundaryError
  | GoalSpecValidationError | CompletionDecisionValidationError
  | CompletionEvaluationInputError | RecoveryContractError
  | InvalidPlanDagError | ParallelSubagentContractError
  | ResourceScopeError | PolicyCompilationError => Some ValueError
  | CompletionDecisionRepositoryError | CognitiveStateIntegrityError
  | SubagentBudgetExceeded | SubagentSchedulerError
  | ToolOutputBudgetExceeded | AuditAnchorError => Some RuntimeError
  | PermissionError => Some OSError
  | GoalSpecRepositoryError => Some RuntimeError
  | CompletionDecisionIntegrityError | CompletionDecisionBindingError
  | CompletionDecisionConflictError => Some CompletionDecisionRepositoryError
  | GoalSpecConflictError | GoalSpecIntegrityError => Some GoalSpecRepositoryError
  | SqliteIntegrityError => Some SqliteError
  | PermissionDeniedError | ServiceShutdownError => Some KhaosError
  end.

(** [type(exc).__name__] *)
Definition exn_name (c : exn_class) : string :=
  match c with
  | Exception => "Exception" | ValueError => "ValueError" | TypeError => "TypeError"
  | KeyError => "KeyError" | PermissionError => "PermissionError" | RuntimeError => "RuntimeError"
  | UnicodeEncodeError => "UnicodeEncodeError" | UnicodeDecodeError => "UnicodeDecodeError"
  | AuditAnchorError => "AuditAnchorError" | OSError => "OSError"
  | ResourceScopeError => "ResourceScopeError" | PolicyCompilationError => "PolicyCompilationError" | JSONDecodeError => "JSONDecodeError"
  | ProtocolBoundaryError => "ProtocolBoundaryError"
  | GoalSpecValidationError => "GoalSpecValidationError"
  | CompletionDecisionValidationError => "CompletionDecisionValidationError"
  | CompletionEvaluationInputError => "CompletionEvaluationInputError"
  | CompletionDecisionRepositoryError => "CompletionDecisionRepositoryError"
  | CompletionDecisionIntegrityError => "CompletionDecisionIntegrityError"
  | CompletionDecisionBindingError => "CompletionDecisionBindingError"
  | CompletionDecisionConflictError => "CompletionDecisionConflictError"
  | GoalSpecRepositoryError => "GoalSpecRepositoryError"
  | GoalSpecConflictError => "GoalSpecConflictError"
  | GoalSpecIntegrityError => "GoalSpecIntegrityError"
  | SqliteError => "Error" | SqliteIntegrityError => "IntegrityError"
  | CognitiveStateIntegrityError => "CognitiveStateIntegrityError"
  | RecoveryContractError => "RecoveryContractError"
  | InvalidPlanDagError => "InvalidPlanDagError"
  | SubagentBudgetExceeded => "SubagentBudgetExceeded"
  | SubagentSchedulerError => "SubagentSchedulerError"
  | ParallelSubagentContractError => "ParallelSubagentContractError"
  | ToolOutputBudgetExceeded => "ToolOutputBudgetExceeded"
  | AttributeError => "AttributeError" | OverflowError => "OverflowError" | ServiceShutdownError => "ServiceShutdownError"
  | KhaosError => "KhaosError" | PermissionDeniedError => "PermissionDeniedError"
  end.

(** [isinstance c d]: is [c] the class [d] or derived from it? The hierarchy
    above has depth four. *)
Fixpoint subclass_upto (fuel : nat) (c d : exn_class) : bool :=
  bool_decide (c = d) ||
  match fuel with
  | O => false
  | S f => match exn_base c with Some b => subclass_upto f b d | None => false end
  end.
Definition isinstance (c d : exn_class) : bool := subclass_upto 4 c d.

Record exn := Exn { exn_cls : exn_class; exn_msg : string }.

(** Fallible Python code: a value or a raised exception. *)
Inductive res (A : Type) : Type :=
| Ok (a : A)
| Raise (e : exn).
Arguments Ok {A} a.
Arguments Raise {A} e.

Definition res_bind {A B} (m : res A) (f : A -> res B) : res B :=
  match m with Ok a => f a | Raise e => Raise e end.

Declare Scope py_scope.
Delimit Scope py_scope with py.
Notation "'let*' x ':=' m 'in' k" := (res_bind m (fun x => k))
  (at level 10, x binder, m at level 100, k at level 200) : py_scope.
Notation "m ';;*' k" := (res_bind m (fun _ => k))
  (at level 100, right associativity) : py_scope.
Open Scope py_scope.

(** [if cond: raise C(msg)] *)
Definition raise_if (cond : bool) (c : exn_class) (msg : string) : res unit :=
  if cond then Raise (Exn c msg) else Ok tt.

(** [try: m except classes: handler] *)
Definition try_except {A} (m : res A) (classes : list exn_class) (h : exn -> res A) : res A :=
  match m with
  | Ok a => Ok a
  | Raise e => if existsb (isinstance (exn_cls e)) classes then h e else Raise e
  end.

Definition is_ok {A} (m : res A) : bool :=
  match m with Ok _ => true | Raise _ => false end.

(** [[f(x) for x in l]] where [f] may raise: the first exception wins. *)
Fixpoint res_map {A B} (f : A -> res B) (l : list A) : res (list B) :=
  match l with
  | [] => Ok []
  | x :: l' => let* y := f x in let* ys := res_map f l' in Ok (y :: ys)
  end.

Lemma res_bind_Ok {A B} (m : res A) (f : A -> res B) b :
  res_bind m f = Ok b <-> exists a, m = Ok a /\ f a = Ok b.
Proof.
  destruct m as [a|e]; simpl; split.
  - eauto.
  - by intros (a' & [= ->] & ?).
  - done.
  - by intros (? & ? & ?).
Qed.

Lemma raise_if_Ok c k msg u : raise_if c k msg = Ok u <-> c = false.
Proof. destruct c, u; simpl; naive_solver. Qed.

Lemma raise_if_false c k msg : c = false -> raise_if c k msg = Ok tt.
Proof. by intros ->. Qed.

Lemma try_except_Ok {A} (m : res A) cs h a :
  m = Ok a -> try_except m cs h = Ok a.
Proof. by intros ->. Qed.

(** A handler that only raises adds no result. *)
Lemma try_except_reraise {A} (m : res A) cs h a :
  (forall e b, h e <> Ok b) -> try_except m cs h = Ok a -> m = Ok a.
Proof. destruct m; [done|]. simpl. destruct (existsb _ _); [|done]. by intros H ?%H. Qed.

Lemma try_except_raises {A} e cs (h : exn -> res A) :
  (forall e b, h e <> Ok b) -> exists e', try_except (Raise e) cs h = Raise e'.
Proof.
  intros H. simpl. destruct (existsb _ _); [|by exists e].
  destruct (h e) as [b|e'] eqn:E; [by apply H in E|by exists e'].
Qed.

Lemma res_map_Ok {A B} (f : A -> res B) l ys :
  res_map f l = Ok ys <-> Forall2 (fun x y => f x = Ok y) l ys.
Proof.
  revert ys; induction l as [|x l IH]; intros ys; simpl.
  - split; [intros [= <-]; constructor | by inversion 1].
  - rewrite res_bind_Ok. setoid_rewrite res_bind_Ok. split.
    + intros (y & Hy & zs & Hzs & [= <-]). constructor; [done|by apply IH].
    + inversion 1 as [|? y ? zs Hy Hzs]; subst. exists y; split; [done|].
      exists zs; split; [by apply IH|done].
Qed.

(** [inv_res] turns every hypothesis "this monadic program returned" into the
    equations of its steps. *)
Lemma res_map_Forall {A B} (f : A -> res B) (P : B -> Prop) l ys :
  (forall x y, f x = Ok y -> P y) -> res_map f l = Ok ys -> Forall P ys.
Proof. intros Hf H. apply res_map_Ok in H. induction H; constructor; eauto. Qed.

(** ** Early returns

    A function body with early [return]s: it goes on with a value, or has
    returned, or has raised. *)
Inductive flow (R A : Type) : Type :=
| Next (a : A)
| Return (r : R)
| Throw (e : exn).
Arguments Next {R A} a.
Arguments Return {R A} r.
Arguments Throw {R A} e.

Definition flow_bind {R A B} (m : flow R A) (f : A -> flow R B) : flow R B :=
  match m with Next a => f a | Return r => Return r | Throw e => Throw e end.
Notation "'let!' x ':=' m 'in' k" := (flow_bind m (fun x => k))
  (at level 10, x binder, m at level 100, k at level 200) : py_scope.
Notation "m ';;!' k" := (flow_bind m (fun _ => k))
  (at level 100, right associativity) : py_scope.

(** [if c: return r] *)
Definition return_if {R} (c : bool) (r : R) : flow R unit := if c then Return r else Next tt.
(** A call that may raise. *)
Definition call {R A} (m : res A) : flow R A :=
  match m with Ok a => Next a | Raise e => Throw e end.
(** [x = option; if x is None: return r] *)
Definition some_or {R A} (m : option A) (r : R) : flow R A :=
  match m with Some a => Next a | None => Return r end.
(** [try: call except classes as exc: return handler(exc)] *)
Definition call_or {R A} (m : res A) (classes : list exn_class) (h : exn -> R) : flow R A :=
  match m with
  | Ok a => Next a
  | Raise e => if existsb (isinstance (exn_cls e)) classes then Return (h e) else Throw e
  end.
(** The outcome of a body that ends by returning. *)
Definition run_flow {R} (m : flow R R) : res R :=
  match m with Next r | Return r => Ok r | Throw e => Raise e end.

Lemma flow_bind_Next {R A B} (m : flow R A) (f : A -> flow R B) b :
  flow_bind m f = Next b <-> exists a, m = Next a /\ f a = Next b.
Proof. destruct m; simpl; naive_solver. Qed.
Lemma return_if_Next {R} c (r : R) u : return_if c r = Next u <-> c = false.
Proof. destruct c, u; simpl; naive_solver. Qed.
Lemma call_Next {R A} (m : res A) a : call m = @Next R A a <-> m = Ok a.
Proof. destruct m; simpl; naive_solver. Qed.
Lemma some_or_Next {R A} (m : option A) (r : R) a : some_or m r = Next a <-> m = Some a.
Proof. destruct m; simpl; naive_solver. Qed.
Lemma call_or_Next {R A} (m : res A) cs (h : exn -> R) a : call_or m cs h = Next a <-> m = Ok a.
Proof. destruct m; simpl; [naive_solver|]. destruct (existsb _ _); naive_solver. Qed.

(** Where a body that returned early did so. *)
Lemma flow_bind_Return {R A B} (m : flow R A) (f : A -> flow R B) (P : R -> Prop) :
  (forall r, m = Return r -> P r) -> (forall a r, f a = Return r -> P r) ->
  forall r, flow_bind m f = Return r -> P r.
Proof. destruct m; simpl; naive_solver. Qed.
Lemma return_if_Return {R} c (r : R) (P : R -> Prop) :
  P r -> forall r', return_if c r = Return r' -> P r'.
Proof. destruct c; simpl; naive_solver. Qed.
Lemma some_or_Return {R A} (m : option A) (r : R) (P : R -> Prop) :
  P r -> forall r', some_or m r = Return r' -> P r'.
Proof. destruct m; simpl; naive_solver. Qed.
Lemma call_or_Return {R A} (m : res A) cs (h : exn -> R) (P : R -> Prop) :
  (forall e, P (h e)) -> forall r', call_or m cs h = Return r' -> P r'.
Proof. destruct m; simpl; [done|]. destruct (existsb _ _); naive_solver. Qed.

(** Decompose a body that ran to its end. *)
Ltac inv_flow_step :=
  match goal with
  | H : flow_bind _ _ = Next _ |- _ =>
      apply flow_bind_Next in H;
      let a := fresh "a" in let E := fresh "E" in destruct H as (a & E & H)
  | H : return_if _ _ = Next _ |- _ => apply return_if_Next in H
  | H : call _ = Next _ |- _ => apply call_Next in H
  | H : some_or _ _ = Next _ |- _ => apply some_or_Next in H
  | H : call_or _ _ _ = Next _ |- _ => apply call_or_Next in H
  | H : Next _ = Next _ |- _ => injection H; clear H; intros; subst
  end.
Ltac inv_flow := repeat inv_flow_step.

Ltac inv_res_step :=
  match goal with
  | H : res_bind _ _ = Ok _ |- _ =>
      apply res_bind_Ok in H; destruct H as (? & ? & H)
  | H : raise_if _ _ _ = Ok ?u |- _ =>
      apply raise_if_Ok in H; try (clear u)
  | H : Ok _ = Ok _ |- _ => injection H; clear H; intros; subst
  | H : Raise _ = Ok _ |- _ => discriminate H
  end.
Ltac inv_res := repeat inv_res_step.

Create HintDb khaos discriminated.

(** ** Python's ordering and stable sort *)

(** Values Python compares with [<]: a total order given by a comparison. *)
Class PyOrd (K : Type) := py_compare : K -> K -> comparison.
Class PyOrdLaws (K : Type) `{PyOrd K} := {
  py_compare_eq : forall x y : K, py_compare x y = Eq <-> x = y;
  py_compare_opp : forall x y : K, py_compare y x = CompOpp (py_compare x y);
  py_compare_lt_trans : forall x y z : K,
    py_compare x y = Lt -> py_compare y z = Lt -> py_compare x z = Lt
}.

Definition py_leb {K} `{PyOrd K} (x y : K) : bool :=
  match py_compare x y with Gt => false | _ => true end.

(** Tuples and lists compare lexicographically. *)
#[export] Instance pyord_Z : PyOrd Z := Z.compare.
#[export] Instance pyord_ascii : PyOrd ascii := fun a b => N.compare (N_of_ascii a) (N_of_ascii b).
#[export] Instance pyord_prod {A B} `{PyOrd A, PyOrd B} : PyOrd (A * B) := fun x y =>
  match py_compare x.1 y.1 with Eq => py_compare x.2 y.2 | c => c end.
Fixpoint list_compare {A} `{PyOrd A} (l k : list A) : comparison :=
  match l, k with
  | [], [] => Eq
  | [], _ :: _ => Lt
  | _ :: _, [] => Gt
  | x :: l', y :: k' => match py_compare x y with Eq => list_compare l' k' | c => c end
  end.
#[export] Instance pyord_list {A} `{PyOrd A} : PyOrd (list A) := list_compare.
#[export] Instance pyord_string : PyOrd string := fun s t =>
  list_compare (String.list_ascii_of_string s) (String.list_ascii_of_string t).

#[export] Instance pyord_Z_laws : PyOrdLaws Z.
Proof.
  split; unfold py_compare, pyord_Z.
  - apply Z.compare_eq_iff.
  - intros; apply Z.compare_antisym.
  - intros x y z; rewrite !Z.compare_lt_iff; lia.
Qed.

#[export] Instance pyord_ascii_laws : PyOrdLaws ascii.
Proof.
  split; unfold py_compare, pyord_ascii.
  - intros x y; rewrite N.compare_eq_iff. split; [|by intros ->].
    intros H. by rewrite <-(ascii_N_embedding x), <-(ascii_N_embedding y), H.
  - intros; apply N.compare_antisym.
  - intros x y z; rewrite !N.compare_lt_iff; lia.
Qed.

#[export] Instance pyord_prod_laws {A B} `{PyOrdLaws A, PyOrdLaws B} : PyOrdLaws (A * B).
Proof.
  split; unfold py_compare, pyord_prod.
  - intros [a b] [a' b']; simpl. destruct (py_compare a a') eqn:E.
    + apply py_compare_eq in E as ->. rewrite py_compare_eq. split; congruence.
    + split; [done|]. intros [= -> ->]. by rewrite (proj2 (py_compare_eq a' a') eq_refl) in E.
    + split; [done|]. intros [= -> ->]. by rewrite (proj2 (py_compare_eq a' a') eq_refl) in E.
  - intros [a b] [a' b']; simpl. rewrite (py_compare_opp a a').
    destruct (py_compare a a'); simpl; [apply py_compare_opp|done|done].
  - intros [a b] [a' b'] [a'' b'']; simpl.
    destruct (py_compare a a') eqn:E1; [apply py_compare_eq in E1 as ->| |done].
    + destruct (py_compare a' a''); [apply py_compare_lt_trans|done|done].
    + intros _. destruct (py_compare a' a'') eqn:E2; [|intros _|done].
      * apply py_compare_eq in E2 as <-. by rewrite E1.
      * by rewrite (py_compare_lt_trans _ _ _ E1 E2).
Qed.

#[export] Instance pyord_list_laws {A} `{PyOrdLaws A} : PyOrdLaws (list A).
Proof.
  split; unfold py_compare, pyord_list.
  - induction x as [|a x IH]; intros [|b y]; simpl; try (split; congruence).
    destruct (py_compare a b) eqn:E.
    + apply py_compare_eq in E as ->. rewrite IH. split; congruence.
    + split; [done|]. intros [= -> ->]. by rewrite (proj2 (py_compare_eq b b) eq_refl) in E.
    + split; [done|]. intros [= -> ->]. by rewrite (proj2 (py_compare_eq b b) eq_refl) in E.
  - induction x as [|a x IH]; intros [|b y]; simpl; try done.
    rewrite (py_compare_opp a b). destruct (py_compare a b); simpl; auto.
  - induction x as [|a x IH]; intros [|b y] [|c z]; simpl; try done.
    destruct (py_compare a b) eqn:E1; [apply py_compare_eq in E1 as ->| |done].
    + destruct (py_compare b c); [apply IH|done|done].
    + intros _. destruct (py_compare b c) eqn:E2; [|intros _|done].
      * apply py_compare_eq in E2 as <-. by rewrite E1.
      * by rewrite (py_compare_lt_trans _ _ _ E1 E2).
Qed.

Lemma list_ascii_of_string_inj s t :
  String.list_ascii_of_string s = String.list_ascii_of_string t -> s = t.
Proof.
  intros H. by rewrite <-(String.string_of_list_ascii_of_string s), H,
    String.string_of_list_ascii_of_string.
Qed.

#[export] Instance pyord_string_laws : PyOrdLaws string.
Proof.
  split; unfold py_compare, pyord_string.
  - intros x y. pose proof (py_compare_eq (K := list ascii)) as He.
    unfold py_compare, pyord_list in He. rewrite He. split; [|by intros ->].
    apply list_ascii_of_string_inj.
  - intros x y. apply (py_compare_opp (K := list ascii)).
  - intros x y z. apply (py_compare_lt_trans (K := list ascii)).
Qed.

(** [sorted(l, key=key)]: a stable insertion sort. *)
Fixpoint insert_by {A K} `{PyOrd K} (key : A -> K) (x : A) (l : list A) : list A :=
  match l with
  | [] => [x]
  | y :: l' => if py_leb (key x) (key y) then x :: l else y :: insert_by key x l'
  end.
Definition sorted_by {A K} `{PyOrd K} (key : A -> K) (l : list A) : list A :=
  foldr (insert_by key) [] l.
(** [sorted(l)] *)
Definition py_sorted {K} `{PyOrd K} (l : list K) : list K := sorted_by id l.

Section sorting.
Context {A K : Type} `{PyOrdLaws K} (key : A -> K).
Implicit Types l : list A.

Lemma py_leb_refl (x : K) : py_leb x x = true.
Proof. unfold py_leb. by rewrite (proj2 (py_compare_eq x x) eq_refl). Qed.

Lemma py_leb_total (x y : K) : py_leb x y = false -> py_leb y x = true.
Proof. unfold py_leb. rewrite (py_compare_opp x y). by destruct (py_compare x y). Qed.

Lemma py_leb_antisym (x y : K) : py_leb x y = true -> py_leb y x = true -> x = y.
Proof.
  unfold py_leb. rewrite (py_compare_opp x y).
  destruct (py_compare x y) eqn:E; try done. by intros; apply py_compare_eq.
Qed.

Lemma py_leb_trans (x y z : K) : py_leb x y = true -> py_leb y z = true -> py_leb x z = true.
Proof.
  unfold py_leb. destruct (py_compare x y) eqn:E1; try done; intros _.
  - by apply py_compare_eq in E1 as ->.
  - destruct (py_compare y z) eqn:E2; try done; intros _.
    + apply py_compare_eq in E2 as <-. by rewrite E1.
    + by rewrite (py_compare_lt_trans _ _ _ E1 E2).
Qed.

Definition key_sorted l : Prop := StronglySorted (fun x y => py_leb (key x) (key y) = true) l.

Lemma insert_by_perm x l : insert_by key x l ≡ₚ x :: l.
Proof.
  induction l as [|y l IH]; simpl; [done|].
  destruct (py_leb _ _); [done|]. by rewrite IH, perm_swap.
Qed.

Lemma sorted_by_perm l : sorted_by key l ≡ₚ l.
Proof. induction l as [|x l IH]; simpl; [done|]. by rewrite insert_by_perm, IH. Qed.

Lemma insert_by_sorted x l : key_sorted l -> key_sorted (insert_by key x l).
Proof.
  unfold key_sorted. induction 1 as [|y l Hs IH Hf]; simpl; [by repeat constructor|].
  destruct (py_leb (key x) (key y)) eqn:E.
  - constructor; [by constructor|]. constructor; [done|].
    eapply Forall_impl; [exact Hf|]; simpl. intros z. by apply py_leb_trans.
  - constructor; [done|]. rewrite insert_by_perm.
    constructor; [by apply py_leb_total|done].
Qed.

Lemma sorted_by_sorted l : key_sorted (sorted_by key l).
Proof.
  induction l as [|x l IH]; simpl; [constructor|by apply insert_by_sorted].
Qed.

(** Sorting a sorted list changes nothing (this is where stability is used). *)
Lemma sorted_by_id l : key_sorted l -> sorted_by key l = l.
Proof.
  induction 1 as [|x l Hs IH Hf]; simpl; [done|]. rewrite IH.
  destruct Hf as [|y l Hxy _]; simpl; [done|]. by rewrite Hxy.
Qed.

Lemma sorted_by_idemp l : sorted_by key (sorted_by key l) = sorted_by key l.
Proof. apply sorted_by_id, sorted_by_sorted. Qed.

(** Two sorted permutations of one another coincide when the key identifies
    the elements. *)
Lemma key_sorted_unique l1 l2 :
  (forall x y, x ∈ l1 -> y ∈ l1 -> key x = key y -> x = y) ->
  key_sorted l1 -> key_sorted l2 -> l1 ≡ₚ l2 -> l1 = l2.
Proof.
  intros Hinj Hs1. revert l2. induction Hs1 as [|x l1 Hs1 IH Hf1]; intros l2 Hs2 Hp.
  - by apply Permutation_nil in Hp.
  - destruct Hs2 as [|y l2 Hs2 Hf2]; [by symmetry in Hp; apply Permutation_nil in Hp|].
    assert (x = y) as ->.
    { assert (Hx : x ∈ y :: l2) by (rewrite <-Hp; left).
      assert (Hy : y ∈ x :: l1) by (rewrite Hp; left).
      apply elem_of_cons in Hx as [->|Hx]; [done|].
      apply elem_of_cons in Hy as [->|Hy]; [done|].
      apply Hinj; [left|by right|]. apply py_leb_antisym.
      - rewrite Forall_forall in Hf1. by apply Hf1.
      - rewrite Forall_forall in Hf2. by apply Hf2. }
    f_equal. apply IH; [|done|by apply Permutation_cons_inv in Hp].
    intros; apply Hinj; by right || done.
Qed.

Lemma sorted_by_perm_eq l1 l2 :
  (forall x y, x ∈ l1 -> y ∈ l1 -> key x = key y -> x = y) ->
  l1 ≡ₚ l2 -> sorted_by key l1 = sorted_by key l2.
Proof.
  intros Hinj Hp. apply key_sorted_unique.
  - intros x y. rewrite sorted_by_perm. apply Hinj.
  - apply sorted_by_sorted.
  - apply sorted_by_sorted.
  - by rewrite !sorted_by_perm.
Qed.

Lemma elem_of_sorted_by x l : x ∈ sorted_by key l <-> x ∈ l.
Proof. by rewrite sorted_by_perm. Qed.

Lemma Forall_sorted_by (P : A -> Prop) l : Forall P (sorted_by key l) <-> Forall P l.
Proof. by rewrite sorted_by_perm. Qed.

Lemma length_sorted_by l : length (sorted_by key l) = length l.
Proof. by rewrite sorted_by_perm. Qed.

Lemma sorted_by_nodup l : NoDup (key <$> sorted_by key l) <-> NoDup (key <$> l).
Proof. by rewrite sorted_by_perm. Qed.

Lemma sorted_by_nil_inv l : sorted_by key l = [] -> l = [].
Proof. intros E. apply Permutation_nil. by rewrite <-E, sorted_by_perm. Qed.
End sorting.

(** Sorting commutes with a map that preserves the key. *)
Lemma sorted_by_fmap {A B K} `{PyOrd K} (kA : A -> K) (kB : B -> K) (f : A -> B) (l : list A) :
  (forall x, kB (f x) = kA x) -> sorted_by kB (f <$> l) = f <$> sorted_by kA l.
Proof.
  intros Hk. induction l as [|x l IH]; [done|].
  change (insert_by kB (f x) (sorted_by kB (f <$> l)) = f <$> insert_by kA x (sorted_by kA l)).
  rewrite IH. generalize (sorted_by kA l) as k. clear IH. induction k as [|y k IH]; simpl; [done|].
  rewrite !Hk. destruct (py_leb _ _); [done|]. rewrite fmap_cons. f_equal. exact IH.
Qed.

#[export] Hint Resolve sorted_by_perm sorted_by_sorted : khaos.
Create Rewrite HintDb khaos_rw.
#[export] Hint Rewrite @sorted_by_idemp @length_sorted_by : khaos_rw.

(** ** Booleans and lists *)
Lemma forallb_Forall_true {A} (p : A -> bool) l :
  forallb p l = true <-> Forall (fun x => p x = true) l.
Proof.
  induction l as [|x l IH]; simpl; [by split|].
  rewrite andb_true_iff, IH. split; [intros []; by constructor|inversion 1; auto].
Qed.

Lemma existsb_false {A} (p : A -> bool) l :
  existsb p l = false <-> Forall (fun x => p x = false) l.
Proof.
  induction l as [|x l IH]; simpl; [by split|].
  rewrite orb_false_iff, IH. split; [intros []; by constructor|inversion 1; auto].
Qed.

Lemma existsb_true {A} (p : A -> bool) l :
  existsb p l = true <-> exists x, x ∈ l /\ p x = true.
Proof.
  induction l as [|x l IH]; simpl.
  - split; [done|]. intros (x & Hx & _). by apply not_elem_of_nil in Hx.
  - rewrite orb_true_iff, IH. setoid_rewrite elem_of_cons. naive_solver.
Qed.

(** A key without duplicates identifies the elements of a list. *)
Lemma fmap_nodup_inj {A B} (key : A -> B) l x y :
  NoDup (key <$> l) -> x ∈ l -> y ∈ l -> key x = key y -> x = y.
Proof.
  intros Hnd Hx Hy E. induction l as [|z l IH]; [by apply not_elem_of_nil in Hx|].
  rewrite fmap_cons, NoDup_cons in Hnd. destruct Hnd as [Hz Hnd].
  apply elem_of_cons in Hx as [->|Hx], Hy as [->|Hy]; auto.
  - destruct Hz. rewrite E. by apply list_elem_of_fmap_2.
  - destruct Hz. rewrite <-E. by apply list_elem_of_fmap_2.
Qed.

(** ** Database transactions

    [Database.transaction()] holds the single writer lock, commits on a normal
    exit and rolls back on an exception: a transaction body is a state
    transformer whose effect is kept only when it returns. *)
Definition transaction {S A} (body : S -> res A * S) (s : S) : res A * S :=
  match body s with
  | (Ok a, s') => (Ok a, s')
  | (Raise e, _) => (Raise e, s)
  end.

Lemma transaction_raise {S A} (body : S -> res A * S) s e s' :
  transaction body s = (Raise e, s') -> s' = s.
Proof. unfold transaction. destruct (body s) as [[] ?]; by intros [= ]. Qed.
