(* ===== verification/PyStr.v ===== *)
(** * Python strings

    A Python [str] is represented by the [String.string] holding the
    (generalised) UTF-8 encoding of its code points: one [ascii] is one byte.
    This representation is a bijection on Python strings, it commutes with
    concatenation and prefix tests, and byte order is code-point order, so
    equality, [startswith], [+] and sorting are the operations on byte
    strings.  Only [len], [strip] and [encode] look inside code points; they
    are defined here. *)
From Stdlib Require Import Ascii.
From S2P Require Import Prelude.
Open Scope Z_scope.

Definition byte (c : ascii) : Z := Z.of_N (N_of_ascii c).
Definition chr (n : Z) : ascii := ascii_of_N (Z.to_N n).

Definition between (lo hi x : Z) : bool := (lo <=? x) && (x <=? hi).

(** A byte [10xxxxxx] continues a code point. *)
Definition is_continuation (c : ascii) : bool := between 128 191 (byte c).

(** [len(s)]: the number of code points. *)
Fixpoint py_len (s : string) : Z :=
  match s with
  | EmptyString => 0
  | String c s' => (if is_continuation c then 0 else 1) + py_len s'
  end.

(** Does [s] hold a surrogate code point (bytes [ED A0..BF])? Such a string
    has no UTF-8 encoding. *)
Fixpoint has_surrogate (s : string) : bool :=
  match s with
  | String a ((String b _) as s') => ((byte a =? 237) && between 160 191 (byte b)) || has_surrogate s'
  | _ => false
  end.

(** [s.encode("utf-8")] *)
Definition encode_utf8 (s : string) : res string :=
  raise_if (has_surrogate s) UnicodeEncodeError "surrogates not allowed" ;;* Ok s.

(** The characters [str.strip] removes (the Unicode white space of
    [str.isspace]), by the length of their encoding. *)
Definition ws1 (a : ascii) : bool :=
  between 9 13 (byte a) || between 28 32 (byte a).
Definition ws2 (a b : ascii) : bool :=
  (byte a =? 194) && ((byte b =? 133) || (byte b =? 160)).
Definition ws3 (a b c : ascii) : bool :=
  ((byte a =? 225) && (byte b =? 154) && (byte c =? 128))
  || ((byte a =? 226) && (byte b =? 128)
      && (between 128 138 (byte c) || (byte c =? 168) || (byte c =? 169) || (byte c =? 175)))
  || ((byte a =? 226) && (byte b =? 129) && (byte c =? 159))
  || ((byte a =? 227) && (byte b =? 128) && (byte c =? 128)).

Fixpoint drop_ws (w2 : ascii -> ascii -> bool) (w3 : ascii -> ascii -> ascii -> bool)
    (l : list ascii) : list ascii :=
  match l with
  | [] => []
  | a :: l1 =>
      if ws1 a then drop_ws w2 w3 l1 else
      match l1 with
      | [] => l
      | b :: l2 =>
          if w2 a b then drop_ws w2 w3 l2 else
          match l2 with
          | [] => l
          | c :: l3 => if w3 a b c then drop_ws w2 w3 l3 else l
          end
      end
  end.
Definition lstrip_bytes (l : list ascii) : list ascii := drop_ws ws2 ws3 l.
Definition rstrip_bytes (l : list ascii) : list ascii :=
  rev (drop_ws (fun b a => ws2 a b) (fun c b a => ws3 a b c) (rev l)).

(** [s.strip()] *)
Definition py_strip (s : string) : string :=
  String.string_of_list_ascii (rstrip_bytes (lstrip_bytes (String.list_ascii_of_string s))).

(** [s[:n]] *)
Fixpoint py_take (n : nat) (s : string) : string :=
  match s with
  | EmptyString => EmptyString
  | String c r =>
      if is_continuation c then String c (py_take n r)
      else match n with O => EmptyString | S n' => String c (py_take n' r) end
  end.

Definition LF : ascii := "010"%char.
Definition CR : ascii := "013"%char.

(** [s.replace("\r\n", "\n")] *)
Fixpoint replace_crlf (s : string) : string :=
  match s with
  | EmptyString => EmptyString
  | String a s1 =>
      match s1 with
      | String b s2 =>
          if Ascii.eqb a CR && Ascii.eqb b LF then String LF (replace_crlf s2)
          else String a (replace_crlf s1)
      | EmptyString => String a EmptyString
      end
  end.
(** [s.replace("\r", "\n")] *)
Fixpoint replace_cr (s : string) : string :=
  match s with
  | EmptyString => EmptyString
  | String a s1 => String (if Ascii.eqb a CR then LF else a) (replace_cr s1)
  end.

Fixpoint string_forallb (p : ascii -> bool) (s : string) : bool :=
  match s with EmptyString => true | String c s' => p c && string_forallb p s' end.
Definition string_existsb (p : ascii -> bool) (s : string) : bool :=
  negb (string_forallb (fun c => negb (p c)) s).

Definition is_hex_lower (c : ascii) : bool := between 48 57 (byte c) || between 97 102 (byte c).

(** [re.compile(r"^[0-9a-f]{64}$").fullmatch(s) is not None] *)
Definition is_sha256_hex (s : string) : bool :=
  Nat.eqb (String.length s) 64 && string_forallb is_hex_lower s.

(** [not s] *)
Definition str_empty (s : string) : bool :=
  match s with EmptyString => true | _ => false end.

(** [x in l] for a list of strings *)
Definition str_in (x : string) (l : list string) : bool := bool_decide (x ∈ l).

(** [len(l) != len(set(l))] *)
Definition has_duplicates (l : list string) : bool := negb (bool_decide (NoDup l)).

Lemma str_app_assoc (s t u : string) : (s +:+ t) +:+ u = s +:+ t +:+ u.
Proof. induction s as [|c s IH]; simpl; [done|]. by rewrite IH. Qed.
Lemma str_app_nil_r (s : string) : s +:+ EmptyString = s.
Proof. induction s as [|c s IH]; simpl; [done|]. by rewrite IH. Qed.
Lemma str_length_app (s t : string) :
  String.length (s +:+ t) = (String.length s + String.length t)%nat.
Proof. induction s as [|c s IH]; simpl; [done|]. by rewrite IH. Qed.

Lemma string_forallb_app p s t :
  string_forallb p (s +:+ t) = string_forallb p s && string_forallb p t.
Proof. induction s as [|c s IH]; simpl; [done|]. by rewrite IH, andb_assoc. Qed.

Lemma byte_chr n : 0 <= n < 256 -> byte (chr n) = n.
Proof.
  intros H. unfold byte, chr. rewrite N_ascii_embedding by lia. lia.
Qed.

Lemma byte_range c : 0 <= byte c < 256.
Proof. unfold byte. pose proof (N_ascii_bounded c). lia. Qed.

Lemma py_len_nonneg s : 0 <= py_len s.
Proof. induction s as [|c s IH]; simpl; [lia|]. destruct (is_continuation c); lia. Qed.

Lemma py_len_app s t : py_len (s +:+ t) = py_len s + py_len t.
Proof. induction s as [|c s IH]; simpl; [done|]. rewrite IH. lia. Qed.

Lemma py_len_le_length s : py_len s <= Z.of_nat (String.length s).
Proof. induction s as [|c s IH]; simpl; [lia|]. destruct (is_continuation c); lia. Qed.

Lemma is_hex_not_continuation c : is_hex_lower c = true -> is_continuation c = false.
Proof. unfold is_hex_lower, is_continuation, between. lia. Qed.

Lemma sha256_hex_len s : is_sha256_hex s = true -> py_len s = 64.
Proof.
  unfold is_sha256_hex. intros [HL HF]%andb_true_iff. apply Nat.eqb_eq in HL.
  assert (py_len s = Z.of_nat (String.length s)) as ->; [|lia].
  clear HL. induction s as [|c s IH]; simpl in *; [done|].
  apply andb_true_iff in HF as [Hc HF]. rewrite (is_hex_not_continuation _ Hc), (IH HF). lia.
Qed.

Lemma sha256_hex_nonempty s : is_sha256_hex s = true -> str_empty s = false.
Proof. by destruct s. Qed.

Lemma has_surrogate_cons2 a b s :
  has_surrogate (String a (String b s))
  = ((byte a =? 237) && between 160 191 (byte b)) || has_surrogate (String b s).
Proof. done. Qed.

Lemma sha256_hex_no_surrogate s : is_sha256_hex s = true -> has_surrogate s = false.
Proof.
  unfold is_sha256_hex. intros [_ HF]%andb_true_iff.
  induction s as [|a s IH]; [done|]. cbn [string_forallb] in HF.
  apply andb_true_iff in HF as [Ha HF]. specialize (IH HF).
  destruct s as [|b s]; [done|]. rewrite has_surrogate_cons2, IH.
  unfold is_hex_lower, between in Ha. replace (byte a =? 237) with false by lia. done.
Qed.

Lemma str_empty_false s : str_empty s = false <-> s ≠ EmptyString.
Proof. by destruct s. Qed.

Lemma str_in_true x l : str_in x l = true <-> x ∈ l.
Proof. apply bool_decide_eq_true. Qed.

Lemma str_in_false x l : str_in x l = false <-> x ∉ l.
Proof. apply bool_decide_eq_false. Qed.

Lemma has_duplicates_false l : has_duplicates l = false <-> NoDup l.
Proof. unfold has_duplicates. rewrite negb_false_iff. apply bool_decide_eq_true. Qed.

#[export] Hint Resolve py_len_nonneg sha256_hex_nonempty sha256_hex_no_surrogate : khaos.
