(* ===== verification/Json.v ===== *)
(** * Python's [json] module

    The values [json.loads] produces, the decoder ([loads], with its
    [object_pairs_hook] and [parse_constant] hooks) and the encoder
    ([dumps] with [ensure_ascii=False, sort_keys=True]).  The main result is
    that decoding an encoded value gives the value back with the keys of
    every object sorted.

    Numbers with a fraction or an exponent are kept as their literal; the
    interpreter's resource limits (recursion depth, digits of an integer
    literal) are not modelled. *)
From Stdlib Require Import Ascii.
From S2P Require Import Prelude PyStr.
Open Scope Z_scope.

(** ** Values *)
Unset Elimination Schemes.
Inductive pyval :=
| PNone
| PBool (b : bool)
| PInt (z : Z)
| PFloat (literal : string)
| PStr (s : string)
| PList (l : list pyval)
| PDict (d : list (string * pyval)).
Set Elimination Schemes.

Section pyval_ind.
Variable P : pyval -> Prop.
Hypothesis HNone : P PNone.
Hypothesis HBool : forall b, P (PBool b).
Hypothesis HInt : forall z, P (PInt z).
Hypothesis HFloat : forall s, P (PFloat s).
Hypothesis HStr : forall s, P (PStr s).
Hypothesis HList : forall l, Forall P l -> P (PList l).
Hypothesis HDict : forall d, Forall (fun kv => P kv.2) d -> P (PDict d).

Fixpoint pyval_ind (v : pyval) : P v :=
  match v with
  | PNone => HNone
  | PBool b => HBool b
  | PInt z => HInt z
  | PFloat s => HFloat s
  | PStr s => HStr s
  | PList l =>
      HList l ((fix go (l : list pyval) : Forall P l :=
        match l with
        | [] => List.Forall_nil _
        | x :: l' => @List.Forall_cons _ _ x l' (pyval_ind x) (go l')
        end) l)
  | PDict d =>
      HDict d ((fix go (d : list (string * pyval)) : Forall (fun kv => P kv.2) d :=
        match d with
        | [] => List.Forall_nil _
        | kv :: d' => @List.Forall_cons _ (fun kv => P kv.2) kv d' (pyval_ind kv.2) (go d')
        end) d)
  end.
End pyval_ind.

(** [d[k]] and [d.get(k)]: a [dict] is an association list without duplicate
    keys, in insertion order. *)
Fixpoint dict_get {V} (k : string) (d : list (string * V)) : option V :=
  match d with
  | [] => None
  | (k', v) :: d' => if bool_decide (k = k') then Some v else dict_get k d'
  end.
(** [d[k] = v] *)
Fixpoint dict_set {V} (k : string) (v : V) (d : list (string * V)) : list (string * V) :=
  match d with
  | [] => [(k, v)]
  | (k', v') :: d' => if bool_decide (k = k') then (k, v) :: d' else (k', v') :: dict_set k v d'
  end.
Definition dict_keys {V} (d : list (string * V)) : list string := d.*1.

(** ** Encoder *)
Definition digit_char (d : Z) : ascii := chr (48 + d).

Fixpoint dec_digits (fuel : nat) (n : Z) (acc : string) : string :=
  match fuel with
  | O => acc
  | S f =>
      let acc' := String (digit_char (n mod 10)) acc in
      if n <? 10 then acc' else dec_digits f (n / 10) acc'
  end.
Definition nat_to_dec (n : Z) : string := dec_digits (S (Z.to_nat (Z.log2 n))) n EmptyString.
(** [int.__repr__] *)
Definition Z_to_dec (z : Z) : string :=
  if z <? 0 then String "-" (nat_to_dec (- z)) else nat_to_dec z.

Definition hex_digit (d : Z) : ascii := if d <? 10 then chr (48 + d) else chr (87 + d).

Definition QUOTE : ascii := "034"%char.

(** [json.encoder.encode_basestring], one character. *)
Definition escape_char (c : ascii) : string :=
  if byte c =? 34 then String "\" (String QUOTE EmptyString)
  else if byte c =? 92 then String "\" (String "\" EmptyString)
  else if byte c =? 8 then String "\" (String "b" EmptyString)
  else if byte c =? 12 then String "\" (String "f" EmptyString)
  else if byte c =? 10 then String "\" (String "n" EmptyString)
  else if byte c =? 13 then String "\" (String "r" EmptyString)
  else if byte c =? 9 then String "\" (String "t" EmptyString)
  else if byte c <? 32 then
    String "\" (String "u" (String "0" (String "0"
      (String (hex_digit (byte c / 16)) (String (hex_digit (byte c mod 16)) EmptyString)))))
  else String c EmptyString.

Fixpoint escape (s : string) : string :=
  match s with EmptyString => EmptyString | String c s' => escape_char c +:+ escape s' end.

Definition encode_str (s : string) : string := String QUOTE (escape s +:+ String QUOTE EmptyString).

Fixpoint join (sep : string) (l : list string) : string :=
  match l with
  | [] => EmptyString
  | [x] => x
  | x :: l' => x +:+ sep +:+ join sep l'
  end.

Definition is_nan_literal (s : string) : bool :=
  bool_decide (s = "NaN") || bool_decide (s = "Infinity") || bool_decide (s = "-Infinity").

Section dumps.
(** [separators=(item_sep, key_sep)]; objects with their keys sorted. *)
Variables (item_sep key_sep : string).

Fixpoint dumps (v : pyval) : string :=
  match v with
  | PNone => "null"
  | PBool true => "true"
  | PBool false => "false"
  | PInt z => Z_to_dec z
  | PFloat lit => lit
  | PStr s => encode_str s
  | PList l => "[" +:+ join item_sep (dumps <$> l) +:+ "]"
  | PDict d =>
      "{" +:+ join item_sep
        ((fun kt => encode_str kt.1 +:+ key_sep +:+ kt.2) <$>
           sorted_by fst ((fun kv => (kv.1, dumps kv.2)) <$> d)) +:+ "}"
  end.
End dumps.

(** Does the value hold a number that is not finite? ([allow_nan=False]) *)
Fixpoint has_nan (v : pyval) : bool :=
  match v with
  | PFloat lit => is_nan_literal lit
  | PList l => existsb has_nan l
  | PDict d => existsb (fun kv => has_nan kv.2) d
  | _ => false
  end.

(** [json.dumps(v, ensure_ascii=False, sort_keys=True, separators=(",", ":"),
    allow_nan=False)] *)
Definition dumps_canonical (v : pyval) : res string :=
  raise_if (has_nan v) ValueError "Out of range float values are not JSON compliant" ;;*
  Ok (dumps "," ":" v).

(** ** Decoder *)
Definition decode_error {A} : res A := Raise (Exn JSONDecodeError "Expecting value").

Definition is_ws (c : ascii) : bool :=
  (byte c =? 32) || (byte c =? 9) || (byte c =? 10) || (byte c =? 13).
Fixpoint skip_ws (s : string) : string :=
  match s with
  | String c s' => if is_ws c then skip_ws s' else s
  | EmptyString => EmptyString
  end.

Definition is_digit (c : ascii) : bool := between 48 57 (byte c).
Fixpoint span_digits (s : string) : string * string :=
  match s with
  | String c s' =>
      if is_digit c then let '(d, r) := span_digits s' in (String c d, r) else (EmptyString, s)
  | EmptyString => (EmptyString, EmptyString)
  end.
Fixpoint dec_value (acc : Z) (s : string) : Z :=
  match s with
  | EmptyString => acc
  | String c s' => dec_value (10 * acc + (byte c - 48)) s'
  end.

(** The optional fraction and exponent of a number: the text consumed and the
    rest. *)
Definition match_fraction (s : string) : string * string :=
  match s with
  | String c s' =>
      if byte c =? 46 then
        let '(d, r) := span_digits s' in
        if str_empty d then (EmptyString, s) else (String c d, r)
      else (EmptyString, s)
  | EmptyString => (EmptyString, EmptyString)
  end.
Definition match_exponent (s : string) : string * string :=
  match s with
  | String c s' =>
      if (byte c =? 101) || (byte c =? 69) then
        let '(sg, s'') :=
          match s' with
          | String d t => if (byte d =? 43) || (byte d =? 45) then (String d EmptyString, t) else (EmptyString, s')
          | EmptyString => (EmptyString, EmptyString)
          end in
        let '(d, r) := span_digits s'' in
        if str_empty d then (EmptyString, s) else (String c (sg +:+ d), r)
      else (EmptyString, s)
  | EmptyString => (EmptyString, EmptyString)
  end.

(** The integer part: [0] alone, or digits that do not start with [0]. *)
Definition match_integer (s : string) : string * string :=
  match s with
  | String c s' => if byte c =? 48 then (String c EmptyString, s') else span_digits s
  | EmptyString => (EmptyString, EmptyString)
  end.

Definition parse_number (s : string) : res (pyval * string) :=
  let '(neg, s1) :=
    match s with
    | String c s' => if byte c =? 45 then (true, s') else (false, s)
    | EmptyString => (false, s)
    end in
  let '(i, s2) := match_integer s1 in
  if str_empty i then decode_error else
  let '(fr, s3) := match_fraction s2 in
  let '(ex, s4) := match_exponent s3 in
  if str_empty fr && str_empty ex then
    Ok (PInt (if neg then - dec_value 0 i else dec_value 0 i), s4)
  else Ok (PFloat ((if neg then "-" else EmptyString) +:+ i +:+ fr +:+ ex), s4).

Definition hex_value (c : ascii) : option Z :=
  let b := byte c in
  if between 48 57 b then Some (b - 48)
  else if between 97 102 b then Some (b - 87)
  else if between 65 70 b then Some (b - 55)
  else None.
Definition hex4 (a b c d : ascii) : option Z :=
  match hex_value a, hex_value b, hex_value c, hex_value d with
  | Some w, Some x, Some y, Some z => Some (4096 * w + 256 * x + 16 * y + z)
  | _, _, _, _ => None
  end.

(** The bytes of one code point (generalised UTF-8: surrogates included). *)
Definition utf8 (n : Z) : string :=
  if n <? 128 then String (chr n) EmptyString
  else if n <? 2048 then String (chr (192 + n / 64)) (String (chr (128 + n mod 64)) EmptyString)
  else if n <? 65536 then
    String (chr (224 + n / 4096)) (String (chr (128 + (n / 64) mod 64)) (String (chr (128 + n mod 64)) EmptyString))
  else
    String (chr (240 + n / 262144)) (String (chr (128 + (n / 4096) mod 64))
      (String (chr (128 + (n / 64) mod 64)) (String (chr (128 + n mod 64)) EmptyString))).

Definition unescape_simple (c : ascii) : option ascii :=
  let b := byte c in
  if b =? 34 then Some QUOTE
  else if b =? 92 then Some "\"%char
  else if b =? 47 then Some "/"%char
  else if b =? 98 then Some (chr 8)
  else if b =? 102 then Some (chr 12)
  else if b =? 110 then Some (chr 10)
  else if b =? 114 then Some (chr 13)
  else if b =? 116 then Some (chr 9)
  else None.

(** [scanstring]: the text after the opening quote; the decoded string and the
    text after the closing quote. *)
Fixpoint scanstring (s : string) : res (string * string) :=
  match s with
  | EmptyString => decode_error
  | String c s1 =>
      if byte c =? 34 then Ok (EmptyString, s1)
      else if byte c =? 92 then
        match s1 with
        | EmptyString => decode_error
        | String e s2 =>
            match unescape_simple e with
            | Some ch => let* '(t, r) := scanstring s2 in Ok (String ch t, r)
            | None =>
                if byte e =? 117 then
                  match s2 with
                  | String h1 (String h2 (String h3 (String h4 s3))) =>
                      match hex4 h1 h2 h3 h4 with
                      | None => decode_error
                      | Some u =>
                          match s3 with
                          | String k (String v (String l1 (String l2 (String l3 (String l4 s4))))) =>
                              match hex4 l1 l2 l3 l4 with
                              | Some u2 =>
                                  if between 55296 56319 u && (byte k =? 92) && (byte v =? 117)
                                     && between 56320 57343 u2
                                  then let* '(t, r) := scanstring s4 in
                                       Ok (utf8 (65536 + (u - 55296) * 1024 + (u2 - 56320)) +:+ t, r)
                                  else let* '(t, r) := scanstring s3 in Ok (utf8 u +:+ t, r)
                              | None => let* '(t, r) := scanstring s3 in Ok (utf8 u +:+ t, r)
                              end
                          | _ => let* '(t, r) := scanstring s3 in Ok (utf8 u +:+ t, r)
                          end
                      end
                  | _ => decode_error
                  end
                else decode_error
            end
        end
      else if byte c <? 32 then decode_error
      else let* '(t, r) := scanstring s1 in Ok (String c t, r)
  end.

(** [s] without the prefix [p], if it starts with it. *)
Fixpoint drop_prefix (p s : string) : option string :=
  match p, s with
  | EmptyString, _ => Some s
  | String a p', String b s' => if Ascii.eqb a b then drop_prefix p' s' else None
  | String _ _, EmptyString => None
  end.

Section loads.
(** [object_pairs_hook] and [parse_constant]. *)
Variable object_hook : list (string * pyval) -> res pyval.
Variable constant_hook : string -> res pyval.

Definition parse_constant (name rest : string) : res (pyval * string) :=
  let* v := constant_hook name in Ok (v, rest).

Fixpoint scan_once (fuel : nat) (s : string) {struct fuel} : res (pyval * string) :=
  match fuel with
  | O => decode_error
  | S f =>
      match s with
      | EmptyString => decode_error
      | String c s1 =>
          if byte c =? 34 then let* '(t, r) := scanstring s1 in Ok (PStr t, r)
          else if byte c =? 123 then parse_object f (skip_ws s1)
          else if byte c =? 91 then parse_array f (skip_ws s1)
          else
            match drop_prefix "null" s with Some r => Ok (PNone, r) | None =>
            match drop_prefix "true" s with Some r => Ok (PBool true, r) | None =>
            match drop_prefix "false" s with Some r => Ok (PBool false, r) | None =>
            match drop_prefix "NaN" s with Some r => parse_constant "NaN" r | None =>
            match drop_prefix "Infinity" s with Some r => parse_constant "Infinity" r | None =>
            match drop_prefix "-Infinity" s with Some r => parse_constant "-Infinity" r | None =>
            parse_number s
            end end end end end end
      end
  end
with parse_array (fuel : nat) (s : string) {struct fuel} : res (pyval * string) :=
  match fuel with
  | O => decode_error
  | S f =>
      match s with
      | String c s1 =>
          if byte c =? 93 then Ok (PList [], s1)
          else let* '(l, r) := parse_elements f s in Ok (PList l, r)
      | EmptyString => decode_error
      end
  end
with parse_elements (fuel : nat) (s : string) {struct fuel} : res (list pyval * string) :=
  match fuel with
  | O => decode_error
  | S f =>
      let* '(v, r) := scan_once f s in
      match skip_ws r with
      | String c r1 =>
          if byte c =? 93 then Ok ([v], r1)
          else if byte c =? 44 then
            let* '(vs, r2) := parse_elements f (skip_ws r1) in Ok (v :: vs, r2)
          else decode_error
      | EmptyString => decode_error
      end
  end
with parse_object (fuel : nat) (s : string) {struct fuel} : res (pyval * string) :=
  match fuel with
  | O => decode_error
  | S f =>
      match s with
      | String c s1 =>
          if byte c =? 125 then let* v := object_hook [] in Ok (v, s1)
          else let* '(ps, r) := parse_members f s in
               let* v := object_hook ps in Ok (v, r)
      | EmptyString => decode_error
      end
  end
with parse_members (fuel : nat) (s : string) {struct fuel} : res (list (string * pyval) * string) :=
  match fuel with
  | O => decode_error
  | S f =>
      match s with
      | String q s1 =>
          if byte q =? 34 then
            let* '(k, r) := scanstring s1 in
            match skip_ws r with
            | String c r1 =>
                if byte c =? 58 then
                  let* '(v, r2) := scan_once f (skip_ws r1) in
                  match skip_ws r2 with
                  | String e r3 =>
                      if byte e =? 125 then Ok ([(k, v)], r3)
                      else if byte e =? 44 then
                        let* '(ps, r4) := parse_members f (skip_ws r3) in
                        Ok ((k, v) :: ps, r4)
                      else decode_error
                  | EmptyString => decode_error
                  end
                else decode_error
            | EmptyString => decode_error
            end
          else decode_error
      | EmptyString => decode_error
      end
  end.

(** [json.loads(s, object_pairs_hook=..., parse_constant=...)].  A nesting
    level costs three units of fuel and one character, so [3 * len + 1] is
    enough ([scan_once_fuel] below). *)
Definition loads (s : string) : res pyval :=
  let* '(v, r) := scan_once (3 * String.length s + 1) (skip_ws s) in
  match skip_ws r with
  | EmptyString => Ok v
  | String _ _ => decode_error
  end.
End loads.

(** The default hooks: the last value of a duplicate key wins; [NaN] and the
    infinities become floats. *)
Definition default_object_hook (ps : list (string * pyval)) : res pyval :=
  Ok (PDict (foldl (fun d kv => dict_set kv.1 kv.2 d) [] ps)).
Definition default_constant_hook (name : string) : res pyval := Ok (PFloat name).

(** ** Lemmas on digits *)
Lemma byte_digit d : 0 <= d < 10 -> byte (digit_char d) = 48 + d.
Proof. intros H. apply byte_chr. lia. Qed.

Lemma dec_value_app acc s t : dec_value acc (s +:+ t) = dec_value (dec_value acc s) t.
Proof. revert acc. induction s as [|c s IH]; intros acc; simpl; [done|]. apply IH. Qed.

(** What [dec_digits] writes in front of its accumulator: the digits of [n],
    all digits, the first one [0] only for [n = 0]. *)
Lemma dec_digits_spec fuel n acc :
  0 <= n < 10 ^ Z.of_nat fuel -> (0 < fuel)%nat ->
  exists c t, dec_digits fuel n acc = String c t +:+ acc
    /\ string_forallb is_digit (String c t) = true
    /\ dec_value 0 (String c t) = n
    /\ (byte c = 48 -> n = 0 /\ t = EmptyString).
Proof.
  revert n acc. induction fuel as [|f IH]; intros n acc Hn Hf; [lia|].
  cbn [dec_digits]. pose proof (Z.mod_pos_bound n 10).
  assert (Hb : byte (digit_char (n mod 10)) = 48 + n mod 10) by (apply byte_digit; lia).
  destruct (n <? 10) eqn:E.
  - exists (digit_char (n mod 10)), EmptyString. simpl. rewrite Hb.
    unfold is_digit, between. rewrite Hb. rewrite Z.mod_small by lia.
    repeat split; lia.
  - assert (0 < f)%nat as Hf'.
    { destruct f; [|lia]. simpl in Hn. lia. }
    destruct (IH (n / 10) (String (digit_char (n mod 10)) acc)) as (c & t & -> & Hd & Hv & Hz);
      [|done|].
    { rewrite Nat2Z.inj_succ, Z.pow_succ_r in Hn by lia.
      split; [apply Z.div_pos; lia|]. apply Z.div_lt_upper_bound; lia. }
    exists c, (t +:+ String (digit_char (n mod 10)) EmptyString).
    split_and!.
    + simpl. by rewrite str_app_assoc.
    + change (String c (t +:+ ?u)) with (String c t +:+ u).
      clear -Hd Hb H. induction (String c t) as [|a u IH]; simpl in *.
      * unfold is_digit, between. rewrite Hb. lia.
      * apply andb_true_iff in Hd as [-> Hd]. by rewrite IH.
    + change (String c (t +:+ ?u)) with (String c t +:+ u).
      rewrite dec_value_app, Hv. simpl. rewrite Hb.
      pose proof (Z.div_mod n 10). lia.
    + intros Hc. destruct (Hz Hc) as [H0 _]. pose proof (Z.div_mod n 10). lia.
Qed.

Lemma log2_pow10 n : 0 <= n -> n < 10 ^ Z.of_nat (S (Z.to_nat (Z.log2 n))).
Proof.
  intros Hn. destruct (Z.eq_dec n 0) as [->|Hne]; [done|].
  pose proof (Z.log2_nonneg n). pose proof (Z.log2_spec n).
  apply Z.lt_le_trans with (2 ^ Z.succ (Z.log2 n)); [lia|].
  rewrite Nat2Z.inj_succ, Z2Nat.id by lia. apply Z.pow_le_mono_l. lia.
Qed.

Lemma nat_to_dec_spec n : 0 <= n ->
  exists c t, nat_to_dec n = String c t
    /\ string_forallb is_digit (String c t) = true
    /\ dec_value 0 (String c t) = n
    /\ (byte c = 48 -> t = EmptyString).
Proof.
  intros Hn. destruct (dec_digits_spec (S (Z.to_nat (Z.log2 n))) n EmptyString)
    as (c & t & E & Hd & Hv & Hz); [split; [done|by apply log2_pow10]|lia|].
  exists c, t. unfold nat_to_dec. rewrite E, str_app_nil_r.
  split_and!; [done..|]. intros Hc. by apply Hz.
Qed.

(** ** The round trip *)

(** The text after a value: the end, or a character no number continues with. *)
Definition value_stop (r : string) : Prop :=
  match r with
  | EmptyString => True
  | String c _ => is_digit c = false /\ byte c <> 46 /\ byte c <> 101 /\ byte c <> 69
  end.

Lemma span_digits_app d r :
  string_forallb is_digit d = true -> value_stop r -> span_digits (d +:+ r) = (d, r).
Proof.
  intros Hd Hr. induction d as [|c d IH]; simpl in *.
  - destruct r as [|c r]; [done|]. destruct Hr as [Hr _]. simpl. by rewrite Hr.
  - apply andb_true_iff in Hd as [-> Hd]. by rewrite IH.
Qed.

Lemma match_fraction_stop r : value_stop r -> match_fraction r = (EmptyString, r).
Proof.
  destruct r as [|c r]; [done|]. intros (_ & H & _). simpl.
  by replace (byte c =? 46) with false by lia.
Qed.

Lemma match_exponent_stop r : value_stop r -> match_exponent r = (EmptyString, r).
Proof.
  destruct r as [|c r]; [done|]. intros (_ & _ & H1 & H2). simpl.
  by replace ((byte c =? 101) || (byte c =? 69)) with false by lia.
Qed.

Lemma match_integer_digits n r : 0 <= n -> value_stop r ->
  match_integer (nat_to_dec n +:+ r) = (nat_to_dec n, r).
Proof.
  intros Hn Hr. destruct (nat_to_dec_spec n Hn) as (c & t & -> & Hd & _ & Hz).
  change (match_integer (String c t +:+ r)) with
    (if byte c =? 48 then (String c EmptyString, t +:+ r) else span_digits (String c t +:+ r)).
  destruct (byte c =? 48) eqn:E.
  - rewrite Hz by lia. done.
  - by rewrite span_digits_app.
Qed.

Lemma parse_number_dec z r : value_stop r -> parse_number (Z_to_dec z +:+ r) = Ok (PInt z, r).
Proof.
  intros Hr. unfold parse_number, Z_to_dec. destruct (z <? 0) eqn:E.
  - cbn [String.append]. change (byte "-" =? 45) with true. cbv iota.
    rewrite match_integer_digits by (done || lia).
    destruct (nat_to_dec_spec (- z)) as (c & t & Hn & _ & Hv & _); [lia|].
    rewrite Hn. cbn [str_empty]. rewrite match_fraction_stop, match_exponent_stop by done.
    cbn [str_empty andb]. rewrite Hv. by rewrite Z.opp_involutive.
  - destruct (nat_to_dec_spec z) as (c & t & Hn & Hd & Hv & _); [lia|].
    assert ((byte c =? 45) = false) as Hc.
    { simpl in Hd. unfold is_digit, between in Hd. lia. }
    pose proof (match_integer_digits z r) as Hm. rewrite Hn in Hm |- *.
    cbn [String.append]. rewrite Hc. change (String c (t +:+ r)) with (String c t +:+ r).
    rewrite Hm by (done || lia). cbn [str_empty].
    rewrite match_fraction_stop, match_exponent_stop by done.
    cbn [str_empty andb]. by rewrite Hv.
Qed.

(** A [\u] escape below the surrogates stands for its code point. *)
Lemma scanstring_u h1 h2 h3 h4 u t :
  hex4 h1 h2 h3 h4 = Some u -> u < 55296 ->
  scanstring (String "\" (String "u" (String h1 (String h2 (String h3 (String h4 t))))))
  = let* '(w, r) := scanstring t in Ok (utf8 u +:+ w, r).
Proof.
  intros Hu Hlt.
  transitivity
    (match hex4 h1 h2 h3 h4 with
     | None => decode_error
     | Some u =>
         match t with
         | String k (String v (String l1 (String l2 (String l3 (String l4 s4))))) =>
             match hex4 l1 l2 l3 l4 with
             | Some u2 =>
                 if between 55296 56319 u && (byte k =? 92) && (byte v =? 117)
                    && between 56320 57343 u2
                 then let* '(w, r) := scanstring s4 in
                      Ok (utf8 (65536 + (u - 55296) * 1024 + (u2 - 56320)) +:+ w, r)
                 else let* '(w, r) := scanstring t in Ok (utf8 u +:+ w, r)
             | None => let* '(w, r) := scanstring t in Ok (utf8 u +:+ w, r)
             end
         | _ => let* '(w, r) := scanstring t in Ok (utf8 u +:+ w, r)
         end
     end); [reflexivity|].
  rewrite Hu. destruct t as [|k [|v [|l1 [|l2 [|l3 [|l4 t]]]]]]; try reflexivity.
  destruct (hex4 l1 l2 l3 l4); [|done].
  by replace (between 55296 56319 u) with false by (unfold between; lia).
Qed.

Lemma scanstring_escape_char c t :
  scanstring (escape_char c +:+ t) = let* '(u, r) := scanstring t in Ok (String c u, r).
Proof.
  destruct c as [[] [] [] [] [] [] [] []]; try reflexivity;
    (etransitivity; [by eapply scanstring_u|reflexivity]).
Qed.

Lemma scanstring_escape s r : scanstring (escape s +:+ String QUOTE r) = Ok (s, r).
Proof.
  induction s as [|c s IH]; [done|]. cbn [escape].
  by rewrite str_app_assoc, scanstring_escape_char, IH.
Qed.

(** Every object with its keys sorted. *)
Fixpoint canon (v : pyval) : pyval :=
  match v with
  | PList l => PList (canon <$> l)
  | PDict d => PDict (sorted_by fst ((fun kv => (kv.1, canon kv.2)) <$> d))
  | _ => v
  end.

(** A value without floats whose objects have no duplicate key. *)
Fixpoint plain (v : pyval) : bool :=
  match v with
  | PFloat _ => false
  | PList l => forallb plain l
  | PDict d => bool_decide (NoDup (dict_keys d)) && forallb (fun kv => plain kv.2) d
  | _ => true
  end.

Definition dumpsc : pyval -> string := dumps "," ":".

Lemma dumpsc_list l : dumpsc (PList l) = "[" +:+ join "," (dumpsc <$> l) +:+ "]".
Proof. done. Qed.

Definition member_text (kv : string * pyval) : string :=
  encode_str kv.1 +:+ ":" +:+ dumpsc kv.2.

Lemma dumpsc_dict d :
  dumpsc (PDict d) = "{" +:+ join "," (member_text <$> sorted_by fst d) +:+ "}".
Proof.
  unfold dumpsc at 1. cbn [dumps].
  rewrite (sorted_by_fmap fst fst (fun kv => (kv.1, dumps "," ":" kv.2))) by done.
  by rewrite <-list_fmap_compose.
Qed.

(** The encoder with white space after the separators *)
Definition spaces (s : string) : Prop := forall t, skip_ws (s +:+ t) = skip_ws t.
Section spaced.
Context (isp ksp : string).
Hypothesis (Hisp : spaces isp) (Hksp : spaces ksp).
Definition dumpsw : pyval -> string := dumps (String "," isp) (String ":" ksp).
Lemma dumpsw_list l : dumpsw (PList l) = "[" +:+ join (String "," isp) (dumpsw <$> l) +:+ "]".
Proof. done. Qed.
Definition member_textw (kv : string * pyval) : string := encode_str kv.1 +:+ String ":" ksp +:+ dumpsw kv.2.
Lemma dumpsw_dict d :
  dumpsw (PDict d) = "{" +:+ join (String "," isp) (member_textw <$> sorted_by fst d) +:+ "}".
Proof.
  unfold dumpsw at 1. cbn [dumps].
  rewrite (sorted_by_fmap fst fst (fun kv => (kv.1, dumps (String "," isp) (String ":" ksp) kv.2))) by done.
  by rewrite <-list_fmap_compose.
Qed.

(** A value's text starts with a character that is neither white space nor a
    closing bracket. *)
Lemma dumpsw_head v : plain v = true ->
  exists c t, dumpsw v = String c t /\ is_ws c = false /\ byte c <> 93 /\ byte c <> 125.
Proof.
  destruct v as [| [] | z | s | s | l | d]; intros Hv; try done; try by (eexists _, _).
  unfold dumpsw; simpl; unfold Z_to_dec. destruct (z <? 0) eqn:E; [by eexists _, _|].
  destruct (nat_to_dec_spec z) as (c & t & -> & Hd & _); [lia|].
  exists c, t. simpl in Hd. unfold is_digit, is_ws, between in *. split_and!; [done|lia..].
Qed.

Lemma skip_ws_head c t : is_ws c = false -> skip_ws (String c t) = String c t.
Proof. intros H. simpl. by rewrite H. Qed.

Lemma skip_ws_dumpsw v r : plain v = true -> skip_ws (dumpsw v +:+ r) = dumpsw v +:+ r.
Proof.
  intros Hv. destruct (dumpsw_head v Hv) as (c & t & -> & H & _).
  by apply skip_ws_head.
Qed.

Lemma scan_once_number f oh ch z r : value_stop r ->
  scan_once oh ch (S f) (Z_to_dec z +:+ r) = Ok (PInt z, r).
Proof.
  intros Hr. rewrite <-(parse_number_dec z r Hr). unfold Z_to_dec.
  destruct (z <? 0) eqn:E.
  - destruct (nat_to_dec_spec (- z)) as (c & t & -> & Hd & _); [lia|].
    simpl in Hd. destruct c as [[] [] [] [] [] [] [] []]; done || reflexivity.
  - destruct (nat_to_dec_spec z) as (c & t & -> & Hd & _); [lia|].
    simpl in Hd. destruct c as [[] [] [] [] [] [] [] []]; done || reflexivity.
Qed.

Section round_trip.
Context (oh : list (string * pyval) -> res pyval) (ch : string -> res pyval).
(** The hook builds the object when its keys are distinct; every hook of the
    program does. *)
Hypothesis hook_nodup : forall ps, NoDup (dict_keys ps) -> oh ps = Ok (PDict ps).

(** One step of each parsing function. *)
Lemma scan_once_array f s : scan_once oh ch (S f) (String "[" s) = parse_array oh ch f (skip_ws s).
Proof. reflexivity. Qed.
Lemma scan_once_object f s : scan_once oh ch (S f) (String "{" s) = parse_object oh ch f (skip_ws s).
Proof. reflexivity. Qed.
Lemma scan_once_string f s :
  scan_once oh ch (S f) (String QUOTE s) = let* '(t, r) := scanstring s in Ok (PStr t, r).
Proof. reflexivity. Qed.
Lemma parse_array_eq f c s :
  parse_array oh ch (S f) (String c s)
  = if byte c =? 93 then Ok (PList [], s) else
    let* '(l, r) := parse_elements oh ch f (String c s) in Ok (PList l, r).
Proof. reflexivity. Qed.
Lemma parse_elements_S f s :
  parse_elements oh ch (S f) s
  = let* '(v, r) := scan_once oh ch f s in
    match skip_ws r with
    | String c r1 =>
        if byte c =? 93 then Ok ([v], r1)
        else if byte c =? 44 then
          let* '(vs, r2) := parse_elements oh ch f (skip_ws r1) in Ok (v :: vs, r2)
        else decode_error
    | EmptyString => decode_error
    end.
Proof. reflexivity. Qed.
Lemma parse_object_eq f c s :
  parse_object oh ch (S f) (String c s)
  = if byte c =? 125 then let* v := oh [] in Ok (v, s) else
    let* '(ps, r) := parse_members oh ch f (String c s) in
    let* v := oh ps in Ok (v, r).
Proof. reflexivity. Qed.
Lemma parse_members_eq f q s :
  parse_members oh ch (S f) (String q s)
  = if byte q =? 34 then
      let* '(k, r) := scanstring s in
      match skip_ws r with
      | String c r1 =>
          if byte c =? 58 then
            let* '(v, r2) := scan_once oh ch f (skip_ws r1) in
            match skip_ws r2 with
            | String e r3 =>
                if byte e =? 125 then Ok ([(k, v)], r3)
                else if byte e =? 44 then
                  let* '(ps, r4) := parse_members oh ch f (skip_ws r3) in Ok ((k, v) :: ps, r4)
                else decode_error
            | EmptyString => decode_error
            end
          else decode_error
      | EmptyString => decode_error
      end
    else decode_error.
Proof. reflexivity. Qed.

Definition scans (v : pyval) : Prop :=
  forall f r, value_stop r -> (3 * String.length (dumpsw v) + 1 <= f)%nat ->
  scan_once oh ch f (dumpsw v +:+ r) = Ok (canon v, r).

Lemma value_stop_char c r : byte c = 44 \/ byte c = 93 \/ byte c = 125 -> value_stop (String c r).
Proof. simpl. unfold is_digit, between. intros. split_and!; lia. Qed.

Lemma parse_elements_join x l f r :
  Forall (fun v => plain v = true) (x :: l) -> Forall scans (x :: l) ->
  (3 * String.length (join (String "," isp) (dumpsw <$> x :: l)) + 2 <= f)%nat ->
  parse_elements oh ch f (join (String "," isp) (dumpsw <$> x :: l) +:+ String "]" r)
  = Ok (canon <$> x :: l, r).
Proof.
  revert x f. induction l as [|y l IH]; intros x f Hp Hs Hf;
    apply Forall_cons in Hp as [Hpx Hp]; apply Forall_cons in Hs as [Hsx Hs];
    (destruct f as [|f]; [lia|]).
  - cbn [fmap list_fmap join] in Hf |- *. rewrite parse_elements_S.
    rewrite Hsx; [|by apply value_stop_char; right; left|lia]. done.
  - change (join (String "," isp) (dumpsw <$> x :: y :: l))
      with (dumpsw x +:+ String "," isp +:+ join (String "," isp) (dumpsw <$> y :: l)) in *.
    rewrite !str_length_app in Hf. cbn [String.length] in Hf.
    rewrite !str_app_assoc, parse_elements_S.
    rewrite Hsx; [|by apply value_stop_char; left|lia].
    cbn [res_bind String.append]. rewrite skip_ws_head by done.
    change (byte "," =? 93) with false. change (byte "," =? 44) with true. cbv iota.
    assert (Hws : skip_ws (join (String "," isp) (dumpsw <$> y :: l) +:+ String "]" r)
                  = join (String "," isp) (dumpsw <$> y :: l) +:+ String "]" r).
    { apply Forall_cons in Hp as [Hpy _]. destruct l as [|z l].
      - by apply skip_ws_dumpsw.
      - change (join (String "," isp) (dumpsw <$> y :: z :: l))
          with (dumpsw y +:+ String "," isp +:+ join (String "," isp) (dumpsw <$> z :: l)).
        rewrite str_app_assoc. by apply skip_ws_dumpsw. }
    rewrite Hisp, Hws, IH by (done || lia). done.
Qed.

Lemma scans_list l : forallb plain l = true -> Forall scans l -> scans (PList l).
Proof.
  intros Hp Hs f r Hr Hf. rewrite dumpsw_list in *.
  rewrite !str_length_app in Hf. cbn [String.length] in Hf.
  destruct f as [|[|f]]; [lia..|].
  rewrite str_app_assoc. cbn [String.append]. rewrite str_app_assoc. cbn [String.append].
  rewrite scan_once_array. pose proof (proj1 (forallb_Forall_true _ _) Hp) as Hp'.
  destruct l as [|x l]; [done|].
  assert (exists c t, join (String "," isp) (dumpsw <$> x :: l) +:+ String "]" r = String c t
    /\ is_ws c = false /\ byte c <> 93) as (c & t & E & Hws & H93).
  { pose proof (Forall_inv Hp') as Hx. destruct (dumpsw_head x Hx) as (c & t & E & ? & ? & ?).
    destruct l; cbn [fmap list_fmap join]; rewrite E; eauto. }
  pose proof (parse_elements_join x l f r Hp' Hs) as He.
  rewrite E in He |- *. rewrite skip_ws_head by done.
  rewrite parse_array_eq. replace (byte c =? 93) with false by lia. rewrite He by lia. done.
Qed.

Lemma parse_members_join kv d f r :
  Forall (fun kv => plain kv.2 = true) (kv :: d) -> Forall (fun kv => scans kv.2) (kv :: d) ->
  (3 * String.length (join (String "," isp) (member_textw <$> kv :: d)) + 2 <= f)%nat ->
  parse_members oh ch f (join (String "," isp) (member_textw <$> kv :: d) +:+ String "}" r)
  = Ok ((fun kv => (kv.1, canon kv.2)) <$> kv :: d, r).
Proof.
  revert kv f. induction d as [|kv' d IH]; intros [k v] f Hp Hs Hf;
    apply Forall_cons in Hp as [Hpx Hp]; apply Forall_cons in Hs as [Hsx Hs];
    (destruct f as [|f]; [lia|]).
  - cbn [fmap list_fmap join] in Hf |- *. unfold member_textw, encode_str in *.
    cbn [fst snd] in *. cbn [String.append]. rewrite !str_app_assoc. cbn [String.append].
    rewrite !str_length_app in Hf. cbn [String.length] in Hf.
    rewrite parse_members_eq. change (byte QUOTE =? 34) with true. cbv iota.
    rewrite scanstring_escape. cbn [res_bind]. rewrite skip_ws_head by done.
    change (byte ":" =? 58) with true. cbv iota. rewrite ?(str_app_assoc ksp), Hksp, skip_ws_dumpsw by done.
    rewrite Hsx; [done|by apply value_stop_char; right; right|].
    rewrite !str_length_app in Hf. cbn [String.length] in Hf. lia.
  - change (join (String "," isp) (member_textw <$> (k, v) :: kv' :: d))
      with (member_textw (k, v) +:+ String "," isp +:+ join (String "," isp) (member_textw <$> kv' :: d)) in *.
    rewrite !str_length_app in Hf. cbn [String.length] in Hf.
    cbn [fst snd] in Hsx, Hpx.
    rewrite !str_app_assoc. unfold member_textw at 1, encode_str. cbn [fst snd String.append].
    rewrite !str_app_assoc. cbn [String.append].
    rewrite parse_members_eq. change (byte QUOTE =? 34) with true. cbv iota.
    rewrite scanstring_escape. cbn [res_bind]. rewrite skip_ws_head by done.
    change (byte ":" =? 58) with true. cbv iota. rewrite ?(str_app_assoc ksp), Hksp, skip_ws_dumpsw by done.
    unfold member_textw at 1, encode_str in Hf. cbn [fst snd String.append String.length] in Hf.
    rewrite !str_length_app in Hf. cbn [String.append String.length] in Hf. rewrite ?str_length_app in Hf. cbn [String.length] in Hf.
    rewrite ?str_length_app in Hf.
    rewrite Hsx; [|by apply value_stop_char; left|lia].
    cbn [res_bind]. rewrite skip_ws_head by done.
    change (byte "," =? 125) with false. change (byte "," =? 44) with true. cbv iota.
    assert (Hws : skip_ws (join (String "," isp) (member_textw <$> kv' :: d) +:+ String "}" r)
                  = join (String "," isp) (member_textw <$> kv' :: d) +:+ String "}" r) by (by destruct d).
    rewrite Hisp, Hws, IH by (done || lia). done.
Qed.

Lemma sorted_canon_members d :
  sorted_by fst ((fun kv => (kv.1, canon kv.2)) <$> d)
  = (fun kv => (kv.1, canon kv.2)) <$> sorted_by fst d.
Proof. by apply sorted_by_fmap. Qed.

Lemma scans_dict d : plain (PDict d) = true -> Forall (fun kv => scans kv.2) d -> scans (PDict d).
Proof.
  intros Hp Hs f r Hr Hf. cbn [plain] in Hp.
  apply andb_true_iff in Hp as [Hnd%bool_decide_eq_true Hp].
  apply forallb_Forall_true in Hp.
  pose proof (proj2 (Forall_sorted_by fst _ d) Hp) as Hp'.
  apply (Forall_sorted_by fst) in Hs.
  cbn [canon]. rewrite sorted_canon_members.
  assert (Hk : NoDup (dict_keys ((fun kv => (kv.1, canon kv.2)) <$> sorted_by fst d))).
  { unfold dict_keys. rewrite <-list_fmap_compose. by apply (sorted_by_nodup fst). }
  rewrite dumpsw_dict in *. destruct (sorted_by fst d) as [|kv l].
  - destruct f as [|[|f]]; [simpl in Hf; lia..|]. cbn -[byte]. by rewrite hook_nodup.
  - rewrite !str_length_app in Hf. cbn [String.length] in Hf.
    destruct f as [|[|f]]; [lia..|].
    rewrite str_app_assoc. cbn [String.append]. rewrite str_app_assoc. cbn [String.append].
    rewrite scan_once_object.
    assert (exists t, join (String "," isp) (member_textw <$> kv :: l) +:+ String "}" r = String QUOTE t)
      as (t & E) by (destruct l; eexists; reflexivity).
    pose proof (parse_members_join kv l f r Hp' Hs) as He.
    rewrite E in He |- *. rewrite skip_ws_head, parse_object_eq by done.
    change (byte QUOTE =? 125) with false. cbv iota.
    rewrite He by lia. cbn [res_bind]. by rewrite hook_nodup.
Qed.

Lemma scans_plain v : plain v = true -> scans v.
Proof.
  induction v as [|[]|z|s|s|l IH|d IH] using pyval_ind; intros Hp;
    try (intros f r Hr Hf; destruct f; [lia|]; reflexivity); try done.
  - intros f r Hr Hf. destruct f; [lia|]. by apply scan_once_number.
  - intros f r Hr Hf. destruct f; [lia|]. unfold dumpsw; cbn [dumps]. unfold encode_str.
    cbn [String.append]. rewrite str_app_assoc. cbn [String.append].
    by rewrite scan_once_string, scanstring_escape.
  - apply scans_list; [done|]. cbn [plain] in Hp. apply forallb_Forall_true in Hp.
    rewrite Forall_forall in IH, Hp |- *. auto.
  - apply scans_dict; [done|]. cbn [plain] in Hp.
    apply andb_true_iff in Hp as [_ Hp]. apply forallb_Forall_true in Hp.
    rewrite Forall_forall in IH, Hp |- *. auto.
Qed.

(** Decoding the canonical text of a value gives the value with sorted keys. *)
Theorem loads_dumpsw v : plain v = true -> loads oh ch (dumpsw v) = Ok (canon v).
Proof.
  intros Hp. unfold loads. pose proof (skip_ws_dumpsw v EmptyString Hp) as Hws.
  rewrite !str_app_nil_r in Hws. rewrite Hws. rewrite <-(str_app_nil_r (dumpsw v)) at 2.
  by rewrite (scans_plain v Hp).
Qed.
End round_trip.

End spaced.
Lemma no_spaces : spaces EmptyString.
Proof. by intros t. Qed.
Lemma one_space : spaces " ".
Proof. by intros t. Qed.
Theorem loads_dumpsc oh ch (hook_nodup : forall ps, NoDup (dict_keys ps) -> oh ps = Ok (PDict ps)) v :
  plain v = true -> loads oh ch (dumpsc v) = Ok (canon v).
Proof. exact (loads_dumpsw EmptyString EmptyString no_spaces no_spaces oh ch hook_nodup v). Qed.

(** ** The decoder's fuel is enough *)
Lemma skip_ws_le s : (String.length (skip_ws s) <= String.length s)%nat.
Proof. induction s as [|c s IH]; simpl; [done|]. destruct (is_ws c); simpl; lia. Qed.

Lemma drop_prefix_le p s r : drop_prefix p s = Some r -> (String.length r <= String.length s)%nat.
Proof.
  revert s. induction p as [|a p IH]; intros [|b s]; simpl; try naive_solver lia.
  destruct (Ascii.eqb a b); [|done]. intros H%IH. lia.
Qed.

Lemma span_digits_le s d r : span_digits s = (d, r) -> (String.length r <= String.length s)%nat.
Proof.
  revert d r. induction s as [|c s IH]; intros d r; simpl; [by intros [= <- <-]|].
  destruct (is_digit c); [|by intros [= <- <-]].
  destruct (span_digits s) as [d' r'] eqn:E. intros [= <- <-].
  specialize (IH _ _ eq_refl). lia.
Qed.

Lemma match_integer_le s d r : match_integer s = (d, r) -> (String.length r <= String.length s)%nat.
Proof.
  destruct s as [|c s]; [by intros [= <- <-]|]. unfold match_integer.
  destruct (byte c =? 48); [intros [= <- <-]; simpl; lia|]. apply span_digits_le.
Qed.

Lemma match_fraction_le s d r : match_fraction s = (d, r) -> (String.length r <= String.length s)%nat.
Proof.
  destruct s as [|c s]; simpl; [by intros [= <- <-]|].
  destruct (byte c =? 46); [|by intros [= <- <-]].
  destruct (span_digits s) as [d' r'] eqn:E. apply span_digits_le in E.
  destruct (str_empty d'); intros [= <- <-]; simpl; lia.
Qed.

Lemma match_exponent_le s d r : match_exponent s = (d, r) -> (String.length r <= String.length s)%nat.
Proof.
  destruct s as [|c s]; simpl; [by intros [= <- <-]|].
  destruct ((byte c =? 101) || (byte c =? 69)); [|by intros [= <- <-]].
  destruct s as [|a s]; simpl.
  - by intros [= <- <-].
  - destruct ((byte a =? 43) || (byte a =? 45));
      match goal with |- context [span_digits ?x] => destruct (span_digits x) as [d' r'] eqn:E end;
      apply span_digits_le in E; simpl in E;
      destruct (str_empty d'); intros [= <- <-]; simpl; lia.
Qed.

Lemma parse_number_le s v r : parse_number s = Ok (v, r) -> (String.length r <= String.length s)%nat.
Proof.
  unfold parse_number.
  destruct (match s with String c s' => if byte c =? 45 then (true, s') else (false, s)
            | EmptyString => (false, s) end) as [neg s1] eqn:E0.
  assert (String.length s1 <= String.length s)%nat.
  { destruct s as [|c s]; [by injection E0 as <- <-|].
    destruct (byte c =? 45); injection E0 as <- <-; simpl; lia. }
  destruct (match_integer s1) as [i s2] eqn:E1. apply match_integer_le in E1.
  destruct (str_empty i); [done|].
  destruct (match_fraction s2) as [fr s3] eqn:E2. apply match_fraction_le in E2.
  destruct (match_exponent s3) as [ex s4] eqn:E3. apply match_exponent_le in E3.
  destruct (str_empty fr && str_empty ex); intros [= <- <-]; lia.
Qed.

Lemma scanstring_le s t r : scanstring s = Ok (t, r) -> (String.length r <= String.length s)%nat.
Proof.
  remember (String.length s) as n eqn:Hn. revert s t r Hn.
  induction n as [n IH] using (well_founded_induction lt_wf); intros s t r ->.
  assert (rec : forall s' (k : string -> string),
    (String.length s' < String.length s)%nat ->
    (let* '(t, r) := scanstring s' in Ok (k t, r)) = Ok (t, r) ->
    (String.length r <= String.length s)%nat).
  { intros s' k Hlt Hs. apply res_bind_Ok in Hs as ([t' r'] & Hs & [= <- <-]).
    apply (IH _ Hlt _ _ _ eq_refl) in Hs. lia. }
  destruct s as [|c s1]; [done|]. cbn [scanstring].
  destruct (byte c =? 34); [intros [= <- <-]; simpl; lia|].
  destruct (byte c =? 92).
  2:{ destruct (byte c <? 32); [done|]. apply rec. simpl; lia. }
  destruct s1 as [|e s2]; [done|].
  destruct (unescape_simple e) as [ch|]; [apply rec; simpl; lia|].
  destruct (byte e =? 117); [|done].
  destruct s2 as [|h1 [|h2 [|h3 [|h4 s3]]]]; try done.
  destruct (hex4 h1 h2 h3 h4) as [u|]; [|done].
  destruct s3 as [|k [|v [|l1 [|l2 [|l3 [|l4 s4]]]]]]; try (apply rec; simpl; lia).
  destruct (hex4 l1 l2 l3 l4) as [u2|]; [|apply rec; simpl; lia].
  destruct (between 55296 56319 u && (byte k =? 92) && (byte v =? 117) && between 56320 57343 u2);
    apply rec; simpl; lia.
Qed.

Section fuel.
Context (oh : list (string * pyval) -> res pyval) (ch : string -> res pyval).
#[local] Abbreviation len := String.length.

(** The five functions at fuel [f]: the rest they leave is never longer than
    the text they were given. *)
Lemma decoder_shrinks f :
  (forall s v r, scan_once oh ch f s = Ok (v, r) -> (len r <= len s)%nat) /\
  (forall s v r, parse_array oh ch f s = Ok (v, r) -> (len r <= len s)%nat) /\
  (forall s v r, parse_elements oh ch f s = Ok (v, r) -> (len r <= len s)%nat) /\
  (forall s v r, parse_object oh ch f s = Ok (v, r) -> (len r <= len s)%nat) /\
  (forall s v r, parse_members oh ch f s = Ok (v, r) -> (len r <= len s)%nat).
Proof.
  induction f as [|f (IHs & IHa & IHe & IHo & IHm)]; [done|].
  split_and!; intros s v r.
  - destruct s as [|c s1]; [done|]. cbn [scan_once].
    destruct (byte c =? 34).
    { intros H. apply res_bind_Ok in H as ([t r'] & H%scanstring_le & [= <- <-]). simpl; lia. }
    destruct (byte c =? 123).
    { intros H%IHo. pose proof (skip_ws_le s1). simpl; lia. }
    destruct (byte c =? 91).
    { intros H%IHa. pose proof (skip_ws_le s1). simpl; lia. }
    repeat match goal with
    | |- context [drop_prefix ?p (String c s1)] =>
        destruct (drop_prefix p (String c s1)) as [r'|] eqn:E;
        [apply drop_prefix_le in E; clear -E;
         try (intros [= <- <-]; exact E);
         unfold parse_constant; intros H; apply res_bind_Ok in H as (w & _ & [= <- <-]); exact E
        |clear E]
    end.
    apply parse_number_le.
  - destruct s as [|c s1]; [done|]. cbn [parse_array].
    destruct (byte c =? 93); [intros [= <- <-]; simpl; lia|].
    intros H. apply res_bind_Ok in H as ([l r'] & H%IHe & [= <- <-]). done.
  - rewrite parse_elements_S. intros H. apply res_bind_Ok in H as ([w r'] & H1%IHs & H).
    pose proof (skip_ws_le r'). destruct (skip_ws r') as [|c r1]; [done|].
    destruct (byte c =? 93); [injection H as <- <-; simpl in *; lia|].
    destruct (byte c =? 44); [|done].
    apply res_bind_Ok in H as ([ws r2] & H2%IHe & [= <- <-]).
    pose proof (skip_ws_le r1). simpl in *. lia.
  - destruct s as [|c s1]; [done|]. cbn [parse_object].
    destruct (byte c =? 125); intros H.
    + apply res_bind_Ok in H as (w & _ & [= <- <-]). simpl; lia.
    + apply res_bind_Ok in H as ([ps r'] & H%IHm & H').
      apply res_bind_Ok in H' as (w & _ & [= <- <-]). done.
  - destruct s as [|q s1]; [done|]. cbn [parse_members].
    destruct (byte q =? 34); [|done]. intros H.
    apply res_bind_Ok in H as ([k r'] & H1%scanstring_le & H).
    pose proof (skip_ws_le r'). destruct (skip_ws r') as [|c r1]; [done|].
    destruct (byte c =? 58); [|done].
    apply res_bind_Ok in H as ([w r2] & H2%IHs & H).
    pose proof (skip_ws_le r1). pose proof (skip_ws_le r2).
    destruct (skip_ws r2) as [|e r3]; [done|].
    destruct (byte e =? 125); [injection H as <- <-; simpl in *; lia|].
    destruct (byte e =? 44); [|done].
    apply res_bind_Ok in H as ([ps r4] & Hps%IHm & [= <- <-]).
    pose proof (skip_ws_le r3). simpl in *. lia.
Qed.

(** More fuel than the text needs changes nothing. *)
Lemma decoder_fuel f :
  (forall s g, (3 * len s + 1 <= f <= g)%nat -> scan_once oh ch f s = scan_once oh ch g s) /\
  (forall s g, (3 * len s + 3 <= f <= g)%nat -> parse_array oh ch f s = parse_array oh ch g s) /\
  (forall s g, (3 * len s + 2 <= f <= g)%nat -> parse_elements oh ch f s = parse_elements oh ch g s) /\
  (forall s g, (3 * len s + 3 <= f <= g)%nat -> parse_object oh ch f s = parse_object oh ch g s) /\
  (forall s g, (3 * len s + 2 <= f <= g)%nat -> parse_members oh ch f s = parse_members oh ch g s).
Proof.
  induction f as [|f (IHs & IHa & IHe & IHo & IHm)]; [by split_and!; intros; lia|].
  split_and!; intros s g Hg; (destruct g as [|g]; [lia|]).
  - destruct s as [|c s1]; [done|]. cbn [scan_once]. simpl in Hg. pose proof (skip_ws_le s1).
    destruct (byte c =? 34); [done|]. destruct (byte c =? 123); [apply IHo; lia|].
    destruct (byte c =? 91); [apply IHa; lia|]. done.
  - destruct s as [|c s1]; [done|]. rewrite !parse_array_eq.
    rewrite (IHe (String c s1) g) by lia. done.
  - rewrite !parse_elements_S. rewrite (IHs s g) by lia.
    destruct (scan_once oh ch g s) as [[w r']|] eqn:E; [|done]. cbn [res_bind].
    apply decoder_shrinks in E. pose proof (skip_ws_le r').
    destruct (skip_ws r') as [|c r1]; [done|]. pose proof (skip_ws_le r1). simpl in *.
    rewrite (IHe (skip_ws r1) g) by lia. done.
  - destruct s as [|c s1]; [done|]. rewrite !parse_object_eq.
    rewrite (IHm (String c s1) g) by lia. done.
  - destruct s as [|q s1]; [done|]. rewrite !parse_members_eq.
    destruct (byte q =? 34); [|done].
    destruct (scanstring s1) as [[k r']|] eqn:E1; [|done]. cbn [res_bind].
    apply scanstring_le in E1. pose proof (skip_ws_le r').
    destruct (skip_ws r') as [|c r1]; [done|]. destruct (byte c =? 58); [|done].
    pose proof (skip_ws_le r1). simpl in *. rewrite (IHs (skip_ws r1) g) by lia.
    destruct (scan_once oh ch g (skip_ws r1)) as [[w r2]|] eqn:E2; [|done]. cbn [res_bind].
    apply decoder_shrinks in E2. pose proof (skip_ws_le r2).
    destruct (skip_ws r2) as [|e r3]; [done|]. pose proof (skip_ws_le r3). simpl in *.
    rewrite (IHm (skip_ws r3) g) by lia. done.
Qed.

(** [loads]'s fuel bound is not observable: any larger bound gives the same
    answer. *)
Theorem scan_once_fuel s g : (3 * len s + 1 <= g)%nat ->
  scan_once oh ch (3 * len s + 1) (skip_ws s) = scan_once oh ch g (skip_ws s).
Proof. intros Hg. pose proof (skip_ws_le s). apply decoder_fuel. lia. Qed.
End fuel.

(** ** Dictionaries *)
Lemma dict_get_Some {V} k (v : V) d : dict_get k d = Some v -> (k, v) ∈ d.
Proof.
  induction d as [|[k' v'] d IH]; simpl; [done|].
  case_bool_decide as E; [intros [= ->]; subst; left|]. intros H. right. by apply IH.
Qed.

Lemma dict_get_None {V} k (d : list (string * V)) : dict_get k d = None <-> k ∉ dict_keys d.
Proof.
  induction d as [|[k' v'] d IH]; simpl; [split; [intros _; apply not_elem_of_nil|done]|].
  rewrite not_elem_of_cons. case_bool_decide as E; [|by rewrite <-IH; intuition].
  split; [done|]. by intros [? _].
Qed.

Lemma dict_get_elem {V} k (v : V) d : NoDup (dict_keys d) -> (k, v) ∈ d -> dict_get k d = Some v.
Proof.
  induction d as [|[k' v'] d IH]; simpl; [by intros _ H%not_elem_of_nil|].
  intros [Hk Hnd]%NoDup_cons [[= -> ->]|H]%elem_of_cons.
  - by rewrite bool_decide_true.
  - rewrite bool_decide_false; [by apply IH|]. intros ->. apply Hk.
    unfold dict_keys. apply list_elem_of_fmap. by exists (k', v).
Qed.

Lemma dict_get_perm {V} k (d d' : list (string * V)) :
  NoDup (dict_keys d) -> d ≡ₚ d' -> dict_get k d = dict_get k d'.
Proof.
  intros Hnd Hp. destruct (dict_get k d') as [v|] eqn:E.
  - apply dict_get_elem; [done|]. rewrite Hp. by apply dict_get_Some.
  - apply dict_get_None. apply dict_get_None in E. unfold dict_keys in *. by rewrite Hp.
Qed.

Lemma dict_get_sorted {V} k (d : list (string * V)) :
  NoDup (dict_keys d) -> dict_get k (sorted_by fst d) = dict_get k d.
Proof. intros Hnd. symmetry. apply dict_get_perm; [done|]. by rewrite sorted_by_perm. Qed.

Lemma dict_get_fmap {V W} (f : V -> W) k (d : list (string * V)) :
  dict_get k ((fun kv => (kv.1, f kv.2)) <$> d) = f <$> dict_get k d.
Proof.
  induction d as [|[k' v'] d IH]; simpl; [done|]. by case_bool_decide.
Qed.

Lemma dict_keys_fmap {V W} (f : V -> W) (d : list (string * V)) :
  dict_keys ((fun kv => (kv.1, f kv.2)) <$> d) = dict_keys d.
Proof. unfold dict_keys. by rewrite <-list_fmap_compose. Qed.

Lemma dict_set_fresh {V} k (v : V) d : k ∉ dict_keys d -> dict_set k v d = d ++ [(k, v)].
Proof.
  induction d as [|[k' v'] d IH]; simpl; [done|]. rewrite not_elem_of_cons. intros [Hk H].
  rewrite bool_decide_false by done. by rewrite IH.
Qed.

Lemma dict_get_set {V} k k' (v : V) d :
  dict_get k (dict_set k' v d) = if bool_decide (k = k') then Some v else dict_get k d.
Proof.
  induction d as [|[j w] d IH]; simpl; [done|].
  repeat (case_bool_decide; simplify_eq; simpl; rewrite ?IH; try done).
Qed.

Lemma dict_set_keys {V} k (v : V) d :
  dict_keys (dict_set k v d) = if decide (k ∈ dict_keys d) then dict_keys d else dict_keys d ++ [k].
Proof.
  induction d as [|[k' v'] d IH]; simpl; [done|]. case_bool_decide as E; subst; simpl.
  - by rewrite decide_True by left.
  - rewrite IH. destruct (decide (k ∈ dict_keys d)).
    + by rewrite decide_True by (by right).
    + rewrite decide_False; [done|]. by intros [->|?]%elem_of_cons.
Qed.

Lemma dict_set_nodup {V} k (v : V) d : NoDup (dict_keys d) -> NoDup (dict_keys (dict_set k v d)).
Proof.
  intros H. rewrite dict_set_keys. destruct (decide _); [done|].
  apply NoDup_app. split; [done|]. split; [set_solver|apply NoDup_singleton].
Qed.

(** Building a dictionary entry by entry *)
Lemma dict_set_Forall {V} (P : string * V -> Prop) k v d : P (k, v) -> Forall P d -> Forall P (dict_set k v d).
Proof.
  intros Hv. induction 1 as [|[k' v'] d Hx Hd IH]; cbn [dict_set]; [by repeat constructor|].
  case_match; by constructor.
Qed.
Lemma length_dict_set {V} k (v : V) d : (length (dict_set k v d) <= S (length d))%nat.
Proof. induction d as [|[k' v'] d IH]; cbn [dict_set length]; [lia|]. case_match; cbn [length]; lia. Qed.
Lemma dict_fold_Forall {V} (P : string * V -> Prop) (key : string -> string) l :
  Forall (fun kv => P (key kv.1, kv.2)) l -> forall acc, Forall P acc ->
  Forall P (foldl (fun acc kv => dict_set (key kv.1) kv.2 acc) acc l).
Proof. induction 1 as [|[k v] l Hx Hl IH]; intros acc Ha; cbn [foldl]; [done|]. apply IH. by apply dict_set_Forall. Qed.
Lemma length_dict_fold {V} (key : string -> string) (l : list (string * V)) : forall acc,
  (length (foldl (fun acc kv => dict_set (key kv.1) kv.2 acc) acc l) <= length acc + length l)%nat.
Proof.
  induction l as [|[k v] l IH]; intros acc; cbn [foldl length]; [lia|].
  pose proof (IH (dict_set (key k) v acc)). pose proof (length_dict_set (key k) v acc). cbn in *. lia.
Qed.
Lemma dict_fold_nodup {V} (key : string -> string) (l : list (string * V)) : forall acc,
  NoDup (dict_keys acc) -> NoDup (dict_keys (foldl (fun acc kv => dict_set (key kv.1) kv.2 acc) acc l)).
Proof. induction l as [|kv l IH]; intros acc Ha; [done|]. cbn [foldl]. apply IH. by apply dict_set_nodup. Qed.

(** [d.pop(k, None)] *)
Definition dict_pop {V} (k : string) (d : list (string * V)) : list (string * V) :=
  List.filter (fun kv => negb (bool_decide (kv.1 = k))) d.
Lemma dict_get_pop {V} k k' (d : list (string * V)) :
  dict_get k (dict_pop k' d) = if bool_decide (k = k') then None else dict_get k d.
Proof.
  induction d as [|[j w] d IH]; [by case_bool_decide|]. cbn. repeat (case_bool_decide; simplify_eq; cbn; try done).
  all: by rewrite bool_decide_false.
Qed.
Lemma dict_pop_sub {V} k (d : list (string * V)) j : j ∈ dict_keys (dict_pop k d) -> j ∈ dict_keys d.
Proof.
  intros (kv & -> & Hkv%list_elem_of_In)%list_elem_of_fmap. apply List.filter_In in Hkv as [Hkv _].
  apply list_elem_of_fmap. exists kv. by rewrite list_elem_of_In.
Qed.
Lemma dict_pop_nodup {V} k (d : list (string * V)) : NoDup (dict_keys d) -> NoDup (dict_keys (dict_pop k d)).
Proof.
  induction d as [|[j w] d IH]; [done|]. cbn. intros [Hj Hd]%NoDup_cons. case_bool_decide; cbn; [by apply IH|].
  apply NoDup_cons. split; [|by apply IH]. intros Hin. by apply Hj, (dict_pop_sub k).
Qed.
Lemma dict_pop_fresh {V} k (d : list (string * V)) : k ∉ dict_keys d -> dict_pop k d = d.
Proof.
  induction d as [|[j w] d IH]; [done|]. cbn. intros [Hj Hd]%not_elem_of_cons. unfold dict_pop. cbn.
  rewrite bool_decide_false by done. cbn. f_equal. by apply IH.
Qed.
Lemma dict_pop_idem {V} k (d : list (string * V)) : dict_pop k (dict_pop k d) = dict_pop k d.
Proof. apply dict_pop_fresh, dict_get_None. by rewrite dict_get_pop, bool_decide_true. Qed.
Lemma dict_pop_set {V} k (v : V) d : dict_pop k (dict_set k v d) = dict_pop k d.
Proof.
  induction d as [|[j w] d IH]; cbn; [by rewrite bool_decide_true|].
  repeat (case_bool_decide; simplify_eq; cbn; try done). by f_equal.
Qed.

Lemma default_object_hook_nodup ps :
  NoDup (dict_keys ps) -> default_object_hook ps = Ok (PDict ps).
Proof.
  intros Hnd. unfold default_object_hook.
  assert (forall acc, NoDup (dict_keys (acc ++ ps)) ->
    foldl (fun d kv => dict_set kv.1 kv.2 d) acc ps = acc ++ ps) as H.
  { clear Hnd. induction ps as [|[k v] ps IH]; intros acc Hnd; simpl; [by rewrite app_nil_r|].
    rewrite dict_set_fresh.
    - rewrite IH; rewrite <-(assoc_L (++)); done.
    - unfold dict_keys in Hnd. rewrite fmap_app, fmap_cons in Hnd.
      apply NoDup_app in Hnd as (_ & Hd & _). intros Hk. apply (Hd _ Hk). left. }
  by rewrite H.
Qed.

Lemma canon_nodup d : NoDup (dict_keys d) ->
  NoDup (dict_keys (sorted_by fst ((fun kv => (kv.1, canon kv.2)) <$> d))).
Proof.
  intros Hnd. apply (sorted_by_nodup fst). fold (dict_keys ((fun kv => (kv.1, canon kv.2)) <$> d)).
  by rewrite dict_keys_fmap.
Qed.

(** Looking a key up in a decoded object. *)
Lemma dict_get_canon k d : NoDup (dict_keys d) ->
  dict_get k (sorted_by fst ((fun kv => (kv.1, canon kv.2)) <$> d)) = canon <$> dict_get k d.
Proof.
  intros Hnd. rewrite dict_get_sorted by (by rewrite dict_keys_fmap). apply dict_get_fmap.
Qed.

Lemma elem_of_keys_canon k d :
  k ∈ dict_keys (sorted_by fst ((fun kv => (kv.1, canon kv.2)) <$> d)) <-> k ∈ dict_keys d.
Proof. unfold dict_keys. rewrite sorted_by_perm. fold (dict_keys ((fun kv => (kv.1, canon kv.2)) <$> d)).
  by rewrite dict_keys_fmap. Qed.

Lemma dumpsc_canon v : dumpsc (canon v) = dumpsc v.
Proof.
  induction v as [|b|z|s|s|l IH|d IH] using pyval_ind; try done.
  - cbn [canon]. rewrite !dumpsc_list. do 3 f_equal. rewrite <-list_fmap_compose.
    by apply list_fmap_ext; intros i x Hx; rewrite Forall_lookup in IH; eauto.
  - cbn [canon]. rewrite !dumpsc_dict, sorted_by_idemp, sorted_canon_members. do 3 f_equal.
    rewrite <-list_fmap_compose. apply list_fmap_ext. intros i [k v] Hx.
    apply (Forall_sorted_by fst) in IH. rewrite Forall_lookup in IH.
    specialize (IH _ _ Hx). simpl in IH. unfold compose, member_text. simpl. by rewrite IH.
Qed.

Lemma has_nan_plain v : plain v = true -> has_nan v = false.
Proof.
  induction v as [|b|z|s|s|l IH|d IH] using pyval_ind; try done; cbn [plain has_nan].
  - rewrite forallb_Forall_true, existsb_false. rewrite !Forall_forall in *. eauto.
  - intros [_ Hp]%andb_true_iff. rewrite forallb_Forall_true in Hp. rewrite existsb_false.
    rewrite !Forall_forall in *. eauto.
Qed.

(** ** Helpers shared by the record codecs *)
Definition opt_str (o : option string) : pyval :=
  match o with Some s => PStr s | None => PNone end.

Definition str_list (l : list string) : pyval := PList (PStr <$> l).

(** [item[key]] after the key set has been checked. *)
Definition item_get (key : string) (d : list (string * pyval)) : res pyval :=
  match dict_get key d with Some v => Ok v | None => Raise (Exn KeyError key) end.

Lemma canon_strs l : canon (str_list l) = str_list l.
Proof. unfold str_list. cbn [canon]. f_equal. rewrite <-list_fmap_compose. done. Qed.

(** Evaluate look-ups of literal keys in an object whose members are literal pairs. *)
Ltac run_items :=
  repeat (match goal with |- context [item_get ?k ?d] =>
    let r := eval hnf in (item_get k d) in change (item_get k d) with r end); cbn [res_bind].

(** Folding pairs into a dict while refusing repeated keys. *)
Lemma reject_fold_nodup c msg (ps : list (string * pyval)) :
  NoDup (dict_keys ps) ->
  foldl (fun acc '(key, value) =>
    let* d := acc in
    raise_if (bool_decide (key ∈ dict_keys d)) c msg ;;*
    Ok (dict_set key value d)) (Ok []) ps = Ok ps.
Proof.
  intros Hnd. change ps with ([] ++ ps) in Hnd |- * at 2. revert Hnd. generalize (@nil (string * pyval)) as acc.
  induction ps as [|[k v] ps IH]; intros acc Hnd; simpl; [by rewrite app_nil_r|].
  assert (k ∉ dict_keys acc) as Hk.
  { unfold dict_keys in *. rewrite fmap_app, fmap_cons in Hnd.
    apply NoDup_app in Hnd as (_ & Hd & _). intros Hk. apply (Hd _ Hk). left. }
  rewrite bool_decide_false by done. simpl. rewrite dict_set_fresh by done.
  rewrite IH; rewrite <-(assoc_L (++)); done.
Qed.

(** ** String-valued enumerations ([class E(str, Enum)]) *)
Class PyEnum (A : Type) := {
  members : list A;
  enum_value : A -> string;
}.
Class PyEnumLaws (A : Type) `{PyEnum A} := {
  members_complete : forall a, a ∈ members;
  enum_value_inj :: Inj (=) (=) (enum_value (A := A));
}.

(** [E(value)]: the member with that value, [ValueError] for anything else. *)
Definition enum_of {A} `{PyEnum A} (v : pyval) : res A :=
  match v with
  | PStr s =>
      match list_find (fun a => enum_value a = s) members with
      | Some (_, a) => Ok a
      | None => Raise (Exn ValueError "is not a valid enum value")
      end
  | _ => Raise (Exn ValueError "is not a valid enum value")
  end.

Lemma enum_of_Ok {A} `{PyEnumLaws A} v (a : A) : enum_of v = Ok a <-> v = PStr (enum_value a).
Proof.
  unfold enum_of. split.
  - destruct v; try done. destruct (list_find _ _) as [[i b]|] eqn:E; [|done].
    apply list_find_Some in E as (_ & <- & _). by intros [= ->].
  - intros ->. destruct (list_find _ _) as [[i b]|] eqn:E.
    + apply list_find_Some in E as (_ & Hb & _). by apply (inj enum_value) in Hb as ->.
    + apply list_find_None in E. rewrite Forall_forall in E.
      destruct (E a (members_complete a)); done.
Qed.

Ltac solve_enum_laws :=
  split; [intros []; cbn; set_solver | intros [] []; cbn; intros; first [reflexivity|discriminate]].
