(* ===== verification/PyValue.v ===== *)
(** * Operations on decoded Python values

    Comparison with [1], truth value, [str], and the ASCII text of
    [json.dumps(value, sort_keys=True)]. *)
From Stdlib Require Import Ascii.
From S2P Require Import Prelude PyStr Json.
Open Scope Z_scope.

(** ** Comparison and truth of decoded numbers

    The value of a float literal is a sign, a mantissa and a decimal exponent;
    [float] rounds to the nearest binary64 number, ties to even. *)
Definition float_parts (lit : string) : bool * Z * Z :=
  let '(neg, s1) := match lit with
    | String c r => if byte c =? 45 then (true, r) else (false, lit) | EmptyString => (false, lit) end in
  let '(i, s2) := match_integer s1 in
  let '(fr, s3) := match_fraction s2 in
  let '(ex, _) := match_exponent s3 in
  let frac := match fr with String _ d => d | EmptyString => EmptyString end in
  let exponent := match ex with
    | String _ (String c d) =>
        if byte c =? 45 then - dec_value 0 d else if byte c =? 43 then dec_value 0 d
        else dec_value 0 (String c d)
    | _ => 0 end in
  (neg, dec_value 0 (i +:+ frac), exponent - Z.of_nat (String.length frac)).
(** [float(lit) == 1.0]: within [1 - 2^-54, 1 + 2^-53] *)
Definition float_is_one (lit : string) : bool :=
  let '(neg, m, e) := float_parts lit in
  negb (is_nan_literal lit) && negb neg &&
  if 0 <=? e then m * 10 ^ e =? 1
  else let d := 10 ^ (- e) in ((2 ^ 54 - 1) * d <=? 2 ^ 54 * m) && (2 ^ 53 * m <=? (2 ^ 53 + 1) * d).
(** [float(lit) == 0.0]: at most [2^-1075] *)
Definition float_is_zero (lit : string) : bool :=
  let '(neg, m, e) := float_parts lit in
  negb (is_nan_literal lit) && ((m =? 0) || ((e <? 0) && (m * 2 ^ 1075 <=? 10 ^ (- e)))).
(** [value == 1] *)
Definition equals_one (value : pyval) : bool :=
  match value with
  | PInt z => z =? 1 | PBool b => b | PFloat lit => float_is_one lit | _ => false
  end.
(** [bool(value)] *)
Definition truthy (value : pyval) : bool :=
  match value with
  | PNone => false | PBool b => b | PInt z => negb (z =? 0) | PFloat lit => negb (float_is_zero lit)
  | PStr s => negb (str_empty s)
  | PList l => match l with [] => false | _ => true end
  | PDict d => match d with [] => false | _ => true end
  end.

(** ** [str(value)]

    [other] is the [repr] of a float, a list or a dict. *)
Definition py_str (other : pyval -> string) (value : pyval) : string :=
  match value with
  | PStr s => s
  | PInt z => Z_to_dec z
  | PBool true => "True"
  | PBool false => "False"
  | PNone => "None"
  | _ => other value
  end.

(** ** [json.dumps(value, sort_keys=True)]

    The default encoder separates with a comma and a space, a colon and a space, and escapes every
    code point outside the printable ASCII range. *)
Definition u_escape (n : Z) : string :=
  String "\" (String "u" (String (hex_digit (n / 4096)) (String (hex_digit (n / 256 mod 16))
    (String (hex_digit (n / 16 mod 16)) (String (hex_digit (n mod 16)) EmptyString))))).

Definition continuation (c : ascii) : Z := byte c mod 64.

Fixpoint ascii_text (s : string) : string :=
  match s with
  | EmptyString => EmptyString
  | String a r =>
      let x := byte a in
      if x <? 127 then String a (ascii_text r)
      else if x <? 192 then u_escape x +:+ ascii_text r
      else if x <? 224 then
        match r with
        | String b r' => u_escape (x mod 32 * 64 + continuation b) +:+ ascii_text r'
        | _ => EmptyString
        end
      else if x <? 240 then
        match r with
        | String b (String c r') =>
            u_escape (x mod 16 * 4096 + continuation b * 64 + continuation c) +:+ ascii_text r'
        | _ => EmptyString
        end
      else
        match r with
        | String b (String c (String d r')) =>
            let n := x mod 8 * 262144 + continuation b * 4096 + continuation c * 64 + continuation d - 65536 in
            u_escape (55296 + n / 1024) +:+ u_escape (56320 + n mod 1024) +:+ ascii_text r'
        | _ => EmptyString
        end
  end.

Definition json_dumps_sorted (value : pyval) : string := ascii_text (dumps ", " ": " value).

Example json_dumps_sorted_text :
  json_dumps_sorted (PDict [("b", PList [PInt 1; PNone]); ("a", PStr "x")])
  = "{" +:+ encode_str "a" +:+ ": " +:+ encode_str "x" +:+ ", " +:+ encode_str "b" +:+ ": [1, null]}".
Proof. reflexivity. Qed.

(** ** What [json.loads] raises

    With the default hooks the decoder raises nothing but [JSONDecodeError]. *)
Definition json_error_only {A} (m : res A) : Prop :=
  match m with Ok _ => True | Raise e => exn_cls e = JSONDecodeError end.
Lemma json_error_bind {A B} (m : res A) (f : A -> res B) :
  json_error_only m -> (forall a, json_error_only (f a)) -> json_error_only (res_bind m f).
Proof. destruct m; cbn; auto. Qed.
Lemma json_error_decode {A} : json_error_only (@decode_error A).
Proof. done. Qed.

Lemma scanstring_error s : json_error_only (scanstring s).
Proof.
  remember (String.length s) as n eqn:Hn. assert (String.length s <= n)%nat as Hle by lia. clear Hn.
  revert s Hle. induction n as [|n IH]; intros s Hle; (destruct s as [|c s1]; [done|]); simpl in Hle; [lia|].
  assert (rec : forall (s' : string) (f : string * string -> res (string * string)),
    (String.length s' <= n)%nat -> (forall x, json_error_only (f x)) -> json_error_only (res_bind (scanstring s') f)).
  { intros s' f Hs Hf. apply json_error_bind; [by apply IH|done]. }
  cbn [scanstring]. destruct (byte c =? 34); [done|].
  destruct (byte c =? 92).
  2: { destruct (byte c <? 32); [done|]. apply rec; [lia|by intros []]. }
  destruct s1 as [|e s2]; [done|]. simpl in Hle. destruct (unescape_simple e); [apply rec; [lia|by intros []]|].
  destruct (byte e =? 117); [|done].
  destruct s2 as [|h1 [|h2 [|h3 [|h4 s3]]]]; try done. simpl in Hle.
  destruct (hex4 h1 h2 h3 h4) as [u|]; [|done].
  destruct s3 as [|k [|v [|l1 [|l2 [|l3 [|l4 s4]]]]]]; try (apply rec; [simpl in *; lia|by intros []]).
  destruct (hex4 l1 l2 l3 l4) as [u2|]; [|apply rec; [simpl in *; lia|by intros []]].
  destruct (_ && _); (apply rec; [simpl in *; lia|by intros []]).
Qed.

Lemma parse_number_error s : json_error_only (parse_number s).
Proof.
  unfold parse_number. destruct (match s with EmptyString => _ | String _ _ => _ end) as [neg s1].
  destruct (match_integer s1) as [i s2]. destruct (str_empty i); [done|].
  destruct (match_fraction s2) as [fr s3], (match_exponent s3) as [ex s4].
  by destruct (str_empty fr && str_empty ex).
Qed.

Lemma decoder_error f :
  let oh := default_object_hook in let ch := default_constant_hook in
  (forall s, json_error_only (scan_once oh ch f s)) /\ (forall s, json_error_only (parse_array oh ch f s)) /\
  (forall s, json_error_only (parse_elements oh ch f s)) /\ (forall s, json_error_only (parse_object oh ch f s)) /\
  (forall s, json_error_only (parse_members oh ch f s)).
Proof.
  intros oh ch. induction f as [|f (IHs & IHa & IHe & IHo & IHm)]; [done|]. split_and!; intros s.
  - destruct s as [|c s1]; [done|]. cbn [scan_once].
    destruct (byte c =? 34); [apply json_error_bind; [apply scanstring_error|by intros []]|].
    destruct (byte c =? 123); [done|]. destruct (byte c =? 91); [done|].
    repeat (destruct (drop_prefix _ _); [done|]). apply parse_number_error.
  - destruct s as [|c s1]; [done|]. cbn [parse_array]. destruct (byte c =? 93); [done|].
    apply json_error_bind; [done|by intros []].
  - rewrite parse_elements_S. apply json_error_bind; [done|]. intros [v r].
    destruct (skip_ws r) as [|c r1]; [done|]. destruct (byte c =? 93); [done|]. destruct (byte c =? 44); [|done].
    apply json_error_bind; [done|by intros []].
  - destruct s as [|c s1]; [done|]. cbn [parse_object]. destruct (byte c =? 125); [done|].
    apply json_error_bind; [done|by intros []].
  - destruct s as [|q s1]; [done|]. cbn [parse_members]. destruct (byte q =? 34); [|done].
    apply json_error_bind; [apply scanstring_error|]. intros [k r].
    destruct (skip_ws r) as [|c r1]; [done|]. destruct (byte c =? 58); [|done].
    apply json_error_bind; [done|]. intros [v r2].
    destruct (skip_ws r2) as [|e r3]; [done|]. destruct (byte e =? 125); [done|]. destruct (byte e =? 44); [|done].
    apply json_error_bind; [done|by intros []].
Qed.
Lemma loads_error s : json_error_only (loads default_object_hook default_constant_hook s).
Proof.
  unfold loads. apply json_error_bind; [apply decoder_error|]. intros [v r]. by destruct (skip_ws r).
Qed.
