(* ===== verification/Sha256.v ===== *)
(** * SHA-256

    [hashlib.sha256(data).hexdigest()] of the Python standard library (FIPS
    180-4), executable.  Words are 32-bit integers in [Z]. *)
From Stdlib Require Import Ascii.
From S2P Require Import Prelude PyStr.
Open Scope Z_scope.

Definition mask32 : Z := Eval vm_compute in 2 ^ 32 - 1.
Definition w32 (x : Z) : Z := Z.land x mask32.
Definition add32 (x y : Z) : Z := w32 (x + y).
Definition rotr (n x : Z) : Z := Z.lor (Z.shiftr x n) (w32 (Z.shiftl x (32 - n))).

Definition Ch (x y z : Z) : Z := Z.lxor (Z.land x y) (Z.land (Z.lxor x mask32) z).
Definition Maj (x y z : Z) : Z := Z.lxor (Z.lxor (Z.land x y) (Z.land x z)) (Z.land y z).
Definition Sigma0 (x : Z) : Z := Z.lxor (Z.lxor (rotr 2 x) (rotr 13 x)) (rotr 22 x).
Definition Sigma1 (x : Z) : Z := Z.lxor (Z.lxor (rotr 6 x) (rotr 11 x)) (rotr 25 x).
Definition sigma0 (x : Z) : Z := Z.lxor (Z.lxor (rotr 7 x) (rotr 18 x)) (Z.shiftr x 3).
Definition sigma1 (x : Z) : Z := Z.lxor (Z.lxor (rotr 17 x) (rotr 19 x)) (Z.shiftr x 10).

(** The round constants are the first 32 bits of the fractional parts of the
    cube roots of the first 64 primes, the initial state those of the square
    roots of the first eight; both are evaluated once, here. *)
Definition is_prime (n : Z) : bool :=
  forallb (fun d => negb (n mod d =? 0)) (Z.of_nat <$> seq 2 (Z.to_nat n - 2)).
Definition primes_upto (n : nat) : list Z := List.filter is_prime (Z.of_nat <$> seq 2 (n - 1)).
(** The largest [r] below [2 ^ bits] with [r ^ k <= x], bit by bit. *)
Fixpoint iroot (bits : nat) (k x acc : Z) : Z :=
  match bits with
  | O => acc
  | S b =>
      let r := acc + 2 ^ Z.of_nat b in
      iroot b k x (if r ^ k <=? x then r else acc)
  end.
Definition root_fraction (k p : Z) : Z := iroot 40 k (p * 2 ^ (32 * k)) 0 mod 2 ^ 32.
Definition K256 : list Z := Eval vm_compute in root_fraction 3 <$> primes_upto 311.

(** The eight working variables. *)
Record hstate := HS { ha : Z; hb : Z; hc : Z; hd : Z; he : Z; hf : Z; hg : Z; hh : Z }.
Definition H0 : hstate := Eval vm_compute in
  let h p := root_fraction 2 p in HS (h 2) (h 3) (h 5) (h 7) (h 11) (h 13) (h 17) (h 19).

(** The message schedule, newest word first: [W t] from [W (t-2)], [W (t-7)],
    [W (t-15)] and [W (t-16)]. *)
Fixpoint extend (n : nat) (ws : list Z) : list Z :=
  match n with
  | O => ws
  | S n' =>
      let w i := nth i ws 0 in
      extend n' (w32 (sigma1 (w 1%nat) + w 6%nat + sigma0 (w 14%nat) + w 15%nat) :: ws)
  end.
Definition schedule (block : list Z) : list Z := rev (extend 48 (rev block)).

Definition round (s : hstate) (kw : Z * Z) : hstate :=
  let t1 := w32 (hh s + Sigma1 (he s) + Ch (he s) (hf s) (hg s) + kw.1 + kw.2) in
  let t2 := w32 (Sigma0 (ha s) + Maj (ha s) (hb s) (hc s)) in
  HS (add32 t1 t2) (ha s) (hb s) (hc s) (add32 (hd s) t1) (he s) (hf s) (hg s).

Definition compress (h : hstate) (block : list Z) : hstate :=
  let r := fold_left round (combine K256 (schedule block)) h in
  HS (add32 (ha h) (ha r)) (add32 (hb h) (hb r)) (add32 (hc h) (hc r)) (add32 (hd h) (hd r))
     (add32 (he h) (he r)) (add32 (hf h) (hf r)) (add32 (hg h) (hg r)) (add32 (hh h) (hh r)).

(** Padding: [0x80], zeros up to 56 modulo 64, the bit length on 8 bytes. *)
Fixpoint be_bytes (n : nat) (x : Z) : list Z :=
  match n with O => [] | S n' => Z.land (Z.shiftr x (8 * Z.of_nat n')) 255 :: be_bytes n' x end.
Definition pad (m : list Z) : list Z :=
  let len := Z.of_nat (length m) in
  m ++ 128 :: repeat 0 (Z.to_nat ((55 - len) mod 64)) ++ be_bytes 8 (8 * len).

Fixpoint to_words (l : list Z) : list Z :=
  match l with
  | a :: b :: c :: d :: l' => (Z.shiftl a 24 + Z.shiftl b 16 + Z.shiftl c 8 + d) :: to_words l'
  | _ => []
  end.
Fixpoint run_blocks (fuel : nat) (h : hstate) (ws : list Z) : hstate :=
  match fuel, ws with
  | S f, _ :: _ => run_blocks f (compress h (take 16 ws)) (drop 16 ws)
  | _, _ => h
  end.

Definition hex_lower (d : Z) : ascii := chr (if d <? 10 then 48 + d else 87 + d).
Fixpoint hex_word (n : nat) (x : Z) : string :=
  match n with
  | O => EmptyString
  | S n' => String (hex_lower (Z.land (Z.shiftr x (4 * Z.of_nat n')) 15)) (hex_word n' x)
  end.

Definition sha256_state (data : string) : hstate :=
  let ws := to_words (pad (byte <$> String.list_ascii_of_string data)) in
  run_blocks (length ws) H0 ws.

(** [hashlib.sha256(data).hexdigest()] *)
Definition sha256_hexdigest (data : string) : string :=
  let s := sha256_state data in
  hex_word 8 (ha s) +:+ hex_word 8 (hb s) +:+ hex_word 8 (hc s) +:+ hex_word 8 (hd s) +:+
  hex_word 8 (he s) +:+ hex_word 8 (hf s) +:+ hex_word 8 (hg s) +:+ hex_word 8 (hh s).

(** The FIPS 180-4 test vectors. *)
Example sha256_abc : sha256_hexdigest "abc"
  = "ba7816bf8f01cfea414140de5dae2223b00361a396177a9cb410ff61f20015ad".
Proof. vm_compute. reflexivity. Qed.
Example sha256_two_blocks :
  sha256_hexdigest "abcdbcdecdefdefgefghfghighijhijkijkljklmklmnlmnomnopnopq"
  = "248d6a61d20638b8e5c026930c3e6039a33ce45964ff2167f6ecedd419db06c1".
Proof. vm_compute. reflexivity. Qed.

Lemma hex_lower_is_hex d : 0 <= d < 16 -> is_hex_lower (hex_lower d) = true.
Proof.
  intros Hd. unfold is_hex_lower, hex_lower, between.
  destruct (d <? 10) eqn:E; rewrite byte_chr by lia; lia.
Qed.

Lemma hex_word_spec n x :
  String.length (hex_word n x) = n /\ string_forallb is_hex_lower (hex_word n x) = true.
Proof.
  induction n as [|n [IHl IHf]]; simpl; [done|]. rewrite IHl, IHf, hex_lower_is_hex; [done|].
  change 15 with (Z.ones 4). rewrite Z.land_ones by lia. apply Z.mod_pos_bound. lia.
Qed.

(** A digest always has the form the contracts check with [_HEX_DIGEST]. *)
Lemma sha256_hexdigest_form data : is_sha256_hex (sha256_hexdigest data) = true.
Proof.
  unfold is_sha256_hex, sha256_hexdigest. generalize (sha256_state data) as s. intros s.
  rewrite !str_length_app, !string_forallb_app.
  rewrite !(fun x => proj1 (hex_word_spec 8 x)), !(fun x => proj2 (hex_word_spec 8 x)). done.
Qed.
#[export] Hint Resolve sha256_hexdigest_form : khaos.
#[global] Opaque sha256_hexdigest.
