(* ===== verification/ProtocolBoundary.v ===== *)
(** * Security-boundary primitives ([security/protocol_boundary.py])

    Canonical serialisation and digests, the strict JSON decoder, closed object
    schemas, protocol negotiation, the receipt and resource-owner state
    machines, effect bindings and bounded line framing. *)
From Stdlib Require Import Ascii.
From S2P Require Import Prelude PyStr Json Sha256.
Open Scope Z_scope.

Definition pbe {A} (msg : string) : res A := Raise (Exn ProtocolBoundaryError msg).

(** ** Canonical serialisation *)
Definition canonical_json_bytes (value : pyval) : res string :=
  try_except
    (let* text := dumps_canonical value in encode_utf8 text)
    [TypeError; ValueError; UnicodeEncodeError]
    (fun _ => pbe "value is not canonically serializable").

Definition canonical_digest (value : pyval) : res string :=
  let* b := canonical_json_bytes value in Ok (sha256_hexdigest b).

(** ** Strict decoding *)

(** [bytes.decode("utf-8")] accepts exactly the well-formed sequences (no
    overlong form, no surrogate, nothing above U+10FFFF). *)
Fixpoint valid_utf8 (s : string) : bool :=
  match s with
  | EmptyString => true
  | String a s1 =>
      if byte a <? 128 then valid_utf8 s1 else
      match s1 with
      | EmptyString => false
      | String b s2 =>
          if between 194 223 (byte a) then is_continuation b && valid_utf8 s2 else
          match s2 with
          | EmptyString => false
          | String c s3 =>
              if between 224 239 (byte a) then
                between (if byte a =? 224 then 160 else 128) (if byte a =? 237 then 159 else 191) (byte b)
                && is_continuation c && valid_utf8 s3
              else
              match s3 with
              | EmptyString => false
              | String d s4 =>
                  between 240 244 (byte a)
                  && between (if byte a =? 240 then 144 else 128) (if byte a =? 244 then 143 else 191) (byte b)
                  && is_continuation c && is_continuation d && valid_utf8 s4
              end
          end
      end
  end.

(** The argument of [strict_json_loads]: [bytes], [str] or another object. *)
Inductive json_payload :=
| PayloadBytes (raw : string)
| PayloadText (text : string)
| PayloadOther.

Definition _reject_duplicate_json_pairs (pairs : list (string * pyval)) : res pyval :=
  let* result :=
    foldl (fun acc '(key, value) =>
      let* d := acc in
      raise_if (bool_decide (key ∈ dict_keys d)) ProtocolBoundaryError
        "JSON object contains duplicate keys" ;;*
      Ok (dict_set key value d)) (Ok []) pairs in
  Ok (PDict result).

Definition _reject_nonstandard_json_constant (value : string) : res pyval :=
  pbe ("JSON payload contains non-standard number: " +:+ value).

Definition check_json_bound (max_bytes : option Z) (raw : string) : res unit :=
  match max_bytes with
  | None => Ok tt
  | Some m =>
      raise_if (m <=? 0) ValueError "JSON payload maximum must be positive" ;;*
      raise_if (m <? Z.of_nat (String.length raw)) ProtocolBoundaryError
        "JSON payload exceeds its size bound"
  end.

Definition strict_json_loads (payload : json_payload) (max_bytes : option Z) : res pyval :=
  let* '(text, raw) :=
    match payload with
    | PayloadBytes raw =>
        check_json_bound max_bytes raw ;;*
        raise_if (negb (valid_utf8 raw)) ProtocolBoundaryError "JSON payload is not UTF-8" ;;*
        Ok (raw, raw)
    | PayloadText text => let* raw := encode_utf8 text in Ok (text, raw)
    | PayloadOther => pbe "JSON payload must be bytes or text"
    end in
  check_json_bound max_bytes raw ;;*
  match loads _reject_duplicate_json_pairs _reject_nonstandard_json_constant text with
  | Ok v => Ok v
  | Raise e =>
      if isinstance (exn_cls e) ProtocolBoundaryError then Raise e
      else if existsb (isinstance (exn_cls e)) [JSONDecodeError; TypeError; ValueError]
      then pbe "JSON payload is malformed" else Raise e
  end.

(** ** Closed object schemas *)
Definition validate_object_schema (value : pyval) (allowed_fields required_fields : list string)
    (label : string) : res (list (string * pyval)) :=
  match value with
  | PDict d =>
      raise_if (existsb (fun k => negb (str_in k allowed_fields)) (dict_keys d))
        ProtocolBoundaryError (label +:+ " contains unknown fields") ;;*
      raise_if (existsb (fun k => negb (str_in k (dict_keys d))) required_fields)
        ProtocolBoundaryError (label +:+ " is missing required fields") ;;*
      Ok d
  | _ => pbe (label +:+ " must be an object")
  end.

(** ** Protocol negotiation *)
Record ProtocolNegotiation := MkNegotiation {
  selected_version : Z;
  minimum : Z;
  maximum : Z;
  schema_version : Z;
  method_schema_version : Z;
  features : list string
}.

Definition as_int (v : pyval) : option Z := match v with PInt z => Some z | _ => None end.
Definition as_str (v : pyval) : option string := match v with PStr s => Some s | _ => None end.

Definition negotiate (min_v max_v : pyval) (supported_version : Z)
    (schema_v : pyval) (supported_schema_version : Z)
    (method_v : pyval) (supported_method_schema_version : Z)
    (features_v : pyval) (required_features : list string) : res ProtocolNegotiation :=
  match as_int min_v, as_int max_v, as_int schema_v, as_int method_v with
  | Some mn, Some mx, Some sv, Some mv =>
      raise_if (negb ((mn <=? supported_version) && (supported_version <=? mx)) || (mx <? mn))
        ProtocolBoundaryError "protocol version is outside the supported range" ;;*
      raise_if (negb (sv =? supported_schema_version))
        ProtocolBoundaryError "protocol schema version is unsupported" ;;*
      raise_if (negb (mv =? supported_method_schema_version))
        ProtocolBoundaryError "method schema version is unsupported" ;;*
      match features_v with
      | PList l =>
          match mapM as_str l with
          | Some fs =>
              raise_if (existsb str_empty fs || has_duplicates fs
                        || negb (forallb (fun f => str_in f fs) required_features))
                ProtocolBoundaryError "protocol feature set is invalid" ;;*
              Ok (MkNegotiation supported_version mn mx sv mv fs)
          | None => pbe "protocol feature set is invalid"
          end
      | _ => pbe "protocol feature set is invalid"
      end
  | _, _, _, _ => pbe "protocol versions must be integers"
  end.

Definition feature_digest (n : ProtocolNegotiation) : res string :=
  canonical_digest (PList (PStr <$> py_sorted (features n))).

(** ** Receipt lifecycle *)
Inductive ReceiptState :=
| PREPARING | PREPARED | CLAIMING | CLAIMED | COMPLETING | TERMINAL | NARROWING | REVOKING.

Definition receipt_value (s : ReceiptState) : string :=
  match s with
  | PREPARING => "preparing" | PREPARED => "prepared" | CLAIMING => "claiming"
  | CLAIMED => "claimed" | COMPLETING => "completing" | TERMINAL => "terminal"
  | NARROWING => "narrowing" | REVOKING => "revoking"
  end.

Definition _RECEIPT_TRANSITIONS : list (string * string) :=
  (fun '(a, b) => (receipt_value a, receipt_value b)) <$>
  [ (PREPARING, PREPARED); (PREPARED, CLAIMING); (CLAIMING, CLAIMED);
    (PREPARED, COMPLETING); (CLAIMED, COMPLETING); (COMPLETING, CLAIMED);
    (COMPLETING, TERMINAL); (PREPARED, NARROWING); (NARROWING, PREPARED);
    (PREPARED, REVOKING); (REVOKING, PREPARED) ].

Definition require_receipt_transition (current next_state : string) : res string :=
  raise_if (negb (bool_decide ((current, next_state) ∈ _RECEIPT_TRANSITIONS)))
    ProtocolBoundaryError "illegal authority receipt transition" ;;*
  Ok next_state.

(** ** Resource-owner lifecycle *)
Inductive OwnerState := OPEN | CLOSING | QUARANTINED | CLOSED.
#[export] Instance OwnerState_eq_dec : EqDecision OwnerState.
Proof. solve_decision. Defined.

Definition owner_allowed : list (OwnerState * OwnerState) :=
  [ (OPEN, CLOSING); (CLOSING, QUARANTINED); (CLOSING, CLOSED);
    (QUARANTINED, CLOSING); (CLOSED, CLOSED) ].

Definition require_owner_transition (current next_state : OwnerState)
    (terminal_proven : bool) (owned_resources : list string) : res OwnerState :=
  raise_if (negb (bool_decide ((current, next_state) ∈ owner_allowed)))
    ProtocolBoundaryError "illegal resource-owner transition" ;;*
  raise_if (bool_decide (next_state = CLOSED)
            && (negb terminal_proven || negb (bool_decide (owned_resources = []))))
    ProtocolBoundaryError "CLOSED requires terminal proof and empty ownership" ;;*
  Ok next_state.

(** ** Effect bindings *)
Record EffectBinding := MkEffectBinding {
  operation : string;
  resource_digest : string;
  effect_digest : string
}.

Definition effect_create (op : string) (resource effect : pyval) : res EffectBinding :=
  raise_if (str_empty op || string_existsb (fun c => byte c =? 0) op)
    ProtocolBoundaryError "effect operation is invalid" ;;*
  let* rd := canonical_digest resource in
  let* ed := canonical_digest effect in
  Ok (MkEffectBinding op rd ed).

(** [and] evaluates its right operand only when the left one is true. *)
Definition effect_matches (b : EffectBinding) (op : string) (resource effect : pyval) : res bool :=
  if negb (bool_decide (operation b = op)) then Ok false else
  let* rd := canonical_digest resource in
  if negb (bool_decide (resource_digest b = rd)) then Ok false else
  let* ed := canonical_digest effect in
  Ok (bool_decide (effect_digest b = ed)).

(** ** Bounded line framing *)

(** What [read_bounded_line] relies on of a blocking stream socket: [recv n]
    hands out the next bytes of the stream, at most [n] of them, and the empty
    string only at the end of the stream. *)
Class StreamSocket (conn : Type) := {
  recv : Z -> conn -> string * conn;
  stream : conn -> string;
  recv_stream : forall n c chunk c', recv n c = (chunk, c') -> stream c = chunk +:+ stream c';
  recv_bound : forall n c chunk c', 0 < n -> recv n c = (chunk, c') ->
    Z.of_nat (String.length chunk) <= n;
  recv_eof : forall n c c', 0 < n -> recv n c = (EmptyString, c') -> stream c = EmptyString
}.

(** [chunk.find(b"\n")] and [chunk[:marker]]: the text before the first
    newline, if there is one. *)
Fixpoint before_newline (s : string) : option string :=
  match s with
  | EmptyString => None
  | String c s' => if byte c =? 10 then Some EmptyString else String c <$> before_newline s'
  end.

Fixpoint str_take (n : nat) (s : string) : string :=
  match n, s with
  | S n', String c s' => String c (str_take n' s')
  | _, _ => EmptyString
  end.

Definition frame_error : res string := pbe "bounded frame is too large or incomplete".

Section read_bounded_line.
Context {conn : Type} `{StreamSocket conn}.

(** The [while] loop; [None] when [fuel] iterations were not enough. *)
Fixpoint read_loop (fuel : nat) (max_bytes chunk_size : Z) (data : string) (c : conn)
    : option (res string * conn) :=
  match fuel with
  | O => None
  | S f =>
      let len := Z.of_nat (String.length data) in
      if len <? max_bytes then
        let '(chunk, c') := recv (Z.min chunk_size (max_bytes - len)) c in
        if str_empty chunk then Some (frame_error, c') else
        match before_newline chunk with
        | Some l => Some (Ok (data +:+ l), c')
        | None => read_loop f max_bytes chunk_size (data +:+ chunk) c'
        end
      else Some (frame_error, c)
  end.

Definition read_bounded_line (max_bytes chunk_size : Z) (c : conn) : option (res string * conn) :=
  if (max_bytes <=? 0) || (chunk_size <=? 0)
  then Some (pbe "bounded line limits must be positive", c)
  else read_loop (S (Z.to_nat max_bytes)) max_bytes chunk_size EmptyString c.

Lemma before_newline_app s t :
  before_newline (s +:+ t)
  = match before_newline s with Some l => Some l | None => String.append s <$> before_newline t end.
Proof.
  induction s as [|a s IH]; simpl; [by destruct (before_newline t)|].
  destruct (byte a =? 10); [done|]. rewrite IH.
  destruct (before_newline s); [done|]. by destruct (before_newline t).
Qed.

Lemma str_take_app_le n s t : (String.length s <= n)%nat ->
  str_take n (s +:+ t) = s +:+ str_take (n - String.length s) t.
Proof.
  revert n. induction s as [|a s IH]; intros n Hn; simpl in *.
  - by rewrite Nat.sub_0_r.
  - destruct n as [|n]; [lia|]. simpl. by rewrite IH by lia.
Qed.

Definition framed (n : nat) (data s : string) : res string :=
  match before_newline (str_take n s) with Some l => Ok (data +:+ l) | None => frame_error end.

Lemma framed_chunk n data chunk s :
  (String.length chunk <= n)%nat ->
  framed n data (chunk +:+ s)
  = match before_newline chunk with
    | Some l => Ok (data +:+ l)
    | None => framed (n - String.length chunk) (data +:+ chunk) s
    end.
Proof.
  intros Hn. unfold framed. rewrite str_take_app_le by done. rewrite before_newline_app.
  destruct (before_newline chunk); [done|].
  destruct (before_newline _); simpl; [|done]. by rewrite str_app_assoc.
Qed.

Lemma read_loop_spec fuel max_bytes chunk_size data c :
  0 < chunk_size -> Z.of_nat (String.length data) <= max_bytes ->
  max_bytes - Z.of_nat (String.length data) < Z.of_nat fuel ->
  exists c' used,
    read_loop fuel max_bytes chunk_size data c
    = Some (framed (Z.to_nat (max_bytes - Z.of_nat (String.length data))) data (stream c), c')
    /\ stream c = used +:+ stream c'
    /\ Z.of_nat (String.length data + String.length used) <= max_bytes.
Proof.
  intros Hcs. revert data c. induction fuel as [|f IH]; intros data c Hle Hf; [lia|].
  cbn [read_loop]. destruct (Z.of_nat (String.length data) <? max_bytes) eqn:E.
  2:{ exists c, EmptyString. replace (Z.to_nat _) with 0%nat by lia.
      split_and!; [done|done|simpl; lia]. }
  set (n := Z.min chunk_size (max_bytes - Z.of_nat (String.length data))).
  destruct (recv n c) as [chunk c'] eqn:Hr.
  assert (0 < n) by lia. pose proof (recv_bound _ _ _ _ H0 Hr) as Hb.
  pose proof (recv_stream _ _ _ _ Hr) as Hs.
  destruct (str_empty chunk) eqn:Ec.
  { destruct chunk as [|? ?]; [|done]. exists c', EmptyString.
    rewrite (recv_eof _ _ _ H0 Hr) in Hs |- *. split_and!; [|done|simpl; lia].
    unfold framed. by destruct (Z.to_nat _). }
  rewrite Hs, framed_chunk by lia.
  destruct (before_newline chunk) as [l|] eqn:En.
  { exists c', chunk. split_and!; [done|done|lia]. }
  assert (0 < String.length chunk)%nat by (destruct chunk; simpl in *; [done|lia]).
  destruct (IH (data +:+ chunk) c') as (c'' & used & He & Hu & Hlen);
    [rewrite str_length_app; lia..|].
  exists c'', (chunk +:+ used). rewrite He, Hu, !str_length_app in *. split_and!.
  - do 3 f_equal. lia.
  - by rewrite str_app_assoc.
  - lia.
Qed.
End read_bounded_line.

(** ** Canonical serialisation: lemmas *)
Lemma reject_duplicates_nodup ps :
  NoDup (dict_keys ps) -> _reject_duplicate_json_pairs ps = Ok (PDict ps).
Proof. intros Hnd. unfold _reject_duplicate_json_pairs. by rewrite reject_fold_nodup. Qed.

Lemma dumps_canonical_plain v : plain v = true -> dumps_canonical v = Ok (dumpsc v).
Proof. intros Hp. unfold dumps_canonical. by rewrite has_nan_plain. Qed.

Lemma canonical_json_bytes_Ok v b : plain v = true ->
  canonical_json_bytes v = Ok b <-> b = dumpsc v /\ has_surrogate (dumpsc v) = false.
Proof.
  intros Hp. unfold canonical_json_bytes. rewrite dumps_canonical_plain by done.
  cbn [res_bind]. unfold encode_utf8. destruct (has_surrogate (dumpsc v)); simpl; [by split; [|intros []]|].
  split; [by intros [= <-]|by intros [-> _]].
Qed.

Lemma canonical_json_bytes_cases v :
  plain v = true ->
  canonical_json_bytes v
  = if has_surrogate (dumpsc v) then pbe "value is not canonically serializable"
    else Ok (dumpsc v).
Proof.
  intros Hp. unfold canonical_json_bytes. rewrite dumps_canonical_plain by done.
  cbn [res_bind]. unfold encode_utf8. by destruct (has_surrogate (dumpsc v)).
Qed.

Lemma canonical_digest_form v d : canonical_digest v = Ok d -> is_sha256_hex d = true.
Proof. unfold canonical_digest. intros H. inv_res. apply sha256_hexdigest_form. Qed.

(** *** ASCII values always serialise *)
Definition is_ascii (c : ascii) : bool := byte c <? 128.
Fixpoint ascii_value (v : pyval) : bool :=
  match v with
  | PStr s => string_forallb is_ascii s
  | PList l => forallb ascii_value l
  | PDict d => forallb (fun kv => string_forallb is_ascii kv.1 && ascii_value kv.2) d
  | _ => true
  end.

Lemma string_forallb_impl (p q : ascii -> bool) s :
  (forall c, p c = true -> q c = true) -> string_forallb p s = true -> string_forallb q s = true.
Proof.
  intros H. induction s as [|c s IH]; [done|]. cbn [string_forallb].
  rewrite !andb_true_iff. intros [??]. auto.
Qed.
Lemma ascii_no_surrogate s : string_forallb is_ascii s = true -> has_surrogate s = false.
Proof.
  induction s as [|a s IH]; [done|]. cbn [string_forallb]. intros [Ha HF]%andb_true_iff.
  destruct s as [|b s]; [done|]. rewrite has_surrogate_cons2, (IH HF).
  unfold is_ascii in Ha. replace (byte a =? 237) with false by lia. done.
Qed.
Lemma ascii_escape s : string_forallb is_ascii s = true -> string_forallb is_ascii (escape s) = true.
Proof.
  induction s as [|c s IH]; [done|]. cbn [string_forallb escape]. intros [Hc Hs]%andb_true_iff.
  rewrite string_forallb_app, IH, andb_true_r by done. clear IH Hs s. revert Hc.
  by destruct c as [[] [] [] [] [] [] [] []].
Qed.
Lemma ascii_encode_str s : string_forallb is_ascii s = true -> string_forallb is_ascii (encode_str s) = true.
Proof. intros H. unfold encode_str. cbn [string_forallb]. by rewrite string_forallb_app, ascii_escape. Qed.
Lemma ascii_Z_to_dec z : string_forallb is_ascii (Z_to_dec z) = true.
Proof.
  assert (H : forall n, 0 <= n -> string_forallb is_ascii (nat_to_dec n) = true).
  { intros n Hn. destruct (nat_to_dec_spec n Hn) as (c & t & -> & H & _).
    eapply string_forallb_impl, H. unfold is_digit, between, is_ascii. intros x. lia. }
  unfold Z_to_dec. destruct (z <? 0) eqn:E; [|by apply H; lia]. cbn [string_forallb]. by rewrite H by lia.
Qed.
Lemma ascii_join sep l : string_forallb is_ascii sep = true ->
  Forall (fun s => string_forallb is_ascii s = true) l -> string_forallb is_ascii (join sep l) = true.
Proof.
  intros Hs. induction 1 as [|x l Hx Hl IH]; [done|]. destruct l as [|y l]; [done|].
  change (join sep (x :: y :: l)) with (x +:+ sep +:+ join sep (y :: l)).
  by rewrite !string_forallb_app, Hx, Hs, IH.
Qed.
Lemma ascii_dumpsc v : plain v = true -> ascii_value v = true -> string_forallb is_ascii (dumpsc v) = true.
Proof.
  induction v as [|b|z|s|s|l IH|d IH] using pyval_ind; try done.
  - by destruct b.
  - intros _ _. apply ascii_Z_to_dec.
  - intros _. apply ascii_encode_str.
  - cbn [plain ascii_value]. rewrite dumpsc_list, !forallb_Forall_true, !string_forallb_app. intros Hp Ha.
    rewrite ascii_join; [done..|]. rewrite Forall_fmap, !Forall_forall in *. intros x Hx. by apply IH; auto.
  - cbn [plain ascii_value]. rewrite dumpsc_dict, andb_true_iff, !forallb_Forall_true, !string_forallb_app.
    intros [_ Hp] Ha. rewrite ascii_join; [done..|]. rewrite Forall_fmap, (Forall_sorted_by fst).
    rewrite !Forall_forall in *. intros [k v] Hx. specialize (Ha _ Hx). apply andb_true_iff in Ha as [Hk Hv].
    unfold compose, member_text. rewrite !string_forallb_app, ascii_encode_str by done.
    rewrite (IH _ Hx); [done| |done]. by apply (Hp _ Hx).
Qed.
Lemma ascii_serialises v : plain v = true -> ascii_value v = true ->
  canonical_json_bytes v = Ok (dumpsc v) /\ canonical_digest v = Ok (sha256_hexdigest (dumpsc v)).
Proof.
  intros Hp Ha. unfold canonical_digest.
  by rewrite canonical_json_bytes_cases, ascii_no_surrogate by (done || by apply ascii_dumpsc).
Qed.
Lemma ascii_hex s : is_sha256_hex s = true -> string_forallb is_ascii s = true.
Proof.
  unfold is_sha256_hex. intros [_ H]%andb_true_iff. eapply string_forallb_impl, H.
  unfold is_hex_lower, between, is_ascii. intros c. lia.
Qed.

(** Two values that differ only in the order of object members. *)
Unset Elimination Schemes.
Inductive json_equiv : pyval -> pyval -> Prop :=
| je_refl v : json_equiv v v
| je_list l l' : Forall2 json_equiv l l' -> json_equiv (PList l) (PList l')
| je_dict d d1 d' :
    d ≡ₚ d1 -> Forall2 (fun kv kw => kv.1 = kw.1 /\ json_equiv kv.2 kw.2) d1 d' ->
    json_equiv (PDict d) (PDict d').
Set Elimination Schemes.

Lemma fst_inj_nodup {V} (d : list (string * V)) :
  NoDup (dict_keys d) -> forall x y, x ∈ d -> y ∈ d -> x.1 = y.1 -> x = y.
Proof.
  intros Hnd [k v] [k' v'] Hx Hy E. simpl in E. subst.
  pose proof (dict_get_elem _ _ _ Hnd Hx) as H1. pose proof (dict_get_elem _ _ _ Hnd Hy) as H2.
  congruence.
Qed.

Lemma json_equiv_canon v w : plain v = true -> json_equiv v w -> canon v = canon w.
Proof.
  revert w. induction v as [|b|z|s|s|l IH|d IH] using pyval_ind; intros w Hp He;
    inversion He as [|? l' Hl|? d1 d' Hperm Hd]; subst; try done; cbn [canon plain] in *.
  - f_equal. apply forallb_Forall_true in Hp. clear He.
    induction Hl as [|x y l l' Hxy Hl IHl]; [done|].
    apply Forall_cons in IH as [IHx IH]. apply Forall_cons in Hp as [Hpx Hp].
    cbn [fmap list_fmap]. f_equal; [by apply IHx|by apply IHl].
  - f_equal. apply andb_true_iff in Hp as [Hnd%bool_decide_eq_true Hp].
    apply forallb_Forall_true in Hp.
    transitivity (sorted_by fst ((fun kv => (kv.1, canon kv.2)) <$> d1)).
    + apply sorted_by_perm_eq; [|by rewrite Hperm]. apply fst_inj_nodup.
      by rewrite dict_keys_fmap.
    + f_equal. rewrite Hperm in IH, Hp. clear -IH Hp Hd.
      induction Hd as [|[k x] [k' y] d1 d' [Hk Hxy] Hd IHd]; [done|].
      apply Forall_cons in IH as [IHx IH]. apply Forall_cons in Hp as [Hpx Hp].
      simpl in Hk, Hxy, IHx, Hpx. subst k'. rewrite !fmap_cons. simpl.
      f_equal; [f_equal; by apply IHx|by apply IHd].
Qed.

Lemma json_equiv_dumpsc v w : plain v = true -> json_equiv v w -> dumpsc v = dumpsc w.
Proof.
  intros Hp He. rewrite <-(dumpsc_canon v), <-(dumpsc_canon w). f_equal.
  by apply json_equiv_canon.
Qed.

(** ** Properties *)

(** Canonical bytes decode back: whenever a float-free value whose objects
    have distinct keys serialises, the strict decoder returns it with every
    object's keys sorted (and nothing else changed). *)
Theorem canonical_roundtrip v b :
  plain v = true -> canonical_json_bytes v = Ok b ->
  strict_json_loads (PayloadText b) None = Ok (canon v).
Proof.
  intros Hp Hb. apply canonical_json_bytes_Ok in Hb as [-> Hs]; [|done].
  unfold strict_json_loads, encode_utf8. rewrite Hs. cbn [raise_if res_bind check_json_bound].
  by rewrite (loads_dumpsc _ _ reject_duplicates_nodup).
Qed.

Example canonical_roundtrip_witness :
  strict_json_loads
    (PayloadText (dumpsc (PDict [("b", PList [PInt (-7); PNone]); ("a", PStr "x\y")]))) None
  = Ok (PDict [("a", PStr "x\y"); ("b", PList [PInt (-7); PNone])]).
Proof.
  exact (canonical_roundtrip (PDict [("b", PList [PInt (-7); PNone]); ("a", PStr "x\y")])
           (dumpsc (PDict [("b", PList [PInt (-7); PNone]); ("a", PStr "x\y")]))
           eq_refl ltac:(vm_compute; reflexivity)).
Defined.

(** The canonical form identifies exactly the values that agree up to the
    order of object members: members in another order give the same bytes and
    digest, and equal bytes come from values with equal sorted forms. *)
Theorem canonical_form_characterised v w :
  plain v = true -> plain w = true ->
  (json_equiv v w ->
     canonical_json_bytes v = canonical_json_bytes w /\ canonical_digest v = canonical_digest w) /\
  (forall b, canonical_json_bytes v = Ok b -> canonical_json_bytes w = Ok b -> canon v = canon w).
Proof.
  intros Hv Hw. split.
  - intros He. pose proof (json_equiv_dumpsc _ _ Hv He) as Hd.
    assert (canonical_json_bytes v = canonical_json_bytes w) as E
      by (by rewrite !canonical_json_bytes_cases, Hd).
    split; [done|]. unfold canonical_digest. by rewrite E.
  - intros b Hb1 Hb2. apply canonical_json_bytes_Ok in Hb1 as [-> _]; [|done].
    apply canonical_json_bytes_Ok in Hb2 as [Hb2 _]; [|done].
    pose proof (loads_dumpsc _ _reject_nonstandard_json_constant reject_duplicates_nodup _ Hv) as H1.
    rewrite Hb2, (loads_dumpsc _ _ reject_duplicates_nodup _ Hw) in H1. congruence.
Qed.

Example canonical_form_witness :
  canonical_json_bytes (PDict [("b", PInt 1); ("a", PInt 2)])
  = canonical_json_bytes (PDict [("a", PInt 2); ("b", PInt 1)]).
Proof.
  refine (proj1 (proj1 (canonical_form_characterised _ _ _ _) _)).
  - reflexivity.
  - reflexivity.
  - eapply je_dict; [apply perm_swap|]. repeat constructor.
Defined.

(** C39. Line framing is total, depends only on the bytes of the stream and not
    on how the socket chunks them, and never takes more than [max_bytes] bytes:
    the result is the text before the first newline among the first
    [max_bytes] bytes, or the framing error when there is none. *)
Theorem read_bounded_line_spec {conn} `{StreamSocket conn} max_bytes chunk_size (c : conn) :
  0 < max_bytes -> 0 < chunk_size ->
  exists c' used,
    read_bounded_line max_bytes chunk_size c
    = Some (match before_newline (str_take (Z.to_nat max_bytes) (stream c)) with
            | Some line => Ok line
            | None => frame_error
            end, c')
    /\ stream c = used +:+ stream c'
    /\ Z.of_nat (String.length used) <= max_bytes.
Proof.
  intros Hm Hc. unfold read_bounded_line.
  replace ((max_bytes <=? 0) || (chunk_size <=? 0)) with false by lia.
  destruct (read_loop_spec (S (Z.to_nat max_bytes)) max_bytes chunk_size EmptyString c)
    as (c' & used & He & Hs & Hl); [simpl; lia..|].
  exists c', used. rewrite He. split_and!; [|done|simpl in Hl; lia].
  unfold framed. simpl. by rewrite Z.sub_0_r.
Qed.

Lemma str_take_length n s : (String.length (str_take n s) <= n)%nat.
Proof. revert s. induction n as [|n IH]; intros [|a s]; simpl; try lia. specialize (IH s). lia. Qed.

Fixpoint str_drop (n : nat) (s : string) : string :=
  match n, s with S n', String _ s' => str_drop n' s' | _, _ => s end.

Lemma str_take_drop n s : str_take n s +:+ str_drop n s = s.
Proof. revert s. induction n as [|n IH]; intros [|a s]; simpl; try done. by rewrite IH. Qed.

(** A socket that delivers its stream at most three bytes at a time. *)
Definition slow_recv (n : Z) (c : string) : string * string :=
  let k := Z.to_nat (Z.min n 3) in (str_take k c, str_drop k c).

Lemma slow_recv_stream n c chunk c' : slow_recv n c = (chunk, c') -> c = chunk +:+ c'.
Proof. unfold slow_recv. intros [= <- <-]. by rewrite str_take_drop. Qed.

Lemma slow_recv_bound n c chunk c' :
  0 < n -> slow_recv n c = (chunk, c') -> Z.of_nat (String.length chunk) <= n.
Proof.
  unfold slow_recv. intros Hn [= <- <-]. pose proof (str_take_length (Z.to_nat (Z.min n 3)) c). lia.
Qed.

Lemma slow_recv_eof n c c' : 0 < n -> slow_recv n c = (EmptyString, c') -> c = EmptyString.
Proof.
  unfold slow_recv. intros Hn. destruct (Z.to_nat (Z.min n 3)) eqn:E; [lia|].
  by destruct c.
Qed.

Definition slow_socket : StreamSocket string := {|
  recv := slow_recv; stream := fun c => c;
  recv_stream := slow_recv_stream; recv_bound := slow_recv_bound; recv_eof := slow_recv_eof
|}.

Example read_bounded_line_witness :
  exists c' used,
    read_bounded_line (H := slow_socket) 16 4 (String "a" (String "b" (String "c" (String "d" (String LF "rest")))))
    = Some (Ok "abcd", c')
    /\ String "a" (String "b" (String "c" (String "d" (String LF "rest")))) = used +:+ c'
    /\ Z.of_nat (String.length used) <= 16.
Proof. exact (read_bounded_line_spec (H := slow_socket) 16 4 _ eq_refl eq_refl). Defined.

(** A run of the receipt state machine: every step accepted by
    [require_receipt_transition]. *)
Inductive receipt_run : string -> list string -> Prop :=
| rr_nil s : receipt_run s []
| rr_step s t l : require_receipt_transition s t = Ok t -> receipt_run t l -> receipt_run s (t :: l).

Lemma require_receipt_transition_Ok s t u :
  require_receipt_transition s t = Ok u <-> u = t /\ (s, t) ∈ _RECEIPT_TRANSITIONS.
Proof.
  unfold require_receipt_transition. case_bool_decide; simpl; [|by split; [|intros []]].
  split; [by intros [= <-]|by intros [-> _]].
Qed.

(** Authority receipts: starting from a fresh receipt, every run stays
    inside the declared states; a receipt becomes terminal only from
    [completing]; and no transition leaves [terminal]. *)
Theorem receipt_lifecycle l :
  receipt_run (receipt_value PREPARING) l ->
  (forall s, s ∈ l -> exists st, s = receipt_value st) /\
  (forall i, l !! S i = Some (receipt_value TERMINAL) -> l !! i = Some (receipt_value COMPLETING)) /\
  (forall i, l !! i = Some (receipt_value TERMINAL) -> length l = S i).
Proof.
  intros Hrun. generalize dependent (receipt_value PREPARING). intros s0 Hrun.
  assert (Hin : forall s t, (s, t) ∈ _RECEIPT_TRANSITIONS ->
            (exists st, t = receipt_value st) /\
            (t = receipt_value TERMINAL -> s = receipt_value COMPLETING) /\
            s <> receipt_value TERMINAL).
  { intros s t ([a b] & [= -> ->] & H)%list_elem_of_fmap.
    repeat (apply elem_of_cons in H as [[= -> ->]|H]; [split_and!; [by eexists|done|done]|]).
    by apply not_elem_of_nil in H. }
  induction Hrun as [|s t l [_ Hst]%require_receipt_transition_Ok Hrun IH].
  - split_and!; [by intros s' H%not_elem_of_nil|done|done].
  - destruct IH as (IH1 & IH2 & IH3). destruct (Hin _ _ Hst) as (Ht & Hc & _).
    split_and!.
    + intros s' [->|H]%elem_of_cons; [done|by apply IH1].
    + intros [|i] Hi; simpl in *; [|by apply IH2].
      destruct Hrun as [|t' u l [_ Htu]%require_receipt_transition_Ok Hrun]; [done|].
      injection Hi as ->. destruct (Hin _ _ Htu) as (_ & Hc' & _). by rewrite Hc'.
    + intros [|i] Hi; simpl in *.
      * injection Hi as ->.
        destruct Hrun as [|t' u l [_ Htu]%require_receipt_transition_Ok Hrun]; [done|].
        by destruct (Hin _ _ Htu) as (_ & _ & Hne).
      * by rewrite (IH3 i).
Qed.

Example receipt_lifecycle_witness :
  length ["prepared"; "claiming"; "claimed"; "completing"; "terminal"] = 5%nat.
Proof.
  refine (proj2 (proj2 (receipt_lifecycle ["prepared"; "claiming"; "claimed"; "completing"; "terminal"] _)) 4%nat eq_refl).
  repeat (apply rr_step; [reflexivity|]). apply rr_nil.
Defined.

(** Resource owners: a transition is accepted exactly when it is one of
    the declared ones and, if it enters [CLOSED], the terminal state is proven
    and nothing is owned any more; from [CLOSED] only [CLOSED] follows. *)
Theorem owner_transition_iff current next proven owned :
  (exists o, require_owner_transition current next proven owned = Ok o) <->
  (current, next) ∈ owner_allowed /\ (next = CLOSED -> proven = true /\ owned = []) /\
  (current = CLOSED -> next = CLOSED).
Proof.
  unfold require_owner_transition. split.
  - intros [o Ho]. inv_res. apply negb_false_iff, bool_decide_eq_true in H. split_and!; [done| |].
    + intros ->. rewrite bool_decide_true in H0 by done. simpl in H0.
      apply orb_false_iff in H0 as [->%negb_false_iff Hown%negb_false_iff].
      by apply bool_decide_eq_true in Hown.
    + intros ->. repeat (apply elem_of_cons in H as [[= ]|H]); [done|].
      by apply not_elem_of_nil in H.
  - intros (Hin & Hc & _). exists next. rewrite bool_decide_true by done. simpl.
    destruct (decide (next = CLOSED)) as [->|Hne].
    + destruct (Hc eq_refl) as [-> ->]. done.
    + by rewrite bool_decide_false.
Qed.

Lemma effect_matches_digests b op r e :
  effect_matches b op r e = Ok true <->
  operation b = op /\ canonical_digest r = Ok (resource_digest b) /\
  canonical_digest e = Ok (effect_digest b).
Proof.
  unfold effect_matches. case_bool_decide; simpl; [|split; [done|by intros (? & _)]].
  destruct (canonical_digest r) as [rd|]; simpl; [|by split; [|intros (_ & ? & _)]].
  case_bool_decide; simpl; [|split; [done|by intros (_ & [= ->] & _)]].
  destruct (canonical_digest e) as [ed|]; simpl; [|by split; [|intros (_ & _ & ?)]].
  case_bool_decide; split; try done; [by subst|by intros (_ & _ & [= ->])].
Qed.

(** An effect binding matches a later request exactly when the operation
    is the bound one and the canonical digests of resource and effect are the
    bound digests; in particular it accepts the request it was created for,
    with the members of resource and effect in any order. *)
Theorem effect_binding_exact op r e b :
  effect_create op r e = Ok b ->
  (forall op' r' e', effect_matches b op' r' e' = Ok true <->
     op' = op /\ canonical_digest r' = canonical_digest r /\
     canonical_digest e' = canonical_digest e) /\
  (forall r' e', plain r = true -> plain e = true -> plain r' = true -> plain e' = true ->
     json_equiv r r' -> json_equiv e e' -> effect_matches b op r' e' = Ok true).
Proof.
  unfold effect_create. intros H. inv_res. split.
  - intros op' r' e'. rewrite effect_matches_digests. simpl.
    rewrite H1, H2. intuition congruence.
  - intros r' e' Hr He Hr' He' Er Ee. rewrite effect_matches_digests. simpl. split; [done|].
    pose proof (json_equiv_dumpsc _ _ Hr Er) as D1. pose proof (json_equiv_dumpsc _ _ He Ee) as D2.
    rewrite <-H1, <-H2. unfold canonical_digest.
    by rewrite !canonical_json_bytes_cases, D1, D2.
Qed.

Example effect_binding_witness :
  effect_matches
    (MkEffectBinding "write" (sha256_hexdigest (dumpsc (PStr "f")))
       (sha256_hexdigest (dumpsc (PDict [("m", PInt 1); ("n", PInt 2)]))))
    "write" (PStr "f") (PDict [("n", PInt 2); ("m", PInt 1)]) = Ok true.
Proof.
  refine (proj2 (effect_binding_exact "write" (PStr "f") (PDict [("m", PInt 1); ("n", PInt 2)]) _ _)
            (PStr "f") (PDict [("n", PInt 2); ("m", PInt 1)])
            eq_refl eq_refl eq_refl eq_refl (je_refl _) _).
  - reflexivity.
  - eapply je_dict; [apply perm_swap|]. repeat constructor.
Defined.
