(* ===== verification/CognitiveState.v ===== *)
(** * Durable cognitive state ([agent/control/state.py], [state_repository.py])

    The transition graph of the agent's engineering phase, and the
    owner-scoped compare-and-set that persists it in the [coding_tasks]
    table. *)
From S2P Require Import Prelude PyStr Json.
Open Scope Z_scope.

(** ** The pure state machine *)
Inductive AgentCognitiveState :=
| UNINITIALIZED | UNDERSTANDING | EXPLORING | PLANNING | IMPLEMENTING | VERIFYING
| DIAGNOSING | RECOVERING | REPLANNING | REVIEWING | COMPLETION_CHECK.
#[export] Instance AgentCognitiveState_eq_dec : EqDecision AgentCognitiveState.
Proof. solve_decision. Defined.

Definition all_cognitive_states : list AgentCognitiveState :=
  [ UNINITIALIZED; UNDERSTANDING; EXPLORING; PLANNING; IMPLEMENTING; VERIFYING;
    DIAGNOSING; RECOVERING; REPLANNING; REVIEWING; COMPLETION_CHECK ].

Definition cognitive_value (s : AgentCognitiveState) : string :=
  match s with
  | UNINITIALIZED => "uninitialized" | UNDERSTANDING => "understanding"
  | EXPLORING => "exploring" | PLANNING => "planning" | IMPLEMENTING => "implementing"
  | VERIFYING => "verifying" | DIAGNOSING => "diagnosing" | RECOVERING => "recovering"
  | REPLANNING => "replanning" | REVIEWING => "reviewing"
  | COMPLETION_CHECK => "completion_check"
  end.

(** [AgentCognitiveState(value)] and [AgentCognitiveState.parse(value)] on a
    string. *)
Definition cognitive_of_value (v : string) : option AgentCognitiveState :=
  list_find (fun s => cognitive_value s = v) all_cognitive_states ≫= fun p => Some p.2.
Definition cognitive_parse (v : string) : res AgentCognitiveState :=
  match cognitive_of_value v with
  | Some s => Ok s
  | None => Raise (Exn ValueError "unknown cognitive state")
  end.

Inductive CognitiveTransitionValidation := ALLOWED | UNCHANGED_TRANSITION | ILLEGAL.

Definition LEGAL_COGNITIVE_TRANSITIONS (s : AgentCognitiveState) : list AgentCognitiveState :=
  match s with
  | UNINITIALIZED => [UNDERSTANDING]
  | UNDERSTANDING => [EXPLORING; PLANNING; IMPLEMENTING]
  | EXPLORING => [PLANNING; IMPLEMENTING; DIAGNOSING]
  | PLANNING => [EXPLORING; IMPLEMENTING; REPLANNING]
  | IMPLEMENTING => [EXPLORING; VERIFYING; DIAGNOSING]
  | VERIFYING => [REVIEWING; DIAGNOSING; RECOVERING]
  | DIAGNOSING => [EXPLORING; RECOVERING; REPLANNING]
  | RECOVERING => [IMPLEMENTING; VERIFYING; REPLANNING]
  | REPLANNING => [EXPLORING; PLANNING]
  | REVIEWING => [COMPLETION_CHECK; DIAGNOSING; REPLANNING]
  | COMPLETION_CHECK => [REPLANNING; REVIEWING]
  end.

Definition validate_transition (current target : AgentCognitiveState)
    : CognitiveTransitionValidation :=
  if bool_decide (current = target) then UNCHANGED_TRANSITION
  else if bool_decide (target ∈ LEGAL_COGNITIVE_TRANSITIONS current) then ALLOWED
  else ILLEGAL.

Definition can_transition (current target : AgentCognitiveState) : bool :=
  match validate_transition current target with ILLEGAL => false | _ => true end.

(** ** The [coding_tasks] table *)

(** The columns of one row that the control plane reads or writes; the table
    is keyed by the primary key [id]. *)
Record TaskRow := MkTaskRow {
  t_principal_id : string;
  t_project_id : string;
  t_status : string;
  t_state_json : string;
  t_updated_at : string;
  t_cognitive_state : string;
  t_control_state_version : Z;
  t_published_plan_revision_id : option string;
  t_last_applied_recovery_decision_id : option string
}.

Definition set_cognitive (r : TaskRow) (state : string) (version : Z) : TaskRow :=
  MkTaskRow (t_principal_id r) (t_project_id r) (t_status r) (t_state_json r) (t_updated_at r)
    state version (t_published_plan_revision_id r) (t_last_applied_recovery_decision_id r).

(** ** Results of the repository *)
Inductive CognitiveTransitionStatus :=
| UPDATED | UNCHANGED | NOT_FOUND | OWNER_MISMATCH | STALE_VERSION | STALE_STATE
| STALE_TASK_STATUS | STALE_WORKSPACE_BINDING | ILLEGAL_TRANSITION | TERMINAL_TASK.
#[export] Instance CognitiveTransitionStatus_eq_dec : EqDecision CognitiveTransitionStatus.
Proof. solve_decision. Defined.

Definition TERMINAL_TASK_STATUSES : list string := ["completed"; "failed"; "cancelled"].

Record CognitiveStateSnapshot := MkSnapshot {
  snap_task_id : string;
  snap_principal_id : string;
  snap_project_id : string;
  snap_cognitive_state : AgentCognitiveState;
  snap_control_state_version : Z;
  snap_task_status : string
}.

Record CognitiveWorkspaceBinding := MkBinding {
  wb_workspace_id : option string;
  wb_base_revision : option string;
  wb_repository_id : option string
}.

(** [CognitiveWorkspaceBinding.__post_init__] *)
Definition make_binding (workspace_id base_revision repository_id : option string)
    : res CognitiveWorkspaceBinding :=
  let bad v := match v with Some s => str_empty s | None => false end in
  raise_if (bad workspace_id) ValueError "workspace_id must be None or a non-empty string" ;;*
  raise_if (bad base_revision) ValueError "base_revision must be None or a non-empty string" ;;*
  raise_if (bad repository_id) ValueError "repository_id must be None or a non-empty string" ;;*
  Ok (MkBinding workspace_id base_revision repository_id).

Record CognitiveTransitionResult := MkTransitionResult {
  tr_status : CognitiveTransitionStatus;
  tr_task_id : string;
  tr_expected_state : AgentCognitiveState;
  tr_expected_version : Z;
  tr_target_state : AgentCognitiveState;
  tr_current_state : option AgentCognitiveState;
  tr_control_state_version : option Z;
  tr_task_status : option string
}.

Definition illegal_transition (task_id : string) (current : AgentCognitiveState) (version : Z)
    (target : AgentCognitiveState) : CognitiveTransitionResult :=
  MkTransitionResult ILLEGAL_TRANSITION task_id current version target
    (Some current) (Some version) None.

Definition _result_from_snapshot (status : CognitiveTransitionStatus) (s : CognitiveStateSnapshot)
    (expected_state : AgentCognitiveState) (expected_version : Z)
    (target : AgentCognitiveState) : CognitiveTransitionResult :=
  MkTransitionResult status (snap_task_id s) expected_state expected_version target
    (Some (snap_cognitive_state s)) (Some (snap_control_state_version s))
    (Some (snap_task_status s)).

Definition _not_found_result (task_id : string) (expected_state : AgentCognitiveState)
    (expected_version : Z) (target : AgentCognitiveState) : CognitiveTransitionResult :=
  MkTransitionResult NOT_FOUND task_id expected_state expected_version target None None None.

Definition _classify_cas_mismatch (s : CognitiveStateSnapshot)
    (expected_state : AgentCognitiveState) (expected_version : Z)
    (target : AgentCognitiveState) (expected_task_status : option string)
    : option CognitiveTransitionResult :=
  let result st := Some (_result_from_snapshot st s expected_state expected_version target) in
  if str_in (snap_task_status s) TERMINAL_TASK_STATUSES then result TERMINAL_TASK
  else if negb (snap_control_state_version s =? expected_version) then result STALE_VERSION
  else if negb (bool_decide (snap_cognitive_state s = expected_state)) then result STALE_STATE
  else match expected_task_status with
       | Some st =>
           if negb (bool_decide (snap_task_status s = st)) then result STALE_TASK_STATUS else None
       | None => None
       end.

(** ** Reading rows *)
Definition integrity {A} (msg : string) : res A := Raise (Exn CognitiveStateIntegrityError msg).

(** [SELECT ... WHERE id = ? AND principal_id = ? AND project_id = ?] *)
Definition _select_owned (tasks : gmap string TaskRow) (task_id principal_id project_id : string)
    : option TaskRow :=
  row ← tasks !! task_id;
  if bool_decide (t_principal_id row = principal_id) && bool_decide (t_project_id row = project_id)
  then Some row else None.

Definition _decode_snapshot (task_id : string) (row : option TaskRow)
    : res (option CognitiveStateSnapshot) :=
  match row with
  | None => Ok None
  | Some r =>
      raise_if (str_empty task_id || str_empty (t_principal_id r))
        CognitiveStateIntegrityError "coding task owner or id is malformed" ;;*
      raise_if (str_empty (t_status r))
        CognitiveStateIntegrityError "coding task project or status is malformed" ;;*
      let* state := try_except (cognitive_parse (t_cognitive_state r)) [ValueError]
        (fun _ => integrity "coding task has an unknown cognitive state") in
      raise_if (t_control_state_version r <? 0)
        CognitiveStateIntegrityError "coding task has an invalid control state version" ;;*
      Ok (Some (MkSnapshot task_id (t_principal_id r) (t_project_id r) state
                  (t_control_state_version r) (t_status r)))
  end.

(** One field of the workspace projection in [state_json]'s metadata:
    [metadata.get(key)], absent or [None] or a non-empty string. *)
Definition projection_field (metadata : list (string * pyval)) (key label : string)
    : res (option string) :=
  match dict_get key metadata with
  | None | Some PNone => Ok None
  | Some (PStr s) =>
      raise_if (str_empty s) CognitiveStateIntegrityError
        ("coding task " +:+ label +:+ " projection is malformed") ;;*
      Ok (Some s)
  | Some _ => integrity ("coding task " +:+ label +:+ " projection is malformed")
  end.

Definition _workspace_binding_mismatch (row : option TaskRow)
    (expected : option CognitiveWorkspaceBinding) : res bool :=
  match expected, row with
  | None, _ => Ok false
  | Some _, None => Ok true
  | Some e, Some r =>
      let* state := try_except (loads default_object_hook default_constant_hook (t_state_json r))
        [KeyError; TypeError; ValueError]
        (fun _ => integrity "coding task workspace projection is malformed") in
      match state with
      | PDict d =>
          match default (PDict []) (dict_get "metadata" d) with
          | PDict metadata =>
              let* workspace_id := projection_field metadata "workspace_id" "workspace_id" in
              let* base_revision := projection_field metadata "base_sha" "base_revision" in
              let* repository_id := projection_field metadata "repository_id" "repository_id" in
              Ok (negb (bool_decide (workspace_id = wb_workspace_id e))
                  || negb (bool_decide (base_revision = wb_base_revision e))
                  || negb (bool_decide (repository_id = wb_repository_id e)))
          | _ => integrity "coding task metadata projection is malformed"
          end
      | _ => integrity "coding task state_json root is malformed"
      end
  end.

Definition _validate_owner_inputs (task_id principal_id project_id : string) : res unit :=
  raise_if (str_empty task_id) ValueError "task_id must be a non-empty string" ;;*
  raise_if (str_empty principal_id) ValueError "principal_id must be a non-empty string".

Definition get_snapshot (tasks : gmap string TaskRow) (task_id principal_id project_id : string)
    : res (option CognitiveStateSnapshot) :=
  _validate_owner_inputs task_id principal_id project_id ;;*
  _decode_snapshot task_id (_select_owned tasks task_id principal_id project_id).

(** ** The compare-and-set *)

(** The arguments of [compare_and_transition]. *)
Record CasRequest := MkCasRequest {
  rq_task_id : string;
  rq_principal_id : string;
  rq_project_id : string;
  rq_expected_state : AgentCognitiveState;
  rq_expected_version : Z;
  rq_target_state : AgentCognitiveState;
  rq_expected_task_status : option string;
  rq_binding : option CognitiveWorkspaceBinding
}.

(** The [WHERE] clause of the [UPDATE]. *)
Definition cas_predicate (rq : CasRequest) (r : TaskRow) : bool :=
  bool_decide (t_principal_id r = rq_principal_id rq)
  && bool_decide (t_project_id r = rq_project_id rq)
  && bool_decide (t_cognitive_state r = cognitive_value (rq_expected_state rq))
  && (t_control_state_version r =? rq_expected_version rq)
  && match rq_expected_task_status rq with
     | None => true
     | Some st => bool_decide (t_status r = st)
     end
  && negb (str_in (t_status r) TERMINAL_TASK_STATUSES).

(** [UPDATE coding_tasks SET cognitive_state = ?, control_state_version =
    control_state_version + 1 WHERE ...]: the row count and the new table. *)
Definition cas_update (rq : CasRequest) (tasks : gmap string TaskRow)
    : Z * gmap string TaskRow :=
  match tasks !! rq_task_id rq with
  | Some r =>
      if cas_predicate rq r then
        (1, <[rq_task_id rq :=
               set_cognitive r (cognitive_value (rq_target_state rq)) (t_control_state_version r + 1)]>
              tasks)
      else (0, tasks)
  | None => (0, tasks)
  end.

Definition select_rq (rq : CasRequest) (tasks : gmap string TaskRow) : option TaskRow :=
  _select_owned tasks (rq_task_id rq) (rq_principal_id rq) (rq_project_id rq).
Definition result_rq (rq : CasRequest) (status : CognitiveTransitionStatus)
    (s : CognitiveStateSnapshot) : CognitiveTransitionResult :=
  _result_from_snapshot status s (rq_expected_state rq) (rq_expected_version rq) (rq_target_state rq).
Definition not_found_rq (rq : CasRequest) : CognitiveTransitionResult :=
  _not_found_result (rq_task_id rq) (rq_expected_state rq) (rq_expected_version rq) (rq_target_state rq).
Definition classify_rq (rq : CasRequest) (s : CognitiveStateSnapshot) : option CognitiveTransitionResult :=
  _classify_cas_mismatch s (rq_expected_state rq) (rq_expected_version rq) (rq_target_state rq)
    (rq_expected_task_status rq).

(** The observation made before anything is written (the self-transition
    branch, and the workspace-fence branch): a result to return, or the
    snapshot to go on with. *)
Definition observe (rq : CasRequest) (tasks : gmap string TaskRow)
    : res (CognitiveTransitionResult + CognitiveStateSnapshot) :=
  let row := select_rq rq tasks in
  let* snapshot := _decode_snapshot (rq_task_id rq) row in
  match snapshot with
  | None => Ok (inl (not_found_rq rq))
  | Some s =>
      match classify_rq rq s with
      | Some mismatch => Ok (inl mismatch)
      | None =>
          let* stale := _workspace_binding_mismatch row (rq_binding rq) in
          if (stale : bool) then Ok (inl (result_rq rq STALE_WORKSPACE_BINDING s)) else Ok (inr s)
      end
  end.

(** The write and what follows it: re-read after a successful update, or
    classify why no row matched. *)
Definition cas_write (rq : CasRequest) (tasks : gmap string TaskRow)
    : res CognitiveTransitionResult * gmap string TaskRow :=
  let '(rowcount, tasks') := cas_update rq tasks in
  let reread :=
    let* snapshot := _decode_snapshot (rq_task_id rq) (select_rq rq tasks') in
    if rowcount =? 1 then
      match snapshot with
      | None => integrity "cognitive state row disappeared after a successful CAS"
      | Some s => Ok (result_rq rq UPDATED s)
      end
    else
      match snapshot with
      | None => Ok (not_found_rq rq)
      | Some s =>
          match classify_rq rq s with
          | None => integrity "cognitive state CAS affected zero rows despite matching predicate"
          | Some mismatch => Ok mismatch
          end
      end in
  (reread, tasks').

Definition cas_body (rq : CasRequest) (tasks : gmap string TaskRow)
    : res CognitiveTransitionResult * gmap string TaskRow :=
  if bool_decide (rq_expected_state rq = rq_target_state rq) then
    (let* o := observe rq tasks in
     match o with inl r => Ok r | inr s => Ok (result_rq rq UNCHANGED s) end, tasks)
  else
    match rq_binding rq with
    | Some _ =>
        match observe rq tasks with
        | Raise e => (Raise e, tasks)
        | Ok (inl r) => (Ok r, tasks)
        | Ok (inr _) => cas_write rq tasks
        end
    | None => cas_write rq tasks
    end.

Definition validate_request (rq : CasRequest) : res unit :=
  _validate_owner_inputs (rq_task_id rq) (rq_principal_id rq) (rq_project_id rq) ;;*
  raise_if (rq_expected_version rq <? 0) ValueError
    "expected_version must be a non-negative integer" ;;*
  raise_if (match rq_expected_task_status rq with Some st => str_empty st | None => false end)
    ValueError "expected_task_status must be a non-empty string".

Definition compare_and_transition (rq : CasRequest) (tasks : gmap string TaskRow)
    : res CognitiveTransitionResult * gmap string TaskRow :=
  match validate_request rq with
  | Raise e => (Raise e, tasks)
  | Ok _ =>
      match validate_transition (rq_expected_state rq) (rq_target_state rq) with
      | ILLEGAL =>
          (Ok (illegal_transition (rq_task_id rq) (rq_expected_state rq) (rq_expected_version rq)
                 (rq_target_state rq)), tasks)
      | _ => transaction (cas_body rq) tasks
      end
  end.

(** ** Lemmas on the graph *)
Lemma cognitive_of_to s : cognitive_of_value (cognitive_value s) = Some s.
Proof. by destruct s. Qed.

Lemma cognitive_of_value_Some v s : cognitive_of_value v = Some s <-> v = cognitive_value s.
Proof.
  split; [|intros ->; apply cognitive_of_to].
  unfold cognitive_of_value. destruct (list_find _ _) as [[i s']|] eqn:E; [|done].
  apply list_find_Some in E as (_ & Hv & _). by intros [= ->].
Qed.

Lemma cognitive_value_inj s t : cognitive_value s = cognitive_value t -> s = t.
Proof. intros H. apply (f_equal cognitive_of_value) in H. rewrite !cognitive_of_to in H. congruence. Qed.

Lemma validate_transition_allowed s t :
  validate_transition s t = ALLOWED <-> s <> t /\ t ∈ LEGAL_COGNITIVE_TRANSITIONS s.
Proof.
  unfold validate_transition. repeat case_bool_decide; split; try done; by intros [].
Qed.

(** A path of legal transitions. *)
Inductive legal_path : AgentCognitiveState -> list AgentCognitiveState -> Prop :=
| lp_nil s : legal_path s []
| lp_step s t l : validate_transition s t = ALLOWED -> legal_path t l -> legal_path s (t :: l).

Lemma legal_path_app s l t k :
  legal_path s l -> last l = Some t -> legal_path t k -> legal_path s (l ++ k).
Proof.
  induction 1 as [|s u l Hsu Hl IH]; [done|]. intros Hlast Hk. simpl.
  constructor; [done|]. destruct l as [|v l]; simpl in *; [by injection Hlast as ->|]. by apply IH.
Qed.

(** ** Lemmas on the compare-and-set *)
Definition is_updated (o : res CognitiveTransitionResult) : bool :=
  match o with Ok r => bool_decide (tr_status r = UPDATED) | Raise _ => false end.

(** When the write is allowed to happen. *)
Definition cas_enabled (rq : CasRequest) (row : TaskRow) : Prop :=
  cas_predicate rq row = true /\
  validate_transition (rq_expected_state rq) (rq_target_state rq) = ALLOWED /\
  _workspace_binding_mismatch (Some row) (rq_binding rq) = Ok false /\
  str_empty (t_status row) = false.

Definition cas_effect (rq : CasRequest) (row : TaskRow) : TaskRow :=
  set_cognitive row (cognitive_value (rq_target_state rq)) (t_control_state_version row + 1).

Lemma classify_not_updated rq s r : classify_rq rq s = Some r -> tr_status r <> UPDATED.
Proof.
  unfold classify_rq, _classify_cas_mismatch. repeat case_match; intros [= <-]; done.
Qed.

Lemma observe_not_updated rq tasks r : observe rq tasks = Ok (inl r) -> tr_status r <> UPDATED.
Proof.
  unfold observe. intros H. apply res_bind_Ok in H as (snap & _ & H).
  destruct snap as [s|]; [|by injection H as <-].
  destruct (classify_rq rq s) eqn:E; [injection H as <-; by apply classify_not_updated in E|].
  apply res_bind_Ok in H as ([] & _ & H); [by injection H as <-|done].
Qed.

(** The fence branch goes on only for an owned row whose workspace projection
    matches. *)
Lemma observe_continue rq tasks s : observe rq tasks = Ok (inr s) ->
  exists row, tasks !! rq_task_id rq = Some row /\
    _workspace_binding_mismatch (Some row) (rq_binding rq) = Ok false.
Proof.
  unfold observe. intros H. apply res_bind_Ok in H as (snap & Hs & H).
  destruct snap as [s'|]; [|done].
  destruct (classify_rq rq s'); [done|].
  apply res_bind_Ok in H as ([] & Hb & H); [done|].
  unfold select_rq in *. destruct (_select_owned _ _ _ _) as [row|] eqn:E; [|done].
  exists row. split; [|done]. unfold _select_owned in E.
  destruct (tasks !! rq_task_id rq) as [row'|] eqn:Et; simpl in E; [|done].
  by destruct (bool_decide _ && bool_decide _); simplify_eq.
Qed.

Lemma cas_update_spec rq tasks :
  (exists row, tasks !! rq_task_id rq = Some row /\ cas_predicate rq row = true /\
     cas_update rq tasks = (1, <[rq_task_id rq := cas_effect rq row]> tasks)) \/
  cas_update rq tasks = (0, tasks).
Proof.
  unfold cas_update. destruct (tasks !! rq_task_id rq) as [row|]; [|by right].
  destruct (cas_predicate rq row) eqn:E; [left|by right]. by exists row.
Qed.

Lemma decode_has_status id r s :
  _decode_snapshot id (Some r) = Ok (Some s) -> str_empty (t_status r) = false.
Proof. unfold _decode_snapshot. intros H. by inv_res. Qed.

Lemma select_rq_row rq tasks row r :
  tasks !! rq_task_id rq = Some row -> select_rq rq tasks = Some r -> r = row.
Proof.
  intros Hrow. unfold select_rq, _select_owned. rewrite Hrow. simpl.
  destruct (_ && _); naive_solver.
Qed.

Lemma cas_write_cases rq tasks o tasks' : cas_write rq tasks = (o, tasks') ->
  (is_updated o = true -> exists row, tasks !! rq_task_id rq = Some row /\
     (cas_predicate rq row = true /\ str_empty (t_status row) = false) /\
     tasks' = <[rq_task_id rq := cas_effect rq row]> tasks) /\
  (is_updated o = false -> tasks' = tasks \/ exists e, o = Raise e).
Proof.
  unfold cas_write. destruct (cas_update_spec rq tasks) as [(row & Hrow & Hp & ->)| ->].
  - intros [= <- <-]. set (tasks1 := <[_ := _]> tasks). split.
    + intros Hu. exists row. split_and!; [done..| |done].
      destruct (select_rq rq tasks1) as [r|] eqn:Es; [|done].
      apply (select_rq_row _ _ (cas_effect rq row)) in Es as ->; [|apply lookup_insert_eq].
      destruct (_decode_snapshot _ _) as [[s|]|e] eqn:Ed; [|done..].
      by apply decode_has_status in Ed.
    + destruct (_decode_snapshot _ _) as [[s|]|e]; simpl; intros Hu; [done|..]; right; eauto.
  - intros [= <- <-]. split; [|by left].
    destruct (_decode_snapshot _ _) as [[s|]|e]; simpl; [|done..].
    destruct (classify_rq rq s) eqn:E; simpl; [|done].
    intros Hu%bool_decide_eq_true. by apply classify_not_updated in E.
Qed.

Lemma validate_not_illegal_allowed s t :
  validate_transition s t <> ILLEGAL -> s <> t -> validate_transition s t = ALLOWED.
Proof. unfold validate_transition. repeat case_bool_decide; done. Qed.

Lemma cas_body_cases rq tasks o tasks' :
  validate_transition (rq_expected_state rq) (rq_target_state rq) <> ILLEGAL ->
  cas_body rq tasks = (o, tasks') ->
  (is_updated o = true -> exists row, tasks !! rq_task_id rq = Some row /\
     cas_enabled rq row /\ tasks' = <[rq_task_id rq := cas_effect rq row]> tasks) /\
  (is_updated o = false -> tasks' = tasks \/ exists e, o = Raise e).
Proof.
  intros Hv. unfold cas_body. case_bool_decide as Heq.
  - intros [= <- <-]. split; [|by left].
    destruct (observe rq tasks) as [[r|s]|e] eqn:E; simpl; [|done|done].
    intros Hu%bool_decide_eq_true. by apply observe_not_updated in E.
  - pose proof (validate_not_illegal_allowed _ _ Hv Heq) as Ha.
    destruct (rq_binding rq) as [b|] eqn:Eb.
    + destruct (observe rq tasks) as [[r|s]|e] eqn:E.
      * intros [= <- <-]. split; [|by left]. simpl. intros Hu%bool_decide_eq_true.
        by apply observe_not_updated in E.
      * intros Hw%cas_write_cases. destruct Hw as [H1 H2]. split; [|done].
        intros Hu. destruct (H1 Hu) as (row & Hrow & [Hp Hst] & ->). exists row.
        apply observe_continue in E as (row' & Hrow' & Hb). simplify_eq. done.
      * intros [= <- <-]. split; [done|by left].
    + intros Hw%cas_write_cases. destruct Hw as [H1 H2]. split; [|done].
      intros Hu. destruct (H1 Hu) as (row & Hrow & [Hp Hst] & ->). exists row.
      split_and!; [done| |done]. split_and!; [done|done| |done]. by rewrite Eb.
Qed.

Lemma compare_and_transition_cases rq tasks o tasks' :
  compare_and_transition rq tasks = (o, tasks') ->
  (is_updated o = true -> exists row, tasks !! rq_task_id rq = Some row /\
     cas_enabled rq row /\ tasks' = <[rq_task_id rq := cas_effect rq row]> tasks) /\
  (is_updated o = false -> tasks' = tasks).
Proof.
  unfold compare_and_transition. destruct (validate_request rq) as [u|e]; [|by intros [= <- <-]].
  destruct (validate_transition _ _) eqn:Ev; [| |by intros [= <- <-]];
    (unfold transaction; destruct (cas_body rq tasks) as [[r|e] t'] eqn:Eb;
     [|by intros [= <- <-]];
     intros [= <- <-]; apply cas_body_cases in Eb as [H1 H2]; [|by rewrite Ev];
     split; [exact H1|]; intros Hu; destruct (H2 Hu) as [?|[e ?]]; done).
Qed.

Lemma decode_snapshot_row id r s :
  str_empty id = false -> str_empty (t_principal_id r) = false ->
  str_empty (t_status r) = false -> t_cognitive_state r = cognitive_value s ->
  0 <= t_control_state_version r ->
  _decode_snapshot id (Some r)
  = Ok (Some (MkSnapshot id (t_principal_id r) (t_project_id r) s (t_control_state_version r) (t_status r))).
Proof.
  intros H1 H2 H3 H4 H5. unfold _decode_snapshot. rewrite H1, H2, H3, H4. simpl.
  unfold cognitive_parse. rewrite cognitive_of_to. simpl.
  by replace (t_control_state_version r <? 0) with false by lia.
Qed.

Lemma cas_predicate_true rq r : cas_predicate rq r = true ->
  t_principal_id r = rq_principal_id rq /\ t_project_id r = rq_project_id rq /\
  t_cognitive_state r = cognitive_value (rq_expected_state rq) /\
  t_control_state_version r = rq_expected_version rq /\
  (forall st, rq_expected_task_status rq = Some st -> t_status r = st) /\
  t_status r ∉ TERMINAL_TASK_STATUSES.
Proof.
  unfold cas_predicate. rewrite !andb_true_iff, negb_true_iff, str_in_false.
  rewrite !bool_decide_eq_true, Z.eqb_eq. intros (((((?&?)&?)&?)&Hs)&?).
  split_and!; try done. intros st E. rewrite E in Hs. by apply bool_decide_eq_true in Hs.
Qed.

Lemma cas_predicate_intro rq r :
  t_principal_id r = rq_principal_id rq -> t_project_id r = rq_project_id rq ->
  t_cognitive_state r = cognitive_value (rq_expected_state rq) ->
  t_control_state_version r = rq_expected_version rq ->
  (forall st, rq_expected_task_status rq = Some st -> t_status r = st) ->
  t_status r ∉ TERMINAL_TASK_STATUSES ->
  cas_predicate rq r = true.
Proof.
  intros Hp Hj Hc Hv Hs Ht. unfold cas_predicate.
  rewrite !bool_decide_true, Hv, Z.eqb_refl by done. rewrite (proj2 (str_in_false _ _) Ht). simpl.
  destruct (rq_expected_task_status rq) as [st|]; [|done]. by rewrite (Hs st eq_refl), bool_decide_true.
Qed.

Lemma classify_enabled rq r :
  cas_predicate rq r = true ->
  classify_rq rq (MkSnapshot (rq_task_id rq) (t_principal_id r) (t_project_id r)
    (rq_expected_state rq) (t_control_state_version r) (t_status r)) = None.
Proof.
  intros (_ & _ & _ & Hv & Hs & Ht)%cas_predicate_true.
  unfold classify_rq, _classify_cas_mismatch; simpl.
  rewrite (proj2 (str_in_false _ _) Ht), Hv, Z.eqb_refl, bool_decide_true by done. simpl.
  destruct (rq_expected_task_status rq) as [st|]; [|done].
  by rewrite (Hs st eq_refl), bool_decide_true.
Qed.

Lemma select_rq_enabled rq tasks r :
  tasks !! rq_task_id rq = Some r -> t_principal_id r = rq_principal_id rq ->
  t_project_id r = rq_project_id rq -> select_rq rq tasks = Some r.
Proof.
  intros Hr Hp Hj. unfold select_rq, _select_owned. rewrite Hr. simpl.
  by rewrite !bool_decide_true.
Qed.

Lemma cas_write_enabled rq tasks r :
  validate_request rq = Ok tt -> tasks !! rq_task_id rq = Some r -> cas_predicate rq r = true ->
  str_empty (t_status r) = false ->
  exists o, cas_write rq tasks = (Ok o, <[rq_task_id rq := cas_effect rq r]> tasks)
    /\ tr_status o = UPDATED
    /\ tr_current_state o = Some (rq_target_state rq)
    /\ tr_control_state_version o = Some (rq_expected_version rq + 1).
Proof.
  intros Hval Hr Hpred Hst.
  destruct (cas_predicate_true _ _ Hpred) as (Hp & Hj & _ & Hv & _).
  unfold validate_request, _validate_owner_inputs in Hval. inv_res.
  unfold cas_write, cas_update. rewrite Hr, Hpred.
  rewrite (select_rq_enabled _ _ (cas_effect rq r)) by (done || apply lookup_insert_eq).
  rewrite (decode_snapshot_row _ _ (rq_target_state rq)); simpl;
    [|congruence|congruence|done|done|lia].
  eexists. split; [reflexivity|]. simpl. by rewrite Hv.
Qed.

(** ** What a committed transition requires, field by field *)

(** What [metadata.get(key)] must be for the fence to read [v]. *)
Definition metadata_names (metadata : list (string * pyval)) (key : string)
    (v : option string) : Prop :=
  match v with
  | Some s => s <> "" /\ dict_get key metadata = Some (PStr s)
  | None => dict_get key metadata = None \/ dict_get key metadata = Some PNone
  end.

(** The stored task state names the workspace of the fence. *)
Definition workspace_recorded (state_json : string) (b : CognitiveWorkspaceBinding) : Prop :=
  exists d metadata,
    loads default_object_hook default_constant_hook state_json = Ok (PDict d) /\
    (dict_get "metadata" d = Some (PDict metadata) \/
     dict_get "metadata" d = None /\ metadata = []) /\
    metadata_names metadata "workspace_id" (wb_workspace_id b) /\
    metadata_names metadata "base_sha" (wb_base_revision b) /\
    metadata_names metadata "repository_id" (wb_repository_id b).

Record well_formed_request (rq : CasRequest) : Prop := {
  wf_task_id : rq_task_id rq <> "";
  wf_principal_id : rq_principal_id rq <> "";
  wf_version : 0 <= rq_expected_version rq;
}.

Record transition_permitted (rq : CasRequest) (row : TaskRow) : Prop := {
  tp_principal : t_principal_id row = rq_principal_id rq;
  tp_project : t_project_id row = rq_project_id rq;
  tp_state : t_cognitive_state row = cognitive_value (rq_expected_state rq);
  tp_version : t_control_state_version row = rq_expected_version rq;
  tp_status : forall st, rq_expected_task_status rq = Some st -> t_status row = st;
  tp_has_status : t_status row <> "";
  tp_not_completed : t_status row <> "completed";
  tp_not_failed : t_status row <> "failed";
  tp_not_cancelled : t_status row <> "cancelled";
  tp_moves : rq_target_state rq <> rq_expected_state rq;
  tp_legal : rq_target_state rq ∈ LEGAL_COGNITIVE_TRANSITIONS (rq_expected_state rq);
  tp_workspace : forall b, rq_binding rq = Some b -> workspace_recorded (t_state_json row) b;
}.

Lemma try_integrity {A} (m : res A) classes msg a :
  try_except m classes (fun _ => integrity msg) = Ok a <-> m = Ok a.
Proof. destruct m; simpl; [done|]. destruct (existsb _ _); naive_solver. Qed.

Lemma projection_field_Ok metadata key label v :
  projection_field metadata key label = Ok v <-> metadata_names metadata key v.
Proof.
  unfold projection_field, metadata_names.
  destruct (dict_get key metadata) as [[| | | |s| |]|]; try (destruct v; naive_solver).
  destruct (str_empty s) eqn:E; simpl.
  - destruct s; [|done]. destruct v; naive_solver.
  - apply str_empty_false in E. destruct v; naive_solver.
Qed.

Lemma fences_agree (a b c a' b' c' : option string) :
  negb (bool_decide (a = a')) || negb (bool_decide (b = b')) || negb (bool_decide (c = c')) = false
  <-> a = a' /\ b = b' /\ c = c'.
Proof. rewrite !orb_false_iff, !negb_false_iff, !bool_decide_eq_true. tauto. Qed.

Lemma workspace_fence_holds row rq :
  _workspace_binding_mismatch (Some row) (rq_binding rq) = Ok false <->
  forall b, rq_binding rq = Some b -> workspace_recorded (t_state_json row) b.
Proof.
  unfold _workspace_binding_mismatch. destruct (rq_binding rq) as [b|]; [|naive_solver].
  transitivity (workspace_recorded (t_state_json row) b); [|naive_solver].
  unfold workspace_recorded. split.
  - intros H. apply res_bind_Ok in H as (st & Hl%try_integrity & H).
    destruct st as [| | | | | |d]; try done.
    destruct (default (PDict []) (dict_get "metadata" d)) as [| | | | | |metadata] eqn:Em; try done.
    apply res_bind_Ok in H as (w & Hw & H). apply res_bind_Ok in H as (r & Hr & H).
    apply res_bind_Ok in H as (i & Hi & H).
    injection H as (<- & <- & <-)%fences_agree.
    exists d, metadata. split_and!; [done| |by eapply projection_field_Ok..].
    destruct (dict_get "metadata" d); simpl in Em; [left; congruence|right; naive_solver].
  - intros (d & metadata & Hl & Hm & Hw & Hr & Hi).
    rewrite Hl. simpl. replace (default (PDict []) (dict_get "metadata" d)) with (PDict metadata)
      by (by destruct Hm as [-> |[-> ->]]).
    rewrite (proj2 (projection_field_Ok _ _ _ _) Hw), (proj2 (projection_field_Ok _ _ _ _) Hr),
      (proj2 (projection_field_Ok _ _ _ _) Hi). simpl. f_equal. by apply fences_agree.
Qed.

Lemma permitted_enabled rq row : transition_permitted rq row <-> cas_enabled rq row.
Proof.
  unfold cas_enabled. rewrite workspace_fence_holds, validate_transition_allowed, str_empty_false. split.
  - intros []. split_and!; try done. apply cas_predicate_intro; try done.
    unfold TERMINAL_TASK_STATUSES. set_solver.
  - intros (Hp & (Hne & Hl) & Hb & Hst).
    destruct (cas_predicate_true _ _ Hp) as (? & ? & ? & ? & ? & Ht).
    unfold TERMINAL_TASK_STATUSES in Ht. rewrite !not_elem_of_cons in Ht.
    destruct Ht as (? & ? & ? & _). by constructor.
Qed.

Lemma validate_request_Ok rq : validate_request rq = Ok tt -> well_formed_request rq.
Proof.
  unfold validate_request, _validate_owner_inputs. intros H. inv_res.
  constructor; [by apply str_empty_false..|lia].
Qed.

Lemma well_formed_validates rq row :
  well_formed_request rq -> transition_permitted rq row -> validate_request rq = Ok tt.
Proof.
  intros [Ht%str_empty_false Hp%str_empty_false Hv] H. unfold validate_request, _validate_owner_inputs.
  rewrite Ht, Hp. simpl. replace (rq_expected_version rq <? 0) with false by lia. simpl.
  destruct (rq_expected_task_status rq) as [st|] eqn:E; [|done].
  pose proof (tp_has_status _ _ H) as Hne. rewrite (tp_status _ _ H st E) in Hne.
  by rewrite (proj2 (str_empty_false st) Hne).
Qed.

(** A well-formed request whose row
    satisfies every fence is always committed, and the answer carries the new
    state and version. *)
Lemma transition_commits rq tasks row :
  validate_request rq = Ok tt -> tasks !! rq_task_id rq = Some row -> cas_enabled rq row ->
  exists r, compare_and_transition rq tasks = (Ok r, <[rq_task_id rq := cas_effect rq row]> tasks)
    /\ tr_status r = UPDATED
    /\ tr_current_state r = Some (rq_target_state rq)
    /\ tr_control_state_version r = Some (rq_expected_version rq + 1).
Proof.
  intros Hval Hrow (Hpred & Hall & Hbind & Hst).
  destruct (cas_write_enabled _ _ _ Hval Hrow Hpred Hst) as (o & Hw & Ho).
  exists o. split; [|done]. unfold compare_and_transition. rewrite Hval, Hall.
  unfold transaction, cas_body.
  rewrite bool_decide_false by (by apply validate_transition_allowed in Hall as [? _]).
  destruct (rq_binding rq) as [b|] eqn:Eb; [|by rewrite Hw].
  assert (observe rq tasks = Ok (inr (MkSnapshot (rq_task_id rq) (t_principal_id row)
    (t_project_id row) (rq_expected_state rq) (t_control_state_version row) (t_status row))))
    as ->; [|by rewrite Hw].
  destruct (cas_predicate_true _ _ Hpred) as (Hp & Hj & Hs & Hv & _).
  pose proof Hval as Hval'. unfold validate_request, _validate_owner_inputs in Hval'. inv_res.
  unfold observe. rewrite (select_rq_enabled _ _ row) by done.
  rewrite (decode_snapshot_row _ _ (rq_expected_state rq)) by (done || congruence || lia).
  cbn [res_bind]. rewrite classify_enabled by done. rewrite Eb, Hbind. done.
Qed.

Lemma updated_permitted rq tasks o tasks' :
  compare_and_transition rq tasks = (o, tasks') -> is_updated o = true ->
  well_formed_request rq /\
  exists row, tasks !! rq_task_id rq = Some row /\ transition_permitted rq row.
Proof.
  intros H Hu. destruct (compare_and_transition_cases _ _ _ _ H) as [H1 _].
  destruct (H1 Hu) as (row & Hrow & Hen & _). split; [|exists row; by rewrite permitted_enabled].
  apply validate_request_Ok. unfold compare_and_transition in H.
  destruct (validate_request rq) as [[]|e]; [done|]. by injection H as <- <-.
Qed.

Lemma permitted_updated rq tasks row o tasks' :
  well_formed_request rq -> tasks !! rq_task_id rq = Some row -> transition_permitted rq row ->
  compare_and_transition rq tasks = (o, tasks') -> is_updated o = true.
Proof.
  intros Hwf Hrow Hok H. pose proof (well_formed_validates _ _ Hwf Hok) as Hval.
  apply permitted_enabled in Hok.
  destruct (transition_commits _ _ _ Hval Hrow Hok) as (r & Hc & Hs & _).
  rewrite Hc in H. injection H as <- <-. by apply bool_decide_eq_true.
Qed.

(** ** Properties *)

Lemma legal_path_phases s l i : legal_path s l -> l !! i = Some COMPLETION_CHECK ->
  (s ∉ [VERIFYING; REVIEWING; COMPLETION_CHECK] ->
     exists j k, (j < k < i)%nat /\ l !! j = Some VERIFYING /\ l !! k = Some REVIEWING) /\
  (s = VERIFYING -> exists k, (k < i)%nat /\ l !! k = Some REVIEWING).
Proof.
  intros Hp. revert i. induction Hp as [|s t l Hst Hp IH]; intros i Hi; [done|].
  apply validate_transition_allowed in Hst as [_ Hst].
  destruct i as [|i]; simpl in Hi.
  { injection Hi as ->. split; intros Hs; destruct s; simpl in Hst; set_solver. }
  destruct (IH i Hi) as [IH1 IH2]. split.
  - intros Hs. destruct (decide (t = VERIFYING)) as [->|Hne].
    + destruct (IH2 eq_refl) as (k & Hk & Hr). exists 0%nat, (S k). split_and!; [lia..|done|done].
    + destruct IH1 as (j & k & Hjk & Hj & Hk).
      { intros Ht. destruct s; simpl in Hst; set_solver. }
      exists (S j), (S k). split_and!; [lia..|done|done].
  - intros ->. destruct (decide (t = REVIEWING)) as [->|Hne].
    + exists 0%nat. split; [lia|done].
    + destruct IH1 as (j & k & Hjk & Hj & Hk); [simpl in Hst; set_solver|].
      exists (S k). split; [lia|done].
Qed.

Definition path_to_completion (s : AgentCognitiveState) : list AgentCognitiveState :=
  match s with
  | UNINITIALIZED => [UNDERSTANDING; IMPLEMENTING; VERIFYING; REVIEWING; COMPLETION_CHECK]
  | UNDERSTANDING | EXPLORING | PLANNING => [IMPLEMENTING; VERIFYING; REVIEWING; COMPLETION_CHECK]
  | IMPLEMENTING | RECOVERING => [VERIFYING; REVIEWING; COMPLETION_CHECK]
  | VERIFYING => [REVIEWING; COMPLETION_CHECK]
  | DIAGNOSING => [RECOVERING; VERIFYING; REVIEWING; COMPLETION_CHECK]
  | REPLANNING => [PLANNING; IMPLEMENTING; VERIFYING; REVIEWING; COMPLETION_CHECK]
  | REVIEWING => [COMPLETION_CHECK]
  | COMPLETION_CHECK => [REVIEWING; COMPLETION_CHECK]
  end.

(** Shape of the cognitive graph: a task that started [UNINITIALIZED] can
    only reach [COMPLETION_CHECK] after a [VERIFYING] phase followed by a
    [REVIEWING] phase, it never becomes [UNINITIALIZED] again, and no phase is
    a dead end: from each one some legal path leads to [COMPLETION_CHECK]. *)
Theorem cognitive_graph_shape :
  (forall l i, legal_path UNINITIALIZED l -> l !! i = Some COMPLETION_CHECK ->
     exists j k, (j < k < i)%nat /\ l !! j = Some VERIFYING /\ l !! k = Some REVIEWING) /\
  (forall s l, legal_path s l -> UNINITIALIZED ∉ l) /\
  (forall s, exists l, legal_path s l /\ last l = Some COMPLETION_CHECK).
Proof.
  split_and!.
  - intros l i Hp Hi. apply (legal_path_phases _ _ _ Hp Hi). set_solver.
  - intros s l Hp. induction Hp as [|s t l Hst Hp IH]; [set_solver|].
    apply validate_transition_allowed in Hst as [_ Hst].
    rewrite not_elem_of_cons. split; [|done]. intros <-. destruct s; simpl in Hst; set_solver.
  - intros s. exists (path_to_completion s).
    destruct s; simpl; split; try done; repeat (constructor; [reflexivity|]); constructor.
Qed.

(** C3. The compare-and-set commits a request exactly when the request is
    well formed and its row permits it: the row belongs to the caller and the
    project, is in the expected state at the expected version, has the fenced
    lifecycle status (when one is given) and not the status [completed],
    [failed], [cancelled] or the empty one, its stored metadata names the
    fenced workspace (when one is given), and the target is another state
    along a legal edge.  It then answers [UPDATED], replaces the cognitive
    state of that row alone by the target, increments its version by one and
    keeps every other column.  Any other answer, and any exception, leaves the
    table as it was. *)
Theorem compare_and_transition_spec rq tasks o tasks' :
  compare_and_transition rq tasks = (o, tasks') ->
  (is_updated o = true <->
     well_formed_request rq /\
     exists row, tasks !! rq_task_id rq = Some row /\ transition_permitted rq row) /\
  (is_updated o = true ->
     exists row, tasks !! rq_task_id rq = Some row /\
       tasks' = <[rq_task_id rq :=
         MkTaskRow (t_principal_id row) (t_project_id row) (t_status row) (t_state_json row)
           (t_updated_at row) (cognitive_value (rq_target_state rq))
           (t_control_state_version row + 1) (t_published_plan_revision_id row)
           (t_last_applied_recovery_decision_id row)]> tasks) /\
  (is_updated o = false -> tasks' = tasks).
Proof.
  intros H. destruct (compare_and_transition_cases _ _ _ _ H) as [H1 H2]. split_and!; [|..|done].
  - split; [by apply (updated_permitted _ _ _ _ H)|].
    intros (Hwf & row & Hrow & Hok). by apply (permitted_updated _ _ row _ _ Hwf Hrow Hok H).
  - intros Hu. destruct (H1 Hu) as (row & Hrow & _ & ->). by exists row.
Qed.

(** Requests of any number of callers, executed one transaction after the
    other (the writer lock admits no other interleaving). *)
Fixpoint run_requests (rqs : list CasRequest) (tasks : gmap string TaskRow)
    : list (res CognitiveTransitionResult) * gmap string TaskRow :=
  match rqs with
  | [] => ([], tasks)
  | rq :: rqs' =>
      let '(o, tasks1) := compare_and_transition rq tasks in
      let '(os, tasks2) := run_requests rqs' tasks1 in
      (o :: os, tasks2)
  end.

(** The requests on task [t] that were committed, in order. *)
Definition committed (t : string) (rqs : list CasRequest)
    (os : list (res CognitiveTransitionResult)) : list CasRequest :=
  (filter (fun p => rq_task_id p.1 = t /\ is_updated p.2 = true) (zip rqs os)).*1.

Lemma committed_cons t rq rqs o os :
  committed t (rq :: rqs) (o :: os)
  = if bool_decide (rq_task_id rq = t) && is_updated o then rq :: committed t rqs os
    else committed t rqs os.
Proof.
  unfold committed. simpl. rewrite filter_cons.
  destruct (decide _) as [[H1 H2]|Hn]; simpl in *.
  - by rewrite bool_decide_true, H2.
  - case_bool_decide; simpl; destruct (is_updated o); try done. by destruct Hn.
Qed.

Lemma run_requests_row rqs tasks os tasks' t row s :
  run_requests rqs tasks = (os, tasks') ->
  tasks !! t = Some row -> t_cognitive_state row = cognitive_value s ->
  let cs := committed t rqs os in
  let final := default s (last (rq_target_state <$> cs)) in
  rq_expected_version <$> cs = seqZ (t_control_state_version row) (Z.of_nat (length cs)) /\
  legal_path s (rq_target_state <$> cs) /\
  tasks' !! t = Some (set_cognitive row (cognitive_value final)
                        (t_control_state_version row + Z.of_nat (length cs))).
Proof.
  revert tasks os tasks' row s. induction rqs as [|rq rqs IH]; intros tasks os tasks' row s; simpl.
  - intros [= <- <-] Hrow Hs. simpl. rewrite <-Hs, Z.add_0_r. split_and!; [done|constructor|].
    rewrite Hrow. by destruct row.
  - destruct (compare_and_transition rq tasks) as [o tasks1] eqn:Ec.
    destruct (run_requests rqs tasks1) as [os1 tasks2] eqn:Er.
    intros [= <- <-] Hrow Hs. rewrite committed_cons.
    apply compare_and_transition_cases in Ec as [Hu Hn].
    destruct (is_updated o) eqn:Eo; [|rewrite andb_false_r; rewrite Hn in Er by done; by eapply IH].
    destruct (Hu eq_refl) as (row' & Hrow' & (Hpred & Hall & _) & ->).
    case_bool_decide as Et; cbn [andb].
    + rewrite !fmap_cons. cbn [length]. subst t. simplify_eq. apply cas_predicate_true in Hpred as (_ & _ & Hst & Hv & _).
      assert (s = rq_expected_state rq) as -> by (apply cognitive_value_inj; congruence).
      destruct (IH _ _ _ (cas_effect rq row) (rq_target_state rq) Er) as (IH1 & IH2 & IH3);
        [apply lookup_insert_eq|done|].
      unfold cas_effect in IH1, IH3; cbn [t_control_state_version set_cognitive] in IH1, IH3.
      split_and!.
      * rewrite Nat2Z.inj_succ, seqZ_cons by lia. rewrite IH1, <-Hv. do 2 f_equal; lia.
      * constructor; [done|exact IH2].
      * rewrite IH3. unfold set_cognitive; simpl. do 2 f_equal; [|lia]. f_equal.
        rewrite last_cons. by destruct (last _).
    + eapply IH; [exact Er| |done]. by rewrite lookup_insert_ne.
Qed.

(** C16. Serialisation of concurrent callers: over any sequence of requests from
    any callers, the commits on one task carry the consecutive versions
    [v, v+1, ...] (so no two requests that expected the same version both
    commit), follow a legal path of the graph, and the final row differs from
    the initial one only by the last committed state and the number of
    commits. *)
Theorem concurrent_commits_serialise rqs tasks os tasks' t row s :
  run_requests rqs tasks = (os, tasks') ->
  tasks !! t = Some row -> t_cognitive_state row = cognitive_value s ->
  let cs := committed t rqs os in
  NoDup (rq_expected_version <$> cs) /\
  rq_expected_version <$> cs = seqZ (t_control_state_version row) (Z.of_nat (length cs)) /\
  legal_path s (rq_target_state <$> cs) /\
  tasks' !! t = Some (set_cognitive row
                        (cognitive_value (default s (last (rq_target_state <$> cs))))
                        (t_control_state_version row + Z.of_nat (length cs))).
Proof.
  intros Hrun Hrow Hs. destruct (run_requests_row _ _ _ _ _ _ _ Hrun Hrow Hs) as (H1 & H2 & H3).
  split_and!; [|done..]. simpl. rewrite H1. apply NoDup_seqZ.
Qed.

(** A concrete table and two racing callers. *)
Definition demo_row : TaskRow :=
  MkTaskRow "alice" "p1" "running" "{}" "t0" "implementing" 4 None None.
Definition demo_tasks : gmap string TaskRow := {[ "task-1" := demo_row ]}.
Definition demo_request (target : AgentCognitiveState) : CasRequest :=
  MkCasRequest "task-1" "alice" "p1" IMPLEMENTING 4 target None None.

Definition demo_fenced : CasRequest :=
  MkCasRequest "task-1" "alice" "p1" IMPLEMENTING 4 VERIFYING (Some "running")
    (Some (MkBinding None None None)).

Example compare_and_transition_spec_witness :
  let result := compare_and_transition demo_fenced demo_tasks in
  is_updated result.1 = true /\
  well_formed_request demo_fenced /\
  (exists row, demo_tasks !! "task-1" = Some row /\ transition_permitted demo_fenced row) /\
  is_updated (compare_and_transition (demo_request UNDERSTANDING) demo_tasks).1 = false /\
  (compare_and_transition (demo_request UNDERSTANDING) demo_tasks).2 = demo_tasks.
Proof.
  cbv zeta.
  assert (Hu : is_updated (compare_and_transition demo_fenced demo_tasks).1 = true) by reflexivity.
  destruct (compare_and_transition_spec demo_fenced demo_tasks _ _ (surjective_pairing _)) as (H & _ & _).
  destruct (proj1 H Hu) as [Hwf Hrow]. split_and!; [exact Hu|exact Hwf|exact Hrow|reflexivity|].
  apply (proj2 (proj2 (compare_and_transition_spec (demo_request UNDERSTANDING) demo_tasks _ _
    (surjective_pairing _)))). reflexivity.
Defined.

Example concurrent_commits_witness :
  let rqs := [demo_request VERIFYING; demo_request DIAGNOSING] in
  committed "task-1" rqs (run_requests rqs demo_tasks).1 = [demo_request VERIFYING] /\
  rq_expected_version <$> committed "task-1" rqs (run_requests rqs demo_tasks).1 = [4].
Proof.
  split; [vm_compute; reflexivity|].
  exact (proj1 (proj2 (concurrent_commits_serialise [demo_request VERIFYING; demo_request DIAGNOSING]
    demo_tasks _ _ "task-1" demo_row IMPLEMENTING (surjective_pairing _) eq_refl eq_refl))).
Defined.
