(* ===== verification/Goal.v ===== *)
(** * Goal declarations ([agent/control/goal.py])

    [GoalSpec] and its parts, goal normalisation, the semantic digest and the
    canonical JSON form.  Values that arrive from JSON are [pyval]s and are
    type-checked by the constructors exactly where the code checks them. *)
From Stdlib Require Import Ascii.
From S2P Require Import Prelude PyStr Json Sha256 ProtocolBoundary.
Open Scope Z_scope.

Definition GOAL_SPEC_SCHEMA_VERSION : Z := 1.
Definition GOAL_REQUIREMENT_SCHEMA_KEYS : list string :=
  ["requirement_id"; "description"; "required"; "source"].
Definition ACCEPTANCE_CRITERION_SCHEMA_KEYS : list string :=
  ["criterion_id"; "description"; "required"; "source"; "verification_kind"].
Definition _GOAL_SPEC_SCHEMA_KEYS : list string :=
  ["schema_version"; "goal_spec_id"; "raw_goal"; "normalized_goal"; "requirements";
   "acceptance_criteria"; "constraints"; "requested_artifacts"; "verification_expectations";
   "semantic_digest"].
Definition _EXPLICIT_REQUIREMENT_ID : string := "user_goal".

Definition goal_error {A} (msg : string) : res A := Raise (Exn GoalSpecValidationError msg).
Definition goal_raise_if (c : bool) (msg : string) : res unit :=
  raise_if c GoalSpecValidationError msg.

Inductive GoalSource := EXPLICIT_USER | INFERRED | REPOSITORY_POLICY | VERIFICATION_POLICY.
Definition goal_source_value (s : GoalSource) : string :=
  match s with
  | EXPLICIT_USER => "explicit_user" | INFERRED => "inferred"
  | REPOSITORY_POLICY => "repository_policy" | VERIFICATION_POLICY => "verification_policy"
  end.
(** [GoalSource(value)]: any value that is no member raises [ValueError]. *)
Definition goal_source_of (v : pyval) : res GoalSource :=
  match v with
  | PStr "explicit_user" => Ok EXPLICIT_USER
  | PStr "inferred" => Ok INFERRED
  | PStr "repository_policy" => Ok REPOSITORY_POLICY
  | PStr "verification_policy" => Ok VERIFICATION_POLICY
  | _ => Raise (Exn ValueError "is not a valid GoalSource")
  end.

Definition normalize_goal (raw_goal : string) : res string :=
  let normalized := replace_cr (replace_crlf (py_strip raw_goal)) in
  goal_raise_if (str_empty normalized) "raw_goal must not be empty" ;;*
  Ok normalized.

Definition _require_text (value : pyval) (label : string) : res string :=
  match value with
  | PStr s => goal_raise_if (str_empty s) (label +:+ " must be a string and must not be empty") ;;* Ok s
  | _ => goal_error (label +:+ " must be a string and must not be empty")
  end.

Definition _require_bool (value : pyval) : res bool :=
  match value with PBool b => Ok b | _ => goal_error "required must be a bool" end.

Definition _require_string_tuple (values : list string) (label : string) : res unit :=
  goal_raise_if (existsb str_empty values) (label +:+ " must contain non-empty strings").

Record GoalRequirement := MkRequirement {
  requirement_id : string;
  req_description : string;
  req_required : bool;
  req_source : GoalSource
}.

Record AcceptanceCriterion := MkCriterion {
  criterion_id : string;
  crit_description : string;
  crit_required : bool;
  crit_source : GoalSource;
  verification_kind : option string
}.

(** [GoalRequirement(...)] with [__post_init__] *)
Definition make_requirement (id description required : pyval) (source : GoalSource)
    : res GoalRequirement :=
  let* i := _require_text id "requirement_id" in
  let* d := _require_text description "description" in
  let* r := _require_bool required in
  Ok (MkRequirement i d r source).

(** [AcceptanceCriterion(...)] with [__post_init__] *)
Definition make_criterion (id description required : pyval) (source : GoalSource)
    (kind : pyval) : res AcceptanceCriterion :=
  let* i := _require_text id "criterion_id" in
  let* d := _require_text description "description" in
  let* r := _require_bool required in
  let* k := match kind with
            | PNone => Ok None
            | v => let* t := _require_text v "verification_kind" in Ok (Some t)
            end in
  Ok (MkCriterion i d r source k).

Definition requirement_payload (r : GoalRequirement) : pyval :=
  PDict [ ("requirement_id", PStr (requirement_id r)); ("description", PStr (req_description r));
          ("required", PBool (req_required r));
          ("source", PStr (goal_source_value (req_source r))) ].

Definition criterion_payload (c : AcceptanceCriterion) : pyval :=
  PDict [ ("criterion_id", PStr (criterion_id c)); ("description", PStr (crit_description c));
          ("required", PBool (crit_required c));
          ("source", PStr (goal_source_value (crit_source c)));
          ("verification_kind", opt_str (verification_kind c)) ].

Definition _semantic_payload (schema_version : Z) (raw_goal normalized_goal : string)
    (requirements : list GoalRequirement) (criteria : list AcceptanceCriterion)
    (constraints artifacts expectations : list string) : list (string * pyval) :=
  [ ("schema_version", PInt schema_version);
    ("raw_goal", PStr raw_goal);
    ("normalized_goal", PStr normalized_goal);
    ("requirements", PList (requirement_payload <$> sorted_by requirement_id requirements));
    ("acceptance_criteria", PList (criterion_payload <$> sorted_by criterion_id criteria));
    ("constraints", str_list constraints);
    ("requested_artifacts", str_list artifacts);
    ("verification_expectations", str_list expectations) ].

Definition _compute_semantic_digest (schema_version : Z) (raw_goal normalized_goal : string)
    (requirements : list GoalRequirement) (criteria : list AcceptanceCriterion)
    (constraints artifacts expectations : list string) : res string :=
  let* _ := _require_text (PStr raw_goal) "raw_goal" in
  let* _ := _require_text (PStr normalized_goal) "normalized_goal" in
  _require_string_tuple constraints "constraints" ;;*
  _require_string_tuple artifacts "requested_artifacts" ;;*
  _require_string_tuple expectations "verification_expectations" ;;*
  canonical_digest (PDict (_semantic_payload schema_version raw_goal normalized_goal
    requirements criteria constraints artifacts expectations)).

Record GoalSpec := MkGoalSpec {
  goal_schema_version : Z;
  goal_spec_id : string;
  raw_goal : string;
  normalized_goal : string;
  requirements : list GoalRequirement;
  acceptance_criteria : list AcceptanceCriterion;
  constraints : list string;
  requested_artifacts : list string;
  verification_expectations : list string;
  semantic_digest : string
}.

(** [GoalSpec(...)] with [__post_init__]; the scalar fields may come from JSON. *)
Definition make_goal_spec (schema_v id raw normalized : pyval)
    (reqs : list GoalRequirement) (crits : list AcceptanceCriterion)
    (cstrs arts exps : list string) (digest : pyval) : res GoalSpec :=
  let* schema := match schema_v with
                 | PInt z => Ok z
                 | _ => goal_error "schema_version must be an integer"
                 end in
  goal_raise_if (negb (schema =? GOAL_SPEC_SCHEMA_VERSION)) "unsupported GoalSpec schema_version" ;;*
  let* gid := _require_text id "goal_spec_id" in
  let* rg := _require_text raw "raw_goal" in
  let* expected_normalized := normalize_goal rg in
  goal_raise_if (negb match normalized with PStr s => bool_decide (s = expected_normalized) | _ => false end)
    "normalized_goal is not the deterministic normalization of raw_goal" ;;*
  _require_string_tuple cstrs "constraints" ;;*
  _require_string_tuple arts "requested_artifacts" ;;*
  _require_string_tuple exps "verification_expectations" ;;*
  goal_raise_if (has_duplicates (requirement_id <$> reqs)) "requirement_id values must be unique" ;;*
  goal_raise_if (has_duplicates (criterion_id <$> crits)) "criterion_id values must be unique" ;;*
  let* dg := match digest with
             | PStr d => goal_raise_if (negb (is_sha256_hex d)) "semantic_digest must be a SHA-256 hex digest" ;;* Ok d
             | _ => goal_error "semantic_digest must be a SHA-256 hex digest"
             end in
  let* expected := _compute_semantic_digest schema rg expected_normalized reqs crits cstrs arts exps in
  goal_raise_if (negb (bool_decide (dg = expected))) "semantic_digest does not match semantic payload" ;;*
  Ok (MkGoalSpec schema gid rg expected_normalized reqs crits cstrs arts exps dg).

(** [GoalSpec.from_parts] *)
Definition goal_from_parts (id raw : string) (normalized : option string)
    (reqs : list GoalRequirement) (crits : list AcceptanceCriterion)
    (cstrs arts exps : list string) : res GoalSpec :=
  let* resolved := match normalized with Some n => Ok n | None => normalize_goal raw end in
  let* digest := _compute_semantic_digest GOAL_SPEC_SCHEMA_VERSION raw resolved reqs crits cstrs arts exps in
  make_goal_spec (PInt GOAL_SPEC_SCHEMA_VERSION) (PStr id) (PStr raw) (PStr resolved)
    reqs crits cstrs arts exps (PStr digest).

(** [GoalSpec.from_user_goal]; the caller supplies the identity ([uuid4().hex]
    when [None] is passed). *)
Definition from_user_goal (raw : string) (id : string) : res GoalSpec :=
  let* normalized := normalize_goal raw in
  let* req := make_requirement (PStr _EXPLICIT_REQUIREMENT_ID) (PStr normalized) (PBool true) EXPLICIT_USER in
  goal_from_parts id raw (Some normalized) [req] [] [] [] [].

Definition goal_semantic_payload (s : GoalSpec) : list (string * pyval) :=
  _semantic_payload (goal_schema_version s) (raw_goal s) (normalized_goal s) (requirements s)
    (acceptance_criteria s) (constraints s) (requested_artifacts s) (verification_expectations s).

Definition goal_to_canonical_mapping (s : GoalSpec) : pyval :=
  PDict (goal_semantic_payload s
         ++ [("goal_spec_id", PStr (goal_spec_id s)); ("semantic_digest", PStr (semantic_digest s))]).

Definition goal_canonical_json (s : GoalSpec) : res string :=
  canonical_json_bytes (goal_to_canonical_mapping s).

(** ** Decoding *)
Definition _decode_strings (value : pyval) (label : string) : res (list string) :=
  match value with
  | PList l =>
      match mapM as_str l with
      | Some ss => goal_raise_if (existsb str_empty ss) (label +:+ " must contain non-empty strings") ;;* Ok ss
      | None => goal_error (label +:+ " must contain non-empty strings")
      end
  | _ => goal_error (label +:+ " must be a JSON array")
  end.

(** [set(item) != KEYS] *)
Definition keys_differ (d : list (string * pyval)) (keys : list string) : bool :=
  existsb (fun k => negb (str_in k keys)) (dict_keys d)
  || existsb (fun k => negb (str_in k (dict_keys d))) keys.

Definition decode_requirement (item : pyval) : res GoalRequirement :=
  match item with
  | PDict d =>
      goal_raise_if (keys_differ d GOAL_REQUIREMENT_SCHEMA_KEYS) "requirement schema is not closed" ;;*
      try_except
        (let* id := item_get "requirement_id" d in
         let* desc := item_get "description" d in
         let* req := item_get "required" d in
         let* src_v := item_get "source" d in
         let* src := goal_source_of src_v in
         make_requirement id desc req src)
        [KeyError; ValueError; TypeError]
        (fun _ => goal_error "requirement value is invalid")
  | _ => goal_error "each requirement must be an object"
  end.

Definition _decode_requirements (value : pyval) : res (list GoalRequirement) :=
  match value with
  | PList l => res_map decode_requirement l
  | _ => goal_error "requirements must be a JSON array"
  end.

Definition decode_criterion (item : pyval) : res AcceptanceCriterion :=
  match item with
  | PDict d =>
      goal_raise_if (keys_differ d ACCEPTANCE_CRITERION_SCHEMA_KEYS)
        "acceptance criterion schema is not closed" ;;*
      try_except
        (let* id := item_get "criterion_id" d in
         let* desc := item_get "description" d in
         let* req := item_get "required" d in
         let* src_v := item_get "source" d in
         let* src := goal_source_of src_v in
         let* kind := item_get "verification_kind" d in
         make_criterion id desc req src kind)
        [KeyError; ValueError; TypeError]
        (fun _ => goal_error "acceptance criterion value is invalid")
  | _ => goal_error "each acceptance criterion must be an object"
  end.

Definition _decode_acceptance_criteria (value : pyval) : res (list AcceptanceCriterion) :=
  match value with
  | PList l => res_map decode_criterion l
  | _ => goal_error "acceptance_criteria must be a JSON array"
  end.

(** [GoalSpec.from_canonical_json] *)
Definition goal_from_canonical_json (payload : string) (expected_digest : option string)
    : res GoalSpec :=
  let* decoded := try_except (loads default_object_hook default_constant_hook payload)
    [JSONDecodeError; TypeError] (fun _ => goal_error "canonical GoalSpec JSON is malformed") in
  match decoded with
  | PDict d =>
      goal_raise_if (existsb (fun k => negb (str_in k _GOAL_SPEC_SCHEMA_KEYS)) (dict_keys d))
        "canonical GoalSpec contains unknown fields" ;;*
      goal_raise_if (existsb (fun k => negb (str_in k (dict_keys d))) _GOAL_SPEC_SCHEMA_KEYS)
        "canonical GoalSpec is missing fields" ;;*
      let* reqs_v := item_get "requirements" d in
      let* reqs := _decode_requirements reqs_v in
      let* crits_v := item_get "acceptance_criteria" d in
      let* crits := _decode_acceptance_criteria crits_v in
      let* schema := item_get "schema_version" d in
      let* id := item_get "goal_spec_id" d in
      let* raw := item_get "raw_goal" d in
      let* normalized := item_get "normalized_goal" d in
      let* cstrs_v := item_get "constraints" d in
      let* cstrs := _decode_strings cstrs_v "constraints" in
      let* arts_v := item_get "requested_artifacts" d in
      let* arts := _decode_strings arts_v "requested_artifacts" in
      let* exps_v := item_get "verification_expectations" d in
      let* exps := _decode_strings exps_v "verification_expectations" in
      let* digest := item_get "semantic_digest" d in
      let* spec := make_goal_spec schema id raw normalized reqs crits cstrs arts exps digest in
      goal_raise_if (match expected_digest with
                     | Some e => negb (bool_decide (semantic_digest spec = e))
                     | None => false
                     end) "stored semantic_digest does not match the GoalSpec payload" ;;*
      let* text := goal_canonical_json spec in
      goal_raise_if (negb (bool_decide (text = payload)))
        "stored GoalSpec JSON is not in canonical serialization form" ;;*
      Ok spec
  | _ => goal_error "canonical GoalSpec JSON must be an object"
  end.

(** ** Type invariants and lemmas *)
Definition requirement_ok (r : GoalRequirement) : Prop :=
  str_empty (requirement_id r) = false /\ str_empty (req_description r) = false.
Definition criterion_ok (c : AcceptanceCriterion) : Prop :=
  str_empty (criterion_id c) = false /\ str_empty (crit_description c) = false /\
  verification_kind c <> Some EmptyString.

(** A [GoalSpec] object: its constructor accepted these fields. *)
Definition goal_ok (s : GoalSpec) : Prop :=
  make_goal_spec (PInt (goal_schema_version s)) (PStr (goal_spec_id s)) (PStr (raw_goal s))
    (PStr (normalized_goal s)) (requirements s) (acceptance_criteria s) (constraints s)
    (requested_artifacts s) (verification_expectations s) (PStr (semantic_digest s)) = Ok s /\
  Forall requirement_ok (requirements s) /\ Forall criterion_ok (acceptance_criteria s).

(** The same declaration with requirements and criteria in identity order. *)
Definition canonical_goal (s : GoalSpec) : GoalSpec :=
  MkGoalSpec (goal_schema_version s) (goal_spec_id s) (raw_goal s) (normalized_goal s)
    (sorted_by requirement_id (requirements s)) (sorted_by criterion_id (acceptance_criteria s))
    (constraints s) (requested_artifacts s) (verification_expectations s) (semantic_digest s).

Lemma goal_text_Ok v label s :
  _require_text v label = Ok s <-> v = PStr s /\ str_empty s = false.
Proof.
  destruct v; simpl; try (split; [done|by intros [? _]]).
  unfold goal_raise_if. destruct (str_empty _) eqn:E; simpl; (split; [|intros [[= ->] ?]]); try done.
  - congruence.
  - by intros [= <-].
Qed.

Ltac inv_text :=
  repeat match goal with
  | H : _require_text _ _ = Ok _ |- _ => apply goal_text_Ok in H as [? ?]
  end.

Lemma make_requirement_Ok i d r src x : make_requirement i d r src = Ok x -> requirement_ok x.
Proof.
  unfold make_requirement. intros H. inv_res.
  inv_text. done.
Qed.

Lemma make_criterion_Ok i d r src k x : make_criterion i d r src k = Ok x -> criterion_ok x.
Proof.
  unfold make_criterion. intros H. inv_res.
  inv_text. split_and!; [done..|]. simpl. destruct k; inv_res; inv_text; try done.
  intros [= ->]. done.
Qed.

(** Run a constructor on values whose emptiness tests are hypotheses. *)
Ltac solve_decode :=
  unfold make_requirement, make_criterion, _require_text, goal_raise_if, raise_if;
  repeat (simpl; match goal with H : str_empty ?x = false |- context [str_empty ?x] => rewrite H end);
  done.

Lemma decode_requirement_payload r :
  requirement_ok r -> decode_requirement (canon (requirement_payload r)) = Ok r.
Proof.
  intros [Hi Hd]. destruct r as [i d q src]; simpl in *.
  destruct src; cbn -[str_empty]; solve_decode.
Qed.

Lemma decode_criterion_payload c :
  criterion_ok c -> decode_criterion (canon (criterion_payload c)) = Ok c.
Proof.
  intros (Hi & Hd & Hk). destruct c as [i d q src [k|]]; simpl in *.
  - assert (str_empty k = false) as Hk' by (apply str_empty_false; congruence).
    destruct src; cbn -[str_empty]; solve_decode.
  - destruct src; cbn -[str_empty]; solve_decode.
Qed.

Lemma decode_requirements_payload rs :
  Forall requirement_ok rs -> _decode_requirements (canon (PList (requirement_payload <$> rs))) = Ok rs.
Proof.
  intros Hrs. cbn [canon _decode_requirements]. apply res_map_Ok.
  induction Hrs; simpl; constructor; [by apply decode_requirement_payload|done].
Qed.

Lemma decode_criteria_payload cs :
  Forall criterion_ok cs -> _decode_acceptance_criteria (canon (PList (criterion_payload <$> cs))) = Ok cs.
Proof.
  intros Hcs. cbn [canon _decode_acceptance_criteria]. apply res_map_Ok.
  induction Hcs; simpl; constructor; [by apply decode_criterion_payload|done].
Qed.

Lemma mapM_as_str l : mapM as_str (PStr <$> l) = Some l.
Proof. induction l as [|x l IH]; [done|]. rewrite fmap_cons. cbn [mapM as_str]. by rewrite IH. Qed.

Lemma decode_strings_payload l label :
  _require_string_tuple l label = Ok tt -> _decode_strings (canon (str_list l)) label = Ok l.
Proof.
  unfold _require_string_tuple. intros H. inv_res. rewrite canon_strs.
  unfold str_list. cbn [_decode_strings]. rewrite mapM_as_str. by rewrite H.
Qed.

(** The semantic payload, hence the digest, does not depend on the order of the
    identity-keyed declarations. *)
Lemma semantic_payload_sorted v rg ng rs cs a b c :
  _semantic_payload v rg ng (sorted_by requirement_id rs) (sorted_by criterion_id cs) a b c
  = _semantic_payload v rg ng rs cs a b c.
Proof. unfold _semantic_payload. by rewrite !sorted_by_idemp. Qed.

Lemma canonical_goal_mapping s :
  goal_to_canonical_mapping (canonical_goal s) = goal_to_canonical_mapping s.
Proof.
  unfold goal_to_canonical_mapping, goal_semantic_payload.
  cbn [canonical_goal goal_schema_version raw_goal normalized_goal requirements acceptance_criteria
    constraints requested_artifacts verification_expectations goal_spec_id semantic_digest].
  by rewrite semantic_payload_sorted.
Qed.

Lemma canonical_goal_json s : goal_canonical_json (canonical_goal s) = goal_canonical_json s.
Proof. unfold goal_canonical_json. by rewrite canonical_goal_mapping. Qed.

Lemma semantic_digest_sorted v rg ng rs cs a b c :
  _compute_semantic_digest v rg ng (sorted_by requirement_id rs) (sorted_by criterion_id cs) a b c
  = _compute_semantic_digest v rg ng rs cs a b c.
Proof. unfold _compute_semantic_digest. by rewrite semantic_payload_sorted. Qed.

Lemma has_duplicates_sorted {A} (key : A -> string) l :
  has_duplicates (key <$> sorted_by key l) = has_duplicates (key <$> l).
Proof. unfold has_duplicates. f_equal. apply bool_decide_ext, sorted_by_nodup. Qed.

Lemma make_goal_spec_sorted v i rg ng rs cs a b c dg s :
  make_goal_spec v i rg ng rs cs a b c dg = Ok s ->
  make_goal_spec v i rg ng (sorted_by requirement_id rs) (sorted_by criterion_id cs) a b c dg
  = Ok (canonical_goal s).
Proof.
  unfold make_goal_spec. rewrite !has_duplicates_sorted. intros H.
  repeat match goal with
  | H : res_bind ?m _ = Ok _ |- _ =>
      apply res_bind_Ok in H; let E := fresh "E" in destruct H as (? & E & H);
      rewrite ?semantic_digest_sorted, ?E; cbn [res_bind]
  end.
  by injection H as <-.
Qed.

(** ** The canonical text *)
Lemma goal_mapping_plain s : plain (goal_to_canonical_mapping s) = true.
Proof.
  destruct s as [v id rg ng rs cs a b c dg]. cbn -[sorted_by].
  assert (forall l, forallb plain (PStr <$> l) = true) as Hs by (induction l; done).
  rewrite !Hs, !andb_true_r. rewrite !andb_true_iff. split_and!; [reflexivity|..]; apply forallb_Forall_true.
  - apply Forall_fmap, Forall_true. done.
  - apply Forall_fmap, Forall_true. by intros [? ? ? ? []].
Qed.

(** The decoder reads back the fields the encoder wrote. *)
Lemma goal_from_mapping s e :
  goal_ok s -> plain (goal_to_canonical_mapping s) = true ->
  has_surrogate (dumpsc (goal_to_canonical_mapping s)) = false ->
  (forall d, e = Some d -> d = semantic_digest s) ->
  goal_from_canonical_json (dumpsc (goal_to_canonical_mapping s)) e = Ok (canonical_goal s).
Proof.
  intros (Hmk & Hr & Hc) Hp Hs He. unfold goal_from_canonical_json.
  rewrite (loads_dumpsc _ _ default_object_hook_nodup _ Hp).
  pose proof (make_goal_spec_sorted _ _ _ _ _ _ _ _ _ _ _ Hmk) as Hmk'.
  assert (_require_string_tuple (constraints s) "constraints" = Ok tt
    /\ _require_string_tuple (requested_artifacts s) "requested_artifacts" = Ok tt
    /\ _require_string_tuple (verification_expectations s) "verification_expectations" = Ok tt)
    as (Ha & Hb & Hx).
  { unfold make_goal_spec in Hmk. clear -Hmk.
    repeat match goal with
    | H : res_bind ?m _ = Ok _ |- _ =>
        apply res_bind_Ok in H; let E := fresh "E" in destruct H as (? & E & H)
    | u : unit |- _ => destruct u
    end. done. }
  set (m := goal_to_canonical_mapping s) in *.
  assert (canon m = PDict
    [("acceptance_criteria", canon (PList (criterion_payload <$> sorted_by criterion_id (acceptance_criteria s))));
     ("constraints", canon (str_list (constraints s)));
     ("goal_spec_id", PStr (goal_spec_id s));
     ("normalized_goal", PStr (normalized_goal s));
     ("raw_goal", PStr (raw_goal s));
     ("requested_artifacts", canon (str_list (requested_artifacts s)));
     ("requirements", canon (PList (requirement_payload <$> sorted_by requirement_id (requirements s))));
     ("schema_version", PInt (goal_schema_version s));
     ("semantic_digest", PStr (semantic_digest s));
     ("verification_expectations", canon (str_list (verification_expectations s)))]) as -> by reflexivity.
  cbn [try_except res_bind].
  repeat match goal with |- context [goal_raise_if (existsb ?f ?l) ?msg] =>
    replace (goal_raise_if (existsb f l) msg) with (@Ok unit tt) by (vm_compute; reflexivity) end.
  run_items.
  rewrite decode_requirements_payload by (by apply Forall_sorted_by). run_items.
  rewrite decode_criteria_payload by (by apply Forall_sorted_by). run_items.
  rewrite !decode_strings_payload by done. run_items.
  rewrite Hmk'. cbn [res_bind].
  replace (goal_raise_if _ _) with (@Ok unit tt).
  2: { destruct e as [d|]; [|done]. cbn. by rewrite (He d), bool_decide_true. }
  cbn [res_bind]. rewrite canonical_goal_json. unfold goal_canonical_json. fold m.
  rewrite canonical_json_bytes_cases, Hs by done. cbn [res_bind]. by rewrite bool_decide_true.
Qed.

(** A stored declaration reads back: the canonical text of any valid
    [GoalSpec] decodes, under its own digest, to the same declaration with its
    identity-keyed collections in identity order. *)
Theorem goal_roundtrip s p :
  goal_ok s -> goal_canonical_json s = Ok p ->
  goal_from_canonical_json p (Some (semantic_digest s)) = Ok (canonical_goal s).
Proof.
  intros Hok Hp. pose proof (goal_mapping_plain s) as Hpl.
  apply canonical_json_bytes_Ok in Hp as [-> Hs]; [|done].
  apply goal_from_mapping; [done..|congruence].
Qed.

(** ** Acceptance *)
Lemma goal_raise_if_Ok c msg u : goal_raise_if c msg = Ok u -> c = false.
Proof. apply raise_if_Ok. Qed.

Lemma decode_requirement_ok v r : decode_requirement v = Ok r -> requirement_ok r.
Proof.
  destruct v; simpl; try done. intros H.
  apply res_bind_Ok in H as (u & _ & H). apply try_except_reraise in H; [|done].
  do 5 (apply res_bind_Ok in H as (? & _ & H)). by eapply make_requirement_Ok.
Qed.

Lemma decode_criterion_ok v r : decode_criterion v = Ok r -> criterion_ok r.
Proof.
  destruct v; simpl; try done. intros H.
  apply res_bind_Ok in H as (u & _ & H). apply try_except_reraise in H; [|done].
  do 6 (apply res_bind_Ok in H as (? & _ & H)). by eapply make_criterion_Ok.
Qed.

Lemma make_goal_spec_fields v i rg ng rs cs a b c dg s :
  make_goal_spec v i rg ng rs cs a b c dg = Ok s ->
  v = PInt (goal_schema_version s) /\ i = PStr (goal_spec_id s) /\ rg = PStr (raw_goal s) /\
  ng = PStr (normalized_goal s) /\ rs = requirements s /\ cs = acceptance_criteria s /\
  a = constraints s /\ b = requested_artifacts s /\ c = verification_expectations s /\
  dg = PStr (semantic_digest s).
Proof.
  unfold make_goal_spec. intros H.
  apply res_bind_Ok in H as (z & Hz & H). apply res_bind_Ok in H as (u1 & _ & H).
  apply res_bind_Ok in H as (gid & Hgid & H). apply res_bind_Ok in H as (g & Hg & H).
  apply res_bind_Ok in H as (n & Hn & H). apply res_bind_Ok in H as (u2 & Hnorm & H).
  do 5 (apply res_bind_Ok in H as ([] & _ & H)).
  apply res_bind_Ok in H as (d & Hd & H). do 2 (apply res_bind_Ok in H as (? & _ & H)).
  injection H as <-. inv_text. subst. apply goal_raise_if_Ok in Hnorm.
  split_and!; try done; cbn.
  - destruct v; try done. by injection Hz as ->.
  - destruct ng; try done. cbn in Hnorm. apply negb_false_iff, bool_decide_eq_true in Hnorm. by subst.
  - destruct dg; try done. apply res_bind_Ok in Hd as (? & _ & [= ->]). done.
Qed.

(** Identities are unique and the digest has digest form. *)
Lemma goal_ok_ids s : goal_ok s ->
  NoDup (requirement_id <$> requirements s) /\ NoDup (criterion_id <$> acceptance_criteria s) /\
  is_sha256_hex (semantic_digest s) = true.
Proof.
  intros (H & _ & _). unfold make_goal_spec in H.
  do 9 (apply res_bind_Ok in H as (? & _ & H)).
  apply res_bind_Ok in H as (? & H1 & H). apply res_bind_Ok in H as (? & H2 & H).
  apply res_bind_Ok in H as (d & Hd & H). apply res_bind_Ok in H as (? & _ & H).
  apply res_bind_Ok in H as (? & _ & H). apply goal_raise_if_Ok in H1, H2.
  apply res_bind_Ok in Hd as (? & Hd & _). apply goal_raise_if_Ok, negb_false_iff in Hd.
  rewrite <-!has_duplicates_false. done.
Qed.

Lemma goal_ok_id s : goal_ok s -> str_empty (goal_spec_id s) = false.
Proof.
  intros (H & _ & _). unfold make_goal_spec in H. do 2 (apply res_bind_Ok in H as (? & _ & H)).
  apply res_bind_Ok in H as (? & [[= <-] ?]%goal_text_Ok & _). done.
Qed.

Lemma make_goal_spec_ok v i rg ng rs cs a b c dg s :
  Forall requirement_ok rs -> Forall criterion_ok cs ->
  make_goal_spec v i rg ng rs cs a b c dg = Ok s -> goal_ok s.
Proof.
  intros Hr Hc H. pose proof (make_goal_spec_fields _ _ _ _ _ _ _ _ _ _ _ H) as Hf.
  destruct Hf as (-> & -> & -> & -> & -> & -> & -> & -> & -> & ->). done.
Qed.

(** C40. Only canonical text is accepted: whatever [from_canonical_json] returns
    is a valid declaration, serialises to exactly the text that was read and
    carries the expected digest, and both collections are in identity order. *)
Theorem goal_accepts_only_canonical p e s :
  goal_from_canonical_json p e = Ok s ->
  goal_ok s /\ goal_canonical_json s = Ok p /\ s = canonical_goal s /\
  (forall d, e = Some d -> semantic_digest s = d).
Proof.
  intros H.
  assert (goal_ok s /\ goal_canonical_json s = Ok p /\ (forall d, e = Some d -> semantic_digest s = d))
    as (Hok & Hj & He).
  { unfold goal_from_canonical_json in H. apply res_bind_Ok in H as (v & _ & H).
    destruct v as [| | | | | |d]; try done.
    do 2 (apply res_bind_Ok in H as (? & _ & H)).
    apply res_bind_Ok in H as (rv & _ & H). apply res_bind_Ok in H as (rs & Hrs & H).
    apply res_bind_Ok in H as (cv & _ & H). apply res_bind_Ok in H as (cs & Hcs & H).
    do 11 (apply res_bind_Ok in H as (? & _ & H)).
    apply res_bind_Ok in H as (s' & Hs & H). apply res_bind_Ok in H as (u & He & H).
    apply res_bind_Ok in H as (t & Ht & H). apply res_bind_Ok in H as (u' & Htp & [= <-]).
    apply goal_raise_if_Ok in Htp, He. apply negb_false_iff, bool_decide_eq_true in Htp. subst t.
    split_and!; [|done|].
    - eapply make_goal_spec_ok, Hs.
      + destruct rv; try done. eapply res_map_Forall, Hrs. apply decode_requirement_ok.
      + destruct cv; try done. eapply res_map_Forall, Hcs. apply decode_criterion_ok.
    - intros d' ->. by apply negb_false_iff, bool_decide_eq_true in He. }
  split_and!; try done.
  pose proof (goal_mapping_plain s) as Hpl.
  pose proof Hj as Hj'. apply canonical_json_bytes_Ok in Hj' as [-> Hs]; [|done].
  rewrite goal_from_mapping in H; [congruence|done..|].
  intros d ->. symmetry. by apply He.
Qed.

(** ** A concrete declaration, two requirements out of identity order *)
Definition sample_goal : GoalSpec :=
  MkGoalSpec 1 "g1" "  fix the parser  " "fix the parser"
    [MkRequirement "r2" "keep the API" false INFERRED;
     MkRequirement "r1" "fix the parser" true EXPLICIT_USER]
    [MkCriterion "c1" "tests pass" true VERIFICATION_POLICY (Some "pytest")]
    ["no new dependency"] ["parser.py"] []
    "7f7b6cd88a9528926f945a9adb4e82b5c1027310ff1599b95062a3fabd183784".

Lemma sample_goal_ok : goal_ok sample_goal.
Proof. split_and!; [vm_compute; reflexivity|repeat constructor..]. discriminate. Qed.

Example goal_roundtrip_witness :
  exists p, goal_canonical_json sample_goal = Ok p /\
    goal_from_canonical_json p (Some (semantic_digest sample_goal)) = Ok (canonical_goal sample_goal) /\
    canonical_goal sample_goal <> sample_goal.
Proof.
  eexists. split; [vm_compute; reflexivity|]. split; [|vm_compute; discriminate].
  apply goal_roundtrip; [exact sample_goal_ok|vm_compute; reflexivity].
Defined.

Example goal_accepts_only_canonical_witness :
  goal_canonical_json (canonical_goal sample_goal) = Ok (dumpsc (goal_to_canonical_mapping sample_goal)).
Proof.
  refine (proj1 (proj2 (goal_accepts_only_canonical _ None _ _))).
  vm_compute. reflexivity.
Defined.
