(* ===== verification/Completion.v ===== *)
(** * Completion decision records ([agent/control/completion.py])

    The immutable record of one completion evaluation: its parts, validation,
    semantic digest, canonical JSON form and decoder.  The thirteen semantic
    fields that the code passes around as keyword arguments form the record
    [DecisionBody]; before validation they are [RawBody], whose scalar fields
    are still JSON values. *)
From Stdlib Require Import Ascii.
From S2P Require Import Prelude PyStr Json Sha256 ProtocolBoundary CognitiveState.
Open Scope Z_scope.

Definition COMPLETION_DECISION_SCHEMA_VERSION : Z := 1.
Definition _MAX_ID_LENGTH : Z := 512.
Definition _MAX_TEXT_LENGTH : Z := 2048.

Definition cd_error {A} (msg : string) : res A :=
  Raise (Exn CompletionDecisionValidationError msg).
Definition cd_raise_if (c : bool) (msg : string) : res unit :=
  raise_if c CompletionDecisionValidationError msg.

(** ** Vocabulary *)
Inductive CompletionOutcome := COMPLETE | REPLAN | BLOCKED | FAILED.
#[export] Instance CompletionOutcome_eq_dec : EqDecision CompletionOutcome.
Proof. solve_decision. Defined.
#[export] Instance CompletionOutcome_enum : PyEnum CompletionOutcome := {|
  members := [COMPLETE; REPLAN; BLOCKED; FAILED];
  enum_value o := match o with
    | COMPLETE => "complete" | REPLAN => "replan" | BLOCKED => "blocked" | FAILED => "failed" end |}.
#[export] Instance CompletionOutcome_laws : PyEnumLaws CompletionOutcome.
Proof. solve_enum_laws. Qed.

Definition continuation_possible (o : CompletionOutcome) : bool :=
  bool_decide (o ∈ [REPLAN; BLOCKED]).

Inductive AssessmentStatus := SATISFIED | UNSATISFIED | UNKNOWN.
#[export] Instance AssessmentStatus_eq_dec : EqDecision AssessmentStatus.
Proof. solve_decision. Defined.
#[export] Instance AssessmentStatus_enum : PyEnum AssessmentStatus := {|
  members := [SATISFIED; UNSATISFIED; UNKNOWN];
  enum_value s := match s with
    | SATISFIED => "satisfied" | UNSATISFIED => "unsatisfied" | UNKNOWN => "unknown" end |}.
#[export] Instance AssessmentStatus_laws : PyEnumLaws AssessmentStatus.
Proof. solve_enum_laws. Qed.

Inductive CompletionEvidenceKind :=
| GOAL_SPEC | PLAN_REVISION | TOOL_RESULT | CHANGESET | VERIFICATION_RUN | REVIEW | TASK_STATE.
#[export] Instance CompletionEvidenceKind_eq_dec : EqDecision CompletionEvidenceKind.
Proof. solve_decision. Defined.
#[export] Instance CompletionEvidenceKind_enum : PyEnum CompletionEvidenceKind := {|
  members := [GOAL_SPEC; PLAN_REVISION; TOOL_RESULT; CHANGESET; VERIFICATION_RUN; REVIEW; TASK_STATE];
  enum_value k := match k with
    | GOAL_SPEC => "goal_spec" | PLAN_REVISION => "plan_revision" | TOOL_RESULT => "tool_result"
    | CHANGESET => "changeset" | VERIFICATION_RUN => "verification_run" | REVIEW => "review"
    | TASK_STATE => "task_state" end |}.
#[export] Instance CompletionEvidenceKind_laws : PyEnumLaws CompletionEvidenceKind.
Proof. solve_enum_laws. Qed.

Inductive CompletionIssueCode :=
| REQUIREMENT_UNSATISFIED | REQUIREMENT_UNKNOWN | CRITERION_UNSATISFIED | CRITERION_UNKNOWN
| PLAN_INCOMPLETE | VERIFICATION_MISSING | VERIFICATION_FAILED | EXTERNAL_BLOCKER
| UNRECOVERABLE_FAILURE | STALE_INPUT.
#[export] Instance CompletionIssueCode_eq_dec : EqDecision CompletionIssueCode.
Proof. solve_decision. Defined.
#[export] Instance CompletionIssueCode_enum : PyEnum CompletionIssueCode := {|
  members := [REQUIREMENT_UNSATISFIED; REQUIREMENT_UNKNOWN; CRITERION_UNSATISFIED; CRITERION_UNKNOWN;
    PLAN_INCOMPLETE; VERIFICATION_MISSING; VERIFICATION_FAILED; EXTERNAL_BLOCKER;
    UNRECOVERABLE_FAILURE; STALE_INPUT];
  enum_value c := match c with
    | REQUIREMENT_UNSATISFIED => "requirement_unsatisfied"
    | REQUIREMENT_UNKNOWN => "requirement_unknown"
    | CRITERION_UNSATISFIED => "criterion_unsatisfied"
    | CRITERION_UNKNOWN => "criterion_unknown"
    | PLAN_INCOMPLETE => "plan_incomplete"
    | VERIFICATION_MISSING => "verification_missing"
    | VERIFICATION_FAILED => "verification_failed"
    | EXTERNAL_BLOCKER => "external_blocker"
    | UNRECOVERABLE_FAILURE => "unrecoverable_failure"
    | STALE_INPUT => "stale_input" end |}.
#[export] Instance CompletionIssueCode_laws : PyEnumLaws CompletionIssueCode.
Proof. solve_enum_laws. Qed.

#[export] Instance AgentCognitiveState_enum : PyEnum AgentCognitiveState := {|
  members := all_cognitive_states; enum_value := cognitive_value |}.
#[export] Instance AgentCognitiveState_laws : PyEnumLaws AgentCognitiveState.
Proof. solve_enum_laws. Qed.

(** ** Field validation *)
Definition _require_text (value : pyval) (label : string) (allow_empty : bool)
    (max_length : option Z) : res string :=
  match value with
  | PStr s =>
      cd_raise_if (negb allow_empty && str_empty s) (label +:+ " must be a string and must not be empty") ;;*
      cd_raise_if (match max_length with Some m => m <? py_len s | None => false end)
        (label +:+ " exceeds the maximum length") ;;*
      Ok s
  | _ => cd_error (label +:+ " must be a string")
  end.

Definition require_id (value : pyval) (label : string) : res string :=
  _require_text value label false (Some _MAX_ID_LENGTH).

(** [if value is not None: _require_text(value, max_length=_MAX_ID_LENGTH)] *)
Definition require_optional_id (value : pyval) (label : string) : res (option string) :=
  match value with
  | PNone => Ok None
  | v => let* s := require_id v label in Ok (Some s)
  end.

Definition _require_digest (value : pyval) (label : string) : res string :=
  match value with
  | PStr s => cd_raise_if (negb (is_sha256_hex s)) (label +:+ " must be a lowercase SHA-256 hex digest") ;;* Ok s
  | _ => cd_error (label +:+ " must be a lowercase SHA-256 hex digest")
  end.

(** ** Parts of a decision *)
Record CompletionEvidenceRef := MkEvidence {
  ev_kind : CompletionEvidenceKind; ref_id : string; ev_digest : option string }.

Record RequirementAssessment := MkReqAssessment {
  ra_requirement_id : string; ra_status : AssessmentStatus; ra_evidence : list CompletionEvidenceRef }.

Record CriterionAssessment := MkCritAssessment {
  ca_criterion_id : string; ca_status : AssessmentStatus; ca_evidence : list CompletionEvidenceRef }.

Record CompletionIssue := MkIssue {
  issue_code : CompletionIssueCode; subject_id : option string;
  issue_evidence : list CompletionEvidenceRef; issue_summary : string }.

#[export] Instance CompletionEvidenceRef_eq_dec : EqDecision CompletionEvidenceRef.
Proof. solve_decision. Defined.
#[export] Instance RequirementAssessment_eq_dec : EqDecision RequirementAssessment.
Proof. solve_decision. Defined.
#[export] Instance CriterionAssessment_eq_dec : EqDecision CriterionAssessment.
Proof. solve_decision. Defined.
#[export] Instance CompletionIssue_eq_dec : EqDecision CompletionIssue.
Proof. solve_decision. Defined.

(** The dataclass constructors with their [__post_init__]. *)
Definition make_evidence (kind : CompletionEvidenceKind) (id digest : pyval) : res CompletionEvidenceRef :=
  let* i := require_id id "ref_id" in
  let* d := require_optional_id digest "digest" in
  Ok (MkEvidence kind i d).

Definition make_requirement_assessment (id : pyval) (status : AssessmentStatus)
    (evidence : list CompletionEvidenceRef) : res RequirementAssessment :=
  let* i := require_id id "requirement_id" in Ok (MkReqAssessment i status evidence).

Definition make_criterion_assessment (id : pyval) (status : AssessmentStatus)
    (evidence : list CompletionEvidenceRef) : res CriterionAssessment :=
  let* i := require_id id "criterion_id" in Ok (MkCritAssessment i status evidence).

Definition make_issue (code : CompletionIssueCode) (subject : pyval)
    (evidence : list CompletionEvidenceRef) (summary : pyval) : res CompletionIssue :=
  let* s := require_optional_id subject "subject_id" in
  let* t := _require_text summary "summary" true (Some _MAX_TEXT_LENGTH) in
  Ok (MkIssue code s evidence t).

(** ** Canonical payloads *)
Definition or_empty (o : option string) : string := match o with Some s => s | None => EmptyString end.

Definition _evidence_sort_key (ref : CompletionEvidenceRef) : string * string * string :=
  (enum_value (ev_kind ref), ref_id ref, or_empty (ev_digest ref)).

Definition _evidence_payload (ref : CompletionEvidenceRef) : pyval :=
  PDict [("kind", PStr (enum_value (ev_kind ref))); ("ref_id", PStr (ref_id ref));
         ("digest", opt_str (ev_digest ref))].

Definition _sorted_evidence_payload (refs : list CompletionEvidenceRef) : pyval :=
  PList (_evidence_payload <$> sorted_by _evidence_sort_key refs).

Definition _issue_sort_key (issue : CompletionIssue)
    : string * string * string * list (string * string * string) :=
  (enum_value (issue_code issue), or_empty (subject_id issue), issue_summary issue,
   _evidence_sort_key <$> sorted_by _evidence_sort_key (issue_evidence issue)).

Definition requirement_assessment_payload (a : RequirementAssessment) : pyval :=
  PDict [("requirement_id", PStr (ra_requirement_id a));
         ("status", PStr (enum_value (ra_status a)));
         ("evidence", _sorted_evidence_payload (ra_evidence a))].

Definition criterion_assessment_payload (a : CriterionAssessment) : pyval :=
  PDict [("criterion_id", PStr (ca_criterion_id a));
         ("status", PStr (enum_value (ca_status a)));
         ("evidence", _sorted_evidence_payload (ca_evidence a))].

Definition issue_payload (i : CompletionIssue) : pyval :=
  PDict [("code", PStr (enum_value (issue_code i))); ("subject_id", opt_str (subject_id i));
         ("evidence", _sorted_evidence_payload (issue_evidence i));
         ("summary", PStr (issue_summary i))].

(** The semantic fields, validated. *)
Record DecisionBody := MkBody {
  schema_version : Z;
  task_id : string;
  goal_spec_id : string;
  goal_spec_digest : string;
  cognitive_state : AgentCognitiveState;
  control_state_version : Z;
  task_status_at_evaluation : string;
  workspace_id : option string;
  outcome : CompletionOutcome;
  requirement_assessments : list RequirementAssessment;
  criterion_assessments : list CriterionAssessment;
  evidence : list CompletionEvidenceRef;
  issues : list CompletionIssue
}.

Definition _semantic_payload (b : DecisionBody) : list (string * pyval) :=
  [ ("schema_version", PInt (schema_version b));
    ("task_id", PStr (task_id b));
    ("goal_spec_id", PStr (goal_spec_id b));
    ("goal_spec_digest", PStr (goal_spec_digest b));
    ("cognitive_state", PStr (cognitive_value (cognitive_state b)));
    ("control_state_version", PInt (control_state_version b));
    ("task_status_at_evaluation", PStr (task_status_at_evaluation b));
    ("workspace_id", opt_str (workspace_id b));
    ("outcome", PStr (enum_value (outcome b)));
    ("requirement_assessments",
      PList (requirement_assessment_payload <$> sorted_by ra_requirement_id (requirement_assessments b)));
    ("criterion_assessments",
      PList (criterion_assessment_payload <$> sorted_by ca_criterion_id (criterion_assessments b)));
    ("evidence", _sorted_evidence_payload (evidence b));
    ("issues", PList (issue_payload <$> sorted_by _issue_sort_key (issues b))) ].

(** The arguments of the constructor: scalar fields may be any JSON value. *)
Record RawBody := MkRaw {
  raw_schema_version : pyval;
  raw_task_id : pyval;
  raw_goal_spec_id : pyval;
  raw_goal_spec_digest : pyval;
  raw_cognitive_state : AgentCognitiveState;
  raw_control_state_version : pyval;
  raw_task_status : pyval;
  raw_workspace_id : pyval;
  raw_outcome : CompletionOutcome;
  raw_requirement_assessments : list RequirementAssessment;
  raw_criterion_assessments : list CriterionAssessment;
  raw_evidence : list CompletionEvidenceRef;
  raw_issues : list CompletionIssue
}.

Definition _validate_semantic_inputs (r : RawBody) : res DecisionBody :=
  let* schema := match raw_schema_version r with
                 | PInt z => Ok z
                 | _ => cd_error "schema_version must be an integer"
                 end in
  cd_raise_if (negb (schema =? COMPLETION_DECISION_SCHEMA_VERSION))
    "unsupported CompletionDecision schema_version" ;;*
  let* tid := require_id (raw_task_id r) "task_id" in
  let* gid := require_id (raw_goal_spec_id r) "goal_spec_id" in
  let* gdig := _require_digest (raw_goal_spec_digest r) "goal_spec_digest" in
  let* version := match raw_control_state_version r with
                  | PInt z => cd_raise_if (z <? 0) "control_state_version must be a non-negative integer" ;;* Ok z
                  | _ => cd_error "control_state_version must be a non-negative integer"
                  end in
  let* tstat := require_id (raw_task_status r) "task_status_at_evaluation" in
  let* ws := require_optional_id (raw_workspace_id r) "workspace_id" in
  cd_raise_if (has_duplicates (ra_requirement_id <$> raw_requirement_assessments r))
    "requirement_assessments must not contain duplicate requirement IDs" ;;*
  cd_raise_if (has_duplicates (ca_criterion_id <$> raw_criterion_assessments r))
    "criterion_assessments must not contain duplicate criterion IDs" ;;*
  Ok (MkBody schema tid gid gdig (raw_cognitive_state r) version tstat ws (raw_outcome r)
        (raw_requirement_assessments r) (raw_criterion_assessments r) (raw_evidence r) (raw_issues r)).

Definition _compute_decision_digest (r : RawBody) : res string :=
  let* b := _validate_semantic_inputs r in
  canonical_digest (PDict (_semantic_payload b)).

Record CompletionDecision := MkDecision {
  decision_id : string; dec_body : DecisionBody; decision_digest : string }.

(** [CompletionDecision(...)] with [__post_init__] *)
Definition make_decision (id : pyval) (r : RawBody) (digest : pyval) : res CompletionDecision :=
  let* i := require_id id "decision_id" in
  let* b := _validate_semantic_inputs r in
  let* d := _require_digest digest "decision_digest" in
  let* expected := _compute_decision_digest r in
  cd_raise_if (negb (bool_decide (d = expected))) "decision_digest does not match the semantic payload" ;;*
  Ok (MkDecision i b d).

(** [CompletionDecision.from_parts] *)
Definition decision_from_parts (id : pyval) (r : RawBody) : res CompletionDecision :=
  let* digest := _compute_decision_digest r in
  make_decision id r (PStr digest).

Definition decision_to_canonical_mapping (d : CompletionDecision) : pyval :=
  PDict (_semantic_payload (dec_body d)
         ++ [("decision_id", PStr (decision_id d)); ("decision_digest", PStr (decision_digest d))]).

Definition decision_canonical_json (d : CompletionDecision) : res string :=
  canonical_json_bytes (decision_to_canonical_mapping d).

(** ** Decoding *)
Definition _SEMANTIC_SCHEMA_KEYS : list string :=
  ["schema_version"; "task_id"; "goal_spec_id"; "goal_spec_digest"; "cognitive_state";
   "control_state_version"; "task_status_at_evaluation"; "workspace_id"; "outcome";
   "requirement_assessments"; "criterion_assessments"; "evidence"; "issues"].
Definition _STORAGE_SCHEMA_KEYS : list string :=
  _SEMANTIC_SCHEMA_KEYS ++ ["decision_id"; "decision_digest"].
Definition _EVIDENCE_SCHEMA_KEYS : list string := ["kind"; "ref_id"; "digest"].
Definition _REQUIREMENT_ASSESSMENT_SCHEMA_KEYS : list string := ["requirement_id"; "status"; "evidence"].
Definition _CRITERION_ASSESSMENT_SCHEMA_KEYS : list string := ["criterion_id"; "status"; "evidence"].
Definition _ISSUE_SCHEMA_KEYS : list string := ["code"; "subject_id"; "evidence"; "summary"].

Definition _reject_duplicate_keys (pairs : list (string * pyval)) : res pyval :=
  let* result :=
    foldl (fun acc '(key, value) =>
      let* d := acc in
      raise_if (bool_decide (key ∈ dict_keys d)) ValueError "duplicate JSON object key" ;;*
      Ok (dict_set key value d)) (Ok []) pairs in
  Ok (PDict result).

Definition _require_closed_keys (value : list (string * pyval)) (allowed : list string)
    (label : string) : res unit :=
  cd_raise_if (existsb (fun k => negb (str_in k allowed)) (dict_keys value))
    (label +:+ " contains unknown fields") ;;*
  cd_raise_if (existsb (fun k => negb (str_in k (dict_keys value))) allowed)
    (label +:+ " is missing fields").

(** [except (KeyError, TypeError, ValueError)] *)
Definition reject_value {A} (m : res A) (msg : string) : res A :=
  try_except m [KeyError; TypeError; ValueError] (fun _ => cd_error msg).

Definition decode_evidence_item (label : string) (item : pyval) : res CompletionEvidenceRef :=
  match item with
  | PDict d =>
      _require_closed_keys d _EVIDENCE_SCHEMA_KEYS label ;;*
      reject_value
        (let* kv := item_get "kind" d in
         let* kind := enum_of kv in
         let* id := item_get "ref_id" d in
         let* digest := item_get "digest" d in
         make_evidence kind id digest)
        (label +:+ " contains an invalid reference")
  | _ => cd_error ("each " +:+ label +:+ " reference must be an object")
  end.

Definition _decode_evidence (value : pyval) (label : string) : res (list CompletionEvidenceRef) :=
  match value with
  | PList l => res_map (decode_evidence_item label) l
  | _ => cd_error (label +:+ " must be a JSON array")
  end.

Definition decode_requirement_assessment (item : pyval) : res RequirementAssessment :=
  match item with
  | PDict d =>
      _require_closed_keys d _REQUIREMENT_ASSESSMENT_SCHEMA_KEYS "requirement assessment" ;;*
      reject_value
        (let* id := item_get "requirement_id" d in
         let* sv := item_get "status" d in
         let* status := enum_of sv in
         let* ev := item_get "evidence" d in
         let* evidence := _decode_evidence ev "requirement assessment evidence" in
         make_requirement_assessment id status evidence)
        "requirement assessment is invalid"
  | _ => cd_error "each requirement assessment must be an object"
  end.

Definition _decode_requirement_assessments (value : pyval) : res (list RequirementAssessment) :=
  match value with
  | PList l => res_map decode_requirement_assessment l
  | _ => cd_error "requirement_assessments must be a JSON array"
  end.

Definition decode_criterion_assessment (item : pyval) : res CriterionAssessment :=
  match item with
  | PDict d =>
      _require_closed_keys d _CRITERION_ASSESSMENT_SCHEMA_KEYS "criterion assessment" ;;*
      reject_value
        (let* id := item_get "criterion_id" d in
         let* sv := item_get "status" d in
         let* status := enum_of sv in
         let* ev := item_get "evidence" d in
         let* evidence := _decode_evidence ev "criterion assessment evidence" in
         make_criterion_assessment id status evidence)
        "criterion assessment is invalid"
  | _ => cd_error "each criterion assessment must be an object"
  end.

Definition _decode_criterion_assessments (value : pyval) : res (list CriterionAssessment) :=
  match value with
  | PList l => res_map decode_criterion_assessment l
  | _ => cd_error "criterion_assessments must be a JSON array"
  end.

Definition decode_issue (item : pyval) : res CompletionIssue :=
  match item with
  | PDict d =>
      _require_closed_keys d _ISSUE_SCHEMA_KEYS "issue" ;;*
      reject_value
        (let* cv := item_get "code" d in
         let* code := enum_of cv in
         let* subject := item_get "subject_id" d in
         let* ev := item_get "evidence" d in
         let* evidence := _decode_evidence ev "issue evidence" in
         let* summary := item_get "summary" d in
         make_issue code subject evidence summary)
        "issue is invalid"
  | _ => cd_error "each issue must be an object"
  end.

Definition _decode_issues (value : pyval) : res (list CompletionIssue) :=
  match value with
  | PList l => res_map decode_issue l
  | _ => cd_error "issues must be a JSON array"
  end.

(** The constructor call of [from_canonical_json]: arguments in source order. *)
Definition decode_decision (d : list (string * pyval)) : res CompletionDecision :=
  let* schema := item_get "schema_version" d in
  let* id := item_get "decision_id" d in
  let* tid := item_get "task_id" d in
  let* gid := item_get "goal_spec_id" d in
  let* gdig := item_get "goal_spec_digest" d in
  let* cog_v := item_get "cognitive_state" d in
  let* cog := enum_of cog_v in
  let* version := item_get "control_state_version" d in
  let* tstat := item_get "task_status_at_evaluation" d in
  let* ws := item_get "workspace_id" d in
  let* out_v := item_get "outcome" d in
  let* out := enum_of out_v in
  let* ra_v := item_get "requirement_assessments" d in
  let* ras := _decode_requirement_assessments ra_v in
  let* ca_v := item_get "criterion_assessments" d in
  let* cas := _decode_criterion_assessments ca_v in
  let* ev_v := item_get "evidence" d in
  let* evs := _decode_evidence ev_v "evidence" in
  let* is_v := item_get "issues" d in
  let* iss := _decode_issues is_v in
  let* digest := item_get "decision_digest" d in
  make_decision id (MkRaw schema tid gid gdig cog version tstat ws out ras cas evs iss) digest.

(** [CompletionDecision.from_canonical_json] *)
Definition decision_from_canonical_json (payload : string) (expected_digest : option string)
    : res CompletionDecision :=
  let* decoded := try_except (loads _reject_duplicate_keys default_constant_hook payload)
    [JSONDecodeError; TypeError; ValueError]
    (fun _ => cd_error "canonical CompletionDecision JSON is malformed") in
  match decoded with
  | PDict d =>
      _require_closed_keys d _STORAGE_SCHEMA_KEYS "CompletionDecision" ;;*
      let* decision :=
        try_except (decode_decision d) [KeyError; TypeError; ValueError]
          (fun e => if isinstance (exn_cls e) CompletionDecisionValidationError then Raise e
                    else cd_error "canonical CompletionDecision value is invalid") in
      match expected_digest with
      | Some e =>
          let* e' := _require_digest (PStr e) "expected_digest" in
          cd_raise_if (negb (bool_decide (decision_digest decision = e')))
            "stored decision_digest does not match the decision payload"
      | None => Ok tt
      end ;;*
      let* text := decision_canonical_json decision in
      cd_raise_if (negb (bool_decide (text = payload))) "stored CompletionDecision JSON is not canonical" ;;*
      Ok decision
  | _ => cd_error "canonical CompletionDecision JSON must be an object"
  end.

(** ** Type invariants *)
Definition id_ok (s : string) : bool := negb (str_empty s) && (py_len s <=? _MAX_ID_LENGTH).
Definition opt_id_ok (o : option string) : bool := match o with Some s => id_ok s | None => true end.
Definition evidence_ok (e : CompletionEvidenceRef) : bool := id_ok (ref_id e) && opt_id_ok (ev_digest e).
Definition req_assessment_ok (a : RequirementAssessment) : bool :=
  id_ok (ra_requirement_id a) && forallb evidence_ok (ra_evidence a).
Definition crit_assessment_ok (a : CriterionAssessment) : bool :=
  id_ok (ca_criterion_id a) && forallb evidence_ok (ca_evidence a).
Definition issue_ok (i : CompletionIssue) : bool :=
  opt_id_ok (subject_id i) && forallb evidence_ok (issue_evidence i)
  && (py_len (issue_summary i) <=? _MAX_TEXT_LENGTH).
Definition parts_ok (b : DecisionBody) : bool :=
  forallb req_assessment_ok (requirement_assessments b)
  && forallb crit_assessment_ok (criterion_assessments b)
  && forallb evidence_ok (evidence b) && forallb issue_ok (issues b).

Definition raw_of (b : DecisionBody) : RawBody :=
  MkRaw (PInt (schema_version b)) (PStr (task_id b)) (PStr (goal_spec_id b))
    (PStr (goal_spec_digest b)) (cognitive_state b) (PInt (control_state_version b))
    (PStr (task_status_at_evaluation b)) (opt_str (workspace_id b)) (outcome b)
    (requirement_assessments b) (criterion_assessments b) (evidence b) (issues b).

(** The semantic fields of a decision object. *)
Definition body_ok (b : DecisionBody) : bool :=
  (schema_version b =? COMPLETION_DECISION_SCHEMA_VERSION) && id_ok (task_id b)
  && id_ok (goal_spec_id b) && is_sha256_hex (goal_spec_digest b)
  && (0 <=? control_state_version b) && id_ok (task_status_at_evaluation b)
  && opt_id_ok (workspace_id b)
  && negb (has_duplicates (ra_requirement_id <$> requirement_assessments b))
  && negb (has_duplicates (ca_criterion_id <$> criterion_assessments b)).

(** A decision object: valid parts and the digest of its own semantic payload. *)
Definition decision_ok (d : CompletionDecision) : Prop :=
  id_ok (decision_id d) = true /\ body_ok (dec_body d) = true /\ parts_ok (dec_body d) = true /\
  canonical_digest (PDict (_semantic_payload (dec_body d))) = Ok (decision_digest d).

(** ** The canonical order *)
Definition canonical_req (a : RequirementAssessment) : RequirementAssessment :=
  MkReqAssessment (ra_requirement_id a) (ra_status a) (sorted_by _evidence_sort_key (ra_evidence a)).
Definition canonical_crit (a : CriterionAssessment) : CriterionAssessment :=
  MkCritAssessment (ca_criterion_id a) (ca_status a) (sorted_by _evidence_sort_key (ca_evidence a)).
Definition canonical_issue (i : CompletionIssue) : CompletionIssue :=
  MkIssue (issue_code i) (subject_id i) (sorted_by _evidence_sort_key (issue_evidence i)) (issue_summary i).
Definition canonical_body (b : DecisionBody) : DecisionBody :=
  MkBody (schema_version b) (task_id b) (goal_spec_id b) (goal_spec_digest b) (cognitive_state b)
    (control_state_version b) (task_status_at_evaluation b) (workspace_id b) (outcome b)
    (canonical_req <$> sorted_by ra_requirement_id (requirement_assessments b))
    (canonical_crit <$> sorted_by ca_criterion_id (criterion_assessments b))
    (sorted_by _evidence_sort_key (evidence b))
    (canonical_issue <$> sorted_by _issue_sort_key (issues b)).
Definition canonical_decision (d : CompletionDecision) : CompletionDecision :=
  MkDecision (decision_id d) (canonical_body (dec_body d)) (decision_digest d).

(** ** Validation lemmas *)
Lemma cd_text_Ok v label allow m s :
  _require_text v label allow m = Ok s <->
  v = PStr s /\ (negb allow && str_empty s) = false /\
  match m with Some n => py_len s <= n | None => True end.
Proof.
  destruct v as [| | | |t| |]; try (split; [done|by intros [? _]]). cbn [_require_text].
  unfold cd_raise_if. rewrite res_bind_Ok. setoid_rewrite res_bind_Ok. setoid_rewrite raise_if_Ok.
  split.
  - intros (_ & H1 & _ & H2 & [= <-]). split_and!; [done..|]. destruct m; [lia|done].
  - intros ([= ->] & H1 & H2). exists tt. split; [done|]. exists tt. split; [|done].
    destruct m; [lia|done].
Qed.

Lemma require_id_Ok v label s : require_id v label = Ok s <-> v = PStr s /\ id_ok s = true.
Proof.
  unfold require_id, id_ok. rewrite cd_text_Ok. simpl.
  rewrite andb_true_iff, negb_true_iff, Z.leb_le. done.
Qed.

Lemma require_optional_id_Ok v label o :
  require_optional_id v label = Ok o <-> v = opt_str o /\ opt_id_ok o = true.
Proof.
  assert (v = PNone \/ v <> PNone /\ require_optional_id v label = let* s := require_id v label in Ok (Some s))
    as [->|[Hv ->]] by (destruct v; auto).
  { simpl. split; [by intros [= <-]|]. intros [H _]. by destruct o. }
  rewrite res_bind_Ok. setoid_rewrite require_id_Ok. split.
  - by intros (s & [-> ?] & [= <-]).
  - intros [-> Ho]. destruct o as [s|]; [by exists s|done].
Qed.

Lemma require_digest_Ok v label s :
  _require_digest v label = Ok s <-> v = PStr s /\ is_sha256_hex s = true.
Proof.
  destruct v as [| | | |t| |]; try (split; [done|by intros [? _]]). cbn [_require_digest].
  unfold cd_raise_if. rewrite res_bind_Ok. setoid_rewrite raise_if_Ok. setoid_rewrite negb_false_iff.
  split; [by intros (? & ? & [= <-])|]. intros [[= ->] ?]. by exists tt.
Qed.

Lemma cd_raise_if_Ok c msg u : cd_raise_if c msg = Ok u <-> c = false.
Proof. apply raise_if_Ok. Qed.

(** The validator accepts exactly the well-formed bodies. *)
Lemma validate_Ok r b :
  _validate_semantic_inputs r = Ok b <-> r = raw_of b /\ body_ok b = true.
Proof.
  unfold _validate_semantic_inputs, body_ok. split.
  - intros H. destruct r as [rs rt rg rd cog rv rst rw out ras cas evs iss]; simpl in H.
    apply res_bind_Ok in H as (z & Hz & H). apply res_bind_Ok in H as (? & Hz1 & H).
    apply res_bind_Ok in H as (t & Ht & H). apply res_bind_Ok in H as (g & Hg & H).
    apply res_bind_Ok in H as (gd & Hgd & H). apply res_bind_Ok in H as (v & Hv & H).
    apply res_bind_Ok in H as (st & Hst & H). apply res_bind_Ok in H as (w & Hw & H).
    apply res_bind_Ok in H as (? & Hd1 & H). apply res_bind_Ok in H as (? & Hd2 & [= <-]).
    apply require_id_Ok in Ht as [-> Ht], Hg as [-> Hg], Hst as [-> Hst].
    apply require_digest_Ok in Hgd as [-> Hgd]. apply require_optional_id_Ok in Hw as [-> Hw].
    apply cd_raise_if_Ok in Hz1, Hd1, Hd2. apply negb_false_iff in Hz1.
    destruct rs; try done. injection Hz as ->.
    destruct rv; try done. apply res_bind_Ok in Hv as (? & Hv & [= ->]). apply cd_raise_if_Ok in Hv.
    cbn. rewrite Hz1, Ht, Hg, Hgd, Hst, Hw, Hd1, Hd2.
    split; [done|]. by replace (0 <=? v) with true by lia.
  - rewrite !andb_true_iff, !negb_true_iff, Z.leb_le.
    intros [-> ((((((((Hz & Ht) & Hg) & Hgd) & Hv) & Hst) & Hw) & Hd1) & Hd2)].
    unfold raw_of. cbn [raw_schema_version raw_task_id raw_goal_spec_id raw_goal_spec_digest
      raw_control_state_version raw_task_status raw_workspace_id raw_requirement_assessments
      raw_criterion_assessments raw_cognitive_state raw_outcome raw_evidence raw_issues].
    assert (forall s label, id_ok s = true -> require_id (PStr s) label = Ok s) as Hid
      by (intros; by apply require_id_Ok).
    rewrite !Hid by done. rewrite (proj2 (require_optional_id_Ok _ "workspace_id" _) (conj eq_refl Hw)).
    cbn. rewrite Hz, Hgd, Hd1, Hd2. cbn. replace (_ <? 0) with false by lia. by destruct b.
Qed.

Lemma compute_digest_raw b : body_ok b = true ->
  _compute_decision_digest (raw_of b) = canonical_digest (PDict (_semantic_payload b)).
Proof. intros Hb. unfold _compute_decision_digest. by rewrite (proj2 (validate_Ok _ b)). Qed.

(** The constructor accepts exactly the consistent field values. *)
Lemma make_decision_Ok id r dg d :
  make_decision id r dg = Ok d <->
  id = PStr (decision_id d) /\ r = raw_of (dec_body d) /\ dg = PStr (decision_digest d) /\
  id_ok (decision_id d) = true /\ body_ok (dec_body d) = true /\
  canonical_digest (PDict (_semantic_payload (dec_body d))) = Ok (decision_digest d).
Proof.
  unfold make_decision. split.
  - intros H. apply res_bind_Ok in H as (i & [-> Hi]%require_id_Ok & H).
    apply res_bind_Ok in H as (b & [-> Hb]%validate_Ok & H).
    apply res_bind_Ok in H as (x & [-> Hx]%require_digest_Ok & H).
    apply res_bind_Ok in H as (e & He & H). apply res_bind_Ok in H as (? & Hc & [= <-]).
    rewrite compute_digest_raw in He by done.
    apply cd_raise_if_Ok, negb_false_iff, bool_decide_eq_true in Hc as ->. done.
  - destruct d as [i b x]; cbn [decision_id dec_body decision_digest].
    intros (-> & -> & -> & Hi & Hb & Hd).
    rewrite (proj2 (require_id_Ok _ _ i)), (proj2 (validate_Ok _ b)) by done. cbn [res_bind].
    rewrite (proj2 (require_digest_Ok _ _ x)) by (split; [done|by eapply canonical_digest_form]).
    rewrite compute_digest_raw, Hd by done. cbn [res_bind]. by rewrite bool_decide_true.
Qed.

(** ** Decoding what was encoded *)
Lemma enum_of_value {A} `{PyEnumLaws A} (a : A) : enum_of (PStr (enum_value a)) = Ok a.
Proof. by apply enum_of_Ok. Qed.

Lemma canon_opt_str o : canon (opt_str o) = opt_str o.
Proof. by destruct o. Qed.

Lemma canon_list l : canon (PList l) = PList (canon <$> l).
Proof. done. Qed.

(** The key set of a literal object is closed. *)
Ltac close_keys :=
  repeat match goal with |- context [_require_closed_keys ?d ?k ?l] =>
    replace (_require_closed_keys d k l) with (@Ok unit tt) by (vm_compute; reflexivity) end;
  cbn [res_bind].

Lemma make_evidence_ok e : evidence_ok e = true ->
  make_evidence (ev_kind e) (PStr (ref_id e)) (opt_str (ev_digest e)) = Ok e.
Proof.
  unfold evidence_ok. rewrite andb_true_iff. intros [Hi Hd]. unfold make_evidence.
  rewrite (proj2 (require_id_Ok _ _ _)), (proj2 (require_optional_id_Ok _ _ _)) by done.
  by destruct e.
Qed.

Lemma decode_evidence_item_payload label e : evidence_ok e = true ->
  decode_evidence_item label (canon (_evidence_payload e)) = Ok e.
Proof.
  intros He.
  replace (canon (_evidence_payload e)) with
    (PDict [("digest", opt_str (ev_digest e)); ("kind", PStr (enum_value (ev_kind e)));
            ("ref_id", PStr (ref_id e))]) by (by destruct e as [? ? []]).
  cbn [decode_evidence_item]. close_keys. unfold reject_value. run_items.
  rewrite enum_of_value. cbn [res_bind]. by rewrite make_evidence_ok.
Qed.

(** A list of encoded items decodes item by item. *)
Lemma res_map_payload {A B} (f : pyval -> res B) (payload : A -> pyval) (g : A -> B) (p : A -> bool) l :
  (forall x, p x = true -> f (canon (payload x)) = Ok (g x)) -> forallb p l = true ->
  res_map f (canon <$> (payload <$> l)) = Ok (g <$> l).
Proof.
  intros Hf Hl. apply res_map_Ok. induction l as [|x l IH]; [constructor|].
  simpl in Hl. apply andb_true_iff in Hl as [Hx Hl]. rewrite !fmap_cons. constructor; auto.
Qed.

Lemma forallb_sorted {A K} `{PyOrdLaws K} (key : A -> K) p l :
  forallb p (sorted_by key l) = forallb p l.
Proof. apply Bool.eq_iff_eq_true. rewrite !forallb_Forall_true. apply Forall_sorted_by. Qed.

Lemma decode_evidence_payload label l : forallb evidence_ok l = true ->
  _decode_evidence (canon (_sorted_evidence_payload l)) label = Ok (sorted_by _evidence_sort_key l).
Proof.
  intros Hl. unfold _sorted_evidence_payload. rewrite canon_list. cbn [_decode_evidence].
  rewrite (res_map_payload _ _ id evidence_ok); [by rewrite list_fmap_id| |].
  - apply decode_evidence_item_payload.
  - by rewrite forallb_sorted.
Qed.

Lemma decode_requirement_assessment_payload a : req_assessment_ok a = true ->
  decode_requirement_assessment (canon (requirement_assessment_payload a)) = Ok (canonical_req a).
Proof.
  unfold req_assessment_ok. rewrite andb_true_iff. intros [Hi He].
  replace (canon (requirement_assessment_payload a)) with
    (PDict [("evidence", canon (_sorted_evidence_payload (ra_evidence a)));
            ("requirement_id", PStr (ra_requirement_id a));
            ("status", PStr (enum_value (ra_status a)))]) by done.
  cbn [decode_requirement_assessment]. close_keys. unfold reject_value. run_items.
  rewrite enum_of_value. cbn [res_bind]. rewrite decode_evidence_payload by done. cbn [res_bind].
  unfold make_requirement_assessment. by rewrite (proj2 (require_id_Ok _ _ (ra_requirement_id a))).
Qed.

Lemma decode_criterion_assessment_payload a : crit_assessment_ok a = true ->
  decode_criterion_assessment (canon (criterion_assessment_payload a)) = Ok (canonical_crit a).
Proof.
  unfold crit_assessment_ok. rewrite andb_true_iff. intros [Hi He].
  replace (canon (criterion_assessment_payload a)) with
    (PDict [("criterion_id", PStr (ca_criterion_id a));
            ("evidence", canon (_sorted_evidence_payload (ca_evidence a)));
            ("status", PStr (enum_value (ca_status a)))]) by done.
  cbn [decode_criterion_assessment]. close_keys. unfold reject_value. run_items.
  rewrite enum_of_value. cbn [res_bind]. rewrite decode_evidence_payload by done.
  cbn [res_bind]. unfold make_criterion_assessment.
  by rewrite (proj2 (require_id_Ok _ _ (ca_criterion_id a))).
Qed.

Lemma decode_issue_payload i : issue_ok i = true ->
  decode_issue (canon (issue_payload i)) = Ok (canonical_issue i).
Proof.
  unfold issue_ok. rewrite !andb_true_iff, Z.leb_le. intros [[Hs He] Ht].
  replace (canon (issue_payload i)) with
    (PDict [("code", PStr (enum_value (issue_code i)));
            ("evidence", canon (_sorted_evidence_payload (issue_evidence i)));
            ("subject_id", opt_str (subject_id i));
            ("summary", PStr (issue_summary i))]) by (by destruct i as [? [] ? ?]).
  cbn [decode_issue]. close_keys. unfold reject_value. run_items.
  rewrite enum_of_value. cbn [res_bind]. rewrite decode_evidence_payload by done. cbn [res_bind].
  unfold make_issue. rewrite (proj2 (require_optional_id_Ok _ _ (subject_id i))) by done. cbn [res_bind].
  by rewrite (proj2 (cd_text_Ok _ _ _ _ (issue_summary i))).
Qed.

(** ** Canonical order *)
Lemma evidence_payload_sorted l :
  _sorted_evidence_payload (sorted_by _evidence_sort_key l) = _sorted_evidence_payload l.
Proof. unfold _sorted_evidence_payload. by rewrite sorted_by_idemp. Qed.

Lemma issue_key_canonical i : _issue_sort_key (canonical_issue i) = _issue_sort_key i.
Proof. unfold _issue_sort_key, canonical_issue. cbn -[sorted_by fmap]. by rewrite sorted_by_idemp. Qed.

Lemma payload_canonical b : _semantic_payload (canonical_body b) = _semantic_payload b.
Proof.
  unfold _semantic_payload, canonical_body. cbn -[sorted_by _sorted_evidence_payload fmap].
  rewrite evidence_payload_sorted.
  rewrite (sorted_by_fmap ra_requirement_id ra_requirement_id canonical_req) by done.
  rewrite (sorted_by_fmap ca_criterion_id ca_criterion_id canonical_crit) by done.
  rewrite (sorted_by_fmap _issue_sort_key _issue_sort_key canonical_issue) by apply issue_key_canonical.
  rewrite !sorted_by_idemp, <-!list_fmap_compose.
  rewrite (list_fmap_ext (requirement_assessment_payload ∘ canonical_req) requirement_assessment_payload),
    (list_fmap_ext (criterion_assessment_payload ∘ canonical_crit) criterion_assessment_payload),
    (list_fmap_ext (issue_payload ∘ canonical_issue) issue_payload); [done|..];
    intros ? [] ?; unfold compose, requirement_assessment_payload, criterion_assessment_payload,
      issue_payload, canonical_req, canonical_crit, canonical_issue;
    cbn -[_sorted_evidence_payload sorted_by]; by rewrite evidence_payload_sorted.
Qed.

Lemma canonical_mapping d :
  decision_to_canonical_mapping (canonical_decision d) = decision_to_canonical_mapping d.
Proof.
  unfold decision_to_canonical_mapping. cbn [canonical_decision dec_body decision_id decision_digest].
  by rewrite payload_canonical.
Qed.

Lemma has_duplicates_fmap_sorted {A} (key : A -> string) (f : A -> A) l :
  (forall x, key (f x) = key x) ->
  has_duplicates (key <$> (f <$> sorted_by key l)) = has_duplicates (key <$> l).
Proof.
  intros Hf. rewrite <-list_fmap_compose.
  rewrite (list_fmap_ext (key ∘ f) key) by (intros; apply Hf).
  unfold has_duplicates. f_equal. apply bool_decide_ext, sorted_by_nodup.
Qed.

Lemma body_ok_canonical b : body_ok (canonical_body b) = body_ok b.
Proof.
  unfold body_ok, canonical_body. cbn -[fmap sorted_by].
  by rewrite !has_duplicates_fmap_sorted.
Qed.

Lemma parts_plain b : forallb (fun kv => plain kv.2) (_semantic_payload b) = true.
Proof.
  assert (forall l, plain (_sorted_evidence_payload l) = true) as Hev.
  { intros l. cbn [plain _sorted_evidence_payload]. apply forallb_Forall_true, Forall_fmap, Forall_true.
    by intros [? ? []]. }
  unfold _semantic_payload. cbn -[sorted_by fmap _sorted_evidence_payload].
  rewrite Hev. rewrite !andb_true_iff. split_and!; try done; [by destruct (workspace_id b)|..];
    apply forallb_Forall_true, Forall_fmap, Forall_true.
  - intros a. cbn -[_sorted_evidence_payload]. by rewrite Hev.
  - intros a. cbn -[_sorted_evidence_payload]. by rewrite Hev.
  - intros a. cbn -[_sorted_evidence_payload]. rewrite Hev. by destruct (subject_id a).
Qed.

Lemma mapping_plain d : plain (decision_to_canonical_mapping d) = true.
Proof.
  unfold decision_to_canonical_mapping. cbn [plain]. rewrite andb_true_iff. split.
  - reflexivity.
  - rewrite forallb_app, parts_plain. done.
Qed.

Lemma payload_plain b : plain (PDict (_semantic_payload b)) = true.
Proof. cbn [plain]. rewrite parts_plain, andb_true_r. reflexivity. Qed.

Lemma reject_duplicate_keys_nodup ps :
  NoDup (dict_keys ps) -> _reject_duplicate_keys ps = Ok (PDict ps).
Proof. intros Hnd. unfold _reject_duplicate_keys. by rewrite reject_fold_nodup. Qed.

(** ** Round trip *)
Lemma decode_decision_mapping d : decision_ok d ->
  exists m, canon (decision_to_canonical_mapping d) = PDict m /\
    _require_closed_keys m _STORAGE_SCHEMA_KEYS "CompletionDecision" = Ok tt /\
    decode_decision m = Ok (canonical_decision d).
Proof.
  intros (Hi & Hb & Hp & Hd). unfold parts_ok in Hp. rewrite !andb_true_iff in Hp.
  destruct Hp as [[[Hra Hca] Hev] His]. destruct d as [i b x]; cbn [decision_id dec_body decision_digest] in *.
  eexists. split_and!.
  - unfold decision_to_canonical_mapping. cbn [decision_id dec_body decision_digest].
    transitivity (PDict
      [("cognitive_state", PStr (enum_value (cognitive_state b)));
       ("control_state_version", PInt (control_state_version b));
       ("criterion_assessments", PList (canon <$> (criterion_assessment_payload <$>
          sorted_by ca_criterion_id (criterion_assessments b))));
       ("decision_digest", PStr x); ("decision_id", PStr i);
       ("evidence", canon (_sorted_evidence_payload (evidence b)));
       ("goal_spec_digest", PStr (goal_spec_digest b)); ("goal_spec_id", PStr (goal_spec_id b));
       ("issues", PList (canon <$> (issue_payload <$> sorted_by _issue_sort_key (issues b))));
       ("outcome", PStr (enum_value (outcome b)));
       ("requirement_assessments", PList (canon <$> (requirement_assessment_payload <$>
          sorted_by ra_requirement_id (requirement_assessments b))));
       ("schema_version", PInt (schema_version b)); ("task_id", PStr (task_id b));
       ("task_status_at_evaluation", PStr (task_status_at_evaluation b));
       ("workspace_id", canon (opt_str (workspace_id b)))]); [reflexivity|].
    rewrite canon_opt_str. reflexivity.
  - vm_compute. reflexivity.
  - unfold decode_decision. run_items. rewrite !enum_of_value. cbn [res_bind].
    cbn [_decode_requirement_assessments _decode_criterion_assessments _decode_issues].
    rewrite (res_map_payload _ _ _ _ _ decode_requirement_assessment_payload) by (by rewrite forallb_sorted).
    rewrite (res_map_payload _ _ _ _ _ decode_criterion_assessment_payload) by (by rewrite forallb_sorted).
    rewrite (res_map_payload _ _ _ _ _ decode_issue_payload) by (by rewrite forallb_sorted).
    rewrite decode_evidence_payload by done. cbn [res_bind].
    apply make_decision_Ok. cbn [canonical_decision decision_id dec_body decision_digest].
    rewrite body_ok_canonical, payload_canonical. done.
Qed.

Lemma decision_from_mapping d e :
  decision_ok d -> has_surrogate (dumpsc (decision_to_canonical_mapping d)) = false ->
  (forall x, e = Some x -> x = decision_digest d) ->
  decision_from_canonical_json (dumpsc (decision_to_canonical_mapping d)) e = Ok (canonical_decision d).
Proof.
  intros Hok Hs He. pose proof (mapping_plain d) as Hpl. unfold decision_from_canonical_json.
  rewrite (loads_dumpsc _ _ reject_duplicate_keys_nodup _ Hpl). cbn [try_except res_bind].
  destruct (decode_decision_mapping d Hok) as (m & -> & Hk & Hm). rewrite Hk, Hm.
  cbn [try_except res_bind].
  replace (match e with Some _ => _ | None => _ end) with (@Ok unit tt).
  2: { destruct e as [x|]; [|done]. rewrite (He x) by done.
    rewrite (proj2 (require_digest_Ok _ _ (decision_digest d))).
    - cbn [res_bind canonical_decision decision_digest]. by rewrite bool_decide_true.
    - split; [done|]. destruct Hok as (_ & _ & _ & Hd). by eapply canonical_digest_form. }
  cbn [res_bind]. unfold decision_canonical_json.
  rewrite canonical_mapping, canonical_json_bytes_cases, Hs by done. cbn [res_bind].
  by rewrite bool_decide_true.
Qed.

(** C33. A stored decision reads back: the canonical text of any valid
    [CompletionDecision] decodes, under its own digest, to the same decision
    with assessments, evidence and issues in canonical order. *)
Theorem decision_roundtrip d p :
  decision_ok d -> decision_canonical_json d = Ok p ->
  decision_from_canonical_json p (Some (decision_digest d)) = Ok (canonical_decision d).
Proof.
  intros Hok Hp. apply canonical_json_bytes_Ok in Hp as [-> Hs]; [|apply mapping_plain].
  apply decision_from_mapping; [done..|congruence].
Qed.

(** ** Only canonical text is accepted *)
Lemma make_evidence_inv k i d e : make_evidence k i d = Ok e -> evidence_ok e = true.
Proof.
  unfold make_evidence. intros H. apply res_bind_Ok in H as (x & [_ Hx]%require_id_Ok & H).
  apply res_bind_Ok in H as (y & [_ Hy]%require_optional_id_Ok & [= <-]).
  unfold evidence_ok. simpl. by rewrite Hx, Hy.
Qed.

Lemma reject_value_Ok {A} (m : res A) msg a : reject_value m msg = Ok a -> m = Ok a.
Proof. by apply try_except_reraise. Qed.

Lemma decode_evidence_ok v label l : _decode_evidence v label = Ok l -> forallb evidence_ok l = true.
Proof.
  destruct v; try done. intros H. apply forallb_Forall_true.
  eapply res_map_Forall, H. clear. intros x e. destruct x; try done. intros H.
  apply res_bind_Ok in H as (? & _ & H). apply reject_value_Ok in H.
  do 4 (apply res_bind_Ok in H as (? & _ & H)). by eapply make_evidence_inv.
Qed.

Lemma decode_requirement_assessment_ok v a :
  decode_requirement_assessment v = Ok a -> req_assessment_ok a = true.
Proof.
  destruct v; try done. intros H.
  apply res_bind_Ok in H as (? & _ & H). apply reject_value_Ok in H.
  do 4 (apply res_bind_Ok in H as (? & _ & H)).
  apply res_bind_Ok in H as (ev & Hev%decode_evidence_ok & H).
  apply res_bind_Ok in H as (i & [_ Hi]%require_id_Ok & [= <-]).
  unfold req_assessment_ok. simpl. by rewrite Hi, Hev.
Qed.

Lemma decode_criterion_assessment_ok v a :
  decode_criterion_assessment v = Ok a -> crit_assessment_ok a = true.
Proof.
  destruct v; try done. intros H.
  apply res_bind_Ok in H as (? & _ & H). apply reject_value_Ok in H.
  do 4 (apply res_bind_Ok in H as (? & _ & H)).
  apply res_bind_Ok in H as (ev & Hev%decode_evidence_ok & H).
  apply res_bind_Ok in H as (i & [_ Hi]%require_id_Ok & [= <-]).
  unfold crit_assessment_ok. simpl. by rewrite Hi, Hev.
Qed.

Lemma decode_issue_ok v i : decode_issue v = Ok i -> issue_ok i = true.
Proof.
  destruct v; try done. intros H.
  apply res_bind_Ok in H as (? & _ & H). apply reject_value_Ok in H.
  do 4 (apply res_bind_Ok in H as (? & _ & H)).
  apply res_bind_Ok in H as (ev & Hev%decode_evidence_ok & H).
  apply res_bind_Ok in H as (? & _ & H).
  apply res_bind_Ok in H as (s & [_ Hs]%require_optional_id_Ok & H).
  apply res_bind_Ok in H as (t & (_ & _ & Ht)%cd_text_Ok & [= <-]).
  unfold issue_ok. simpl. rewrite Hs, Hev. simpl. by apply Z.leb_le.
Qed.

Lemma decode_decision_ok m d : decode_decision m = Ok d -> decision_ok d.
Proof.
  unfold decode_decision. intros H.
  do 12 (apply res_bind_Ok in H as (? & _ & H)).
  apply res_bind_Ok in H as (rv & _ & H). apply res_bind_Ok in H as (ras & Hra & H).
  apply res_bind_Ok in H as (cv & _ & H). apply res_bind_Ok in H as (cas & Hca & H).
  apply res_bind_Ok in H as (? & _ & H). apply res_bind_Ok in H as (evs & Hev%decode_evidence_ok & H).
  apply res_bind_Ok in H as (iv & _ & H). apply res_bind_Ok in H as (iss & His & H).
  apply res_bind_Ok in H as (? & _ & H).
  apply make_decision_Ok in H as (_ & Hr & _ & Hi & Hb & Hd). split_and!; try done.
  destruct (dec_body d). injection Hr as -> -> -> -> -> -> -> -> -> -> -> -> ->.
  unfold parts_ok. simpl. rewrite Hev, andb_true_r, !andb_true_iff.
  split_and!; apply forallb_Forall_true.
  - destruct rv; try done. eapply res_map_Forall, Hra. apply decode_requirement_assessment_ok.
  - destruct cv; try done. eapply res_map_Forall, Hca. apply decode_criterion_assessment_ok.
  - destruct iv; try done. eapply res_map_Forall, His. apply decode_issue_ok.
Qed.

(** Whatever the decoder returns is a valid decision that serialises to
    exactly the text that was read, already in canonical order, carrying the
    expected digest: a second spelling of a decision is never accepted. *)
Theorem decision_accepts_only_canonical p e d :
  decision_from_canonical_json p e = Ok d ->
  decision_ok d /\ decision_canonical_json d = Ok p /\ d = canonical_decision d /\
  (forall x, e = Some x -> decision_digest d = x).
Proof.
  intros H.
  assert (decision_ok d /\ decision_canonical_json d = Ok p /\ (forall x, e = Some x -> decision_digest d = x))
    as (Hok & Hj & He).
  { unfold decision_from_canonical_json in H. apply res_bind_Ok in H as (v & _ & H).
    destruct v as [| | | | | |m]; try done.
    apply res_bind_Ok in H as (? & _ & H). apply res_bind_Ok in H as (d' & Hd & H).
    apply try_except_reraise in Hd; [|by intros ex ?; destruct (isinstance _ _)].
    apply res_bind_Ok in H as (? & He & H). apply res_bind_Ok in H as (t & Ht & H).
    apply res_bind_Ok in H as (u' & Htp & [= <-]).
    apply cd_raise_if_Ok, negb_false_iff, bool_decide_eq_true in Htp as ->.
    split_and!; [by eapply decode_decision_ok|done|].
    intros y ->. apply res_bind_Ok in He as (z & [[= <-] _]%require_digest_Ok & He).
    by apply cd_raise_if_Ok, negb_false_iff, bool_decide_eq_true in He. }
  split_and!; try done.
  pose proof Hj as Hj'. apply canonical_json_bytes_Ok in Hj' as [-> Hs]; [|apply mapping_plain].
  rewrite decision_from_mapping in H; [congruence|done..|].
  intros x ->. symmetry. by apply He.
Qed.

(** ** The digest ignores declaration order *)
Lemma evidence_key_inj e e' :
  evidence_ok e = true -> evidence_ok e' = true ->
  _evidence_sort_key e = _evidence_sort_key e' -> e = e'.
Proof.
  unfold evidence_ok, id_ok, opt_id_ok. intros [_ H]%andb_true_iff [_ H']%andb_true_iff.
  destruct e as [k i d], e' as [k' i' d']. unfold _evidence_sort_key.
  cbn [ev_kind ref_id ev_digest] in *.
  intros [[Hk%(inj enum_value) ->]%pair_eq Hd]%pair_eq. subst k'. f_equal.
  destruct d as [x|], d' as [x'|]; simpl in *; subst; try done.
Qed.

Lemma evidence_sorted_perm l l' :
  forallb evidence_ok l = true -> l ≡ₚ l' ->
  sorted_by _evidence_sort_key l = sorted_by _evidence_sort_key l'.
Proof.
  intros Hl. apply sorted_by_perm_eq. intros x y Hx Hy.
  rewrite forallb_Forall_true, Forall_forall in Hl. apply evidence_key_inj; auto.
Qed.

(** [l] and [l'] have the same elements up to [R], in any order. *)
Definition perm_upto {A} (R : A -> A -> Prop) (l l' : list A) : Prop :=
  exists l1, l ≡ₚ l1 /\ Forall2 R l1 l'.

Lemma sorted_upto {A K} `{PyOrdLaws K} (key : A -> K) (f : A -> A) (R : A -> A -> Prop) l l' :
  (forall x, key (f x) = key x) ->
  (forall x y, x ∈ l -> y ∈ l -> key x = key y -> f x = f y) ->
  (forall x y, x ∈ l -> R x y -> f x = f y) ->
  perm_upto R l l' -> f <$> sorted_by key l = f <$> sorted_by key l'.
Proof.
  intros Hk Hinj HR (l1 & Hp & HF). rewrite <-!(sorted_by_fmap key key f) by done.
  apply sorted_by_perm_eq.
  - intros x y (x' & -> & Hx)%list_elem_of_fmap (y' & -> & Hy)%list_elem_of_fmap. rewrite !Hk. auto.
  - rewrite Hp. apply reflexive_eq. assert (Forall (fun x => x ∈ l) l1) as Hin.
    { rewrite Forall_forall. intros x. by rewrite Hp. }
    clear Hp Hinj. induction HF as [|x y l1 l' Hxy HF IH]; [done|].
    apply Forall_cons in Hin as [Hx Hin]. rewrite !fmap_cons. f_equal; auto.
Qed.

Definition req_equiv (a a' : RequirementAssessment) : Prop :=
  ra_requirement_id a = ra_requirement_id a' /\ ra_status a = ra_status a' /\
  ra_evidence a ≡ₚ ra_evidence a'.
Definition crit_equiv (a a' : CriterionAssessment) : Prop :=
  ca_criterion_id a = ca_criterion_id a' /\ ca_status a = ca_status a' /\
  ca_evidence a ≡ₚ ca_evidence a'.
Definition issue_equiv (i i' : CompletionIssue) : Prop :=
  issue_code i = issue_code i' /\ subject_id i = subject_id i' /\
  issue_summary i = issue_summary i' /\ issue_evidence i ≡ₚ issue_evidence i'.

(** Bodies that differ only in the order of assessments, issues and evidence. *)
Definition body_equiv (b b' : DecisionBody) : Prop :=
  b' = MkBody (schema_version b) (task_id b) (goal_spec_id b) (goal_spec_digest b) (cognitive_state b)
    (control_state_version b) (task_status_at_evaluation b) (workspace_id b) (outcome b)
    (requirement_assessments b') (criterion_assessments b') (evidence b') (issues b') /\
  perm_upto req_equiv (requirement_assessments b) (requirement_assessments b') /\
  perm_upto crit_equiv (criterion_assessments b) (criterion_assessments b') /\
  evidence b ≡ₚ evidence b' /\
  perm_upto issue_equiv (issues b) (issues b').

Lemma nodup_key_inj {A} (key : A -> string) l x y :
  has_duplicates (key <$> l) = false -> x ∈ l -> y ∈ l -> key x = key y -> x = y.
Proof. rewrite has_duplicates_false. apply fmap_nodup_inj. Qed.

Lemma issue_key_inj i i' :
  issue_ok i = true -> issue_ok i' = true ->
  _issue_sort_key i = _issue_sort_key i' -> canonical_issue i = canonical_issue i'.
Proof.
  unfold issue_ok. rewrite !andb_true_iff. intros [[Hs He] _] [[Hs' He'] _].
  unfold _issue_sort_key, canonical_issue. intros [[[Hc Hsub]%pair_eq Hsum]%pair_eq Hev]%pair_eq.
  apply (inj enum_value) in Hc. rewrite Hc, Hsum. f_equal.
  - destruct (subject_id i) as [x|], (subject_id i') as [x'|]; simpl in *; subst; done.
  - rewrite <-(forallb_sorted _evidence_sort_key) in He, He'. revert He He' Hev.
    generalize (sorted_by _evidence_sort_key (issue_evidence i)) as l.
    generalize (sorted_by _evidence_sort_key (issue_evidence i')) as l'.
    intros l' l Hl Hl' E. revert l' Hl' E.
    induction l as [|x l IH]; intros [|y l'] Hl' E; try done.
    simpl in Hl, Hl'. apply andb_true_iff in Hl as [Hx Hl], Hl' as [Hy Hl'].
    rewrite !fmap_cons in E. assert (_evidence_sort_key x = _evidence_sort_key y /\
      _evidence_sort_key <$> l = _evidence_sort_key <$> l') as [Exy E'] by (split; congruence). f_equal; [|by apply IH].
    by apply evidence_key_inj.
Qed.

Lemma canonical_body_equiv b b' :
  body_ok b = true -> parts_ok b = true -> body_equiv b b' -> canonical_body b = canonical_body b'.
Proof.
  unfold body_ok, parts_ok. rewrite !andb_true_iff, !negb_true_iff.
  intros [[_ Hd1] Hd2] [[[Hr Hc] He] Hi] (-> & Er & Ec & Ee & Ei).
  apply forallb_Forall_true in Hr, Hc, Hi. rewrite Forall_forall in Hr. rewrite Forall_forall in Hc.
  rewrite Forall_forall in Hi.
  unfold canonical_body. cbn -[sorted_by fmap].
  rewrite (evidence_sorted_perm _ _ He Ee). f_equal.
  - apply (sorted_upto _ _ req_equiv); [done| |  |done].
    + intros x y Hx Hy E. by rewrite (nodup_key_inj _ _ _ _ Hd1 Hx Hy E).
    + intros x y [_ Hx]%Hr%andb_true_iff (E1 & E2 & E3). unfold canonical_req.
      by rewrite E1, E2, (evidence_sorted_perm _ _ Hx E3).
  - apply (sorted_upto _ _ crit_equiv); [done| |  |done].
    + intros x y Hx Hy E. by rewrite (nodup_key_inj _ _ _ _ Hd2 Hx Hy E).
    + intros x y [_ Hx]%Hc%andb_true_iff (E1 & E2 & E3). unfold canonical_crit.
      by rewrite E1, E2, (evidence_sorted_perm _ _ Hx E3).
  - apply (sorted_upto _ _ issue_equiv); [apply issue_key_canonical| |  |done].
    + intros x y Hx Hy. apply issue_key_inj; auto.
    + intros x y Hx%Hi (E1 & E2 & E3 & E4). unfold issue_ok in Hx. rewrite !andb_true_iff in Hx.
      unfold canonical_issue. rewrite E1, E2, E3. f_equal.
      apply evidence_sorted_perm; [apply Hx|done].
Qed.

(** The decision digest covers the set of facts, not their order: permuting
    assessments, issues or any evidence list leaves the digest unchanged. *)
Theorem decision_digest_order_independent b b' :
  body_ok b = true -> parts_ok b = true -> body_equiv b b' ->
  _compute_decision_digest (raw_of b') = _compute_decision_digest (raw_of b).
Proof.
  intros Hb Hp He. pose proof (canonical_body_equiv _ _ Hb Hp He) as Hc.
  assert (body_ok b' = true) by (rewrite <-(body_ok_canonical b'), <-Hc, body_ok_canonical; exact Hb).
  rewrite !compute_digest_raw by done.
  by rewrite <-(payload_canonical b), <-(payload_canonical b'), Hc.
Qed.

(** ** Concrete decisions *)
Definition sample_body (swap : bool) : DecisionBody :=
  let e1 := MkEvidence CHANGESET "cs-1" None in
  let e2 := MkEvidence CHANGESET "cs-1" (Some "d") in
  let l := if swap then [e1; e2] else [e2; e1] in
  MkBody 1 "t" "g" "0304523efff53f243d76dc81b7c271f922292543cead846ee714f066c3331e5f" COMPLETION_CHECK 3 "running" (Some "w") REPLAN
    [MkReqAssessment "r1" UNKNOWN l] [] l
    [MkIssue REQUIREMENT_UNKNOWN (Some "r1") l "no evidence"].

Definition sample_decision : CompletionDecision :=
  MkDecision "d1" (sample_body false) "7c6ed715e5d5b74b42a5dd20ff8a1b2024efb3d7cb592542fa3714caf0a173f5".

Lemma sample_decision_ok : decision_ok sample_decision.
Proof. split_and!; vm_compute; reflexivity. Qed.

Example decision_roundtrip_witness :
  exists p, decision_canonical_json sample_decision = Ok p /\
    decision_from_canonical_json p (Some (decision_digest sample_decision))
      = Ok (canonical_decision sample_decision) /\
    canonical_decision sample_decision <> sample_decision.
Proof.
  eexists. split; [vm_compute; reflexivity|]. split; [|vm_compute; discriminate].
  apply decision_roundtrip; [exact sample_decision_ok|vm_compute; reflexivity].
Defined.

Example decision_accepts_only_canonical_witness :
  decision_canonical_json (canonical_decision sample_decision)
  = Ok (dumpsc (decision_to_canonical_mapping sample_decision)).
Proof.
  refine (proj1 (proj2 (decision_accepts_only_canonical _ None _ _))).
  vm_compute. reflexivity.
Defined.

Example decision_digest_order_independent_witness :
  _compute_decision_digest (raw_of (sample_body true)) = _compute_decision_digest (raw_of (sample_body false)).
Proof.
  apply decision_digest_order_independent; [vm_compute; reflexivity..|].
  split; [reflexivity|]. split_and!.
  - eexists. split; [reflexivity|]. repeat constructor.
  - eexists. split; [reflexivity|]. constructor.
  - apply perm_swap.
  - eexists. split; [reflexivity|]. repeat constructor.
Defined.
