(* ===== verification/CompletionEvaluator.v ===== *)
(** * Completion evaluation ([agent/control/completion_evaluator.py])

    [CompletionEvaluator.evaluate]: from a goal declaration, a task snapshot and
    structured assessment facts to one completion decision.  The requirement
    loop and the criterion loop of the code have the same text up to names; both
    are instances of the section [AssessmentLoop]. *)
From Stdlib Require Import Ascii.
From S2P Require Import Prelude PyStr Json Sha256 ProtocolBoundary CognitiveState Goal Completion.
Open Scope Z_scope.

Definition ce_error {A} (msg : string) : res A := Raise (Exn CompletionEvaluationInputError msg).
Definition ce_raise_if (c : bool) (msg : string) : res unit :=
  raise_if c CompletionEvaluationInputError msg.

Inductive CompletionConstraintCode :=
| C_PLAN_INCOMPLETE | C_VERIFICATION_MISSING | C_VERIFICATION_FAILED
| C_EXTERNAL_BLOCKER | C_UNRECOVERABLE_FAILURE.
#[export] Instance CompletionConstraintCode_eq_dec : EqDecision CompletionConstraintCode.
Proof. solve_decision. Defined.
#[export] Instance CompletionConstraintCode_enum : PyEnum CompletionConstraintCode := {|
  members := [C_PLAN_INCOMPLETE; C_VERIFICATION_MISSING; C_VERIFICATION_FAILED;
              C_EXTERNAL_BLOCKER; C_UNRECOVERABLE_FAILURE];
  enum_value c := match c with
    | C_PLAN_INCOMPLETE => "plan_incomplete"
    | C_VERIFICATION_MISSING => "verification_missing"
    | C_VERIFICATION_FAILED => "verification_failed"
    | C_EXTERNAL_BLOCKER => "external_blocker"
    | C_UNRECOVERABLE_FAILURE => "unrecoverable_failure" end |}.
#[export] Instance CompletionConstraintCode_laws : PyEnumLaws CompletionConstraintCode.
Proof. solve_enum_laws. Qed.

Definition _CONSTRAINT_ISSUE_CODES (c : CompletionConstraintCode) : CompletionIssueCode :=
  match c with
  | C_PLAN_INCOMPLETE => PLAN_INCOMPLETE
  | C_VERIFICATION_MISSING => VERIFICATION_MISSING
  | C_VERIFICATION_FAILED => VERIFICATION_FAILED
  | C_EXTERNAL_BLOCKER => EXTERNAL_BLOCKER
  | C_UNRECOVERABLE_FAILURE => UNRECOVERABLE_FAILURE
  end.

Definition _CONSTRAINT_SUMMARIES (c : CompletionConstraintCode) : string :=
  match c with
  | C_PLAN_INCOMPLETE => "Required plan work is incomplete."
  | C_VERIFICATION_MISSING => "Required verification evidence is missing."
  | C_VERIFICATION_FAILED => "Required verification has failed."
  | C_EXTERNAL_BLOCKER => "An external blocker remains unresolved."
  | C_UNRECOVERABLE_FAILURE => "An unrecoverable failure remains unresolved."
  end.

Definition _REPLAN_CONSTRAINTS : list CompletionConstraintCode :=
  [C_PLAN_INCOMPLETE; C_VERIFICATION_MISSING; C_VERIFICATION_FAILED].

(** [_require_text] of this module *)
Definition _require_text (value : string) (label : string) : res string :=
  ce_raise_if (str_empty value) (label +:+ " must be a non-empty string") ;;*
  ce_raise_if (_MAX_ID_LENGTH <? py_len value) (label +:+ " exceeds the maximum length") ;;*
  Ok value.

Definition require_optional_text (value : option string) (label : string) : res (option string) :=
  match value with
  | Some v => let* _ := _require_text v label in Ok (Some v)
  | None => Ok None
  end.

Record CompletionEvaluationSnapshot := MkEvalSnapshot {
  snap_task_id : string;
  snap_goal_spec_id : string;
  snap_goal_spec_digest : string;
  snap_cognitive_state : AgentCognitiveState;
  snap_control_state_version : Z;
  snap_task_status : string;
  snap_workspace_id : option string
}.

(** [CompletionEvaluationSnapshot(...)] with [__post_init__] *)
Definition make_snapshot (tid gid gdig : string) (cog : AgentCognitiveState) (version : Z)
    (status : string) (ws : option string) : res CompletionEvaluationSnapshot :=
  let* _ := _require_text tid "task_id" in
  let* _ := _require_text gid "goal_spec_id" in
  let* _ := _require_text gdig "goal_spec_digest" in
  ce_raise_if (version <? 0) "control_state_version must be a non-negative integer" ;;*
  let* _ := _require_text status "task_status" in
  let* _ := require_optional_text ws "workspace_id" in
  Ok (MkEvalSnapshot tid gid gdig cog version status ws).

Record CompletionConstraint := MkConstraint {
  cc_code : CompletionConstraintCode;
  cc_subject_id : option string;
  cc_evidence : list CompletionEvidenceRef
}.

(** [CompletionConstraint(...)] with [__post_init__] *)
Definition make_constraint (code : CompletionConstraintCode) (subject : option string)
    (evidence : list CompletionEvidenceRef) : res CompletionConstraint :=
  let* s := require_optional_text subject "subject_id" in Ok (MkConstraint code s evidence).

Definition _normalize_evidence (value : list CompletionEvidenceRef) : list CompletionEvidenceRef :=
  sorted_by _evidence_sort_key value.

Definition _constraint_sort_key (c : CompletionConstraint)
    : string * string * list (string * string * string) :=
  (enum_value (cc_code c), or_empty (cc_subject_id c), _evidence_sort_key <$> cc_evidence c).

(** [_issue_sort_key] of this module: evidence as stored, already normalised. *)
Definition _issue_sort_key (issue : CompletionIssue)
    : string * string * string * list (string * string * string) :=
  (enum_value (issue_code issue), or_empty (subject_id issue), issue_summary issue,
   _evidence_sort_key <$> issue_evidence issue).

Definition _normalize_constraints (values : list CompletionConstraint) : res (list CompletionConstraint) :=
  let* normalized := res_map (fun item =>
    make_constraint (cc_code item) (cc_subject_id item) (_normalize_evidence (cc_evidence item))) values in
  Ok (sorted_by _constraint_sort_key normalized).

Definition _assessment_issue (code : CompletionIssueCode) (subject : string)
    (evidence : list CompletionEvidenceRef) (summary : string) : res CompletionIssue :=
  make_issue code (PStr subject) (_normalize_evidence evidence) (PStr summary).

(** ** Assessments of one kind of declaration *)
Section AssessmentLoop.
Context {D A : Type}.
Variable decl_id : D -> string.
Variable decl_required : D -> bool.
Variable assessed_id : A -> string.
Variable status : A -> AssessmentStatus.
Variable assessed_evidence : A -> list CompletionEvidenceRef.
Variable make : pyval -> AssessmentStatus -> list CompletionEvidenceRef -> res A.
Variables unknown_code unsatisfied_code : CompletionIssueCode.
Variables missing_summary unsatisfied_summary unknown_summary : string.

(** [_normalize_requirement_assessments] / [_normalize_criterion_assessments] *)
Fixpoint normalize_assessments (known_ids : list string) (normalized : list (string * A))
    (values : list A) : res (list (string * A)) :=
  match values with
  | [] => Ok normalized
  | item :: rest =>
      ce_raise_if (negb (str_in (assessed_id item) known_ids)) "unknown assessment id" ;;*
      ce_raise_if (str_in (assessed_id item) (dict_keys normalized)) "duplicate assessment id" ;;*
      let* a := make (PStr (assessed_id item)) (status item) (_normalize_evidence (assessed_evidence item)) in
      normalize_assessments known_ids (dict_set (assessed_id item) a normalized) rest
  end.

(** State of the loop: output assessments, issues (both in order), [required_gap]. *)
Definition loop_state : Type := list A * list CompletionIssue * bool.

Definition assess_step (normalized : list (string * A)) (d : D) (st : loop_state) : res loop_state :=
  let '(output, issues, gap) := st in
  let found := dict_get (decl_id d) normalized in
  match found with
  | None => if negb (decl_required d) then Ok st else
      let* a := make (PStr (decl_id d)) UNKNOWN [] in
      let* missing := _assessment_issue unknown_code (decl_id d) [] missing_summary in
      (* status UNKNOWN, required: the gap is set; no second issue is added *)
      Ok (output ++ [a], issues ++ [missing], true)
  | Some a =>
      let output' := output ++ [a] in
      if decl_required d && negb (bool_decide (status a = SATISFIED)) then
        match status a with
        | UNSATISFIED =>
            let* i := _assessment_issue unsatisfied_code (decl_id d) (assessed_evidence a) unsatisfied_summary in
            Ok (output', issues ++ [i], true)
        | UNKNOWN =>
            let* i := _assessment_issue unknown_code (decl_id d) (assessed_evidence a) unknown_summary in
            Ok (output', issues ++ [i], true)
        | SATISFIED => Ok (output', issues, true)
        end
      else Ok (output', issues, gap)
  end.

Fixpoint assess_loop (normalized : list (string * A)) (decls : list D) (st : loop_state) : res loop_state :=
  match decls with
  | [] => Ok st
  | d :: rest => let* st' := assess_step normalized d st in assess_loop normalized rest st'
  end.
End AssessmentLoop.

Definition _normalize_requirement_assessments (values : list RequirementAssessment) (g : GoalSpec)
    : res (list (string * RequirementAssessment)) :=
  normalize_assessments ra_requirement_id ra_status ra_evidence make_requirement_assessment
    (requirement_id <$> requirements g) [] values.

Definition _normalize_criterion_assessments (values : list CriterionAssessment) (g : GoalSpec)
    : res (list (string * CriterionAssessment)) :=
  normalize_assessments ca_criterion_id ca_status ca_evidence make_criterion_assessment
    (criterion_id <$> acceptance_criteria g) [] values.

Definition requirement_loop (g : GoalSpec) (normalized : list (string * RequirementAssessment)) :=
  assess_loop requirement_id req_required ra_status ra_evidence make_requirement_assessment
    REQUIREMENT_UNKNOWN REQUIREMENT_UNSATISFIED "Required requirement has no assessment."
    "Required requirement is unsatisfied." "Required requirement assessment is unknown."
    normalized (sorted_by requirement_id (requirements g)).

Definition criterion_loop (g : GoalSpec) (normalized : list (string * CriterionAssessment)) :=
  assess_loop criterion_id crit_required ca_status ca_evidence make_criterion_assessment
    CRITERION_UNKNOWN CRITERION_UNSATISFIED "Required acceptance criterion has no assessment."
    "Required acceptance criterion is unsatisfied." "Required acceptance criterion assessment is unknown."
    normalized (sorted_by criterion_id (acceptance_criteria g)).

Definition constraint_issue (c : CompletionConstraint) : res CompletionIssue :=
  make_issue (_CONSTRAINT_ISSUE_CODES (cc_code c)) (opt_str (cc_subject_id c)) (cc_evidence c)
    (PStr (_CONSTRAINT_SUMMARIES (cc_code c))).

Definition has_code (codes : list CompletionConstraintCode) (cs : list CompletionConstraint) : bool :=
  existsb (fun c => bool_decide (cc_code c ∈ codes)) cs.

(** Outcome precedence *)
Definition select_outcome (required_gap : bool) (cs : list CompletionConstraint) : CompletionOutcome :=
  if has_code [C_UNRECOVERABLE_FAILURE] cs then FAILED
  else if has_code [C_EXTERNAL_BLOCKER] cs then BLOCKED
  else if required_gap || has_code _REPLAN_CONSTRAINTS cs then REPLAN
  else COMPLETE.

(** The facts supplied to one evaluation. *)
Record Facts := MkFacts {
  f_requirements : list RequirementAssessment;
  f_criteria : list CriterionAssessment;
  f_evidence : list CompletionEvidenceRef;
  f_constraints : list CompletionConstraint
}.

(** The checks and loops of [evaluate], up to the final constructor call. *)
Definition evaluate_body (id : string) (g : GoalSpec) (snap : CompletionEvaluationSnapshot)
    (f : Facts) : res RawBody :=
  let* _ := _require_text id "decision_id" in
  ce_raise_if (negb (bool_decide (snap_goal_spec_id snap = Goal.goal_spec_id g)))
    "snapshot GoalSpec identity does not match goal_spec" ;;*
  ce_raise_if (negb (bool_decide (snap_goal_spec_digest snap = semantic_digest g)))
    "snapshot GoalSpec digest does not match goal_spec" ;;*
  let* nreqs := _normalize_requirement_assessments (f_requirements f) g in
  let* ncrits := _normalize_criterion_assessments (f_criteria f) g in
  let nevidence := _normalize_evidence (f_evidence f) in
  let* nconstraints := _normalize_constraints (f_constraints f) in
  let* st1 := requirement_loop g nreqs ([], [], false) in
  let '(out_reqs, issues1, gap1) := st1 in
  let* st2 := criterion_loop g ncrits ([], issues1, gap1) in
  let '(out_crits, issues2, gap2) := st2 in
  let* cissues := res_map constraint_issue nconstraints in
  Ok (MkRaw (PInt COMPLETION_DECISION_SCHEMA_VERSION) (PStr (snap_task_id snap))
        (PStr (snap_goal_spec_id snap)) (PStr (snap_goal_spec_digest snap))
        (snap_cognitive_state snap) (PInt (snap_control_state_version snap))
        (PStr (snap_task_status snap)) (opt_str (snap_workspace_id snap))
        (select_outcome gap2 nconstraints) out_reqs out_crits nevidence
        (sorted_by _issue_sort_key (issues2 ++ cissues))).

(** [CompletionEvaluator.evaluate] *)
Definition evaluate (id : string) (g : GoalSpec) (snap : CompletionEvaluationSnapshot) (f : Facts)
    : res CompletionDecision :=
  let* raw := evaluate_body id g snap f in
  try_except (decision_from_parts (PStr id) raw)
    [CompletionDecisionValidationError; TypeError; ValueError]
    (fun _ => ce_error "evaluation facts cannot produce a valid CompletionDecision").

(** ** Reference definitions: what one evaluation computes *)
Lemma ce_raise_if_Ok c msg u : ce_raise_if c msg = Ok u <-> c = false.
Proof. apply raise_if_Ok. Qed.

Lemma ce_text_Ok v label s : _require_text v label = Ok s <-> s = v /\ id_ok v = true.
Proof.
  unfold _require_text, id_ok. rewrite res_bind_Ok. setoid_rewrite res_bind_Ok.
  setoid_rewrite ce_raise_if_Ok. rewrite andb_true_iff, negb_true_iff, Z.leb_le. split.
  - intros (_ & ? & _ & ? & [= <-]). split_and!; [done..|lia].
  - intros (-> & ? & ?). exists tt. split; [done|]. exists tt. split; [lia|done].
Qed.

Lemma require_optional_text_Ok o label x :
  require_optional_text o label = Ok x <-> x = o /\ opt_id_ok o = true.
Proof.
  destruct o as [v|]; simpl; [|naive_solver]. rewrite res_bind_Ok. setoid_rewrite ce_text_Ok.
  naive_solver.
Qed.

Lemma make_constraint_Ok code subject ev c :
  make_constraint code subject ev = Ok c <-> opt_id_ok subject = true /\ c = MkConstraint code subject ev.
Proof.
  unfold make_constraint. rewrite res_bind_Ok. setoid_rewrite require_optional_text_Ok. naive_solver.
Qed.

Lemma make_issue_Ok code subject ev summary i :
  make_issue code (opt_str subject) ev (PStr summary) = Ok i <->
  opt_id_ok subject = true /\ py_len summary <= _MAX_TEXT_LENGTH /\ i = MkIssue code subject ev summary.
Proof.
  unfold make_issue. rewrite res_bind_Ok. setoid_rewrite res_bind_Ok.
  setoid_rewrite require_optional_id_Ok. setoid_rewrite cd_text_Ok. split.
  - intros (s & [E Hs] & t & ([= ->] & _ & Ht) & [= <-]).
    assert (subject = s) as -> by (destruct subject, s; simpl in E; congruence). done.
  - intros (Hs & Ht & ->). exists subject. split; [done|]. by exists summary.
Qed.

Lemma assessment_issue_Ok code subject ev summary i : py_len summary <= _MAX_TEXT_LENGTH ->
  _assessment_issue code subject ev summary = Ok i <->
  id_ok subject = true /\ i = MkIssue code (Some subject) (_normalize_evidence ev) summary.
Proof.
  intros Hl. unfold _assessment_issue. change (PStr subject) with (opt_str (Some subject)).
  rewrite make_issue_Ok. simpl. naive_solver.
Qed.

Lemma make_requirement_assessment_Ok i s ev a :
  make_requirement_assessment (PStr i) s ev = Ok a <-> id_ok i = true /\ a = MkReqAssessment i s ev.
Proof.
  unfold make_requirement_assessment. rewrite res_bind_Ok. setoid_rewrite require_id_Ok. naive_solver.
Qed.

Lemma make_criterion_assessment_Ok i s ev a :
  make_criterion_assessment (PStr i) s ev = Ok a <-> id_ok i = true /\ a = MkCritAssessment i s ev.
Proof.
  unfold make_criterion_assessment. rewrite res_bind_Ok. setoid_rewrite require_id_Ok. naive_solver.
Qed.

Section LoopSpec.
Context {D A : Type}.
Variable decl_id : D -> string.
Variable decl_required : D -> bool.
Variable assessed_id : A -> string.
Variable status : A -> AssessmentStatus.
Variable assessed_evidence : A -> list CompletionEvidenceRef.
Variable make : pyval -> AssessmentStatus -> list CompletionEvidenceRef -> res A.
Variable mk : string -> AssessmentStatus -> list CompletionEvidenceRef -> A.
Variables unknown_code unsatisfied_code : CompletionIssueCode.
Variables missing_summary unsatisfied_summary unknown_summary : string.

Hypothesis make_Ok : forall i s ev a, make (PStr i) s ev = Ok a <-> id_ok i = true /\ a = mk i s ev.
Hypothesis mk_status : forall i s ev, status (mk i s ev) = s.
Hypothesis summaries_short :
  py_len missing_summary <= _MAX_TEXT_LENGTH /\ py_len unsatisfied_summary <= _MAX_TEXT_LENGTH /\
  py_len unknown_summary <= _MAX_TEXT_LENGTH.

(** An assessment with its evidence in canonical order. *)
Definition normal (a : A) : A := mk (assessed_id a) (status a) (_normalize_evidence (assessed_evidence a)).
(** The assessments as a dictionary. *)
Definition index (values : list A) : list (string * A) := (fun a => (assessed_id a, normal a)) <$> values.

Definition assessments_valid (known : list string) (values : list A) : Prop :=
  NoDup (assessed_id <$> values) /\
  Forall (fun a => assessed_id a ∈ known /\ id_ok (assessed_id a) = true) values.

(** What one declaration contributes. *)
Definition out_of (n : list (string * A)) (d : D) : list A :=
  match dict_get (decl_id d) n with
  | Some a => [a]
  | None => if decl_required d then [mk (decl_id d) UNKNOWN []] else []
  end.
Definition gap_of (n : list (string * A)) (d : D) : bool :=
  decl_required d &&
  match dict_get (decl_id d) n with
  | Some a => negb (bool_decide (status a = SATISFIED))
  | None => true
  end.
Definition issue_of (n : list (string * A)) (d : D) : list CompletionIssue :=
  if gap_of n d then
    match dict_get (decl_id d) n with
    | None => [MkIssue unknown_code (Some (decl_id d)) [] missing_summary]
    | Some a =>
        if bool_decide (status a = UNSATISFIED)
        then [MkIssue unsatisfied_code (Some (decl_id d)) (_normalize_evidence (assessed_evidence a)) unsatisfied_summary]
        else [MkIssue unknown_code (Some (decl_id d)) (_normalize_evidence (assessed_evidence a)) unknown_summary]
    end
  else [].

#[local] Abbreviation NORM := (normalize_assessments assessed_id status assessed_evidence make).
#[local] Abbreviation STEP := (assess_step decl_id decl_required status assessed_evidence make
  unknown_code unsatisfied_code missing_summary unsatisfied_summary unknown_summary).
#[local] Abbreviation LOOP := (assess_loop decl_id decl_required status assessed_evidence make
  unknown_code unsatisfied_code missing_summary unsatisfied_summary unknown_summary).

Lemma normalize_cons known acc x values n :
  NORM known acc (x :: values) = Ok n <->
  (assessed_id x ∈ known) /\ (assessed_id x ∉ dict_keys acc) /\ id_ok (assessed_id x) = true /\
  NORM known (acc ++ [(assessed_id x, normal x)]) values = Ok n.
Proof using make_Ok.
  clear summaries_short mk_status.
  cbn [normalize_assessments]. rewrite res_bind_Ok. setoid_rewrite ce_raise_if_Ok.
  setoid_rewrite negb_false_iff. setoid_rewrite str_in_true. split.
  - intros (_ & Hin & H). apply res_bind_Ok in H as (? & Hf%ce_raise_if_Ok%str_in_false & H).
    apply res_bind_Ok in H as (a & [Hi ->]%make_Ok & H). fold (normal x) in H.
    by rewrite dict_set_fresh in H.
  - intros (Hin & Hf & Hi & H). exists tt. split; [done|].
    apply str_in_false in Hf as Hf'. rewrite Hf'. cbn [ce_raise_if raise_if res_bind].
    rewrite (proj2 (make_Ok _ _ _ (normal x))) by done. cbn [res_bind]. by rewrite dict_set_fresh.
Qed.

Lemma normalize_assessments_acc known acc values n :
  NORM known acc values = Ok n <->
  NoDup (assessed_id <$> values) /\ Forall (fun a => assessed_id a ∉ dict_keys acc) values /\
  Forall (fun a => assessed_id a ∈ known /\ id_ok (assessed_id a) = true) values /\
  n = acc ++ index values.
Proof using make_Ok.
  clear summaries_short mk_status.
  revert acc. induction values as [|x values IH]; intros acc.
  { simpl. rewrite app_nil_r. split; [intros [= <-]|intros (_ & _ & _ & ->)]; [|done].
    split_and!; [constructor..|done]. }
  rewrite normalize_cons, IH, !Forall_cons, fmap_cons, NoDup_cons.
  rewrite <-(assoc_L (++)). change ([(assessed_id x, normal x)] ++ index values) with (index (x :: values)).
  assert (Forall (fun a => assessed_id a ∉ dict_keys (acc ++ [(assessed_id x, normal x)])) values <->
    Forall (fun a => assessed_id a ∉ dict_keys acc) values /\ assessed_id x ∉ (assessed_id <$> values)) as Hk.
  { unfold dict_keys. rewrite fmap_app. rewrite !Forall_forall. split.
    - intros H. split; [intros y Hy ?; apply (H y Hy); set_solver|].
      intros (y & E & Hy)%list_elem_of_fmap. apply (H y Hy). rewrite E. set_solver.
    - intros [H1 H2] y Hy [Hin|Hin]%elem_of_app; [by apply (H1 y Hy)|].
      apply H2. apply list_elem_of_singleton in Hin. simpl in Hin. rewrite <-Hin. by apply list_elem_of_fmap_2. }
  rewrite Hk. tauto.
Qed.

Lemma normalize_assessments_Ok known values n :
  NORM known [] values = Ok n <-> assessments_valid known values /\ n = index values.
Proof using make_Ok.
  clear summaries_short mk_status.
  rewrite normalize_assessments_acc. unfold assessments_valid. simpl.
  assert (Forall (fun a => assessed_id a ∉ dict_keys (@nil (string * A))) values) by
    (rewrite Forall_forall; set_solver).
  tauto.
Qed.

Lemma index_keys values : dict_keys (index values) = assessed_id <$> values.
Proof. unfold dict_keys, index. by rewrite <-list_fmap_compose. Qed.

Lemma assess_step_Ok n d out iss gap st :
  STEP n d (out, iss, gap) = Ok st <->
  (gap_of n d = true -> id_ok (decl_id d) = true) /\
  st = (out ++ out_of n d, iss ++ issue_of n d, gap || gap_of n d).
Proof using make_Ok summaries_short.
  clear mk_status assessed_id.
  destruct summaries_short as (H1 & H2 & H3).
  unfold assess_step, out_of, issue_of, gap_of.
  destruct (dict_get (decl_id d) n) as [a|].
  - destruct (decl_required d); simpl.
    2: { rewrite app_nil_r, orb_false_r. naive_solver. }
    destruct (status a) eqn:E; simpl; rewrite ?app_nil_r, ?orb_false_r, ?orb_true_r.
    + naive_solver.
    + rewrite res_bind_Ok. setoid_rewrite assessment_issue_Ok; [|done]. naive_solver.
    + rewrite res_bind_Ok. setoid_rewrite assessment_issue_Ok; [|done]. naive_solver.
  - destruct (decl_required d); simpl.
    2: { rewrite !app_nil_r, orb_false_r. naive_solver. }
    rewrite orb_true_r, res_bind_Ok. setoid_rewrite res_bind_Ok. setoid_rewrite make_Ok.
    setoid_rewrite assessment_issue_Ok; [|done]. naive_solver.
Qed.

Definition gaps_named (n : list (string * A)) (decls : list D) : Prop :=
  Forall (fun d => gap_of n d = true -> id_ok (decl_id d) = true) decls.

Lemma assess_loop_Ok n decls out iss gap st :
  LOOP n decls (out, iss, gap) = Ok st <->
  gaps_named n decls /\
  st = (out ++ (decls ≫= out_of n), iss ++ (decls ≫= issue_of n), gap || existsb (gap_of n) decls).
Proof using make_Ok summaries_short.
  clear mk_status assessed_id.
  unfold gaps_named. revert out iss gap. induction decls as [|d decls IH]; intros out iss gap.
  { simpl. rewrite !app_nil_r, orb_false_r. split; [intros [= <-]; by split; [constructor|]|by intros [_ ->]]. }
  cbn [assess_loop]. rewrite res_bind_Ok, Forall_cons, !bind_cons. cbn [existsb].
  rewrite !(assoc_L (++)), orb_assoc. split.
  - intros (st' & [Hg ->]%assess_step_Ok & [Hgs ->]%IH). done.
  - intros [[Hg Hgs] ->]. eexists. split; [by apply assess_step_Ok|]. by apply IH.
Qed.

(** Declarations whose ids are accepted never make the loop raise. *)
Lemma gaps_named_ok n decls : Forall (fun d => id_ok (decl_id d) = true) decls -> gaps_named n decls.
Proof. intros H. eapply Forall_impl; [exact H|done]. Qed.

Lemma gap_issue n d : issue_of n d = [] <-> gap_of n d = false.
Proof.
  unfold issue_of. destruct (gap_of n d); [|done].
  destruct (dict_get _ _); [case_bool_decide|]; split; done.
Qed.

Lemma no_gap_no_issue n decls : (decls ≫= issue_of n) = [] <-> existsb (gap_of n) decls = false.
Proof.
  induction decls as [|d decls IH]; [done|]. rewrite bind_cons. cbn [existsb].
  rewrite app_nil, orb_false_iff, gap_issue, IH. done.
Qed.

(** There is no gap iff every required declaration has a satisfied assessment. *)
Lemma no_gap_iff values decls : NoDup (assessed_id <$> values) ->
  existsb (gap_of (index values)) decls = false <->
  forall d, d ∈ decls -> decl_required d = true ->
    exists a, a ∈ values /\ assessed_id a = decl_id d /\ status a = SATISFIED.
Proof using mk_status.
  clear summaries_short make_Ok.
  intros Hnd. rewrite existsb_false. rewrite Forall_forall. apply forall_proper. intros d.
  apply forall_proper. intros _. unfold gap_of.
  destruct (decl_required d); simpl; [|naive_solver].
  destruct (dict_get (decl_id d) (index values)) as [a|] eqn:E.
  - rewrite negb_false_iff, bool_decide_eq_true.
    apply dict_get_Some, list_elem_of_fmap in E as (x & [= E1 ->] & Hx).
    unfold normal. rewrite mk_status. split.
    + intros Hs _. exists x. done.
    + intros H. destruct (H eq_refl) as (y & Hy & Ey & Hs).
      by rewrite (nodup_key_inj assessed_id values x y) by (done || by apply has_duplicates_false || congruence).
  - split; [done|]. intros H. destruct (H eq_refl) as (y & Hy & Ey & _).
    apply dict_get_None in E. rewrite index_keys in E. destruct E. rewrite <-Ey. by apply list_elem_of_fmap_2.
Qed.

Lemma index_perm values values' d :
  values ≡ₚ values' -> NoDup (assessed_id <$> values) ->
  dict_get d (index values) = dict_get d (index values').
Proof.
  intros Hp Hnd. apply dict_get_perm; [by rewrite index_keys|]. unfold index. by rewrite Hp.
Qed.

Lemma assessments_valid_perm known values values' :
  values ≡ₚ values' -> assessments_valid known values -> assessments_valid known values'.
Proof. unfold assessments_valid. intros Hp. by rewrite Hp. Qed.
End LoopSpec.

(** ** The evaluation, declaratively *)
Definition req_index (f : Facts) : list (string * RequirementAssessment) :=
  index ra_requirement_id ra_status ra_evidence MkReqAssessment (f_requirements f).
Definition crit_index (f : Facts) : list (string * CriterionAssessment) :=
  index ca_criterion_id ca_status ca_evidence MkCritAssessment (f_criteria f).

Definition req_gap : list (string * RequirementAssessment) -> GoalRequirement -> bool :=
  gap_of requirement_id req_required ra_status.
Definition crit_gap : list (string * CriterionAssessment) -> AcceptanceCriterion -> bool :=
  gap_of criterion_id crit_required ca_status.
Definition req_out : list (string * RequirementAssessment) -> GoalRequirement -> list RequirementAssessment :=
  out_of requirement_id req_required MkReqAssessment.
Definition crit_out : list (string * CriterionAssessment) -> AcceptanceCriterion -> list CriterionAssessment :=
  out_of criterion_id crit_required MkCritAssessment.
Definition req_issue : list (string * RequirementAssessment) -> GoalRequirement -> list CompletionIssue :=
  issue_of requirement_id req_required ra_status ra_evidence REQUIREMENT_UNKNOWN REQUIREMENT_UNSATISFIED
    "Required requirement has no assessment." "Required requirement is unsatisfied."
    "Required requirement assessment is unknown.".
Definition crit_issue : list (string * CriterionAssessment) -> AcceptanceCriterion -> list CompletionIssue :=
  issue_of criterion_id crit_required ca_status ca_evidence CRITERION_UNKNOWN CRITERION_UNSATISFIED
    "Required acceptance criterion has no assessment." "Required acceptance criterion is unsatisfied."
    "Required acceptance criterion assessment is unknown.".

Definition normal_constraint (c : CompletionConstraint) : CompletionConstraint :=
  MkConstraint (cc_code c) (cc_subject_id c) (_normalize_evidence (cc_evidence c)).
Definition normal_constraints (f : Facts) : list CompletionConstraint :=
  sorted_by _constraint_sort_key (normal_constraint <$> f_constraints f).
Definition issue_of_constraint (c : CompletionConstraint) : CompletionIssue :=
  MkIssue (_CONSTRAINT_ISSUE_CODES (cc_code c)) (cc_subject_id c) (cc_evidence c)
    (_CONSTRAINT_SUMMARIES (cc_code c)).

Definition sorted_reqs (g : GoalSpec) := sorted_by requirement_id (requirements g).
Definition sorted_crits (g : GoalSpec) := sorted_by criterion_id (acceptance_criteria g).

Definition required_gap (g : GoalSpec) (f : Facts) : bool :=
  existsb (req_gap (req_index f)) (sorted_reqs g) || existsb (crit_gap (crit_index f)) (sorted_crits g).

(** The decision body an evaluation must produce. *)
Definition expected_body (g : GoalSpec) (snap : CompletionEvaluationSnapshot) (f : Facts) : DecisionBody :=
  MkBody COMPLETION_DECISION_SCHEMA_VERSION (snap_task_id snap) (snap_goal_spec_id snap)
    (snap_goal_spec_digest snap) (snap_cognitive_state snap) (snap_control_state_version snap)
    (snap_task_status snap) (snap_workspace_id snap)
    (select_outcome (required_gap g f) (normal_constraints f))
    (sorted_reqs g ≫= req_out (req_index f)) (sorted_crits g ≫= crit_out (crit_index f))
    (_normalize_evidence (f_evidence f))
    (sorted_by _issue_sort_key
      (((sorted_reqs g ≫= req_issue (req_index f)) ++ (sorted_crits g ≫= crit_issue (crit_index f)))
       ++ (issue_of_constraint <$> normal_constraints f))).

(** The inputs [evaluate] does not refuse before it builds the decision. *)
Definition inputs_accepted (id : string) (g : GoalSpec) (snap : CompletionEvaluationSnapshot)
    (f : Facts) : Prop :=
  id_ok id = true /\ snap_goal_spec_id snap = Goal.goal_spec_id g /\
  snap_goal_spec_digest snap = semantic_digest g /\
  assessments_valid ra_requirement_id (requirement_id <$> requirements g) (f_requirements f) /\
  assessments_valid ca_criterion_id (criterion_id <$> acceptance_criteria g) (f_criteria f) /\
  Forall (fun c => opt_id_ok (cc_subject_id c) = true) (f_constraints f) /\
  gaps_named requirement_id req_required ra_status (req_index f) (sorted_reqs g) /\
  gaps_named criterion_id crit_required ca_status (crit_index f) (sorted_crits g).

Lemma normalize_constraints_Ok cs ns :
  _normalize_constraints cs = Ok ns <->
  Forall (fun c => opt_id_ok (cc_subject_id c) = true) cs /\
  ns = sorted_by _constraint_sort_key (normal_constraint <$> cs).
Proof.
  unfold _normalize_constraints. rewrite res_bind_Ok. setoid_rewrite res_map_Ok.
  assert (forall l, Forall2 (fun x y => make_constraint (cc_code x) (cc_subject_id x)
      (_normalize_evidence (cc_evidence x)) = Ok y) cs l <->
    Forall (fun c => opt_id_ok (cc_subject_id c) = true) cs /\ l = normal_constraint <$> cs) as Hf.
  { induction cs as [|c cs IH]; intros l.
    - split; [intros ->%Forall2_nil_inv_l; by split; [constructor|]|intros [_ ->]; constructor].
    - rewrite Forall_cons, fmap_cons. split.
      + intros (y & l' & [Hc ->]%make_constraint_Ok & [? ->]%IH & ->)%Forall2_cons_inv_l. done.
      + intros [[Hc Hcs] ->]. constructor; [by apply make_constraint_Ok|by apply IH]. }
  setoid_rewrite Hf. naive_solver.
Qed.

Lemma constraint_issues_Ok cs is_ :
  Forall (fun c => opt_id_ok (cc_subject_id c) = true) cs ->
  res_map constraint_issue cs = Ok is_ <-> is_ = issue_of_constraint <$> cs.
Proof.
  intros Hcs. rewrite res_map_Ok. revert is_. induction Hcs as [|c cs Hc Hcs IH]; intros is_.
  - split; [by intros ->%Forall2_nil_inv_l|intros ->; constructor].
  - assert (forall i, constraint_issue c = Ok i <-> i = issue_of_constraint c) as Hi.
    { intros i. unfold constraint_issue. rewrite make_issue_Ok. split; [naive_solver|].
      intros ->. split_and!; [done| |done]. destruct (cc_code c); vm_compute; discriminate. }
    rewrite fmap_cons. split.
    + by intros (y & l' & ->%Hi & ->%IH & ->)%Forall2_cons_inv_l.
    + intros ->. constructor; [by apply Hi|by apply IH].
Qed.

Lemma normal_constraints_subjects f :
  Forall (fun c => opt_id_ok (cc_subject_id c) = true) (f_constraints f) ->
  Forall (fun c => opt_id_ok (cc_subject_id c) = true) (normal_constraints f).
Proof.
  intros H. unfold normal_constraints. apply Forall_sorted_by, Forall_fmap.
  eapply Forall_impl; [exact H|]. done.
Qed.

Lemma requirement_loop_Ok g n iss gap st :
  requirement_loop g n ([], iss, gap) = Ok st <->
  gaps_named requirement_id req_required ra_status n (sorted_reqs g) /\
  st = (sorted_reqs g ≫= req_out n, iss ++ (sorted_reqs g ≫= req_issue n),
        gap || existsb (req_gap n) (sorted_reqs g)).
Proof.
  unfold requirement_loop.
  rewrite (assess_loop_Ok _ _ ra_status ra_evidence _ MkReqAssessment); [done| |by vm_compute].
  apply make_requirement_assessment_Ok.
Qed.

Lemma criterion_loop_Ok g n iss gap st :
  criterion_loop g n ([], iss, gap) = Ok st <->
  gaps_named criterion_id crit_required ca_status n (sorted_crits g) /\
  st = (sorted_crits g ≫= crit_out n, iss ++ (sorted_crits g ≫= crit_issue n),
        gap || existsb (crit_gap n) (sorted_crits g)).
Proof.
  unfold criterion_loop.
  rewrite (assess_loop_Ok _ _ ca_status ca_evidence _ MkCritAssessment); [done| |by vm_compute].
  apply make_criterion_assessment_Ok.
Qed.

Lemma evaluate_body_Ok id g snap f raw :
  evaluate_body id g snap f = Ok raw <->
  inputs_accepted id g snap f /\ raw = raw_of (expected_body g snap f).
Proof.
  unfold evaluate_body, inputs_accepted, _normalize_requirement_assessments,
    _normalize_criterion_assessments. split.
  - intros H. apply res_bind_Ok in H as (? & [_ Hid]%ce_text_Ok & H).
    apply res_bind_Ok in H as (? & Hg%ce_raise_if_Ok%negb_false_iff%bool_decide_eq_true & H).
    apply res_bind_Ok in H as (? & Hd%ce_raise_if_Ok%negb_false_iff%bool_decide_eq_true & H).
    apply res_bind_Ok in H as (nr & [Hr ->]%(normalize_assessments_Ok _ _ _ _ _ make_requirement_assessment_Ok) & H).
    apply res_bind_Ok in H as (nc & [Hc ->]%(normalize_assessments_Ok _ _ _ _ _ make_criterion_assessment_Ok) & H).
    apply res_bind_Ok in H as (ns & [Hs ->]%normalize_constraints_Ok & H).
    apply res_bind_Ok in H as (st1 & [Hg1 ->]%requirement_loop_Ok & H).
    apply res_bind_Ok in H as (st2 & [Hg2 ->]%criterion_loop_Ok & H).
    apply res_bind_Ok in H as (is_ & Hi & [= <-]).
    apply constraint_issues_Ok in Hi as ->; [|by apply (normal_constraints_subjects f)]. done.
  - intros [(Hid & Hg & Hd & Hr & Hc & Hs & Hg1 & Hg2) ->].
    rewrite (proj2 (ce_text_Ok id _ id)) by done. rewrite Hg, Hd, !bool_decide_true by done.
    cbn [negb ce_raise_if raise_if res_bind].
    rewrite (proj2 (normalize_assessments_Ok _ _ _ _ _ make_requirement_assessment_Ok _ _ (req_index f))) by done.
    rewrite (proj2 (normalize_assessments_Ok _ _ _ _ _ make_criterion_assessment_Ok _ _ (crit_index f))) by done.
    rewrite (proj2 (normalize_constraints_Ok _ (normal_constraints f))) by done. cbn [res_bind].
    rewrite (proj2 (requirement_loop_Ok _ _ _ _ _) (conj Hg1 eq_refl)). cbn [res_bind].
    rewrite (proj2 (criterion_loop_Ok _ _ _ _ _) (conj Hg2 eq_refl)). cbn [res_bind].
    rewrite (proj2 (constraint_issues_Ok _ _ (normal_constraints_subjects f Hs)) eq_refl). cbn [res_bind].
    unfold raw_of, expected_body. cbn [schema_version task_id goal_spec_id goal_spec_digest cognitive_state
      control_state_version task_status_at_evaluation workspace_id outcome requirement_assessments
      criterion_assessments evidence issues]. by rewrite <-Hg, <-Hd.
Qed.

Lemma decision_from_parts_Ok id b d :
  decision_from_parts (PStr id) (raw_of b) = Ok d <->
  d = MkDecision id b (decision_digest d) /\ id_ok id = true /\ body_ok b = true /\
  canonical_digest (PDict (_semantic_payload b)) = Ok (decision_digest d).
Proof.
  unfold decision_from_parts. split.
  - intros H. apply res_bind_Ok in H as (x & Hx & H).
    apply make_decision_Ok in H as ([= ->] & Hr & [= ->] & Hi & Hb & Hd).
    assert (b = dec_body d) as ->.
    { destruct b as [? ? ? ? ? ? ? w], (dec_body d) as [? ? ? ? ? ? ? w'].
      injection Hr as -> -> -> -> -> -> -> Hw -> -> -> -> ->. f_equal. destruct w, w'; simpl in Hw; congruence. }
    by destruct d.
  - intros (E & Hi & Hb & Hd). rewrite compute_digest_raw, Hd by done. cbn [res_bind].
    apply make_decision_Ok. by rewrite E.
Qed.

(** [evaluate] computes the reference decision, and nothing else. *)
Lemma evaluate_Ok id g snap f d :
  evaluate id g snap f = Ok d <->
  inputs_accepted id g snap f /\ body_ok (expected_body g snap f) = true /\
  d = MkDecision id (expected_body g snap f) (decision_digest d) /\
  canonical_digest (PDict (_semantic_payload (expected_body g snap f))) = Ok (decision_digest d).
Proof.
  unfold evaluate. rewrite res_bind_Ok. setoid_rewrite evaluate_body_Ok. split.
  - intros (raw & [Hin ->] & H). apply try_except_reraise in H; [|done].
    apply decision_from_parts_Ok in H as (E & Hi & Hb & Hd). done.
  - intros (Hin & Hb & E & Hd). eexists. split; [done|]. apply try_except_Ok, decision_from_parts_Ok.
    split_and!; [done|apply Hin|done..].
Qed.

(** ** Well-formed inputs *)
Definition snapshot_ok (s : CompletionEvaluationSnapshot) : Prop :=
  make_snapshot (snap_task_id s) (snap_goal_spec_id s) (snap_goal_spec_digest s)
    (snap_cognitive_state s) (snap_control_state_version s) (snap_task_status s)
    (snap_workspace_id s) = Ok s.

Lemma snapshot_ok_fields s : snapshot_ok s ->
  id_ok (snap_task_id s) = true /\ id_ok (snap_goal_spec_id s) = true /\
  0 <= snap_control_state_version s /\ id_ok (snap_task_status s) = true /\
  opt_id_ok (snap_workspace_id s) = true.
Proof.
  unfold snapshot_ok, make_snapshot. intros H.
  apply res_bind_Ok in H as (? & [_ X1]%ce_text_Ok & H).
  apply res_bind_Ok in H as (? & [_ X2]%ce_text_Ok & H).
  apply res_bind_Ok in H as (? & _ & H). apply res_bind_Ok in H as (? & Hv%ce_raise_if_Ok & H).
  apply res_bind_Ok in H as (? & [_ X3]%ce_text_Ok & H).
  apply res_bind_Ok in H as (? & [_ X4]%require_optional_text_Ok & H).
  split_and!; [done..|lia|done|done].
Qed.

(** The output of a loop lists each declaration at most once. *)
Lemma out_of_ids {D A} (decl_id : D -> string) req (aid : A -> string) st ev mk values (decls : list D) :
  (forall i s e, aid (mk i s e) = i) -> NoDup (decl_id <$> decls) ->
  has_duplicates (aid <$> (decls ≫= out_of decl_id req mk (index aid st ev mk values))) = false.
Proof.
  intros Hmk Hnd. apply has_duplicates_false.
  assert (forall d a, a ∈ out_of decl_id req mk (index aid st ev mk values) d -> aid a = decl_id d) as Hid.
  { intros d a. unfold out_of. destruct (dict_get _ _) eqn:E.
    - intros ->%list_elem_of_singleton.
      apply dict_get_Some, list_elem_of_fmap in E as (x & [= -> ->] & _). apply Hmk.
    - destruct (req d); [|set_solver]. intros ->%list_elem_of_singleton. apply Hmk. }
  induction decls as [|d decls IH]; [constructor|].
  rewrite fmap_cons, NoDup_cons in Hnd. destruct Hnd as [Hd Hnd]. rewrite bind_cons, fmap_app.
  apply NoDup_app. split_and!; [| |by apply IH].
  - unfold out_of. destruct (dict_get _ _); [apply NoDup_singleton|].
    destruct (req d); [apply NoDup_singleton|constructor].
  - intros x (a & -> & Ha)%list_elem_of_fmap (b & E & Hb)%list_elem_of_fmap.
    apply list_elem_of_bind in Hb as (d' & Hb & Hd'). destruct Hd.
    rewrite <-(Hid _ _ Ha), E, (Hid _ _ Hb). by apply list_elem_of_fmap_2.
Qed.

Lemma expected_body_ok id g snap f :
  goal_ok g -> snapshot_ok snap -> inputs_accepted id g snap f ->
  body_ok (expected_body g snap f) = true.
Proof.
  intros (Hr & Hc & Hx)%goal_ok_ids (H1 & H2 & H3 & H4 & H5)%snapshot_ok_fields Hin.
  destruct Hin as (_ & _ & Hd & _). unfold body_ok, expected_body.
  cbn -[id_ok is_sha256_hex]. rewrite H1, H2, Hd, Hx, H4, H5. simpl.
  replace (0 <=? snap_control_state_version snap) with true by lia.
  unfold req_out, crit_out, req_index, crit_index.
  rewrite !out_of_ids; [done|done| |done|].
  - by apply sorted_by_nodup.
  - by apply sorted_by_nodup.
Qed.

(** ** Outcome of an evaluation *)
Lemma has_code_true codes cs :
  has_code codes cs = true <-> exists c, c ∈ cs /\ cc_code c ∈ codes.
Proof.
  unfold has_code. rewrite existsb_true. setoid_rewrite bool_decide_eq_true. done.
Qed.

(** Normalisation changes neither the codes nor whether there are any. *)
Lemma has_code_normal codes f : has_code codes (normal_constraints f) = has_code codes (f_constraints f).
Proof.
  apply Bool.eq_iff_eq_true. rewrite !has_code_true. unfold normal_constraints.
  setoid_rewrite elem_of_sorted_by. setoid_rewrite list_elem_of_fmap. split.
  - intros (c & (x & -> & Hx) & Hc). by exists x.
  - intros (c & Hc & Hin). exists (normal_constraint c). split; [by exists c|done].
Qed.

Lemma every_code_listed c :
  c ∈ [C_UNRECOVERABLE_FAILURE] \/ c ∈ [C_EXTERNAL_BLOCKER] \/ c ∈ _REPLAN_CONSTRAINTS.
Proof. unfold _REPLAN_CONSTRAINTS. destruct c; set_solver. Qed.

Lemma select_complete gap cs : select_outcome gap cs = COMPLETE <-> gap = false /\ cs = [].
Proof.
  unfold select_outcome. split; [|by intros [-> ->]].
  destruct (has_code [C_UNRECOVERABLE_FAILURE] cs) eqn:E1; [done|].
  destruct (has_code [C_EXTERNAL_BLOCKER] cs) eqn:E2; [done|].
  destruct (gap || has_code _REPLAN_CONSTRAINTS cs) eqn:E3; [done|]. intros _.
  apply orb_false_iff in E3 as [-> E3]. split; [done|]. destruct cs as [|c cs]; [done|]. exfalso.
  assert (c ∈ c :: cs) as Hc by left.
  destruct (every_code_listed (cc_code c)) as [H|[H|H]].
  - by rewrite (proj2 (has_code_true _ _) (ex_intro _ c (conj Hc H))) in E1.
  - by rewrite (proj2 (has_code_true _ _) (ex_intro _ c (conj Hc H))) in E2.
  - by rewrite (proj2 (has_code_true _ _) (ex_intro _ c (conj Hc H))) in E3.
Qed.

Lemma normal_constraints_nil f : normal_constraints f = [] <-> f_constraints f = [].
Proof.
  unfold normal_constraints. split.
  - intros E. apply sorted_by_nil_inv, fmap_nil_inv in E. done.
  - by intros ->.
Qed.

(** Every required declaration has a satisfied assessment among the facts. *)
Definition all_required_satisfied (g : GoalSpec) (f : Facts) : Prop :=
  (forall r, r ∈ requirements g -> req_required r = true ->
     exists a, a ∈ f_requirements f /\ ra_requirement_id a = requirement_id r /\ ra_status a = SATISFIED) /\
  (forall c, c ∈ acceptance_criteria g -> crit_required c = true ->
     exists a, a ∈ f_criteria f /\ ca_criterion_id a = criterion_id c /\ ca_status a = SATISFIED).

Lemma required_gap_iff id g snap f : inputs_accepted id g snap f ->
  required_gap g f = false <-> all_required_satisfied g f.
Proof.
  intros (_ & _ & _ & [Hr _] & [Hc _] & _). unfold required_gap, all_required_satisfied.
  rewrite orb_false_iff. unfold req_gap, crit_gap, req_index, crit_index.
  rewrite !no_gap_iff by done. unfold sorted_reqs, sorted_crits.
  setoid_rewrite elem_of_sorted_by. done.
Qed.

Lemma expected_issues_nil g snap f :
  issues (expected_body g snap f) = [] <-> required_gap g f = false /\ f_constraints f = [].
Proof.
  cbn [issues expected_body]. rewrite <-normal_constraints_nil. unfold required_gap. split.
  - intros E%sorted_by_nil_inv. apply app_nil in E as [E E3]. apply app_nil in E as [E1 E2].
    apply no_gap_no_issue in E1, E2. apply fmap_nil_inv in E3. rewrite E3. split; [|done].
    by apply orb_false_iff.
  - intros [[E1 E2]%orb_false_iff E3]. rewrite E3.
    apply no_gap_no_issue with (assessed_evidence := ra_evidence) (unknown_code := REQUIREMENT_UNKNOWN)
      (unsatisfied_code := REQUIREMENT_UNSATISFIED)
      (missing_summary := "Required requirement has no assessment.")
      (unsatisfied_summary := "Required requirement is unsatisfied.")
      (unknown_summary := "Required requirement assessment is unknown.") in E1.
    apply no_gap_no_issue with (assessed_evidence := ca_evidence) (unknown_code := CRITERION_UNKNOWN)
      (unsatisfied_code := CRITERION_UNSATISFIED)
      (missing_summary := "Required acceptance criterion has no assessment.")
      (unsatisfied_summary := "Required acceptance criterion is unsatisfied.")
      (unknown_summary := "Required acceptance criterion assessment is unknown.") in E2.
    unfold req_issue, crit_issue. by rewrite E1, E2.
Qed.

(** C2. Soundness and completeness of COMPLETE: an evaluation yields COMPLETE
    exactly when no constraint is present and every required requirement and
    criterion of the goal has a SATISFIED assessment, which is exactly when the
    decision carries no issue; FAILED and BLOCKED are reserved for the two
    fatal constraints, FAILED first; everything else is REPLAN. *)
Theorem evaluate_outcome_spec id g snap f d :
  evaluate id g snap f = Ok d ->
  (outcome (dec_body d) = COMPLETE <-> f_constraints f = [] /\ all_required_satisfied g f) /\
  (outcome (dec_body d) = COMPLETE <-> issues (dec_body d) = []) /\
  (outcome (dec_body d) = FAILED <-> exists c, c ∈ f_constraints f /\ cc_code c = C_UNRECOVERABLE_FAILURE) /\
  (outcome (dec_body d) = BLOCKED <->
     (exists c, c ∈ f_constraints f /\ cc_code c = C_EXTERNAL_BLOCKER) /\
     ~ exists c, c ∈ f_constraints f /\ cc_code c = C_UNRECOVERABLE_FAILURE).
Proof.
  intros (Hin & _ & -> & _)%evaluate_Ok. cbn [dec_body].
  rewrite expected_issues_nil, <-(required_gap_iff _ _ _ _ Hin). cbn [outcome expected_body].
  rewrite select_complete, normal_constraints_nil.
  assert (forall k, has_code [k] (normal_constraints f) = true <->
    exists c, c ∈ f_constraints f /\ cc_code c = k) as Hk.
  { intros k. rewrite has_code_normal, has_code_true. by setoid_rewrite list_elem_of_singleton. }
  rewrite <-!Hk. unfold select_outcome. split_and!; [tauto|tauto|..];
    destruct (has_code [C_UNRECOVERABLE_FAILURE] (normal_constraints f)),
      (has_code [C_EXTERNAL_BLOCKER] (normal_constraints f)),
      (required_gap g f || has_code _REPLAN_CONSTRAINTS (normal_constraints f)); clear; naive_solver.
Qed.

(** The text the digest covers. *)
Definition expected_text (g : GoalSpec) (snap : CompletionEvaluationSnapshot) (f : Facts) : string :=
  dumpsc (PDict (_semantic_payload (expected_body g snap f))).

Lemma evaluate_accepted id g snap f :
  goal_ok g -> snapshot_ok snap -> inputs_accepted id g snap f ->
  evaluate id g snap f
  = if has_surrogate (expected_text g snap f)
    then ce_error "evaluation facts cannot produce a valid CompletionDecision"
    else Ok (MkDecision id (expected_body g snap f) (sha256_hexdigest (expected_text g snap f))).
Proof.
  intros Hg Hs Hin. pose proof (expected_body_ok _ _ _ _ Hg Hs Hin) as Hb.
  pose proof (payload_plain (expected_body g snap f)) as Hp.
  destruct (has_surrogate (expected_text g snap f)) eqn:E.
  - unfold evaluate. rewrite (proj2 (evaluate_body_Ok _ _ _ _ _) (conj Hin eq_refl)). cbn [res_bind].
    unfold decision_from_parts. rewrite compute_digest_raw by done. unfold canonical_digest.
    rewrite canonical_json_bytes_cases by done. fold (expected_text g snap f). by rewrite E.
  - apply evaluate_Ok. split_and!; try done. unfold canonical_digest.
    rewrite canonical_json_bytes_cases by done. fold (expected_text g snap f). by rewrite E.
Qed.

(** C32. [evaluate] is the reference function: on a valid goal and snapshot it
    returns the declaratively specified decision (or refuses text that cannot be
    serialised), and inputs it does not accept always raise. *)
Theorem evaluate_refines_reference id g snap f :
  goal_ok g -> snapshot_ok snap ->
  (inputs_accepted id g snap f ->
     evaluate id g snap f
     = if has_surrogate (expected_text g snap f)
       then ce_error "evaluation facts cannot produce a valid CompletionDecision"
       else Ok (MkDecision id (expected_body g snap f) (sha256_hexdigest (expected_text g snap f)))) /\
  (~ inputs_accepted id g snap f -> exists e, evaluate id g snap f = Raise e).
Proof.
  intros Hg Hs. split; [by apply evaluate_accepted|].
  intros Hn. destruct (evaluate id g snap f) as [d|e] eqn:E; [|by exists e].
  apply evaluate_Ok in E as [? _]. done.
Qed.

(** ** Order of the facts *)
Definition facts_perm (f f' : Facts) : Prop :=
  f_requirements f ≡ₚ f_requirements f' /\ f_criteria f ≡ₚ f_criteria f' /\
  f_evidence f ≡ₚ f_evidence f' /\ f_constraints f ≡ₚ f_constraints f'.

(** Evidence references are objects of their type. *)
Definition facts_typed (f : Facts) : Prop :=
  forallb evidence_ok (f_evidence f) = true /\
  Forall (fun c => forallb evidence_ok (cc_evidence c) = true) (f_constraints f).

Lemma evidence_keys_inj l l' :
  forallb evidence_ok l = true -> forallb evidence_ok l' = true ->
  _evidence_sort_key <$> l = _evidence_sort_key <$> l' -> l = l'.
Proof.
  revert l'. induction l as [|x l IH]; intros [|y l'] Hl Hl' E; try done.
  cbn [forallb] in Hl, Hl'. apply andb_true_iff in Hl as [Hx Hl], Hl' as [Hy Hl'].
  rewrite !fmap_cons in E.
  assert (_evidence_sort_key x = _evidence_sort_key y /\
    _evidence_sort_key <$> l = _evidence_sort_key <$> l') as [Exy E'] by (split; congruence).
  f_equal; [by apply evidence_key_inj|by apply IH].
Qed.

Lemma constraint_key_inj c c' :
  opt_id_ok (cc_subject_id c) = true -> opt_id_ok (cc_subject_id c') = true ->
  forallb evidence_ok (cc_evidence c) = true -> forallb evidence_ok (cc_evidence c') = true ->
  _constraint_sort_key c = _constraint_sort_key c' -> c = c'.
Proof.
  destruct c as [k s e], c' as [k' s' e']. unfold _constraint_sort_key. cbn [cc_code cc_subject_id cc_evidence].
  intros Hs Hs' He He' [[Hk%(inj enum_value) Hsub]%pair_eq Hev]%pair_eq. subst k'. f_equal.
  - destruct s, s'; simpl in *; subst; done.
  - by apply evidence_keys_inj.
Qed.

Lemma normal_constraints_perm f f' :
  Forall (fun c => opt_id_ok (cc_subject_id c) = true) (f_constraints f) -> facts_typed f ->
  facts_perm f f' -> normal_constraints f = normal_constraints f'.
Proof.
  intros Hs [_ He] (_ & _ & _ & Hp). unfold normal_constraints. apply sorted_by_perm_eq; [|by rewrite Hp].
  rewrite Forall_forall in Hs. rewrite Forall_forall in He.
  intros x y (c & -> & Hc)%list_elem_of_fmap (c' & -> & Hc')%list_elem_of_fmap.
  apply constraint_key_inj; simpl; unfold _normalize_evidence; rewrite ?forallb_sorted; auto.
Qed.

Section Ext.
Context {D A : Type} (decl_id : D -> string) (req : D -> bool) (st : A -> AssessmentStatus)
  (ev : A -> list CompletionEvidenceRef) (n n' : list (string * A)).
Hypothesis Hn : forall k, dict_get k n = dict_get k n'.

Lemma gap_of_ext d : gap_of decl_id req st n d = gap_of decl_id req st n' d.
Proof. unfold gap_of. by rewrite Hn. Qed.

Lemma gaps_ext decls : existsb (gap_of decl_id req st n) decls = existsb (gap_of decl_id req st n') decls.
Proof. induction decls as [|d decls IH]; cbn [existsb]; [done|]. by rewrite gap_of_ext, IH. Qed.

Lemma gaps_named_ext decls : gaps_named decl_id req st n decls -> gaps_named decl_id req st n' decls.
Proof. intros H. eapply Forall_impl; [exact H|]. intros d Hd. cbn beta in *. by rewrite <-gap_of_ext. Qed.

Lemma out_of_ext mk decls : (decls ≫= out_of decl_id req mk n) = (decls ≫= out_of decl_id req mk n').
Proof.
  induction decls as [|d decls IH]; [done|]. rewrite !bind_cons, IH. f_equal. unfold out_of. by rewrite Hn.
Qed.

Lemma issue_of_ext c1 c2 m1 m2 m3 decls :
  (decls ≫= issue_of decl_id req st ev c1 c2 m1 m2 m3 n)
  = (decls ≫= issue_of decl_id req st ev c1 c2 m1 m2 m3 n').
Proof.
  induction decls as [|d decls IH]; [done|]. rewrite !bind_cons, IH. f_equal.
  unfold issue_of. by rewrite gap_of_ext, Hn.
Qed.
End Ext.

Lemma expected_body_perm id g snap f f' :
  inputs_accepted id g snap f -> facts_typed f -> facts_perm f f' ->
  inputs_accepted id g snap f' /\ expected_body g snap f = expected_body g snap f'.
Proof.
  intros (H1 & H2 & H3 & Hr & Hc & Hs & Hg1 & Hg2) Ht Hp.
  pose proof (normal_constraints_perm _ _ Hs Ht Hp) as Hnc. destruct Hp as (Pr & Pc & Pe & Ps).
  assert (forall k, dict_get k (req_index f) = dict_get k (req_index f')) as Er
    by (intros k; apply index_perm; [done|apply Hr]).
  assert (forall k, dict_get k (crit_index f) = dict_get k (crit_index f')) as Ec
    by (intros k; apply index_perm; [done|apply Hc]).
  split.
  - split_and!; try done.
    + by apply (assessments_valid_perm _ _ _ _ Pr).
    + by apply (assessments_valid_perm _ _ _ _ Pc).
    + by rewrite <-Ps.
    + by apply (gaps_named_ext _ _ _ _ _ Er).
    + by apply (gaps_named_ext _ _ _ _ _ Ec).
  - unfold expected_body, required_gap, req_gap, crit_gap, req_out, crit_out, req_issue, crit_issue.
    rewrite (gaps_ext _ _ _ _ _ Er), (gaps_ext _ _ _ _ _ Ec), (out_of_ext _ _ _ _ Er),
      (out_of_ext _ _ _ _ Ec), (issue_of_ext _ _ _ _ _ _ Er), (issue_of_ext _ _ _ _ _ _ Ec), Hnc.
    f_equal. apply evidence_sorted_perm; [apply Ht|done].
Qed.

(** Determinism: the order in which assessments, evidence and constraints
    are supplied does not matter; a permutation of accepted facts yields the
    very same decision, digest included. *)
Theorem evaluate_order_independent id g snap f f' d :
  facts_typed f -> facts_perm f f' -> evaluate id g snap f = Ok d -> evaluate id g snap f' = Ok d.
Proof.
  intros Ht Hp (Hin & Hb & E & Hd)%evaluate_Ok.
  destruct (expected_body_perm _ _ _ _ _ Hin Ht Hp) as [Hin' Eb].
  apply evaluate_Ok. by rewrite <-Eb.
Qed.

(** ** Constraints are negative-only *)
Definition outcome_rank (o : CompletionOutcome) : nat :=
  match o with COMPLETE => 0 | REPLAN => 1 | BLOCKED => 2 | FAILED => 3 end%nat.

(** Negative-only constraints: with the same assessments, adding constraints
    never moves the outcome towards COMPLETE in the order
    COMPLETE < REPLAN < BLOCKED < FAILED. *)
Theorem constraints_only_narrow id g snap f cs d d' :
  f_constraints f ⊆ cs ->
  evaluate id g snap f = Ok d ->
  evaluate id g snap (MkFacts (f_requirements f) (f_criteria f) (f_evidence f) cs) = Ok d' ->
  (outcome_rank (outcome (dec_body d)) <= outcome_rank (outcome (dec_body d')))%nat.
Proof.
  intros Hsub (_ & _ & -> & _)%evaluate_Ok (_ & _ & -> & _)%evaluate_Ok. cbn [dec_body outcome expected_body].
  set (f' := MkFacts _ _ _ _).
  change (required_gap g f') with (required_gap g f). unfold select_outcome. rewrite !has_code_normal.
  assert (forall k, has_code k (f_constraints f) = true -> has_code k (f_constraints f') = true) as Hm.
  { intros k. rewrite !has_code_true. intros (c & Hc & Hk). exists c. split; [by apply Hsub|done]. }
  pose proof (Hm [C_UNRECOVERABLE_FAILURE]) as M1. pose proof (Hm [C_EXTERNAL_BLOCKER]) as M2.
  pose proof (Hm _REPLAN_CONSTRAINTS) as M3.
  destruct (has_code [C_UNRECOVERABLE_FAILURE] (f_constraints f')),
    (has_code [C_EXTERNAL_BLOCKER] (f_constraints f')),
    (has_code _REPLAN_CONSTRAINTS (f_constraints f')),
    (has_code [C_UNRECOVERABLE_FAILURE] (f_constraints f)),
    (has_code [C_EXTERNAL_BLOCKER] (f_constraints f)),
    (has_code _REPLAN_CONSTRAINTS (f_constraints f)), (required_gap g f);
    try (simpl; lia); by (specialize (M1 eq_refl) || specialize (M2 eq_refl) || specialize (M3 eq_refl)).
Qed.

(** ** Concrete evaluations *)
Definition sample_snapshot : CompletionEvaluationSnapshot :=
  MkEvalSnapshot "t1" "g1" (semantic_digest sample_goal) COMPLETION_CHECK 4 "running" (Some "w1").
Definition done_facts (swap : bool) (cs : list CompletionConstraint) : Facts :=
  let e1 := MkEvidence CHANGESET "cs-1" None in
  let e2 := MkEvidence VERIFICATION_RUN "run-1" (Some "d") in
  let l := [MkReqAssessment "r1" SATISFIED [e2; e1]; MkReqAssessment "r2" UNKNOWN []] in
  MkFacts (if swap then reverse l else l) [MkCritAssessment "c1" SATISFIED [e2]]
    (if swap then [e1; e2] else [e2; e1]) cs.
Definition blocker : CompletionConstraint := MkConstraint C_EXTERNAL_BLOCKER (Some "ci") [].

Definition decided (cs : list CompletionConstraint) : CompletionDecision :=
  let f := done_facts false cs in
  MkDecision "d1" (expected_body sample_goal sample_snapshot f)
    (sha256_hexdigest (expected_text sample_goal sample_snapshot f)).

Lemma sample_snapshot_ok : snapshot_ok sample_snapshot.
Proof. vm_compute. reflexivity. Qed.

Lemma sample_inputs_accepted cs :
  Forall (fun c => opt_id_ok (cc_subject_id c) = true) cs ->
  inputs_accepted "d1" sample_goal sample_snapshot (done_facts false cs).
Proof.
  intros Hcs. split_and!; try done; repeat constructor; set_solver.
Qed.

Lemma evaluated_facts cs : cs = [] \/ cs = [blocker] ->
  evaluate "d1" sample_goal sample_snapshot (done_facts false cs) = Ok (decided cs).
Proof.
  intros Hcs. rewrite evaluate_accepted.
  - replace (has_surrogate _) with false by (destruct Hcs as [->| ->]; vm_compute; reflexivity). done.
  - exact sample_goal_ok.
  - exact sample_snapshot_ok.
  - apply sample_inputs_accepted. destruct Hcs as [->| ->]; repeat constructor.
Qed.

Example evaluate_outcome_spec_witness :
  outcome (dec_body (decided [])) = COMPLETE /\ all_required_satisfied sample_goal (done_facts false []).
Proof.
  destruct (evaluate_outcome_spec _ _ _ _ _ (evaluated_facts [] (or_introl eq_refl))) as (Hc & _).
  assert (outcome (dec_body (decided [])) = COMPLETE) as E by (vm_compute; reflexivity).
  split; [exact E|]. exact (proj2 (proj1 Hc E)).
Defined.

Example evaluate_refines_reference_witness :
  evaluate "d1" sample_goal sample_snapshot (done_facts false [])
  = if has_surrogate (expected_text sample_goal sample_snapshot (done_facts false []))
    then ce_error "evaluation facts cannot produce a valid CompletionDecision"
    else Ok (decided []).
Proof.
  exact (proj1 (evaluate_refines_reference "d1" sample_goal sample_snapshot (done_facts false [])
           sample_goal_ok sample_snapshot_ok) (sample_inputs_accepted [] (Forall_nil_2 _))).
Defined.

Example evaluate_order_independent_witness :
  evaluate "d1" sample_goal sample_snapshot (done_facts true []) = Ok (decided []).
Proof.
  apply (evaluate_order_independent "d1" sample_goal sample_snapshot (done_facts false [])).
  - split; [vm_compute; reflexivity|constructor].
  - split_and!; [apply perm_swap|reflexivity|apply perm_swap|reflexivity].
  - exact (evaluated_facts [] (or_introl eq_refl)).
Defined.

Example constraints_only_narrow_witness :
  (outcome_rank (outcome (dec_body (decided []))) <= outcome_rank (outcome (dec_body (decided [blocker]))))%nat.
Proof.
  apply (constraints_only_narrow "d1" sample_goal sample_snapshot (done_facts false []) [blocker]).
  - apply list_subseteq_nil.
  - exact (evaluated_facts [] (or_introl eq_refl)).
  - exact (evaluated_facts [blocker] (or_intror eq_refl)).
Defined.
