(* ===== verification/ControlDb.v ===== *)
(** * The control-plane tables ([db/schema.sql])

    The tables the agent control plane reads and writes.  [coding_tasks] is keyed
    by its primary key (see [CognitiveState]); the other tables are lists of rows
    in insertion order, with the uniqueness constraints of the schema enforced
    by [INSERT].  Columns have the type of their affinity. *)
From S2P Require Import Prelude PyStr Json CognitiveState.
Open Scope Z_scope.

(** [agent_goal_specs] *)
Record GoalRow := MkGoalRow {
  gr_goal_spec_id : string;
  gr_task_id : string;
  gr_principal_id : string;
  gr_project_id : string;
  gr_schema_version : Z;
  gr_semantic_digest : string;
  gr_canonical_json : string;
  gr_created_at : string
}.

(** [agent_completion_decisions] *)
Record DecisionRow := MkDecisionRow {
  dr_decision_id : string;
  dr_task_id : string;
  dr_principal_id : string;
  dr_project_id : string;
  dr_decision_sequence : Z;
  dr_schema_version : Z;
  dr_decision_digest : string;
  dr_canonical_json : string;
  dr_created_at : string
}.

(** The columns of [agent_subagent_assignments], [agent_subagent_runs] and
    [agent_plan_dispatch_fences] that completion looks at. *)
Record AssignmentRow := MkAssignmentRow {
  as_assignment_id : string;
  as_task_owner_principal_id : string;
  as_project_id : string;
  as_parent_task_id : string
}.
Record RunRow := MkRunRow { run_assignment_id : string; run_state : string }.
Record FenceRow := MkFenceRow {
  fence_principal_id : string;
  fence_project_id : string;
  fence_task_id : string;
  fence_status : string
}.

Record Db := MkDb {
  coding_tasks : gmap string TaskRow;
  goal_specs : list GoalRow;
  decisions : list DecisionRow;
  assignments : list AssignmentRow;
  runs : list RunRow;
  fences : list FenceRow
}.

Definition with_tasks (db : Db) (t : gmap string TaskRow) : Db :=
  MkDb t (goal_specs db) (decisions db) (assignments db) (runs db) (fences db).
Definition with_goals (db : Db) (g : list GoalRow) : Db :=
  MkDb (coding_tasks db) g (decisions db) (assignments db) (runs db) (fences db).
Definition with_decisions (db : Db) (d : list DecisionRow) : Db :=
  MkDb (coding_tasks db) (goal_specs db) d (assignments db) (runs db) (fences db).

(** [INSERT] under the constraints of [schema.sql]: a violated [PRIMARY KEY],
    [UNIQUE] or [CHECK] raises [sqlite3.IntegrityError]. *)
Definition insert_goal_row (r : GoalRow) (rows : list GoalRow) : res (list GoalRow) :=
  raise_if (existsb (fun x => bool_decide (gr_goal_spec_id x = gr_goal_spec_id r)
                              || bool_decide (gr_task_id x = gr_task_id r)) rows)
    SqliteIntegrityError "UNIQUE constraint failed" ;;*
  Ok (rows ++ [r]).

Definition insert_decision_row (r : DecisionRow) (rows : list DecisionRow) : res (list DecisionRow) :=
  raise_if ((dr_decision_sequence r <? 1) || (dr_schema_version r <? 1))
    SqliteIntegrityError "CHECK constraint failed" ;;*
  raise_if (existsb (fun x => bool_decide (dr_decision_id x = dr_decision_id r)
                              || (bool_decide (dr_task_id x = dr_task_id r)
                                  && (dr_decision_sequence x =? dr_decision_sequence r))) rows)
    SqliteIntegrityError "UNIQUE constraint failed" ;;*
  Ok (rows ++ [r]).

(** The first row a [SELECT ... WHERE p] returns. *)
Definition select {A} (p : A -> bool) (rows : list A) : option A := List.find p rows.

Lemma select_app_fresh {A} (p : A -> bool) rows r :
  existsb p rows = false -> p r = true -> select p (rows ++ [r]) = Some r.
Proof.
  unfold select. induction rows as [|x rows IH]; simpl; intros He Hp; [by rewrite Hp|].
  apply orb_false_iff in He as [-> He]. by apply IH.
Qed.

Lemma select_app_other {A} (p : A -> bool) rows r :
  p r = false -> select p (rows ++ [r]) = select p rows.
Proof.
  unfold select. induction rows as [|x rows IH]; simpl; intros Hp; [by rewrite Hp|].
  destruct (p x); [done|]. by apply IH.
Qed.

Lemma existsb_impl {A} (p q : A -> bool) l :
  (forall x, q x = true -> p x = true) -> existsb p l = false -> existsb q l = false.
Proof.
  intros Hi. rewrite !existsb_false. intros Hf. eapply Forall_impl; [exact Hf|]. intros x Hp. cbn beta in *.
  destruct (q x) eqn:E; [|done]. apply Hi in E. congruence.
Qed.

Lemma select_none {A} (p : A -> bool) rows : select p rows = None <-> existsb p rows = false.
Proof.
  unfold select. induction rows as [|x rows IH]; simpl; [done|]. by destruct (p x).
Qed.

Lemma select_Some {A} (p : A -> bool) rows r : select p rows = Some r -> r ∈ rows /\ p r = true.
Proof.
  unfold select. intros H. apply List.find_some in H as [H1 H2]. by rewrite list_elem_of_In.
Qed.
