(* ===== verification/GoalRepository.v ===== *)
(** * Goal declarations at rest ([agent/control/goal_repository.py])

    Immutable, owner-scoped persistence of [GoalSpec]: an insert-only table with
    one declaration per task, and reads that re-validate the stored row. *)
From S2P Require Import Prelude PyStr Json Sha256 ProtocolBoundary CognitiveState Goal ControlDb.
Open Scope Z_scope.

Definition gs_integrity {A} (msg : string) : res A := Raise (Exn GoalSpecIntegrityError msg).

Definition _validate_owner_inputs (task_id principal_id project_id : string) : res unit :=
  raise_if (str_empty task_id) ValueError "task_id must be a non-empty string" ;;*
  raise_if (str_empty principal_id) ValueError "principal_id must be a non-empty string".

(** [expected is not None and value != expected] *)
Definition differs (expected : option string) (value : string) : bool :=
  match expected with Some e => negb (bool_decide (value = e)) | None => false end.

Definition _decode_row (row : option GoalRow)
    (expected_goal_spec_id expected_task_id expected_principal_id expected_project_id : option string)
    : res (option GoalSpec) :=
  match row with
  | None => Ok None
  | Some r =>
      try_except (
        raise_if (str_empty (gr_goal_spec_id r) || str_empty (gr_task_id r) || str_empty (gr_principal_id r))
          GoalSpecIntegrityError "stored GoalSpec owner/identity is invalid" ;;*
        raise_if (differs expected_goal_spec_id (gr_goal_spec_id r)) GoalSpecIntegrityError
          "GoalSpec identity mismatch" ;;*
        raise_if (differs expected_task_id (gr_task_id r)) GoalSpecIntegrityError
          "GoalSpec task identity mismatch" ;;*
        raise_if (differs expected_principal_id (gr_principal_id r)) GoalSpecIntegrityError
          "GoalSpec principal identity mismatch" ;;*
        raise_if (differs expected_project_id (gr_project_id r)) GoalSpecIntegrityError
          "GoalSpec project identity mismatch" ;;*
        raise_if (str_empty (gr_semantic_digest r)) GoalSpecIntegrityError
          "stored GoalSpec digest is invalid" ;;*
        let* spec := goal_from_canonical_json (gr_canonical_json r) (Some (gr_semantic_digest r)) in
        raise_if (negb (goal_schema_version spec =? gr_schema_version r)) GoalSpecIntegrityError
          "stored GoalSpec schema_version disagrees with canonical JSON" ;;*
        raise_if (negb (bool_decide (goal_spec_id spec = gr_goal_spec_id r))) GoalSpecIntegrityError
          "stored GoalSpec goal_spec_id disagrees with canonical JSON" ;;*
        Ok (Some spec))
        [GoalSpecIntegrityError; KeyError; TypeError; ValueError]
        (fun e => if isinstance (exn_cls e) GoalSpecIntegrityError then Raise e
                  else gs_integrity "stored GoalSpec row failed integrity validation")
  end.

(** The body of [GoalSpecRepository.insert] inside the transaction. *)
Definition insert_body (row : GoalRow) (db : Db) : res unit * Db :=
  match insert_goal_row row (goal_specs db) with
  | Ok rows => (Ok tt, with_goals db rows)
  | Raise e => (Raise e, db)
  end.

(** [GoalSpecRepository.insert]; [now] is the clock, used when no timestamp (or an
    empty one) is supplied. *)
Definition goal_insert (now : string) (spec : GoalSpec) (task_id principal_id project_id : string)
    (created_at : option string) (db : Db) : res unit * Db :=
  match _validate_owner_inputs task_id principal_id project_id ;;* goal_canonical_json spec with
  | Raise e => (Raise e, db)
  | Ok json =>
      let timestamp := match created_at with Some t => if str_empty t then now else t | None => now end in
      let row := MkGoalRow (goal_spec_id spec) task_id principal_id project_id
                   (goal_schema_version spec) (semantic_digest spec) json timestamp in
      let '(r, db') := transaction (insert_body row) db in
      (try_except r [SqliteIntegrityError]
         (fun _ => Raise (Exn GoalSpecConflictError
            "GoalSpec identity or task_id is already bound; immutable insert refused")), db')
  end.

Definition owned_goal (principal_id project_id : string) (r : GoalRow) : bool :=
  bool_decide (gr_principal_id r = principal_id) && bool_decide (gr_project_id r = project_id).

(** [GoalSpecRepository.get_by_id] *)
Definition goal_get_by_id (id principal_id project_id : string) (db : Db) : res (option GoalSpec) :=
  _validate_owner_inputs "lookup" principal_id project_id ;;*
  raise_if (str_empty id) ValueError "goal_spec_id must be a non-empty string" ;;*
  _decode_row (select (fun r => bool_decide (gr_goal_spec_id r = id) && owned_goal principal_id project_id r)
                 (goal_specs db))
    (Some id) None (Some principal_id) (Some project_id).

(** [GoalSpecRepository.get_for_task] *)
Definition goal_get_for_task (task_id principal_id project_id : string) (db : Db) : res (option GoalSpec) :=
  _validate_owner_inputs task_id principal_id project_id ;;*
  _decode_row (select (fun r => bool_decide (gr_task_id r = task_id) && owned_goal principal_id project_id r)
                 (goal_specs db))
    None (Some task_id) (Some principal_id) (Some project_id).

(** ** Lemmas *)
Lemma goal_insert_cases now spec t p j c db o db' :
  goal_insert now spec t p j c db = (o, db') ->
  (exists json ts, o = Ok tt /\ str_empty t = false /\ str_empty p = false /\
     goal_canonical_json spec = Ok json /\
     existsb (fun x => bool_decide (gr_goal_spec_id x = goal_spec_id spec)
                       || bool_decide (gr_task_id x = t)) (goal_specs db) = false /\
     db' = with_goals db (goal_specs db ++
       [MkGoalRow (goal_spec_id spec) t p j (goal_schema_version spec) (semantic_digest spec) json ts])) \/
  (exists e, o = Raise e /\ db' = db).
Proof.
  unfold goal_insert. destruct (_validate_owner_inputs t p j ;;* _) as [json|e] eqn:E;
    [|intros [= <- <-]; right; by exists e].
  unfold _validate_owner_inputs in E. apply res_bind_Ok in E as (u & Hv & Hj).
  apply res_bind_Ok in Hv as (? & Ht%raise_if_Ok & Hp%raise_if_Ok).
  unfold transaction, insert_body, insert_goal_row. cbn [gr_goal_spec_id gr_task_id].
  destruct (existsb _ (goal_specs db)) eqn:Ex; cbn [raise_if res_bind].
  - intros [= <- <-]. right. eexists. split; [reflexivity|done].
  - intros [= <- <-]. left. do 2 eexists. split_and!; done.
Qed.

(** A row written by [insert] decodes to the declaration. *)
Lemma decode_inserted spec t p j json ts eg et :
  goal_ok spec -> goal_canonical_json spec = Ok json -> str_empty t = false -> str_empty p = false ->
  differs eg (goal_spec_id spec) = false -> differs et t = false ->
  _decode_row (Some (MkGoalRow (goal_spec_id spec) t p j (goal_schema_version spec) (semantic_digest spec) json ts))
    eg et (Some p) (Some j) = Ok (Some (canonical_goal spec)).
Proof.
  intros Hok Hj Ht Hp Hg Hd. destruct (goal_ok_ids _ Hok) as (_ & _ & Hx).
  pose proof (goal_ok_id _ Hok) as Hi.
  unfold _decode_row. cbn [gr_goal_spec_id gr_task_id gr_principal_id gr_project_id gr_semantic_digest
    gr_canonical_json gr_schema_version]. rewrite Hi, Ht, Hp, Hg, Hd. cbn [orb differs].
  rewrite !bool_decide_true by done. cbn [negb raise_if res_bind].
  rewrite (sha256_hex_nonempty _ Hx). cbn [raise_if res_bind].
  pose proof Hj as Hj'. apply canonical_json_bytes_Ok in Hj' as [-> Hs]; [|apply goal_mapping_plain].
  rewrite goal_from_mapping by (done || apply goal_mapping_plain || congruence). cbn [res_bind].
  change (goal_schema_version (canonical_goal spec)) with (goal_schema_version spec).
  change (goal_spec_id (canonical_goal spec)) with (goal_spec_id spec).
  rewrite Z.eqb_refl, bool_decide_true by done. done.
Qed.

Lemma owner_inputs_ok t p j :
  str_empty t = false -> str_empty p = false -> _validate_owner_inputs t p j = Ok tt.
Proof. unfold _validate_owner_inputs. by intros -> ->. Qed.

(** Durable goal declarations: a successful insert of a valid declaration is
    read back (by task and by identity) as the same declaration in canonical
    order, a caller with another principal or project reads nothing for that
    task, reads of other tasks are unaffected, and the binding is write-once:
    every later insert for that task or identity raises and changes nothing. *)
Theorem goal_store_roundtrip now spec t p j c db db' :
  goal_ok spec -> goal_insert now spec t p j c db = (Ok tt, db') ->
  goal_get_for_task t p j db' = Ok (Some (canonical_goal spec)) /\
  goal_get_by_id (goal_spec_id spec) p j db' = Ok (Some (canonical_goal spec)) /\
  (forall p' j', str_empty p' = false -> (p' <> p \/ j' <> j) -> goal_get_for_task t p' j' db' = Ok None) /\
  (forall t' p' j', t' <> t -> goal_get_for_task t' p' j' db' = goal_get_for_task t' p' j' db) /\
  (forall now2 spec2 t2 p2 j2 c2, (t2 = t \/ goal_spec_id spec2 = goal_spec_id spec) ->
     exists e, goal_insert now2 spec2 t2 p2 j2 c2 db' = (Raise e, db')).
Proof.
  intros Hok Hins. apply goal_insert_cases in Hins as [(json & ts & _ & Ht & Hp & Hj & Hf & ->)|(e & ? & _)]; [|done].
  set (row := MkGoalRow _ _ _ _ _ _ _ _).
  assert (goal_specs (with_goals db (goal_specs db ++ [row])) = goal_specs db ++ [row]) as Eg by done.
  split_and!.
  - unfold goal_get_for_task. rewrite owner_inputs_ok, Eg by done. cbn [res_bind].
    rewrite select_app_fresh.
    + by apply decode_inserted; [| | | | |cbn; rewrite bool_decide_true].
    + eapply existsb_impl, Hf. intros x [-> _]%andb_true_iff. by rewrite orb_true_r.
    + unfold owned_goal. cbn. by rewrite !bool_decide_true.
  - unfold goal_get_by_id. rewrite owner_inputs_ok, Eg by done. cbn [res_bind].
    pose proof (goal_ok_id _ Hok) as Hi.
    rewrite Hi. cbn [raise_if res_bind]. rewrite select_app_fresh.
    + by apply decode_inserted; [| | | |cbn; rewrite bool_decide_true|].
    + eapply existsb_impl, Hf. intros x [-> _]%andb_true_iff. done.
    + unfold owned_goal. cbn. by rewrite !bool_decide_true.
  - intros p' j' Hp' Hne. unfold goal_get_for_task. rewrite owner_inputs_ok, Eg by done. cbn [res_bind].
    rewrite select_app_other.
    + replace (select _ _) with (@None GoalRow); [done|]. symmetry. apply select_none.
      eapply existsb_impl, Hf. intros x [-> _]%andb_true_iff. by rewrite orb_true_r.
    + unfold owned_goal. cbn. rewrite (bool_decide_true (t = t)) by done. cbn.
      destruct Hne; [rewrite (bool_decide_false (p = p')) by congruence; done|].
      rewrite (bool_decide_false (j = j')) by congruence. by rewrite andb_false_r.
  - intros t' p' j' Hne. unfold goal_get_for_task. rewrite Eg, select_app_other; [done|].
    cbn. by rewrite (bool_decide_false (t = t')) by congruence.
  - intros now2 spec2 t2 p2 j2 c2 Hsame. destruct (goal_insert _ _ _ _ _ _ _) as [o db2] eqn:E.
    apply goal_insert_cases in E as [(json2 & ts2 & -> & _ & _ & _ & Hf2 & _)|(e & -> & ->)]; [|by exists e].
    exfalso. rewrite Eg, existsb_app in Hf2. apply orb_false_iff in Hf2 as [_ Hf2]. cbn in Hf2.
    rewrite orb_false_r in Hf2. apply orb_false_iff in Hf2 as [H1 H2].
    apply bool_decide_eq_false in H1, H2. destruct Hsame; congruence.
Qed.

(** ** A concrete insert *)
Definition empty_db : Db := MkDb ∅ [] [] [] [] [].

Example goal_store_roundtrip_witness :
  exists db', goal_insert "now" sample_goal "t1" "alice" "p1" None empty_db = (Ok tt, db') /\
    goal_get_for_task "t1" "alice" "p1" db' = Ok (Some (canonical_goal sample_goal)) /\
    goal_get_for_task "t1" "bob" "p1" db' = Ok None.
Proof.
  destruct (goal_insert "now" sample_goal "t1" "alice" "p1" None empty_db) as [o db'] eqn:E.
  assert (o = Ok tt) as ->.
  { change o with (o, db').1. rewrite <-E. vm_compute. reflexivity. }
  exists db'. split; [done|].
  destruct (goal_store_roundtrip _ _ _ _ _ _ _ _ sample_goal_ok E) as (H1 & _ & H3 & _).
  split; [exact H1|]. apply H3; [reflexivity|left; discriminate].
Defined.
