(* ===== verification/CompletionRepository.v ===== *)
(** * The completion-decision ledger ([agent/control/completion_repository.py])

    Append-only, owner-scoped persistence of completion decisions.  [append]
    re-checks the decision against the current task, goal and workspace and
    allocates the next sequence number in one transaction. *)
From S2P Require Import Prelude PyStr Json Sha256 ProtocolBoundary CognitiveState Goal Completion.
From S2P Require Import CompletionEvaluator ControlDb.
Open Scope Z_scope.

Definition cdi {A} (msg : string) : res A := Raise (Exn CompletionDecisionIntegrityError msg).
Definition cdb_if (c : bool) (msg : string) : res unit := raise_if c CompletionDecisionBindingError msg.
Definition cdi_if (c : bool) (msg : string) : res unit := raise_if c CompletionDecisionIntegrityError msg.

Record StoredCompletionDecision := MkStored {
  st_decision : CompletionDecision;
  st_decision_sequence : Z;
  st_principal_id : string;
  st_project_id : string;
  st_created_at : string
}.

Record _CompletionTaskSnapshot := MkTaskSnapshot {
  ts_task_id : string;
  ts_principal_id : string;
  ts_project_id : string;
  ts_cognitive_state : AgentCognitiveState;
  ts_control_state_version : Z;
  ts_task_status : string;
  ts_workspace_id : option string
}.

Definition _validate_scope (task_id principal_id project_id : string) : res unit :=
  raise_if (str_empty task_id) ValueError "task_id must be a non-empty string" ;;*
  raise_if (str_empty principal_id) ValueError "principal_id must be a non-empty string".

Definition _validate_lookup_id (value label : string) : res unit :=
  raise_if (str_empty value) ValueError (label +:+ " must be a non-empty string").

Definition _validate_timestamp (now : string) (value : option string) : res string :=
  match value with
  | None => Ok now
  | Some v => raise_if (str_empty v) ValueError "created_at must be a non-empty string" ;;* Ok v
  end.

Definition _select_task (db : Db) (task_id principal_id project_id : string) : option TaskRow :=
  _select_owned (coding_tasks db) task_id principal_id project_id.

Definition _select_goal_spec (db : Db) (task_id : string) : option GoalRow :=
  select (fun r => bool_decide (gr_task_id r = task_id)) (goal_specs db).

(** [json.loads] of [state_json], [except (JSONDecodeError, TypeError, UnicodeDecodeError)] *)
Definition load_state_json (state_json : string) : res (list (string * pyval)) :=
  let* decoded := try_except (loads default_object_hook default_constant_hook state_json)
    [JSONDecodeError; TypeError] (fun _ => cdi "coding task state_json is malformed") in
  match decoded with
  | PDict d => Ok d
  | _ => cdi "coding task state_json is not an object"
  end.

Definition _decode_workspace_projection (state_json : string) : res (option string) :=
  let* decoded := load_state_json state_json in
  match dict_get "metadata" decoded with
  | None => Ok None
  | Some (PDict metadata) =>
      match dict_get "workspace_id" metadata with
      | None | Some PNone => Ok None
      | Some (PStr w) =>
          cdi_if (str_empty w) "coding task workspace_id projection is malformed" ;;* Ok (Some w)
      | Some _ => cdi "coding task workspace_id projection is malformed"
      end
  | Some _ => cdi "coding task metadata projection is not an object"
  end.

Definition _decode_task_snapshot (task_id : string) (row : TaskRow) : res _CompletionTaskSnapshot :=
  let* state := try_except (cognitive_parse (t_cognitive_state row)) [KeyError; TypeError; ValueError]
    (fun _ => cdi "coding task control-state snapshot is malformed") in
  cdi_if (str_empty task_id || str_empty (t_principal_id row) || (t_control_state_version row <? 0)
          || str_empty (t_status row)) "coding task owner, version, or status is malformed" ;;*
  let* workspace_id := _decode_workspace_projection (t_state_json row) in
  Ok (MkTaskSnapshot task_id (t_principal_id row) (t_project_id row) state
        (t_control_state_version row) (t_status row) workspace_id).

Definition _decode_goal_spec_row (row : GoalRow) : res GoalSpec :=
  cdi_if (str_empty (gr_goal_spec_id row) || str_empty (gr_task_id row) || str_empty (gr_principal_id row)
          || str_empty (gr_semantic_digest row)) "GoalSpec binding row is invalid" ;;*
  let* spec := try_except (goal_from_canonical_json (gr_canonical_json row) (Some (gr_semantic_digest row)))
    [GoalSpecValidationError; TypeError; ValueError]
    (fun _ => cdi "GoalSpec binding payload failed integrity validation") in
  cdi_if (negb (goal_schema_version spec =? gr_schema_version row)
          || negb (bool_decide (Goal.goal_spec_id spec = gr_goal_spec_id row)))
    "GoalSpec binding row disagrees with its canonical payload" ;;*
  Ok spec.

Definition neq_s (x y : string) : bool := negb (bool_decide (x = y)).

Definition _validate_binding (d : CompletionDecision) (s : _CompletionTaskSnapshot) (g : GoalSpec)
    (principal_id project_id : string) : res unit :=
  let b := dec_body d in
  cdb_if (neq_s (ts_task_id s) (task_id b)) "decision task binding mismatch" ;;*
  cdb_if (neq_s (ts_principal_id s) principal_id || neq_s (ts_project_id s) project_id)
    "task owner binding mismatch" ;;*
  cdb_if (neq_s (goal_spec_id b) (Goal.goal_spec_id g)) "decision GoalSpec identity mismatch" ;;*
  cdb_if (neq_s (goal_spec_digest b) (semantic_digest g)) "decision GoalSpec digest mismatch" ;;*
  cdb_if (negb (bool_decide (cognitive_state b = ts_cognitive_state s)))
    "decision cognitive-state snapshot is stale" ;;*
  cdb_if (negb (control_state_version b =? ts_control_state_version s))
    "decision cognitive-state version is stale" ;;*
  cdb_if (neq_s (task_status_at_evaluation b) (ts_task_status s))
    "decision task-status snapshot is stale" ;;*
  cdb_if (negb (bool_decide (workspace_id b = ts_workspace_id s)))
    "decision workspace snapshot is stale or mismatched".

Definition differs (expected : option string) (value : string) : bool :=
  match expected with Some e => neq_s value e | None => false end.

Definition _decode_row (row : option DecisionRow)
    (expected_decision_id expected_task_id expected_principal_id expected_project_id : option string)
    : res (option StoredCompletionDecision) :=
  match row with
  | None => Ok None
  | Some r =>
      cdi_if (str_empty (dr_decision_id r) || str_empty (dr_task_id r) || str_empty (dr_principal_id r)
              || (dr_decision_sequence r <? 1) || str_empty (dr_decision_digest r)
              || str_empty (dr_created_at r))
        "stored completion decision identity, sequence, or payload is invalid" ;;*
      cdi_if (differs expected_decision_id (dr_decision_id r)) "decision identity mismatch" ;;*
      cdi_if (differs expected_task_id (dr_task_id r)) "decision task identity mismatch" ;;*
      cdi_if (differs expected_principal_id (dr_principal_id r)) "decision principal identity mismatch" ;;*
      cdi_if (differs expected_project_id (dr_project_id r)) "decision project identity mismatch" ;;*
      let* d := try_except
        (decision_from_canonical_json (dr_canonical_json r) (Some (dr_decision_digest r)))
        [CompletionDecisionValidationError; TypeError; ValueError]
        (fun _ => cdi "stored completion decision payload failed integrity validation") in
      cdi_if (neq_s (decision_id d) (dr_decision_id r) || neq_s (task_id (dec_body d)) (dr_task_id r)
              || negb (schema_version (dec_body d) =? dr_schema_version r)
              || neq_s (decision_digest d) (dr_decision_digest r))
        "stored completion decision row disagrees with its canonical payload" ;;*
      Ok (Some (MkStored d (dr_decision_sequence r) (dr_principal_id r) (dr_project_id r) (dr_created_at r)))
  end.

(** The rows of one task in one owner scope. *)
Definition owned_rows (task_id principal_id project_id : string) (rows : list DecisionRow) : list DecisionRow :=
  filter (fun r => dr_task_id r = task_id /\ dr_principal_id r = principal_id /\ dr_project_id r = project_id) rows.

(** [SELECT COALESCE(MAX(decision_sequence), 0) + 1] *)
Definition max_sequence (rows : list DecisionRow) : Z :=
  match dr_decision_sequence <$> rows with
  | [] => 0
  | x :: l => foldl Z.max x l
  end.
Definition next_sequence (task_id principal_id project_id : string) (rows : list DecisionRow) : Z :=
  max_sequence (owned_rows task_id principal_id project_id rows) + 1.

(** The transaction of [append]: the new row, and the tables. *)
Definition append_body (d : CompletionDecision) (principal_id project_id json timestamp : string) (db : Db)
    : res Z * Db :=
  let b := dec_body d in
  let checked :=
    match _select_task db (task_id b) principal_id project_id with
    | None => Raise (Exn CompletionDecisionBindingError "task is unavailable in the supplied owner scope")
    | Some task_row =>
        let* snap := _decode_task_snapshot (task_id b) task_row in
        match _select_goal_spec db (task_id b) with
        | None => Raise (Exn CompletionDecisionBindingError "task has no durable GoalSpec")
        | Some goal_row =>
            let* g := _decode_goal_spec_row goal_row in
            cdb_if (neq_s (gr_principal_id goal_row) principal_id || neq_s (gr_project_id goal_row) project_id)
              "GoalSpec is not owned by the supplied task scope" ;;*
            _validate_binding d snap g principal_id project_id ;;*
            let seq := next_sequence (task_id b) principal_id project_id (decisions db) in
            cdi_if (seq <? 1) "decision sequence allocator returned a non-positive value" ;;*
            let* rows := insert_decision_row
              (MkDecisionRow (decision_id d) (task_id b) principal_id project_id seq (schema_version b)
                 (decision_digest d) json timestamp) (decisions db) in
            Ok (seq, rows)
        end
    end in
  match checked with
  | Ok (seq, rows) => (Ok seq, with_decisions db rows)
  | Raise e => (Raise e, db)
  end.

(** [CompletionDecisionRepository.append] *)
Definition append (now : string) (d : CompletionDecision) (principal_id project_id : string)
    (created_at : option string) (db : Db) : res StoredCompletionDecision * Db :=
  match _validate_scope (task_id (dec_body d)) principal_id project_id ;;*
        let* ts := _validate_timestamp now created_at in
        let* json := decision_canonical_json d in
        Ok (ts, json) with
  | Raise e => (Raise e, db)
  | Ok (timestamp, json) =>
      let '(r, db') := transaction (append_body d principal_id project_id json timestamp) db in
      (let* seq := try_except r [SqliteIntegrityError]
         (fun _ => Raise (Exn CompletionDecisionConflictError
            "completion decision identity or sequence conflicts with an existing row")) in
       Ok (MkStored d seq principal_id project_id timestamp), db')
  end.

(** [CompletionDecisionRepository.read_current_task_snapshot] *)
Definition read_current_task_snapshot (db : Db) (task_id principal_id project_id : string) (g : GoalSpec)
    : res (option CompletionEvaluationSnapshot) :=
  _validate_scope task_id principal_id project_id ;;*
  match _select_task db task_id principal_id project_id with
  | None => Ok None
  | Some row =>
      let* s := _decode_task_snapshot task_id row in
      cdi_if (neq_s (ts_task_id s) task_id || neq_s (ts_principal_id s) principal_id
              || neq_s (ts_project_id s) project_id) "current task snapshot owner or identity disagrees" ;;*
      let* snap := make_snapshot (ts_task_id s) (Goal.goal_spec_id g) (semantic_digest g) (ts_cognitive_state s)
        (ts_control_state_version s) (ts_task_status s) (ts_workspace_id s) in
      Ok (Some snap)
  end.

Definition select_decision (db : Db) (id principal_id project_id : string) : option DecisionRow :=
  select (fun r => bool_decide (dr_decision_id r = id) && bool_decide (dr_principal_id r = principal_id)
                   && bool_decide (dr_project_id r = project_id)) (decisions db).

(** [CompletionDecisionRepository.get_by_id] *)
Definition get_by_id (id principal_id project_id : string) (db : Db) : res (option StoredCompletionDecision) :=
  _validate_lookup_id id "decision_id" ;;*
  _validate_scope "lookup" principal_id project_id ;;*
  _decode_row (select_decision db id principal_id project_id)
    (Some id) None (Some principal_id) (Some project_id).

(** [ORDER BY decision_sequence ASC] *)
Definition rows_in_sequence (db : Db) (task_id principal_id project_id : string) : list DecisionRow :=
  sorted_by dr_decision_sequence (owned_rows task_id principal_id project_id (decisions db)).

(** [CompletionDecisionRepository.get_latest_for_task]: the last row of that order. *)
Definition get_latest_for_task (task_id principal_id project_id : string) (db : Db)
    : res (option StoredCompletionDecision) :=
  _validate_scope task_id principal_id project_id ;;*
  _decode_row (last (rows_in_sequence db task_id principal_id project_id))
    None (Some task_id) (Some principal_id) (Some project_id).

(** [CompletionDecisionRepository.list_for_task] *)
Definition list_for_task (task_id principal_id project_id : string) (db : Db)
    : res (list StoredCompletionDecision) :=
  _validate_scope task_id principal_id project_id ;;*
  res_map (fun row =>
    let* stored := _decode_row (Some row) None (Some task_id) (Some principal_id) (Some project_id) in
    match stored with
    | None => cdi "stored completion decision row disappeared during read"
    | Some s => Ok s
    end) (rows_in_sequence db task_id principal_id project_id).

(** ** Binding of a decision to the current task *)
Lemma neq_s_false x y : neq_s x y = false <-> x = y.
Proof. unfold neq_s. by rewrite negb_false_iff, bool_decide_eq_true. Qed.

Lemma validate_binding_Ok d s g p j u :
  _validate_binding d s g p j = Ok u <->
  ts_task_id s = task_id (dec_body d) /\ ts_principal_id s = p /\ ts_project_id s = j /\
  goal_spec_id (dec_body d) = Goal.goal_spec_id g /\ goal_spec_digest (dec_body d) = semantic_digest g /\
  cognitive_state (dec_body d) = ts_cognitive_state s /\
  control_state_version (dec_body d) = ts_control_state_version s /\
  task_status_at_evaluation (dec_body d) = ts_task_status s /\
  workspace_id (dec_body d) = ts_workspace_id s.
Proof.
  unfold _validate_binding, cdb_if. destruct u. split.
  - intros H. repeat (apply res_bind_Ok in H; let u := fresh "u" in let E := fresh "E" in
      destruct H as (u & E & H); apply raise_if_Ok in E). apply raise_if_Ok in H.
    repeat match goal with
    | H : _ || _ = false |- _ => apply orb_false_iff in H as [? ?]
    | H : neq_s _ _ = false |- _ => apply neq_s_false in H
    | H : negb _ = false |- _ => apply negb_false_iff in H
    | H : bool_decide _ = true |- _ => apply bool_decide_eq_true in H
    | H : (_ =? _) = true |- _ => apply Z.eqb_eq in H
    end. done.
  - intros (E1 & E2 & E3 & E4 & E5 & E6 & E7 & E8 & E9).
    rewrite E1, E2, E3, E4, E5, E6, E7, E8, E9. unfold neq_s.
    by rewrite !bool_decide_true, Z.eqb_refl by done.
Qed.

(** What [append] and the completion gate require of the tables before they
    accept a decision: the owned task row and the goal row of the decision's
    task agree with every field the decision recorded. *)
Definition bound (d : CompletionDecision) (p j : string) (db : Db) (row : TaskRow) : Prop :=
  let b := dec_body d in
  coding_tasks db !! task_id b = Some row /\ t_principal_id row = p /\ t_project_id row = j /\
  t_cognitive_state row = cognitive_value (cognitive_state b) /\
  t_control_state_version row = control_state_version b /\
  t_status row = task_status_at_evaluation b /\
  _decode_workspace_projection (t_state_json row) = Ok (workspace_id b) /\
  str_empty (task_id b) = false /\ str_empty p = false /\ str_empty (t_status row) = false /\
  0 <= t_control_state_version row /\
  exists grow g, _select_goal_spec db (task_id b) = Some grow /\ gr_principal_id grow = p /\
    gr_project_id grow = j /\ _decode_goal_spec_row grow = Ok g /\
    goal_spec_id b = Goal.goal_spec_id g /\ goal_spec_digest b = semantic_digest g.

Lemma select_task_Some db t p j row :
  _select_task db t p j = Some row <->
  coding_tasks db !! t = Some row /\ t_principal_id row = p /\ t_project_id row = j.
Proof.
  unfold _select_task, _select_owned. destruct (coding_tasks db !! t) as [r|]; simpl; [|naive_solver].
  destruct (bool_decide (t_principal_id r = p)) eqn:E1, (bool_decide (t_project_id r = j)) eqn:E2; simpl;
    rewrite ?bool_decide_eq_true, ?bool_decide_eq_false in *; naive_solver.
Qed.

Lemma decode_task_snapshot_Ok t row s :
  _decode_task_snapshot t row = Ok s <->
  t_cognitive_state row = cognitive_value (ts_cognitive_state s) /\
  str_empty t = false /\ str_empty (t_principal_id row) = false /\ 0 <= t_control_state_version row /\
  str_empty (t_status row) = false /\
  _decode_workspace_projection (t_state_json row) = Ok (ts_workspace_id s) /\
  s = MkTaskSnapshot t (t_principal_id row) (t_project_id row) (ts_cognitive_state s)
        (t_control_state_version row) (t_status row) (ts_workspace_id s).
Proof.
  unfold _decode_task_snapshot, cdi_if. split.
  - intros H. apply res_bind_Ok in H as (c & Hc & H). apply res_bind_Ok in H as (? & Hg%raise_if_Ok & H).
    apply res_bind_Ok in H as (w & Hw & [= <-]). apply try_except_reraise in Hc; [|done].
    unfold cognitive_parse in Hc. destruct (cognitive_of_value _) eqn:E; [|done]. injection Hc as ->.
    apply cognitive_of_value_Some in E.
    repeat match goal with H : _ || _ = false |- _ => apply orb_false_iff in H as [? ?] end.
    cbn. split_and!; try done. lia.
  - intros (Hc & Ht & Hp & Hv & Hs & Hw & ->). unfold cognitive_parse.
    rewrite Hc, cognitive_of_to, Ht, Hp, Hs, Hw. cbn.
    by replace (t_control_state_version row <? 0) with false by lia.
Qed.

(** The ledger of every task, in every owner scope, is numbered 1, 2, 3, ... in
    insertion order. *)
Definition ledger_ok (db : Db) : Prop :=
  forall t p j, dr_decision_sequence <$> owned_rows t p j (decisions db)
    = seqZ 1 (Z.of_nat (length (owned_rows t p j (decisions db)))).

Lemma foldl_max_seqZ x n : foldl Z.max x (seqZ (x + 1) (Z.of_nat n)) = x + Z.of_nat n.
Proof.
  revert x. induction n as [|n IH]; intros x; [simpl; lia|].
  rewrite Nat2Z.inj_succ, seqZ_cons by lia. cbn [foldl]. rewrite Z.max_r by lia.
  replace (Z.pred (Z.succ (Z.of_nat n))) with (Z.of_nat n) by lia.
  replace (Z.succ (x + 1)) with (x + 1 + 1) by lia. rewrite IH. lia.
Qed.

Lemma next_sequence_ledger db t p j : ledger_ok db ->
  next_sequence t p j (decisions db) = Z.of_nat (length (owned_rows t p j (decisions db))) + 1.
Proof.
  intros Hl. unfold next_sequence, max_sequence. rewrite Hl.
  destruct (length _) as [|n]; [done|].
  rewrite Nat2Z.inj_succ, seqZ_cons by lia.
  replace (Z.pred (Z.succ (Z.of_nat n))) with (Z.of_nat n) by lia.
  replace (Z.succ 1) with (1 + 1) by lia. rewrite foldl_max_seqZ. lia.
Qed.

Lemma owned_rows_app t p j rows r :
  owned_rows t p j (rows ++ [r])
  = owned_rows t p j rows ++
    (if bool_decide (dr_task_id r = t /\ dr_principal_id r = p /\ dr_project_id r = j) then [r] else []).
Proof.
  unfold owned_rows. rewrite filter_app. f_equal. rewrite filter_cons.
  rewrite filter_nil. case_bool_decide as E; [by rewrite decide_True|by rewrite decide_False].
Qed.

Lemma append_body_cases d p j json ts db o db' :
  append_body d p j json ts db = (o, db') ->
  (exists seq row, o = Ok seq /\ bound d p j db row /\ 1 <= seq /\
     seq = next_sequence (task_id (dec_body d)) p j (decisions db) /\
     existsb (fun x => bool_decide (dr_decision_id x = decision_id d)) (decisions db) = false /\
     db' = with_decisions db (decisions db ++
       [MkDecisionRow (decision_id d) (task_id (dec_body d)) p j seq (schema_version (dec_body d))
          (decision_digest d) json ts])) \/
  (exists e, o = Raise e /\ db' = db).
Proof.
  unfold append_body. destruct (_select_task db _ p j) as [row|] eqn:Et; [|intros [= <- <-]; right; eauto].
  destruct (res_bind (_decode_task_snapshot _ row) _) as [[seq rows]|e] eqn:E;
    [|intros [= <- <-]; right; eauto].
  intros [= <- <-]. left. apply res_bind_Ok in E as (snap & Hs & E).
  destruct (_select_goal_spec db _) as [grow|] eqn:Eg; [|done].
  apply res_bind_Ok in E as (g & Hg & E). unfold cdb_if, cdi_if in E.
  apply res_bind_Ok in E as (? & [Ho1%neq_s_false Ho2%neq_s_false]%raise_if_Ok%orb_false_iff & E).
  apply res_bind_Ok in E as (? & Hb%validate_binding_Ok & E).
  apply res_bind_Ok in E as (? & Hseq%raise_if_Ok & E). apply res_bind_Ok in E as (rows' & Hr & [= <- <-]).
  unfold insert_decision_row in Hr. apply res_bind_Ok in Hr as (? & _ & Hr).
  apply res_bind_Ok in Hr as (? & Hu%raise_if_Ok & [= <-]). cbn [dr_decision_id] in Hu.
  apply select_task_Some in Et as (Et & Ep & Ej).
  apply decode_task_snapshot_Ok in Hs as (Hc & Ht & Hpp & Hv & Hst & Hw & Es).
  rewrite Es in Hb. cbn in Hb. destruct Hb as (_ & _ & _ & Hgi & Hgd & Hcs & Hver & Hstat & Hws).
  eexists _, row. split_and!; [done| |lia|done| |done].
  - unfold bound. split_and!; try done; try congruence. by exists grow, g.
  - eapply existsb_impl, Hu. intros y Hy. cbn in *. by rewrite Hy.
Qed.

Lemma append_cases now d p j c db o db' :
  append now d p j c db = (o, db') ->
  (exists seq row json ts, o = Ok (MkStored d seq p j ts) /\ bound d p j db row /\ 1 <= seq /\
     seq = next_sequence (task_id (dec_body d)) p j (decisions db) /\
     existsb (fun x => bool_decide (dr_decision_id x = decision_id d)) (decisions db) = false /\
     decision_canonical_json d = Ok json /\ _validate_timestamp now c = Ok ts /\
     str_empty p = false /\
     db' = with_decisions db (decisions db ++
       [MkDecisionRow (decision_id d) (task_id (dec_body d)) p j seq (schema_version (dec_body d))
          (decision_digest d) json ts])) \/
  (exists e, o = Raise e /\ db' = db).
Proof.
  unfold append. destruct (_validate_scope _ p j ;;* _) as [[ts json]|e] eqn:E;
    [|intros [= <- <-]; right; eauto].
  apply res_bind_Ok in E as (? & Hsc & E). apply res_bind_Ok in E as (ts' & Hts & E).
  apply res_bind_Ok in E as (json' & Hjs & [= -> ->]).
  unfold _validate_scope in Hsc. apply res_bind_Ok in Hsc as (? & _ & Hp%raise_if_Ok).
  unfold transaction. destruct (append_body d p j json ts db) as [r db1] eqn:Eb.
  apply append_body_cases in Eb as [(seq & row & -> & Hb & Hs1 & Hs2 & Hf & ->)|(e & -> & ->)].
  - intros [= <- <-]. left. exists seq, row, json, ts. split_and!; done.
  - intros [<- <-]%pair_eq. right.
    destruct (try_except_raises (A := Z) e [SqliteIntegrityError] (fun _ =>
      Raise (Exn CompletionDecisionConflictError
        "completion decision identity or sequence conflicts with an existing row"))) as [e' ->]; [done|].
    by exists e'.
Qed.

(** ** Reading back *)
Lemma decode_appended d p j seq json ts ei et :
  decision_ok d -> decision_canonical_json d = Ok json -> 1 <= seq ->
  str_empty p = false -> str_empty ts = false ->
  differs ei (decision_id d) = false -> differs et (task_id (dec_body d)) = false ->
  _decode_row (Some (MkDecisionRow (decision_id d) (task_id (dec_body d)) p j seq
                       (schema_version (dec_body d)) (decision_digest d) json ts))
    ei et (Some p) (Some j) = Ok (Some (MkStored (canonical_decision d) seq p j ts)).
Proof.
  intros Hok Hj Hseq Hp Hts Hi Ht. pose proof Hok as (Hid & Hb & _ & Hd).
  apply canonical_digest_form, sha256_hex_nonempty in Hd.
  unfold id_ok in Hid. apply andb_true_iff in Hid as [Hid%negb_true_iff _].
  assert (str_empty (task_id (dec_body d)) = false) as Htid.
  { unfold body_ok, id_ok in Hb. rewrite !andb_true_iff, !negb_true_iff in Hb. tauto. }
  unfold _decode_row. cbn [dr_decision_id dr_task_id dr_principal_id dr_project_id dr_decision_sequence
    dr_schema_version dr_decision_digest dr_canonical_json dr_created_at].
  rewrite Hid, Htid, Hp, Hd, Hts, Hi, Ht. replace (seq <? 1) with false by lia.
  assert (forall x, neq_s x x = false) as Hn by (intros; by apply neq_s_false).
  cbn [orb differs]. rewrite !Hn. cbn [cdi_if raise_if res_bind].
  pose proof Hj as Hj'. apply canonical_json_bytes_Ok in Hj' as [-> Hs]; [|apply mapping_plain].
  rewrite decision_from_mapping by (done || congruence). cbn [try_except res_bind].
  cbn [canonical_decision decision_id dec_body canonical_body task_id schema_version decision_digest].
  rewrite !Hn, Z.eqb_refl. done.
Qed.


Lemma seqZ_sorted n x : StronglySorted (fun a b => py_leb a b = true) (seqZ x (Z.of_nat n)).
Proof.
  revert x. induction n as [|n IH]; intros x; [constructor|].
  rewrite Nat2Z.inj_succ, seqZ_cons, Z.pred_succ by lia. constructor; [apply IH|].
  rewrite Forall_forall. intros y Hy%elem_of_seqZ. unfold py_leb, py_compare, pyord_Z.
  destruct (x ?= y) eqn:E; [done|done|]. apply Z.compare_gt_iff in E. lia.
Qed.

Lemma key_sorted_fmap {A K} `{PyOrd K} (key : A -> K) l :
  StronglySorted (fun a b => py_leb a b = true) (key <$> l) -> key_sorted key l.
Proof.
  induction l as [|x l IH]; [constructor|]. rewrite fmap_cons. inversion 1 as [|? ? Hs Hf]; subst.
  constructor; [by apply IH|]. by apply Forall_fmap in Hf.
Qed.

(** In a well-numbered ledger the sequence order is the insertion order. *)
Lemma rows_in_sequence_ledger db t p j : ledger_ok db ->
  rows_in_sequence db t p j = owned_rows t p j (decisions db).
Proof.
  intros Hl. apply sorted_by_id, key_sorted_fmap. rewrite Hl. apply seqZ_sorted.
Qed.

Lemma ledger_ok_append db r :
  ledger_ok db ->
  dr_decision_sequence r = next_sequence (dr_task_id r) (dr_principal_id r) (dr_project_id r) (decisions db) ->
  ledger_ok (with_decisions db (decisions db ++ [r])).
Proof.
  intros Hl Hs t p j. cbn [decisions with_decisions]. rewrite owned_rows_app.
  case_bool_decide as E; [|by rewrite app_nil_r]. destruct E as (<- & <- & <-).
  rewrite fmap_app, length_app. cbn. rewrite Hl, Hs, next_sequence_ledger by done.
  rewrite Nat.add_1_r, seqZ_S. f_equal. f_equal. lia.
Qed.

(** C5. The ledger only grows, one checked decision at a time: a successful
    [append] was bound to the owned task row and goal of the moment, adds
    exactly one row at the end whose sequence number is the count of the task's
    decisions plus one, and changes nothing else; a failing [append] changes
    nothing; the numbering 1, 2, 3, ... of every task is preserved. *)
Theorem append_ledger now d p j c db o db' :
  ledger_ok db -> append now d p j c db = (o, db') ->
  ledger_ok db' /\
  match o with
  | Ok s =>
      (exists row, bound d p j db row) /\
      st_decision s = d /\
      st_decision_sequence s = Z.of_nat (length (owned_rows (task_id (dec_body d)) p j (decisions db))) + 1 /\
      exists json, decision_canonical_json d = Ok json /\
        db' = with_decisions db (decisions db ++
          [MkDecisionRow (decision_id d) (task_id (dec_body d)) p j (st_decision_sequence s)
             (schema_version (dec_body d)) (decision_digest d) json (st_created_at s)])
  | Raise _ => db' = db
  end.
Proof.
  intros Hl H. apply append_cases in H
    as [(seq & row & json & ts & -> & Hb & _ & Hs & _ & Hj & _ & _ & ->)|(e & -> & ->)]; [|done].
  split; [by apply ledger_ok_append|]. cbn [st_decision st_decision_sequence st_created_at].
  split_and!; [by exists row|done|by rewrite Hs, next_sequence_ledger|by exists json].
Qed.

Lemma res_map_app {A B} (f : A -> res B) l k ys zs :
  res_map f l = Ok ys -> res_map f k = Ok zs -> res_map f (l ++ k) = Ok (ys ++ zs).
Proof. rewrite !res_map_Ok. apply Forall2_app. Qed.

Lemma timestamp_nonempty now c ts :
  str_empty now = false -> _validate_timestamp now c = Ok ts -> str_empty ts = false.
Proof.
  intros Hn Hts. destruct c as [x|]; [|by injection Hts as <-].
  by apply res_bind_Ok in Hts as (? & Hx%raise_if_Ok & [= <-]).
Qed.

(** The newest decision after an [append] is the one appended. *)
Lemma append_get_latest now d p j c db s db' :
  decision_ok d -> ledger_ok db -> str_empty now = false ->
  append now d p j c db = (Ok s, db') ->
  get_latest_for_task (task_id (dec_body d)) p j db'
  = Ok (Some (MkStored (canonical_decision d) (st_decision_sequence s) p j (st_created_at s))).
Proof.
  intros Hok Hl Hnow H. apply append_cases in H
    as [(seq & row & json & ts & [= ->] & Hb & Hs1 & Hs & Hf & Hj & Hts & Hp & ->)|(e & ? & _)]; [|done].
  cbn [st_decision_sequence st_created_at]. set (r := MkDecisionRow _ _ _ _ _ _ _ _ _).
  apply timestamp_nonempty in Hts; [|done].
  assert (ledger_ok (with_decisions db (decisions db ++ [r]))) as Hl' by (by apply ledger_ok_append).
  assert (str_empty (task_id (dec_body d)) = false) as Ht by (destruct Hb as (_ & _ & _ & _ & _ & _ & _ & ? & _); done).
  unfold get_latest_for_task, _validate_scope. rewrite Ht, Hp. cbn [raise_if res_bind].
  rewrite rows_in_sequence_ledger by done. cbn [decisions with_decisions].
  rewrite owned_rows_app, bool_decide_true, last_snoc by done.
  by apply decode_appended; try (by apply neq_s_false).
Qed.

(** What was appended is what is read: after a successful [append] of a
    valid decision, [get_by_id] and [get_latest_for_task] return it (in canonical
    order, with its sequence number and timestamp), and [list_for_task] returns
    the earlier decisions followed by it. *)
Theorem append_read_back now d p j c db s db' :
  decision_ok d -> ledger_ok db -> str_empty now = false ->
  append now d p j c db = (Ok s, db') ->
  let stored := MkStored (canonical_decision d) (st_decision_sequence s) p j (st_created_at s) in
  get_by_id (decision_id d) p j db' = Ok (Some stored) /\
  get_latest_for_task (task_id (dec_body d)) p j db' = Ok (Some stored) /\
  forall l, list_for_task (task_id (dec_body d)) p j db = Ok l ->
    list_for_task (task_id (dec_body d)) p j db' = Ok (l ++ [stored]).
Proof.
  intros Hok Hl Hnow H. pose proof (append_get_latest _ _ _ _ _ _ _ _ Hok Hl Hnow H) as Hlast.
  apply append_cases in H
    as [(seq & row & json & ts & [= ->] & Hb & Hs1 & Hs & Hf & Hj & Hts & Hp & ->)|(e & ? & _)]; [|done].
  cbn [st_decision_sequence st_created_at]. set (r := MkDecisionRow _ _ _ _ _ _ _ _ _).
  pose proof (timestamp_nonempty _ _ _ Hnow Hts) as Hts'.
  assert (ledger_ok (with_decisions db (decisions db ++ [r]))) as Hl' by (by apply ledger_ok_append).
  assert (str_empty (task_id (dec_body d)) = false) as Ht by (destruct Hb as (_ & _ & _ & _ & _ & _ & _ & ? & _); done).
  assert (str_empty (decision_id d) = false) as Hi.
  { destruct Hok as (Hid & _). unfold id_ok in Hid. by apply andb_true_iff in Hid as [?%negb_true_iff _]. }
  assert (forall x, differs (Some x) x = false) as Hn by (intros; by apply neq_s_false).
  assert (owned_rows (task_id (dec_body d)) p j (decisions db ++ [r])
    = owned_rows (task_id (dec_body d)) p j (decisions db) ++ [r]) as Ho
    by (rewrite owned_rows_app; by rewrite bool_decide_true).
  split_and!.
  - unfold get_by_id, _validate_lookup_id, _validate_scope, select_decision. rewrite Hi, Hp.
    cbn [raise_if res_bind str_empty]. cbn [decisions with_decisions].
    rewrite select_app_fresh; [by apply decode_appended; try apply Hn| |].
    + eapply existsb_impl, Hf. intros x Hx. cbn beta in *. rewrite !andb_true_iff in Hx. tauto.
    + subst r. cbn. by rewrite !bool_decide_true.
  - exact Hlast.
  - intros l. unfold list_for_task, _validate_scope. rewrite Ht, Hp. cbn [raise_if res_bind].
    rewrite !rows_in_sequence_ledger by done. cbn [decisions with_decisions]. rewrite Ho. intros Hm.
    apply res_map_app; [done|]. cbn [res_map]. unfold r.
    rewrite decode_appended by (done || apply Hn). done.
Qed.

(** ** A concrete task, goal and decision *)
Definition sample_task : TaskRow :=
  MkTaskRow "alice" "p1" "running"
    (dumpsc (PDict [("metadata", PDict [("workspace_id", PStr "w1")]); ("status", PStr "running")]))
    "t0" "completion_check" 4 None None.
Definition sample_db : Db :=
  MkDb {[ "t1" := sample_task ]}
    [MkGoalRow "g1" "t1" "alice" "p1" 1 (semantic_digest sample_goal)
       (dumpsc (goal_to_canonical_mapping sample_goal)) "t0"]
    [] [] [] [].

Lemma decided_ok : decision_ok (decided []).
Proof.
  pose proof (evaluated_facts [] (or_introl eq_refl)) as H. apply evaluate_Ok in H as (_ & _ & _ & Hd).
  split_and!; [reflexivity|vm_compute; reflexivity|vm_compute; reflexivity|exact Hd].
Qed.

Lemma sample_ledger_ok : ledger_ok sample_db.
Proof. intros t p j. reflexivity. Qed.

Lemma sample_append :
  exists s db', append "now" (decided []) "alice" "p1" None sample_db = (Ok s, db').
Proof.
  assert (forall r : res StoredCompletionDecision * Db, is_ok r.1 = true -> exists s db', r = (Ok s, db'))
    as H by (intros [[s|e] db'] ?; [by exists s, db'|done]).
  apply H. vm_compute. reflexivity.
Qed.

Example append_ledger_witness :
  exists s db', append "now" (decided []) "alice" "p1" None sample_db = (Ok s, db') /\
    ledger_ok db' /\ st_decision_sequence s = 1.
Proof.
  destruct sample_append as (s & db' & E). exists s, db'. split; [exact E|].
  destruct (append_ledger _ _ _ _ _ _ _ _ sample_ledger_ok E) as (Hl & _ & _ & Hs & _).
  split; [exact Hl|exact Hs].
Defined.

Example append_read_back_witness :
  exists s db', append "now" (decided []) "alice" "p1" None sample_db = (Ok s, db') /\
    get_latest_for_task "t1" "alice" "p1" db'
    = Ok (Some (MkStored (canonical_decision (decided [])) (st_decision_sequence s) "alice" "p1" (st_created_at s))).
Proof.
  destruct sample_append as (s & db' & E). exists s, db'. split; [exact E|].
  exact (proj1 (proj2 (append_read_back "now" _ _ _ _ _ _ _ decided_ok sample_ledger_ok eq_refl E))).
Defined.
