(* ===== verification/CompletionGate.v ===== *)
(** * The completion gate ([agent/control/completion_gate.py],
    [agent/control/completion_gate_repository.py])

    The only path by which a coding task becomes [completed].
    [project_completion] is the repository's transaction; [gate_evaluate] is
    [CompletionGate.evaluate], which reads the decision, the active children and
    the goal at earlier moments, asks an authority policy and then projects.
    Each read sees the database as it is at that moment ([GateViews]); nothing is
    assumed about how those moments relate. *)
From S2P Require Import Prelude PyStr Json Sha256 ProtocolBoundary CognitiveState Goal Completion.
From S2P Require Import CompletionEvaluator ControlDb GoalRepository CompletionRepository.
Open Scope Z_scope.

(** ** Authority results *)
Inductive CompletionAuthorityStatus := AUTHORIZED | INSUFFICIENT | AUTH_REJECTED.
#[export] Instance CompletionAuthorityStatus_eq_dec : EqDecision CompletionAuthorityStatus.
Proof. solve_decision. Defined.

Definition _MAX_REASON_LENGTH : Z := 512.

Record CompletionAuthorityResult := MkAuthority {
  au_task_id : string;
  au_goal_spec_id : string;
  au_goal_spec_digest : string;
  au_decision_id : string;
  au_decision_digest : string;
  au_status : CompletionAuthorityStatus;
  au_reason : string
}.

Definition _require_gate_text (value label : string) : res unit :=
  raise_if (str_empty value) ValueError (label +:+ " must be a non-empty string").
Definition _require_reason (value : string) : res unit :=
  raise_if (_MAX_REASON_LENGTH <? py_len value) ValueError
    "reason must be a string no longer than 512 characters".

(** [CompletionAuthorityResult(...)] with [__post_init__] *)
Definition make_authority (tid gid gdig did ddig : string) (status : CompletionAuthorityStatus)
    (reason : string) : res CompletionAuthorityResult :=
  _require_gate_text tid "task_id" ;;*
  _require_gate_text gid "goal_spec_id" ;;*
  _require_gate_text gdig "goal_spec_digest" ;;*
  _require_gate_text did "decision_id" ;;*
  _require_gate_text ddig "decision_digest" ;;*
  _require_reason reason ;;*
  Ok (MkAuthority tid gid gdig did ddig status reason).

Definition authorized (a : CompletionAuthorityResult) : bool := bool_decide (au_status a = AUTHORIZED).

Definition _authority_matches (a : CompletionAuthorityResult) (d : CompletionDecision) : bool :=
  bool_decide (au_task_id a = task_id (dec_body d))
  && bool_decide (au_goal_spec_id a = goal_spec_id (dec_body d))
  && bool_decide (au_goal_spec_digest a = goal_spec_digest (dec_body d))
  && bool_decide (au_decision_id a = decision_id d)
  && bool_decide (au_decision_digest a = decision_digest d).

(** ** The atomic projection *)
Inductive CompletionProjectionStatus :=
| PROJECTED | P_NOT_COMPLETE | P_STALE | P_AUTHORITY_INSUFFICIENT | P_REJECTED | P_ALREADY_TERMINAL
| P_DELEGATED_CHILD_ACTIVE | P_NOT_FOUND | INTEGRITY_ERROR | P_ERROR.
#[export] Instance CompletionProjectionStatus_eq_dec : EqDecision CompletionProjectionStatus.
Proof. solve_decision. Defined.

Record CompletionProjectionResult := MkProjection {
  pr_status : CompletionProjectionStatus;
  pr_decision_id : string;
  pr_decision_digest : option string;
  pr_task_status : option string;
  pr_reason : string
}.

Definition _result (status : CompletionProjectionStatus) (id : string) (digest task_status : option string)
    (reason : string) : CompletionProjectionResult :=
  MkProjection status id digest task_status (py_take 512 reason).

Definition _TERMINAL_TASK_STATUSES : list string := ["completed"; "failed"; "cancelled"].
Definition _ELIGIBLE_TASK_STATUSES : list string := ["running"].

Definition _gate_validate_scope (id principal_id project_id : string) : res unit :=
  raise_if (str_empty id) ValueError "decision_id must be a non-empty string" ;;*
  raise_if (str_empty principal_id) ValueError "principal_id must be a non-empty string".

Definition _decode_state_projection (state_json : string) : res (list (string * pyval)) :=
  let* state := load_state_json state_json in
  match dict_get "metadata" state with
  | None | Some PNone => Ok state
  | Some (PDict metadata) =>
      match dict_get "workspace_id" metadata with
      | None | Some PNone => Ok state
      | Some (PStr w) =>
          cdi_if (str_empty w) "coding task workspace_id projection is malformed" ;;* Ok state
      | Some _ => cdi "coding task workspace_id projection is malformed"
      end
  | Some _ => cdi "coding task metadata projection is not an object"
  end.

Definition _goal_row_matches_scope (r : GoalRow) (task_id principal_id project_id : string) : bool :=
  bool_decide (gr_task_id r = task_id) && bool_decide (gr_principal_id r = principal_id)
  && bool_decide (gr_project_id r = project_id).

(** [SELECT 1 FROM agent_subagent_assignments a JOIN agent_subagent_runs r ...] *)
Definition child_active (db : Db) (principal_id project_id task_id : string) : bool :=
  existsb (fun a =>
    bool_decide (as_task_owner_principal_id a = principal_id) && bool_decide (as_project_id a = project_id)
    && bool_decide (as_parent_task_id a = task_id)
    && existsb (fun r => bool_decide (run_assignment_id r = as_assignment_id a)
                         && str_in (run_state r) ["PENDING"; "ACTIVE"]) (runs db)) (assignments db).

(** [SELECT 1 FROM agent_plan_dispatch_fences WHERE ... AND status = 'ACTIVE'] *)
Definition fence_active (db : Db) (principal_id project_id task_id : string) : bool :=
  existsb (fun f =>
    bool_decide (fence_principal_id f = principal_id) && bool_decide (fence_project_id f = project_id)
    && bool_decide (fence_task_id f = task_id) && bool_decide (fence_status f = "ACTIVE")) (fences db).

Definition set_completed (r : TaskRow) (state_json timestamp : string) : TaskRow :=
  MkTaskRow (t_principal_id r) (t_project_id r) "completed" state_json timestamp (t_cognitive_state r)
    (t_control_state_version r) (t_published_plan_revision_id r) (t_last_applied_recovery_decision_id r).

(** [UPDATE coding_tasks SET status = 'completed', ... WHERE ...]: row count and table. *)
Definition completion_update (tasks : gmap string TaskRow) (tid principal_id project_id : string)
    (s : _CompletionTaskSnapshot) (state_json timestamp : string) : Z * gmap string TaskRow :=
  match tasks !! tid with
  | Some r =>
      if bool_decide (t_principal_id r = principal_id) && bool_decide (t_project_id r = project_id)
         && bool_decide (t_status r = ts_task_status s)
         && bool_decide (t_cognitive_state r = cognitive_value (ts_cognitive_state s))
         && (t_control_state_version r =? ts_control_state_version s)
      then (1, <[tid := set_completed r state_json timestamp]> tasks)
      else (0, tasks)
  | None => (0, tasks)
  end.

Definition completed_state (state : list (string * pyval)) (timestamp : string) : string :=
  dumps ", " ": " (PDict (dict_set "updated_at" (PStr timestamp)
                            (dict_set "status" (PStr "completed") state))).

(** Everything [project_completion] reads and checks before the [UPDATE]. *)
Definition projection_checks (id principal_id project_id : string) (authority : CompletionAuthorityResult)
    (db : Db) : flow CompletionProjectionResult
      (CompletionDecision * _CompletionTaskSnapshot * list (string * pyval)) :=
  let not_found := _result P_NOT_FOUND id None None "decision is unavailable in the supplied owner scope" in
  let! stored_opt := call_or
    (_decode_row (select_decision db id principal_id project_id) (Some id) None (Some principal_id) (Some project_id))
    [CompletionDecisionIntegrityError] (fun e => _result INTEGRITY_ERROR id None None (exn_name (exn_cls e))) in
  let! stored := some_or stored_opt not_found in
  let d := st_decision stored in
  let b := dec_body d in
  let result status task_status reason := _result status id (Some (decision_digest d)) task_status reason in
  return_if (negb (_authority_matches authority d))
    (result P_REJECTED None "completion authority result is not decision-bound") ;;!
  return_if (negb (bool_decide (au_status authority = AUTHORIZED)))
    (result (if bool_decide (au_status authority = INSUFFICIENT) then P_AUTHORITY_INSUFFICIENT else P_REJECTED)
       None (if str_empty (au_reason authority) then "completion authority is insufficient" else au_reason authority)) ;;!
  return_if (negb (bool_decide (outcome b = COMPLETE)))
    (result P_NOT_COMPLETE (Some (task_status_at_evaluation b))
       "only a COMPLETE decision is eligible for projection") ;;!
  let! task_row := some_or (_select_task db (task_id b) principal_id project_id)
    (result P_NOT_FOUND None "task is unavailable in the supplied owner scope") in
  let! s := call_or (_decode_task_snapshot (task_id b) task_row) [CompletionDecisionIntegrityError]
    (fun e => result INTEGRITY_ERROR None (exn_name (exn_cls e))) in
  let at_status := Some (ts_task_status s) in
  return_if (str_in (ts_task_status s) _TERMINAL_TASK_STATUSES)
    (result P_ALREADY_TERMINAL at_status "task is already terminal") ;;!
  let! goal_row := some_or (_select_goal_spec db (task_id b))
    (result INTEGRITY_ERROR at_status "task has no canonical GoalSpec") in
  let! g := call_or (_decode_goal_spec_row goal_row) [CompletionDecisionIntegrityError]
    (fun e => result INTEGRITY_ERROR at_status (exn_name (exn_cls e))) in
  return_if (negb (_goal_row_matches_scope goal_row (task_id b) principal_id project_id))
    (result P_STALE at_status "canonical GoalSpec binding is stale or mismatched") ;;!
  let! _ := call_or (_validate_binding d s g principal_id project_id) [Exception]
    (fun e => result P_STALE at_status (exn_name (exn_cls e))) in
  return_if (negb (str_in (ts_task_status s) _ELIGIBLE_TASK_STATUSES))
    (result P_NOT_COMPLETE at_status "task status is not eligible for successful completion projection") ;;!
  return_if (child_active db principal_id project_id (task_id b))
    (result P_DELEGATED_CHILD_ACTIVE at_status "active delegated child blocks parent completion") ;;!
  return_if (fence_active db principal_id project_id (task_id b))
    (result P_STALE at_status "active plan dispatch fence prevents completion") ;;!
  let! state := call_or (_decode_state_projection (t_state_json task_row)) [CompletionDecisionIntegrityError]
    (fun e => result INTEGRITY_ERROR at_status (exn_name (exn_cls e))) in
  Next (d, s, state).

(** The transaction of [project_completion]; [now] is the clock.  Text that
    cannot be encoded makes the driver raise [UnicodeEncodeError]. *)
Definition projection_body (now id principal_id project_id : string)
    (authority : CompletionAuthorityResult) (db : Db) : res CompletionProjectionResult * Db :=
  match projection_checks id principal_id project_id authority db with
  | Throw e => (Raise e, db)
  | Return r => (Ok r, db)
  | Next (d, s, state) =>
      match encode_utf8 (completed_state state now) with
      | Raise e => (Raise e, db)
      | Ok state_json =>
          let '(rowcount, tasks) := completion_update (coding_tasks db) (task_id (dec_body d))
            principal_id project_id s state_json now in
          if negb (rowcount =? 1) then
            (Ok (_result P_STALE id (Some (decision_digest d)) (Some (ts_task_status s))
                   "task completion CAS did not update exactly one row"), with_tasks db tasks)
          else (Ok (_result PROJECTED id (Some (decision_digest d)) (Some "completed") EmptyString),
                with_tasks db tasks)
      end
  end.

(** [CompletionGateRepository.project_completion]; [token] tells whether the
    caller holds the private gate token. *)
Definition project_completion (now id principal_id project_id : string)
    (authority : CompletionAuthorityResult) (token : bool) (db : Db)
    : res CompletionProjectionResult * Db :=
  match _gate_validate_scope id principal_id project_id ;;*
        raise_if (negb token) PermissionError "completion projection is owned by CompletionGate" with
  | Raise e => (Raise e, db)
  | Ok _ =>
      let '(r, db') := transaction (projection_body now id principal_id project_id authority) db in
      (try_except r [SqliteError] (fun e => Ok (_result P_ERROR id None None (exn_name (exn_cls e)))), db')
  end.

(** ** The gate *)
Inductive CompletionGateStatus :=
| G_COMPLETED | G_NOT_COMPLETE | G_STALE | G_AUTHORITY_INSUFFICIENT | G_ALREADY_TERMINAL
| G_DELEGATED_CHILD_ACTIVE | G_REJECTED | G_ERROR.
#[export] Instance CompletionGateStatus_eq_dec : EqDecision CompletionGateStatus.
Proof. solve_decision. Defined.

Record CompletionGateResult := MkGateResult {
  g_status : CompletionGateStatus;
  g_decision_id : string;
  g_decision_digest : option string;
  g_task_status : option string;
  g_reason : string
}.

Definition require_optional_gate_text (value : option string) (label : string) : res unit :=
  match value with Some v => _require_gate_text v label | None => Ok tt end.

(** [CompletionGateResult(...)] with [__post_init__] *)
Definition make_gate_result (status : CompletionGateStatus) (id : string) (digest task_status : option string)
    (reason : string) : res CompletionGateResult :=
  _require_gate_text id "decision_id" ;;*
  require_optional_gate_text digest "decision_digest" ;;*
  require_optional_gate_text task_status "task_status" ;;*
  _require_reason reason ;;*
  Ok (MkGateResult status id digest task_status reason).

Definition _gate_error (id : string) (digest task_status : option string) (reason : string)
    : res CompletionGateResult :=
  make_gate_result G_ERROR id digest task_status reason.

Definition status_map (s : CompletionProjectionStatus) : CompletionGateStatus :=
  match s with
  | PROJECTED => G_COMPLETED
  | P_NOT_COMPLETE => G_NOT_COMPLETE
  | P_STALE => G_STALE
  | P_AUTHORITY_INSUFFICIENT => G_AUTHORITY_INSUFFICIENT
  | P_REJECTED => G_REJECTED
  | P_ALREADY_TERMINAL => G_ALREADY_TERMINAL
  | P_DELEGATED_CHILD_ACTIVE => G_DELEGATED_CHILD_ACTIVE
  | P_NOT_FOUND => G_REJECTED
  | INTEGRITY_ERROR => G_ERROR
  | P_ERROR => G_ERROR
  end.

(** [projection.decision_digest or decision_digest] *)
Definition _map_projection_result (p : CompletionProjectionResult) (id digest : string)
    : res CompletionGateResult :=
  make_gate_result (status_map (pr_status p)) id
    (Some (match pr_decision_digest p with Some x => if str_empty x then digest else x | None => digest end))
    (pr_task_status p) (pr_reason p).

(** The port for a completion authority. *)
Class AuthorityPolicy (P : Type) :=
  authorize : P -> GoalSpec -> CompletionDecision -> string -> string -> res CompletionAuthorityResult.

(** [FailClosedCompletionAuthorityPolicy] *)
Inductive FailClosed := FailClosedPolicy.
#[export] Instance fail_closed_policy : AuthorityPolicy FailClosed := fun _ _ d _ _ =>
  make_authority (task_id (dec_body d)) (goal_spec_id (dec_body d)) (goal_spec_digest (dec_body d))
    (decision_id d) (decision_digest d) INSUFFICIENT "no production completion authority is configured".

(** The database at the moments [evaluate] looks at it. *)
Record GateViews := MkViews { v_decision : Db; v_goal : Db; v_project : Db }.

Section Gate.
Context {P : Type} `{AuthorityPolicy P} (policy : P).
(** The gate's own fields: its scope, the optional active-child reader (what it
    answers), and whether an in-memory task projection is attached. *)
Variables gate_principal gate_project : string.
Variable active_count : option (string -> res Z).
Variable has_projection : bool.

(** Everything before the projection call: a result, or the decision with a
    bound, positive authority. *)
Definition gate_checks (id : string) (v : GateViews)
    : flow (res CompletionGateResult) (CompletionDecision * CompletionAuthorityResult) :=
  let! stored_opt := call_or (get_by_id id gate_principal gate_project (v_decision v)) [Exception]
    (fun e => _gate_error id None None (exn_name (exn_cls e))) in
  let! stored := some_or stored_opt
    (make_gate_result G_REJECTED id None None "decision is unavailable in the supplied owner scope") in
  return_if (neq_s (decision_id (st_decision stored)) id || neq_s (st_principal_id stored) gate_principal
             || neq_s (st_project_id stored) gate_project)
    (make_gate_result G_REJECTED id None None "decision owner or identity binding is invalid") ;;!
  let d := st_decision stored in
  let b := dec_body d in
  let digest := Some (decision_digest d) in
  let at_status := Some (task_status_at_evaluation b) in
  return_if (negb (bool_decide (outcome b = COMPLETE)))
    (make_gate_result G_NOT_COMPLETE id digest at_status "only a COMPLETE decision is eligible for projection") ;;!
  let! count := match active_count with
                | None => Next 0
                | Some reader => call_or (reader (task_id b)) [Exception]
                    (fun e => _gate_error id digest at_status (exn_name (exn_cls e)))
                end in
  return_if (0 <? count)
    (make_gate_result G_DELEGATED_CHILD_ACTIVE id digest at_status
       "active delegated child blocks parent completion") ;;!
  let! goal_opt := call_or (goal_get_for_task (task_id b) gate_principal gate_project (v_goal v)) [Exception]
    (fun e => _gate_error id digest None (exn_name (exn_cls e))) in
  let! g := some_or goal_opt
    (make_gate_result G_REJECTED id digest at_status "canonical GoalSpec is unavailable in the owner scope") in
  return_if (neq_s (goal_spec_id b) (Goal.goal_spec_id g) || neq_s (goal_spec_digest b) (semantic_digest g))
    (make_gate_result G_STALE id digest at_status "decision GoalSpec binding is stale or mismatched") ;;!
  let! a := call_or (authorize policy g d gate_principal gate_project) [Exception]
    (fun e => _gate_error id digest at_status (exn_name (exn_cls e))) in
  return_if (negb (_authority_matches a d))
    (make_gate_result G_REJECTED id digest at_status "completion authority result is not bound to the decision") ;;!
  return_if (negb (authorized a))
    (make_gate_result (if bool_decide (au_status a = INSUFFICIENT) then G_AUTHORITY_INSUFFICIENT else G_REJECTED)
       id digest at_status
       (if str_empty (au_reason a) then "completion authority is insufficient" else au_reason a)) ;;!
  Next (d, a).

(** [CompletionGate.evaluate]: the result, the database after it, and the task
    reflected in memory, if any. *)
Definition gate_evaluate (now id : string) (v : GateViews)
    : res CompletionGateResult * Db * option string :=
  match _require_gate_text id "decision_id" with
  | Raise e => (Raise e, v_project v, None)
  | Ok _ =>
      match gate_checks id v with
      | Throw e => (Raise e, v_project v, None)
      | Return r => (r, v_project v, None)
      | Next (d, a) =>
          let digest := decision_digest d in
          match project_completion now id gate_principal gate_project a true (v_project v) with
          | (Raise e, db') =>
              (_gate_error id (Some digest) (Some (task_status_at_evaluation (dec_body d)))
                 (exn_name (exn_cls e)), db', None)
          | (Ok projection, db') =>
              let result := _map_projection_result projection id digest in
              let reflected := match result with
                               | Ok r => if bool_decide (g_status r = G_COMPLETED) && has_projection
                                         then Some (task_id (dec_body d)) else None
                               | Raise _ => None
                               end in
              (result, db', reflected)
          end
      end
  end.
End Gate.

(** ** What a projection requires *)

(** The decision stored under [id] in this scope is [d]. *)
Definition stored_as (id p j : string) (db : Db) (d : CompletionDecision) : Prop :=
  exists s, _decode_row (select_decision db id p j) (Some id) None (Some p) (Some j) = Ok (Some s) /\
    st_decision s = d.

(** Every condition under which the gate may complete the task of [d]. *)
Definition completable (id p j : string) (a : CompletionAuthorityResult) (db : Db)
    (d : CompletionDecision) (row : TaskRow) : Prop :=
  stored_as id p j db d /\ _authority_matches a d = true /\ au_status a = AUTHORIZED /\
  outcome (dec_body d) = COMPLETE /\ bound d p j db row /\ t_status row = "running" /\
  child_active db p j (task_id (dec_body d)) = false /\ fence_active db p j (task_id (dec_body d)) = false.

Definition completed_row (row : TaskRow) (now : string) (row' : TaskRow) : Prop :=
  exists state, load_state_json (t_state_json row) = Ok state /\
    row' = set_completed row (completed_state state now) now.

Definition is_projected (o : res CompletionProjectionResult) : bool :=
  match o with Ok r => bool_decide (pr_status r = PROJECTED) | Raise _ => false end.

Lemma checks_never_projected id p j a db r :
  projection_checks id p j a db = Return r -> pr_status r <> PROJECTED.
Proof.
  revert r. unfold projection_checks.
  repeat first
    [ apply (flow_bind_Return _ _ (fun r => pr_status r <> PROJECTED)); [|intros ?]
    | apply (return_if_Return _ _ (fun r => pr_status r <> PROJECTED))
    | apply (some_or_Return _ _ (fun r => pr_status r <> PROJECTED))
    | apply (call_or_Return _ _ _ (fun r => pr_status r <> PROJECTED)); intros ?
    | discriminate
    | progress cbn [_result pr_status] ].
  case_bool_decide; discriminate.
Qed.

(** The stricter projection decoder accepts what the workspace decoder accepts. *)
Lemma decode_state_projection_Ok json w :
  _decode_workspace_projection json = Ok w ->
  exists state, load_state_json json = Ok state /\ _decode_state_projection json = Ok state.
Proof.
  unfold _decode_workspace_projection, _decode_state_projection. intros H.
  apply res_bind_Ok in H as (state & Hl & H). exists state. split; [done|]. rewrite Hl. cbn [res_bind].
  destruct (dict_get "metadata" state) as [[| | | | | |m]|]; try done.
  destruct (dict_get "workspace_id" m) as [[| | | |x| |]|]; try done.
  apply res_bind_Ok in H as (? & H1%raise_if_Ok & _). by rewrite H1.
Qed.

Lemma projection_checks_sound id p j a db d s state :
  projection_checks id p j a db = Next (d, s, state) ->
  exists row, completable id p j a db d row /\ _decode_task_snapshot (task_id (dec_body d)) row = Ok s /\
    load_state_json (t_state_json row) = Ok state.
Proof.
  unfold projection_checks, completable.
  intros H.
  apply flow_bind_Next in H as (so & Hso%call_or_Next & H).
  apply flow_bind_Next in H as (st & ->%some_or_Next & H).
  apply flow_bind_Next in H as (? & Ha%return_if_Next%negb_false_iff & H).
  apply flow_bind_Next in H as (? & Hau%return_if_Next%negb_false_iff%bool_decide_eq_true & H).
  apply flow_bind_Next in H as (? & Hout%return_if_Next%negb_false_iff%bool_decide_eq_true & H).
  apply flow_bind_Next in H as (row & Hrow%some_or_Next & H).
  apply flow_bind_Next in H as (snap & Hsnap%call_or_Next & H).
  apply flow_bind_Next in H as (? & Hterm%return_if_Next & H).
  apply flow_bind_Next in H as (grow & Hgrow%some_or_Next & H).
  apply flow_bind_Next in H as (g & Hg%call_or_Next & H).
  apply flow_bind_Next in H as (? & Hscope%return_if_Next%negb_false_iff & H).
  apply flow_bind_Next in H as (? & Hbind%call_or_Next & H).
  apply flow_bind_Next in H as (? & Hrun%return_if_Next%negb_false_iff & H).
  apply flow_bind_Next in H as (? & Hchild%return_if_Next & H).
  apply flow_bind_Next in H as (? & Hfence%return_if_Next & H).
  apply flow_bind_Next in H as (state' & Hstate%call_or_Next & H). injection H as <- <- <-.
  exists row. pose proof Hsnap as Hsnap'.
  apply decode_task_snapshot_Ok in Hsnap as (H1 & H2 & H3 & H4 & H5 & H6 & Es).
  apply select_task_Some in Hrow as (Hr & Hp & Hj).
  apply validate_binding_Ok in Hbind as (_ & _ & _ & B4 & B5 & B6 & B7 & B8 & B9).
  rewrite Es in B6, B7, B8, B9. cbn in B6, B7, B8, B9.
  unfold _goal_row_matches_scope in Hscope. rewrite !andb_true_iff, !bool_decide_eq_true in Hscope.
  destruct Hscope as [[_ S2] S3].
  apply str_in_true, list_elem_of_singleton in Hrun. rewrite Es in Hrun. cbn in Hrun.
  destruct (decode_state_projection_Ok _ _ H6) as (st1 & L1 & L2).
  assert (st1 = state') as -> by congruence.
  split_and!; try done; try congruence.
  - by exists st.
  - unfold bound. split_and!; try done; try congruence. exists grow, g. split_and!; done.
Qed.

Lemma projection_checks_complete id p j a db d s state row :
  completable id p j a db d row -> _decode_task_snapshot (task_id (dec_body d)) row = Ok s ->
  load_state_json (t_state_json row) = Ok state ->
  projection_checks id p j a db = Next (d, s, state).
Proof.
  unfold projection_checks, completable.
  intros ((st & Hst & <-) & Ha & Hau & Hout & Hb & Hrun & Hchild & Hfence) Hsnap Hload.
  destruct Hb as (Hr & Hp & Hj & Hc & Hv & Hs & Hw & Ht & Hpe & Hse & Hv0 & grow & g & Hgrow & Gp & Gj & Hg & B4 & B5).
  rewrite Hst. cbn [call_or some_or flow_bind]. rewrite Ha, Hau, Hout. cbn [negb return_if flow_bind bool_decide].
  rewrite !bool_decide_true by done. cbn [negb return_if flow_bind].
  rewrite (proj2 (select_task_Some _ _ _ _ row)) by done. cbn [some_or flow_bind].
  rewrite Hsnap. cbn [call_or flow_bind]. pose proof Hsnap as Hsnap'.
  apply decode_task_snapshot_Ok in Hsnap as (H1 & H2 & H3 & H4 & H5 & H6 & Es).
  assert (ts_task_status s = "running") as Ers by (rewrite Es; done).
  rewrite Ers. cbn [return_if flow_bind]. replace (str_in "running" _TERMINAL_TASK_STATUSES) with false by done.
  cbn [return_if flow_bind]. rewrite Hgrow. cbn [some_or flow_bind]. rewrite Hg. cbn [call_or flow_bind].
  assert (_goal_row_matches_scope grow (task_id (dec_body (st_decision st))) p j = true) as ->.
  { unfold _goal_row_matches_scope. apply select_Some in Hgrow as [_ Hgt]. rewrite Hgt.
    by rewrite !bool_decide_true. }
  cbn [negb return_if flow_bind].
  rewrite (proj2 (validate_binding_Ok _ s g p j tt)).
  2: { rewrite Es. cbn. split_and!; try done; try congruence.
    apply cognitive_value_inj. congruence. }
  cbn [call_or flow_bind]. replace (str_in "running" _ELIGIBLE_TASK_STATUSES) with true by done.
  cbn [negb return_if flow_bind]. rewrite Hchild, Hfence. cbn [return_if flow_bind].
  destruct (decode_state_projection_Ok _ _ Hw) as (st1 & L1 & L2). rewrite L2.
  assert (st1 = state) as -> by congruence. done.
Qed.

Lemma completion_update_bound d p j db row s json now :
  bound d p j db row -> _decode_task_snapshot (task_id (dec_body d)) row = Ok s ->
  completion_update (coding_tasks db) (task_id (dec_body d)) p j s json now
  = (1, <[task_id (dec_body d) := set_completed row json now]> (coding_tasks db)).
Proof.
  intros (Hr & Hp & Hj & _) (H1 & _ & _ & _ & _ & _ & Es)%decode_task_snapshot_Ok.
  unfold completion_update. rewrite Hr, Hp, Hj, Es, H1. cbn. by rewrite !bool_decide_true, Z.eqb_refl.
Qed.

(** The two outcomes of a projection. *)
Lemma project_completion_cases now id p j a token db o db' :
  project_completion now id p j a token db = (o, db') ->
  if is_projected o then
    token = true /\ exists d row row', completable id p j a db d row /\ completed_row row now row' /\
      o = Ok (MkProjection PROJECTED id (Some (decision_digest d)) (Some "completed") EmptyString) /\
      db' = with_tasks db (<[task_id (dec_body d) := row']> (coding_tasks db))
  else db' = db.
Proof.
  unfold project_completion. destruct (_gate_validate_scope id p j ;;* _) as [u|e] eqn:Ev;
    [|by intros [= <- <-]].
  apply res_bind_Ok in Ev as (? & _ & Htok%raise_if_Ok%negb_false_iff).
  unfold transaction, projection_body.
  destruct (projection_checks id p j a db) as [[[d s] state]|r|e] eqn:Ec.
  - apply projection_checks_sound in Ec as (row & Hc & Hs & Hl).
    pose proof Hc as (_ & _ & _ & _ & Hb & _).
    unfold encode_utf8. destruct (has_surrogate _) eqn:Esur; cbn [raise_if res_bind try_except].
    + intros [= <- <-]. done.
    + rewrite (completion_update_bound _ _ _ _ _ _ _ _ Hb Hs). cbn. intros [= <- <-].
      cbn. split; [done|]. exists d, row. eexists. split_and!; [done| |done|done]. by exists state.
  - intros [= <- <-]. cbn [is_projected try_except]. rewrite bool_decide_false; [done|].
    by eapply checks_never_projected.
  - intros [<- <-]%pair_eq. replace (is_projected _) with false; [done|]. cbn [try_except].
    by destruct (existsb _ _).
Qed.

(** C1. Safety of completion: a projection reports PROJECTED only to a holder of
    the gate token, for a stored COMPLETE decision with a matching AUTHORIZED
    result, whose recorded snapshot still equals the owned running task and its
    goal, with no active child or dispatch fence; then exactly that row becomes
    completed (only status, state_json and updated_at change).  Every other
    answer, and every exception, leaves the database as it was. *)
Theorem project_completion_safe now id p j a token db o db' :
  project_completion now id p j a token db = (o, db') ->
  if is_projected o then
    token = true /\ exists d row row', completable id p j a db d row /\ completed_row row now row' /\
      db' = with_tasks db (<[task_id (dec_body d) := row']> (coding_tasks db))
  else db' = db.
Proof.
  intros H%project_completion_cases. destruct (is_projected o); [|done].
  destruct H as (Ht & d & row & row' & Hc & Hr & _ & ->). split; [done|]. by exists d, row, row'.
Qed.

Lemma project_completion_works now id p j a db d row state :
  str_empty id = false -> completable id p j a db d row ->
  load_state_json (t_state_json row) = Ok state -> has_surrogate (completed_state state now) = false ->
  project_completion now id p j a true db
  = (Ok (MkProjection PROJECTED id (Some (decision_digest d)) (Some "completed") EmptyString),
     with_tasks db (<[task_id (dec_body d) := set_completed row (completed_state state now) now]> (coding_tasks db))).
Proof.
  intros Hid Hc Hl Hsur. pose proof Hc as (_ & _ & _ & _ & Hb & _).
  destruct Hb as (Hr & Hp & Hj & Hcog & Hv & Hst & Hw & Ht & Hpe & Hse & Hv0 & Hg).
  assert (exists s, _decode_task_snapshot (task_id (dec_body d)) row = Ok s) as [s Hs].
  { exists (MkTaskSnapshot (task_id (dec_body d)) (t_principal_id row) (t_project_id row)
      (cognitive_state (dec_body d)) (t_control_state_version row) (t_status row) (workspace_id (dec_body d))).
    apply decode_task_snapshot_Ok. cbn. split_and!; try done. by rewrite Hp. }
  unfold project_completion, _gate_validate_scope. rewrite Hid, Hpe. cbn [raise_if res_bind negb].
  unfold transaction, projection_body.
  rewrite (projection_checks_complete _ _ _ _ _ _ _ _ _ Hc Hs Hl). unfold encode_utf8. rewrite Hsur.
  cbn [raise_if res_bind].
  pose proof Hc as (_ & _ & _ & _ & Hb & _).
  by rewrite (completion_update_bound _ _ _ _ _ _ _ _ Hb Hs).
Qed.

(** Progress of completion: whenever those conditions hold (and the updated
    state is encodable text), the projection succeeds. *)
Theorem project_completion_progress now id p j a db d row state :
  str_empty id = false -> completable id p j a db d row ->
  load_state_json (t_state_json row) = Ok state -> has_surrogate (completed_state state now) = false ->
  project_completion now id p j a true db
  = (Ok (MkProjection PROJECTED id (Some (decision_digest d)) (Some "completed") EmptyString),
     with_tasks db (<[task_id (dec_body d) := set_completed row (completed_state state now) now]> (coding_tasks db))).
Proof. apply project_completion_works. Qed.

(** ** The gate *)
Lemma stored_digest_nonempty id p j db d :
  stored_as id p j db d -> str_empty (decision_digest d) = false.
Proof.
  intros (s & Hs & <-). destruct (select_decision db id p j) as [r|]; [|done].
  unfold _decode_row, cdi_if in Hs. apply res_bind_Ok in Hs as (? & Hg%raise_if_Ok & Hs).
  do 4 (apply res_bind_Ok in Hs as (? & _ & Hs)). apply res_bind_Ok in Hs as (d & _ & Hs).
  apply res_bind_Ok in Hs as (? & Hd%raise_if_Ok & [= <-]). cbn [st_decision].
  rewrite !orb_false_iff in Hg. apply orb_false_iff in Hd as [_ ->%neq_s_false]. tauto.
Qed.

Definition gate_completed (o : res CompletionGateResult) : bool :=
  match o with Ok r => bool_decide (g_status r = G_COMPLETED) | Raise _ => false end.

Lemma make_gate_result_status st id dg ts rs r :
  make_gate_result st id dg ts rs = Ok r -> g_status r = st.
Proof.
  unfold make_gate_result. intros H. do 4 (apply res_bind_Ok in H as (? & _ & H)). by injection H as <-.
Qed.

Lemma not_completed st id dg ts rs : st <> G_COMPLETED -> gate_completed (make_gate_result st id dg ts rs) = false.
Proof.
  intros Hst. destruct (make_gate_result _ _ _ _ _) eqn:E; [|done]. cbn.
  rewrite (make_gate_result_status _ _ _ _ _ _ E). by apply bool_decide_false.
Qed.

Section GateSpec.
Context {P : Type} `{AuthorityPolicy P} (policy : P).
Variables p j : string.
Variable active_count : option (string -> res Z).
Variable has_projection : bool.

Lemma gate_checks_not_completed id v r :
  gate_checks policy p j active_count id v = Return r -> gate_completed r = false.
Proof.
  revert r. unfold gate_checks.
  repeat first
    [ apply (flow_bind_Return _ _ (fun r => gate_completed r = false)); [|intros ?]
    | apply (return_if_Return _ _ (fun r => gate_completed r = false))
    | apply (some_or_Return _ _ (fun r => gate_completed r = false))
    | apply (call_or_Return _ _ _ (fun r => gate_completed r = false)); intros ?
    | apply not_completed; discriminate
    | discriminate ].
  - destruct active_count; [|discriminate].
    apply (call_or_Return _ _ _ (fun r => gate_completed r = false)). intros e. by apply not_completed.
  - apply not_completed. by case_bool_decide.
Qed.

Lemma gate_checks_Next id v d a :
  gate_checks policy p j active_count id v = Next (d, a) ->
  (exists s, get_by_id id p j (v_decision v) = Ok (Some s) /\ st_decision s = d) /\
  outcome (dec_body d) = COMPLETE /\
  match active_count with Some reader => exists n, reader (task_id (dec_body d)) = Ok n /\ n <= 0 | None => True end /\
  exists g, goal_get_for_task (task_id (dec_body d)) p j (v_goal v) = Ok (Some g) /\
    authorize policy g d p j = Ok a /\ _authority_matches a d = true /\ au_status a = AUTHORIZED.
Proof.
  unfold gate_checks. intros H'.
  apply flow_bind_Next in H' as (so & Hso%call_or_Next & H').
  apply flow_bind_Next in H' as (st & ->%some_or_Next & H').
  apply flow_bind_Next in H' as (? & _ & H').
  apply flow_bind_Next in H' as (? & Hout%return_if_Next%negb_false_iff%bool_decide_eq_true & H').
  apply flow_bind_Next in H' as (n & Hn & H').
  apply flow_bind_Next in H' as (? & Hn0%return_if_Next & H').
  apply flow_bind_Next in H' as (go & Hgo%call_or_Next & H').
  apply flow_bind_Next in H' as (g & ->%some_or_Next & H').
  apply flow_bind_Next in H' as (? & _ & H').
  apply flow_bind_Next in H' as (a' & Ha%call_or_Next & H').
  apply flow_bind_Next in H' as (? & Hm%return_if_Next%negb_false_iff & H').
  apply flow_bind_Next in H' as (? & Hau%return_if_Next%negb_false_iff%bool_decide_eq_true & H').
  injection H' as <- <-. split_and!.
  - by exists st.
  - done.
  - destruct active_count as [reader|]; [|done]. apply call_or_Next in Hn. exists n. split; [done|lia].
  - by exists g.
Qed.

Lemma gate_evaluate_cases now id v o db' m :
  gate_evaluate policy p j active_count has_projection now id v = (o, db', m) ->
  if gate_completed o then
    exists d0 g a d row row',
      authorize policy g d0 p j = Ok a /\ au_status a = AUTHORIZED /\ _authority_matches a d0 = true /\
      completable id p j a (v_project v) d row /\ completed_row row now row' /\
      db' = with_tasks (v_project v) (<[task_id (dec_body d) := row']> (coding_tasks (v_project v)))
  else db' = v_project v.
Proof.
  unfold gate_evaluate. destruct (_require_gate_text id "decision_id") as [u|e] eqn:Eid; [|by intros [= <- <- <-]].
  unfold _require_gate_text in Eid. apply raise_if_Ok in Eid.
  destruct (gate_checks _ _ _ _ id v) as [[d0 a]|r|e] eqn:Ec.
  - apply gate_checks_Next in Ec as (_ & _ & _ & g & _ & Ha & Hm & Hau).
    destruct (project_completion _ _ _ _ _ _ _) as [[r|e] db1] eqn:Ep; apply project_completion_cases in Ep.
    + intros [[<- <-]%pair_eq _]%pair_eq. destruct (is_projected (Ok r)) eqn:Er.
      * destruct Ep as (_ & d & row & row' & Hc & Hrow & [= ->] & ->).
        pose proof Hc as (Hst & _). apply stored_digest_nonempty in Hst as Hd.
        assert (_map_projection_result (MkProjection PROJECTED id (Some (decision_digest d)) (Some "completed") EmptyString)
          id (decision_digest d0) = Ok (MkGateResult G_COMPLETED id (Some (decision_digest d)) (Some "completed") EmptyString)) as ->.
        { unfold _map_projection_result, make_gate_result, _require_gate_text. cbn [pr_decision_digest pr_status].
          rewrite Hd. cbn [require_optional_gate_text]. unfold _require_gate_text. rewrite Eid, Hd. done. }
        cbn. exists d0, g, a, d, row, row'. split_and!; done.
      * replace (gate_completed _) with false; [done|]. symmetry. apply not_completed.
        cbn in Er. apply bool_decide_eq_false in Er. by destruct (pr_status r).
    + intros [= <- <- <-]. unfold _gate_error. rewrite not_completed by done. done.
  - intros [= <- <- <-]. apply gate_checks_not_completed in Ec as ->. done.
  - by intros [= <- <- <-].
Qed.
End GateSpec.

(** C4. The gate is the only road to completion and reports it truthfully: for
    any authority policy and any database contents at its successive reads, it
    answers COMPLETED exactly when the final transaction completed a task, and
    then that policy had issued an AUTHORIZED result bound to a decision and the
    database at that last moment satisfied every completion condition. *)
Theorem gate_sound {P} `{AuthorityPolicy P} (policy : P) p j active_count has_projection now id v o db' m :
  gate_evaluate policy p j active_count has_projection now id v = (o, db', m) ->
  if gate_completed o then
    exists d0 g a d row row',
      authorize policy g d0 p j = Ok a /\ au_status a = AUTHORIZED /\ _authority_matches a d0 = true /\
      completable id p j a (v_project v) d row /\ completed_row row now row' /\
      db' = with_tasks (v_project v) (<[task_id (dec_body d) := row']> (coding_tasks (v_project v)))
  else db' = v_project v.
Proof. apply gate_evaluate_cases. Qed.

(** The production default fails closed: under the default policy no gate
    evaluation ever completes a task or changes the database, whatever is
    stored. *)
Theorem fail_closed_never_completes p j active_count has_projection now id v :
  let '(o, db', m) := gate_evaluate FailClosedPolicy p j active_count has_projection now id v in
  gate_completed o = false /\ db' = v_project v /\ m = None.
Proof.
  destruct (gate_evaluate _ _ _ _ _ _ _ _) as [[o db'] m] eqn:E. pose proof E as E'.
  unfold gate_evaluate in E'. destruct (_require_gate_text _ _); [|by injection E' as <- <- <-].
  destruct (gate_checks _ _ _ _ id v) as [[d au]|r|e] eqn:Ec.
  - apply gate_checks_Next in Ec as (_ & _ & _ & g & _ & Ha & _ & Hau).
    unfold authorize, fail_closed_policy, make_authority in Ha.
    do 6 (apply res_bind_Ok in Ha as (? & _ & Ha)). injection Ha as <-. discriminate Hau.
  - injection E' as <- <- <-. split; [|done]. by eapply gate_checks_not_completed.
  - by injection E' as <- <- <-.
Qed.

(** Completion is final: once a task has been projected, neither a later
    projection (by any caller, for any decision) nor any cognitive
    compare-and-set changes its row again. *)
Theorem completion_is_final now id p j a token db o db' d row row' :
  project_completion now id p j a token db = (o, db') -> is_projected o = true ->
  completable id p j a db d row ->
  coding_tasks db' !! task_id (dec_body d) = Some row' ->
  t_status row' = "completed" /\
  (forall now2 id2 p2 j2 a2 token2 o2 db2,
     project_completion now2 id2 p2 j2 a2 token2 db' = (o2, db2) ->
     coding_tasks db2 !! task_id (dec_body d) = Some row') /\
  (forall rq o2 tasks2,
     compare_and_transition rq (coding_tasks db') = (o2, tasks2) ->
     tasks2 !! task_id (dec_body d) = Some row').
Proof.
  intros H Hproj ((s & Hs & <-) & _) Hrow. apply project_completion_cases in H. rewrite Hproj in H.
  destruct H as (_ & d' & r0 & r1 & ((s' & Hs' & <-) & _) & (state & _ & ->) & _ & ->).
  assert (s' = s) as -> by congruence. cbn [coding_tasks with_tasks] in *.
  rewrite lookup_insert_eq in Hrow. injection Hrow as <-. split; [done|]. split.
  - intros now2 id2 p2 j2 a2 token2 o2 db2 H2%project_completion_cases.
    destruct (is_projected o2); [|subst; cbn; apply lookup_insert_eq].
    destruct H2 as (_ & d2 & r2 & r2' & Hc & _ & _ & ->). cbn [coding_tasks with_tasks].
    rewrite lookup_insert_ne; [apply lookup_insert_eq|]. intros E.
    destruct Hc as (_ & _ & _ & _ & (Hl & _) & Hrun & _). cbn [coding_tasks with_tasks] in Hl.
    rewrite E, lookup_insert_eq in Hl. injection Hl as <-. discriminate Hrun.
  - intros rq o2 tasks2 [Hu Hn]%compare_and_transition_cases.
    destruct (is_updated o2) eqn:Eu; [|rewrite Hn by done; apply lookup_insert_eq].
    destruct (Hu eq_refl) as (r & Hr & (Hp & _) & ->).
    destruct (decide (rq_task_id rq = task_id (dec_body (st_decision s)))) as [E|E].
    + exfalso. rewrite E, lookup_insert_eq in Hr. injection Hr as <-.
      unfold cas_predicate in Hp. rewrite !andb_true_iff in Hp. destruct Hp as [_ Hp]. discriminate Hp.
    + rewrite lookup_insert_ne by done. apply lookup_insert_eq.
Qed.

(** ** Progress of the gate *)
Lemma get_by_id_stored id p j db d :
  str_empty id = false -> str_empty p = false -> stored_as id p j db d ->
  exists s, get_by_id id p j db = Ok (Some s) /\ st_decision s = d /\ decision_id d = id /\
    st_principal_id s = p /\ st_project_id s = j.
Proof.
  intros Hid Hp (s & Hs & <-). exists s. unfold get_by_id, _validate_lookup_id, _validate_scope.
  rewrite Hid, Hp. cbn [raise_if res_bind str_empty]. split; [done|]. split; [done|].
  destruct (select_decision db id p j) as [r|]; [|done].
  unfold _decode_row, cdi_if in Hs. apply res_bind_Ok in Hs as (? & _ & Hs).
  apply res_bind_Ok in Hs as (? & E1%raise_if_Ok%neq_s_false & Hs). apply res_bind_Ok in Hs as (? & _ & Hs).
  apply res_bind_Ok in Hs as (? & E2%raise_if_Ok%neq_s_false & Hs).
  apply res_bind_Ok in Hs as (? & E3%raise_if_Ok%neq_s_false & Hs).
  apply res_bind_Ok in Hs as (d & _ & Hs). apply res_bind_Ok in Hs as (? & Hd%raise_if_Ok & [= <-]).
  rewrite !orb_false_iff in Hd. destruct Hd as [[[Hd%neq_s_false _] _] _].
  cbn [st_decision st_principal_id st_project_id]. split_and!; congruence.
Qed.

(** The gate's goal reader and the projection's goal check agree on a bound row. *)
Lemma goal_get_for_task_bound t p j db grow g :
  str_empty t = false -> str_empty p = false ->
  _select_goal_spec db t = Some grow -> gr_principal_id grow = p -> gr_project_id grow = j ->
  _decode_goal_spec_row grow = Ok g -> goal_get_for_task t p j db = Ok (Some g).
Proof.
  intros Ht Hp Hsel Gp Gj Hg. unfold goal_get_for_task. rewrite owner_inputs_ok by done. cbn [res_bind].
  assert (select (fun r => bool_decide (gr_task_id r = t) && owned_goal p j r) (goal_specs db) = Some grow) as ->.
  { unfold _select_goal_spec, select in *. induction (goal_specs db) as [|x l IH]; [done|].
    cbn [List.find] in *. destruct (bool_decide (gr_task_id x = t)) eqn:E; [|by apply IH].
    injection Hsel as ->. unfold owned_goal. by rewrite Gp, Gj, !bool_decide_true. }
  apply select_Some in Hsel as [_ Htask%bool_decide_eq_true].
  unfold _decode_goal_spec_row, cdi_if in Hg. apply res_bind_Ok in Hg as (? & H1%raise_if_Ok & Hg).
  apply res_bind_Ok in Hg as (spec & Hspec & Hg). apply try_except_reraise in Hspec; [|done].
  apply res_bind_Ok in Hg as (? & H2%raise_if_Ok & [= <-]).
  rewrite !orb_false_iff in H1. apply orb_false_iff in H2 as [H6 H7].
  destruct H1 as [[[H1 H3] H4] H5].
  unfold GoalRepository._decode_row. rewrite H1, H3, H4, H5. cbn [orb GoalRepository.differs].
  rewrite Gp, Gj, Htask, !bool_decide_true by done. cbn [negb raise_if res_bind].
  rewrite Hspec. cbn [res_bind]. by rewrite H6, H7.
Qed.

(** C36. Liveness of the gate: when the database satisfies every completion
    condition, no active child is reported, and the policy grants a bound
    authority, one evaluation completes the task and says so. *)
Theorem gate_completes {P} `{AuthorityPolicy P} (policy : P) p j active_count has_projection now id db a d row state :
  str_empty id = false -> completable id p j a db d row ->
  load_state_json (t_state_json row) = Ok state -> has_surrogate (completed_state state now) = false ->
  match active_count with Some reader => exists n, reader (task_id (dec_body d)) = Ok n /\ n <= 0 | None => True end ->
  (forall g, authorize policy g d p j = Ok a) ->
  gate_evaluate policy p j active_count has_projection now id (MkViews db db db)
  = (Ok (MkGateResult G_COMPLETED id (Some (decision_digest d)) (Some "completed") EmptyString),
     with_tasks db (<[task_id (dec_body d) := set_completed row (completed_state state now) now]> (coding_tasks db)),
     if has_projection then Some (task_id (dec_body d)) else None).
Proof.
  intros Hid Hc Hl Hsur Hcount Hauth. pose proof Hc as (Hst & Hm & Hau & Hout & Hb & _).
  destruct Hb as (Hr & Hp & Hj & Hcog & Hv & Hs & Hw & Ht & Hpe & Hse & Hv0 & grow & g & Hgrow & Gp & Gj & Hg & B4 & B5).
  destruct (get_by_id_stored _ _ _ _ _ Hid Hpe Hst) as (s & Hs1 & Hs2 & Hs3 & Hs4 & Hs5).
  assert (forall x, neq_s x x = false) as Hn by (intros; by apply neq_s_false).
  assert (gate_checks policy p j active_count id (MkViews db db db) = Next (d, a)) as Hck.
  { unfold gate_checks. cbn [v_decision v_goal]. rewrite Hs1. cbn [call_or some_or flow_bind].
    rewrite Hs2, Hs3, Hs4, Hs5, !Hn. cbn [orb return_if flow_bind]. rewrite Hout, bool_decide_true by done.
    cbn [negb return_if flow_bind].
    assert (exists n, match active_count with
      | None => Next 0
      | Some reader => call_or (reader (task_id (dec_body d))) [Exception]
          (fun e => _gate_error id (Some (decision_digest d)) (Some (task_status_at_evaluation (dec_body d)))
                      (exn_name (exn_cls e)))
      end = Next n /\ n <= 0) as (n & -> & Hn0).
    { destruct active_count as [reader|]; [|by exists 0]. destruct Hcount as (n & Hrd & ?).
      exists n. by rewrite Hrd. }
    cbn [flow_bind]. replace (0 <? n) with false by lia. cbn [return_if flow_bind].
    rewrite (goal_get_for_task_bound _ _ _ _ _ _ Ht Hpe Hgrow Gp Gj Hg). cbn [call_or some_or flow_bind].
    rewrite B4, B5, !Hn. cbn [orb return_if flow_bind]. rewrite Hauth. cbn [call_or flow_bind].
    unfold authorized. rewrite Hm, Hau, bool_decide_true by done. done. }
  unfold gate_evaluate. unfold _require_gate_text at 1. rewrite Hid. cbn [raise_if]. rewrite Hck.
  cbn [v_project]. rewrite (project_completion_works _ _ _ _ _ _ _ _ _ Hid Hc Hl Hsur).
  unfold _map_projection_result, make_gate_result, _require_gate_text. cbn [pr_decision_digest pr_status pr_task_status pr_reason].
  rewrite (stored_digest_nonempty _ _ _ _ _ Hst). cbn [require_optional_gate_text]. unfold _require_gate_text.
  rewrite Hid, (stored_digest_nonempty _ _ _ _ _ Hst). cbn. by destruct has_projection.
Qed.

(** ** A concrete completion *)
Definition the_decision : CompletionDecision := canonical_decision (decided []).
Definition gate_db : Db :=
  with_decisions sample_db
    [MkDecisionRow "d1" "t1" "alice" "p1" 1 1 (decision_digest (decided []))
       (dumpsc (decision_to_canonical_mapping (decided []))) "t0"].
Definition grant : CompletionAuthorityResult :=
  MkAuthority "t1" "g1" (semantic_digest sample_goal) "d1" (decision_digest (decided [])) AUTHORIZED EmptyString.

Lemma gate_db_stored : stored_as "d1" "alice" "p1" gate_db the_decision.
Proof.
  exists (MkStored the_decision 1 "alice" "p1" "t0"). split; [|done].
  replace (select_decision gate_db "d1" "alice" "p1") with (Some (MkDecisionRow (decision_id (decided []))
    (task_id (dec_body (decided []))) "alice" "p1" 1 (schema_version (dec_body (decided [])))
    (decision_digest (decided [])) (dumpsc (decision_to_canonical_mapping (decided []))) "t0")) by reflexivity.
  apply decode_appended; [exact decided_ok| |lia|reflexivity..].
  apply canonical_json_bytes_Ok; [apply mapping_plain|]. split; [reflexivity|]. vm_compute. reflexivity.
Qed.

Lemma gate_db_completable : completable "d1" "alice" "p1" grant gate_db the_decision sample_task.
Proof.
  split; [exact gate_db_stored|]. split; [|split; [reflexivity|split; [reflexivity|split; [|split_and!; reflexivity]]]].
  - unfold _authority_matches. cbn -[bool_decide]. by rewrite !bool_decide_true.
  - unfold bound. split_and!; [vm_compute; reflexivity..|vm_compute; discriminate|].
    eexists _, (canonical_goal sample_goal). split; [reflexivity|]. split; [reflexivity|].
    split; [reflexivity|]. split; [vm_compute; reflexivity|]. split; reflexivity.
Qed.

Definition sample_state : list (string * pyval) :=
  [("metadata", PDict [("workspace_id", PStr "w1")]); ("status", PStr "running")].

Example project_completion_progress_witness :
  project_completion "now" "d1" "alice" "p1" grant true gate_db
  = (Ok (MkProjection PROJECTED "d1" (Some (decision_digest the_decision)) (Some "completed") EmptyString),
     with_tasks gate_db (<[task_id (dec_body the_decision) :=
       set_completed sample_task (completed_state sample_state "now") "now"]> (coding_tasks gate_db))).
Proof.
  apply project_completion_progress; [reflexivity|exact gate_db_completable|vm_compute; reflexivity..].
Defined.

Lemma gate_db_projected :
  exists o db', project_completion "now" "d1" "alice" "p1" grant true gate_db = (o, db') /\ is_projected o = true /\
    coding_tasks db' !! "t1" = Some (set_completed sample_task (completed_state sample_state "now") "now").
Proof.
  do 2 eexists. split.
  - apply project_completion_works; [reflexivity|exact gate_db_completable|vm_compute; reflexivity..].
  - split; [done|]. apply lookup_insert_eq.
Qed.

Example project_completion_safe_witness :
  exists o db' d row row', project_completion "now" "d1" "alice" "p1" grant true gate_db = (o, db') /\
    completable "d1" "alice" "p1" grant gate_db d row /\
    db' = with_tasks gate_db (<[task_id (dec_body d) := row']> (coding_tasks gate_db)).
Proof.
  destruct gate_db_projected as (o & db' & E & Ho & _).
  pose proof (project_completion_safe _ _ _ _ _ _ _ _ _ E) as H. rewrite Ho in H.
  destruct H as (_ & d & row & row' & Hc & _ & Hdb). exists o, db', d, row, row'.
  split; [exact E|]. split; [exact Hc|exact Hdb].
Defined.

Example completion_is_final_witness :
  exists o db', project_completion "now" "d1" "alice" "p1" grant true gate_db = (o, db') /\
    forall rq o2 tasks2, compare_and_transition rq (coding_tasks db') = (o2, tasks2) ->
      tasks2 !! "t1" = Some (set_completed sample_task (completed_state sample_state "now") "now").
Proof.
  destruct gate_db_projected as (o & db' & E & Ho & Hrow). exists o, db'. split; [exact E|].
  exact (proj2 (proj2 (completion_is_final _ _ _ _ _ _ _ _ _ _ _ _ E Ho gate_db_completable Hrow))).
Defined.

(** A policy that grants, and a gate that sees one database throughout. *)
Inductive Granting := GrantingPolicy.
#[export] Instance granting_policy : AuthorityPolicy Granting := fun _ _ d _ _ =>
  make_authority (task_id (dec_body d)) (goal_spec_id (dec_body d)) (goal_spec_digest (dec_body d))
    (decision_id d) (decision_digest d) AUTHORIZED EmptyString.

Example gate_completes_witness :
  gate_evaluate GrantingPolicy "alice" "p1" None true "now" "d1" (MkViews gate_db gate_db gate_db)
  = (Ok (MkGateResult G_COMPLETED "d1" (Some (decision_digest the_decision)) (Some "completed") EmptyString),
     with_tasks gate_db (<[task_id (dec_body the_decision) :=
       set_completed sample_task (completed_state sample_state "now") "now"]> (coding_tasks gate_db)),
     Some "t1").
Proof.
  refine (gate_completes GrantingPolicy "alice" "p1" None true "now" "d1" gate_db grant the_decision sample_task
            sample_state _ gate_db_completable _ _ I _).
  - reflexivity.
  - vm_compute. reflexivity.
  - vm_compute. reflexivity.
  - intros g. unfold authorize, granting_policy, make_authority. vm_compute. reflexivity.
Defined.

Example gate_sound_witness :
  exists o db' m,
    gate_evaluate FailClosedPolicy "alice" "p1" None false "now" "d2" (MkViews gate_db gate_db gate_db) = (o, db', m) /\
    db' = gate_db.
Proof.
  destruct (gate_evaluate FailClosedPolicy "alice" "p1" None false "now" "d2" (MkViews gate_db gate_db gate_db))
    as [[o db'] m] eqn:E.
  pose proof (gate_sound FailClosedPolicy _ _ _ _ _ _ _ _ _ _ E) as H. exists o, db', m. split; [done|].
  assert (gate_completed o = false) as Ho.
  { unfold gate_evaluate, gate_checks in E. cbn in E. by injection E as <- _ _. }
  rewrite Ho in H. exact H.
Defined.
