(* ===== verification/PlanDag.v ===== *)
(** * Implementation-plan step graphs ([coding/planning/dag.py])

    Validation and deterministic topological sorting of the steps of an
    implementation plan.  The code's worklists are loops with fuel; a result is
    [None] when a loop does not finish in its fuel or a subscript fails, and
    [toposort_correct] shows that this never happens. *)
From stdpp Require Import relations.
From S2P Require Import Prelude PyStr Json.
Open Scope Z_scope.

(** ** Contracts ([coding/planning/contracts.py]) *)
Inductive PlanOperation :=
| INSPECT | MODIFY | CREATE | DELETE | RENAME | TEST | DOCUMENT | CONFIGURE | UNKNOWN.
#[export] Instance PlanOperation_eq_dec : EqDecision PlanOperation.
Proof. solve_decision. Defined.

Record PlanEvidence := MkPlanEvidence {
  pe_source : string; pe_repository_id : string; pe_path : option string;
  pe_symbol_id : option string; pe_generation : option Z; pe_content_hash : option string;
  pe_query : string; pe_confidence : string; pe_metadata : list (string * pyval)
}.
Record VerificationRequirement := MkVerificationRequirement {
  vr_command : option (list string); vr_verification_type : string; vr_scope : string;
  vr_expected_result : string; vr_required : bool; vr_risk_level : string;
  vr_evidence : list PlanEvidence
}.
Record RiskAssessment := MkRiskAssessment {
  ra_level : string; ra_category : string; ra_description : string;
  ra_affected_scope : list string; ra_mitigation : string; ra_requires_approval : bool
}.
Record PlanDiagnostic := MkPlanDiagnostic {
  pd_code : string; pd_severity : string; pd_message : string; pd_recoverable : bool;
  pd_evidence : list PlanEvidence
}.
Record PlanStep := MkPlanStep {
  step_id : string; ps_title : string; ps_description : string; operation : PlanOperation;
  target_files : list string; target_symbols : list string; depends_on : list string;
  ps_expected_outcome : string; verification_requirements : list VerificationRequirement;
  ps_risk : RiskAssessment; ps_requires_approval : bool; ps_evidence : list PlanEvidence
}.

(** ** The code *)

(** [op in MODIFICATION_OPERATIONS] *)
Definition MODIFICATION_OPERATIONS (op : PlanOperation) : bool :=
  match op with
  | MODIFY | CREATE | DELETE | RENAME | CONFIGURE | DOCUMENT => true
  | INSPECT | TEST | UNKNOWN => false
  end.

(** [PlanDiagnostic(code, "error", message, False)] *)
Definition diagnostic (code message : string) : PlanDiagnostic :=
  MkPlanDiagnostic code "error" message false [].

(** A worklist pops at most one entry per initial entry and per dependency of a
    step that it expands once. *)
Fixpoint dep_total (by_id : list (string * PlanStep)) : nat :=
  match by_id with [] => 0 | (_, step) :: d => length (depends_on step) + dep_total d end.
Definition worklist_fuel (step : PlanStep) (by_id : list (string * PlanStep)) : nat :=
  length (depends_on step) + dep_total by_id.

Fixpoint inspection_loop (fuel : nat) (by_id : list (string * PlanStep))
    (pending seen : list string) : option bool :=
  match pending with
  | [] => Some false
  | current :: pending' =>
      match fuel with
      | O => None
      | S f =>
          match dict_get current by_id with
          | None => inspection_loop f by_id pending' seen
          | Some step =>
              if str_in current seen then inspection_loop f by_id pending' seen
              else if bool_decide (operation step = INSPECT) then Some true
              else inspection_loop f by_id (pending' ++ py_sorted (depends_on step)) (current :: seen)
          end
      end
  end.
Definition _inspection_ancestor (id : string) (by_id : list (string * PlanStep)) : option bool :=
  step ← dict_get id by_id;
  inspection_loop (worklist_fuel step by_id) by_id (py_sorted (depends_on step)) [].

Fixpoint ancestors_loop (fuel : nat) (by_id : list (string * PlanStep))
    (pending seen : list string) (result : list PlanStep) : option (list PlanStep) :=
  match pending with
  | [] => Some result
  | current :: pending' =>
      match fuel with
      | O => None
      | S f =>
          match dict_get current by_id with
          | None => ancestors_loop f by_id pending' seen result
          | Some step =>
              if str_in current seen then ancestors_loop f by_id pending' seen result
              else ancestors_loop f by_id (pending' ++ py_sorted (depends_on step))
                     (current :: seen) (result ++ [step])
          end
      end
  end.
Definition _ancestors (id : string) (by_id : list (string * PlanStep)) : option (list PlanStep) :=
  step ← dict_get id by_id;
  result ← ancestors_loop (worklist_fuel step by_id) by_id (py_sorted (depends_on step)) [] [];
  Some (sorted_by step_id result).

(** [counts[step.step_id] = counts.get(step.step_id, 0) + 1] for every step *)
Definition count_steps (steps : list PlanStep) : list (string * Z) :=
  foldl (fun d s => dict_set (step_id s) (default 0 (dict_get (step_id s) d) + 1) d) [] steps.

(** [{step.step_id: step for step in steps}] *)
Definition steps_by_id (steps : list PlanStep) : list (string * PlanStep) :=
  foldl (fun d s => dict_set (step_id s) s d) [] steps.

Definition unique_steps (steps : list PlanStep) : list (string * PlanStep) :=
  let counts := count_steps steps in
  steps_by_id (filter (fun s => dict_get (step_id s) counts = Some 1) (sorted_by step_id steps)).

Definition duplicate_ids (steps : list PlanStep) : list string :=
  py_sorted ((filter (fun kc : string * Z => 1 < kc.2) (count_steps steps)).*1).

Definition starts_verify (id : string) : bool := String.prefix "verify" id.

(** [bool(set(l) & set(k))] *)
Definition intersects (l k : list string) : bool := existsb (fun x => str_in x k) l.

(** The dependency loop of one step: its diagnostics and [valid_edges[step_id]]. *)
Definition dependency_check (unique : list (string * PlanStep)) (id : string) (step : PlanStep)
    : list PlanDiagnostic * gset string :=
  foldl (fun acc dependency =>
    if bool_decide (dependency ∉ dict_keys unique) then
      (acc.1 ++ [diagnostic "missing-step-dependency" (id +:+ ":" +:+ dependency)], acc.2)
    else if bool_decide (dependency = id) then
      (acc.1 ++ [diagnostic "self-step-dependency" id], acc.2)
    else (acc.1, {[dependency]} ∪ acc.2))
    ([], ∅) (py_sorted (remove_dups (depends_on step))).

Definition inspection_check (step : PlanStep) (inspected : bool) : list PlanDiagnostic :=
  if MODIFICATION_OPERATIONS (operation step) && negb inspected then
    [diagnostic (if bool_decide (operation step = DELETE) || bool_decide (operation step = RENAME)
                 then "destructive-without-inspection" else "invalid-operation-order") (step_id step)]
  else [].

Definition is_verification (step : PlanStep) : bool :=
  starts_verify (step_id step)
  || match verification_requirements step with [] => false | _ => true end.

(** The steps a verification step may verify. *)
Definition verifiable (item : PlanStep) : bool :=
  MODIFICATION_OPERATIONS (operation item)
  || (bool_decide (operation item = TEST) && negb (starts_verify (step_id item))).
Definition shares_target (step item : PlanStep) : bool :=
  intersects (target_files step) (target_files item)
  || intersects (target_symbols step) (target_symbols item).

Definition verification_check (step : PlanStep) (ancestors : list PlanStep) : list PlanDiagnostic :=
  if is_verification step then
    match filter (fun item => verifiable item = true) ancestors with
    | [] => [diagnostic "invalid-operation-order" (step_id step)]
    | modifications =>
        if existsb (shares_target step) modifications then []
        else [diagnostic "unrelated-verification-target" (step_id step)]
    end
  else [].

(** [item.operation is TEST and (item.step_id.startswith("verify") or
    item.verification_requirements)] *)
Definition verifying_test (item : PlanStep) : bool :=
  bool_decide (operation item = TEST) && is_verification item.
Definition order_check (step : PlanStep) (ancestors : list PlanStep) : list PlanDiagnostic :=
  if MODIFICATION_OPERATIONS (operation step) && existsb verifying_test ancestors
  then [diagnostic "invalid-operation-order" (step_id step)] else [].

(** The body of the loop over [sorted(unique)]. *)
Definition step_check (unique : list (string * PlanStep)) (entry : string * PlanStep)
    : option (list PlanDiagnostic * (string * gset string)) :=
  let (id, step) := entry in
  let (missing, edges) := dependency_check unique id step in
  inspected ← (if MODIFICATION_OPERATIONS (operation step) then _inspection_ancestor id unique
               else Some false);
  ancestors ← _ancestors id unique;
  Some (missing ++ inspection_check step inspected ++ verification_check step ancestors
          ++ order_check step ancestors, (id, edges)).

Abbreviation plan_graph := (list (string * gset string)).
(** [sorted(key for key, value in graph.items() if not value)] *)
Definition ready_keys (graph : plan_graph) : list string :=
  py_sorted ((filter (fun kv : string * gset string => kv.2 = ∅) graph).*1).
(** [graph.pop(key)] for every ready key, then [value.difference_update(ready)] *)
Definition remove_ready (ready : list string) (graph : plan_graph) : plan_graph :=
  (fun kv => (kv.1, kv.2 ∖ list_to_set ready)) <$> filter (fun kv => kv.1 ∉ ready) graph.

Fixpoint cycle_loop (fuel : nat) (graph : plan_graph) : option (list PlanDiagnostic) :=
  match graph with
  | [] => Some []
  | _ =>
      match fuel with
      | O => None
      | S f =>
          match ready_keys graph with
          | [] => Some [diagnostic "step-cycle" (join "," (py_sorted (dict_keys graph)))]
          | ready => cycle_loop f (remove_ready ready graph)
          end
      end
  end.

Definition validate_steps (steps : list PlanStep) : option (list PlanDiagnostic) :=
  let duplicates := diagnostic "duplicate-step-id" <$> duplicate_ids steps in
  let unique := unique_steps steps in
  checks ← mapM (step_check unique) (sorted_by fst unique);
  cycle ← cycle_loop (length unique) checks.*2;
  Some (sorted_by (fun d => (pd_code d, pd_message d)) (duplicates ++ concat checks.*1 ++ cycle)).

Fixpoint toposort_loop (fuel : nat) (by_id : list (string * PlanStep)) (graph : plan_graph)
    (result : list PlanStep) : option (list PlanStep) :=
  match graph with
  | [] => Some result
  | _ =>
      match fuel with
      | O => None
      | S f =>
          let ready := ready_keys graph in
          next ← mapM (fun key => dict_get key by_id) ready;
          toposort_loop f by_id (remove_ready ready graph) (result ++ next)
      end
  end.

(** [inl diagnostics] is [raise InvalidPlanDagError(diagnostics)]. *)
Definition topologically_sort_steps (steps : list PlanStep)
    : option (list PlanDiagnostic + list PlanStep) :=
  diagnostics ← validate_steps steps;
  match diagnostics with
  | [] =>
      let by_id := steps_by_id steps in
      let graph := (fun kv : string * PlanStep => (kv.1, list_to_set (depends_on kv.2))) <$> by_id in
      result ← toposort_loop (length by_id) by_id graph [];
      Some (inr result)
  | _ => Some (inl diagnostics)
  end.

(** ** Specification *)

(** [x] depends directly on [y], both being keys of the dictionary. *)
Definition dep_edge (by_id : list (string * PlanStep)) (x y : string) : Prop :=
  exists s, dict_get x by_id = Some s /\ y ∈ depends_on s /\ y ∈ dict_keys by_id.

(** ** Worklists *)
Section worklists.
Context (by_id : list (string * PlanStep)).

Definition unseen_deps (d : list (string * PlanStep)) (seen : list string) : nat :=
  dep_total (filter (fun kv => kv.1 ∉ seen) d).

Lemma unseen_deps_nil d : unseen_deps d [] = dep_total d.
Proof.
  unfold unseen_deps. f_equal. induction d as [|kv d IH]; [done|].
  rewrite filter_cons_True by apply not_elem_of_nil. by rewrite IH.
Qed.

Lemma unseen_deps_cons k t d seen :
  unseen_deps ((k, t) :: d) seen
  = ((if decide (k ∉ seen) then length (depends_on t) else 0) + unseen_deps d seen)%nat.
Proof. unfold unseen_deps. rewrite filter_cons. simpl. by destruct (decide (k ∉ seen)). Qed.

Lemma unseen_deps_mono x d seen : (unseen_deps d (x :: seen) <= unseen_deps d seen)%nat.
Proof.
  induction d as [|[k t] d IH]; [done|]. rewrite !unseen_deps_cons.
  destruct (decide (k ∉ x :: seen)), (decide (k ∉ seen)); try lia. set_solver.
Qed.

Lemma unseen_deps_expand x s d seen : dict_get x d = Some s -> x ∉ seen ->
  (length (depends_on s) + unseen_deps d (x :: seen) <= unseen_deps d seen)%nat.
Proof.
  intros Hx Hs. induction d as [|[k t] d IH]; [done|]. rewrite !unseen_deps_cons.
  pose proof (unseen_deps_mono x d seen). simpl in Hx. case_bool_decide as E.
  - injection Hx as ->. subst k. rewrite decide_False by set_solver. rewrite decide_True by done. lia.
  - specialize (IH Hx). destruct (decide (k ∉ x :: seen)), (decide (k ∉ seen)); try lia. set_solver.
Qed.

(** What the worklist holds, relative to the steps reachable from [root]. *)
Record worklist_inv (root : PlanStep) (start : string) (pending seen : list string)
    (result : list PlanStep) : Prop := {
  wl_result : Forall2 (fun x s => dict_get x by_id = Some s) (reverse seen) result;
  wl_nodup : NoDup seen;
  wl_sound : forall x, x ∈ seen \/ (x ∈ pending /\ x ∈ dict_keys by_id) ->
             tc (dep_edge by_id) start x;
  wl_closed : forall x s y, x ∈ seen -> dict_get x by_id = Some s -> y ∈ depends_on s ->
              y ∈ dict_keys by_id -> y ∈ seen \/ y ∈ pending;
  wl_root : forall y, y ∈ depends_on root -> y ∈ dict_keys by_id -> y ∈ seen \/ y ∈ pending
}.

Lemma dict_get_key {V} x (v : V) d : dict_get x d = Some v -> x ∈ dict_keys d.
Proof. intros H. destruct (decide (x ∈ dict_keys d)); [done|]. by rewrite (proj2 (dict_get_None _ _)) in H. Qed.

Lemma worklist_skip root start x pending seen result :
  worklist_inv root start (x :: pending) seen result ->
  (x ∈ seen \/ dict_get x by_id = None) -> worklist_inv root start pending seen result.
Proof.
  intros [H1 H2 H3 H4 H5] Hx. split; try done.
  - intros y Hy. apply H3. set_solver.
  - intros z s y Hz Hs Hy Hk. destruct (H4 z s y Hz Hs Hy Hk) as [|Hp]; [auto|].
    apply elem_of_cons in Hp as [->|]; [|auto]. destruct Hx as [|Hx%dict_get_None]; [auto|done].
  - intros y Hy Hk. destruct (H5 y Hy Hk) as [|Hp]; [auto|].
    apply elem_of_cons in Hp as [->|]; [|auto]. destruct Hx as [|Hx%dict_get_None]; [auto|done].
Qed.

Lemma worklist_expand root start x s pending seen result :
  worklist_inv root start (x :: pending) seen result ->
  x ∉ seen -> dict_get x by_id = Some s ->
  worklist_inv root start (pending ++ py_sorted (depends_on s)) (x :: seen) (result ++ [s]).
Proof.
  intros [H1 H2 H3 H4 H5] Hx Hs. pose proof (dict_get_key _ _ _ Hs) as Hk. split.
  - rewrite reverse_cons. apply Forall2_app; [done|]. by repeat constructor.
  - by constructor.
  - intros y Hy. assert (Htx : tc (dep_edge by_id) start x) by (apply H3; set_solver).
    destruct Hy as [[->|Hy]%elem_of_cons|[[Hy|Hy]%elem_of_app Hyk]]; [done| | |].
    + apply H3. by left.
    + apply H3. right. set_solver.
    + apply elem_of_sorted_by in Hy. eapply tc_r; [exact Htx|]. by exists s.
  - intros z t y Hz Ht Hy Hyk. apply elem_of_cons in Hz as [->|Hz].
    + rewrite Hs in Ht. injection Ht as <-. right. apply elem_of_app. right.
      by apply elem_of_sorted_by.
    + destruct (H4 z t y Hz Ht Hy Hyk); set_solver.
  - intros y Hy Hyk. destruct (H5 y Hy Hyk); set_solver.
Qed.

Lemma worklist_done root start seen result : dict_get start by_id = Some root ->
  worklist_inv root start [] seen result ->
  forall x, x ∈ seen <-> tc (dep_edge by_id) start x.
Proof.
  intros Hroot [H1 H2 H3 H4 H5] x. split; [intros; by apply H3; left|].
  assert (Hstep : forall y z, y ∈ seen -> dep_edge by_id y z -> z ∈ seen).
  { intros y z Hy (s & Hs & Hd & Hk). destruct (H4 y s z Hy Hs Hd Hk); set_solver. }
  assert (Hseen : forall y z, tc (dep_edge by_id) y z -> y ∈ seen -> z ∈ seen).
  { induction 1; eauto. }
  intros Htc. destruct Htc as [y z (s & Hs & Hd & Hk)|y y' z (s & Hs & Hd & Hk) Htc].
  - rewrite Hroot in Hs. injection Hs as <-. destruct (H5 z Hd Hk); set_solver.
  - rewrite Hroot in Hs. injection Hs as <-. eapply Hseen; [exact Htc|].
    destruct (H5 y' Hd Hk); set_solver.
Qed.

Lemma ancestors_loop_spec root start fuel : dict_get start by_id = Some root ->
  forall pending seen result,
  (length pending + unseen_deps by_id seen <= fuel)%nat ->
  worklist_inv root start pending seen result ->
  exists seen' result', ancestors_loop fuel by_id pending seen result = Some result' /\
    NoDup seen' /\ Forall2 (fun x s => dict_get x by_id = Some s) (reverse seen') result' /\
    (forall x, x ∈ seen' <-> tc (dep_edge by_id) start x).
Proof.
  intros Hroot. induction fuel as [|f IH]; intros [|x pending] seen result Hf Hinv; simpl in *;
    try lia; try (exists seen, result; destruct (Hinv); eauto using worklist_done; done).
  destruct (dict_get x by_id) as [s|] eqn:Hs.
  - destruct (str_in x seen) eqn:Hx.
    + apply str_in_true in Hx. apply IH; [lia|]. eapply worklist_skip; eauto.
    + apply str_in_false in Hx. pose proof (unseen_deps_expand x s by_id seen Hs Hx). apply IH.
      * rewrite length_app. unfold py_sorted. rewrite length_sorted_by. lia.
      * by eapply worklist_expand.
  - apply IH; [lia|]. eapply worklist_skip; eauto.
Qed.

(** The inspection search is the ancestor search, stopped early. *)
Definition is_inspect (s : PlanStep) : bool := bool_decide (operation s = INSPECT).

Lemma ancestors_loop_extends fuel pending seen result result' :
  ancestors_loop fuel by_id pending seen result = Some result' -> exists l, result' = result ++ l.
Proof.
  revert pending seen result. induction fuel as [|f IH]; intros [|x pending] seen result; simpl;
    try done; try (intros [= <-]; exists []; by rewrite app_nil_r).
  destruct (dict_get x by_id); [destruct (str_in x seen)|]; try apply IH.
  intros (l & ->)%IH. eexists. by rewrite <-app_assoc.
Qed.

Lemma inspection_loop_ancestors fuel pending seen result result' :
  existsb is_inspect result = false ->
  ancestors_loop fuel by_id pending seen result = Some result' ->
  inspection_loop fuel by_id pending seen = Some (existsb is_inspect result').
Proof.
  revert pending seen result. induction fuel as [|f IH]; intros [|x pending] seen result Hr; simpl;
    try done; try (intros [= <-]; by rewrite Hr).
  destruct (dict_get x by_id) as [s|]; [destruct (str_in x seen)|]; try by eapply IH.
  intros Hl. change (bool_decide (operation s = INSPECT)) with (is_inspect s).
  destruct (is_inspect s) eqn:Hs.
  - apply ancestors_loop_extends in Hl as (l & ->). rewrite !existsb_app. simpl.
    by rewrite Hs, orb_true_r.
  - eapply IH; [|exact Hl]. rewrite existsb_app. simpl. by rewrite Hr, Hs.
Qed.

Lemma worklist_start root start : dict_get start by_id = Some root ->
  worklist_inv root start (py_sorted (depends_on root)) [] [].
Proof.
  intros Hroot. split; [done|constructor| |set_solver|].
  - intros x [?|[Hx Hk]]; [set_solver|]. apply tc_once. exists root.
    by apply elem_of_sorted_by in Hx.
  - intros y Hy Hk. right. by apply elem_of_sorted_by.
Qed.

(** [_ancestors] is the set of steps reachable through dependencies, and the
    two searches agree. *)
Lemma ancestors_spec start : start ∈ dict_keys by_id ->
  exists result, _ancestors start by_id = Some result /\
    _inspection_ancestor start by_id = Some (existsb is_inspect result) /\
    (forall s, s ∈ result <-> exists x, tc (dep_edge by_id) start x /\ dict_get x by_id = Some s).
Proof.
  intros Hk. destruct (dict_get start by_id) as [root|] eqn:Hroot;
    [|by apply dict_get_None in Hroot].
  destruct (ancestors_loop_spec root start (worklist_fuel root by_id) Hroot
              (py_sorted (depends_on root)) [] []) as (seen & result & Hl & Hnd & Hm & Hiff).
  { unfold worklist_fuel, py_sorted. rewrite unseen_deps_nil, length_sorted_by. lia. }
  { by apply worklist_start. }
  exists (sorted_by step_id result). unfold _ancestors, _inspection_ancestor. rewrite Hroot. simpl.
  rewrite Hl. simpl. split; [done|]. split.
  - rewrite (inspection_loop_ancestors _ _ _ [] _ eq_refl Hl). f_equal.
    apply eq_true_iff_eq. rewrite !existsb_true. by setoid_rewrite elem_of_sorted_by.
  - intros s. rewrite elem_of_sorted_by. split.
    + intros [i Hi]%list_elem_of_lookup. destruct (Forall2_lookup_r _ _ _ _ _ Hm Hi) as (x & Hx & Hs).
      exists x. split; [|done]. apply Hiff. apply list_elem_of_lookup_2 in Hx. by rewrite elem_of_reverse in Hx.
    + intros (x & Hx & Hs). apply Hiff in Hx. rewrite <-elem_of_reverse in Hx.
      apply list_elem_of_lookup in Hx as [i Hi].
      destruct (Forall2_lookup_l _ _ _ _ _ Hm Hi) as (s' & Hs' & E).
      apply list_elem_of_lookup_2 in Hs'. simpl in E. congruence.
Qed.
End worklists.

(** ** Dictionaries of steps *)
Definition occurrences (k : string) (steps : list PlanStep) : nat :=
  length (filter (fun s => step_id s = k) steps).

Lemma occurrences_cons k s steps :
  occurrences k (s :: steps) = ((if decide (step_id s = k) then 1 else 0) + occurrences k steps)%nat.
Proof. unfold occurrences. rewrite filter_cons. by destruct (decide _). Qed.

Lemma occurrences_perm k l1 l2 : l1 ≡ₚ l2 -> occurrences k l1 = occurrences k l2.
Proof. unfold occurrences. by intros ->. Qed.

Lemma occurrences_filter k (P : PlanStep -> Prop) `{forall s, Decision (P s)} l :
  (occurrences k (filter P l) <= occurrences k l)%nat.
Proof.
  induction l as [|s l IH]; [done|]. rewrite filter_cons. destruct (decide (P s));
    rewrite !occurrences_cons; lia.
Qed.

Lemma occurrences_pos k steps : k ∈ step_id <$> steps <-> (0 < occurrences k steps)%nat.
Proof.
  induction steps as [|s steps IH]; [split; [by intros ?%not_elem_of_nil|cbn; lia]|].
  rewrite fmap_cons, elem_of_cons, occurrences_cons, IH. destruct (decide _); naive_solver lia.
Qed.

Lemma occurrences_nodup steps :
  NoDup (step_id <$> steps) <-> forall k, (occurrences k steps <= 1)%nat.
Proof.
  induction steps as [|s steps IH]; [split; [cbn; lia|constructor]|].
  rewrite fmap_cons, NoDup_cons, occurrences_pos, IH. setoid_rewrite occurrences_cons. split.
  - intros [H1 H2] k. specialize (H2 k). destruct (decide _); subst; lia.
  - intros H. split; [specialize (H (step_id s))|intros k; specialize (H k)];
      destruct (decide _); try done; lia.
Qed.

Lemma count_steps_get k steps :
  dict_get k (count_steps steps)
  = match occurrences k steps with O => None | n => Some (Z.of_nat n) end.
Proof.
  assert (G : forall d, dict_get k (foldl (fun d s => dict_set (step_id s)
                (default 0 (dict_get (step_id s) d) + 1) d) d steps)
     = match occurrences k steps with
       | O => dict_get k d | n => Some (default 0 (dict_get k d) + Z.of_nat n) end).
  { induction steps as [|s steps IH]; intros d; simpl; [done|].
    rewrite IH, dict_get_set, occurrences_cons.
    destruct (decide (step_id s = k)) as [->|Hk].
    - rewrite bool_decide_true by done. destruct (occurrences k steps); simpl; f_equal; lia.
    - by rewrite bool_decide_false by congruence. }
  unfold count_steps. rewrite G. by destruct (occurrences k steps).
Qed.

Lemma count_steps_nodup steps : NoDup (dict_keys (count_steps steps)).
Proof.
  unfold count_steps. assert (NoDup (dict_keys (@nil (string * Z)))) as H by constructor.
  revert H. generalize (@nil (string * Z)) as d.
  induction steps as [|s steps IH]; intros d H; simpl; [done|]. by apply IH, dict_set_nodup.
Qed.

Lemma steps_by_id_nodup steps : NoDup (step_id <$> steps) ->
  steps_by_id steps = (fun s => (step_id s, s)) <$> steps.
Proof.
  intros Hnd. unfold steps_by_id.
  assert (G : forall d, NoDup (dict_keys d ++ (step_id <$> steps)) ->
    foldl (fun d s => dict_set (step_id s) s d) d steps = d ++ ((fun s => (step_id s, s)) <$> steps)).
  { clear Hnd. induction steps as [|s steps IH]; intros d Hd; [by rewrite app_nil_r|].
    rewrite fmap_cons in Hd. cbn [foldl]. rewrite dict_set_fresh, IH.
    - by rewrite fmap_cons, <-app_assoc.
    - unfold dict_keys. rewrite fmap_app, <-app_assoc. done.
    - intros Hin. apply NoDup_app in Hd as (_ & Hd & _). apply (Hd _ Hin). left. }
  by rewrite G.
Qed.

(** The dictionary [unique] holds the steps whose id occurs once. *)
Lemma unique_ids_nodup steps l : l ≡ₚ steps ->
  NoDup (step_id <$> filter (fun s => dict_get (step_id s) (count_steps steps) = Some 1) l).
Proof.
  intros Hp. apply occurrences_nodup. intros k.
  unfold occurrences at 1. destruct (filter (fun s => step_id s = k) (filter _ l)) as [|s r] eqn:E; [simpl; lia|].
  assert (Hs : s ∈ s :: r) by left. rewrite <-E in Hs.
  apply list_elem_of_filter in Hs as [Hk [Hc _]%list_elem_of_filter].
  rewrite count_steps_get, Hk in Hc.
  assert (Ho : occurrences k steps = 1%nat) by (destruct (occurrences k steps) as [|[]]; naive_solver lia).
  rewrite <-E. rewrite <-Ho, (occurrences_perm k steps l) by done. apply occurrences_filter.
Qed.

Definition entry (s : PlanStep) : string * PlanStep := (step_id s, s).

Lemma unique_steps_entries steps : unique_steps steps
  = entry <$> filter (fun s => dict_get (step_id s) (count_steps steps) = Some 1) (sorted_by step_id steps).
Proof. apply steps_by_id_nodup, unique_ids_nodup. by rewrite sorted_by_perm. Qed.

Lemma unique_steps_keys steps : NoDup (dict_keys (unique_steps steps)).
Proof.
  rewrite unique_steps_entries. unfold dict_keys. rewrite <-list_fmap_compose.
  apply unique_ids_nodup. by rewrite sorted_by_perm.
Qed.

Lemma unique_steps_elem steps x s :
  (x, s) ∈ unique_steps steps -> step_id s = x /\ s ∈ steps.
Proof.
  rewrite unique_steps_entries. intros (s' & [= -> ->] & [_ Hs]%list_elem_of_filter)%list_elem_of_fmap.
  by apply elem_of_sorted_by in Hs.
Qed.

Lemma unique_steps_nodup steps : NoDup (step_id <$> steps) ->
  unique_steps steps = entry <$> sorted_by step_id steps.
Proof.
  intros Hnd. rewrite unique_steps_entries. f_equal.
  assert (Hall : Forall (fun s => dict_get (step_id s) (count_steps steps) = Some 1)
                   (sorted_by step_id steps)).
  { rewrite Forall_sorted_by. apply Forall_forall. intros s Hs. rewrite count_steps_get.
    pose proof (proj1 (occurrences_nodup steps) Hnd (step_id s)).
    pose proof (proj1 (occurrences_pos (step_id s) steps) (list_elem_of_fmap_2 _ _ _ Hs)).
    by replace (occurrences (step_id s) steps) with 1%nat by lia. }
  induction Hall as [|s l Hs _ IH]; [done|]. rewrite filter_cons_True by done. by rewrite IH.
Qed.

Lemma duplicate_ids_nil steps : duplicate_ids steps = [] <-> NoDup (step_id <$> steps).
Proof.
  unfold duplicate_ids, py_sorted. rewrite occurrences_nodup. split.
  - intros E k. apply sorted_by_nil_inv, fmap_nil_inv in E.
    destruct (decide (occurrences k steps <= 1)%nat) as [|Hk]; [done|]. exfalso.
    assert (Hin : (k, Z.of_nat (occurrences k steps)) ∈ count_steps steps).
    { apply dict_get_Some. rewrite count_steps_get. destruct (occurrences k steps); [lia|done]. }
    apply (not_elem_of_nil (k, Z.of_nat (occurrences k steps))). rewrite <-E.
    apply list_elem_of_filter. simpl. split; [lia|done].
  - intros H. destruct (filter _ (count_steps steps)) as [|[k n] r] eqn:E; [done|]. exfalso.
    assert (Hin : (k, n) ∈ (k, n) :: r) by left. rewrite <-E in Hin.
    apply list_elem_of_filter in Hin as [Hn Hin]. simpl in Hn.
    apply (dict_get_elem _ _ _ (count_steps_nodup steps)) in Hin. rewrite count_steps_get in Hin.
    specialize (H k). destruct (occurrences k steps) as [|[]]; try done; [|lia].
    injection Hin as <-. lia.
Qed.

(** ** The layers of a dependency graph *)
Definition graph_edge (g : plan_graph) (x y : string) : Prop := exists S, (x, S) ∈ g /\ y ∈ S.
Definition graph_closed (g : plan_graph) : Prop :=
  forall x y, graph_edge g x y -> y ∈ dict_keys g.
Definition graph_acyclic (g : plan_graph) : Prop := forall x, ~ tc (graph_edge g) x x.

Section layers.
Context (g : plan_graph) (Hnd : NoDup (dict_keys g)).

Lemma elem_of_ready x : x ∈ ready_keys g <-> (x, ∅) ∈ g.
Proof.
  clear Hnd. unfold ready_keys, py_sorted. rewrite elem_of_sorted_by, list_elem_of_fmap. split.
  - intros ([y S] & -> & [HS Hin]%list_elem_of_filter). simpl in *. by subst.
  - intros Hin. exists (x, ∅). split; [done|]. by apply list_elem_of_filter.
Qed.

Lemma ready_keys_nodup : NoDup (ready_keys g).
Proof.
  unfold ready_keys, py_sorted. rewrite sorted_by_perm. revert Hnd. unfold dict_keys.
  induction g as [|[k S] g' IH]; [done|]. change ((k, S) :: g').*1 with (k :: g'.*1).
  intros [Hk Hg]%NoDup_cons. rewrite filter_cons. destruct (decide _); [|by apply IH].
  apply NoDup_cons. split; [|by apply IH].
  intros (kv & E & [_ Hin]%list_elem_of_filter)%list_elem_of_fmap. simpl in E. subst k.
  by apply Hk, list_elem_of_fmap_2.
Qed.

Lemma elem_of_remove_ready ready x S' : (x, S') ∈ remove_ready ready g <->
  exists S, (x, S) ∈ g /\ (x ∉ ready) /\ S' = S ∖ list_to_set ready.
Proof.
  clear Hnd. unfold remove_ready. rewrite list_elem_of_fmap. split.
  - intros ([y S] & [= -> ->] & [Hr Hin]%list_elem_of_filter). by exists S.
  - intros (S & Hin & Hr & ->). exists (x, S). split; [done|]. by apply list_elem_of_filter.
Qed.

Lemma remove_ready_keys ready : dict_keys (remove_ready ready g) = filter (fun k => k ∉ ready) (dict_keys g).
Proof.
  clear Hnd. unfold remove_ready, dict_keys. induction g as [|[k S] g' IH]; [done|].
  change ((k, S) :: g').*1 with (k :: g'.*1).
  rewrite (filter_cons (fun kv : string * gset string => kv.1 ∉ ready)),
    (filter_cons (fun k => k ∉ ready)). simpl.
  destruct (decide (k ∉ ready)); rewrite <-IH; done.
Qed.

Lemma ready_no_edge x y : x ∈ ready_keys g -> ~ graph_edge g x y.
Proof.
  intros Hx%elem_of_ready (S & HS & Hy). pose proof (dict_get_elem _ _ _ Hnd Hx) as E.
  rewrite (dict_get_elem _ _ _ Hnd HS) in E. injection E as ->. set_solver.
Qed.

Lemma remove_ready_edge x y : graph_edge (remove_ready (ready_keys g) g) x y <->
  graph_edge g x y /\ y ∉ ready_keys g.
Proof.
  split.
  - intros (S' & (S & HS & Hr & ->)%elem_of_remove_ready & Hy). split; [exists S; set_solver|set_solver].
  - intros [(S & HS & Hy) Hr]. exists (S ∖ list_to_set (ready_keys g)). split; [|set_solver].
    apply elem_of_remove_ready. exists S. split; [done|]. split; [|done].
    intros Hx. eapply ready_no_edge; [exact Hx|]. by exists S.
Qed.

Lemma remove_ready_acyclic :
  graph_acyclic (remove_ready (ready_keys g) g) <-> graph_acyclic g.
Proof.
  assert (Hout : forall x y, tc (graph_edge g) x y -> (exists z, graph_edge g y z) ->
                   tc (graph_edge (remove_ready (ready_keys g) g)) x y).
  { intros x y Htc [z Hz]. induction Htc as [x y H1|x y w H1 Htc IH].
    - apply tc_once, remove_ready_edge. split; [done|]. intros Hr. by eapply ready_no_edge.
    - eapply tc_l; [|by apply IH]. apply remove_ready_edge. split; [done|].
      intros Hr. destruct Htc; by eapply ready_no_edge. }
  assert (Hin : forall x y, tc (graph_edge (remove_ready (ready_keys g) g)) x y ->
                  tc (graph_edge g) x y).
  { intros x y Htc. induction Htc as [x y H1%remove_ready_edge|x y w H1%remove_ready_edge Htc IH];
      [apply tc_once, H1|]. eapply tc_l; [apply H1|done]. }
  split; intros H x Htc; apply (H x); [|by apply Hin].
  apply Hout; [done|]. inversion Htc; eauto.
Qed.

Lemma remove_ready_closed : graph_closed g -> graph_closed (remove_ready (ready_keys g) g).
Proof.
  intros Hc x y [He Hy]%remove_ready_edge. rewrite remove_ready_keys.
  apply list_elem_of_filter. split; [done|]. by eapply Hc.
Qed.

Lemma remove_ready_length : ready_keys g <> [] ->
  (length (remove_ready (ready_keys g) g) < length g)%nat.
Proof.
  intros Hr. destruct (ready_keys g) as [|x r] eqn:E; [done|]. rewrite <-E.
  assert (Hx : (x, ∅) ∈ g) by (apply elem_of_ready; rewrite E; left).
  unfold remove_ready. rewrite length_fmap. apply length_filter_lt with (x := (x, ∅)); [done|].
  simpl. rewrite E. intros H. apply H. left.
Qed.

(** An acyclic, closed graph has a node without dependencies. *)
Lemma acyclic_ready : graph_closed g -> graph_acyclic g -> g <> [] -> ready_keys g <> [].
Proof.
  intros Hc Ha Hne Hr. destruct g as [|[x S] g'] eqn:Eg; [done|]. rewrite <-Eg in *.
  assert (Hkeys : x ∈ dict_keys g) by (rewrite Eg; left).
  assert (Hsn : forall y, sn (graph_edge g) y).
  { intros y. apply tc_finite_sn; [exact Ha|]. exists (dict_keys g).
    intros z Htc. induction Htc; eauto. }
  specialize (Hsn x). clear Eg Hne. induction Hsn as [x _ IH].
  apply list_elem_of_fmap in Hkeys as ([x' S'] & -> & Hin). simpl in *.
  destruct (set_choose_or_empty S') as [[y Hy]|HS'].
  - eapply (IH y); [by exists S'|]. apply (Hc x'). by exists S'.
  - apply (not_elem_of_nil x'). rewrite <-Hr. apply elem_of_ready.
    by replace (∅ : gset string) with S' by set_solver.
Qed.
End layers.

Lemma cycle_loop_spec fuel g : NoDup (dict_keys g) -> graph_closed g -> (length g <= fuel)%nat ->
  exists ds, cycle_loop fuel g = Some ds /\ (ds = [] <-> graph_acyclic g).
Proof.
  revert g. induction fuel as [|f IH]; intros g Hnd Hc Hf; destruct g as [|kv g'] eqn:Eg; simpl in Hf; try lia.
  1,2: exists []; split; [done|]; split; [|done]; intros _ x Htc;
    inversion Htc as [? ? (S & HS & _)|? ? ? (S & HS & _)]; by apply not_elem_of_nil in HS.
  rewrite <-Eg in *. assert (Hg : cycle_loop (Datatypes.S f) g
    = match ready_keys g with
      | [] => Some [diagnostic "step-cycle" (join "," (py_sorted (dict_keys g)))]
      | ready => cycle_loop f (remove_ready ready g) end) by (by rewrite Eg).
  rewrite Hg. destruct (ready_keys g) as [|x r] eqn:Er.
  - eexists. split; [done|]. split; [done|]. intros Ha.
    by destruct (acyclic_ready g Hnd Hc Ha); [rewrite Eg|].
  - rewrite <-Er. destruct (IH (remove_ready (ready_keys g) g)) as (ds & Hds & Hiff).
    + rewrite remove_ready_keys. by apply NoDup_filter.
    + by apply remove_ready_closed.
    + assert (length (remove_ready (ready_keys g) g) < length g)%nat; [|rewrite Eg in *; simpl in *; lia].
      apply remove_ready_length. by rewrite Er.
    + exists ds. split; [done|]. by rewrite Hiff, remove_ready_acyclic.
Qed.

(** ** The checks of one step *)
Lemma dependency_check_spec unique id step :
  ((dependency_check unique id step).1 = [] <->
     forall d, d ∈ depends_on step -> d ∈ dict_keys unique /\ d <> id) /\
  (forall d, d ∈ (dependency_check unique id step).2 <->
     d ∈ depends_on step /\ d ∈ dict_keys unique /\ d <> id).
Proof.
  unfold dependency_check.
  assert (Hl : forall d, d ∈ py_sorted (remove_dups (depends_on step)) <-> d ∈ depends_on step).
  { intros d. unfold py_sorted. by rewrite elem_of_sorted_by, elem_of_remove_dups. }
  setoid_rewrite <-Hl. generalize (py_sorted (remove_dups (depends_on step))) as l. clear Hl.
  set (f := fun acc dependency => _). intros l.
  assert (G : forall acc, ((foldl f acc l).1 = [] <->
      acc.1 = [] /\ forall d, d ∈ l -> d ∈ dict_keys unique /\ d <> id) /\
    (forall d, d ∈ (foldl f acc l).2 <->
       d ∈ acc.2 \/ (d ∈ l /\ d ∈ dict_keys unique /\ d <> id))).
  { induction l as [|x l IH]; intros acc.
    { cbn. setoid_rewrite elem_of_nil. naive_solver. }
    cbn [foldl]. destruct (IH (f acc x)) as [IH1 IH2]. rewrite IH1. setoid_rewrite IH2. clear IH IH1 IH2.
    setoid_rewrite elem_of_cons. unfold f. repeat case_bool_decide; cbn [fst snd].
    - rewrite app_nil. naive_solver.
    - rewrite app_nil. naive_solver.
    - destruct (decide (x ∈ dict_keys unique)) as [Hx|]; [|done].
      setoid_rewrite elem_of_union. setoid_rewrite elem_of_singleton. naive_solver. }
  destruct (G ([], ∅)) as [G1 G2]. rewrite G1. setoid_rewrite G2. cbn.
  setoid_rewrite elem_of_empty. naive_solver.
Qed.

Section step_checks.
Context (unique : list (string * PlanStep)).

Definition reaches (id : string) (a : PlanStep) : Prop :=
  exists x, tc (dep_edge unique) id x /\ dict_get x unique = Some a.

Record step_ok (id : string) (step : PlanStep) : Prop := {
  so_deps : forall d, d ∈ depends_on step -> d ∈ dict_keys unique /\ d <> id;
  so_inspected : MODIFICATION_OPERATIONS (operation step) = true ->
    exists a, reaches id a /\ operation a = INSPECT;
  so_verifies : is_verification step = true ->
    exists a, reaches id a /\ verifiable a = true /\ shares_target step a = true;
  so_ordered : MODIFICATION_OPERATIONS (operation step) = true ->
    forall a, reaches id a -> verifying_test a = false
}.

Lemma inspection_check_nil step ancestors :
  inspection_check step (existsb is_inspect ancestors) = [] <->
  (MODIFICATION_OPERATIONS (operation step) = true ->
     exists a, a ∈ ancestors /\ operation a = INSPECT).
Proof.
  clear. unfold inspection_check. destruct (MODIFICATION_OPERATIONS _); simpl; [|naive_solver].
  destruct (existsb is_inspect ancestors) eqn:E; simpl.
  - apply existsb_true in E as (a & Ha & Hi%bool_decide_eq_true). naive_solver.
  - apply existsb_false in E. rewrite Forall_forall in E. split; [done|].
    intros H. destruct H as (a & Ha & Hi); [done|]. specialize (E a Ha).
    by apply bool_decide_eq_false in E.
Qed.

Lemma verification_check_nil step ancestors :
  verification_check step ancestors = [] <->
  (is_verification step = true ->
     exists a, a ∈ ancestors /\ verifiable a = true /\ shares_target step a = true).
Proof.
  clear. unfold verification_check. destruct (is_verification step); [|naive_solver].
  set (l := filter _ _).
  assert (Hl : forall a, a ∈ l <-> verifiable a = true /\ a ∈ ancestors)
    by (intros a; unfold l; by rewrite list_elem_of_filter). clearbody l.
  assert (G : (exists a, a ∈ ancestors /\ verifiable a = true /\ shares_target step a = true)
     <-> existsb (shares_target step) l = true).
  { rewrite existsb_true. setoid_rewrite Hl. naive_solver. }
  rewrite G. destruct l as [|s l]; simpl; [naive_solver|].
  destruct (shares_target step s || existsb _ _); naive_solver.
Qed.

Lemma order_check_nil step ancestors :
  order_check step ancestors = [] <->
  (MODIFICATION_OPERATIONS (operation step) = true ->
     forall a, a ∈ ancestors -> verifying_test a = false).
Proof.
  clear. unfold order_check. destruct (MODIFICATION_OPERATIONS _); simpl; [|naive_solver].
  destruct (existsb verifying_test ancestors) eqn:E.
  - apply existsb_true in E as (a & Ha & Hv). split; [done|]. intros H. rewrite H in Hv; done.
  - apply existsb_false in E. rewrite Forall_forall in E. naive_solver.
Qed.

Lemma step_check_spec id step : id ∈ dict_keys unique ->
  exists ds edges, step_check unique (id, step) = Some (ds, (id, edges)) /\
    (ds = [] <-> step_ok id step) /\
    (forall d, d ∈ edges <-> d ∈ depends_on step /\ d ∈ dict_keys unique /\ d <> id).
Proof.
  intros Hid. destruct (ancestors_spec unique id Hid) as (ancestors & Ha & Hi & Hiff).
  destruct (dependency_check_spec unique id step) as [Hd He].
  unfold step_check. destruct (dependency_check unique id step) as [missing edges]. simpl in Hd, He.
  exists (missing ++ inspection_check step (existsb is_inspect ancestors)
            ++ verification_check step ancestors ++ order_check step ancestors), edges.
  split.
  { rewrite Ha. unfold inspection_check.
    destruct (MODIFICATION_OPERATIONS (operation step)) eqn:Hm; [by rewrite Hi|done]. }
  split; [|done].
  rewrite !app_nil, Hd, inspection_check_nil, verification_check_nil, order_check_nil.
  unfold reaches in *. split.
  - intros (H1 & H2 & H3 & H4). split; unfold reaches; try setoid_rewrite <-Hiff; done.
  - intros [H1 H2 H3 H4]. unfold reaches in *. setoid_rewrite <-Hiff in H2.
    setoid_rewrite <-Hiff in H3. setoid_rewrite <-Hiff in H4. done.
Qed.
End step_checks.

(** ** Validation *)

(** What an accepted plan satisfies: [a] is an ancestor of [s] when [s] depends on
    it, directly or not. *)
Definition step_edge (steps : list PlanStep) (x y : string) : Prop :=
  exists s t, s ∈ steps /\ t ∈ steps /\ step_id s = x /\ y ∈ depends_on s /\ step_id t = y.
Definition ancestor (steps : list PlanStep) (s a : PlanStep) : Prop :=
  a ∈ steps /\ tc (step_edge steps) (step_id s) (step_id a).

Record valid_plan (steps : list PlanStep) : Prop := {
  vp_unique : NoDup (step_id <$> steps);
  vp_closed : forall s d, s ∈ steps -> d ∈ depends_on s -> exists t, t ∈ steps /\ step_id t = d;
  vp_acyclic : forall x, ~ tc (step_edge steps) x x;
  vp_inspected : forall s, s ∈ steps -> MODIFICATION_OPERATIONS (operation s) = true ->
    exists a, ancestor steps s a /\ operation a = INSPECT;
  vp_verifies : forall s, s ∈ steps -> is_verification s = true ->
    exists a, ancestor steps s a /\ verifiable a = true /\ shares_target s a = true;
  vp_ordered : forall s a, s ∈ steps -> MODIFICATION_OPERATIONS (operation s) = true ->
    ancestor steps s a -> verifying_test a = false
}.

Lemma tc_impl {A} (R R' : relation A) x y :
  (forall x y, R x y -> R' x y) -> tc R x y -> tc R' x y.
Proof. intros H. induction 1; [apply tc_once; auto|eapply tc_l; eauto]. Qed.

Lemma tc_equiv {A} (R R' : relation A) :
  (forall x y, R x y <-> R' x y) -> forall x y, tc R x y <-> tc R' x y.
Proof. intros H x y. split; apply tc_impl; naive_solver. Qed.

Lemma mapM_step_check unique l : NoDup (dict_keys l) ->
  (forall kv, kv ∈ l -> kv.1 ∈ dict_keys unique) ->
  exists checks, mapM (step_check unique) l = Some checks /\
    dict_keys checks.*2 = dict_keys l /\
    (concat checks.*1 = [] <-> forall id step, (id, step) ∈ l -> step_ok unique id step) /\
    (forall x y, graph_edge checks.*2 x y <->
       exists step, (x, step) ∈ l /\ y ∈ depends_on step /\ y ∈ dict_keys unique /\ y <> x).
Proof.
  induction l as [|[id step] l IH]; intros Hnd Hk.
  - exists []. split; [done|]. split; [done|]. split; [set_solver|].
    intros x y. unfold graph_edge. setoid_rewrite elem_of_nil. naive_solver.
  - apply NoDup_cons in Hnd as [_ Hnd].
    destruct (step_check_spec unique id step) as (ds & edges & Hc & Hds & He); [apply (Hk (id, step)); left|].
    destruct IH as (checks & Hm & Hkeys & Hall & Hedge); [done|intros; apply Hk; by right|].
    exists ((ds, (id, edges)) :: checks). cbn [mapM]. rewrite Hc. cbn [mbind option_bind]. rewrite Hm.
    split; [done|]. split; [exact (f_equal (cons id) Hkeys)|]. split.
    + change (ds ++ concat checks.*1 = [] <-> (forall i st, (i, st) ∈ (id, step) :: l -> step_ok unique i st)).
      rewrite app_nil, Hds, Hall. setoid_rewrite elem_of_cons. naive_solver.
    + intros x y. unfold graph_edge in *. setoid_rewrite elem_of_cons. specialize (Hedge x y).
      split.
      * intros (S & [[= -> ->]|HS] & Hy); [exists step; naive_solver|].
        destruct (proj1 Hedge) as (s & ?); [by exists S|]. exists s. naive_solver.
      * intros (s & [[= -> ->]|Hs] & Hy); [exists edges; naive_solver|].
        destruct (proj2 Hedge) as (S & ?); [by exists s|]. exists S. naive_solver.
Qed.

(** With unique ids the dictionary [unique] is the plan itself. *)
Section unique_plan.
Context (steps : list PlanStep) (Hnd : NoDup (step_id <$> steps)).

Lemma unique_elem x s : (x, s) ∈ unique_steps steps <-> s ∈ steps /\ step_id s = x.
Proof using Hnd.
  rewrite unique_steps_nodup, list_elem_of_fmap by done. split.
  - intros (t & [= -> ->] & Ht). by apply elem_of_sorted_by in Ht.
  - intros [Hs <-]. exists s. by rewrite elem_of_sorted_by.
Qed.

Lemma unique_get x s : dict_get x (unique_steps steps) = Some s <-> s ∈ steps /\ step_id s = x.
Proof using Hnd.
  rewrite <-unique_elem. split; [apply dict_get_Some|]. apply dict_get_elem, unique_steps_keys.
Qed.

Lemma unique_key x : x ∈ dict_keys (unique_steps steps) <-> exists t, t ∈ steps /\ step_id t = x.
Proof using Hnd.
  unfold dict_keys. rewrite list_elem_of_fmap. split.
  - intros ([k s] & -> & Hin). apply unique_elem in Hin. by exists s.
  - intros (t & Ht). exists (x, t). split; [done|]. by apply unique_elem.
Qed.

Lemma unique_edge x y : dep_edge (unique_steps steps) x y <-> step_edge steps x y.
Proof using Hnd.
  unfold dep_edge, step_edge. setoid_rewrite unique_get. setoid_rewrite unique_key. split.
  - intros (s & [Hs Hx] & Hy & t & Ht & Hty). by exists s, t.
  - intros (s & t & Hs & Ht & Hx & Hy & Hty). exists s.
    split; [done|]. split; [done|]. by exists t.
Qed.

Lemma unique_reaches s a : reaches (unique_steps steps) (step_id s) a <-> ancestor steps s a.
Proof using Hnd.
  unfold reaches, ancestor. setoid_rewrite (tc_equiv _ _ unique_edge). setoid_rewrite unique_get. split.
  - by intros (x & Htc & Ha & <-).
  - intros [Ha Htc]. by exists (step_id a).
Qed.

Lemma unique_steps_ok :
  (forall id step, (id, step) ∈ unique_steps steps -> step_ok (unique_steps steps) id step) /\
  (forall x, ~ tc (step_edge steps) x x) <-> valid_plan steps.
Proof using Hnd.
  split.
  - intros [Hok Ha].
    assert (G : forall s, s ∈ steps -> step_ok (unique_steps steps) (step_id s) s)
      by (intros s Hs; by apply Hok, unique_elem).
    split; [done| |done| | |].
    + intros s d Hs Hd. apply unique_key. by apply (so_deps _ _ _ (G s Hs)).
    + intros s Hs Hm. destruct (so_inspected _ _ _ (G s Hs) Hm) as (a & Hr%unique_reaches & ?). eauto.
    + intros s Hs Hm. destruct (so_verifies _ _ _ (G s Hs) Hm) as (a & Hr%unique_reaches & ?). eauto.
    + intros s a Hs Hm Hr. apply (so_ordered _ _ _ (G s Hs) Hm). by apply unique_reaches.
  - intros [H1 H2 H3 H4 H5 H6]. split; [|done]. intros id s [Hs <-]%unique_elem. split.
    + intros d Hd. destruct (H2 s d Hs Hd) as (t & Ht & Htd). split; [apply unique_key; eauto|].
      intros ->. apply (H3 (step_id s)), tc_once. by exists s, t.
    + setoid_rewrite unique_reaches. auto.
    + setoid_rewrite unique_reaches. auto.
    + setoid_rewrite unique_reaches. eauto.
Qed.
End unique_plan.

Lemma sorted_by_nil {A K} `{PyOrdLaws K} (key : A -> K) l : sorted_by key l = [] <-> l = [].
Proof. split; [apply sorted_by_nil_inv|by intros ->]. Qed.

Lemma validate_steps_spec steps :
  exists ds, validate_steps steps = Some ds /\ (ds = [] <-> valid_plan steps).
Proof.
  set (unique := unique_steps steps).
  assert (Hun : NoDup (dict_keys unique)) by apply unique_steps_keys.
  destruct (mapM_step_check unique (sorted_by fst unique)) as (checks & Hm & Hkeys & Hall & Hedge).
  { by apply sorted_by_nodup. }
  { intros kv Hkv. apply elem_of_sorted_by in Hkv. by apply list_elem_of_fmap_2. }
  assert (Hperm : dict_keys checks.*2 ≡ₚ dict_keys unique).
  { rewrite Hkeys. unfold dict_keys. by rewrite sorted_by_perm. }
  destruct (cycle_loop_spec (length unique) checks.*2) as (cycle & Hcy & Hac).
  { by rewrite Hperm. }
  { intros x y (step & _ & _ & Hy & _)%Hedge. by rewrite Hperm. }
  { apply Permutation_length in Hperm. unfold dict_keys in Hperm. rewrite !length_fmap in Hperm.
    rewrite length_fmap. lia. }
  eexists. unfold validate_steps. fold unique. rewrite Hm. simpl. rewrite Hcy. split; [done|].
  rewrite sorted_by_nil, !app_nil, Hall, Hac.
  assert (Hdup : diagnostic "duplicate-step-id" <$> duplicate_ids steps = [] <-> NoDup (step_id <$> steps))
    by (rewrite <-duplicate_ids_nil; by destruct (duplicate_ids steps)). rewrite Hdup. clear Hdup.
  setoid_rewrite elem_of_sorted_by.
  assert (Hself : forall x y, graph_edge checks.*2 x y <-> dep_edge unique x y /\ y <> x).
  { intros x y. rewrite Hedge. unfold dep_edge. setoid_rewrite elem_of_sorted_by. split.
    - intros (s & Hs & Hy & Hk & Hn). split; [|done]. exists s. split; [by apply dict_get_elem|done].
    - intros [(s & Hs & Hy & Hk) Hn]. exists s. by apply dict_get_Some in Hs. }
  split.
  - intros (Hnd & Hok & Hcyc). apply unique_steps_ok; [done|]. split; [done|]. intros x Htc. apply (Hcyc x).
    eapply tc_impl; [|exact Htc]. intros y z Hyz. apply Hself.
    apply unique_edge in Hyz; [|done]. split; [done|]. destruct Hyz as (s & Hs & Hz & _).
    by apply (so_deps _ _ _ (Hok y s (dict_get_Some _ _ _ Hs))).
  - intros Hv. pose proof (vp_unique _ Hv) as Hnd. split; [done|].
    apply unique_steps_ok in Hv as [Hok Ha]; [|done]. split; [done|]. intros x Htc. apply (Ha x).
    eapply tc_impl; [|exact Htc]. intros y z [Hyz _]%Hself. by apply unique_edge in Hyz.
Qed.

(** ** Topological sorting *)

(** Every step comes after all of its dependencies. *)
Definition deps_first (l : list PlanStep) : Prop :=
  forall l1 s l2, l = l1 ++ s :: l2 -> forall d, d ∈ depends_on s -> d ∈ step_id <$> l1.


Lemma deps_first_snoc result s : deps_first result ->
  (forall d, d ∈ depends_on s -> d ∈ step_id <$> result) -> deps_first (result ++ [s]).
Proof.
  intros Hr Hs l1 t l2 E d Hd. destruct l2 as [|u l2 _] using rev_ind.
  - apply app_inj_tail in E as [<- <-]. auto.
  - replace (l1 ++ t :: l2 ++ [u]) with ((l1 ++ t :: l2) ++ [u]) in E by (by rewrite <-app_assoc).
    apply app_inj_tail in E as [-> <-]. by eapply Hr.
Qed.

Lemma deps_first_app result next : deps_first result ->
  (forall s d, s ∈ next -> d ∈ depends_on s -> d ∈ step_id <$> result) ->
  deps_first (result ++ next).
Proof.
  intros Hr. induction next as [|s next IH] using rev_ind; intros Hn; [by rewrite app_nil_r|].
  rewrite app_assoc. apply deps_first_snoc.
  - apply IH. intros t d Ht. apply Hn. set_solver.
  - intros d Hd. rewrite fmap_app, elem_of_app. left. apply (Hn s); set_solver.
Qed.

Section toposort.
Context (steps : list PlanStep) (Hnd : NoDup (step_id <$> steps))
  (Hclosed : forall s d, s ∈ steps -> d ∈ depends_on s -> exists t, t ∈ steps /\ step_id t = d)
  (Hacyclic : forall x, ~ tc (step_edge steps) x x).

Record sort_inv (g : plan_graph) (result : list PlanStep) : Prop := {
  si_keys : dict_keys g ++ (step_id <$> result) ≡ₚ step_id <$> steps;
  si_steps : forall s, s ∈ result -> s ∈ steps;
  si_edges : forall x S, (x, S) ∈ g -> exists s, s ∈ steps /\ step_id s = x /\
    forall d, d ∈ S <-> d ∈ depends_on s /\ d ∉ step_id <$> result;
  si_first : deps_first result
}.

Lemma step_id_inj s t : s ∈ steps -> t ∈ steps -> step_id s = step_id t -> s = t.
Proof using Hnd. intros Hs Ht E. by apply (fmap_nodup_inj step_id steps). Qed.

Lemma sort_inv_nodup g result : sort_inv g result ->
  NoDup (dict_keys g) /\ NoDup (step_id <$> result) /\
  (forall x, x ∈ dict_keys g -> x ∉ step_id <$> result).
Proof using Hnd.
  intros [Hk _ _ _]. rewrite <-Hk in Hnd. by apply NoDup_app in Hnd as (? & ? & ?).
Qed.

Lemma sort_inv_edge g result x y : sort_inv g result -> graph_edge g x y ->
  step_edge steps x y /\ y ∈ dict_keys g.
Proof using Hclosed.
  intros [Hk _ He _] (S & HS & Hy). destruct (He x S HS) as (s & Hs & Hx & Hd).
  rewrite Hd in Hy. destruct Hy as [Hdep Hn].
  destruct (Hclosed s y Hs Hdep) as (t & Ht & Hty). split; [by exists s, t|].
  assert (Hin : y ∈ dict_keys g ++ (step_id <$> result)).
  { rewrite Hk, <-Hty. by apply list_elem_of_fmap_2. }
  apply elem_of_app in Hin. naive_solver.
Qed.

Lemma sort_inv_ready g result : sort_inv g result -> g <> [] -> ready_keys g <> [].
Proof using All.
  intros HI. destruct (sort_inv_nodup _ _ HI) as (Hg & _). apply acyclic_ready; [done| |].
  - intros x y He. by eapply sort_inv_edge.
  - intros x Htc. apply (Hacyclic x). eapply tc_impl; [|exact Htc].
    intros a b He. by eapply sort_inv_edge.
Qed.

Lemma sort_next g result : sort_inv g result ->
  exists next, mapM (fun key => dict_get key (entry <$> steps)) (ready_keys g) = Some next /\
    step_id <$> next = ready_keys g /\
    (forall s, s ∈ next -> s ∈ steps /\ forall d, d ∈ depends_on s -> d ∈ step_id <$> result).
Proof using All.
  intros HI. assert (Hr : forall x, x ∈ ready_keys g -> (x, ∅) ∈ g) by (intros; by apply elem_of_ready).
  revert Hr. generalize (ready_keys g) as r. induction r as [|x r IH]; intros Hr.
  - exists []. split; [done|]. split; [done|]. intros s []%not_elem_of_nil.
  - destruct IH as (next & Hm & Hids & Hn); [intros; apply Hr; by right|].
    destruct (si_edges _ _ HI x ∅) as (s & Hs & Hx & Hd); [apply Hr; left|].
    exists (s :: next). cbn [mapM].
    rewrite (dict_get_elem x s); cycle 1.
    { unfold dict_keys. by rewrite <-list_fmap_compose. }
    { apply list_elem_of_fmap. exists s. by rewrite <-Hx. }
    cbn [mbind option_bind]. rewrite Hm. split; [done|]. split; [by rewrite fmap_cons, Hids, Hx|].
    intros t [->|Ht]%elem_of_cons; [|by apply Hn]. split; [done|]. intros d Hdep.
    destruct (decide (d ∈ step_id <$> result)) as [|Hnot]; [done|]. exfalso.
    by apply (not_elem_of_empty (C := gset string) d), Hd.
Qed.

Lemma sort_inv_step g result next : sort_inv g result ->
  step_id <$> next = ready_keys g ->
  (forall s, s ∈ next -> s ∈ steps /\ forall d, d ∈ depends_on s -> d ∈ step_id <$> result) ->
  sort_inv (remove_ready (ready_keys g) g) (result ++ next).
Proof using All.
  intros HI Hids Hn. destruct (sort_inv_nodup _ _ HI) as (Hg & Hr & Hdisj).
  pose proof HI as [Hk Hs He Hf]. split.
  - rewrite fmap_app, Hids, remove_ready_keys, <-Hk.
    rewrite (Permutation_app_comm (step_id <$> result) (ready_keys g)), app_assoc. f_equiv.
    assert (Hsub : ready_keys g ≡ₚ filter (fun k => k ∈ ready_keys g) (dict_keys g)).
    { apply list.NoDup_Permutation.
      - by apply ready_keys_nodup.
      - by apply NoDup_filter.
      - intros x. rewrite list_elem_of_filter. split; [|naive_solver]. intros Hx. split; [done|].
        apply elem_of_ready in Hx. by apply (list_elem_of_fmap_2 fst _ (x, ∅)). }
    etrans; [apply Permutation_app_head, Hsub|]. rewrite Permutation_app_comm.
    apply filter_app_complement.
  - intros s [?|?%Hn]%elem_of_app; naive_solver.
  - intros x S' (S & HS & Hx & ->)%elem_of_remove_ready. destruct (He x S HS) as (s & Hin & Hsx & Hd).
    exists s. split; [done|]. split; [done|]. intros d.
    rewrite elem_of_difference, Hd, elem_of_list_to_set, fmap_app, elem_of_app, Hids. naive_solver.
  - apply deps_first_app; [done|]. intros s d Hin. by apply Hn.
Qed.

Lemma sort_inv_done result : sort_inv [] result -> result ≡ₚ steps.
Proof using Hnd.
  intros HI. destruct (sort_inv_nodup _ _ HI) as (_ & Hr & _). destruct HI as [Hk Hs _ _].
  simpl in Hk. apply list.NoDup_Permutation.
  - by apply NoDup_fmap_1 in Hr.
  - by apply NoDup_fmap_1 in Hnd.
  - intros s. split; [by apply Hs|]. intros Hin.
    assert (Hid : step_id s ∈ step_id <$> result) by (rewrite Hk; by apply list_elem_of_fmap_2).
    apply list_elem_of_fmap in Hid as (t & E & Ht). by rewrite (step_id_inj s t Hin (Hs t Ht) E).
Qed.

Lemma toposort_loop_spec fuel g result : (length g <= fuel)%nat -> sort_inv g result ->
  exists sorted, toposort_loop fuel (entry <$> steps) g result = Some sorted /\
    sorted ≡ₚ steps /\ deps_first sorted.
Proof using All.
  revert g result. induction fuel as [|f IH]; intros g result Hf HI;
    destruct g as [|kv g'] eqn:Eg; simpl in Hf; try lia.
  1,2: exists result; split; [done|]; split; [by apply sort_inv_done|apply HI].
  rewrite <-Eg in *. destruct (sort_next g result HI) as (next & Hm & Hids & Hn).
  assert (Hlen : (length (remove_ready (ready_keys g) g) <= f)%nat).
  { assert (length (remove_ready (ready_keys g) g) < length g)%nat; [|rewrite Eg in *; simpl in *; lia].
    apply remove_ready_length, (sort_inv_ready g result HI). by rewrite Eg. }
  destruct (IH _ (result ++ next) Hlen) as (sorted & Hl & Hs); [by apply sort_inv_step|].
  exists sorted. split; [|done]. rewrite Eg at 1. cbn [toposort_loop]. rewrite <-Eg, Hm.
  exact Hl.
Qed.
End toposort.

Definition dependency_graph (by_id : list (string * PlanStep)) : plan_graph :=
  (fun kv => (kv.1, list_to_set (depends_on kv.2))) <$> by_id.

Lemma sort_inv_start steps : sort_inv steps (dependency_graph (entry <$> steps)) [].
Proof.
  split.
  - unfold dependency_graph, dict_keys. by rewrite app_nil_r, <-!list_fmap_compose.
  - intros s []%not_elem_of_nil.
  - intros x S. unfold dependency_graph. rewrite <-list_fmap_compose.
    intros (s & [= -> ->] & Hs)%list_elem_of_fmap. exists s. split; [done|]. split; [done|].
    intros d. rewrite elem_of_list_to_set. split; [|naive_solver]. intros; split; [done|].
    apply not_elem_of_nil.
  - intros [] s l2 E; discriminate E.
Qed.

Lemma toposort_valid steps : valid_plan steps ->
  exists sorted, topologically_sort_steps steps = Some (inr sorted) /\
    sorted ≡ₚ steps /\ deps_first sorted.
Proof.
  intros Hv. destruct (validate_steps_spec steps) as (ds & Hds & Hiff).
  apply Hiff in Hv as E. subst ds. destruct Hv as [Hnd Hc Ha _ _ _].
  destruct (toposort_loop_spec steps Hnd Hc Ha (length (entry <$> steps))
              (dependency_graph (entry <$> steps)) []) as (sorted & Hl & Hs).
  { unfold dependency_graph. by rewrite length_fmap. }
  { apply sort_inv_start. }
  exists sorted. split; [|done]. unfold topologically_sort_steps. rewrite Hds. cbn [mbind option_bind].
  rewrite steps_by_id_nodup by done. change (fun s => (step_id s, s)) with entry.
  change ((fun kv : string * PlanStep => (kv.1, list_to_set (depends_on kv.2) : gset string))
            <$> (entry <$> steps)) with (dependency_graph (entry <$> steps)).
  by rewrite Hl.
Qed.

(** ** Determinism *)
Lemma unique_steps_perm l k : l ≡ₚ k -> unique_steps l = unique_steps k.
Proof.
  intros Hp. rewrite !unique_steps_entries. f_equal.
  assert (Hf : forall s, dict_get (step_id s) (count_steps l) = Some 1
                     <-> dict_get (step_id s) (count_steps k) = Some 1).
  { intros s. by rewrite !count_steps_get, (occurrences_perm _ _ _ Hp). }
  rewrite (list_filter_iff _ _ (sorted_by step_id l) Hf).
  assert (Hs : forall m, key_sorted step_id (filter (fun s => dict_get (step_id s) (count_steps k) = Some 1)
                                    (sorted_by step_id m))).
  { intros m. unfold key_sorted. pose proof (sorted_by_sorted step_id m) as H. unfold key_sorted in H.
    induction H as [|s r Hr IH Hfa]; [constructor|]. rewrite filter_cons. destruct (decide _); [|done].
    constructor; [done|]. apply Forall_forall. rewrite Forall_forall in Hfa.
    intros t [_ Ht]%list_elem_of_filter. by apply Hfa. }
  apply (key_sorted_unique step_id); [|done|done|by rewrite !sorted_by_perm, Hp].
  intros x y. apply fmap_nodup_inj, unique_ids_nodup. by rewrite sorted_by_perm.
Qed.

Lemma duplicate_ids_perm l k : l ≡ₚ k -> duplicate_ids l = duplicate_ids k.
Proof.
  intros Hp. apply sorted_by_perm_eq; [done|]. f_equiv. f_equiv. apply list.NoDup_Permutation.
  1,2: apply (NoDup_fmap_1 fst), count_steps_nodup.
  intros [x n]. split; intros Hin%(dict_get_elem _ _ _ (count_steps_nodup _)); apply dict_get_Some.
  - by rewrite count_steps_get, <-(occurrences_perm _ _ _ Hp), <-count_steps_get.
  - by rewrite count_steps_get, (occurrences_perm _ _ _ Hp), <-count_steps_get.
Qed.

Lemma validate_steps_perm l k : l ≡ₚ k -> validate_steps l = validate_steps k.
Proof.
  intros Hp. unfold validate_steps. by rewrite (unique_steps_perm l k), (duplicate_ids_perm l k).
Qed.

Lemma toposort_loop_perm fuel d d' g g' result : NoDup (dict_keys d) -> d ≡ₚ d' ->
  NoDup (dict_keys g) -> g ≡ₚ g' ->
  toposort_loop fuel d g result = toposort_loop fuel d' g' result.
Proof.
  intros Hd Hdp. revert g g' result. induction fuel as [|f IH]; intros g g' result Hg Hgp.
  - destruct g, g'; [done| | |done]; by apply Permutation_length in Hgp.
  - assert (Hr : ready_keys g = ready_keys g').
    { apply sorted_by_perm_eq; [done|]. by rewrite Hgp. }
    destruct g as [|kv g1], g' as [|kv' g1']; [done|by apply Permutation_length in Hgp..|].
    cbn [toposort_loop]. rewrite <-Hr.
    rewrite (mapM_ext (fun key => dict_get key d) (fun key => dict_get key d'));
      [|intros x; by apply dict_get_perm].
    destruct (mapM _ _) as [next|]; [|done]. simpl. apply IH.
    + rewrite remove_ready_keys. by apply NoDup_filter.
    + unfold remove_ready. by rewrite Hgp.
Qed.

Lemma toposort_perm l k : l ≡ₚ k -> topologically_sort_steps l = topologically_sort_steps k.
Proof.
  intros Hp. unfold topologically_sort_steps. rewrite (validate_steps_perm l k Hp).
  destruct (validate_steps_spec k) as (ds & Hds & Hiff). rewrite Hds. simpl.
  destruct ds as [|d ds]; [|done].
  assert (Hk : NoDup (step_id <$> k)) by (by apply vp_unique, Hiff).
  assert (Hl : NoDup (step_id <$> l)) by (by rewrite Hp).
  rewrite !steps_by_id_nodup by done.
  rewrite (toposort_loop_perm _ _ ((fun s => (step_id s, s)) <$> k) _
    ((fun kv : string * PlanStep => (kv.1, list_to_set (depends_on kv.2)))
       <$> ((fun s => (step_id s, s)) <$> k))).
  - by rewrite !length_fmap, (Permutation_length Hp).
  - unfold dict_keys. by rewrite <-list_fmap_compose.
  - by rewrite Hp.
  - unfold dict_keys. by rewrite <-!list_fmap_compose.
  - by rewrite Hp.
Qed.

(** ** Results *)

(** C28. Validation and sorting always terminate.  A plan is valid when step ids
    are unique, dependencies name steps of the plan, the dependency graph has no
    cycle, every modification has an inspection among its (transitive) ancestors
    and no verifying test, and every verification step has an ancestor that it
    can verify and that shares a target with it.  For a valid plan there is no
    diagnostic and the sort returns every step exactly once, each after all of
    its dependencies; for any other plan the sort raises with the (non-empty)
    diagnostics of the validation. *)
Theorem toposort_correct steps :
  (valid_plan steps /\ validate_steps steps = Some [] /\
   exists sorted, topologically_sort_steps steps = Some (inr sorted) /\
     sorted ≡ₚ steps /\ deps_first sorted)
  \/ (~ valid_plan steps /\ exists diagnostics, diagnostics <> [] /\
     validate_steps steps = Some diagnostics /\
     topologically_sort_steps steps = Some (inl diagnostics)).
Proof.
  destruct (validate_steps_spec steps) as (ds & Hds & Hiff). destruct ds as [|d ds].
  - assert (Hv : valid_plan steps) by (by apply Hiff). left. split; [done|]. split; [done|].
    by apply toposort_valid.
  - right. split; [by intros ?%Hiff|]. exists (d :: ds). split; [done|]. split; [done|].
    unfold topologically_sort_steps. by rewrite Hds.
Qed.

(** The diagnostics and the order do not depend on the order in which the
    steps of the plan are listed. *)
Theorem plan_order_irrelevant steps steps' : steps ≡ₚ steps' ->
  validate_steps steps = validate_steps steps' /\
  topologically_sort_steps steps = topologically_sort_steps steps'.
Proof. intros Hp. split; [by apply validate_steps_perm|by apply toposort_perm]. Qed.

Definition sample_step (id : string) (op : PlanOperation) (files deps : list string) : PlanStep :=
  MkPlanStep id "title" "description" op files [] deps "outcome" []
    (MkRiskAssessment "low" "general" "none" [] "none" false) false [].
Definition sample_plan : list PlanStep :=
  [sample_step "verify-a" TEST ["a.py"] ["edit-a"]; sample_step "edit-a" MODIFY ["a.py"] ["look"];
   sample_step "doc" DOCUMENT ["b.md"] ["look"]; sample_step "look" INSPECT ["a.py"] []].

Example sample_plan_sorted :
  match topologically_sort_steps sample_plan with Some (inr l) => step_id <$> l | _ => [] end
  = ["look"; "doc"; "edit-a"; "verify-a"].
Proof. vm_compute. reflexivity. Qed.

Example cyclic_plan_rejected :
  fmap (M := list) (fun d => (pd_code d, pd_message d)) <$> validate_steps
    [sample_step "a" INSPECT [] ["b"]; sample_step "b" INSPECT [] ["a"]; sample_step "c" DELETE [] []]
  = Some [("destructive-without-inspection", "c"); ("step-cycle", "a,b")].
Proof. vm_compute. reflexivity. Qed.

Lemma plan_order_irrelevant_witness :
  sample_plan ≡ₚ reverse sample_plan /\
  topologically_sort_steps sample_plan = topologically_sort_steps (reverse sample_plan).
Proof.
  assert (Hp : sample_plan ≡ₚ reverse sample_plan) by (symmetry; apply reverse_Permutation).
  split; [exact Hp|]. apply (plan_order_irrelevant sample_plan (reverse sample_plan) Hp).
Defined.
