(* ===== verification/ToolBudget.v ===== *)
(** * Tool budgets ([tools/budget.py])

    [ToolBudget] with its reservations, and [measure_tool_output], which sizes a
    tool's output before it is serialised.

    The methods of [ToolBudget] run under [_lock] without suspending, so
    concurrent callers are a sequence of atomic operations.  Reservations are
    objects with ident: they are entries of a store, addressed by index.
    Tool outputs are object graphs (a heap of containers), so that sharing and
    cycles are represented. *)
From S2P Require Import Prelude PyStr Json.
Open Scope Z_scope.

(** ** [measure_tool_output] *)

(** A Python value; a container is a reference to a heap object.  [OOther] is an
    instance of any other type. *)
Inductive pyobj :=
| ONone | OBool (b : bool) | OInt (z : Z) | OFloat (literal : string)
| OStr (s : string) | OPath (text : string) | ORef (ident : positive)
| OOther (type_name : string).
Inductive container :=
| CSeq (items : list pyobj)                (** [list] or [tuple] *)
| CDict (items : list (pyobj * pyobj)).
Abbreviation heap := (gmap positive container).

Definition tobe {A} (msg : string) : res A := Raise (Exn ToolOutputBudgetExceeded msg).
Definition tobe_if (c : bool) (msg : string) : res unit := raise_if c ToolOutputBudgetExceeded msg.
Definition OVER : string := "tool output exceeded reserved hard budget".
Definition NOT_JSON : string := "tool output type is not JSON-compatible".

(** The loop over a list, with the running [size]. *)
Fixpoint measure_items (measure : pyobj -> Z -> res Z) (limit : Z) (first : bool) (size : Z)
    (items : list pyobj) : res Z :=
  match items with
  | [] => Ok size
  | item :: rest =>
      let size := size + (if first then 0 else 1) in
      tobe_if (limit <? size) OVER ;;*
      let* n := measure item (limit - size) in
      measure_items measure limit false (size + n) rest
  end.

(** The loop over a dictionary. *)
Fixpoint measure_members (measure : pyobj -> Z -> res Z) (limit : Z) (first : bool) (size : Z)
    (items : list (pyobj * pyobj)) : res Z :=
  match items with
  | [] => Ok size
  | (OStr key, item) :: rest =>
      let size := size + (if first then 0 else 1) + py_len (encode_str key) + 1 in
      tobe_if (limit <? size) OVER ;;*
      let* n := measure item (limit - size) in
      measure_members measure limit false (size + n) rest
  | _ => tobe "tool output object keys must be strings"
  end.

(** [levels] is [65 - _depth]: it is exhausted exactly when [_depth > 64].  Each
    call removes from [_seen] what it added, so the set is passed down. *)
Fixpoint measure_at (levels : nat) (h : heap) (value : pyobj) (limit : Z) (seen : list positive)
    : res Z :=
  match levels with
  | O => tobe "tool output nesting exceeds 64 levels"
  | S below =>
      let* size :=
        match value with
        | ONone => Ok 4
        | OBool b => Ok (if b then 4 else 5)
        | OInt z => Ok (py_len (Z_to_dec z))
        | OFloat lit =>
            raise_if (is_nan_literal lit) ValueError "Out of range float values are not JSON compliant" ;;*
            Ok (py_len lit)
        | OStr s | OPath s =>
            tobe_if (limit <? py_len s) OVER ;;* Ok (py_len (encode_str s))
        | ORef ident =>
            match h !! ident with
            | None => tobe NOT_JSON
            | Some c =>
                tobe_if (bool_decide (ident ∈ seen)) "tool output contains a cycle" ;;*
                let measure item rest := measure_at below h item rest (ident :: seen) in
                match c with
                | CSeq items => measure_items measure limit true 2 items
                | CDict items => measure_members measure limit true 2 items
                end
            end
        | OOther _ => tobe NOT_JSON
        end in
      tobe_if (limit <? size) OVER ;;*
      Ok size
  end.
Definition measure_tool_output (h : heap) (value : pyobj) (limit : Z) : res Z :=
  measure_at 65 h value limit [].

(** *** Specification: the JSON value an object graph stands for *)
Definition json_key (k : pyobj) : option string :=
  match k with OStr s => Some s | _ => None end.

(** The value of nesting depth less than [levels], if there is one: no cycle, only
    string keys, no foreign object and no NaN. *)
Definition json_member (unfold : pyobj -> option pyval) (kv : pyobj * pyobj) : option (string * pyval) :=
  k ← json_key kv.1; v ← unfold kv.2; Some (k, v).
Definition json_value (unfold : pyobj -> option pyval) (h : heap) (value : pyobj) : option pyval :=
  match value with
  | ONone => Some PNone
  | OBool b => Some (PBool b)
  | OInt z => Some (PInt z)
  | OFloat lit => if is_nan_literal lit then None else Some (PFloat lit)
  | OStr s | OPath s => Some (PStr s)
  | ORef ident =>
      match h !! ident with
      | Some (CSeq items) => l ← mapM unfold items; Some (PList l)
      | Some (CDict items) => d ← mapM (json_member unfold) items; Some (PDict d)
      | None => None
      end
  | OOther _ => None
  end.
Fixpoint to_json (levels : nat) (h : heap) (value : pyobj) : option pyval :=
  match levels with
  | O => None
  | S below => json_value (to_json below h) h value
  end.

(** [len(json.dumps(v, ensure_ascii=False, separators=(",", ":")))]; the order of
    the keys does not change it. *)
Definition json_size (v : pyval) : Z := py_len (dumpsc v).

Definition Zsum (l : list Z) : Z := foldr Z.add 0 l.

Lemma Zsum_perm l k : l ≡ₚ k -> Zsum l = Zsum k.
Proof. induction 1; simpl; lia. Qed.

Lemma py_len_join l : py_len (join "," l)
  = Zsum (py_len <$> l) + (match l with [] => 0 | _ => Z.of_nat (length l) - 1 end).
Proof.
  induction l as [|x l IH]; [done|]. destruct l as [|y l]; [simpl; lia|].
  change (join "," (x :: y :: l)) with (x +:+ "," +:+ join "," (y :: l)).
  rewrite !py_len_app, IH. change (py_len ",") with 1. cbn [length fmap list_fmap Zsum foldr]. lia.
Qed.

Lemma json_size_list l : json_size (PList l)
  = 2 + Zsum (json_size <$> l) + (match l with [] => 0 | _ => Z.of_nat (length l) - 1 end).
Proof.
  unfold json_size at 1. rewrite dumpsc_list, !py_len_app, py_len_join, <-list_fmap_compose, length_fmap.
  change (py_len "[") with 1. change (py_len "]") with 1.
  change (Zsum (py_len ∘ dumpsc <$> l)) with (Zsum (json_size <$> l)). destruct l; simpl; lia.
Qed.

Definition member_size (kv : string * pyval) : Z := py_len (encode_str kv.1) + 1 + json_size kv.2.

Lemma json_size_dict d : json_size (PDict d)
  = 2 + Zsum (member_size <$> d) + (match d with [] => 0 | _ => Z.of_nat (length d) - 1 end).
Proof.
  unfold json_size at 1. rewrite dumpsc_dict, !py_len_app, py_len_join, <-list_fmap_compose, length_fmap.
  change (py_len "{") with 1. change (py_len "}") with 1.
  rewrite (Zsum_perm (py_len ∘ member_text <$> sorted_by fst d) (member_size <$> d)).
  - generalize (Zsum (member_size <$> d)) as z. intros z.
    pose proof (length_sorted_by fst d) as E. destruct (sorted_by fst d), d; cbn [fmap list_fmap length] in *; lia.
  - rewrite sorted_by_perm. erewrite list_fmap_ext; [done|]. intros i kv _. unfold member_size, json_size, member_text, compose.
    rewrite !py_len_app. change (py_len ":") with 1. lia.
Qed.

Lemma py_len_head a s : is_continuation a = false -> 1 <= py_len (String a s).
Proof. intros E. cbn [py_len]. rewrite E. pose proof (py_len_nonneg s). lia. Qed.

Lemma escape_char_len c : (if is_continuation c then 0 else 1) <= py_len (escape_char c).
Proof.
  destruct (is_continuation c) eqn:E; [apply py_len_nonneg|].
  unfold escape_char. repeat case_match; by apply py_len_head.
Qed.

Lemma py_len_escape s : py_len s <= py_len (escape s).
Proof.
  induction s as [|c s IH]; [done|]. cbn [escape py_len]. rewrite py_len_app.
  pose proof (escape_char_len c). lia.
Qed.

Lemma encode_str_len s : py_len s + 2 <= py_len (encode_str s).
Proof.
  change (encode_str s) with (String QUOTE EmptyString +:+ escape s +:+ String QUOTE EmptyString).
  rewrite !py_len_app. change (py_len (String QUOTE EmptyString)) with 1.
  pose proof (py_len_escape s). lia.
Qed.

(** *** Soundness and completeness of the measure *)
Lemma json_size_nonneg v : 0 <= json_size v.
Proof. apply py_len_nonneg. Qed.

Lemma measure_items_Ok measure limit first size items n :
  measure_items measure limit first size items = Ok n ->
  exists sizes, Forall2 (fun item m => exists rest, measure item rest = Ok m) items sizes /\
    n = size + Zsum sizes + (match items with [] => 0 | _ => Z.of_nat (length items) - 1 end)
        + (match items with [] => 0 | _ => if first then 0 else 1 end).
Proof.
  revert first size. induction items as [|item items IH]; intros first size H; simpl in H; inv_res.
  - exists []. split; [constructor|simpl; lia].
  - destruct (IH _ _ H) as (sizes & Hs & ->). exists (x0 :: sizes). split; [constructor; eauto|].
    destruct items; inversion Hs; simpl; destruct first; lia.
Qed.

Lemma measure_members_Ok measure limit first size items n :
  measure_members measure limit first size items = Ok n ->
  exists sizes, Forall2 (fun kv km => kv.1 = OStr km.1 /\ exists rest, measure kv.2 rest = Ok km.2) items sizes /\
    n = size + Zsum ((fun km => py_len (encode_str km.1) + 1 + km.2) <$> sizes)
        + (match items with [] => 0 | _ => Z.of_nat (length items) - 1 end)
        + (match items with [] => 0 | _ => if first then 0 else 1 end).
Proof.
  revert first size. induction items as [|[[| | | |key| | |] item] items IH]; intros first size H;
    cbn [measure_members] in H; inv_res; try discriminate H.
  - exists []. split; [constructor|simpl; lia].
  - destruct (IH _ _ H) as (sizes & Hs & ->). exists ((key, x0) :: sizes). split; [constructor; eauto|].
    destruct items; inversion Hs; subst; cbn [fmap list_fmap Zsum foldr fst snd length];
      destruct first; lia.
Qed.

Lemma tobe_if_Ok c msg u : tobe_if c msg = Ok u <-> c = false.
Proof. apply raise_if_Ok. Qed.

Lemma json_member_Some (f : pyobj -> option pyval) k item v :
  f item = Some v -> json_member f (OStr k, item) = Some (k, v).
Proof. intros H. unfold json_member. simpl. by rewrite H. Qed.

(** A result is the length of the JSON text of the value, within the limit. *)
Lemma measure_at_sound levels h value limit seen n :
  measure_at levels h value limit seen = Ok n ->
  n <= limit /\ exists v, to_json levels h value = Some v /\ json_size v = n.
Proof.
  revert value limit seen n. induction levels as [|below IH]; intros value limit seen n H;
    cbn [measure_at] in H; [discriminate H|].
  apply res_bind_Ok in H as (size & Hsize & H). inv_res.
  match goal with E : tobe_if _ _ = Ok _ |- _ => apply tobe_if_Ok in E end.
  split; [lia|]. destruct value as [|b|z|lit|s|s|l|name];
    cbn [to_json json_value]; inv_res.
  - by exists PNone.
  - by exists (PBool b); destruct b.
  - by exists (PInt z).
  - exists (PFloat lit). match goal with E : is_nan_literal _ = _ |- _ => by rewrite E end.
  - by exists (PStr s).
  - by exists (PStr s).
  - destruct (h !! l) as [[items|items]|]; [| |discriminate Hsize]; inv_res.
    + apply measure_items_Ok in Hsize as (sizes & Hs & ->).
      assert (Hm : exists vs, mapM (to_json below h) items = Some vs /\ json_size <$> vs = sizes).
      { clear - IH Hs. induction Hs as [|item m items sizes (rest & Hm) Hs IHs]; [by exists []|].
        apply IH in Hm as (_ & v & Hv & Hm). destruct IHs as (vs & Hvs & Hsz).
        exists (v :: vs). cbn [mapM]. rewrite Hv. cbn [mbind option_bind]. rewrite Hvs.
        split; [done|]. by rewrite fmap_cons, Hm, Hsz. }
      destruct Hm as (vs & Hvs & <-). exists (PList vs). rewrite Hvs. split; [done|].
      rewrite json_size_list. apply length_mapM in Hvs. destruct vs, items; simpl in *; lia.
    + apply measure_members_Ok in Hsize as (sizes & Hs & ->).
      assert (Hm : exists d, mapM (json_member (to_json below h)) items = Some d /\
          member_size <$> d = (fun km => py_len (encode_str km.1) + 1 + km.2) <$> sizes).
      { clear - IH Hs. induction Hs as [|[k item] [k' m] items sizes [Hk (rest & Hm)] Hs IHs]; [by exists []|].
        simpl in Hk, Hm. subst k. apply IH in Hm as (_ & v & Hv & Hm). destruct IHs as (d & Hd & Hsz).
        exists ((k', v) :: d). cbn [mapM]. rewrite (json_member_Some _ _ _ _ Hv). cbn [mbind option_bind]. rewrite Hd.
        split; [done|]. rewrite !fmap_cons, Hsz. unfold member_size. simpl. by rewrite Hm. }
      destruct Hm as (d & Hd & Hsz). exists (PDict d). rewrite Hd. split; [done|].
      rewrite json_size_dict, Hsz. apply length_mapM in Hd. generalize (Zsum ((fun km => py_len (encode_str km.1) + 1 + km.2) <$> sizes)) as z.
      intros z. destruct d, items; simpl in *; lia.
  - discriminate Hsize.
Qed.

Lemma Zsum_nonneg l : Forall (Z.le 0) l -> 0 <= Zsum l.
Proof. induction 1; simpl; lia. Qed.

(** The separators that remain before [n] more entries. *)
Definition separators (first : bool) (n : nat) : Z :=
  match n with O => 0 | _ => Z.of_nat n - (if first then 1 else 0) end.

Lemma separators_nonneg first n : 0 <= separators first n.
Proof. unfold separators. destruct n, first; lia. Qed.

Lemma measure_items_complete measure limit first size items sizes :
  Forall2 (fun item m => forall rest, m <= rest -> measure item rest = Ok m) items sizes ->
  Forall (Z.le 0) sizes ->
  size + Zsum sizes + separators first (length items) <= limit ->
  measure_items measure limit first size items = Ok (size + Zsum sizes + separators first (length items)).
Proof.
  intros Hs. revert first size. induction Hs as [|item m items sizes Hm Hs IH]; intros first size Hp Hlim.
  - simpl. f_equal. lia.
  - apply Forall_cons in Hp as [Hp0 Hp]. pose proof (Zsum_nonneg _ Hp). cbn [measure_items Zsum foldr] in *.
    fold (Zsum sizes) in *.
    assert (Hsep : separators first (length (item :: items))
        = (if first then 0 else 1) + separators false (length items)).
    { unfold separators. destruct items, first; cbn -[Z.of_nat]; lia. }
    rewrite Hsep in *. pose proof (separators_nonneg false (length items)).
    cbv zeta.
    unfold tobe_if. rewrite raise_if_false by (destruct first; lia). cbn [res_bind].
    rewrite Hm by (destruct first; lia). cbn [res_bind]. rewrite IH; [f_equal; lia|done|]. lia.
Qed.

Lemma measure_members_complete measure limit first size items sizes :
  Forall2 (fun kv km => kv.1 = OStr km.1 /\ forall rest, km.2 <= rest -> measure kv.2 rest = Ok km.2) items sizes ->
  Forall (fun km => 0 <= km.2) sizes ->
  let total := size + Zsum ((fun km => py_len (encode_str km.1) + 1 + km.2) <$> sizes)
               + separators first (length items) in
  total <= limit -> measure_members measure limit first size items = Ok total.
Proof.
  intros Hs. revert first size.
  induction Hs as [|[k item] [key m] items sizes [Hk Hm] Hs IH]; intros first size Hp total Hlim;
    subst total.
  - simpl. f_equal. lia.
  - simpl in Hk, Hm. subst k. apply Forall_cons in Hp as [Hp0 Hp]. simpl in Hp0.
    assert (Hnn : 0 <= Zsum ((fun km : string * Z => py_len (encode_str km.1) + 1 + km.2) <$> sizes)).
    { apply Zsum_nonneg, Forall_fmap. eapply Forall_impl; [exact Hp|]. intros km Hkm. unfold compose in *.
      pose proof (py_len_nonneg (encode_str km.1)). lia. }
    rewrite fmap_cons in *. cbn [measure_members Zsum foldr fst snd] in *.
    fold (Zsum ((fun km : string * Z => py_len (encode_str km.1) + 1 + km.2) <$> sizes)) in *.
    assert (Hsep : separators first (length ((OStr key, item) :: items))
        = (if first then 0 else 1) + separators false (length items)).
    { unfold separators. destruct items, first; cbn -[Z.of_nat]; lia. }
    rewrite Hsep in *. pose proof (separators_nonneg false (length items)).
    pose proof (py_len_nonneg (encode_str key)). cbv zeta.
    unfold tobe_if. rewrite raise_if_false by (destruct first; lia). cbn [res_bind].
    rewrite Hm by (destruct first; lia). cbn [res_bind]. rewrite IH; [f_equal; lia|done|]. lia.
Qed.

Lemma mapM_mono {A B} (f g : A -> option B) l k :
  (forall x y, f x = Some y -> g x = Some y) -> mapM f l = Some k -> mapM g l = Some k.
Proof. intros H. rewrite !mapM_Some. intros Hf. eapply Forall2_impl; [exact Hf|]. done. Qed.

Lemma mapM_separators {A B} (f : A -> option B) l k : mapM f l = Some k ->
  separators true (length l) = match k with [] => 0 | _ => Z.of_nat (length k) - 1 end.
Proof. intros H%length_mapM. rewrite H. by destruct k. Qed.

Lemma json_member_mono (f g : pyobj -> option pyval) kv m :
  (forall x y, f x = Some y -> g x = Some y) -> json_member f kv = Some m -> json_member g kv = Some m.
Proof.
  intros H. unfold json_member. destruct (json_key kv.1); [|done]. simpl.
  destruct (f kv.2) eqn:E; [|done]. by rewrite (H _ _ E).
Qed.

Lemma to_json_mono levels h value v :
  to_json levels h value = Some v -> to_json (S levels) h value = Some v.
Proof.
  revert value v. induction levels as [|below IH]; intros value v; [done|].
  change (json_value (to_json below h) h value = Some v ->
          json_value (to_json (S below) h) h value = Some v).
  unfold json_value. destruct value as [|b|z|lit|s|s|l|name]; try done.
  destruct (h !! l) as [[items|items]|]; [| |done].
  - destruct (mapM (to_json below h) items) as [vs|] eqn:E; [|done].
    by rewrite (mapM_mono _ (to_json (S below) h) _ _ IH E).
  - destruct (mapM (json_member (to_json below h)) items) as [d|] eqn:E; [|done].
    rewrite (mapM_mono _ (json_member (to_json (S below) h)) _ _ (fun kv m => json_member_mono _ _ kv m IH) E).
    done.
Qed.

(** A value that has a JSON form of small enough depth and size is measured: in
    particular no cycle is reported. *)
Lemma measure_at_complete k levels h value limit seen v :
  (k <= levels)%nat -> to_json k h value = Some v -> json_size v <= limit ->
  (forall l, l ∈ seen -> to_json k h (ORef l) = None) ->
  measure_at levels h value limit seen = Ok (json_size v).
Proof.
  revert levels value limit seen v.
  induction k as [|k IH]; intros levels value limit seen v Hk Hv Hlim Hseen; [done|].
  assert (Hlow : forall l, l ∈ seen -> to_json k h (ORef l) = None).
  { intros l Hl. destruct (to_json k h (ORef l)) eqn:E; [|done]. apply to_json_mono in E.
    by rewrite Hseen in E. }
  destruct (to_json k h value) as [v'|] eqn:E.
  { pose proof (to_json_mono _ _ _ _ E) as E'. rewrite Hv in E'. injection E' as <-.
    apply IH; [lia|done..]. }
  destruct levels as [|below]; [lia|]. cbn [measure_at].
  assert (Hend : forall m : res Z, m = Ok (json_size v) ->
    (let* size := m in tobe_if (limit <? size) OVER ;;* Ok size) = Ok (json_size v)).
  { intros m ->. cbn [res_bind]. unfold tobe_if. rewrite raise_if_false by lia. done. }
  apply Hend. clear Hend. cbn [to_json] in Hv.
  destruct value as [|b|z|lit|s|s|l|name]; cbn [json_value] in Hv; simplify_eq; try done.
  - by destruct b.
  - destruct (is_nan_literal lit); by simplify_eq.
  - pose proof (encode_str_len s). change (json_size (PStr s)) with (py_len (encode_str s)) in *.
    unfold tobe_if. by rewrite raise_if_false by lia.
  - pose proof (encode_str_len s). change (json_size (PStr s)) with (py_len (encode_str s)) in *.
    unfold tobe_if. by rewrite raise_if_false by lia.
  - destruct (h !! l) as [c|] eqn:Hl; [|done].
    assert (Hfresh : l ∉ seen).
    { intros Hin. specialize (Hseen l Hin). cbn [to_json json_value] in Hseen. rewrite Hl in Hseen.
      destruct c; by rewrite Hv in Hseen. }
    unfold tobe_if at 1. rewrite raise_if_false by (by apply bool_decide_eq_false). cbn [res_bind].
    assert (Hrec : forall item w, to_json k h item = Some w -> forall rest, json_size w <= rest ->
              measure_at below h item rest (l :: seen) = Ok (json_size w)).
    { intros item w Hw rest Hrest. apply IH; [lia|done|done|].
      intros l' [->|Hl']%elem_of_cons; [done|by apply Hlow]. }
    destruct c as [items|items].
    + destruct (mapM (to_json k h) items) as [vs|] eqn:Em; [|done]. simplify_eq/=.
      rewrite json_size_list in *. rewrite <-(mapM_separators _ _ _ Em) in *.
      rewrite (measure_items_complete _ _ _ _ _ (json_size <$> vs)); [done| | |done].
      * apply mapM_Some in Em. apply Forall2_fmap_r. eapply Forall2_impl; [exact Em|]. exact Hrec.
      * apply Forall_fmap, Forall_true. intros. apply json_size_nonneg.
    + destruct (mapM (json_member (to_json k h)) items) as [d|] eqn:Em; [|done]. simplify_eq/=.
      rewrite json_size_dict in *. rewrite <-(mapM_separators _ _ _ Em) in *.
      assert (Esz : member_size <$> d
         = (fun km => py_len (encode_str km.1) + 1 + km.2) <$> ((fun kv => (kv.1, json_size kv.2)) <$> d))
        by (by rewrite <-list_fmap_compose).
      rewrite Esz in *.
      rewrite (measure_members_complete _ _ _ _ _ ((fun kv => (kv.1, json_size kv.2)) <$> d)); [done| | |done].
      * apply mapM_Some in Em. apply Forall2_fmap_r. eapply Forall2_impl; [exact Em|].
        intros [key item] [key' w]. unfold json_member. simpl. destruct key; try done. simpl.
        destruct (to_json k h item) as [w'|] eqn:Ew; [|done]. intros [= <- <-].
        split; [done|]. by apply Hrec.
      * apply Forall_fmap, Forall_true. intros. apply json_size_nonneg.
Qed.

Lemma measure_tool_output_le h value limit n : measure_tool_output h value limit = Ok n -> n <= limit.
Proof. unfold measure_tool_output. generalize 65%nat. intros k H. apply (measure_at_sound k h value limit [] n H). Qed.

(** [measure_tool_output] terminates on every object graph, cyclic ones
    included, and accepts exactly the graphs that stand for a JSON value of at
    most 64 nested levels whose compact JSON text fits the limit; the measure is
    the length of that text. *)
Theorem measure_tool_output_exact h value limit n :
  measure_tool_output h value limit = Ok n <->
  exists v, to_json 65 h value = Some v /\ json_size v = n /\ n <= limit.
Proof.
  unfold measure_tool_output. split.
  - intros (Hlim & v & Hv & Hn)%measure_at_sound. eauto.
  - intros (v & Hv & <- & Hlim). apply (measure_at_complete 65); [done|done|done|].
    intros l []%not_elem_of_nil.
Qed.

(** A list that contains itself, and a value shared twice. *)
Example cyclic_output_rejected :
  measure_tool_output {[ 1%positive := CSeq [OInt 1; ORef 1] ]} (ORef 1) 1000
  = Raise (Exn ToolOutputBudgetExceeded "tool output contains a cycle").
Proof. vm_compute. reflexivity. Qed.
Example shared_output_measured :
  measure_tool_output (<[ 1%positive := CSeq [] ]> {[ 2%positive :=
     CDict [(OStr "a", ORef 1); (OStr "b", ORef 1)] ]}) (ORef 2) 15 = Ok 15.
Proof. vm_compute. reflexivity. Qed.

(** ** [ToolBudget] *)
Record BudgetLimits := MkBudgetLimits {
  max_calls : Z; max_output_chars : Z; max_batch_calls : Z; max_parallel_calls : Z;
  max_output_per_tool : Z; max_total_output : Z; max_background_processes : Z;
  max_processes_per_workspace : Z; max_browser_contexts : Z
}.
Definition default_limits : BudgetLimits :=
  MkBudgetLimits 50 100000 16 8 65536 100000 4 2 4.

(** [ToolBudgetReservation] *)
Record Reservation := MkReservation { output_limit : Z; parallel : bool; active : bool }.

(** A budget and the reservation objects it has handed out. *)
Record ToolBudget := MkToolBudget {
  limits : BudgetLimits;
  call_count : Z; tb_output_chars : Z; reserved_calls : Z; reserved_output : Z; parallel_active : Z;
  reservations : list Reservation
}.
Definition new_budget (limits : BudgetLimits) : ToolBudget := MkToolBudget limits 0 0 0 0 0 [].

Definition _total_output_limit (b : ToolBudget) : Z :=
  Z.min (max_output_chars (limits b)) (max_total_output (limits b)).
Definition is_exhausted (b : ToolBudget) : bool :=
  (max_calls (limits b) <=? call_count b + reserved_calls b)
  || (_total_output_limit b <=? tb_output_chars b + reserved_output b).
Definition validate_batch (b : ToolBudget) (size : Z) : bool :=
  (0 <=? size) && (size <=? max_batch_calls (limits b)).

Definition b2z (b : bool) : Z := if b then 1 else 0.

(** [reserve]: the index of the new reservation, or [None] *)
Definition reserve (par : bool) (b : ToolBudget) : option nat * ToolBudget :=
  if max_calls (limits b) <=? call_count b + reserved_calls b then (None, b)
  else if par && (max_parallel_calls (limits b) <=? parallel_active b) then (None, b)
  else
    let remaining := _total_output_limit b - tb_output_chars b - reserved_output b in
    if remaining <=? 0 then (None, b)
    else
      let lim := Z.min (max_output_per_tool (limits b)) remaining in
      (Some (length (reservations b)),
       MkToolBudget (limits b) (call_count b) (tb_output_chars b) (reserved_calls b + 1)
         (reserved_output b + lim) (parallel_active b + b2z par)
         (reservations b ++ [MkReservation lim par true])).

(** [_finish(reservations[i], output_chars=out)] *)
Definition _finish (i : nat) (out : option Z) (b : ToolBudget) : res unit * ToolBudget :=
  match reservations b !! i with
  | None => (Ok tt, b)
  | Some r =>
      if negb (active r) then (Ok tt, b)
      else
        let b1 := MkToolBudget (limits b) (call_count b) (tb_output_chars b) (reserved_calls b - 1)
          (reserved_output b - output_limit r) (parallel_active b - b2z (parallel r))
          (<[i := MkReservation (output_limit r) (parallel r) false]> (reservations b)) in
        match out with
        | None => (Ok tt, b1)
        | Some n =>
            if output_limit r <? n then
              (Raise (Exn RuntimeError "tool output exceeded reserved hard budget"), b1)
            else
              (Ok tt, MkToolBudget (limits b1) (call_count b1 + 1) (tb_output_chars b1 + n)
                 (reserved_calls b1) (reserved_output b1) (parallel_active b1) (reservations b1))
        end
  end.
Definition commit (i : nat) (out : Z) := _finish i (Some out).
Definition release (i : nat) := _finish i None.

(** [record], for trusted single-threaded callers: it charges without a
    reservation. *)
Definition record_output (out : Z) (b : ToolBudget) : ToolBudget :=
  MkToolBudget (limits b) (call_count b + 1) (tb_output_chars b + out) (reserved_calls b)
    (reserved_output b) (parallel_active b) (reservations b).

(** What dispatch tasks do, in any interleaving. *)
Inductive budget_op := Reserve (par : bool) | Commit (i : nat) (out : Z) | Release (i : nat).
Definition budget_step (b : ToolBudget) (op : budget_op) : ToolBudget :=
  match op with
  | Reserve par => (reserve par b).2
  | Commit i out => (commit i out b).2
  | Release i => (release i b).2
  end.
Definition run_budget : ToolBudget -> list budget_op -> ToolBudget := foldl budget_step.

(** *** The accounting invariant *)
Definition limits_ok (l : BudgetLimits) : Prop :=
  0 <= max_calls l /\ 0 <= max_parallel_calls l /\ 0 <= max_output_per_tool l /\
  0 <= max_output_chars l /\ 0 <= max_total_output l.

Definition total_of (f : Reservation -> Z) (rs : list Reservation) : Z :=
  Zsum ((fun r => if active r then f r else 0) <$> rs).

Record budget_ok (b : ToolBudget) : Prop := {
  bo_limits : limits_ok (limits b);
  bo_reserved_calls : reserved_calls b = total_of (fun _ => 1) (reservations b);
  bo_reserved_output : reserved_output b = total_of output_limit (reservations b);
  bo_parallel : parallel_active b = total_of (fun r => b2z (parallel r)) (reservations b);
  bo_nonneg : Forall (fun r => 0 <= output_limit r) (reservations b);
  bo_calls : call_count b + reserved_calls b <= max_calls (limits b);
  bo_output : tb_output_chars b + reserved_output b <= _total_output_limit b;
  bo_parallel_cap : parallel_active b <= max_parallel_calls (limits b)
}.

Lemma total_of_app f rs rs' : total_of f (rs ++ rs') = total_of f rs + total_of f rs'.
Proof.
  unfold total_of. rewrite fmap_app. generalize ((fun r => if active r then f r else 0) <$> rs) as l.
  induction l as [|x l IH]; simpl; lia.
Qed.

Lemma total_of_new f lim par : total_of f [MkReservation lim par true] = f (MkReservation lim par true).
Proof. apply Z.add_0_r. Qed.

Lemma total_of_finish f rs i r : rs !! i = Some r -> active r = true ->
  total_of f (<[i := MkReservation (output_limit r) (parallel r) false]> rs) = total_of f rs - f r.
Proof.
  unfold total_of. revert i. induction rs as [|r' rs IH]; intros [|i] Hi Ha; simplify_eq/=.
  - rewrite Ha. lia.
  - rewrite (IH i Hi Ha). lia.
Qed.

Lemma total_of_nonneg f rs : (forall r, r ∈ rs -> 0 <= f r) -> 0 <= total_of f rs.
Proof.
  intros H. apply Zsum_nonneg, Forall_fmap, Forall_forall. intros r Hr. unfold compose.
  destruct (active r); [by apply H|done].
Qed.

Lemma new_budget_ok l : limits_ok l -> budget_ok (new_budget l).
Proof. intros H. pose proof H as (?&?&?&?&?). split; try done; simpl; unfold _total_output_limit; simpl; lia. Qed.

Lemma reserve_ok par b : budget_ok b -> budget_ok (reserve par b).2.
Proof.
  intros [H1 H2 H3 H4 H5 H6 H7 H8]. unfold reserve.
  destruct (max_calls (limits b) <=? _) eqn:E1; [by split|].
  destruct (par && _) eqn:E2; [by split|]. destruct (_ <=? 0) eqn:E3; [by split|].
  pose proof H1 as (?&?&?&?&?).
  assert (Hpar : parallel_active b + b2z par <= max_parallel_calls (limits b)).
  { destruct par; simpl in *; lia. }
  split; cbn [limits call_count tb_output_chars reserved_calls reserved_output parallel_active reservations snd];
    rewrite ?total_of_app, ?total_of_new; try done.
  - lia.
  - rewrite H3. done.
  - rewrite H4. done.
  - apply Forall_app. split; [done|]. constructor; [|constructor]. simpl. lia.
  - lia.
  - unfold _total_output_limit in *. simpl in *. lia.
Qed.

Lemma finish_ok i out b : budget_ok b -> budget_ok (_finish i out b).2.
Proof.
  intros [H1 H2 H3 H4 H5 H6 H7 H8]. unfold _finish.
  destruct (reservations b !! i) as [r|] eqn:Hi; [|by split]. destruct (active r) eqn:Ha; [|by split].
  assert (Hr : 0 <= output_limit r) by (apply (Forall_lookup_1 _ _ _ _ H5 Hi)).
  assert (Hall : Forall (fun r => 0 <= output_limit r)
            (<[i := MkReservation (output_limit r) (parallel r) false]> (reservations b)))
    by (by apply Forall_insert).
  pose proof (total_of_finish (fun _ => 1) _ _ _ Hi Ha) as T1.
  pose proof (total_of_finish output_limit _ _ _ Hi Ha) as T2.
  pose proof (total_of_finish (fun r => b2z (parallel r)) _ _ _ Hi Ha) as T3. simpl in T3.
  assert (0 <= b2z (parallel r)) by (destruct (parallel r); simpl; lia).
  simpl. destruct out as [n|]; [destruct (output_limit r <? n) eqn:En|].
  all: split; cbn [limits call_count tb_output_chars reserved_calls reserved_output parallel_active
                   reservations snd]; unfold _total_output_limit in *; cbn [limits] in *;
    first [done|lia].
Qed.

Lemma run_budget_ok b ops : budget_ok b -> budget_ok (run_budget b ops).
Proof.
  revert b. induction ops as [|op ops IH]; intros b H; [done|]. apply IH.
  destruct op; [by apply reserve_ok|by apply finish_ok..].
Qed.

Lemma budget_limits_fixed ops b : limits (run_budget b ops) = limits b.
Proof.
  revert b. induction ops as [|op ops IH]; intros b; [done|]. simpl. rewrite IH.
  destruct op; simpl; unfold reserve, commit, release, _finish; repeat case_match; done.
Qed.

(** *** Results *)

(** C29. However reservations, commits and releases are interleaved, with whatever
    arguments, a budget never oversubscribes: committed plus reserved calls stay
    within [max_calls], committed plus reserved output within the total output
    limit, parallel calls within [max_parallel_calls]; and the reserved counters
    always equal what the active reservations hold, so nothing leaks. *)
Theorem budget_never_oversubscribed l ops : limits_ok l ->
  let b := run_budget (new_budget l) ops in budget_ok b /\ limits b = l.
Proof.
  intros Hl b. split; [by apply run_budget_ok, new_budget_ok|apply budget_limits_fixed].
Qed.

(** [reserve] succeeds exactly when the budget is not exhausted and, for a
    parallel call, a parallel slot is free; it then hands out a fresh active
    reservation of [min(max_output_per_tool, remaining)] characters and changes
    nothing else but the reserved counters; a refusal changes nothing. *)
Theorem reserve_admits_iff par b :
  (is_exhausted b = false /\ (par = true -> parallel_active b < max_parallel_calls (limits b)) /\
   exists b', reserve par b = (Some (length (reservations b)), b') /\
     let lim := Z.min (max_output_per_tool (limits b))
                  (_total_output_limit b - tb_output_chars b - reserved_output b) in
     reservations b' = reservations b ++ [MkReservation lim par true] /\
     (call_count b', tb_output_chars b', limits b') = (call_count b, tb_output_chars b, limits b))
  \/ ((is_exhausted b = true \/ (par = true /\ max_parallel_calls (limits b) <= parallel_active b)) /\
      reserve par b = (None, b)).
Proof.
  unfold reserve, is_exhausted. destruct (max_calls (limits b) <=? _) eqn:E1; [right; auto|].
  destruct (par && _) eqn:E2.
  { apply andb_true_iff in E2 as [-> E2]. right. split; [right; split; [done|lia]|done]. }
  destruct (_ - _ - _ <=? 0) eqn:E3; [right; split; [left; simpl; lia|done]|].
  left. split; [simpl; lia|]. split; [intros ->; simpl in E2; lia|]. eexists. split; [done|]. done.
Qed.

(** An output that [measure_tool_output] sized within an active reservation
    is committed without error: the call and its size are counted, the
    reservation is given back, and finishing it again has no effect. *)
Theorem measured_output_commits h value n i r b :
  reservations b !! i = Some r -> active r = true ->
  measure_tool_output h value (output_limit r) = Ok n ->
  exists b', commit i n b = (Ok tt, b') /\
    call_count b' = call_count b + 1 /\ tb_output_chars b' = tb_output_chars b + n /\
    reserved_output b' = reserved_output b - output_limit r /\
    reservations b' = <[i := MkReservation (output_limit r) (parallel r) false]> (reservations b) /\
    forall out, _finish i out b' = (Ok tt, b').
Proof.
  intros Hi Ha Hn%measure_tool_output_le. unfold commit, _finish. rewrite Hi, Ha.
  cbn [negb call_count limits tb_output_chars reserved_calls reserved_output parallel_active reservations].
  replace (output_limit r <? n) with false by lia. eexists. split; [done|]. cbn. do 4 (split; [done|]).
  intros out. by rewrite list_lookup_insert_eq by (by eapply lookup_lt_Some).
Qed.

Lemma budget_never_oversubscribed_witness :
  limits_ok default_limits /\
  budget_ok (run_budget (new_budget default_limits) [Reserve true; Reserve false; Commit 0 70000; Commit 1 12]).
Proof.
  assert (H : limits_ok default_limits) by (unfold limits_ok; simpl; lia).
  split; [exact H|]. apply (budget_never_oversubscribed default_limits _ H).
Defined.
