(* ===== verification/SubagentScheduler.v ===== *)
(** * The bounded subagent scheduler ([subagents/scheduler.py])

    [BoundedParallelScheduler] runs child workers concurrently.  A critical
    section never suspends while it holds the lock, so each one is an atomic
    step; a [World] holds the scheduler and every call of [run] with the state of
    its worker task, and [sched_step] is one step of one of them.  Workers are
    arbitrary: a live worker may charge its budget at any moment and may end in
    any way. *)
From S2P Require Import Prelude PyStr.
Open Scope Z_scope.

(** ** Contracts ([subagents/contracts.py]) *)
Inductive SubagentRole := RESEARCH | IMPLEMENTATION | TEST | REVIEW.
#[export] Instance SubagentRole_eq_dec : EqDecision SubagentRole.
Proof. solve_decision. Defined.
Inductive SubagentAccessMode := READ_ONLY | MUTATING.
#[export] Instance SubagentAccessMode_eq_dec : EqDecision SubagentAccessMode.
Proof. solve_decision. Defined.
Inductive SubagentResultStatus := SUCCESS | FAILED | CANCELLED | STALE | CONFLICT | QUARANTINED.
#[export] Instance SubagentResultStatus_eq_dec : EqDecision SubagentResultStatus.
Proof. solve_decision. Defined.

(** The fields of an assignment that the scheduler reads. *)
Record SubagentAssignment := MkAssignment {
  assignment_id : string; role : SubagentRole; access_mode : SubagentAccessMode
}.
Definition mutating (a : SubagentAssignment) : bool := bool_decide (access_mode a = MUTATING).
Definition is_research (a : SubagentAssignment) : bool := bool_decide (role a = RESEARCH).

(** [SubagentParallelismPolicy], without the duration that only the event loop's
    clock reads. *)
Record SubagentParallelismPolicy := MkPolicy {
  max_active_children : Z; max_mutating_children : Z; max_research_children : Z;
  max_child_turns : Z; max_child_tokens : Z; max_child_tool_calls : Z;
  max_aggregate_tokens : Z; max_aggregate_tool_calls : Z; max_child_storage_bytes : Z
}.
Definition make_policy (p : SubagentParallelismPolicy) : res SubagentParallelismPolicy :=
  raise_if (negb (forallb (fun v => 0 <? v)
    [max_active_children p; max_mutating_children p; max_research_children p; max_child_turns p;
     max_child_tokens p; max_child_tool_calls p; max_aggregate_tokens p; max_aggregate_tool_calls p;
     max_child_storage_bytes p])) ParallelSubagentContractError "limit must be positive" ;;*
  raise_if (max_active_children p <? max_mutating_children p) ParallelSubagentContractError
    "parallel child limits exceed max_active_children" ;;*
  Ok p.
Definition default_policy : SubagentParallelismPolicy :=
  MkPolicy 4 2 4 30 100000 256 300000 1024 (256 * 1024 * 1024).

(** ** Usage *)
Record ChildUsage := MkUsage { turns : Z; tokens : Z; tool_calls : Z; storage_bytes : Z }.
Definition make_usage (t k c s : Z) : res ChildUsage :=
  raise_if ((t <? 0) || (k <? 0) || (c <? 0) || (s <? 0)) ValueError "must be a non-negative integer" ;;*
  Ok (MkUsage t k c s).
Definition no_usage : ChildUsage := MkUsage 0 0 0 0.

(** ** The scheduler *)
Record Scheduler := MkScheduler {
  policy : SubagentParallelismPolicy;
  active : gset string; active_mutating : Z; active_research : Z;
  aggregate_tokens : Z; aggregate_tool_calls : Z;
  completed : Z; failed : Z; cancelled : Z; stale : Z; conflict : Z; quarantined : Z
}.
Definition new_scheduler (p : SubagentParallelismPolicy) : Scheduler :=
  MkScheduler p ∅ 0 0 0 0 0 0 0 0 0 0.

Definition set_active (a : gset string) (m r : Z) (s : Scheduler) : Scheduler :=
  MkScheduler (policy s) a m r (aggregate_tokens s) (aggregate_tool_calls s)
    (completed s) (failed s) (cancelled s) (stale s) (conflict s) (quarantined s).

Definition b2z (b : bool) : Z := if b then 1 else 0.

(** The condition of the waiting loop of [_admit]. *)
Definition at_capacity (a : SubagentAssignment) (s : Scheduler) : bool :=
  (max_active_children (policy s) <=? Z.of_nat (size (active s)))
  || (mutating a && (max_mutating_children (policy s) <=? active_mutating s))
  || (is_research a && (max_research_children (policy s) <=? active_research s)).

(** One pass of [_admit] under the lock: [Ok true] when admitted, [Ok false] when
    the caller goes (back) to wait. *)
Definition _admit (a : SubagentAssignment) (s : Scheduler) : res bool * Scheduler :=
  if bool_decide (assignment_id a ∈ active s) then
    (Raise (Exn SubagentSchedulerError "assignment is already active"), s)
  else if at_capacity a s then (Ok false, s)
  else (Ok true, set_active ({[assignment_id a]} ∪ active s) (active_mutating s + b2z (mutating a))
                   (active_research s + b2z (is_research a)) s).

Definition _release (a : SubagentAssignment) (s : Scheduler) : Scheduler :=
  set_active (active s ∖ {[assignment_id a]})
    (if mutating a then Z.max 0 (active_mutating s - 1) else active_mutating s)
    (if is_research a then Z.max 0 (active_research s - 1) else active_research s) s.

Definition _record (st : SubagentResultStatus) (s : Scheduler) : Scheduler :=
  MkScheduler (policy s) (active s) (active_mutating s) (active_research s)
    (aggregate_tokens s) (aggregate_tool_calls s)
    (completed s + b2z (bool_decide (st = SUCCESS)))
    (failed s + b2z (bool_decide (st = FAILED)))
    (cancelled s + b2z (bool_decide (st = CANCELLED)))
    (stale s + b2z (bool_decide (st = STALE)))
    (conflict s + b2z (bool_decide (st = CONFLICT)))
    (quarantined s + b2z (bool_decide (st = QUARANTINED))).

Definition exceeds_child (p : SubagentParallelismPolicy) (u : ChildUsage) : bool :=
  (max_child_turns p <? turns u) || (max_child_tokens p <? tokens u)
  || (max_child_tool_calls p <? tool_calls u) || (max_child_storage_bytes p <? storage_bytes u).
Definition add_usage (u v : ChildUsage) : ChildUsage :=
  MkUsage (turns u + turns v) (tokens u + tokens v) (tool_calls u + tool_calls v)
    (storage_bytes u + storage_bytes v).

(** [ChildBudget.charge]: [own] is the handle's [usage]. *)
Definition charge (own usage : ChildUsage) (s : Scheduler) : res ChildUsage * Scheduler :=
  let candidate := add_usage own usage in
  if exceeds_child (policy s) candidate then
    (Raise (Exn SubagentBudgetExceeded "child budget exceeded"), s)
  else if (max_aggregate_tokens (policy s) <? aggregate_tokens s + tokens usage)
       || (max_aggregate_tool_calls (policy s) <? aggregate_tool_calls s + tool_calls usage) then
    (Raise (Exn SubagentBudgetExceeded "aggregate child budget exceeded"), s)
  else
    (Ok candidate,
     MkScheduler (policy s) (active s) (active_mutating s) (active_research s)
       (aggregate_tokens s + tokens usage) (aggregate_tool_calls s + tool_calls usage)
       (completed s) (failed s) (cancelled s) (stale s) (conflict s) (quarantined s)).

(** ** Concurrent runs *)

(** How a worker task ended. *)
Inductive worker_end :=
| Returned (st : SubagentResultStatus)      (** a typed [SubagentResult] *)
| ReturnedOther                             (** something else *)
| RaisedCancelled                           (** [CancelledError] *)
| Raised.                                   (** any other exception *)
Inductive worker_state := WorkerLive | WorkerDone (e : worker_end).

(** Where a call of [run] is. *)
Inductive run_phase :=
| Admitting                                 (** in [_admit], possibly waiting *)
| Running                                   (** awaiting the worker *)
| Draining (st : SubagentResultStatus)      (** in [_cancel_worker]; [st] is recorded next *)
| Releasing                                 (** recorded; in [finally] *)
| Finished
| NotAdmitted.                              (** left [_admit] by an exception *)
Record Run := MkRun {
  assignment : SubagentAssignment; phase : run_phase; worker : worker_state; usage : ChildUsage
}.
Record World := MkWorld { sched : Scheduler; runs : list Run }.
Definition new_world (p : SubagentParallelismPolicy) : World := MkWorld (new_scheduler p) [].

Inductive label :=
| Spawn (a : SubagentAssignment)            (** a caller calls [run(a, worker)] *)
| Admit (i : nat)                           (** a pass of [_admit] *)
| Abandon (i : nat)                         (** cancelled while waiting *)
| Charge (i : nat) (u : ChildUsage)         (** the worker charges its budget *)
| WorkerEnds (i : nat) (e : worker_end)
| Join (i : nat)                            (** [wait_for] delivers the worker's end *)
| Expire (i : nat)                          (** [wait_for] times out *)
| Cancel (i : nat)                          (** the caller is cancelled *)
| Drained (i : nat)                         (** [_cancel_worker] returns: the worker ended *)
| CancelDrain (i : nat)                     (** cancelled again, inside [_cancel_worker] *)
| Release (i : nat).                        (** the [finally] block *)

(** The status recorded when [wait_for] delivers the worker's end. *)
Definition end_status (e : worker_end) : SubagentResultStatus :=
  match e with
  | Returned st => st
  | ReturnedOther | Raised => FAILED
  | RaisedCancelled => CANCELLED
  end.

Definition set_run (i : nat) (r : Run) (s : Scheduler) (w : World) : World :=
  MkWorld s (<[i := r]> (runs w)).
Definition set_phase (ph : run_phase) (r : Run) : Run :=
  MkRun (assignment r) ph (worker r) (usage r).

(** One step; [None] when it is not possible. *)
Definition sched_step (l : label) (w : World) : option World :=
  match l with
  | Spawn a => Some (MkWorld (sched w) (runs w ++ [MkRun a Admitting WorkerLive no_usage]))
  | Admit i =>
      r ← runs w !! i;
      match phase r with
      | Admitting =>
          match _admit (assignment r) (sched w) with
          | (Ok true, s) => Some (set_run i (set_phase Running r) s w)
          | (Ok false, s) => Some (MkWorld s (runs w))
          | (Raise _, s) => Some (set_run i (set_phase NotAdmitted r) s w)
          end
      | _ => None
      end
  | Abandon i =>
      r ← runs w !! i;
      match phase r with Admitting => Some (set_run i (set_phase NotAdmitted r) (sched w) w) | _ => None end
  | Charge i u =>
      r ← runs w !! i;
      match phase r, worker r, make_usage (turns u) (tokens u) (tool_calls u) (storage_bytes u) with
      | Admitting, _, _ | NotAdmitted, _, _ | _, WorkerDone _, _ | _, _, Raise _ => None
      | _, WorkerLive, Ok u =>
          match charge (usage r) u (sched w) with
          | (Ok total, s) => Some (set_run i (MkRun (assignment r) (phase r) WorkerLive total) s w)
          | (Raise _, s) => Some (MkWorld s (runs w))
          end
      end
  | WorkerEnds i e =>
      r ← runs w !! i;
      match phase r, worker r with
      | Admitting, _ | NotAdmitted, _ | _, WorkerDone _ => None
      | _, WorkerLive => Some (set_run i (MkRun (assignment r) (phase r) (WorkerDone e) (usage r)) (sched w) w)
      end
  | Join i =>
      r ← runs w !! i;
      match phase r, worker r with
      | Running, WorkerDone e => Some (set_run i (set_phase Releasing r) (_record (end_status e) (sched w)) w)
      | _, _ => None
      end
  | Expire i =>
      r ← runs w !! i;
      match phase r with Running => Some (set_run i (set_phase (Draining FAILED) r) (sched w) w) | _ => None end
  | Cancel i =>
      r ← runs w !! i;
      match phase r with Running => Some (set_run i (set_phase (Draining CANCELLED) r) (sched w) w) | _ => None end
  | Drained i =>
      r ← runs w !! i;
      match phase r, worker r with
      | Draining st, WorkerDone _ => Some (set_run i (set_phase Releasing r) (_record st (sched w)) w)
      | _, _ => None
      end
  | CancelDrain i =>
      r ← runs w !! i;
      match phase r, worker r with
      | Draining st, WorkerLive => Some (set_run i (set_phase Releasing r) (_record st (sched w)) w)
      | _, _ => None
      end
  | Release i =>
      r ← runs w !! i;
      match phase r with
      | Releasing => Some (set_run i (set_phase Finished r) (_release (assignment r) (sched w)) w)
      | _ => None
      end
  end.

(** A sequence of steps, each of them possible. *)
Fixpoint run_trace (ls : list label) (w : World) : option World :=
  match ls with
  | [] => Some w
  | l :: ls' => w' ← sched_step l w; run_trace ls' w'
  end.

(** ** Invariants *)

(** A run between its admission and its release. *)
Definition holds_slot (r : Run) : bool :=
  match phase r with Running | Draining _ | Releasing => true | _ => false end.
Definition holders (rs : list Run) : list Run := filter (fun r => holds_slot r = true) rs.
(** A run whose end has been recorded. *)
Definition is_recorded (r : Run) : bool :=
  match phase r with Releasing | Finished => true | _ => false end.
Definition run_id (r : Run) : string := assignment_id (assignment r).

Fixpoint total (f : Run -> Z) (rs : list Run) : Z :=
  match rs with [] => 0 | r :: rs' => f r + total f rs' end.
Definition count (p : Run -> bool) : list Run -> Z := total (fun r => b2z (p r)).

Definition outcomes (s : Scheduler) : Z :=
  completed s + failed s + cancelled s + stale s + conflict s + quarantined s.

Record sched_ok (s : Scheduler) (rs : list Run) : Prop := {
  so_active : active s = list_to_set (run_id <$> holders rs);
  so_distinct : NoDup (run_id <$> holders rs);
  so_mutating : active_mutating s = count (fun r => mutating (assignment r)) (holders rs);
  so_research : active_research s = count (fun r => is_research (assignment r)) (holders rs);
  so_active_cap : Z.of_nat (length (holders rs)) <= max_active_children (policy s);
  so_mutating_cap : active_mutating s <= max_mutating_children (policy s);
  so_research_cap : active_research s <= max_research_children (policy s);
  so_usage : Forall (fun r => exceeds_child (policy s) (usage r) = false) rs;
  so_tokens : aggregate_tokens s = total (fun r => tokens (usage r)) rs;
  so_calls : aggregate_tool_calls s = total (fun r => tool_calls (usage r)) rs;
  so_tokens_cap : aggregate_tokens s <= max_aggregate_tokens (policy s);
  so_calls_cap : aggregate_tool_calls s <= max_aggregate_tool_calls (policy s);
  so_outcomes : outcomes s = count is_recorded rs;
  so_policy : make_policy (policy s) = Ok (policy s)
}.

#[export] Instance total_proper f : Proper ((≡ₚ) ==> eq) (total f).
Proof. induction 1; simpl; lia. Qed.
#[export] Instance count_proper p : Proper ((≡ₚ) ==> eq) (count p).
Proof. apply total_proper. Qed.
#[export] Instance holders_proper : Proper ((≡ₚ) ==> (≡ₚ)) holders.
Proof. intros l k H. unfold holders. by rewrite H. Qed.

(** The invariant does not depend on the order of the runs. *)
#[export] Instance sched_ok_proper s : Proper ((≡ₚ) ==> iff) (sched_ok s).
Proof.
  assert (G : forall l k, l ≡ₚ k -> sched_ok s l -> sched_ok s k).
  { intros l k H []. split; try done; by rewrite <-?H. }
  intros l k H. split; apply G; by rewrite H.
Qed.

Lemma run_split (rs : list Run) i r : rs !! i = Some r ->
  exists rest, rs ≡ₚ r :: rest /\ forall r', <[i := r']> rs ≡ₚ r' :: rest.
Proof.
  intros H. exists (take i rs ++ drop (S i) rs). split.
  - rewrite <-(take_drop_middle rs i r H) at 1. symmetry. apply Permutation_middle.
  - intros r'. rewrite insert_take_drop by (by eapply lookup_lt_Some).
    symmetry. apply Permutation_middle.
Qed.

Lemma holders_cons r rs : holders (r :: rs) = if holds_slot r then r :: holders rs else holders rs.
Proof. unfold holders. rewrite filter_cons. by destruct (holds_slot r). Qed.

Lemma policy_positive p : make_policy p = Ok p ->
  0 < max_active_children p /\ 0 < max_mutating_children p /\ 0 < max_research_children p /\
  0 < max_aggregate_tokens p /\ 0 < max_aggregate_tool_calls p /\
  exceeds_child p no_usage = false.
Proof.
  unfold make_policy, exceeds_child. intros H. inv_res.
  match goal with E : negb (forallb _ _) = false |- _ => rewrite negb_false_iff in E; simpl in E end.
  simpl. lia.
Qed.

Lemma new_world_ok p : make_policy p = Ok p -> sched_ok (new_scheduler p) [].
Proof.
  intros H. pose proof (policy_positive _ H). split; simpl; try done; try lia. constructor.
Qed.

Section steps.
Context (s : Scheduler) (r : Run) (rest : list Run) (Hok : sched_ok s (r :: rest)).

(** A step that changes neither what the run holds nor what it has used. *)
Lemma ok_same r' : assignment r' = assignment r -> usage r' = usage r ->
  holds_slot r' = holds_slot r -> is_recorded r' = is_recorded r -> sched_ok s (r' :: rest).
Proof using Hok.
  intros Ha Hu Hh Hr. destruct Hok as [H1 H2 H3 H4 H5 H6 H7 H8 H9 H10 H11 H12 H13 H14].
  apply Forall_cons in H8 as [H8 H8']. rewrite holders_cons in *. unfold count in *. cbn [total] in *.
  split; rewrite ?holders_cons; unfold count; cbn [total]; rewrite ?Hh, ?Hu, ?Hr; try done;
    [.. |by constructor; rewrite ?Hu].
  all: destruct (holds_slot r); try done; rewrite ?fmap_cons; unfold run_id in *; cbn [total length] in *;
    rewrite ?Ha; done.
Qed.

(** The clamp of [_release] never acts. *)
Lemma total_nonneg f rs : (forall x, 0 <= f x) -> 0 <= total f rs.
Proof. clear. intros H. induction rs as [|x rs IH]; simpl; [lia|]. specialize (H x). lia. Qed.
Lemma count_nonneg p rs : 0 <= count p rs.
Proof. clear. apply total_nonneg. intros x. by destruct (p x). Qed.

Lemma ok_admit ph : holds_slot r = false -> is_recorded r = false ->
  holds_slot (set_phase ph r) = true -> is_recorded (set_phase ph r) = false ->
  forall b s', _admit (assignment r) s = (Ok b, s') ->
  sched_ok s' (if b then set_phase ph r :: rest else r :: rest).
Proof using Hok.
  intros Hh Hr Hh' Hr' b s' Had. unfold _admit in Had. case_bool_decide as Hin; [discriminate Had|].
  destruct (at_capacity (assignment r) s) eqn:Hcap; injection Had as <- <-; [done|].
  unfold at_capacity in Hcap. apply orb_false_iff in Hcap as [[Hc1 Hc2]%orb_false_iff Hc3].
  destruct Hok as [H1 H2 H3 H4 H5 H6 H7 H8 H9 H10 H11 H12 H13 H14].
  unfold count in *. rewrite holders_cons, Hh in *. cbn [total] in *. rewrite Hr in H13.
  assert (Hsize : size (active s) = length (holders rest)).
  { rewrite H1, size_list_to_set by done. apply length_fmap. }
  split; rewrite ?holders_cons, ?Hh'; unfold count; cbn [total policy active active_mutating active_research
    aggregate_tokens aggregate_tool_calls set_active assignment set_phase usage length]; try done.
  - rewrite H1. done.
  - rewrite fmap_cons. apply NoDup_cons. split; [|done]. rewrite H1, elem_of_list_to_set in Hin. done.
  - rewrite H3. lia.
  - rewrite H4. lia.
  - lia.
  - destruct (mutating (assignment r)); simpl in *; lia.
  - destruct (is_research (assignment r)); simpl in *; lia.
  - apply Forall_cons in H8 as [H8 H8']. by constructor.
  - rewrite Hr'. done.
Qed.

Lemma ok_charge u total' s' : worker r = WorkerLive ->
  charge (usage r) u s = (Ok total', s') ->
  sched_ok s' (MkRun (assignment r) (phase r) WorkerLive total' :: rest).
Proof using Hok.
  intros Hw. unfold charge. destruct (exceeds_child _ _) eqn:He; [done|].
  destruct (_ || _) eqn:Ha; [done|]. intros [= <- <-]. apply orb_false_iff in Ha as [Ha1 Ha2].
  destruct Hok as [H1 H2 H3 H4 H5 H6 H7 H8 H9 H10 H11 H12 H13 H14].
  apply Forall_cons in H8 as [H8 H8'].
  set (r' := MkRun _ _ _ _). assert (Hh : holds_slot r' = holds_slot r) by done.
  assert (Hr : is_recorded r' = is_recorded r) by done.
  unfold count in *. rewrite holders_cons in *. cbn [total] in *.
  split; rewrite ?holders_cons, ?Hh; unfold count, outcomes; cbn [total policy active active_mutating active_research
    aggregate_tokens aggregate_tool_calls completed failed cancelled stale conflict quarantined];
    rewrite ?Hr; try done; try (destruct (holds_slot r); done).
  - constructor; done.
  - cbn. lia.
  - cbn. lia.
  - lia.
  - lia.
Qed.

Lemma ok_record st : holds_slot r = true -> is_recorded r = false ->
  sched_ok (_record st s) (set_phase Releasing r :: rest).
Proof using Hok.
  intros Hh Hr. destruct Hok as [H1 H2 H3 H4 H5 H6 H7 H8 H9 H10 H11 H12 H13 H14].
  assert (Hall : Forall (fun r => exceeds_child (policy s) (usage r) = false) (set_phase Releasing r :: rest))
    by (apply Forall_cons in H8 as []; by constructor).
  unfold count in *. rewrite holders_cons, Hh in *. cbn [total] in *. rewrite Hr in H13.
  split; rewrite ?holders_cons; unfold count; cbn [total policy active active_mutating active_research
    aggregate_tokens aggregate_tool_calls _record]; try done.
  unfold outcomes in *. cbn [completed failed cancelled stale conflict quarantined _record].
  change (is_recorded (set_phase Releasing r)) with true. destruct st; simpl; simpl in H13; lia.
Qed.

Lemma ok_release : phase r = Releasing ->
  sched_ok (_release (assignment r) s) (set_phase Finished r :: rest).
Proof using Hok.
  intros Hp. assert (Hh : holds_slot r = true) by (unfold holds_slot; by rewrite Hp).
  assert (Hr : is_recorded r = true) by (unfold is_recorded; by rewrite Hp).
  destruct Hok as [H1 H2 H3 H4 H5 H6 H7 H8 H9 H10 H11 H12 H13 H14].
  assert (Hall : Forall (fun r => exceeds_child (policy s) (usage r) = false) (set_phase Finished r :: rest))
    by (apply Forall_cons in H8 as []; by constructor).
  unfold count in *. rewrite holders_cons, Hh in *. cbn [total length] in *. rewrite Hr in H13.
  rewrite fmap_cons in *. apply NoDup_cons in H2 as [Hn H2].
  pose proof (count_nonneg (fun r => mutating (assignment r)) (holders rest)) as Hm. unfold count in Hm.
  pose proof (count_nonneg (fun r => is_research (assignment r)) (holders rest)) as Hs. unfold count in Hs.
  split; rewrite ?holders_cons; unfold count; cbn [total policy active active_mutating active_research
    aggregate_tokens aggregate_tool_calls _release set_active holds_slot is_recorded set_phase phase usage];
    try done.
  - rewrite H1. cbn [list_to_set]. fold (run_id r). apply leibniz_equiv. intros x.
    rewrite elem_of_difference, elem_of_union, elem_of_singleton, elem_of_list_to_set. split.
    + intros [[->|?] ?]; done.
    + intros Hx. split; [by right|]. intros ->. done.
  - rewrite H3. destruct (mutating (assignment r)); simpl; lia.
  - rewrite H4. destruct (is_research (assignment r)); simpl; lia.
  - lia.
  - destruct (mutating (assignment r)); simpl in *; lia.
  - destruct (is_research (assignment r)); simpl in *; lia.
Qed.
End steps.

Lemma sched_step_ok l w w' : sched_ok (sched w) (runs w) -> sched_step l w = Some w' ->
  sched_ok (sched w') (runs w').
Proof.
  intros Hok Hst.
  destruct l as [a|i|i|i u|i e|i|i|i|i|i|i]; cbn [sched_step] in Hst.
  { injection Hst as <-. cbn [sched runs]. rewrite Permutation_app_comm. cbn [app].
    destruct Hok as [H1 H2 H3 H4 H5 H6 H7 H8 H9 H10 H11 H12 H13 H14].
    split; rewrite ?holders_cons; unfold count in *; cbn [total]; try done; try lia.
    constructor; [|done]. by apply policy_positive. }
  all: destruct (runs w !! i) as [r|] eqn:Hi; [|discriminate Hst]; cbn [mbind option_bind] in Hst;
    destruct (run_split _ _ _ Hi) as (rest & Hp & Hins); rewrite Hp in Hok.
  - (* Admit *) destruct (phase r) eqn:Hph; try discriminate Hst.
    destruct (_admit (assignment r) (sched w)) as [[b|e] s'] eqn:Ha.
    + pose proof (ok_admit _ _ _ Hok Running) as G. unfold holds_slot, is_recorded in G. cbn in G.
      rewrite Hph in G. specialize (G eq_refl eq_refl eq_refl eq_refl _ _ Ha).
      destruct b; injection Hst as <-; cbn [sched runs set_run]; rewrite ?Hins, ?Hp; done.
    + assert (s' = sched w) as -> by (unfold _admit in Ha; repeat case_match; congruence).
      injection Hst as <-. cbn [sched runs set_run]. rewrite Hins.
      apply (ok_same _ _ _ Hok); unfold holds_slot, is_recorded; by rewrite ?Hph.
  - (* Abandon *) destruct (phase r) eqn:Hph; try discriminate Hst. injection Hst as <-.
    cbn [sched runs set_run]. rewrite Hins.
    apply (ok_same _ _ _ Hok); unfold holds_slot, is_recorded; by rewrite ?Hph.
  - (* Charge *) destruct (worker r) eqn:Hw; [|destruct (phase r); discriminate Hst].
    destruct (make_usage _ _ _ _) as [v|]; [|destruct (phase r); discriminate Hst].
    assert (Hc : match charge (usage r) v (sched w) with
      | (Ok total', s) => Some (set_run i (MkRun (assignment r) (phase r) WorkerLive total') s w)
      | (Raise _, s) => Some (MkWorld s (runs w)) end = Some w')
      by (destruct (phase r); first [discriminate Hst|exact Hst]).
    destruct (charge (usage r) v (sched w)) as [[t|e] s'] eqn:Ech; injection Hc as <-;
      cbn [sched runs set_run].
    + rewrite Hins. by apply (ok_charge _ _ _ Hok v).
    + assert (s' = sched w) as -> by (unfold charge in Ech; repeat case_match; congruence).
      by rewrite Hp.
  - (* WorkerEnds *)
    assert (Hw : w' = set_run i (MkRun (assignment r) (phase r) (WorkerDone e) (usage r)) (sched w) w)
      by (destruct (phase r), (worker r); congruence).
    subst w'. cbn [sched runs set_run]. rewrite Hins. by apply (ok_same _ _ _ Hok).
  - (* Join *) destruct (phase r) eqn:Hph; try discriminate Hst.
    destruct (worker r); [discriminate Hst|]. injection Hst as <-. cbn [sched runs set_run]. rewrite Hins.
    apply (ok_record _ _ _ Hok); unfold holds_slot, is_recorded; by rewrite Hph.
  - (* Expire *) destruct (phase r) eqn:Hph; try discriminate Hst. injection Hst as <-.
    cbn [sched runs set_run]. rewrite Hins.
    apply (ok_same _ _ _ Hok); unfold holds_slot, is_recorded; by rewrite ?Hph.
  - (* Cancel *) destruct (phase r) eqn:Hph; try discriminate Hst. injection Hst as <-.
    cbn [sched runs set_run]. rewrite Hins.
    apply (ok_same _ _ _ Hok); unfold holds_slot, is_recorded; by rewrite ?Hph.
  - (* Drained *) destruct (phase r) eqn:Hph; try discriminate Hst.
    destruct (worker r); [discriminate Hst|]. injection Hst as <-. cbn [sched runs set_run]. rewrite Hins.
    apply (ok_record _ _ _ Hok); unfold holds_slot, is_recorded; by rewrite Hph.
  - (* CancelDrain *) destruct (phase r) eqn:Hph; try discriminate Hst.
    destruct (worker r); [|discriminate Hst]. injection Hst as <-. cbn [sched runs set_run]. rewrite Hins.
    apply (ok_record _ _ _ Hok); unfold holds_slot, is_recorded; by rewrite Hph.
  - (* Release *) destruct (phase r) eqn:Hph; try discriminate Hst. injection Hst as <-.
    cbn [sched runs set_run]. rewrite Hins. by apply (ok_release _ _ _ Hok).
Qed.

Lemma run_trace_ind (P : World -> Prop) ls w w' :
  (forall l w1 w2, l ∈ ls -> P w1 -> sched_step l w1 = Some w2 -> P w2) ->
  P w -> run_trace ls w = Some w' -> P w'.
Proof.
  revert w. induction ls as [|l ls IH]; intros w Hstep Hw; simpl; [by intros [= <-]|].
  destruct (sched_step l w) as [w1|] eqn:E; [|done]. simpl. apply IH.
  - intros k w2 w3 Hk. apply Hstep. by right.
  - eapply Hstep; [left|done|done].
Qed.

Lemma sched_step_policy l w w' : sched_step l w = Some w' -> policy (sched w') = policy (sched w).
Proof.
  destruct l; cbn [sched_step]; intros H; repeat (case_match; simplify_eq/=; try done);
    simplify_option_eq; try done; repeat (case_match; simplify_eq/=; try done).
  all: try (match goal with H : _admit _ _ = _ |- _ => unfold _admit in H end;
            repeat (case_match; simplify_eq/=; try done)).
  all: try (match goal with H : charge _ _ _ = _ |- _ => unfold charge in H end;
            repeat (case_match; simplify_eq/=; try done)).
Qed.

(** A worker task that has been started and has not ended. *)
Definition worker_running (r : Run) : bool :=
  match phase r, worker r with
  | (Running | Draining _ | Releasing | Finished), WorkerLive => true
  | _, _ => false
  end.

(** Every run that was recorded has an ended worker. *)
Definition drained (r : Run) : Prop := is_recorded r = true -> worker_running r = false.
Definition is_cancel_drain (l : label) : bool := match l with CancelDrain _ => true | _ => false end.

Lemma sched_step_drained l w w' : is_cancel_drain l = false ->
  Forall drained (runs w) -> sched_step l w = Some w' -> Forall drained (runs w').
Proof.
  intros Hl Hd Hst. unfold drained, is_recorded, worker_running in *.
  destruct l as [a|i|i|i u|i e|i|i|i|i|i|i]; cbn [sched_step] in Hst; try discriminate Hl.
  { injection Hst as <-. simpl. apply Forall_app. split; [done|]. by repeat constructor. }
  all: destruct (runs w !! i) as [r|] eqn:Hi; [|discriminate Hst]; cbn [mbind option_bind] in Hst;
    pose proof (Forall_lookup_1 _ _ _ _ Hd Hi) as Hr; cbn beta in Hr.
  all: repeat (case_match; simplify_eq/=; try done).
  all: apply Forall_insert; [done|]; simpl; repeat (case_match; simplify_eq/=; try done); auto.
Qed.

Lemma drained_running_holders rs : Forall drained rs ->
  count worker_running rs <= Z.of_nat (length (holders rs)).
Proof.
  unfold count. induction 1 as [|r rs Hr _ IH]; [done|]. rewrite holders_cons. cbn [total].
  unfold drained, is_recorded, worker_running, holds_slot in *.
  destruct (phase r), (worker r); simpl in *; try lia; by specialize (Hr eq_refl).
Qed.

Lemma run_trace_ok p ls w : make_policy p = Ok p -> run_trace ls (new_world p) = Some w ->
  sched_ok (sched w) (runs w) /\ policy (sched w) = p.
Proof.
  intros Hp. apply (run_trace_ind (fun w => sched_ok (sched w) (runs w) /\ policy (sched w) = p)).
  - intros l w1 w2 _ [Hok Hpol] Hst. split; [by eapply sched_step_ok|].
    by rewrite (sched_step_policy _ _ _ Hst).
  - split; [by apply new_world_ok|done].
Qed.

(** ** Results *)

(** C27. However the runs, their workers, timeouts and cancellations interleave:
    the number of admitted children, of mutating and of research children never
    exceeds the policy and the counters equal the runs that hold a slot (which
    have distinct assignment ids), every child's usage stays within the child
    limits, the aggregate counters equal the sum of the children's usage and stay
    within the aggregate limits, and each recorded run is counted in exactly one
    outcome. *)
Theorem scheduler_bounds p ls w : make_policy p = Ok p -> run_trace ls (new_world p) = Some w ->
  sched_ok (sched w) (runs w) /\ policy (sched w) = p.
Proof. apply run_trace_ok. Qed.

(** As long as no caller is cancelled a second time while its worker is being
    drained, a slot is given back only after the worker ended: the number of
    worker tasks alive never exceeds [max_active_children]. *)
Theorem live_workers_bounded p ls w : make_policy p = Ok p ->
  forallb (fun l => negb (is_cancel_drain l)) ls = true ->
  run_trace ls (new_world p) = Some w ->
  count worker_running (runs w) <= max_active_children p.
Proof.
  intros Hp Hls Hrun. destruct (run_trace_ok p ls w Hp Hrun) as [Hok <-].
  etrans; [|apply (so_active_cap _ _ Hok)]. apply drained_running_holders.
  refine (run_trace_ind (fun w => Forall drained (runs w)) ls _ w _ _ Hrun); [|constructor].
  intros l w1 w2 Hl. apply sched_step_drained. rewrite forallb_Forall_true, Forall_forall in Hls.
  specialize (Hls l Hl). by apply negb_true_iff.
Qed.

(** Capacity is never lost: in a reachable world in which no run holds a
    slot, the next pass of any waiting run admits it. *)
Theorem idle_scheduler_admits p ls w i r : make_policy p = Ok p ->
  run_trace ls (new_world p) = Some w -> holders (runs w) = [] ->
  runs w !! i = Some r -> phase r = Admitting ->
  exists w', sched_step (Admit i) w = Some w' /\ runs w' !! i = Some (set_phase Running r) /\
    active (sched w') = {[assignment_id (assignment r)]}.
Proof.
  intros Hp Hrun Hh Hi Hph. destruct (run_trace_ok p ls w Hp Hrun) as [[H1 _ H3 H4 _ _ _ _ _ _ _ _ _ _] Hpol].
  rewrite Hh in *. simpl in H1. unfold count in *. simpl in H3, H4. destruct (policy_positive p Hp) as (Hp1 & Hp2 & Hp3 & _).
  cbn [sched_step]. rewrite Hi. cbn [mbind option_bind]. rewrite Hph. unfold _admit, at_capacity.
  rewrite H1, H3, H4, Hpol. rewrite bool_decide_eq_false_2 by set_solver.
  rewrite size_empty. change (Z.of_nat 0) with 0. replace (max_active_children p <=? 0) with false by lia.
  replace (max_mutating_children p <=? 0) with false by lia.
  replace (max_research_children p <=? 0) with false by lia. rewrite !andb_false_r. simpl.
  eexists. split; [done|]. split; [|set_solver].
  cbn [runs set_run]. apply list_lookup_insert_eq. by eapply lookup_lt_Some.
Qed.

(** A policy with one child at a time, and two assignments. *)
Definition serial_policy : SubagentParallelismPolicy := MkPolicy 1 1 1 30 1000 10 3000 100 1000.
Definition child (id : string) : SubagentAssignment := MkAssignment id IMPLEMENTATION MUTATING.

(** Two cancellations of the first caller release its slot while its worker is
    alive. *)
Definition leak_trace : list label :=
  [Spawn (child "a"); Spawn (child "b"); Admit 0; Admit 1; Cancel 0; CancelDrain 0; Release 0; Admit 1].

(** [run] documents that cancellation never leaks the worker, and
    [_cancel_worker] that it drains the task before admission is released.  A
    second cancellation that arrives while the worker is being drained is taken
    for the worker's own [CancelledError]: the slot is released although the
    worker lives.  With [max_active_children = 1], two workers then run at once
    and the released one can still charge the budget. *)
Theorem second_cancellation_leaks_worker :
  exists w, run_trace leak_trace (new_world serial_policy) = Some w /\
    max_active_children serial_policy < count worker_running (runs w) /\
    (phase <$> runs w !! 0%nat) = Some Finished /\
    exists w', sched_step (Charge 0 (MkUsage 0 7 0 0)) w = Some w' /\
      aggregate_tokens (sched w') = aggregate_tokens (sched w) + 7.
Proof.
  eexists. split; [vm_compute; reflexivity|]. split; [vm_compute; reflexivity|].
  split; [reflexivity|]. eexists. split; [vm_compute; reflexivity|]. reflexivity.
Qed.

Definition finished_trace : list label :=
  [Spawn (child "a"); Admit 0; Spawn (child "b"); Admit 1; Charge 0 (MkUsage 1 10 2 3);
   WorkerEnds 0 (Returned SUCCESS); Join 0; Release 0].

Lemma scheduler_bounds_witness :
  make_policy serial_policy = Ok serial_policy /\
  exists w, run_trace finished_trace (new_world serial_policy) = Some w /\ sched_ok (sched w) (runs w).
Proof.
  assert (Hp : make_policy serial_policy = Ok serial_policy) by reflexivity.
  split; [exact Hp|]. destruct (run_trace finished_trace (new_world serial_policy)) as [w|] eqn:E; [|discriminate E].
  exists w. split; [reflexivity|]. apply (scheduler_bounds serial_policy finished_trace w Hp E).
Defined.

Lemma live_workers_bounded_witness :
  exists w, run_trace finished_trace (new_world serial_policy) = Some w /\
    count worker_running (runs w) <= 1.
Proof.
  destruct (run_trace finished_trace (new_world serial_policy)) as [w|] eqn:E; [|discriminate E].
  exists w. split; [reflexivity|].
  apply (live_workers_bounded serial_policy finished_trace w eq_refl eq_refl E).
Defined.
