(* ===== verification/TurnLedger.v ===== *)
(** * Durable turn events ([agent/events.py] and the turn tables of [db/database.py])

    [agent_turns] and [agent_turn_events] with the operations of [Database] that
    write them, the in-memory [TurnCoordinator] of one turn, and the process:
    several repository objects and coordinators over one database, storage
    outages and restarts.

    A time is a finite binary64 number, kept as an integer multiple of
    [2^-1074].  The [payload_json] column is [json_dumps_sorted] of the payload
    kept in the row. *)
From Stdlib Require Import Ascii.
From S2P Require Import Prelude PyStr Json PyValue.
Open Scope Z_scope.

(** ** Tables *)
Definition Time := Z.

Record TurnRow := MkTurn {
  tn_turn_id : string; tn_attempt_id : string; tn_session_id : string; tn_task_id : option string;
  tn_status : string; tn_last_sequence : Z; tn_error_code : option string; tn_started_at : Time;
  tn_finished_at : option Time; tn_principal_id : string; tn_project_id : string
}.
Record TurnEventRow := MkEvent {
  te_turn_id : string; te_sequence : Z; te_event_type : string; te_payload : pyval; te_created_at : Time
}.
(** [sessions] holds the keys [(id, principal_id, project_id)]. *)
Record TurnDb := MkTurnDb {
  sessions : list (string * string * string);
  agent_turns : list TurnRow;
  agent_turn_events : list TurnEventRow
}.
Definition te_payload_json (e : TurnEventRow) : string := json_dumps_sorted (te_payload e).

Definition find_turn (turn_id : string) (db : TurnDb) : option TurnRow :=
  List.find (fun r => bool_decide (tn_turn_id r = turn_id)) (agent_turns db).
Definition events_of (turn_id : string) (db : TurnDb) : list TurnEventRow :=
  filter (fun e => te_turn_id e = turn_id) (agent_turn_events db).

Definition integrity {A} (msg : string) : res A := Raise (Exn SqliteIntegrityError msg).

(** [INSERT] with the primary and foreign keys of [schema.sql] *)
Definition insert_turn (r : TurnRow) (db : TurnDb) : res TurnDb :=
  if bool_decide (tn_turn_id r ∈ tn_turn_id <$> agent_turns db) then integrity "agent_turns.turn_id"
  else if negb (bool_decide ((tn_session_id r, tn_principal_id r, tn_project_id r) ∈ sessions db))
  then integrity "agent_turns.session_id"
  else Ok (MkTurnDb (sessions db) (agent_turns db ++ [r]) (agent_turn_events db)).
Definition insert_event (e : TurnEventRow) (db : TurnDb) : res TurnDb :=
  if bool_decide ((te_turn_id e, te_sequence e) ∈
       (fun x => (te_turn_id x, te_sequence x)) <$> agent_turn_events db)
  then integrity "agent_turn_events.turn_id, agent_turn_events.sequence"
  else if negb (bool_decide (te_turn_id e ∈ tn_turn_id <$> agent_turns db))
  then integrity "agent_turn_events.turn_id"
  else Ok (MkTurnDb (sessions db) (agent_turns db) (agent_turn_events db ++ [e])).
(** [UPDATE agent_turns SET ... WHERE ...] *)
Definition update_turns (p : TurnRow -> bool) (f : TurnRow -> TurnRow) (db : TurnDb) : TurnDb :=
  MkTurnDb (sessions db) ((fun r => if p r then f r else r) <$> agent_turns db) (agent_turn_events db).

(** A transaction: its effect is kept only when it returns. *)
Definition atomically {A} (m : res (A * TurnDb)) (db : TurnDb) : res A * TurnDb :=
  match m with Ok (a, db') => (Ok a, db') | Raise e => (Raise e, db) end.

(** ** Operations of [Database] *)
Definition start_agent_turn (turn_id attempt_id session_id : string) (task_id : option string)
    (payload : pyval) (now : Time) (principal_id project_id : string) (db : TurnDb) : res unit * TurnDb :=
  atomically
    (let* db1 := insert_turn (MkTurn turn_id attempt_id session_id task_id "running" 1 None now None
                                principal_id project_id) db in
     let* db2 := insert_event (MkEvent turn_id 1 "turn.started" payload now) db1 in
     Ok (tt, db2)) db.

Definition running_at (turn_id : string) (expected : Z) (r : TurnRow) : bool :=
  bool_decide (tn_turn_id r = turn_id) && bool_decide (tn_status r = "running") && (tn_last_sequence r =? expected).
Definition advance (sequence : Z) (r : TurnRow) : TurnRow :=
  MkTurn (tn_turn_id r) (tn_attempt_id r) (tn_session_id r) (tn_task_id r) (tn_status r) sequence
    (tn_error_code r) (tn_started_at r) (tn_finished_at r) (tn_principal_id r) (tn_project_id r).
Definition finish (status : string) (sequence : Z) (error_code : option string) (now : Time) (r : TurnRow)
    : TurnRow :=
  MkTurn (tn_turn_id r) (tn_attempt_id r) (tn_session_id r) (tn_task_id r) status sequence
    error_code (tn_started_at r) (Some now) (tn_principal_id r) (tn_project_id r).

Definition TERMINAL_STATUSES : list string := ["completed"; "interrupted"; "failed"].

Definition append_agent_turn_event (turn_id : string) (expected_sequence : Z) (event_type : string)
    (payload : pyval) (now : Time) (terminal_status error_code : option string) (db : TurnDb)
    : res Z * TurnDb :=
  atomically
    (raise_if (match find_turn turn_id db with
               | None => true
               | Some r => negb (bool_decide (tn_status r = "running"))
                           || negb (tn_last_sequence r =? expected_sequence)
               end) PermissionError "turn event is late, replayed, or out of sequence" ;;*
     let sequence := expected_sequence + 1 in
     let* db1 := insert_event (MkEvent turn_id sequence event_type payload now) db in
     match terminal_status with
     | None => Ok (sequence, update_turns (running_at turn_id expected_sequence) (advance sequence) db1)
     | Some status =>
         raise_if (negb (str_in status TERMINAL_STATUSES)) ValueError "invalid terminal turn status" ;;*
         Ok (sequence, update_turns (running_at turn_id expected_sequence)
                         (finish status sequence error_code now) db1)
     end) db.

(** The rows are read first; then each is closed. *)
Definition interrupt_turn (now : Time) (acc : res TurnDb) (row : TurnRow) : res TurnDb :=
  let* db := acc in
  let sequence := tn_last_sequence row + 1 in
  let* db1 := insert_event (MkEvent (tn_turn_id row) sequence "turn.interrupted"
                              (PDict [("reason", PStr "process-restart")]) now) db in
  Ok (update_turns (fun r => bool_decide (tn_turn_id r = tn_turn_id row) && bool_decide (tn_status r = "running"))
        (finish "interrupted" sequence (Some "PROCESS_RESTART") now) db1).
Definition running_rows (db : TurnDb) : list TurnRow :=
  sorted_by tn_started_at (filter (fun r => tn_status r = "running") (agent_turns db)).
Definition recover_inflight_agent_turns (now : Time) (db : TurnDb) : res Z * TurnDb :=
  atomically
    (let* db' := foldl (interrupt_turn now) (Ok db) (running_rows db) in
     Ok (Z.of_nat (length (running_rows db)), db')) db.

Definition list_agent_turn_events (turn_id : string) (db : TurnDb) : list TurnEventRow :=
  sorted_by te_sequence (events_of turn_id db).

(** [cutoff] is the float [now - max(0.0, older_than_seconds)]. *)
Definition finished_before (cutoff : Time) (r : TurnRow) : bool :=
  negb (bool_decide (tn_status r = "running")) &&
  match tn_finished_at r with Some t => t <? cutoff | None => false end.
Definition prune_terminal_agent_turns (cutoff : Time) (limit : Z) (db : TurnDb) : (Z * Z) * TurnDb :=
  let rows := take (Z.to_nat (Z.max 1 (Z.min limit 10000)))
                (sorted_by (fun r => default 0 (tn_finished_at r))
                   (List.filter (finished_before cutoff) (agent_turns db))) in
  let turn_ids := tn_turn_id <$> rows in
  let events := filter (fun e => te_turn_id e ∉ turn_ids) (agent_turn_events db) in
  let turns := filter (fun r => tn_turn_id r ∉ turn_ids) (agent_turns db) in
  ((Z.of_nat (length (agent_turn_events db) - length events),
    Z.of_nat (length (agent_turns db) - length turns)),
   MkTurnDb (sessions db) turns events).

(** ** [TurnCoordinator] *)
Record Coordinator := MkCoordinator {
  co_turn_id : string; co_attempt_id : string; co_sequence : Z; co_terminal : bool;
  co_active_tool_calls : gset string
}.
Definition new_coordinator (turn_id attempt_id : string) : Coordinator :=
  MkCoordinator turn_id attempt_id 1 false ∅.

Section Turns.
(** [repr] of a value that is not a string, an integer, a boolean or [None] *)
Variable repr : pyval -> string.

Definition or_value (v : option pyval) (w : pyval) : pyval :=
  match v with Some x => if truthy x then x else w | None => w end.
(** [str(value.get("tool_call_id") or value.get("id") or "")] *)
Definition call_id_of (payload : list (string * pyval)) : string :=
  py_str repr (or_value (dict_get "tool_call_id" payload) (or_value (dict_get "id" payload) (PStr EmptyString))).

Definition with_calls (c : Coordinator) (calls : gset string) : Coordinator :=
  MkCoordinator (co_turn_id c) (co_attempt_id c) (co_sequence c) (co_terminal c) calls.
Definition with_sequence (c : Coordinator) (sequence : Z) (terminal : bool) : Coordinator :=
  MkCoordinator (co_turn_id c) (co_attempt_id c) sequence terminal (co_active_tool_calls c).

(** The checks of [emit] on tool calls, with the set it leaves. *)
Definition track_call (event_type call_id : string) (calls : gset string) : res (gset string) :=
  if bool_decide (event_type = "tool.call") then
    raise_if (str_empty call_id || bool_decide (call_id ∈ calls)) PermissionError
      "duplicate or missing tool call id" ;;*
    Ok ({[call_id]} ∪ calls)
  else if bool_decide (event_type = "tool.result") then
    raise_if (negb (bool_decide (call_id ∈ calls))) PermissionError
      "tool result has no unmatched tool call" ;;*
    Ok (calls ∖ {[call_id]})
  else
    raise_if (bool_decide (event_type = "approval.wait") && negb (bool_decide (call_id ∈ calls)))
      PermissionError "approval wait has no tool call" ;;*
    Ok calls.

(** The call to the repository: [outage] is an exception raised by the storage
    before anything is written. *)
Definition storage (outage : option exn) (call : TurnDb -> res Z * TurnDb) (db : TurnDb) : res Z * TurnDb :=
  match outage with Some e => (Raise e, db) | None => call db end.

Definition emit (event_type : string) (payload : list (string * pyval)) (now : Time) (outage : option exn)
    (c : Coordinator) (db : TurnDb) : res Z * Coordinator * TurnDb :=
  if co_terminal c then (Raise (Exn PermissionError "late event after terminal turn state"), c, db)
  else match track_call event_type (call_id_of payload) (co_active_tool_calls c) with
  | Raise e => (Raise e, c, db)
  | Ok calls =>
      let c1 := with_calls c calls in
      match storage outage (append_agent_turn_event (co_turn_id c) (co_sequence c) event_type (PDict payload)
                              now None None) db with
      | (Ok sequence, db') => (Ok sequence, with_sequence c1 sequence false, db')
      | (Raise e, db') => (Raise e, c1, db')
      end
  end.

Definition terminal (status reason : string) (error_code : option string) (now : Time) (outage : option exn)
    (c : Coordinator) (db : TurnDb) : res Z * Coordinator * TurnDb :=
  if co_terminal c then (Raise (Exn PermissionError "turn already has a terminal event"), c, db)
  else if bool_decide (status = "completed") && negb (bool_decide (co_active_tool_calls c = ∅))
  then (Raise (Exn PermissionError "completed turn cannot have unmatched tool calls"), c, db)
  else
    let payload := PDict [("reason", PStr reason);
                          ("unmatched_tool_calls", str_list (py_sorted (elements (co_active_tool_calls c))))] in
    match storage outage (append_agent_turn_event (co_turn_id c) (co_sequence c) ("turn." +:+ status) payload
                            now (Some status) error_code) db with
    | (Ok sequence, db') => (Ok sequence, with_sequence c sequence true, db')
    | (Raise e, db') => (Raise e, c, db')
    end.

(** ** The process

    [recovered] are the repository objects whose [_recover_once] task has
    succeeded. *)
Record World := MkWorld {
  w_db : TurnDb; recovered : gset nat; coordinators : gmap string Coordinator
}.

Definition recover_once (repository : nat) (now : Time) (w : World) : res unit * World :=
  if bool_decide (repository ∈ recovered w) then (Ok tt, w)
  else match recover_inflight_agent_turns now (w_db w) with
  | (Ok _, db') => (Ok tt, MkWorld db' ({[repository]} ∪ recovered w) (coordinators w))
  | (Raise e, db') => (Raise e, MkWorld db' (recovered w) (coordinators w))
  end.

(** [TurnCoordinator.start]; the two identifiers are the generated UUIDs. *)
Definition start (repository : nat) (turn_id attempt_id session_id : string) (task_id : option string)
    (principal_id project_id : string) (recover_now now : Time) (w : World) : res unit * World :=
  match recover_once repository recover_now w with
  | (Raise e, w1) => (Raise e, w1)
  | (Ok _, w1) =>
      let payload := PDict [("principal_id", PStr principal_id); ("session_id", PStr session_id);
                            ("task_id", opt_str task_id); ("attempt_id", PStr attempt_id)] in
      match start_agent_turn turn_id attempt_id session_id task_id payload now principal_id project_id (w_db w1) with
      | (Ok _, db') => (Ok tt, MkWorld db' (recovered w1)
                                 (<[turn_id := new_coordinator turn_id attempt_id]> (coordinators w1)))
      | (Raise e, db') => (Raise e, MkWorld db' (recovered w1) (coordinators w1))
      end
  end.

Inductive action :=
| A_start (repository : nat) (turn_id attempt_id session_id : string) (task_id : option string)
    (principal_id project_id : string) (recover_now now : Time)
| A_emit (turn_id event_type : string) (payload : list (string * pyval)) (now : Time) (outage : option exn)
| A_terminal (turn_id status reason : string) (error_code : option string) (now : Time) (outage : option exn)
| A_prune (cutoff : Time) (limit : Z)
| A_restart.

Definition act (a : action) (w : World) : World :=
  match a with
  | A_start repo t att s task p j rnow now => (start repo t att s task p j rnow now w).2
  | A_emit t ty payload now outage =>
      match coordinators w !! t with
      | None => w
      | Some c => let '(_, c', db') := emit ty payload now outage c (w_db w) in
                  MkWorld db' (recovered w) (<[t := c']> (coordinators w))
      end
  | A_terminal t status reason err now outage =>
      match coordinators w !! t with
      | None => w
      | Some c => let '(_, c', db') := terminal status reason err now outage c (w_db w) in
                  MkWorld db' (recovered w) (<[t := c']> (coordinators w))
      end
  | A_prune cutoff limit => MkWorld (prune_terminal_agent_turns cutoff limit (w_db w)).2 (recovered w) (coordinators w)
  | A_restart => MkWorld (w_db w) ∅ ∅
  end.
Definition run (l : list action) (w : World) : World := foldl (fun w a => act a w) w l.
End Turns.

(** ** The ledger as a transition system *)
#[export] Instance TurnRow_eq_dec : EqDecision TurnRow.
Proof. solve_decision. Defined.

(** One event appended to a running turn, whose row becomes [r']. *)
Definition extend (db : TurnDb) (r r' : TurnRow) (e : TurnEventRow) : TurnDb :=
  MkTurnDb (sessions db) ((fun x => if bool_decide (tn_turn_id x = tn_turn_id r) then r' else x) <$> agent_turns db)
    (agent_turn_events db ++ [e]).
Definition next_row (r r' : TurnRow) : Prop :=
  r' = advance (tn_last_sequence r + 1) r \/
  exists status error now, status ∈ TERMINAL_STATUSES /\
    r' = finish status (tn_last_sequence r + 1) error now r.

Inductive db_grow (db : TurnDb) : TurnDb -> Prop :=
| ds_start r e :
    tn_turn_id r ∉ tn_turn_id <$> agent_turns db -> tn_status r = "running" -> tn_last_sequence r = 1 ->
    tn_finished_at r = None -> te_turn_id e = tn_turn_id r -> te_sequence e = 1 ->
    db_grow db (MkTurnDb (sessions db) (agent_turns db ++ [r]) (agent_turn_events db ++ [e]))
| ds_extend r r' e :
    r ∈ agent_turns db -> tn_status r = "running" -> te_turn_id e = tn_turn_id r ->
    te_sequence e = tn_last_sequence r + 1 -> next_row r r' -> db_grow db (extend db r r' e).
Inductive db_step (db : TurnDb) : TurnDb -> Prop :=
| ds_grow db' : db_grow db db' -> db_step db db'
| ds_prune (ids : list string) :
    (forall r, r ∈ agent_turns db -> tn_turn_id r ∈ ids -> tn_status r <> "running") ->
    db_step db (MkTurnDb (sessions db) (filter (fun r => tn_turn_id r ∉ ids) (agent_turns db))
                  (filter (fun e => te_turn_id e ∉ ids) (agent_turn_events db))).

Record ledger_inv (db : TurnDb) : Prop := {
  li_turns : NoDup (tn_turn_id <$> agent_turns db);
  li_events : forall e, e ∈ agent_turn_events db -> te_turn_id e ∈ tn_turn_id <$> agent_turns db;
  li_sequence : forall r, r ∈ agent_turns db -> 1 <= tn_last_sequence r /\
    te_sequence <$> events_of (tn_turn_id r) db = seqZ 1 (tn_last_sequence r);
  li_status : forall r, r ∈ agent_turns db ->
    (tn_status r = "running" /\ tn_finished_at r = None) \/
    (tn_status r ∈ TERMINAL_STATUSES /\ exists t, tn_finished_at r = Some t)
}.

Lemma next_row_id r r' : next_row r r' ->
  tn_turn_id r' = tn_turn_id r /\ tn_last_sequence r' = tn_last_sequence r + 1.
Proof. intros [->|(? & ? & ? & _ & ->)]; done. Qed.

Lemma events_of_app t db turns e :
  events_of t (MkTurnDb (sessions db) turns (agent_turn_events db ++ [e]))
  = events_of t db ++ (if bool_decide (te_turn_id e = t) then [e] else []).
Proof.
  unfold events_of. cbn. rewrite filter_app, filter_cons, filter_nil.
  case_bool_decide; [by rewrite decide_True|by rewrite decide_False].
Qed.

Lemma events_of_unknown t db : ledger_inv db -> (t ∉ tn_turn_id <$> agent_turns db) -> events_of t db = [].
Proof.
  intros Hi Ht. destruct (events_of t db) as [|e l] eqn:E; [done|]. destruct Ht.
  assert (e ∈ events_of t db) as He by (rewrite E; left).
  unfold events_of in He. apply list_elem_of_filter in He as [<- He]. by apply Hi.
Qed.

Lemma extend_ids db r r' e : tn_turn_id r' = tn_turn_id r ->
  tn_turn_id <$> agent_turns (extend db r r' e) = tn_turn_id <$> agent_turns db.
Proof.
  intros H. cbn. rewrite <-list_fmap_compose. apply list_fmap_ext. intros i x _. unfold compose.
  case_bool_decide; congruence.
Qed.
Lemma elem_extend db r r' e x : ledger_inv db -> r ∈ agent_turns db ->
  x ∈ agent_turns (extend db r r' e) <-> x = r' \/ (x ∈ agent_turns db /\ tn_turn_id x <> tn_turn_id r).
Proof.
  intros Hi Hr. cbn. rewrite list_elem_of_fmap. split.
  - intros (y & -> & Hy). case_bool_decide; [by left|by right].
  - intros [->|[Hx Hne]]; [exists r; by rewrite bool_decide_true|exists x; by rewrite bool_decide_false].
Qed.

Lemma ledger_inv_step db db' : ledger_inv db -> db_step db db' -> ledger_inv db'.
Proof.
  intros Hi Hs. destruct Hs as [db' [r e Hnew Hrun Hlast Hfin Ht Hseq|r r' e Hr Hrun Ht Hseq Hnext]|ids Hids].
  - split; cbn [agent_turns agent_turn_events].
    + rewrite fmap_app. apply NoDup_app. split_and!; [apply Hi| |apply NoDup_singleton].
      intros x Hx Hx'. cbn in Hx'. apply list_elem_of_singleton in Hx' as ->. done.
    + intros x. rewrite fmap_app, !elem_of_app. intros [Hx%(li_events _ Hi)|Hx]; [by left|right].
      apply list_elem_of_singleton in Hx as ->. rewrite Ht. left.
    + intros x Hx. apply elem_of_app in Hx as [Hx|Hx]; [|apply list_elem_of_singleton in Hx as ->];
        rewrite events_of_app.
      * rewrite bool_decide_false, app_nil_r by (intros E; apply Hnew; rewrite <-Ht, E; by apply list_elem_of_fmap_2).
        by apply Hi.
      * rewrite bool_decide_true, events_of_unknown by done. rewrite Hlast. cbn. by rewrite Hseq.
    + intros x Hx. apply elem_of_app in Hx as [Hx|Hx]; [by apply Hi|].
      apply list_elem_of_singleton in Hx as ->. by left.
  - destruct (next_row_id _ _ Hnext) as [Hid Hlast]. split.
    + rewrite extend_ids by done. apply Hi.
    + intros x. rewrite extend_ids by done. cbn. intros Hx. apply elem_of_app in Hx as [Hx|Hx]; [by apply Hi|].
      apply list_elem_of_singleton in Hx as ->.      rewrite Ht. by apply list_elem_of_fmap_2.
    + intros x Hx. apply elem_extend in Hx as [->|[Hx Hne]]; [| |done..]; unfold extend; rewrite events_of_app.
      * rewrite bool_decide_true, fmap_app by congruence. rewrite Hid, Hlast.
        destruct (li_sequence _ Hi r Hr) as [Hpos ->]. split; [lia|]. cbn. rewrite Hseq.
        rewrite <-(Z2Nat.id (tn_last_sequence r)) by lia.
        replace (Z.of_nat (Z.to_nat (tn_last_sequence r)) + 1) with (Z.of_nat (S (Z.to_nat (tn_last_sequence r)))) by lia.
        rewrite seqZ_S. do 2 f_equal. lia.
      * rewrite bool_decide_false, app_nil_r by congruence. by apply Hi.
    + intros x Hx. apply elem_extend in Hx as [->|[Hx Hne]]; [|by apply Hi|done..].
      destruct Hnext as [->|(s & er & now & Hs & ->)]; [|right; split; [done|by exists now]].
      destruct (li_status _ Hi r Hr) as [H|[H _]]; [by left|].
      rewrite Hrun in H. unfold TERMINAL_STATUSES in H. set_solver.
  - split; cbn [agent_turns agent_turn_events].
    + eapply sublist_NoDup; [apply Hi|]. apply fmap_sublist, sublist_filter.
    + intros e [He Hin]%list_elem_of_filter. apply (li_events _ Hi) in Hin as (r & Hr & Hin)%list_elem_of_fmap.
      rewrite Hr. apply list_elem_of_fmap_2, list_elem_of_filter. by rewrite <-Hr.
    + intros r [Hr Hin]%list_elem_of_filter. destruct (li_sequence _ Hi r Hin) as [Hp Hs]. split; [done|].
      rewrite <-Hs. f_equal. unfold events_of. cbn. rewrite list_filter_filter.
      apply list_filter_iff. intros e. split; [tauto|]. intros ->. done.
    + intros r [_ Hin]%list_elem_of_filter. by apply Hi.
Qed.

(** ** The operations are steps of the ledger *)
Lemma turn_unique db r r' : ledger_inv db -> r ∈ agent_turns db -> r' ∈ agent_turns db ->
  tn_turn_id r = tn_turn_id r' -> r = r'.
Proof. intros Hi. apply fmap_nodup_inj, Hi. Qed.

Lemma find_turn_Some t db r : find_turn t db = Some r -> r ∈ agent_turns db /\ tn_turn_id r = t.
Proof.
  unfold find_turn. intros H. apply find_some in H as [Hr Hb].
  split; [by apply list_elem_of_In|by apply bool_decide_eq_true in Hb].
Qed.
Lemma find_turn_elem db r : ledger_inv db -> r ∈ agent_turns db -> find_turn (tn_turn_id r) db = Some r.
Proof.
  intros Hi Hr. destruct (find_turn _ db) as [x|] eqn:E.
  - apply find_turn_Some in E as [Hx Ht]. f_equal. by eapply turn_unique.
  - unfold find_turn in E. apply find_none with (x := r) in E; [|by apply list_elem_of_In].
    by apply bool_decide_eq_false in E.
Qed.

Lemma sequence_fresh db r : ledger_inv db -> r ∈ agent_turns db ->
  (tn_turn_id r, tn_last_sequence r + 1) ∉
    (fun x => (te_turn_id x, te_sequence x)) <$> agent_turn_events db.
Proof.
  intros Hi Hr (e & [= Ht Hs] & He)%list_elem_of_fmap. destruct (li_sequence _ Hi r Hr) as [_ Hseq].
  assert (te_sequence e ∈ te_sequence <$> events_of (tn_turn_id r) db) as Hin.
  { apply list_elem_of_fmap_2, list_elem_of_filter. by rewrite Ht. }
  rewrite Hseq in Hin. apply elem_of_seqZ in Hin. lia.
Qed.

(** Inserting the next event of a turn and updating its row. *)
Lemma push_event db r e (p : TurnRow -> bool) (f : TurnRow -> TurnRow) :
  ledger_inv db -> r ∈ agent_turns db -> te_turn_id e = tn_turn_id r ->
  te_sequence e = tn_last_sequence r + 1 -> p r = true ->
  (forall x, p x = true -> tn_turn_id x = tn_turn_id r) ->
  exists db1, insert_event e db = Ok db1 /\ update_turns p f db1 = extend db r (f r) e.
Proof.
  intros Hi Hr Ht Hs Hpr Hp. unfold insert_event. rewrite Ht, Hs.
  rewrite bool_decide_false by (by apply sequence_fresh).
  rewrite bool_decide_true by (by apply list_elem_of_fmap_2). cbn [negb].
  eexists. split; [reflexivity|]. unfold update_turns, extend. cbn. f_equal.
  apply list_fmap_ext. intros i x Hx%list_elem_of_lookup_2.
  case_bool_decide as E; [by rewrite (turn_unique db x r), Hpr|].
  destruct (p x) eqn:Ex; [|done]. by apply Hp in Ex.
Qed.

Lemma turn_append_cases db t n ty payload now ts ec o db' : ledger_inv db ->
  append_agent_turn_event t n ty payload now ts ec db = (o, db') ->
  (exists r, o = Ok (n + 1) /\ r ∈ agent_turns db /\ tn_turn_id r = t /\ tn_status r = "running" /\
     tn_last_sequence r = n /\ (forall s, ts = Some s -> s ∈ TERMINAL_STATUSES) /\
     db' = extend db r (match ts with None => advance (n + 1) r | Some s => finish s (n + 1) ec now r end)
             (MkEvent t (n + 1) ty payload now)) \/
  (exists e, o = Raise e /\ db' = db).
Proof.
  intros Hi. unfold append_agent_turn_event.
  destruct (find_turn t db) as [r|] eqn:Hf; [|intros [= <- <-]; right; by eexists].
  apply find_turn_Some in Hf as [Hr Ht].
  destruct (negb _ || negb _) eqn:Eg; [intros [= <- <-]; right; by eexists|].
  apply orb_false_iff in Eg as [Hrun%negb_false_iff Hlast%negb_false_iff].
  apply bool_decide_eq_true in Hrun. apply Z.eqb_eq in Hlast. cbn [raise_if res_bind].
  assert (Hp : forall f, exists db1, insert_event (MkEvent t (n + 1) ty payload now) db = Ok db1 /\
    update_turns (running_at t n) f db1 = extend db r (f r) (MkEvent t (n + 1) ty payload now)).
  { intros f. apply push_event; try done; [cbn [te_sequence]; lia| |].
    - unfold running_at. by rewrite !bool_decide_true, Hlast, Z.eqb_refl.
    - intros x. unfold running_at. rewrite !andb_true_iff, bool_decide_eq_true. intros [[-> _] _]. done. }
  destruct ts as [s|].
  - destruct (Hp (finish s (n + 1) ec now)) as (db1 & -> & Hup). cbn [res_bind].
    destruct (str_in s TERMINAL_STATUSES) eqn:Es; cbn [negb raise_if res_bind atomically];
      intros [= <- <-]; [left|right; by eexists].
    exists r. split_and!; try done. intros ? [= <-]. by apply str_in_true.
  - destruct (Hp (advance (n + 1))) as (db1 & -> & Hup). cbn [res_bind atomically].
    intros [= <- <-]. left. exists r. split_and!; done.
Qed.

Lemma append_step db t n ty payload now ts ec o db' : ledger_inv db ->
  append_agent_turn_event t n ty payload now ts ec db = (o, db') -> rtc db_grow db db'.
Proof.
  intros Hi H. apply turn_append_cases in H as [(r & -> & Hr & <- & Hrun & <- & Hts & ->)|(e & _ & ->)]; [|done..].
  apply rtc_once, ds_extend; try done. destruct ts as [s|]; [right|by left]. exists s, ec, now. auto.
Qed.

Lemma start_cases db t att s task payload now p j o db' : ledger_inv db ->
  start_agent_turn t att s task payload now p j db = (o, db') ->
  (o = Ok tt /\ (t ∉ tn_turn_id <$> agent_turns db) /\
     db' = MkTurnDb (sessions db)
       (agent_turns db ++ [MkTurn t att s task "running" 1 None now None p j])
       (agent_turn_events db ++ [MkEvent t 1 "turn.started" payload now])) \/
  (exists e, o = Raise e /\ db' = db).
Proof.
  intros Hi. unfold start_agent_turn, insert_turn. cbn [tn_turn_id tn_session_id tn_principal_id tn_project_id].
  case_bool_decide as Hin; [intros [= <- <-]; right; by eexists|].
  case_bool_decide as Hses; cbn [negb]; [|intros [= <- <-]; right; by eexists]. cbn [res_bind].
  unfold insert_event. cbn [te_turn_id te_sequence agent_turn_events agent_turns].
  rewrite bool_decide_false.
  2: { intros (e & [= -> _] & He)%list_elem_of_fmap. by apply Hin, Hi. }
  rewrite bool_decide_true by (rewrite fmap_app; set_solver). intros [= <- <-]. by left.
Qed.

Definition interrupted (now : Time) (r : TurnRow) : TurnRow :=
  finish "interrupted" (tn_last_sequence r + 1) (Some "PROCESS_RESTART") now r.

Lemma interrupt_one now db r : ledger_inv db -> r ∈ agent_turns db -> tn_status r = "running" ->
  exists e, te_turn_id e = tn_turn_id r /\ te_event_type e = "turn.interrupted" /\
    interrupt_turn now (Ok db) r = Ok (extend db r (interrupted now r) e) /\
    db_grow db (extend db r (interrupted now r) e).
Proof.
  intros Hi Hr Hrun. set (e := MkEvent (tn_turn_id r) (tn_last_sequence r + 1) "turn.interrupted"
    (PDict [("reason", PStr "process-restart")]) now).
  destruct (push_event db r e (fun x => bool_decide (tn_turn_id x = tn_turn_id r) && bool_decide (tn_status x = "running"))
    (finish "interrupted" (tn_last_sequence r + 1) (Some "PROCESS_RESTART") now)) as (db1 & H1 & H2); try done.
  { by rewrite !bool_decide_true. }
  { intros x [?%bool_decide_eq_true _]%andb_true_iff. done. }
  exists e. split_and!; try done.
  - unfold interrupt_turn. cbn [res_bind]. fold e. rewrite H1. cbn [res_bind]. by rewrite H2.
  - apply ds_extend; try done. right. exists "interrupted", (Some "PROCESS_RESTART"), now.
    split; [unfold TERMINAL_STATUSES; set_solver|done].
Qed.

Lemma recover_fold now L : forall db, ledger_inv db -> NoDup (tn_turn_id <$> L) ->
  (forall r, r ∈ L -> r ∈ agent_turns db /\ tn_status r = "running") ->
  exists db', foldl (interrupt_turn now) (Ok db) L = Ok db' /\ rtc db_grow db db' /\
    agent_turns db' = (fun x => if bool_decide (tn_turn_id x ∈ tn_turn_id <$> L) then interrupted now x else x)
                        <$> agent_turns db /\
    forall t, exists tail, events_of t db' = events_of t db ++ tail /\
      Forall (fun e => te_event_type e = "turn.interrupted") tail.
Proof.
  induction L as [|r L IH]; intros db Hi Hnd HL.
  { exists db. split_and!; [done..| |].
    - symmetry. apply list_fmap_id. - intros t. exists []. by rewrite app_nil_r. }
  rewrite fmap_cons in Hnd. apply NoDup_cons in Hnd as [Hr Hnd].
  destruct (HL r) as [Hin Hrun]; [left|].
  destruct (interrupt_one now db r Hi Hin Hrun) as (e & Ht & Hty & Hone & Hstep).
  destruct (IH (extend db r (interrupted now r) e)) as (db' & Hf & Hrtc & Hturns & Hev); [|done| |].
  - by eapply ledger_inv_step; [|apply ds_grow].
  - intros x Hx. destruct (HL x) as [Hx1 Hx2]; [by right|]. split; [|done].
    apply elem_extend; [done..|]. right. split; [done|]. intros E. apply Hr. rewrite <-E. by apply list_elem_of_fmap_2.
  - exists db'. cbn [foldl]. rewrite Hone. split_and!; [done| | |].
    + eapply rtc_l; done.
    + rewrite Hturns. cbn [extend agent_turns]. rewrite <-list_fmap_compose. apply list_fmap_ext.
      intros i x Hx%list_elem_of_lookup_2. unfold compose. rewrite fmap_cons.
      destruct (decide (tn_turn_id x = tn_turn_id r)) as [E|E].
      * rewrite (bool_decide_true (tn_turn_id x = tn_turn_id r)), (bool_decide_true (tn_turn_id x ∈ _ :: _)) by set_solver.
        rewrite bool_decide_false by done. by rewrite (turn_unique db x r).
      * rewrite (bool_decide_false (tn_turn_id x = tn_turn_id r)) by done.
        case_bool_decide; [rewrite bool_decide_true by set_solver|rewrite bool_decide_false by set_solver]; done.
    + intros t. destruct (Hev t) as (tail & -> & Htail). unfold extend. rewrite events_of_app, <-(assoc_L (++)).
      eexists. split; [reflexivity|]. apply Forall_app. split; [|done]. by case_bool_decide; repeat constructor.
Qed.

(** Recovery succeeds on a well-formed ledger, closes exactly the running turns
    and only as interrupted. *)
Lemma recover_spec now db : ledger_inv db ->
  exists n db', recover_inflight_agent_turns now db = (Ok n, db') /\ rtc db_grow db db' /\
    agent_turns db' = (fun x => if bool_decide (tn_status x = "running") then interrupted now x else x)
                        <$> agent_turns db /\
    forall t, exists tail, events_of t db' = events_of t db ++ tail /\
      Forall (fun e => te_event_type e = "turn.interrupted") tail.
Proof.
  intros Hi. unfold recover_inflight_agent_turns.
  assert (Hel : forall r, r ∈ running_rows db <-> r ∈ agent_turns db /\ tn_status r = "running").
  { intros r. unfold running_rows. rewrite elem_of_sorted_by, list_elem_of_filter. tauto. }
  destruct (recover_fold now (running_rows db) db Hi) as (db' & -> & Hrtc & Hturns & Hev).
  - unfold running_rows. rewrite sorted_by_perm. eapply sublist_NoDup; [apply Hi|]. apply fmap_sublist, sublist_filter.
  - intros r. apply Hel.
  - cbn [res_bind atomically]. do 2 eexists. split_and!; [done..| |done].
    rewrite Hturns. apply list_fmap_ext. intros i x Hx%list_elem_of_lookup_2.
    destruct (decide (tn_status x = "running")) as [E|E].
    + by rewrite !bool_decide_true by (done || (apply list_elem_of_fmap_2, Hel; done)).
    + rewrite !bool_decide_false; [done..|]. intros (y & Ey & [Hy Hrun]%Hel)%list_elem_of_fmap.
      by rewrite (turn_unique db x y) in E.
Qed.

Lemma prune_step cutoff limit db : ledger_inv db -> db_step db (prune_terminal_agent_turns cutoff limit db).2.
Proof.
  intros Hi. unfold prune_terminal_agent_turns. cbn [snd]. apply ds_prune.
  intros r Hr (y & Ey & Hy)%list_elem_of_fmap.
  apply elem_of_take in Hy as (i & Hy & _). apply list_elem_of_lookup_2 in Hy.
  apply elem_of_sorted_by, list_elem_of_In, List.filter_In in Hy as [Hin Hf].
  rewrite (turn_unique db r y) by (done || by apply list_elem_of_In). unfold finished_before in Hf.
  apply andb_true_iff in Hf as [Hf%negb_true_iff _]. by apply bool_decide_eq_false in Hf.
Qed.

Lemma rtc_grow_inv db db' : ledger_inv db -> rtc db_grow db db' -> ledger_inv db'.
Proof.
  intros Hi H. induction H; [done|]. apply IHrtc. by eapply ledger_inv_step; [|apply ds_grow].
Qed.

(** A closed turn is never touched again. *)
Lemma grow_frozen db db' r : ledger_inv db -> db_grow db db' -> r ∈ agent_turns db -> tn_status r <> "running" ->
  r ∈ agent_turns db' /\ events_of (tn_turn_id r) db' = events_of (tn_turn_id r) db.
Proof.
  intros Hi Hg Hr Hs. destruct Hg as [x e Hnew Hrun _ _ Ht _|x x' e Hx Hrun Ht _ Hn].
  - split; [cbn; apply elem_of_app; by left|]. rewrite events_of_app, bool_decide_false, app_nil_r; [done|].
    intros E. apply Hnew. rewrite <-Ht, E. by apply list_elem_of_fmap_2.
  - assert (tn_turn_id r <> tn_turn_id x) as Hne by (intros E; by rewrite (turn_unique db r x) in Hs).
    split; [apply elem_extend; auto|]. unfold extend. rewrite events_of_app, bool_decide_false, app_nil_r; [done|].
    congruence.
Qed.
Lemma rtc_grow_frozen db db' r : ledger_inv db -> rtc db_grow db db' -> r ∈ agent_turns db ->
  tn_status r <> "running" ->
  r ∈ agent_turns db' /\ events_of (tn_turn_id r) db' = events_of (tn_turn_id r) db.
Proof.
  intros Hi H. revert Hi. induction H as [|x y z Hg _ IH]; intros Hi Hr Hs; [done|].
  destruct (grow_frozen x y r Hi Hg Hr Hs) as [Hr' <-]. apply IH; [|done..].
  by eapply ledger_inv_step; [|apply ds_grow].
Qed.

(** ** The process only takes ledger steps *)
Section Process.
Context (repr : pyval -> string).

Lemma emit_db ty payload now outage c db : ledger_inv db ->
  rtc db_grow db (emit repr ty payload now outage c db).2.
Proof.
  intros Hi. unfold emit. destruct (co_terminal c); [done|]. destruct (track_call _ _ _); [|done].
  destruct outage as [x|]; [done|]. cbn [storage]. destruct (append_agent_turn_event _ _ _ _ _ _ _ db) as [[]] eqn:E;
    by eapply append_step.
Qed.
Lemma terminal_db status reason err now outage c db : ledger_inv db ->
  rtc db_grow db (terminal status reason err now outage c db).2.
Proof.
  intros Hi. unfold terminal. destruct (co_terminal c); [done|]. destruct (_ && _); [done|].
  destruct outage as [x|]; [done|]. cbn [storage]. destruct (append_agent_turn_event _ _ _ _ _ _ _ db) as [[]] eqn:E;
    by eapply append_step.
Qed.
Lemma recover_once_db repo now w : ledger_inv (w_db w) ->
  exists w', recover_once repo now w = (Ok tt, w') /\ rtc db_grow (w_db w) (w_db w') /\
    coordinators w' = coordinators w.
Proof.
  intros Hi. unfold recover_once. case_bool_decide; [by exists w|].
  destruct (recover_spec now (w_db w) Hi) as (n & db' & -> & Hr & _). by eexists.
Qed.
Lemma start_db repo t att s task p j rnow now w : ledger_inv (w_db w) ->
  rtc db_grow (w_db w) (w_db (start repo t att s task p j rnow now w).2).
Proof.
  intros Hi. unfold start. destruct (recover_once_db repo rnow w Hi) as (w1 & -> & Hr & _).
  assert (ledger_inv (w_db w1)) as Hi1 by (by eapply rtc_grow_inv).
  destruct (start_agent_turn _ _ _ _ _ _ _ _ _) as [o db'] eqn:E.
  apply start_cases in E as [(-> & Hnew & ->)|(e & -> & ->)]; [|done..].
  etrans; [done|]. apply rtc_once. by apply ds_start.
Qed.
Definition is_prune (a : action) : bool := match a with A_prune _ _ => true | _ => false end.
Lemma act_db a w : ledger_inv (w_db w) ->
  if is_prune a then db_step (w_db w) (w_db (act repr a w)) else rtc db_grow (w_db w) (w_db (act repr a w)).
Proof.
  intros Hi. destruct a as [| | |cutoff limit|]; cbn [act is_prune].
  - by apply start_db.
  - destruct (coordinators w !! turn_id) as [c|]; [|done].
    pose proof (emit_db event_type payload now outage c (w_db w) Hi) as H.
    by destruct (emit _ _ _ _ _ _ _) as [[]].
  - destruct (coordinators w !! turn_id) as [c|]; [|done].
    pose proof (terminal_db status reason error_code now outage c (w_db w) Hi) as H.
    by destruct (terminal _ _ _ _ _ _ _) as [[]].
  - by apply prune_step.
  - done.
Qed.
Lemma act_inv a w : ledger_inv (w_db w) -> ledger_inv (w_db (act repr a w)).
Proof.
  intros Hi. pose proof (act_db a w Hi) as H. destruct (is_prune a); [by eapply ledger_inv_step|by eapply rtc_grow_inv].
Qed.
Lemma run_inv l : forall w, ledger_inv (w_db w) -> ledger_inv (w_db (run repr l w)).
Proof. induction l as [|a l IH]; intros w Hi; [done|]. cbn [run foldl]. by apply IH, act_inv. Qed.
End Process.

Definition empty_world (keys : list (string * string * string)) : World := MkWorld (MkTurnDb keys [] []) ∅ ∅.
Lemma empty_world_inv keys : ledger_inv (w_db (empty_world keys)).
Proof. split; cbn; [constructor|set_solver..]. Qed.

(** C26. The turn ledger is well formed after any history of starts, events,
    terminals, storage outages, process restarts and pruning, whatever number of
    repositories writes to it: turn identities are unique, every event belongs to a
    stored turn, the events of each turn are numbered 1, 2, ... up to its
    [last_sequence] in insertion order, and a turn is either running and
    unfinished or has one of the three terminal statuses and a finishing time. *)
Theorem turn_ledger_invariant repr keys l : ledger_inv (w_db (run repr l (empty_world keys))).
Proof. apply run_inv, empty_world_inv. Qed.

(** A terminal is final: once a turn is closed, no later start, event,
    terminal call, outage or restart changes its row or its events (only pruning
    removes them). *)
Theorem closed_turns_are_frozen repr keys l l' r :
  let w := run repr l (empty_world keys) in
  let w' := run repr l' w in
  Forall (fun a => is_prune a = false) l' ->
  r ∈ agent_turns (w_db w) -> tn_status r <> "running" ->
  r ∈ agent_turns (w_db w') /\
  events_of (tn_turn_id r) (w_db w') = events_of (tn_turn_id r) (w_db w).
Proof.
  intros w w' Hl Hr Hs. assert (ledger_inv (w_db w)) as Hi by apply run_inv, empty_world_inv.
  subst w'. clearbody w. revert w Hi Hr. induction Hl as [|a l' Ha Hl IH]; intros w Hi Hr; [done|].
  cbn [run foldl]. pose proof (act_db repr a w Hi) as Hstep. rewrite Ha in Hstep.
  destruct (rtc_grow_frozen _ _ r Hi Hstep Hr Hs) as [Hr' <-].
  apply (IH (act repr a w)); [by apply act_inv|done].
Qed.

(** ** Tool calls and their results *)
Section Pairing.
Context (repr : pyval -> string).

Definition event_call (e : TurnEventRow) : string :=
  match te_payload e with PDict d => call_id_of repr d | _ => EmptyString end.
(** The open tool calls of a turn, reading its stored events with the rules of
    [emit]; an event those rules refuse is an error. *)
Definition replay (l : list TurnEventRow) : res (gset string) :=
  foldl (fun acc e => let* calls := acc in track_call (te_event_type e) (event_call e) calls) (Ok ∅) l.
Definition neutral (ty : string) : Prop := ty <> "tool.call" /\ ty <> "tool.result" /\ ty <> "approval.wait".

Lemma track_neutral ty cid calls : neutral ty -> track_call ty cid calls = Ok calls.
Proof. intros (H1 & H2 & H3). unfold track_call. by rewrite !bool_decide_false by done. Qed.
Lemma replay_snoc l e : replay (l ++ [e]) =
  let* calls := replay l in track_call (te_event_type e) (event_call e) calls.
Proof. unfold replay. by rewrite foldl_app. Qed.
Lemma replay_neutral l tail : Forall (fun e => neutral (te_event_type e)) tail -> replay (l ++ tail) = replay l.
Proof.
  revert l. induction tail as [|e tail IH]; intros l Hn; [by rewrite app_nil_r|].
  apply Forall_cons in Hn as [He Hn]. rewrite (cons_middle e), (assoc_L (++)), IH, replay_snoc by done.
  destruct (replay l); [|done]. cbn. by rewrite track_neutral.
Qed.
Lemma turn_neutral s : neutral ("turn." +:+ s).
Proof. split_and!; cbn; intros [=]. Qed.

Record paired (w : World) : Prop := {
  pw_inv : ledger_inv (w_db w);
  pw_key : forall t c, coordinators w !! t = Some c -> co_turn_id c = t;
  pw_live : forall t c r, coordinators w !! t = Some c -> r ∈ agent_turns (w_db w) -> tn_turn_id r = t ->
    tn_status r = "running" ->
    co_sequence c = tn_last_sequence r /\ replay (events_of t (w_db w)) = Ok (co_active_tool_calls c);
  pw_rows : forall r, r ∈ agent_turns (w_db w) -> exists calls,
    replay (events_of (tn_turn_id r) (w_db w)) = Ok calls /\ (tn_status r = "completed" -> calls = ∅)
}.

(** The coordinator [c] of turn [t] wrote event [e] and became [c']. *)
Lemma paired_extend w t c c' r r' e : paired w ->
  coordinators w !! t = Some c -> r ∈ agent_turns (w_db w) -> tn_turn_id r = t -> tn_status r = "running" ->
  te_turn_id e = t -> te_sequence e = tn_last_sequence r + 1 -> next_row r r' -> co_turn_id c' = t ->
  (forall calls, replay (events_of t (w_db w)) = Ok calls -> calls = co_active_tool_calls c ->
     exists calls', track_call (te_event_type e) (event_call e) calls = Ok calls' /\
       (tn_status r' = "running" -> co_sequence c' = tn_last_sequence r' /\ co_active_tool_calls c' = calls') /\
       (tn_status r' = "completed" -> calls' = ∅)) ->
  paired (MkWorld (extend (w_db w) r r' e) (recovered w) (<[t := c']> (coordinators w))).
Proof.
  intros [Hi Hk Hl Hrows] Hc Hr Ht Hrun Het Hes Hn Hc' Hcalls.
  destruct (next_row_id _ _ Hn) as [Hid _].
  destruct (Hl t c r Hc Hr Ht Hrun) as [Hseq Hrep].
  destruct (Hcalls _ Hrep eq_refl) as (calls' & Htrack & Hlive & Hdone).
  assert (Hev : events_of t (extend (w_db w) r r' e) = events_of t (w_db w) ++ [e])
    by (unfold extend; by rewrite events_of_app, bool_decide_true).
  assert (Hevo : forall u, u <> t -> events_of u (extend (w_db w) r r' e) = events_of u (w_db w))
    by (intros u Hu; unfold extend; rewrite events_of_app, bool_decide_false, app_nil_r; congruence).
  assert (Hnew : replay (events_of t (extend (w_db w) r r' e)) = Ok calls')
    by (rewrite Hev, replay_snoc, Hrep; exact Htrack).
  split; cbn [w_db coordinators].
  - eapply ledger_inv_step; [done|]. apply ds_grow, ds_extend; congruence.
  - intros u d Hu. destruct (decide (u = t)) as [->|Hne]; simplify_map_eq; [done|by eapply Hk].
  - intros u d x Hu Hx Hxt Hxrun. apply elem_extend in Hx as [->|[Hx Hne]]; [| |done..].
    + assert (u = t) as -> by congruence. simplify_map_eq. destruct (Hlive Hxrun) as [? <-]. done.
    + rewrite Hevo by congruence. rewrite lookup_insert_ne in Hu by congruence. by eapply Hl.
  - intros x Hx. apply elem_extend in Hx as [->|[Hx Hne]]; [| |done..].
    + exists calls'. rewrite Hid, Ht. done.
    + rewrite Hevo by congruence. by apply Hrows.
Qed.

Lemma append_open db r ty payload now o db' : ledger_inv db -> r ∈ agent_turns db -> tn_status r = "running" ->
  append_agent_turn_event (tn_turn_id r) (tn_last_sequence r) ty payload now None None db = (o, db') -> is_ok o = true.
Proof.
  intros Hi Hr Hrun. unfold append_agent_turn_event. rewrite find_turn_elem, Hrun, Z.eqb_refl by done.
  rewrite bool_decide_true by done. cbn [negb orb raise_if res_bind].
  destruct (push_event db r (MkEvent (tn_turn_id r) (tn_last_sequence r + 1) ty payload now)
    (fun x => bool_decide (tn_turn_id x = tn_turn_id r)) id) as (db1 & -> & _); try done.
  - by rewrite bool_decide_true.
  - intros x Hx. by apply bool_decide_eq_true in Hx.
  - by intros [= <- <-].
Qed.

Lemma paired_coordinator w t c : paired w -> coordinators w !! t = Some c ->
  paired (MkWorld (w_db w) (recovered w) (<[t := c]> (coordinators w))).
Proof. intros H Hc. rewrite insert_id by done. by destruct w. Qed.

Lemma paired_emit w t c ty payload now : paired w -> coordinators w !! t = Some c ->
  let '(_, c', db') := emit repr ty payload now None c (w_db w) in
  paired (MkWorld db' (recovered w) (<[t := c']> (coordinators w))).
Proof.
  intros Hw Hc. pose proof (pw_key _ Hw t c Hc) as Hk. unfold emit.
  destruct (co_terminal c); [by apply paired_coordinator|].
  destruct (track_call ty _ _) as [calls|] eqn:Htr; [|by apply paired_coordinator].
  cbn [storage]. destruct (append_agent_turn_event _ _ _ _ _ _ _ _) as [o db'] eqn:E.
  pose proof E as E'. apply turn_append_cases in E' as [(r & -> & Hr & Ht & Hrun & Hlast & _ & ->)|(x & -> & ->)];
    [| |apply Hw].
  - eapply paired_extend; try done.
    + congruence.
    + cbn [te_sequence]. lia.
    + left. by rewrite Hlast.
    + intros calls0 _ ->. exists calls. cbn [te_event_type]. unfold event_call. cbn [te_payload].
      split_and!; [done|done|]. intros Hs. cbn in Hs. congruence.
  - split; cbn [w_db coordinators]; [apply Hw| | |apply Hw].
    + intros u d Hu. destruct (decide (u = t)) as [->|Hne]; simplify_map_eq; [done|by eapply Hw].
    + intros u d r Hu Hr Hrt Hrun. destruct (decide (u = t)) as [->|Hne]; simplify_map_eq; [|by eapply Hw].
      destruct (pw_live _ Hw _ c r Hc Hr Hrt Hrun) as [Hseq _]. rewrite Hseq, <-Hrt in E.
      by apply append_open in E; [|apply Hw|..].
Qed.

Lemma paired_terminal w t c status reason err now : paired w -> coordinators w !! t = Some c ->
  let '(_, c', db') := terminal status reason err now None c (w_db w) in
  paired (MkWorld db' (recovered w) (<[t := c']> (coordinators w))).
Proof.
  intros Hw Hc. pose proof (pw_key _ Hw t c Hc) as Hk. unfold terminal.
  destruct (co_terminal c); [by apply paired_coordinator|].
  destruct (bool_decide (status = "completed") && _) eqn:Hg; [by apply paired_coordinator|].
  cbn [storage]. destruct (append_agent_turn_event _ _ _ _ _ _ _ _) as [o db'] eqn:E.
  apply turn_append_cases in E as [(r & -> & Hr & Ht & Hrun & Hlast & Hs & ->)|(x & -> & ->)];
    [|by apply paired_coordinator|apply Hw].
  eapply paired_extend; try done.
  - congruence.
  - cbn [te_sequence]. lia.
  - right. exists status, err, now. rewrite Hlast. auto.
  - intros calls0 _ ->. exists (co_active_tool_calls c). cbn [te_event_type].
    split_and!; [apply track_neutral, turn_neutral| |]; cbn [finish tn_status].
    + intros ->. pose proof (Hs _ eq_refl) as H. unfold TERMINAL_STATUSES in H. set_solver.
    + intros ->. rewrite bool_decide_true in Hg by done. cbn [andb] in Hg.
      by apply negb_false_iff, bool_decide_eq_true in Hg.
Qed.

Lemma paired_recover repo now w : paired w ->
  exists w', recover_once repo now w = (Ok tt, w') /\ paired w'.
Proof.
  intros Hw. unfold recover_once. case_bool_decide; [by exists w|].
  destruct (recover_spec now (w_db w)) as (n & db' & -> & Hgrow & Hturns & Hev); [apply Hw|].
  eexists. split; [done|].
  assert (Hrep : forall t, replay (events_of t db') = replay (events_of t (w_db w))).
  { intros t. destruct (Hev t) as (tail & -> & Ht). apply replay_neutral. eapply Forall_impl; [done|].
    intros e ->. done. }
  assert (Hrow : forall x, x ∈ agent_turns db' -> exists y, y ∈ agent_turns (w_db w) /\
    tn_turn_id x = tn_turn_id y /\ tn_status x <> "running" /\ (tn_status x = "completed" -> tn_status y = "completed")).
  { intros x. rewrite Hturns. intros (y & -> & Hy)%list_elem_of_fmap. exists y.
    case_bool_decide as E; cbn; split_and!; try done. }
  split; cbn [w_db coordinators].
  - eapply rtc_grow_inv; [apply Hw|done].
  - apply Hw.
  - intros t c x _ (y & _ & _ & Hy & _)%Hrow. done.
  - intros x (y & Hy & Hid & _ & Hcomp)%Hrow. destruct (pw_rows _ Hw y Hy) as (calls & Hc & Hd).
    exists calls. rewrite Hid, Hrep. auto.
Qed.

Lemma paired_start repo t att s task p j rnow now w : paired w ->
  paired (start repo t att s task p j rnow now w).2.
Proof.
  intros Hw. unfold start. destruct (paired_recover repo rnow w Hw) as (w1 & -> & Hw1). clear Hw w.
  rename w1 into w, Hw1 into Hw. pose proof (pw_inv _ Hw) as Hi.
  destruct (start_agent_turn _ _ _ _ _ _ _ _ _) as [o db'] eqn:E.
  apply start_cases in E as [(-> & Hnew & ->)|(e & -> & ->)]; [| |done]; [|by destruct w].
  set (e := MkEvent _ _ _ _ _). set (r := MkTurn _ _ _ _ _ _ _ _ _ _ _). cbn [snd].
  assert (Het : te_turn_id e = t) by done. assert (Hrt : tn_turn_id r = t) by done.
  assert (Hevt : replay (events_of t (MkTurnDb (sessions (w_db w)) (agent_turns (w_db w) ++ [r])
    (agent_turn_events (w_db w) ++ [e]))) = Ok ∅).
  { rewrite events_of_app, bool_decide_true, events_of_unknown by done. by apply (track_neutral "turn.started"). }
  assert (Hne : forall x, x ∈ agent_turns (w_db w) -> tn_turn_id x <> t).
  { intros x Hx <-. apply Hnew. by apply list_elem_of_fmap_2. }
  split; cbn [w_db coordinators].
  - eapply ledger_inv_step; [done|]. by apply ds_grow, ds_start.
  - intros u d Hu. destruct (decide (u = t)) as [->|?]; simplify_map_eq; [done|by eapply Hw].
  - intros u d x Hu Hx <- Hrun. cbn [agent_turns] in Hx. apply elem_of_app in Hx as [Hx|Hx].
    + specialize (Hne _ Hx). rewrite lookup_insert_ne in Hu by done.
      rewrite events_of_app, bool_decide_false, app_nil_r by congruence. by eapply Hw.
    + apply list_elem_of_singleton in Hx as ->. rewrite Hrt in *. simplify_map_eq. done.
  - intros x Hx. cbn [agent_turns] in Hx. apply elem_of_app in Hx as [Hx|Hx].
    + specialize (Hne _ Hx). rewrite events_of_app, bool_decide_false, app_nil_r by congruence. by apply Hw.
    + apply list_elem_of_singleton in Hx as ->. rewrite Hrt. by exists ∅.
Qed.

Definition reliable (a : action) : bool :=
  match a with A_emit _ _ _ _ (Some _) | A_terminal _ _ _ _ _ (Some _) => false | _ => true end.
Lemma paired_act a w : reliable a = true -> paired w -> paired (act repr a w).
Proof.
  intros Ha Hw. destruct a as [|t ty payload now outage|t s rs er now outage|cutoff limit|]; cbn [act].
  - by apply paired_start.
  - destruct (coordinators w !! t) as [c|] eqn:Hc; [|done]. destruct outage; [done|].
    pose proof (paired_emit w t c ty payload now Hw Hc) as H. by destruct (emit _ _ _ _ _ _ _) as [[]].
  - destruct (coordinators w !! t) as [c|] eqn:Hc; [|done]. destruct outage; [done|].
    pose proof (paired_terminal w t c s rs er now Hw Hc) as H. by destruct (terminal _ _ _ _ _ _ _) as [[]].
  - pose proof (prune_step cutoff limit (w_db w) (pw_inv _ Hw)) as Hs.
    unfold prune_terminal_agent_turns in *. cbn [snd] in *. set (ids := tn_turn_id <$> _) in *.
    assert (Hev : forall t, (t ∉ ids) -> events_of t (MkTurnDb (sessions (w_db w))
      (filter (fun r => tn_turn_id r ∉ ids) (agent_turns (w_db w)))
      (filter (fun e => te_turn_id e ∉ ids) (agent_turn_events (w_db w)))) = events_of t (w_db w)).
    { intros t Ht. unfold events_of. cbn. rewrite list_filter_filter. apply list_filter_iff.
      intros e. split; [tauto|]. intros ->. done. }
    split; cbn [w_db coordinators agent_turns].
    + eapply ledger_inv_step; [apply Hw|done].
    + apply Hw.
    + intros t c x Hc [Hx Hin]%list_elem_of_filter <- Hrun. rewrite Hev by done. by eapply Hw.
    + intros x [Hx Hin]%list_elem_of_filter. rewrite Hev by done. by apply Hw.
  - split; cbn; [apply Hw|done|done|apply Hw].
Qed.
Lemma paired_run l : forall w, Forall (fun a => reliable a = true) l -> paired w -> paired (run repr l w).
Proof.
  induction l as [|a l IH]; intros w Hl Hw; [done|]. apply Forall_cons in Hl as [Ha Hl]. by apply IH, paired_act.
Qed.
Lemma empty_world_paired keys : paired (empty_world keys).
Proof. split; cbn; [apply empty_world_inv|done|done|set_solver]. Qed.
End Pairing.

(** Tool calls and results pair up in the ledger: as long as the storage does not
    fail, the stored events of every turn obey the rules of [emit] (a call has a
    new non-empty identity, a result or an approval wait refers to an open call), and a turn stored
    as completed has no open call, across any number of repositories, crashes and
    restarts. *)
Theorem completed_turns_paired repr keys l r :
  Forall (fun a => reliable a = true) l ->
  r ∈ agent_turns (w_db (run repr l (empty_world keys))) ->
  exists calls, replay repr (events_of (tn_turn_id r) (w_db (run repr l (empty_world keys)))) = Ok calls /\
    (tn_status r = "completed" -> calls = ∅).
Proof. intros Hl. apply paired_run; [done|apply empty_world_paired]. Qed.

(** ** Two limits of the protocol *)
Lemma start_interrupts repr keys l repo t att s task p j rnow now r :
  let w := run repr l (empty_world keys) in
  repo ∉ recovered w -> r ∈ agent_turns (w_db w) -> tn_status r = "running" ->
  interrupted rnow r ∈ agent_turns (w_db (start repo t att s task p j rnow now w).2) /\
  ledger_inv (w_db (start repo t att s task p j rnow now w).2).
Proof.
  intros w Hrepo Hr Hrun. assert (ledger_inv (w_db w)) as Hi by apply run_inv, empty_world_inv. clearbody w.
  split; [|eapply rtc_grow_inv; [done|by apply start_db]]. unfold start, recover_once. rewrite bool_decide_false by done.
  destruct (recover_spec rnow (w_db w) Hi) as (n & db' & -> & Hgrow & Hturns & _). cbn [w_db].
  assert (interrupted rnow r ∈ agent_turns db') as Hin.
  { rewrite Hturns. apply list_elem_of_fmap. exists r. by rewrite bool_decide_true. }
  destruct (start_agent_turn _ _ _ _ _ _ _ _ _) as [o db2] eqn:E.
  apply start_cases in E as [(-> & _ & ->)|(e & -> & ->)]; [|done|by eapply rtc_grow_inv].
  cbn. apply elem_of_app. by left.
Qed.

(** Recovery belongs to a repository object, not to the process: the first
    turn started through a second repository on the same database marks every
    running turn as interrupted, also the live ones of this process, and the
    coordinator of such a turn can no longer record any event. *)
Theorem second_repository_interrupts_live_turn repr keys l repo t att s task p j rnow now r c :
  let w := run repr l (empty_world keys) in
  let w' := (start repo t att s task p j rnow now w).2 in
  repo ∉ recovered w -> r ∈ agent_turns (w_db w) -> tn_status r = "running" ->
  co_turn_id c = tn_turn_id r -> co_terminal c = false ->
  interrupted rnow r ∈ agent_turns (w_db w') /\
  forall ty payload time, neutral ty ->
    (emit repr ty payload time None c (w_db w')).1.1
    = Raise (Exn PermissionError "turn event is late, replayed, or out of sequence").
Proof.
  intros w w' Hrepo Hr Hrun Hc Hterm.
  destruct (start_interrupts repr keys l repo t att s task p j rnow now r Hrepo Hr Hrun) as [Hin Hi].
  split; [exact Hin|]. intros ty payload time Hty. fold w w' in Hin, Hi.
  unfold emit. rewrite Hterm, track_neutral by done. cbn [storage]. unfold append_agent_turn_event.
  rewrite Hc. change (tn_turn_id r) with (tn_turn_id (interrupted rnow r)). by rewrite find_turn_elem.
Qed.

Definition no_repr (_ : pyval) : string := EmptyString.
Definition sample_actions : list action :=
  [A_start 0 "t1" "a1" "s" None "alice" "p" 0 1;
   A_emit "t1" "tool.call" [("id", PStr "c1")] 2 None].

(** [emit] forgets a tool call before its result is stored: if the storage fails
    on the result, the coordinator still accepts [completed], and the stored turn is
    completed with an open call. *)
Theorem lost_result_still_completes :
  let l := sample_actions ++
    [A_emit "t1" "tool.result" [("id", PStr "c1")] 3 (Some (Exn SqliteError "disk I/O error"));
     A_terminal "t1" "completed" "done" None 4 None] in
  let db := w_db (run no_repr l (empty_world [("s", "alice", "p")])) in
  (exists r, r ∈ agent_turns db /\ tn_turn_id r = "t1" /\ tn_status r = "completed") /\
  replay no_repr (events_of "t1" db) = Ok {["c1"]}.
Proof. split; [eexists; split; [left|split; reflexivity]|vm_compute; reflexivity]. Qed.

(** ** Concrete histories *)
Definition sample_world : World := run no_repr sample_actions (empty_world [("s", "alice", "p")]).
Definition sample_turn : TurnRow :=
  MkTurn "t1" "a1" "s" None "running" 2 None 1 None "alice" "p".

Example closed_turns_are_frozen_witness :
  let l := sample_actions ++ [A_terminal "t1" "failed" "error" None 5 None] in
  let r := MkTurn "t1" "a1" "s" None "failed" 3 None 1 (Some 5) "alice" "p" in
  let w' := run no_repr [A_emit "t1" "message" [] 6 None; A_restart; A_start 1 "t2" "a2" "s" None "alice" "p" 7 8]
              (run no_repr l (empty_world [("s", "alice", "p")])) in
  r ∈ agent_turns (w_db w').
Proof.
  apply (closed_turns_are_frozen no_repr [("s", "alice", "p")]
    (sample_actions ++ [A_terminal "t1" "failed" "error" None 5 None])).
  - repeat constructor.
  - vm_compute. left.
  - discriminate.
Defined.

Example completed_turns_paired_witness :
  let l := sample_actions ++ [A_emit "t1" "tool.result" [("id", PStr "c1")] 3 None;
                              A_terminal "t1" "completed" "done" None 4 None] in
  let r := MkTurn "t1" "a1" "s" None "completed" 4 None 1 (Some 4) "alice" "p" in
  exists calls, replay no_repr (events_of "t1" (w_db (run no_repr l (empty_world [("s", "alice", "p")])))) = Ok calls /\
    calls = ∅.
Proof.
  destruct (completed_turns_paired no_repr [("s", "alice", "p")]
    (sample_actions ++ [A_emit "t1" "tool.result" [("id", PStr "c1")] 3 None;
                        A_terminal "t1" "completed" "done" None 4 None])
    (MkTurn "t1" "a1" "s" None "completed" 4 None 1 (Some 4) "alice" "p")) as (calls & H1 & H2).
  - repeat constructor.
  - vm_compute. left.
  - exists calls. split; [exact H1|exact (H2 eq_refl)].
Defined.

Example second_repository_interrupts_live_turn_witness :
  exists c, coordinators sample_world !! "t1" = Some c /\
    (emit no_repr "message" [] 9 None c
       (w_db (start 1 "t2" "a2" "s" None "alice" "p" 7 8 sample_world).2)).1.1
    = Raise (Exn PermissionError "turn event is late, replayed, or out of sequence").
Proof.
  eexists. split; [vm_compute; reflexivity|].
  refine (proj2 (second_repository_interrupts_live_turn no_repr [("s", "alice", "p")] sample_actions
    1 "t2" "a2" "s" None "alice" "p" 7 8 sample_turn _ _ _ _ _ _) "message" [] 9 _).
  - vm_compute. intros H. discriminate H.
  - vm_compute. left.
  - reflexivity.
  - reflexivity.
  - reflexivity.
  - split; [discriminate|split; discriminate].
Defined.
