(* ===== verification/CompletionRecovery.v ===== *)
(** * Restart-safe completion continuation ([agent/control/completion_recovery.py])

    Gate events read back from the turn ledger, the pure resolver that turns
    durable completion history into a continuation state, and the service that
    reads the history through owner-scoped ports and fails closed. *)
From S2P Require Import Prelude PyStr Json PyValue Sha256 ProtocolBoundary CognitiveState Goal Completion.
From S2P Require Import CompletionEvaluator ControlDb GoalRepository CompletionRepository CompletionGate TurnLedger.
Open Scope Z_scope.

Definition MAX_COMPLETION_GATE_PAYLOAD_BYTES : Z := 4096.
Definition MAX_COMPLETION_GATE_HISTORY_RECORDS : nat := 256.
Definition _TASK_STATUSES : list string :=
  ["pending"; "running"; "blocked"; "waiting_test"; "fixing"; "completed"; "failed"; "cancelled"].
Definition _GATE_REQUIRED_PAYLOAD_KEYS : list string :=
  ["task_id"; "decision_id"; "decision_digest"; "gate_status"; "resulting_task_status"].
Definition _GATE_PAYLOAD_KEYS : list string := _GATE_REQUIRED_PAYLOAD_KEYS ++ ["reason"].

Inductive CompletionContinuationState :=
| CC_NO_DECISION | CC_REPLAN_REQUIRED | CC_REEVALUATION_REQUIRED | CC_AUTHORITY_REQUIRED
| CC_EXTERNAL_BLOCKED | CC_FAILURE_REVIEW_REQUIRED | CC_TERMINAL_COMPLETED | CC_TERMINAL_FAILED
| CC_TERMINAL_CANCELLED | CC_INTEGRITY_ERROR.
#[export] Instance CompletionContinuationState_eq_dec : EqDecision CompletionContinuationState.
Proof. solve_decision. Defined.
#[export] Instance CompletionContinuationState_enum : PyEnum CompletionContinuationState := {|
  members := [CC_NO_DECISION; CC_REPLAN_REQUIRED; CC_REEVALUATION_REQUIRED; CC_AUTHORITY_REQUIRED;
    CC_EXTERNAL_BLOCKED; CC_FAILURE_REVIEW_REQUIRED; CC_TERMINAL_COMPLETED; CC_TERMINAL_FAILED;
    CC_TERMINAL_CANCELLED; CC_INTEGRITY_ERROR];
  enum_value s := match s with
    | CC_NO_DECISION => "no_decision" | CC_REPLAN_REQUIRED => "replan_required"
    | CC_REEVALUATION_REQUIRED => "reevaluation_required" | CC_AUTHORITY_REQUIRED => "authority_required"
    | CC_EXTERNAL_BLOCKED => "external_blocked" | CC_FAILURE_REVIEW_REQUIRED => "failure_review_required"
    | CC_TERMINAL_COMPLETED => "terminal_completed" | CC_TERMINAL_FAILED => "terminal_failed"
    | CC_TERMINAL_CANCELLED => "terminal_cancelled" | CC_INTEGRITY_ERROR => "integrity_error" end |}.
#[export] Instance CompletionContinuationState_laws : PyEnumLaws CompletionContinuationState.
Proof. solve_enum_laws. Qed.

#[export] Instance CompletionGateStatus_enum : PyEnum CompletionGateStatus := {|
  members := [G_COMPLETED; G_NOT_COMPLETE; G_STALE; G_AUTHORITY_INSUFFICIENT; G_ALREADY_TERMINAL;
    G_DELEGATED_CHILD_ACTIVE; G_REJECTED; G_ERROR];
  enum_value s := match s with
    | G_COMPLETED => "completed" | G_NOT_COMPLETE => "not_complete" | G_STALE => "stale"
    | G_AUTHORITY_INSUFFICIENT => "authority_insufficient" | G_ALREADY_TERMINAL => "already_terminal"
    | G_DELEGATED_CHILD_ACTIVE => "delegated_child_active" | G_REJECTED => "rejected"
    | G_ERROR => "error" end |}.
#[export] Instance CompletionGateStatus_laws : PyEnumLaws CompletionGateStatus.
Proof. solve_enum_laws. Qed.

(** ** Gate events *)

(** A number column: a finite float or integer, as a multiple of [2^-1074], or
    anything else. *)
Inductive py_number := Finite (t : Time) | NotFinite.

Record CompletionGateHistoryRecord := MkGateRecord {
  gr_turn : string; gr_attempt : string; gr_task : string; gr_event_sequence : Z; gr_event_type : string;
  gr_payload_json : string; gr_created_at : py_number; gr_turn_started_at : py_number;
  gr_payload_bytes : option Z
}.
Record CompletionGateHistoryEntry := MkGateEntry {
  ge_turn : string; ge_attempt : string; ge_task : string; ge_event_sequence : Z; ge_created_at : Time;
  ge_turn_started_at : Time; ge_decision_id : string; ge_decision_digest : option string;
  ge_gate_status : CompletionGateStatus; ge_resulting_task_status : option string
}.
#[export] Instance CompletionGateHistoryEntry_eq_dec : EqDecision CompletionGateHistoryEntry.
Proof. solve_decision. Defined.

(** [_valid_id] on a string, and on a JSON value *)
Definition _valid_id (value : string) : bool := id_ok value.
Definition valid_id_value (value : pyval) : bool := match value with PStr s => _valid_id s | _ => false end.
(** [value is not None and not _valid_id(value)], with the value kept *)
Definition optional_id_value (value : pyval) : option (option string) :=
  match value with
  | PNone => Some None
  | PStr s => if _valid_id s then Some (Some s) else None
  | _ => None
  end.
Definition bind_opt {A B} (m : option A) (f : A -> res (option B)) : res (option B) :=
  match m with Some a => f a | None => Ok None end.
(** [if cond: return None] *)
Definition none_if {B} (cond : bool) (k : res (option B)) : res (option B) := if cond then Ok None else k.

(** The fields of the decoded payload. *)
Definition decode_gate_payload (r : CompletionGateHistoryRecord) (created started : Time)
    (payload : list (string * pyval)) : res (option CompletionGateHistoryEntry) :=
  none_if (negb (forallb (fun k => str_in k (dict_keys payload)) _GATE_REQUIRED_PAYLOAD_KEYS)) (
  none_if (negb (forallb (fun k => str_in k _GATE_PAYLOAD_KEYS) (dict_keys payload))) (
  let get key := default PNone (dict_get key payload) in
  bind_opt (as_str (get "task_id")) (fun task =>
  bind_opt (as_str (get "decision_id")) (fun decision =>
  none_if (negb (_valid_id task) || negb (_valid_id decision)) (
  none_if (negb (bool_decide (task = gr_task r))) (
  bind_opt (optional_id_value (get "decision_digest")) (fun digest =>
  bind_opt (optional_id_value (get "resulting_task_status")) (fun status =>
  bind_opt (as_str (default (PStr EmptyString) (dict_get "reason" payload))) (fun reason =>
  none_if (_MAX_REASON_LENGTH <? py_len reason) (
  match enum_of (get "gate_status") with
  | Raise _ => Ok None
  | Ok gate => Ok (Some (MkGateEntry (gr_turn r) (gr_attempt r) task (gr_event_sequence r) created started
                           decision digest gate status))
  end)))))))))).

(** [CompletionGateHistoryEntry.from_record] *)
Definition from_record (r : CompletionGateHistoryRecord) : res (option CompletionGateHistoryEntry) :=
  none_if (negb (_valid_id (gr_turn r)) || negb (_valid_id (gr_attempt r))) (
  none_if (negb (_valid_id (gr_task r))) (
  none_if (gr_event_sequence r <? 1) (
  none_if (negb (bool_decide (gr_event_type r = "completion.gated"))) (
  let* bytes := match gr_payload_bytes r with
                | None => let* b := encode_utf8 (gr_payload_json r) in Ok (Z.of_nat (String.length b))
                | Some n => Ok n end in
  none_if (bytes <? 0) (
  none_if (MAX_COMPLETION_GATE_PAYLOAD_BYTES <? bytes) (
  let* encoded := encode_utf8 (gr_payload_json r) in
  none_if (MAX_COMPLETION_GATE_PAYLOAD_BYTES <? Z.of_nat (String.length encoded)) (
  match gr_created_at r, gr_turn_started_at r with
  | Finite created, Finite started =>
      let* payload := try_except
        (let* v := loads default_object_hook default_constant_hook (gr_payload_json r) in Ok (Some v))
        [JSONDecodeError; TypeError] (fun _ => Ok None) in
      match payload with
      | Some (PDict d) => decode_gate_payload r created started d
      | _ => Ok None
      end
  | _, _ => Ok None
  end))))))).

(** [ordering_key] and [max(matching, key=...)]: the first of the greatest. *)
Definition ordering_key (e : CompletionGateHistoryEntry) : Time * Time * (string * Z) :=
  (ge_created_at e, ge_turn_started_at e, (ge_turn e, ge_event_sequence e)).
Definition py_max {A K} `{PyOrd K} (key : A -> K) (l : list A) : option A :=
  match l with
  | [] => None
  | x :: l => Some (foldl (fun best y => match py_compare (key best) (key y) with Lt => y | _ => best end) x l)
  end.

(** [Database.list_completion_gate_history]: the newest 256 gate events of the
    task in its owner scope, oldest first. *)
Definition gate_rows (task_id principal_id project_id : string) (db : TurnDb) : list (TurnRow * TurnEventRow) :=
  t ← filter (fun t => tn_task_id t = Some task_id /\ tn_principal_id t = principal_id
                       /\ tn_project_id t = project_id) (agent_turns db);
  e ← filter (fun e => te_event_type e = "completion.gated") (events_of (tn_turn_id t) db);
  [(t, e)].
Definition gate_row_key (x : TurnRow * TurnEventRow) : Time * Time * (string * Z) :=
  (te_created_at x.2, tn_started_at x.1, (tn_turn_id x.1, te_sequence x.2)).
Definition gate_record (x : TurnRow * TurnEventRow) : CompletionGateHistoryRecord :=
  let text := te_payload_json x.2 in
  let bytes := Z.of_nat (String.length text) in
  MkGateRecord (tn_turn_id x.1) (tn_attempt_id x.1) (default EmptyString (tn_task_id x.1)) (te_sequence x.2)
    (te_event_type x.2) (if bytes <=? MAX_COMPLETION_GATE_PAYLOAD_BYTES then text else EmptyString)
    (Finite (te_created_at x.2)) (Finite (tn_started_at x.1)) (Some bytes).
Definition list_completion_gate_history (task_id principal_id project_id : string) (db : TurnDb)
    : res (list CompletionGateHistoryRecord) :=
  raise_if (str_empty task_id) ValueError "task_id must be a non-empty string" ;;*
  raise_if (str_empty principal_id) ValueError "principal_id must be a non-empty string" ;;*
  let newest := take MAX_COMPLETION_GATE_HISTORY_RECORDS
                  (reverse (sorted_by gate_row_key (gate_rows task_id principal_id project_id db))) in
  Ok (gate_record <$> reverse newest).

(** ** The continuation state *)
Record CompletionRecoveryState := MkRecoveryState {
  rs_task_id : string; rs_continuation : CompletionContinuationState; rs_task_status : option string;
  rs_cognitive_state : option AgentCognitiveState; rs_control_state_version : option Z;
  rs_workspace_id : option string; rs_decision_id : option string; rs_decision_digest : option string;
  rs_decision_sequence : option Z; rs_outcome : option CompletionOutcome;
  rs_gate_status : option CompletionGateStatus; rs_reason : string
}.

Definition _require_id (value label : string) : res unit :=
  raise_if (str_empty value) ValueError (label +:+ " must be a non-empty string") ;;*
  raise_if (_MAX_ID_LENGTH <? py_len value) ValueError (label +:+ " exceeds the maximum length").
Definition require_optional_id (value : option string) (label : string) : res unit :=
  match value with Some v => _require_id v label | None => Ok tt end.

(** [CompletionRecoveryState.__post_init__] *)
Definition make_recovery_state (s : CompletionRecoveryState) : res CompletionRecoveryState :=
  _require_id (rs_task_id s) "task_id" ;;*
  require_optional_id (rs_task_status s) "task_status" ;;*
  require_optional_id (rs_workspace_id s) "workspace_id" ;;*
  require_optional_id (rs_decision_id s) "latest_decision_id" ;;*
  require_optional_id (rs_decision_digest s) "latest_decision_digest" ;;*
  raise_if (match rs_control_state_version s with Some v => v <? 0 | None => false end) ValueError
    "control_state_version must be non-negative" ;;*
  raise_if (match rs_decision_sequence s with Some n => n <? 1 | None => false end) ValueError
    "latest_decision_sequence must be positive" ;;*
  raise_if (_MAX_REASON_LENGTH <? py_len (rs_reason s)) ValueError
    "reason must be a string of at most 512 characters" ;;*
  Ok s.

(** [to_bounded_fact] *)
Definition to_bounded_fact (s : CompletionRecoveryState) : pyval :=
  PDict [("task_id", PStr (rs_task_id s)); ("latest_decision_id", opt_str (rs_decision_id s));
         ("latest_decision_digest", opt_str (rs_decision_digest s));
         ("latest_decision_sequence", match rs_decision_sequence s with Some n => PInt n | None => PNone end);
         ("continuation_state", PStr (enum_value (rs_continuation s)));
         ("decision_outcome", opt_str (enum_value <$> rs_outcome s));
         ("gate_status", opt_str (enum_value <$> rs_gate_status s))].

Definition _state (snap : CompletionEvaluationSnapshot) (c : CompletionContinuationState)
    (d : option CompletionDecision) (gate : option CompletionGateHistoryEntry) (sequence : option Z)
    (reason : string) : res CompletionRecoveryState :=
  make_recovery_state (MkRecoveryState (snap_task_id snap) c (Some (snap_task_status snap))
    (Some (snap_cognitive_state snap)) (Some (snap_control_state_version snap)) (snap_workspace_id snap)
    (decision_id <$> d) (decision_digest <$> d) sequence ((fun d => outcome (dec_body d)) <$> d)
    (ge_gate_status <$> gate) reason).
Definition _integrity_state (task_id reason : string) (snap : option CompletionEvaluationSnapshot)
    (d : option CompletionDecision) (sequence : option Z) : res CompletionRecoveryState :=
  make_recovery_state (MkRecoveryState task_id CC_INTEGRITY_ERROR (snap_task_status <$> snap)
    (snap_cognitive_state <$> snap) (snap_control_state_version <$> snap) (snap ≫= snap_workspace_id)
    (decision_id <$> d) (decision_digest <$> d) sequence ((fun d => outcome (dec_body d)) <$> d) None reason).

(** ** The resolver *)
Definition _decision_matches_snapshot (d : CompletionDecision) (snap : CompletionEvaluationSnapshot) : bool :=
  let b := dec_body d in
  bool_decide (task_id b = snap_task_id snap) && bool_decide (goal_spec_id b = snap_goal_spec_id snap)
  && bool_decide (goal_spec_digest b = snap_goal_spec_digest snap)
  && bool_decide (cognitive_state b = snap_cognitive_state snap)
  && (control_state_version b =? snap_control_state_version snap)
  && bool_decide (task_status_at_evaluation b = snap_task_status snap)
  && bool_decide (workspace_id b = snap_workspace_id snap).
Definition _gate_matches_decision (g : CompletionGateHistoryEntry) (d : CompletionDecision) : bool :=
  bool_decide (ge_task g = task_id (dec_body d)) && bool_decide (ge_decision_id g = decision_id d)
  && bool_decide (ge_decision_digest g = Some (decision_digest d)).

Definition terminal_state (status : string) : option CompletionContinuationState :=
  if bool_decide (status = "completed") then Some CC_TERMINAL_COMPLETED
  else if bool_decide (status = "failed") then Some CC_TERMINAL_FAILED
  else if bool_decide (status = "cancelled") then Some CC_TERMINAL_CANCELLED
  else None.

(** [CompletionRecoveryResolver.resolve]; the latest decision comes with its
    sequence number when it is a stored one. *)
Definition resolve (snap : CompletionEvaluationSnapshot) (latest : option (CompletionDecision * option Z))
    (gate : option CompletionGateHistoryEntry) : res CompletionRecoveryState :=
  if negb (str_in (snap_task_status snap) _TASK_STATUSES) then
    _integrity_state (snap_task_id snap) "durable task status is invalid" (Some snap) None None
  else match terminal_state (snap_task_status snap) with
  | Some c => _state snap c None None None EmptyString
  | None =>
      match latest with
      | None => _state snap CC_NO_DECISION None None None EmptyString
      | Some (d, sequence) =>
          let b := dec_body d in
          if neq_s (task_id b) (snap_task_id snap) then
            _integrity_state (snap_task_id snap) "latest completion decision task binding is invalid"
              (Some snap) None None
          else if neq_s (goal_spec_id b) (snap_goal_spec_id snap)
                  || neq_s (goal_spec_digest b) (snap_goal_spec_digest snap) then
            _integrity_state (snap_task_id snap) "latest completion decision GoalSpec binding is invalid"
              (Some snap) (Some d) None
          else match outcome b with
          | REPLAN => _state snap CC_REPLAN_REQUIRED (Some d) None sequence EmptyString
          | BLOCKED => _state snap CC_EXTERNAL_BLOCKED (Some d) None sequence EmptyString
          | FAILED => _state snap CC_FAILURE_REVIEW_REQUIRED (Some d) None sequence EmptyString
          | COMPLETE =>
              if negb (_decision_matches_snapshot d snap) then
                _state snap CC_REEVALUATION_REQUIRED (Some d) gate sequence "completion decision snapshot is stale"
              else match gate with
              | Some g =>
                  if negb (_gate_matches_decision g d) then
                    _state snap CC_REEVALUATION_REQUIRED (Some d) None sequence
                      "no current gate result is bound to the decision"
                  else if bool_decide (ge_gate_status g = G_AUTHORITY_INSUFFICIENT) then
                    _state snap CC_AUTHORITY_REQUIRED (Some d) gate sequence EmptyString
                  else _state snap CC_REEVALUATION_REQUIRED (Some d) gate sequence
                         "completion decision has no replayable continuation authority"
              | None => _state snap CC_REEVALUATION_REQUIRED (Some d) None sequence
                          "no current gate result is bound to the decision"
              end
          end
      end
  end.

(** ** The service

    What each read port answers for the task, at the moment it is asked. *)
Record RecoveryPorts := MkPorts {
  read_goal : res (option GoalSpec);
  read_snapshot : GoalSpec -> res (option CompletionEvaluationSnapshot);
  read_latest : res (option StoredCompletionDecision);
  read_history : res (list CompletionGateHistoryRecord)
}.

Definition _latest_gate_for_decision (entries : list CompletionGateHistoryEntry)
    (stored : option StoredCompletionDecision) : option CompletionGateHistoryEntry :=
  match stored with
  | None => None
  | Some s => py_max ordering_key (List.filter (fun e => _gate_matches_decision e (st_decision s)) entries)
  end.

(** The decoding loop: the decoded entries, [None] when a record is malformed. *)
Definition decode_history (records : list CompletionGateHistoryRecord)
    : res (option (list CompletionGateHistoryEntry)) :=
  let* decoded := res_map from_record records in
  Ok (if forallb (fun o => bool_decide (is_Some o)) decoded then Some (omap id decoded) else None).

Definition integrity_result (task_id reason : string) : res (option CompletionRecoveryState) :=
  let* s := _integrity_state task_id reason None None None in Ok (Some s).

(** [CompletionRecoveryService.recover] *)
Definition recover (ports : RecoveryPorts) (task_id : string) : res (option CompletionRecoveryState) :=
  _require_id task_id "task_id" ;;*
  match read_goal ports with
  | Raise _ => integrity_result task_id "canonical GoalSpec read failed"
  | Ok None => Ok None
  | Ok (Some goal) =>
      match read_snapshot ports goal with
      | Raise e =>
          integrity_result task_id
            (if isinstance (exn_cls e) CompletionDecisionRepositoryError
             then "current task snapshot failed integrity" else "current task snapshot read failed")
      | Ok None => Ok None
      | Ok (Some snap) =>
          if str_in (snap_task_status snap) _TERMINAL_TASK_STATUSES then
            let* s := resolve snap None None in Ok (Some s)
          else match read_latest ports with
          | Raise e =>
              integrity_result task_id
                (if isinstance (exn_cls e) CompletionDecisionRepositoryError
                 then "latest completion decision failed integrity" else "latest completion decision read failed")
          | Ok latest =>
              match read_history ports with
              | Raise _ => integrity_result task_id "completion gate history read failed"
              | Ok records =>
                  let* entries := decode_history records in
                  let gate := match entries with Some l => _latest_gate_for_decision l latest | None => None end in
                  let* s := resolve snap ((fun s => (st_decision s, Some (st_decision_sequence s))) <$> latest) gate in
                  Ok (Some s)
              end
          end
      end
  end.

(** The production ports: the repositories and the turn ledger. *)
Record RecoveryViews := MkRecoveryViews { rv_goal : Db; rv_snapshot : Db; rv_latest : Db; rv_turns : TurnDb }.
Definition database_ports (task_id principal_id project_id : string) (v : RecoveryViews) : RecoveryPorts :=
  MkPorts (goal_get_for_task task_id principal_id project_id (rv_goal v))
    (fun g => read_current_task_snapshot (rv_snapshot v) task_id principal_id project_id g)
    (get_latest_for_task task_id principal_id project_id (rv_latest v))
    (list_completion_gate_history task_id principal_id project_id (rv_turns v)).

(** ** The newest event *)
Lemma py_max_fold {A K} `{PyOrdLaws K} (key : A -> K) l : forall x,
  let m := foldl (fun best y => match py_compare (key best) (key y) with Lt => y | _ => best end) x l in
  (m = x \/ m ∈ l) /\ py_leb (key x) (key m) = true /\ Forall (fun y => py_leb (key y) (key m) = true) l.
Proof.
  induction l as [|y l IH]; intros x; cbn [foldl].
  - split_and!; [by left|apply py_leb_refl|constructor].
  - set (b := match py_compare (key x) (key y) with Lt => y | _ => x end).
    assert (py_leb (key x) (key b) = true /\ py_leb (key y) (key b) = true /\ (b = x \/ b = y)) as (Hx & Hy & Hb).
    { subst b. destruct (py_compare (key x) (key y)) eqn:E; split_and!; auto using py_leb_refl.
      - unfold py_leb. rewrite py_compare_opp, E. done.
      - unfold py_leb. by rewrite E.
      - unfold py_leb. rewrite py_compare_opp, E. done. }
    clearbody b. destruct (IH b) as (Hm & Hbm & HF). split_and!.
    + destruct Hm as [->|Hm]; [destruct Hb as [->| ->]; [by left|right; left]|right; by right].
    + by eapply py_leb_trans.
    + constructor; [by eapply py_leb_trans|done].
Qed.
Lemma py_max_Some {A K} `{PyOrdLaws K} (key : A -> K) l x : py_max key l = Some x ->
  x ∈ l /\ Forall (fun y => py_leb (key y) (key x) = true) l.
Proof.
  destruct l as [|y l]; [done|]. cbn [py_max]. intros [= <-].
  destruct (py_max_fold key l y) as (Hm & Hy & HF). split; [|by constructor].
  destruct Hm as [->|Hm]; [left|by right].
Qed.
(** With distinct keys the newest one does not depend on the order. *)
Lemma py_max_perm {A K} `{PyOrdLaws K} (key : A -> K) l l' :
  NoDup (key <$> l) -> l ≡ₚ l' -> py_max key l = py_max key l'.
Proof.
  intros Hnd Hp. destruct (py_max key l) as [x|] eqn:E, (py_max key l') as [y|] eqn:E'.
  - apply py_max_Some in E as [Hx HF], E' as [Hy HF']. f_equal.
    apply (fmap_nodup_inj key l); [done..|by rewrite Hp|].
    apply py_leb_antisym.
    + rewrite Forall_forall in HF'. apply HF'. by rewrite <-Hp.
    + rewrite Forall_forall in HF. apply HF. by rewrite Hp.
  - destruct l'; [|done]. symmetry in Hp. apply Permutation_nil in Hp. by subst.
  - destruct l; [|done]. apply Permutation_nil in Hp. by subst.
  - done.
Qed.

(** ** Totality *)
Lemma require_id_ok v label : id_ok v = true -> _require_id v label = Ok tt.
Proof.
  unfold id_ok, _require_id. intros [H1%negb_true_iff H2]%andb_true_iff. rewrite H1. cbn [raise_if res_bind].
  by rewrite raise_if_false by lia.
Qed.
Lemma require_id_bad v label : (v = "" \/ _MAX_ID_LENGTH < py_len v) ->
  exists m, _require_id v label = Raise (Exn ValueError m).
Proof.
  unfold _require_id. intros Hv. destruct (str_empty v) eqn:E; [by eexists|].
  destruct Hv as [-> |Hv]; [done|]. cbn [raise_if res_bind].
  replace (_MAX_ID_LENGTH <? py_len v) with true by lia. by eexists.
Qed.
Lemma require_optional_id_ok v label : opt_id_ok v = true -> require_optional_id v label = Ok tt.
Proof. destruct v; [apply require_id_ok|done]. Qed.

Definition state_ok (s : CompletionRecoveryState) : Prop :=
  id_ok (rs_task_id s) = true /\ opt_id_ok (rs_task_status s) = true /\ opt_id_ok (rs_workspace_id s) = true /\
  opt_id_ok (rs_decision_id s) = true /\ opt_id_ok (rs_decision_digest s) = true /\
  (forall v, rs_control_state_version s = Some v -> 0 <= v) /\
  (forall n, rs_decision_sequence s = Some n -> 1 <= n) /\ py_len (rs_reason s) <= _MAX_REASON_LENGTH.
Lemma make_recovery_state_ok s : state_ok s -> make_recovery_state s = Ok s.
Proof.
  intros (H1 & H2 & H3 & H4 & H5 & H6 & H7 & H8). unfold make_recovery_state.
  rewrite require_id_ok, !require_optional_id_ok by done. cbn [res_bind].
  rewrite !raise_if_false; [done|lia| |].
  - destruct (rs_decision_sequence s); [|done]. specialize (H7 _ eq_refl). lia.
  - destruct (rs_control_state_version s); [|done]. specialize (H6 _ eq_refl). lia.
Qed.

(** What [StoredCompletionDecision] objects satisfy. *)
Definition stored_ok (s : StoredCompletionDecision) : Prop :=
  id_ok (decision_id (st_decision s)) = true /\ is_sha256_hex (decision_digest (st_decision s)) = true /\
  1 <= st_decision_sequence s.
Lemma hex_id_ok s : is_sha256_hex s = true -> id_ok s = true.
Proof.
  intros H. unfold id_ok. rewrite sha256_hex_nonempty, sha256_hex_len by done. done.
Qed.

(** [_state] and [_integrity_state] always build the state for valid parts. *)
Definition decision_part_ok (d : option CompletionDecision) (sequence : option Z) : Prop :=
  (forall x, d = Some x -> id_ok (decision_id x) = true /\ is_sha256_hex (decision_digest x) = true) /\
  (forall n, sequence = Some n -> 1 <= n).
Lemma state_built snap c d gate sequence reason :
  snapshot_ok snap -> decision_part_ok d sequence -> py_len reason <= _MAX_REASON_LENGTH ->
  exists s, _state snap c d gate sequence reason = Ok s /\ rs_continuation s = c /\ rs_task_id s = snap_task_id snap.
Proof.
  intros (H1 & H2 & H3 & H4 & H5)%snapshot_ok_fields [Hd Hs] Hr. unfold _state.
  rewrite make_recovery_state_ok; [by eexists|]. split_and!; cbn; try done.
  - destruct d as [x|]; [|done]. by apply Hd.
  - destruct d as [x|]; [|done]. by apply hex_id_ok, (Hd x).
  - by intros v [= <-].
Qed.
Lemma integrity_built t reason snap d sequence :
  id_ok t = true -> (forall x, snap = Some x -> snapshot_ok x) -> decision_part_ok d sequence ->
  py_len reason <= _MAX_REASON_LENGTH ->
  exists s, _integrity_state t reason snap d sequence = Ok s /\ rs_continuation s = CC_INTEGRITY_ERROR.
Proof.
  intros Ht Hsn [Hd Hs] Hr. unfold _integrity_state.
  rewrite make_recovery_state_ok; [by eexists|]. destruct snap as [x|].
  - destruct (snapshot_ok_fields x) as (H1 & H2 & H3 & H4 & H5); [auto|].
    split_and!; cbn; try done.
    + destruct d as [y|]; [|done]. by apply Hd.
    + destruct d as [y|]; [|done]. by apply hex_id_ok, (Hd y).
    + by intros v [= <-].
  - split_and!; cbn; try done.
    + destruct d as [y|]; [|done]. by apply Hd.
    + destruct d as [y|]; [|done]. by apply hex_id_ok, (Hd y).
Qed.
Lemma no_decision_part : decision_part_ok None None.
Proof. split; done. Qed.
#[local] Hint Resolve no_decision_part : core.

Lemma terminal_state_in s c : terminal_state s = Some c -> s ∈ _TERMINAL_TASK_STATUSES.
Proof.
  unfold terminal_state, _TERMINAL_TASK_STATUSES. repeat case_bool_decide; subst; set_solver.
Qed.
Lemma terminal_state_None s : terminal_state s = None -> s ∉ _TERMINAL_TASK_STATUSES.
Proof.
  unfold terminal_state, _TERMINAL_TASK_STATUSES. repeat case_bool_decide; try done. intros _. set_solver.
Qed.

(** What the continuation of a live task is, in terms of its history head. *)
Definition continuation_of (snap : CompletionEvaluationSnapshot) (latest : option CompletionDecision)
    (gate : option CompletionGateHistoryEntry) : CompletionContinuationState :=
  match latest with
  | None => CC_NO_DECISION
  | Some d =>
      if bool_decide (task_id (dec_body d) = snap_task_id snap /\
                      goal_spec_id (dec_body d) = snap_goal_spec_id snap /\
                      goal_spec_digest (dec_body d) = snap_goal_spec_digest snap) then
        match outcome (dec_body d) with
        | REPLAN => CC_REPLAN_REQUIRED
        | BLOCKED => CC_EXTERNAL_BLOCKED
        | FAILED => CC_FAILURE_REVIEW_REQUIRED
        | COMPLETE =>
            if _decision_matches_snapshot d snap &&
               match gate with
               | Some g => _gate_matches_decision g d && bool_decide (ge_gate_status g = G_AUTHORITY_INSUFFICIENT)
               | None => false end
            then CC_AUTHORITY_REQUIRED else CC_REEVALUATION_REQUIRED
        end
      else CC_INTEGRITY_ERROR
  end.
Definition resolved (snap : CompletionEvaluationSnapshot) (latest : option CompletionDecision)
    (gate : option CompletionGateHistoryEntry) : CompletionContinuationState :=
  if str_in (snap_task_status snap) _TASK_STATUSES then
    match terminal_state (snap_task_status snap) with
    | Some c => c
    | None => continuation_of snap latest gate
    end
  else CC_INTEGRITY_ERROR.

Lemma resolve_spec snap latest gate : snapshot_ok snap ->
  (forall x, latest = Some x -> decision_part_ok (Some x.1) x.2) ->
  exists s, resolve snap latest gate = Ok s /\ rs_continuation s = resolved snap (fst <$> latest) gate.
Proof.
  intros Hs Hl. pose proof Hs as (Hid & _)%snapshot_ok_fields. unfold resolve, resolved, continuation_of.
  assert (Hst : forall c d g n reason, decision_part_ok d n -> py_len reason <= _MAX_REASON_LENGTH ->
    exists s, _state snap c d g n reason = Ok s /\ rs_continuation s = c).
  { intros c d g n reason Hd Hr. destruct (state_built snap c d g n reason Hs Hd Hr) as (s & ? & ? & _). by exists s. }
  assert (Hin : forall reason d, decision_part_ok d None -> py_len reason <= _MAX_REASON_LENGTH ->
    exists s, _integrity_state (snap_task_id snap) reason (Some snap) d None = Ok s /\
      rs_continuation s = CC_INTEGRITY_ERROR).
  { intros reason d Hd Hr. apply integrity_built; [done| |done..]. by intros x [= <-]. }
  destruct (str_in _ _TASK_STATUSES); cbn [negb]; [|by apply Hin; [auto|vm_compute]].
  destruct (terminal_state _) as [c|]; [by apply Hst; [auto|vm_compute]|].
  destruct latest as [[d n]|]; cbn [fmap option_fmap option_map fst]; [|by apply Hst; [auto|vm_compute]].
  specialize (Hl _ eq_refl). cbn [fst snd] in Hl.
  assert (Hl' : decision_part_ok (Some d) None) by (split; [apply Hl|done]).
  destruct (neq_s (task_id (dec_body d)) _) eqn:E1.
  { rewrite bool_decide_false; [by apply Hin; [auto|vm_compute]|]. intros (E & _ & _).
    by rewrite (proj2 (neq_s_false _ _) E) in E1. }
  apply neq_s_false in E1. destruct (neq_s (goal_spec_id _) _ || neq_s _ _) eqn:E2.
  { rewrite bool_decide_false; [by apply Hin; [auto|vm_compute]|]. intros (_ & E3 & E4).
    by rewrite (proj2 (neq_s_false _ _) E3), (proj2 (neq_s_false _ _) E4) in E2. }
  apply orb_false_iff in E2 as [E2%neq_s_false E3%neq_s_false]. rewrite bool_decide_true by done.
  destruct (outcome (dec_body d)); try (by apply Hst; [auto|vm_compute]).
  destruct (_decision_matches_snapshot d snap); cbn [negb andb]; [|by apply Hst; [auto|vm_compute]].
  destruct gate as [g|]; [|by apply Hst; [auto|vm_compute]].
  destruct (_gate_matches_decision g d); cbn [negb andb]; [|by apply Hst; [auto|vm_compute]].
  case_bool_decide; by apply Hst; [auto|vm_compute].
Qed.

(** ** The service *)
Lemma none_if_total {B} c (k : res (option B)) : (exists o, k = Ok o) -> exists o, none_if c k = Ok o.
Proof. intros H. unfold none_if. destruct c; [by exists None|done]. Qed.
Lemma bind_opt_total {A B} (m : option A) (f : A -> res (option B)) :
  (forall a, exists o, f a = Ok o) -> exists o, bind_opt m f = Ok o.
Proof. intros H. destruct m; [apply H|by exists None]. Qed.
Lemma decode_gate_payload_total r c s d : exists o, decode_gate_payload r c s d = Ok o.
Proof.
  unfold decode_gate_payload. cbv zeta.
  repeat first [apply none_if_total | apply bind_opt_total; intros ?].
  destruct (enum_of _); by eexists.
Qed.
Lemma from_record_total r : has_surrogate (gr_payload_json r) = false -> exists o, from_record r = Ok o.
Proof.
  intros Hs. unfold from_record, encode_utf8. rewrite Hs. cbn [raise_if res_bind].
  do 4 apply none_if_total. destruct (gr_payload_bytes r) as [n|]; cbn [res_bind];
  do 3 apply none_if_total; (destruct (gr_created_at r) as [c|], (gr_turn_started_at r) as [st|]; try (by exists None));
  pose proof (loads_error (gr_payload_json r)) as He;
  (destruct (loads _ _ _) as [v|e]; cbn [res_bind try_except];
    [destruct v; try (by exists None); apply decode_gate_payload_total|]);
  cbn in He; rewrite He; by exists None.
Qed.

(** What the ports promise about the objects they return: constructed values,
    and texts that came out of the database. *)
Record ports_ok (ports : RecoveryPorts) : Prop := {
  po_snapshot : forall g s, read_snapshot ports g = Ok (Some s) -> snapshot_ok s;
  po_latest : forall s, read_latest ports = Ok (Some s) -> stored_ok s;
  po_history : forall l, read_history ports = Ok l ->
    Forall (fun r => has_surrogate (gr_payload_json r) = false) l
}.

Lemma decode_history_total l : Forall (fun r => has_surrogate (gr_payload_json r) = false) l ->
  exists o, decode_history l = Ok o.
Proof.
  intros H. unfold decode_history. assert (exists ds, res_map from_record l = Ok ds) as [ds ->]; [|by eexists].
  induction H as [|r l Hr _ [ds IH]]; [by exists []|]. destruct (from_record_total r Hr) as [o Ho].
  exists (o :: ds). cbn [res_map]. by rewrite Ho, IH.
Qed.

Definition newest_gate (records : list CompletionGateHistoryRecord) (latest : option StoredCompletionDecision)
    : option CompletionGateHistoryEntry :=
  match decode_history records with Ok (Some l) => _latest_gate_for_decision l latest | _ => None end.
(** The continuation [recover] reports, as a function of what the ports answer. *)
Definition reference (ports : RecoveryPorts) : option CompletionContinuationState :=
  match read_goal ports with
  | Raise _ => Some CC_INTEGRITY_ERROR
  | Ok None => None
  | Ok (Some g) =>
      match read_snapshot ports g with
      | Raise _ => Some CC_INTEGRITY_ERROR
      | Ok None => None
      | Ok (Some snap) =>
          if str_in (snap_task_status snap) _TERMINAL_TASK_STATUSES then Some (resolved snap None None)
          else match read_latest ports, read_history ports with
          | Ok latest, Ok records => Some (resolved snap (st_decision <$> latest) (newest_gate records latest))
          | _, _ => Some CC_INTEGRITY_ERROR
          end
      end
  end.

Lemma recover_reference ports t : id_ok t = true -> ports_ok ports ->
  exists o, recover ports t = Ok o /\ rs_continuation <$> o = reference ports.
Proof.
  intros Ht [Hsnap Hlatest Hhist]. unfold recover, reference. rewrite require_id_ok by done. cbn [res_bind].
  assert (Hint : forall reason, py_len reason <= _MAX_REASON_LENGTH ->
    exists o, integrity_result t reason = Ok o /\ rs_continuation <$> o = Some CC_INTEGRITY_ERROR).
  { intros reason Hr. unfold integrity_result.
    destruct (integrity_built t reason None None None) as (s & -> & Hc); [done..| |done|]; [apply no_decision_part|].
    eexists. split; [done|]. cbn. by rewrite Hc. }
  destruct (read_goal ports) as [[g|]|e]; [|by exists None|by apply Hint; vm_compute].
  destruct (read_snapshot ports g) as [[snap|]|e] eqn:Es;
    [|by exists None|by apply Hint; destruct (isinstance _ _); vm_compute].
  pose proof (Hsnap _ _ Es) as Hok. destruct (str_in _ _TERMINAL_TASK_STATUSES).
  { destruct (resolve_spec snap None None Hok) as (s & -> & Hc); [done|]. eexists. split; [done|]. cbn. by rewrite Hc. }
  destruct (read_latest ports) as [latest|e]; [|by apply Hint; destruct (isinstance _ _); vm_compute].
  destruct (read_history ports) as [records|e]; [|by apply Hint; vm_compute].
  unfold newest_gate. destruct (decode_history_total records) as [o Ho]; [by apply Hhist|]. rewrite Ho. cbn [res_bind].
  destruct (resolve_spec snap ((fun s => (st_decision s, Some (st_decision_sequence s))) <$> latest)
    (match o with Some l => _latest_gate_for_decision l latest | None => None end) Hok) as (s & -> & Hc).
  { intros x Hx. destruct latest as [st|]; [|done]. injection Hx as <-.
    destruct (Hlatest st eq_refl) as (H1 & H2 & H3). split; [by intros y [= <-]|by intros n [= <-]]. }
  eexists. split; [done|]. cbn [fmap option_fmap option_map]. rewrite Hc. do 2 f_equal. by destruct latest.
Qed.

(** C35. Recovery fails closed: a task id that is empty or over the length limit is
    refused with ValueError before any port is read; for any other id, and ports
    that either raise or return constructed snapshots and decisions and gate
    payloads that encode as UTF-8 ([ports_ok]), recovery returns.  It returns
    nothing only when the goal or the task snapshot is not in the owner scope, and
    a read that raises gives INTEGRITY_ERROR instead of an older or more permissive
    answer (the decision and gate history are read for tasks that are not
    terminal). *)
Theorem recover_fails_closed ports t : ports_ok ports ->
  ((t = "" \/ _MAX_ID_LENGTH < py_len t) -> exists m, recover ports t = Raise (Exn ValueError m)) /\
  (t <> "" -> py_len t <= _MAX_ID_LENGTH -> exists o, recover ports t = Ok o /\
    (o = None -> read_goal ports = Ok None \/ exists g, read_goal ports = Ok (Some g) /\ read_snapshot ports g = Ok None) /\
    forall s, o = Some s ->
      (is_ok (read_goal ports) = false -> rs_continuation s = CC_INTEGRITY_ERROR) /\
      forall g, read_goal ports = Ok (Some g) ->
        (is_ok (read_snapshot ports g) = false -> rs_continuation s = CC_INTEGRITY_ERROR) /\
        forall snap, read_snapshot ports g = Ok (Some snap) -> (snap_task_status snap ∉ _TERMINAL_TASK_STATUSES) ->
          is_ok (read_latest ports) = false \/ is_ok (read_history ports) = false ->
          rs_continuation s = CC_INTEGRITY_ERROR).
Proof.
  intros Hp. split; [intros Hbad; unfold recover; by destruct (require_id_bad t "task_id" Hbad) as [m ->]; eexists|].
  intros Hne Hlen. assert (Ht : id_ok t = true).
  { unfold id_ok. rewrite (proj2 (str_empty_false t) Hne). cbn [negb andb]. lia. }
  destruct (recover_reference ports t Ht Hp) as (o & -> & Ho). exists o. split; [done|].
  unfold reference in Ho. split.
  - intros ->. cbn in Ho. destruct (read_goal ports) as [[g|]|e]; [|by left|done]. right. exists g. split; [done|].
    destruct (read_snapshot ports g) as [[snap|]|e]; [|done..].
    destruct (str_in _ _); [done|]. by destruct (read_latest ports), (read_history ports).
  - intros s ->. cbn in Ho. split.
    + destruct (read_goal ports); [done|]. by injection Ho.
    + intros g Hg. rewrite Hg in Ho. split.
      * destruct (read_snapshot ports g); [done|]. by injection Ho.
      * intros snap Hs Hn. rewrite Hs in Ho. apply str_in_false in Hn. rewrite Hn in Ho.
        destruct (read_latest ports), (read_history ports); cbn; intros [|]; try done; by injection Ho.
Qed.

Lemma decode_history_Some records l : decode_history records = Ok (Some l) ->
  res_map from_record records = Ok (Some <$> l).
Proof.
  unfold decode_history. intros H. apply res_bind_Ok in H as (ds & -> & H). f_equal.
  destruct (forallb _ ds) eqn:E; [|done]. injection H as <-. apply forallb_Forall_true in E.
  induction E as [|o ds Ho _ IH]; [done|]. apply bool_decide_eq_true in Ho as [e ->]. cbn. by rewrite <-IH.
Qed.

(** No replay of old gate results: recovery asks for completion authority only
    when the newest decision of the live task is COMPLETE and still matches the
    task, its goal and its workspace, every gate event of the history decodes, and
    the newest event bound to that very decision (identity and digest) said the
    authority was insufficient. *)
Theorem authority_required_current ports t s : id_ok t = true -> ports_ok ports ->
  recover ports t = Ok (Some s) -> rs_continuation s = CC_AUTHORITY_REQUIRED ->
  exists g snap stored records entries e,
    read_goal ports = Ok (Some g) /\ read_snapshot ports g = Ok (Some snap) /\
    (snap_task_status snap ∉ _TERMINAL_TASK_STATUSES) /\
    read_latest ports = Ok (Some stored) /\ outcome (dec_body (st_decision stored)) = COMPLETE /\
    _decision_matches_snapshot (st_decision stored) snap = true /\
    read_history ports = Ok records /\ res_map from_record records = Ok (Some <$> entries) /\
    e ∈ entries /\ _gate_matches_decision e (st_decision stored) = true /\
    ge_gate_status e = G_AUTHORITY_INSUFFICIENT /\
    forall e', e' ∈ entries -> _gate_matches_decision e' (st_decision stored) = true ->
      py_leb (ordering_key e') (ordering_key e) = true.
Proof.
  intros Ht Hp Hrec Hc. destruct (recover_reference ports t Ht Hp) as (o & Hr & Ho). rewrite Hrec in Hr.
  injection Hr as <-. cbn in Ho. rewrite Hc in Ho. unfold reference in Ho.
  destruct (read_goal ports) as [[g|]|x] eqn:Eg; [|done..].
  destruct (read_snapshot ports g) as [[snap|]|x] eqn:Es; [|done..].
  destruct (str_in _ _TERMINAL_TASK_STATUSES) eqn:Et.
  { injection Ho as Ho. unfold resolved in Ho. destruct (str_in _ _TASK_STATUSES); [|done].
    apply str_in_true in Et. destruct (terminal_state _) as [c|] eqn:E; [|by apply terminal_state_None in E].
    unfold terminal_state in E. repeat case_bool_decide; congruence. }
  apply str_in_false in Et. destruct (read_latest ports) as [latest|x] eqn:El; [|done].
  destruct (read_history ports) as [records|x] eqn:Eh; [|done]. injection Ho as Ho. unfold resolved in Ho.
  destruct (str_in _ _TASK_STATUSES); [|done].
  destruct (terminal_state _) as [c|] eqn:E; [by apply terminal_state_in in E|].
  unfold continuation_of in Ho. destruct latest as [stored|]; [|done]. cbn [fmap option_fmap option_map] in Ho.
  destruct (bool_decide _); [|done]. destruct (outcome _) eqn:Eo; try done.
  destruct (_decision_matches_snapshot _ _) eqn:Em; [|done]. cbn [andb] in Ho.
  destruct (newest_gate records (Some stored)) as [e|] eqn:En; [|done].
  destruct (_gate_matches_decision e _) eqn:Egm; [|done]. cbn [andb] in Ho. case_bool_decide as Est; [|done].
  unfold newest_gate in En. destruct (decode_history records) as [[l|]|] eqn:Ed; [|done..].
  apply decode_history_Some in Ed. cbn [_latest_gate_for_decision] in En. apply py_max_Some in En as [Hin HF].
  apply list_elem_of_In, List.filter_In in Hin as [Hin _]. apply list_elem_of_In in Hin.
  exists g, snap, stored, records, l, e. split_and!; try done.
  intros e' He' Hm. rewrite Forall_forall in HF. apply HF, list_elem_of_In, List.filter_In.
  split; [by apply list_elem_of_In|done].
Qed.

(** ** Gate events come out of the ledger as ASCII text *)
Lemma hex_digit_ascii d : 0 <= d < 16 -> is_ascii (hex_digit d) = true.
Proof.
  intros H. assert (d = 0 \/ d = 1 \/ d = 2 \/ d = 3 \/ d = 4 \/ d = 5 \/ d = 6 \/ d = 7 \/ d = 8 \/ d = 9 \/
    d = 10 \/ d = 11 \/ d = 12 \/ d = 13 \/ d = 14 \/ d = 15) as Hd by lia.
  repeat (destruct Hd as [->|Hd]; [reflexivity|]). by subst.
Qed.
Lemma u_escape_ascii n s : 0 <= n < 65536 -> string_forallb is_ascii s = true ->
  string_forallb is_ascii (u_escape n +:+ s) = true.
Proof.
  intros Hn Hs. unfold u_escape. cbn [String.append string_forallb].
  rewrite !hex_digit_ascii, Hs; [done|..]; split; try (apply Z.mod_pos_bound; lia);
    try (apply Z.div_pos; lia); try (apply Z.div_lt_upper_bound; lia).
Qed.
Lemma ascii_text_ascii s : string_forallb is_ascii (ascii_text s) = true.
Proof.
  remember (String.length s) as n eqn:Hn. assert (String.length s <= n)%nat as Hle by lia. clear Hn.
  revert s Hle. induction n as [|n IH]; intros s Hle; (destruct s as [|a r]; [done|]); simpl in Hle; [lia|].
  cbn [ascii_text]. pose proof (byte_range a) as Ha.
  assert (Hm : forall c, 0 <= continuation c < 64) by (intros c; apply Z.mod_pos_bound; lia).
  destruct (byte a <? 127) eqn:E1.
  { cbn [string_forallb]. rewrite IH by lia. unfold is_ascii. by replace (byte a <? 128) with true by lia. }
  destruct (byte a <? 192) eqn:E2; [apply u_escape_ascii; [lia|apply IH; lia]|].
  pose proof (Z.mod_pos_bound (byte a) 32). pose proof (Z.mod_pos_bound (byte a) 16). pose proof (Z.mod_pos_bound (byte a) 8).
  destruct (byte a <? 224).
  { destruct r as [|b r']; [done|]. simpl in Hle. pose proof (Hm b). apply u_escape_ascii; [lia|apply IH; lia]. }
  destruct (byte a <? 240).
  { destruct r as [|b [|c r']]; [done..|]. simpl in Hle. pose proof (Hm b). pose proof (Hm c).
    apply u_escape_ascii; [lia|apply IH; lia]. }
  destruct r as [|b [|c [|d r']]]; [done..|]. simpl in Hle. pose proof (Hm b). pose proof (Hm c). pose proof (Hm d).
  set (k := _ - 65536). assert (-65536 <= k < 2097152) as Hk by (subst k; lia).
  pose proof (Z.mod_pos_bound k 1024). assert (-64 <= k / 1024 < 2048) as Hq
    by (split; [apply Z.div_le_lower_bound; lia|apply Z.div_lt_upper_bound; lia]).
  apply u_escape_ascii; [lia|]. apply u_escape_ascii; [lia|apply IH; lia].
Qed.
Lemma history_no_surrogate t p j db l : list_completion_gate_history t p j db = Ok l ->
  Forall (fun r => has_surrogate (gr_payload_json r) = false) l.
Proof.
  unfold list_completion_gate_history. intros H. apply res_bind_Ok in H as (? & _ & H).
  apply res_bind_Ok in H as (? & _ & [= <-]). apply Forall_fmap, Forall_true. intros y. cbn.
  destruct (_ <=? _); [|done]. apply ascii_no_surrogate, ascii_text_ascii.
Qed.

(** ** Concrete ports *)
Definition some_hex : string := "0304523efff53f243d76dc81b7c271f922292543cead846ee714f066c3331e5f".
Definition complete_decision : CompletionDecision :=
  MkDecision "d1" (MkBody 1 "t1" "g1" some_hex COMPLETION_CHECK 4 "running" (Some "w1") COMPLETE [] [] [] []) some_hex.
Definition live_snapshot : CompletionEvaluationSnapshot :=
  MkEvalSnapshot "t1" "g1" some_hex COMPLETION_CHECK 4 "running" (Some "w1").
Definition gate_payload (status : CompletionGateStatus) : pyval :=
  PDict [("task_id", PStr "t1"); ("decision_id", PStr "d1"); ("decision_digest", PStr some_hex);
         ("gate_status", PStr (enum_value status)); ("resulting_task_status", PStr "running")].
Definition gate_event (status : CompletionGateStatus) (sequence : Z) (created : Time) : CompletionGateHistoryRecord :=
  MkGateRecord "turn-1" "a1" "t1" sequence "completion.gated" (json_dumps_sorted (gate_payload status))
    (Finite created) (Finite 1) None.
(** The older event is a rejection, the newer one a missing authority. *)
Definition sample_ports : RecoveryPorts :=
  MkPorts (Ok (Some sample_goal)) (fun _ => Ok (Some live_snapshot))
    (Ok (Some (MkStored complete_decision 1 "alice" "p1" "now")))
    (Ok [gate_event G_AUTHORITY_INSUFFICIENT 3 20; gate_event G_REJECTED 2 10]).

Lemma sample_ports_ok : ports_ok sample_ports.
Proof.
  split.
  - intros g s [= <-]. vm_compute. reflexivity.
  - intros s [= <-]. split_and!; done.
  - intros l [= <-]. repeat constructor.
Qed.

Definition failing_ports : RecoveryPorts :=
  MkPorts (read_goal sample_ports) (read_snapshot sample_ports)
    (Raise (Exn CompletionDecisionIntegrityError "stored payload is invalid")) (read_history sample_ports).
Lemma failing_ports_ok : ports_ok failing_ports.
Proof. split; [apply sample_ports_ok|discriminate|apply sample_ports_ok]. Qed.

Example recover_fails_closed_witness :
  (exists m, recover failing_ports "" = Raise (Exn ValueError m)) /\
  exists s, recover failing_ports "t1" = Ok (Some s) /\ rs_continuation s = CC_INTEGRITY_ERROR.
Proof.
  split; [apply (recover_fails_closed failing_ports ""); [exact failing_ports_ok|left; reflexivity]|].
  destruct (recover_fails_closed failing_ports "t1" failing_ports_ok) as [_ H].
  destruct H as (o & Hr & Hn & Hs); [discriminate|vm_compute; discriminate|].
  destruct o as [s|].
  - exists s. split; [exact Hr|]. destruct (Hs s eq_refl) as (_ & H).
    destruct (H sample_goal eq_refl) as (_ & H'). apply (H' live_snapshot eq_refl).
    + unfold _TERMINAL_TASK_STATUSES. set_solver.
    + left. reflexivity.
  - destruct (Hn eq_refl) as [H|(g & _ & H)]; discriminate H.
Defined.

Example authority_required_current_witness :
  exists s, recover sample_ports "t1" = Ok (Some s) /\ rs_continuation s = CC_AUTHORITY_REQUIRED /\
    exists entries e, res_map from_record [gate_event G_AUTHORITY_INSUFFICIENT 3 20; gate_event G_REJECTED 2 10]
        = Ok (Some <$> entries) /\
      e ∈ entries /\ ge_gate_status e = G_AUTHORITY_INSUFFICIENT.
Proof.
  eexists. split; [vm_compute; reflexivity|]. split; [reflexivity|].
  edestruct (authority_required_current sample_ports "t1") as
    (g & snap & stored & records & entries & e & _ & _ & _ & _ & _ & _ & Hh & Hd & He & _ & Hs & _).
  - reflexivity.
  - exact sample_ports_ok.
  - vm_compute. reflexivity.
  - reflexivity.
  - injection Hh as <-. exists entries, e. split; [exact Hd|]. split; [exact He|exact Hs].
Defined.
