(* ===== verification/CompletionFlow.v ===== *)
(** * Completion proposals ([agent/control/completion_flow.py])

    One proposal of the model's end of turn: load the canonical goal and the
    current task snapshot, collect typed facts, evaluate them, append the passive
    decision.  The controller is composed with the repositories, the evaluator
    and, for the results, with recovery after a restart. *)
From S2P Require Import Prelude PyStr Json PyValue Sha256 ProtocolBoundary CognitiveState Goal Completion.
From S2P Require Import CompletionEvaluator ControlDb GoalRepository CompletionRepository CompletionGate.
From S2P Require Import TurnLedger CompletionRecovery.
Open Scope Z_scope.

(** ** Data *)
Inductive CompletionProposalStatus := PR_RECORDED | PR_STALE | PR_REJECTED | PR_ERROR.
#[export] Instance CompletionProposalStatus_eq_dec : EqDecision CompletionProposalStatus.
Proof. solve_decision. Defined.
(** [CompletionProposalTrigger] has one member. *)
Inductive CompletionProposalTrigger := MODEL_END_TURN.
Inductive VerificationFactStatus := VF_SATISFIED | VF_UNSATISFIED | VF_UNKNOWN.

Definition flow_require_id (value label : string) : res unit :=
  raise_if (str_empty value) ValueError (label +:+ " must be a non-empty string") ;;*
  raise_if (_MAX_ID_LENGTH <? py_len value) ValueError (label +:+ " exceeds the maximum length").
(** [_require_text(value, allow_empty=True)] *)
Definition flow_require_text (value label : string) : res unit :=
  raise_if (_MAX_REASON_LENGTH <? py_len value) ValueError (label +:+ " exceeds the maximum length").

Record VerificationCompletionFact := MkVerificationFact {
  vf_assessment_id : string; vf_assessment_digest : string; vf_status : VerificationFactStatus;
  vf_evidence : list CompletionEvidenceRef
}.
Definition make_verification_fact (f : VerificationCompletionFact) : res VerificationCompletionFact :=
  flow_require_id (vf_assessment_id f) "assessment_id" ;;*
  flow_require_id (vf_assessment_digest f) "assessment_digest" ;;* Ok f.

Record CompletionProposal := MkProposal {
  pr_task_id : string; pr_turn_id : string; pr_attempt_id : string; pr_trigger : CompletionProposalTrigger
}.
Definition make_proposal (p : CompletionProposal) : res CompletionProposal :=
  flow_require_id (pr_task_id p) "task_id" ;;*
  flow_require_id (pr_turn_id p) "turn_id" ;;*
  flow_require_id (pr_attempt_id p) "attempt_id" ;;* Ok p.

(** [CompletionFactBundle]: the four tuples the evaluator reads, and the
    verification facts. *)
Record CompletionFactBundle := MkBundle {
  fb_facts : Facts; fb_verification_facts : list VerificationCompletionFact
}.
Definition empty_bundle : CompletionFactBundle := MkBundle (MkFacts [] [] [] []) [].

Record CompletionProposalResult := MkProposalResult {
  pres_status : CompletionProposalStatus; pres_decision : option CompletionDecision;
  pres_sequence : option Z; pres_reason : string
}.
(** [CompletionProposalResult.__post_init__] *)
Definition make_proposal_result (r : CompletionProposalResult) : res CompletionProposalResult :=
  raise_if (match pres_sequence r with Some n => n <? 1 | None => false end) ValueError
    "decision_sequence must be a positive integer or None" ;;*
  (if bool_decide (pres_status r = PR_RECORDED) then
     raise_if (negb (bool_decide (is_Some (pres_decision r)))) ValueError
       "recorded result requires a CompletionDecision" ;;*
     raise_if (negb (bool_decide (is_Some (pres_sequence r)))) ValueError
       "recorded result requires a decision sequence"
   else
     raise_if (bool_decide (is_Some (pres_decision r)) || bool_decide (is_Some (pres_sequence r))) ValueError
       "non-recorded result cannot expose a decision") ;;*
  flow_require_text (pres_reason r) "reason" ;;*
  Ok r.
Definition proposal_result (status : CompletionProposalStatus) (reason : string) : res CompletionProposalResult :=
  make_proposal_result (MkProposalResult status None None reason).

(** ** Ports *)
Class FactProvider (P : Type) :=
  collect : P -> CompletionProposal -> GoalSpec -> CompletionEvaluationSnapshot -> res CompletionFactBundle.
(** [EmptyCompletionFactProvider] *)
Inductive EmptyProvider := EmptyCompletionFactProvider.
#[export] Instance empty_provider : FactProvider EmptyProvider := fun _ _ _ _ => Ok empty_bundle.

(** What the goal loader, the snapshot reader and the decision store answer; the
    store works on a state [S]. *)
Record ProposalPorts (S : Type) := MkProposalPorts {
  load_goal : string -> res (option GoalSpec);
  load_snapshot : string -> GoalSpec -> res (option CompletionEvaluationSnapshot);
  store : CompletionDecision -> S -> res StoredCompletionDecision * S
}.
Arguments MkProposalPorts {S}. Arguments load_goal {S}. Arguments load_snapshot {S}. Arguments store {S}.

Section Controller.
Context {S P : Type} `{FactProvider P} (provider : P) (ports : ProposalPorts S).
Variables principal_id project_id : string.

(** Everything before the append: a result, or the decision to append. *)
Definition prepare (uuid : string) (proposal : CompletionProposal)
    : flow (res CompletionProposalResult) CompletionDecision :=
  let! goal_opt := call_or (load_goal ports (pr_task_id proposal)) [Exception]
    (fun _ => proposal_result PR_ERROR "canonical GoalSpec could not be loaded.") in
  let! goal := some_or goal_opt
    (proposal_result PR_REJECTED "task or GoalSpec is unavailable in the owner scope.") in
  let! snap_opt := call_or (load_snapshot ports (pr_task_id proposal) goal) [Exception]
    (fun e => proposal_result PR_ERROR
       (if isinstance (exn_cls e) CompletionDecisionIntegrityError
        then "current task snapshot failed integrity validation."
        else "current task snapshot could not be read.")) in
  let! snap := some_or snap_opt (proposal_result PR_REJECTED "task is unavailable in the owner scope.") in
  let! facts := call_or (collect provider proposal goal snap) [Exception]
    (fun _ => proposal_result PR_ERROR "completion facts could not be collected.") in
  call_or (evaluate uuid goal snap (fb_facts facts)) [Exception]
    (fun e => if isinstance (exn_cls e) CompletionEvaluationInputError
              then proposal_result PR_REJECTED "completion facts failed validation."
              else proposal_result PR_ERROR "completion evaluation could not be produced.").

(** The [except] clauses around the append *)
Definition append_failure (e : exn) : res CompletionProposalResult :=
  if isinstance (exn_cls e) CompletionDecisionBindingError
  then proposal_result PR_STALE "current task snapshot changed before append."
  else if isinstance (exn_cls e) CompletionDecisionConflictError
  then proposal_result PR_ERROR "completion decision identity conflicted."
  else if isinstance (exn_cls e) CompletionDecisionIntegrityError
  then proposal_result PR_ERROR "completion decision failed integrity validation."
  else proposal_result PR_ERROR "completion decision could not be recorded.".

(** [CompletionProposalController.propose]; [uuid] is the generated decision
    identity. *)
Definition propose (uuid : string) (proposal : CompletionProposal) (s : S)
    : res CompletionProposalResult * S :=
  match prepare uuid proposal with
  | Throw e => (Raise e, s)
  | Return r => (r, s)
  | Next decision =>
      match store ports decision s with
      | (Raise e, s') => (append_failure e, s')
      | (Ok stored, s') =>
          (if neq_s (decision_id (st_decision stored)) (decision_id decision)
              || neq_s (decision_digest (st_decision stored)) (decision_digest decision)
              || neq_s (task_id (dec_body (st_decision stored))) (pr_task_id proposal)
              || neq_s (st_principal_id stored) principal_id || neq_s (st_project_id stored) project_id
              || (st_decision_sequence stored <? 1)
           then proposal_result PR_ERROR "completion decision append result failed integrity validation."
           else make_proposal_result
                  (MkProposalResult PR_RECORDED (Some decision) (Some (st_decision_sequence stored)) EmptyString), s')
      end
  end.
End Controller.

(** The production ports: the two repositories, at the database states they see. *)
Definition repository_ports (principal_id project_id now : string) (goal_view snapshot_view : Db)
    : ProposalPorts Db :=
  MkProposalPorts
    (fun task_id => goal_get_for_task task_id principal_id project_id goal_view)
    (fun task_id goal => read_current_task_snapshot snapshot_view task_id principal_id project_id goal)
    (fun decision db => append now decision principal_id project_id None db).

(** ** A proposal never raises, and records only what it evaluated *)
Lemma exception_catches e : existsb (isinstance (exn_cls e)) [Exception] = true.
Proof. destruct (exn_cls e); reflexivity. Qed.
Lemma call_or_exception {R A} (m : res A) (h : exn -> R) e : call_or m [Exception] h <> Throw e.
Proof. destruct m as [a|x]; [done|]. unfold call_or. by rewrite exception_catches. Qed.

Definition unrecorded (r : res CompletionProposalResult) : Prop :=
  exists status reason, r = Ok (MkProposalResult status None None reason) /\ status <> PR_RECORDED.
Lemma proposal_result_unrecorded status reason :
  status <> PR_RECORDED -> py_len reason <= _MAX_REASON_LENGTH -> unrecorded (proposal_result status reason).
Proof.
  intros Hs Hr. exists status, reason. split; [|done]. unfold proposal_result, make_proposal_result.
  cbn [pres_status pres_decision pres_sequence pres_reason]. rewrite bool_decide_false by done.
  rewrite !(bool_decide_false (is_Some None)) by (by intros []). cbn [raise_if res_bind orb].
  unfold flow_require_text. by rewrite raise_if_false by lia.
Qed.
Ltac refused := apply proposal_result_unrecorded; [discriminate|by vm_compute].

Section Results.
Context {S P : Type} `{FactProvider P} (provider : P) (ports : ProposalPorts S).
Variables principal_id project_id : string.

Lemma prepare_cases uuid proposal :
  match prepare provider ports uuid proposal with
  | Throw _ => False
  | Return r => unrecorded r
  | Next d => exists g snap facts,
      load_goal ports (pr_task_id proposal) = Ok (Some g) /\
      load_snapshot ports (pr_task_id proposal) g = Ok (Some snap) /\
      collect provider proposal g snap = Ok facts /\ evaluate uuid g snap (fb_facts facts) = Ok d
  end.
Proof.
  unfold prepare. destruct (load_goal ports _) as [[g|]|e] eqn:Eg.
  2: { cbn. refused. }
  2: { cbn -[existsb]. rewrite exception_catches. cbn. refused. }
  cbn [call_or flow_bind some_or]. destruct (load_snapshot ports _ g) as [[snap|]|e] eqn:Es.
  2: { cbn. refused. }
  2: { unfold call_or. rewrite exception_catches. cbn [flow_bind]. destruct (isinstance _ _); refused. }
  cbn [call_or flow_bind some_or]. destruct (collect provider proposal g snap) as [facts|e] eqn:Ef.
  2: { unfold call_or. rewrite exception_catches. cbn [flow_bind]. refused. }
  cbn [call_or flow_bind]. destruct (evaluate uuid g snap (fb_facts facts)) as [d|e] eqn:Ed; cbn [call_or].
  - by exists g, snap, facts.
  - rewrite exception_catches. destruct (isinstance _ _); refused.
Qed.

Lemma append_failure_unrecorded e : unrecorded (append_failure e).
Proof. unfold append_failure. repeat (destruct (isinstance _ _); [refused|]). refused. Qed.

Lemma propose_cases uuid proposal s o s' :
  propose provider ports principal_id project_id uuid proposal s = (o, s') ->
  (unrecorded o /\ (s' = s \/ exists d r, store ports d s = (r, s'))) \/
  (exists d stored g snap facts,
     o = Ok (MkProposalResult PR_RECORDED (Some d) (Some (st_decision_sequence stored)) EmptyString) /\
     store ports d s = (Ok stored, s') /\
     load_goal ports (pr_task_id proposal) = Ok (Some g) /\
     load_snapshot ports (pr_task_id proposal) g = Ok (Some snap) /\
     collect provider proposal g snap = Ok facts /\ evaluate uuid g snap (fb_facts facts) = Ok d /\
     decision_id (st_decision stored) = decision_id d /\ decision_digest (st_decision stored) = decision_digest d /\
     task_id (dec_body (st_decision stored)) = pr_task_id proposal /\ 1 <= st_decision_sequence stored).
Proof.
  unfold propose. pose proof (prepare_cases uuid proposal) as Hp.
  destruct (prepare provider ports uuid proposal) as [d|r|e]; [|intros [= <- <-]; left; by auto|done].
  destruct Hp as (g & snap & facts & Hg & Hs & Hf & Hd).
  destruct (store ports d s) as [[stored|e] s1] eqn:Est.
  2: { intros [= <- <-]. left. split; [apply append_failure_unrecorded|eauto]. }
  destruct (_ || _) eqn:Ec; intros [= <- <-].
  { left. split; [refused|eauto]. }
  right. repeat match goal with H : _ || _ = false |- _ => apply orb_false_iff in H as [? ?] end.
  repeat match goal with H : neq_s _ _ = false |- _ => apply neq_s_false in H end.
  exists d, stored, g, snap, facts. split_and!; try done; [|lia].
  unfold make_proposal_result. cbn [pres_status pres_decision pres_sequence pres_reason].
  rewrite raise_if_false by lia. rewrite bool_decide_true by done.
  rewrite !bool_decide_true by (by eexists). done.
Qed.
End Results.

(** ** Recovery after an append *)
Lemma find_narrow {A} (p q : A -> bool) l x : List.find p l = Some x -> q x = true ->
  List.find (fun y => p y && q y) l = Some x.
Proof.
  induction l as [|y l IH]; [done|]. cbn. destruct (p y) eqn:E; cbn; [|auto]. intros [= ->] ->. done.
Qed.

(** The goal the decision was bound to is the goal of the task. *)
Lemma bound_goal d p j db row : bound d p j db row ->
  exists g, goal_get_for_task (task_id (dec_body d)) p j db = Ok (Some g) /\
    Goal.goal_spec_id g = goal_spec_id (dec_body d) /\ semantic_digest g = goal_spec_digest (dec_body d).
Proof.
  intros (_ & _ & _ & _ & _ & _ & _ & Ht & Hp & _ & _ & grow & g & Hsel & Hgp & Hgj & Hdec & Hid & Hdig).
  exists g. split; [|done]. unfold goal_get_for_task, GoalRepository._validate_owner_inputs. rewrite Ht, Hp.
  cbn [raise_if res_bind]. unfold select. unfold _select_goal_spec, select in Hsel.
  rewrite (find_narrow _ _ _ _ Hsel) by (unfold owned_goal; by rewrite !bool_decide_true).
  apply find_some in Hsel as [_ Htid%bool_decide_eq_true].
  unfold _decode_goal_spec_row, cdi_if in Hdec. apply res_bind_Ok in Hdec as (? & Hne%raise_if_Ok & Hdec).
  apply res_bind_Ok in Hdec as (spec & Hspec & Hdec). apply res_bind_Ok in Hdec as (? & Hcmp%raise_if_Ok & [= ->]).
  apply try_except_reraise in Hspec; [|done].
  repeat match goal with H : _ || _ = false |- _ => apply orb_false_iff in H as [? ?] end.
  apply try_except_Ok.
  assert (forall x, GoalRepository.differs (Some x) x = false) as Hd by (intros; cbn; by rewrite bool_decide_true).
  rewrite Htid, Hgp, Hgj, !Hd in *.
  repeat (rewrite raise_if_false by (done || (repeat (apply orb_false_iff; split; [|done]); done)); cbn [res_bind]).
  rewrite Hspec. cbn [res_bind]. by rewrite !raise_if_false.
Qed.

(** The snapshot of the task agrees with the decision in every field. *)
Lemma bound_snapshot d p j db row g : body_ok (dec_body d) = true -> bound d p j db row ->
  Goal.goal_spec_id g = goal_spec_id (dec_body d) -> semantic_digest g = goal_spec_digest (dec_body d) ->
  exists snap, read_current_task_snapshot db (task_id (dec_body d)) p j g = Ok (Some snap) /\
    snapshot_ok snap /\ _decision_matches_snapshot d snap = true /\ snap_task_status snap = t_status row.
Proof.
  intros Hb (Hrow & Hp & Hj & Hcog & Hver & Hst & Hws & Ht & Hpne & Hsne & Hv0 & _) Hid Hdig.
  unfold body_ok in Hb. rewrite !andb_true_iff in Hb. destruct Hb as [[[[[[[[_ Htid] Hgid] Hhex] Hver0] Hstat] Hwsid] _] _].
  set (b := dec_body d) in *.
  assert (Hmake : make_snapshot (task_id b) (Goal.goal_spec_id g) (semantic_digest g) (cognitive_state b)
    (t_control_state_version row) (t_status row) (workspace_id b)
    = Ok (MkEvalSnapshot (task_id b) (Goal.goal_spec_id g) (semantic_digest g) (cognitive_state b)
        (t_control_state_version row) (t_status row) (workspace_id b))).
  { unfold make_snapshot. rewrite (proj2 (ce_text_Ok (task_id b) _ _)) by done.
    rewrite (proj2 (ce_text_Ok (Goal.goal_spec_id g) _ (Goal.goal_spec_id g))) by (rewrite Hid; done).
    rewrite (proj2 (ce_text_Ok (semantic_digest g) _ (semantic_digest g))) by (rewrite Hdig; split; [done|by apply hex_id_ok]).
    cbn [res_bind]. rewrite (proj2 (ce_raise_if_Ok _ _ tt)) by lia. cbn [res_bind].
    rewrite (proj2 (ce_text_Ok (t_status row) _ (t_status row))) by (rewrite Hst; done).
    rewrite (proj2 (require_optional_text_Ok (workspace_id b) _ (workspace_id b))) by done. done. }
  eexists (MkEvalSnapshot _ _ _ _ _ _ _). split_and!; [|exact Hmake| |reflexivity].
  - unfold read_current_task_snapshot, CompletionRepository._validate_scope. rewrite Ht, Hpne. cbn [raise_if res_bind].
    rewrite (proj2 (select_task_Some db (task_id b) p j row)) by done.
    rewrite (proj2 (decode_task_snapshot_Ok (task_id b) row
      (MkTaskSnapshot (task_id b) (t_principal_id row) (t_project_id row) (cognitive_state b)
         (t_control_state_version row) (t_status row) (workspace_id b)))) by (cbn; split_and!; congruence || done).
    cbn [res_bind ts_task_id ts_principal_id ts_project_id ts_cognitive_state ts_control_state_version ts_task_status ts_workspace_id].
    rewrite Hp, Hj. assert (forall x, neq_s x x = false) as Hn by (intros; by apply neq_s_false).
    rewrite !Hn. cbn [orb cdi_if raise_if res_bind]. rewrite Hmake. reflexivity.
  - unfold _decision_matches_snapshot. cbn. fold b. rewrite Hid, Hdig, Hver, Hst, Z.eqb_refl.
  by rewrite !bool_decide_true.
Qed.

Lemma read_snapshot_ok db t p j g s : read_current_task_snapshot db t p j g = Ok (Some s) -> snapshot_ok s.
Proof.
  unfold read_current_task_snapshot. intros H. apply res_bind_Ok in H as (? & _ & H).
  destruct (_select_task db t p j); [|done]. apply res_bind_Ok in H as (ts & _ & H).
  apply res_bind_Ok in H as (? & _ & H). apply res_bind_Ok in H as (snap & Hm & [= ->]).
  pose proof Hm as Hm'. unfold make_snapshot in Hm'.
  repeat (apply res_bind_Ok in Hm' as (? & _ & Hm')). injection Hm' as <-. exact Hm.
Qed.

Definition continues_as (o : CompletionOutcome) (c : CompletionContinuationState) : Prop :=
  match o with
  | REPLAN => c = CC_REPLAN_REQUIRED
  | BLOCKED => c = CC_EXTERNAL_BLOCKED
  | FAILED => c = CC_FAILURE_REVIEW_REQUIRED
  | COMPLETE => c = CC_REEVALUATION_REQUIRED \/ c = CC_AUTHORITY_REQUIRED
  end.

(** What a task with status [status] continues as after a decision with outcome [o]. *)
Definition restarts_as (status : string) (o : CompletionOutcome) (c : CompletionContinuationState) : Prop :=
  (status = "completed" -> c = CC_TERMINAL_COMPLETED) /\
  (status = "failed" -> c = CC_TERMINAL_FAILED) /\
  (status = "cancelled" -> c = CC_TERMINAL_CANCELLED) /\
  (status ∈ ["pending"; "running"; "blocked"; "waiting_test"; "fixing"] -> continues_as o c) /\
  (status ∉ ["completed"; "failed"; "cancelled"; "pending"; "running"; "blocked"; "waiting_test"; "fixing"] ->
     c = CC_INTEGRITY_ERROR).

Lemma restarts_as_live status o c :
  (status ∉ _TERMINAL_TASK_STATUSES) -> (status ∈ _TASK_STATUSES -> continues_as o c) ->
  (status ∉ _TASK_STATUSES -> c = CC_INTEGRITY_ERROR) -> restarts_as status o c.
Proof.
  unfold _TERMINAL_TASK_STATUSES, _TASK_STATUSES. intros Ht Hl Hn. split_and!.
  1-3: intros ->; set_solver.
  - intros Hin. apply Hl. set_solver.
  - intros Hin. apply Hn. set_solver.
Qed.

Lemma restarts_as_terminal snap o : snap_task_status snap ∈ _TERMINAL_TASK_STATUSES ->
  restarts_as (snap_task_status snap) o (resolved snap None None).
Proof.
  unfold resolved, _TERMINAL_TASK_STATUSES. intros Hin.
  repeat (apply elem_of_cons in Hin as [->|Hin]); [..|set_solver]; (split_and!; [done..| |]); set_solver.
Qed.

Lemma recovered_after_append now d p j c db s db' turns row :
  decision_ok d -> ledger_ok db -> str_empty now = false ->
  append now d p j c db = (Ok s, db') ->
  coding_tasks db !! task_id (dec_body d) = Some row ->
  exists st, recover (database_ports (task_id (dec_body d)) p j (MkRecoveryViews db' db' db' turns))
      (task_id (dec_body d)) = Ok (Some st) /\
    restarts_as (t_status row) (outcome (dec_body d)) (rs_continuation st).
Proof.
  intros Hok Hl Hnow Happ Hrow. pose proof (append_get_latest _ _ _ _ _ _ _ _ Hok Hl Hnow Happ) as Hlatest.
  apply append_cases in Happ as [(seq & row' & json & ts & [= ->] & Hb & Hs1 & _ & _ & _ & _ & _ & ->)|(e & ? & _)]; [|done].
  set (db' := with_decisions _ _) in *. assert (bound d p j db' row') as Hb' by exact Hb.
  assert (row' = row) as -> by (destruct Hb as (E & _); congruence). clear Hb.
  pose proof Hok as (Hid & Hbody & _ & Hdig%canonical_digest_form).
  destruct (bound_goal _ _ _ _ _ Hb') as (g & Hg & Hgid & Hgdig).
  destruct (bound_snapshot _ _ _ _ _ g Hbody Hb' Hgid Hgdig) as (snap & Hsnap & Hsok & Hmatch & Hstat).
  assert (Ht : id_ok (task_id (dec_body d)) = true)
    by (unfold body_ok in Hbody; rewrite !andb_true_iff in Hbody; tauto).
  assert (Hhist : exists l, list_completion_gate_history (task_id (dec_body d)) p j turns = Ok l).
  { destruct Hb' as (_ & _ & _ & _ & _ & _ & _ & E1 & E2 & _). unfold list_completion_gate_history.
    rewrite E1, E2. by eexists. }
  destruct Hhist as [records Hh]. destruct (recover_reference (database_ports (task_id (dec_body d)) p j
    (MkRecoveryViews db' db' db' turns)) (task_id (dec_body d)) Ht) as (o & Ho & Hc).
  { split; cbn [database_ports read_goal read_snapshot read_latest read_history rv_goal rv_snapshot rv_latest rv_turns].
    - intros ? ?. apply read_snapshot_ok.
    - intros st. rewrite Hlatest. intros [= <-]. done.
    - intros l. apply history_no_surrogate. }
  unfold reference in Hc.
  cbn [database_ports read_goal read_snapshot read_latest read_history rv_goal rv_snapshot rv_latest rv_turns] in Hc.
  rewrite Hg, Hsnap, Hlatest, Hh in Hc. destruct (str_in _ _TERMINAL_TASK_STATUSES) eqn:Hterm;
    (destruct o as [st|]; [|done]; exists st; split; [exact Ho|]; injection Hc as ->); rewrite <-Hstat in *.
  { apply restarts_as_terminal. by apply str_in_true. }
  apply str_in_false in Hterm. unfold resolved. apply restarts_as_live; [done| |].
  2: { intros Hn. by rewrite (proj2 (str_in_false _ _) Hn). }
  intros Hlive. rewrite (proj2 (str_in_true _ _) Hlive).
  destruct (terminal_state _) as [x|] eqn:E; [by apply terminal_state_in in E|].
  unfold continuation_of. cbn [fmap option_fmap option_map st_decision].
  pose proof Hmatch as Hm. unfold _decision_matches_snapshot in Hm. rewrite !andb_true_iff, !bool_decide_eq_true in Hm.
  cbn [canonical_decision dec_body canonical_body task_id goal_spec_id goal_spec_digest outcome].
  rewrite bool_decide_true by tauto. destruct (outcome (dec_body d)); try done. cbn [continues_as].
  destruct (_ && _); auto.
Qed.

(** ** A proposal over the repositories *)
Section Repositories.
Context {P : Type} `{HP : FactProvider P} (provider : P).
Variables principal_id project_id now : string.

Lemma evaluated_task uuid g snap f d : evaluate uuid g snap f = Ok d -> task_id (dec_body d) = snap_task_id snap.
Proof. intros (_ & _ & -> & _)%evaluate_Ok. done. Qed.
Lemma read_snapshot_task db t g snap :
  read_current_task_snapshot db t principal_id project_id g = Ok (Some snap) -> snap_task_id snap = t.
Proof.
  unfold read_current_task_snapshot. intros H. apply res_bind_Ok in H as (? & _ & H).
  destruct (_select_task _ _ _ _); [|done]. apply res_bind_Ok in H as (ts & Hts & H).
  apply res_bind_Ok in H as (? & _ & H). apply res_bind_Ok in H as (s & Hm & [= ->]).
  apply decode_task_snapshot_Ok in Hts as (_ & _ & _ & _ & _ & _ & Hts).
  assert (ts_task_id ts = t) as Ht by (by rewrite Hts). unfold make_snapshot in Hm.
  repeat (apply res_bind_Ok in Hm as (? & _ & Hm)). by injection Hm as <-.
Qed.

Lemma propose_repositories uuid proposal gv sv db o db' :
  propose provider (repository_ports principal_id project_id now gv sv) principal_id project_id uuid proposal db
  = (o, db') ->
  (unrecorded o /\ db' = db) \/
  (exists d stored g snap facts,
     o = Ok (MkProposalResult PR_RECORDED (Some d) (Some (st_decision_sequence stored)) EmptyString) /\
     append now d principal_id project_id None db = (Ok stored, db') /\
     goal_get_for_task (pr_task_id proposal) principal_id project_id gv = Ok (Some g) /\
     read_current_task_snapshot sv (pr_task_id proposal) principal_id project_id g = Ok (Some snap) /\
     collect provider proposal g snap = Ok facts /\ evaluate uuid g snap (fb_facts facts) = Ok d /\
     task_id (dec_body d) = pr_task_id proposal).
Proof.
  unfold propose. pose proof (prepare_cases provider (repository_ports principal_id project_id now gv sv) uuid proposal) as Hp.
  destruct (prepare _ _ uuid proposal) as [d|r|e]; [|intros [= <- <-]; by left|done].
  destruct Hp as (g & snap & facts & Hg & Hs & Hf & Hd). cbn [repository_ports load_goal load_snapshot store] in *.
  assert (task_id (dec_body d) = pr_task_id proposal) as Ht
    by (rewrite (evaluated_task _ _ _ _ _ Hd); by eapply read_snapshot_task).
  destruct (append now d principal_id project_id None db) as [r s1] eqn:Ea. pose proof Ea as Ea'.
  apply append_cases in Ea' as [(seq & row & json & ts & -> & _ & Hseq & _)|(e & -> & ->)].
  2: { intros [= <- <-]. left. split; [apply append_failure_unrecorded|done]. }
  cbn [st_decision st_principal_id st_project_id st_decision_sequence].
  assert (forall x, neq_s x x = false) as Hn by (intros; by apply neq_s_false).
  rewrite Ht, !Hn. replace (seq <? 1) with false by lia. cbn [orb].
  unfold make_proposal_result. cbn [pres_status pres_decision pres_sequence pres_reason].
  rewrite raise_if_false by lia. rewrite bool_decide_true by done. rewrite !bool_decide_true by (by eexists).
  cbn [negb raise_if res_bind flow_require_text]. intros [= <- <-]. right. exists d. eexists. exists g, snap, facts.
  split_and!; try done. reflexivity.
Qed.
End Repositories.

(** C6. A proposal is passive and atomic: whatever the fact provider does and however the
    database changed since the goal and the snapshot were read, [propose] never
    raises; it is RECORDED exactly when one new row was appended to the decision
    ledger, holding the evaluator's decision on the facts it collected, bound to
    the task row of that moment and numbered after the task's earlier decisions;
    otherwise nothing is stored. No other table changes in either case. *)
Theorem proposal_is_atomic {P} `{FactProvider P} (provider : P) p j now uuid proposal gv sv db o db' :
  ledger_ok db ->
  propose provider (repository_ports p j now gv sv) p j uuid proposal db = (o, db') ->
  ledger_ok db' /\
  exists r, o = Ok r /\
    (pres_status r = PR_RECORDED <-> db' <> db) /\
    (pres_status r <> PR_RECORDED -> pres_decision r = None /\ db' = db) /\
    (pres_status r = PR_RECORDED -> exists d g snap facts json ts,
       pres_decision r = Some d /\
       collect provider proposal g snap = Ok facts /\ evaluate uuid g snap (fb_facts facts) = Ok d /\
       (exists row, bound d p j db row) /\
       let n := Z.of_nat (length (owned_rows (pr_task_id proposal) p j (decisions db))) + 1 in
       pres_sequence r = Some n /\
       db' = with_decisions db (decisions db ++
         [MkDecisionRow uuid (pr_task_id proposal) p j n (schema_version (dec_body d)) (decision_digest d) json ts])).
Proof.
  intros Hl Hprop.
  apply propose_repositories in Hprop as
    [[(st & reason & -> & Hst) ->]|(d & stored & g & snap & facts & -> & Happ & _ & _ & Hf & Hd & Ht)].
  - split; [done|]. eexists. split; [done|]. cbn [pres_status pres_decision]. split_and!; done.
  - pose proof Happ as Happ'. apply append_cases in Happ
      as [(seq & row & json & ts & [= ->] & Hb & Hs1 & Hs & _ & Hj & _ & _ & ->)|(e & ? & _)]; [|done].
    cbn [st_decision_sequence]. split; [by apply ledger_ok_append|]. eexists. split; [done|].
    cbn [pres_status pres_decision pres_sequence]. split_and!.
    + split; [|done]. intros _ E. apply (f_equal (fun x => length (decisions x))) in E. cbn in E.
      rewrite length_app in E. cbn in E. lia.
    + done.
    + intros _. exists d, g, snap, facts, json, ts. rewrite Ht, next_sequence_ledger in Hs by done.
      rewrite Ht, Hs. split_and!; try done; [by exists row|].
      assert (decision_id d = uuid) as -> by (by apply evaluate_Ok in Hd as (_ & _ & -> & _)). done.
Qed.

(** C7. A recorded proposal survives a restart: if the process stops right after a
    proposal was recorded, recovery from the database reports what the status of
    the task and the outcome of the recorded decision call for, whatever the turn
    history holds.  A live task (pending, running, blocked, waiting_test or fixing)
    continues with replan, external blocker or failure review, and a COMPLETE
    decision is not taken as completion: it must be re-evaluated or is missing its
    authority.  A completed, failed or cancelled task is reported with that
    terminal state, a task with an unknown status as an integrity error.  The
    ledger is numbered from one per task, the clock text is not empty, and the
    identifiers and texts inside the decision are within the limits their
    constructors enforce ([parts_ok]). *)
Theorem proposal_survives_restart {P} `{FactProvider P} (provider : P) p j now uuid proposal gv sv db r db' d row turns :
  ledger_ok db -> str_empty now = false ->
  propose provider (repository_ports p j now gv sv) p j uuid proposal db = (Ok r, db') ->
  pres_decision r = Some d -> parts_ok (dec_body d) = true ->
  coding_tasks db !! pr_task_id proposal = Some row ->
  exists st, recover (database_ports (pr_task_id proposal) p j (MkRecoveryViews db' db' db' turns))
      (pr_task_id proposal) = Ok (Some st) /\
    restarts_as (t_status row) (outcome (dec_body d)) (rs_continuation st).
Proof.
  intros Hl Hnow Hprop Hdec Hparts Hrow.
  apply propose_repositories in Hprop as
    [[(st & reason & [= ->] & Hst) _]|(d' & stored & g & snap & facts & [= ->] & Happ & _ & _ & _ & Hd & Ht)]; [done|].
  cbn in Hdec. injection Hdec as ->.
  assert (decision_ok d) as Hok.
  { apply evaluate_Ok in Hd as (Hin & Hb & Ed & Hdg). rewrite Ed in Hparts |- *.
    split_and!; [apply Hin|done|done|done]. }
  rewrite <-Ht in *. by eapply recovered_after_append.
Qed.

(** No facts, no completion: with the default fact provider a goal that has a
    required requirement or criterion is never decided COMPLETE, whatever the model said. *)
Theorem empty_provider_never_completes p j now uuid proposal gv sv db r db' d g :
  propose EmptyCompletionFactProvider (repository_ports p j now gv sv) p j uuid proposal db = (Ok r, db') ->
  goal_get_for_task (pr_task_id proposal) p j gv = Ok (Some g) ->
  (exists x, x ∈ requirements g /\ req_required x = true) \/ (exists x, x ∈ acceptance_criteria g /\ crit_required x = true) ->
  pres_decision r = Some d -> outcome (dec_body d) = REPLAN.
Proof.
  intros Hprop Hg Hreq Hdec.
  apply propose_repositories in Hprop as
    [[(st & reason & [= ->] & Hst) _]|(d' & stored & g' & snap & facts & [= ->] & _ & Hg' & _ & Hf & Hd & _)]; [done|].
  rewrite Hg in Hg'. injection Hg' as <-. injection Hf as <-. cbn in Hdec. injection Hdec as ->.
  apply evaluate_Ok in Hd as (Hin & _ & -> & _). cbn [dec_body expected_body outcome].
  assert (required_gap g (fb_facts empty_bundle) = true) as Hgap.
  { destruct (required_gap g _) eqn:E; [done|]. apply (required_gap_iff _ _ _ _ Hin) in E as [H1 H2].
    destruct Hreq as [(x & Hx & Hr)|(x & Hx & Hr)]; [destruct (H1 x Hx Hr) as (a & Ha & _)|destruct (H2 x Hx Hr) as (a & Ha & _)];
      by apply not_elem_of_nil in Ha. }
  rewrite Hgap. reflexivity.
Qed.

(** ** A concrete proposal *)
Definition sample_proposal : CompletionProposal := MkProposal "t1" "turn-1" "attempt-1" MODEL_END_TURN.
Definition sample_propose : res CompletionProposalResult * Db :=
  propose EmptyCompletionFactProvider (repository_ports "alice" "p1" "now" sample_db sample_db) "alice" "p1"
    "d9" sample_proposal sample_db.
Definition recorded_parts (x : res CompletionProposalResult * Db) : bool :=
  match x.1 with
  | Ok r => match pres_decision r with
            | Some d => bool_decide (pres_status r = PR_RECORDED) && parts_ok (dec_body d)
            | None => false end
  | Raise _ => false
  end.
Lemma sample_proposal_recorded : exists r db' d,
  sample_propose = (Ok r, db') /\ pres_status r = PR_RECORDED /\ pres_decision r = Some d /\
  parts_ok (dec_body d) = true.
Proof.
  assert (H : forall x, recorded_parts x = true -> exists r db' d, x = (Ok r, db') /\ pres_status r = PR_RECORDED /\
    pres_decision r = Some d /\ parts_ok (dec_body d) = true).
  { intros [[r|e] db'] Hx; [|done]. unfold recorded_parts in Hx. cbn [fst] in Hx.
    destruct (pres_decision r) as [d|] eqn:Ed; [|done]. apply andb_true_iff in Hx as [Hs%bool_decide_eq_true Hp].
    by exists r, db', d. }
  apply H. vm_compute. reflexivity.
Qed.

Example proposal_is_atomic_witness : exists r db',
  sample_propose = (Ok r, db') /\ ledger_ok db' /\ db' <> sample_db /\ pres_sequence r = Some 1.
Proof.
  destruct sample_proposal_recorded as (r & db' & d & E & Hs & Hd & _). exists r, db'. split; [exact E|].
  unfold sample_propose in E.
  destruct (proposal_is_atomic EmptyCompletionFactProvider "alice" "p1" "now" "d9" sample_proposal sample_db sample_db
    sample_db (Ok r) db' sample_ledger_ok E) as (Hl & r' & Er & Hiff & _ & Hrec).
  injection Er as <-. split; [exact Hl|]. split; [exact (proj1 Hiff Hs)|].
  destruct (Hrec Hs) as (d' & g & snap & facts & json & ts & _ & _ & _ & _ & Hseq & _). exact Hseq.
Defined.

Example proposal_survives_restart_witness : exists r db' d st,
  sample_propose = (Ok r, db') /\ pres_decision r = Some d /\
  recover (database_ports "t1" "alice" "p1" (MkRecoveryViews db' db' db' (MkTurnDb [] [] []))) "t1" = Ok (Some st) /\
  restarts_as "running" (outcome (dec_body d)) (rs_continuation st).
Proof.
  destruct sample_proposal_recorded as (r & db' & d & E & Hs & Hd & Hp). exists r, db', d.
  pose proof E as E'. unfold sample_propose in E.
  destruct (proposal_survives_restart EmptyCompletionFactProvider "alice" "p1" "now" "d9" sample_proposal sample_db
    sample_db sample_db r db' d sample_task (MkTurnDb [] [] []) sample_ledger_ok eq_refl E Hd Hp) as (st & Hr & Hc).
  - reflexivity.
  - exists st. split; [exact E'|]. split; [exact Hd|]. split; [exact Hr|exact Hc].
Defined.

Lemma sample_goal_loaded : exists g, goal_get_for_task "t1" "alice" "p1" sample_db = Ok (Some g) /\
  exists x, x ∈ requirements g /\ req_required x = true.
Proof.
  assert (H : forall (o : res (option GoalSpec)),
    match o with Ok (Some g) => existsb req_required (requirements g) | _ => false end = true ->
    exists g, o = Ok (Some g) /\ exists x, x ∈ requirements g /\ req_required x = true).
  { intros [[g|]|e] Hg; [|done..]. exists g. split; [done|]. apply existsb_exists in Hg as (x & Hx & Hr).
    exists x. by rewrite list_elem_of_In. }
  apply H. vm_compute. reflexivity.
Qed.

Example empty_provider_never_completes_witness : exists r db' d,
  sample_propose = (Ok r, db') /\ pres_decision r = Some d /\ outcome (dec_body d) = REPLAN.
Proof.
  destruct sample_proposal_recorded as (r & db' & d & E & Hs & Hd & _). exists r, db', d.
  split; [exact E|]. split; [exact Hd|]. unfold sample_propose in E. destruct sample_goal_loaded as (g & Hg & Hx).
  exact (empty_provider_never_completes "alice" "p1" "now" "d9" sample_proposal sample_db sample_db sample_db
    r db' d g E Hg (or_introl Hx) Hd).
Defined.
