(* ===== verification/Recovery.v ===== *)
(** * Recovery contracts and policy ([agent/control/recovery.py])

    Normalised failure signatures, the recovery policy, the recovery input
    snapshot with its validation, the decision record with its canonical JSON
    form and decoder, and the evaluator that maps an input to an action.

    Constructors take keyword arguments: the scalar ones are a function from
    field names to JSON values ([kw]), checked exactly where the code checks
    them; arguments whose type the callers fix (enum members, nested records) are
    typed. *)
From Stdlib Require Import Ascii.
From S2P Require Import Prelude PyStr Json PyValue Sha256 ProtocolBoundary CognitiveState Completion.
From S2P Require Import CompletionRecovery.
Open Scope Z_scope.

Definition RECOVERY_DECISION_SCHEMA_VERSION : Z := 1.
Definition RECOVERY_POLICY_SCHEMA_VERSION : Z := 1.
Definition MAX_RECOVERY_ID_LENGTH : Z := 512.
Definition MAX_RECOVERY_TEXT_LENGTH : Z := 1024.
Definition MAX_FAILURE_CASES : nat := 32.
Definition MAX_FAILURE_SIGNATURE_BYTES : Z := 8192.
Definition MAX_SUBJECT_IDS : nat := 32.
Definition MAX_RECOVERY_HISTORY_RECORDS : Z := 256.
Definition _TERMINAL_TASK_STATUSES : list string := ["completed"; "failed"; "cancelled"].

Definition rce {A} (msg : string) : res A := Raise (Exn RecoveryContractError msg).
Definition rce_if (c : bool) (msg : string) : res unit := raise_if c RecoveryContractError msg.

(** ** Vocabulary *)
Inductive RecoveryAction := RA_NO_ACTION | RA_RECOVER_CURRENT_PLAN | RA_REPLAN | RA_BLOCK.
#[export] Instance RecoveryAction_eq_dec : EqDecision RecoveryAction.
Proof. solve_decision. Defined.
#[export] Instance RecoveryAction_enum : PyEnum RecoveryAction := {|
  members := [RA_NO_ACTION; RA_RECOVER_CURRENT_PLAN; RA_REPLAN; RA_BLOCK];
  enum_value a := match a with
    | RA_NO_ACTION => "no_action" | RA_RECOVER_CURRENT_PLAN => "recover_current_plan"
    | RA_REPLAN => "replan" | RA_BLOCK => "block" end |}.
#[export] Instance RecoveryAction_laws : PyEnumLaws RecoveryAction.
Proof. solve_enum_laws. Qed.

Inductive RecoveryReasonCode :=
| RR_NO_RECOVERY_REQUIRED | RR_VERIFICATION_FAILED | RR_VERIFICATION_STALE | RR_VERIFICATION_UNAVAILABLE
| RR_COMPLETION_REPLAN_REQUIRED | RR_COMPLETION_EXTERNAL_BLOCKED | RR_COMPLETION_FAILURE_REVIEW_REQUIRED
| RR_IDENTICAL_FAILURE_SIGNATURE | RR_RECOVERY_ATTEMPT_BUDGET_EXHAUSTED | RR_REPLAN_BUDGET_EXHAUSTED
| RR_PLANNING_BLOCKED | RR_PLANNING_STALE | RR_PLANNING_INVALID | RR_DURABLE_HISTORY_INTEGRITY_ERROR
| RR_TASK_TERMINAL.
#[export] Instance RecoveryReasonCode_eq_dec : EqDecision RecoveryReasonCode.
Proof. solve_decision. Defined.
#[export] Instance RecoveryReasonCode_enum : PyEnum RecoveryReasonCode := {|
  members := [RR_NO_RECOVERY_REQUIRED; RR_VERIFICATION_FAILED; RR_VERIFICATION_STALE;
    RR_VERIFICATION_UNAVAILABLE; RR_COMPLETION_REPLAN_REQUIRED; RR_COMPLETION_EXTERNAL_BLOCKED;
    RR_COMPLETION_FAILURE_REVIEW_REQUIRED; RR_IDENTICAL_FAILURE_SIGNATURE;
    RR_RECOVERY_ATTEMPT_BUDGET_EXHAUSTED; RR_REPLAN_BUDGET_EXHAUSTED; RR_PLANNING_BLOCKED;
    RR_PLANNING_STALE; RR_PLANNING_INVALID; RR_DURABLE_HISTORY_INTEGRITY_ERROR; RR_TASK_TERMINAL];
  enum_value r := match r with
    | RR_NO_RECOVERY_REQUIRED => "no_recovery_required"
    | RR_VERIFICATION_FAILED => "verification_failed"
    | RR_VERIFICATION_STALE => "verification_stale"
    | RR_VERIFICATION_UNAVAILABLE => "verification_unavailable"
    | RR_COMPLETION_REPLAN_REQUIRED => "completion_replan_required"
    | RR_COMPLETION_EXTERNAL_BLOCKED => "completion_external_blocked"
    | RR_COMPLETION_FAILURE_REVIEW_REQUIRED => "completion_failure_review_required"
    | RR_IDENTICAL_FAILURE_SIGNATURE => "identical_failure_signature"
    | RR_RECOVERY_ATTEMPT_BUDGET_EXHAUSTED => "recovery_attempt_budget_exhausted"
    | RR_REPLAN_BUDGET_EXHAUSTED => "replan_budget_exhausted"
    | RR_PLANNING_BLOCKED => "planning_blocked"
    | RR_PLANNING_STALE => "planning_stale"
    | RR_PLANNING_INVALID => "planning_invalid"
    | RR_DURABLE_HISTORY_INTEGRITY_ERROR => "durable_history_integrity_error"
    | RR_TASK_TERMINAL => "task_terminal" end |}.
#[export] Instance RecoveryReasonCode_laws : PyEnumLaws RecoveryReasonCode.
Proof. solve_enum_laws. Qed.

Inductive RecoveryFailureSource :=
| RF_VERIFY_FIX | RF_TRUSTED_VERIFICATION | RF_EXECUTION | RF_COMPLETION | RF_PLANNING | RF_UNKNOWN.
#[export] Instance RecoveryFailureSource_eq_dec : EqDecision RecoveryFailureSource.
Proof. solve_decision. Defined.
#[export] Instance RecoveryFailureSource_enum : PyEnum RecoveryFailureSource := {|
  members := [RF_VERIFY_FIX; RF_TRUSTED_VERIFICATION; RF_EXECUTION; RF_COMPLETION; RF_PLANNING; RF_UNKNOWN];
  enum_value s := match s with
    | RF_VERIFY_FIX => "verify_fix" | RF_TRUSTED_VERIFICATION => "trusted_verification"
    | RF_EXECUTION => "execution" | RF_COMPLETION => "completion" | RF_PLANNING => "planning"
    | RF_UNKNOWN => "unknown" end |}.

Inductive PlanningRecoveryStatus := PS_NONE | PS_BLOCKED | PS_STALE | PS_INVALID.
#[export] Instance PlanningRecoveryStatus_eq_dec : EqDecision PlanningRecoveryStatus.
Proof. solve_decision. Defined.
#[export] Instance PlanningRecoveryStatus_enum : PyEnum PlanningRecoveryStatus := {|
  members := [PS_NONE; PS_BLOCKED; PS_STALE; PS_INVALID];
  enum_value s := match s with
    | PS_NONE => "none" | PS_BLOCKED => "blocked" | PS_STALE => "stale" | PS_INVALID => "invalid" end |}.
#[export] Instance PlanningRecoveryStatus_laws : PyEnumLaws PlanningRecoveryStatus.
Proof. solve_enum_laws. Qed.

(** [coding/planning/verification_assessment.py] *)
Inductive VerificationAssessmentDisposition := VD_SATISFIED | VD_FAILED | VD_INCONCLUSIVE | VD_UNAVAILABLE | VD_STALE.
#[export] Instance VerificationAssessmentDisposition_eq_dec : EqDecision VerificationAssessmentDisposition.
Proof. solve_decision. Defined.
#[export] Instance VerificationAssessmentDisposition_enum : PyEnum VerificationAssessmentDisposition := {|
  members := [VD_SATISFIED; VD_FAILED; VD_INCONCLUSIVE; VD_UNAVAILABLE; VD_STALE];
  enum_value s := match s with
    | VD_SATISFIED => "satisfied" | VD_FAILED => "failed" | VD_INCONCLUSIVE => "inconclusive"
    | VD_UNAVAILABLE => "unavailable" | VD_STALE => "stale" end |}.
#[export] Instance VerificationAssessmentDisposition_laws : PyEnumLaws VerificationAssessmentDisposition.
Proof. solve_enum_laws. Qed.

(** ** Field validation *)
Definition has_nul (s : string) : bool := string_existsb (fun c => byte c =? 0) s.

Definition _text (value : pyval) (label : string) (allow_empty : bool) (limit : Z) : res string :=
  match value with
  | PStr s =>
      rce_if (negb allow_empty && str_empty s) (label +:+ " must be a string") ;;*
      rce_if (limit <? py_len s) (label +:+ " exceeds its bound") ;;*
      rce_if (has_nul s) (label +:+ " contains a NUL byte") ;;*
      Ok s
  | _ => rce (label +:+ " must be a string")
  end.
Definition id_text (value : pyval) (label : string) : res string :=
  _text value label false MAX_RECOVERY_ID_LENGTH.
Definition _optional_text (value : pyval) (label : string) : res (option string) :=
  match value with
  | PNone => Ok None
  | v => let* s := id_text v label in Ok (Some s)
  end.
Definition _digest (value : pyval) (label : string) : res string :=
  match value with
  | PStr s => rce_if (negb (is_sha256_hex s)) (label +:+ " must be a lowercase SHA-256 digest") ;;* Ok s
  | _ => rce (label +:+ " must be a lowercase SHA-256 digest")
  end.
Definition _optional_digest (value : pyval) (label : string) : res (option string) :=
  match value with
  | PNone => Ok None
  | v => let* s := _digest v label in Ok (Some s)
  end.
(** [type(value) is not int or value < 0] *)
Definition nonneg (value : pyval) (label : string) : res Z :=
  match value with
  | PInt z => rce_if (z <? 0) (label +:+ " must be non-negative") ;;* Ok z
  | _ => rce (label +:+ " must be non-negative")
  end.
Definition optional_nonneg (value : pyval) (label : string) : res (option Z) :=
  match value with
  | PNone => Ok None
  | v => let* z := nonneg v label in Ok (Some z)
  end.

(** [_tuple_text] *)
Definition _tuple_text (value : list pyval) (label : string) (max_items : nat) : res (list string) :=
  let* result := res_map (fun item => id_text item label) value in
  rce_if (has_duplicates result) (label +:+ " must not contain duplicates") ;;*
  rce_if (Nat.ltb max_items (length result)) (label +:+ " exceeds its bound") ;;*
  Ok (py_sorted result).

Definition _reject_duplicate_keys (pairs : list (string * pyval)) : res pyval :=
  let* result :=
    foldl (fun acc '(key, value) =>
      let* d := acc in
      raise_if (bool_decide (key ∈ dict_keys d)) RecoveryContractError
        "canonical recovery JSON has duplicate keys" ;;*
      Ok (dict_set key value d)) (Ok []) pairs in
  Ok (PDict result).

(** A float equal to one prints as [1.0]. *)
Definition schema_value (value : pyval) : pyval :=
  match value with PFloat lit => if float_is_one lit then PFloat "1.0" else value | _ => value end.

(** ** Failure signatures *)
Record NormalizedFailureCase := MkCase {
  fc_subject_id : string; fc_check_id : option string; fc_file_identity : option string;
  fc_line : option Z; fc_error_digest : option string; fc_command_digest : option string;
  fc_result_status : option string
}.
#[export] Instance NormalizedFailureCase_eq_dec : EqDecision NormalizedFailureCase.
Proof. solve_decision. Defined.

Definition make_case (kw : string -> pyval) : res NormalizedFailureCase :=
  let* subject := id_text (kw "subject_id") "subject_id" in
  let* check_id := _optional_text (kw "check_id") "check_id" in
  let* file := _optional_text (kw "file_identity") "file_identity" in
  let* line := match kw "line" with
    | PNone => Ok None
    | PInt z => rce_if (z <? 1) "line must be a positive integer or None" ;;* Ok (Some z)
    | _ => rce "line must be a positive integer or None" end in
  let* error := _optional_digest (kw "error_digest") "error_digest" in
  let* command := _optional_digest (kw "command_digest") "command_digest" in
  let* status := _optional_text (kw "result_status") "result_status" in
  Ok (MkCase subject check_id file line error command status).

Definition opt_int (o : option Z) : pyval := match o with Some z => PInt z | None => PNone end.

Definition case_to_payload (c : NormalizedFailureCase) : pyval :=
  PDict [("subject_id", PStr (fc_subject_id c)); ("check_id", opt_str (fc_check_id c));
         ("file_identity", opt_str (fc_file_identity c)); ("line", opt_int (fc_line c));
         ("error_digest", opt_str (fc_error_digest c)); ("command_digest", opt_str (fc_command_digest c));
         ("result_status", opt_str (fc_result_status c))].

Definition or_empty (o : option string) : string := default EmptyString o.
Definition _failure_case_key (c : NormalizedFailureCase)
    : string * (string * (string * (Z * (string * (string * string))))) :=
  (fc_subject_id c, (or_empty (fc_check_id c), (or_empty (fc_file_identity c), (default 0 (fc_line c),
    (or_empty (fc_error_digest c), (or_empty (fc_command_digest c), or_empty (fc_result_status c))))))).

(** The fields of [NormalizedFailureSignature] that its digest covers. *)
Record SignatureBody := MkSignatureBody {
  sg_source : RecoveryFailureSource; sg_failed_count : Z; sg_error_count : Z;
  sg_failed_cases : list NormalizedFailureCase; sg_requirement_ids : list string;
  sg_check_ids : list string; sg_command_digests : list string; sg_result_statuses : list string;
  sg_plan_id : option string; sg_plan_digest : option string;
  sg_overflow_count : Z; sg_overflow_digest : option string
}.
Record NormalizedFailureSignature := MkSignature { sg_body : SignatureBody; signature_digest : string }.

Definition signature_payload (b : SignatureBody) : pyval :=
  PDict [("source", PStr (enum_value (sg_source b))); ("failed_count", PInt (sg_failed_count b));
         ("error_count", PInt (sg_error_count b));
         ("failed_cases", PList (case_to_payload <$> sg_failed_cases b));
         ("verification_requirement_ids", str_list (sg_requirement_ids b));
         ("verification_check_ids", str_list (sg_check_ids b));
         ("command_digests", str_list (sg_command_digests b));
         ("result_statuses", str_list (sg_result_statuses b));
         ("published_plan_revision_id", opt_str (sg_plan_id b));
         ("published_plan_revision_digest", opt_str (sg_plan_digest b));
         ("overflow_count", PInt (sg_overflow_count b));
         ("overflow_digest", opt_str (sg_overflow_digest b))].

Definition is_none (v : pyval) : bool := match v with PNone => true | _ => false end.

(** [NormalizedFailureSignature.__post_init__]; [lists] holds the tuple
    arguments. *)
Definition make_signature (source : RecoveryFailureSource) (kw : string -> pyval)
    (cases : list NormalizedFailureCase) (lists : string -> list pyval)
    (digest : pyval) : res NormalizedFailureSignature :=
  let* failed := nonneg (kw "failed_count") "failed_count" in
  let* error := nonneg (kw "error_count") "error_count" in
  let* overflow := nonneg (kw "overflow_count") "overflow_count" in
  rce_if (Nat.ltb MAX_FAILURE_CASES (length cases)) "failed_cases exceeds its fixed bound" ;;*
  let* reqs := _tuple_text (lists "verification_requirement_ids") "verification_requirement_ids" MAX_FAILURE_CASES in
  let* checks := _tuple_text (lists "verification_check_ids") "verification_check_ids" MAX_FAILURE_CASES in
  let* commands := _tuple_text (lists "command_digests") "command_digests" MAX_FAILURE_CASES in
  let* _ := res_map (fun item => _digest (PStr item) "command_digests") commands in
  let* statuses := _tuple_text (lists "result_statuses") "result_statuses" MAX_FAILURE_CASES in
  let* plan := _optional_text (kw "published_plan_revision_id") "published_plan_revision_id" in
  rce_if (bool_decide (plan = None) && negb (is_none (kw "published_plan_revision_digest")))
    "published_plan_revision_digest requires a plan revision identity" ;;*
  let* plan_digest := _optional_digest (kw "published_plan_revision_digest") "published_plan_revision_digest" in
  rce_if ((overflow =? 0) && negb (is_none (kw "overflow_digest"))) "overflow_digest requires overflow_count" ;;*
  let* overflow_digest := _optional_digest (kw "overflow_digest") "overflow_digest" in
  let b := MkSignatureBody source failed error (sorted_by _failure_case_key cases) reqs checks commands
             statuses plan plan_digest overflow overflow_digest in
  match digest with
  | PStr given =>
      let* expected := canonical_digest (signature_payload b) in
      let* d := (if negb (str_empty given) then
        let* g := _digest (PStr given) "signature_digest" in
        rce_if (negb (bool_decide (g = expected))) "signature_digest does not match semantics" ;;* Ok g
      else Ok expected) in
      let* bytes := canonical_json_bytes (signature_payload b) in
      rce_if (MAX_FAILURE_SIGNATURE_BYTES <? Z.of_nat (String.length bytes))
        "failure signature exceeds its byte bound" ;;*
      Ok (MkSignature b d)
  | _ => rce "signature_digest must be a string"
  end.

(** [NormalizedFailureSignature.from_cases] *)
Definition from_cases (source : RecoveryFailureSource) (kw : string -> pyval)
    (cases : list NormalizedFailureCase) (lists : string -> list pyval) : res NormalizedFailureSignature :=
  let ordered := sorted_by _failure_case_key cases in
  let overflow := drop MAX_FAILURE_CASES ordered in
  let retained := take MAX_FAILURE_CASES ordered in
  let* overflow_digest := match overflow with
    | [] => Ok PNone
    | _ => let* d := canonical_digest (PList (case_to_payload <$> overflow)) in Ok (PStr d) end in
  let kw' key :=
    if bool_decide (key = "overflow_count") then PInt (Z.of_nat (length overflow))
    else if bool_decide (key = "overflow_digest") then overflow_digest
    else kw key in
  make_signature source kw' retained lists (PStr EmptyString).

(** ** Policy *)
Record PolicyBody := MkPolicyBody {
  rp_schema_version : pyval; max_recovery_attempts_per_plan : Z; identical_failure_threshold : Z;
  max_replans_per_task : Z; max_recovery_cycles_per_turn : Z; max_history_records : Z
}.
Record RecoveryPolicy := MkRecoveryPolicy { rp_body : PolicyBody; policy_digest : string }.

Definition policy_payload (p : PolicyBody) : pyval :=
  PDict [("schema_version", rp_schema_version p);
         ("max_recovery_attempts_per_plan", PInt (max_recovery_attempts_per_plan p));
         ("identical_failure_threshold", PInt (identical_failure_threshold p));
         ("max_replans_per_task", PInt (max_replans_per_task p));
         ("max_recovery_cycles_per_turn", PInt (max_recovery_cycles_per_turn p));
         ("max_history_records", PInt (max_history_records p))].

Definition bounded_int (value : pyval) (upper : Z) : res Z :=
  match value with
  | PInt z => rce_if ((z <? 0) || (upper <? z)) "value is outside its trusted bound" ;;* Ok z
  | _ => rce "value is outside its trusted bound"
  end.

Definition make_recovery_policy (schema attempts threshold replans cycles history digest : pyval)
    : res RecoveryPolicy :=
  rce_if (negb (equals_one schema)) "unsupported recovery policy schema" ;;*
  let* a := bounded_int attempts 8 in
  let* t := bounded_int threshold 8 in
  let* r := bounded_int replans 8 in
  let* c := bounded_int cycles 8 in
  let* h := bounded_int history MAX_RECOVERY_HISTORY_RECORDS in
  let b := MkPolicyBody schema a t r c h in
  let* expected := canonical_digest (policy_payload b) in
  if truthy digest then
    let* d := _digest digest "policy_digest" in
    rce_if (negb (bool_decide (d = expected))) "policy_digest does not match semantics" ;;*
    Ok (MkRecoveryPolicy b d)
  else Ok (MkRecoveryPolicy b expected).

(** [RecoveryPolicy.production_default()] *)
Definition production_default : res RecoveryPolicy :=
  make_recovery_policy (PInt 1) (PInt 3) (PInt 2) (PInt 3) (PInt 4) (PInt MAX_RECOVERY_HISTORY_RECORDS)
    (PStr EmptyString).

(** ** Input

    The four counters are checked only when they are not [None], so [None] is a
    possible value of each. *)
Record RecoveryInput := MkInput {
  ri_principal_id : string; ri_project_id : string; ri_task_id : string; ri_goal_spec_id : string;
  ri_goal_spec_digest : string; ri_cognitive_state : AgentCognitiveState; ri_control_state_version : Z;
  ri_task_status : string; ri_workspace_id : option string; ri_repository_id : option string;
  ri_base_revision : option string; ri_published_plan_revision_id : option string;
  ri_published_plan_revision_digest : option string; ri_latest_plan_revision_id : option string;
  ri_latest_plan_revision_sequence : option Z; ri_verification_assessment_id : option string;
  ri_verification_assessment_digest : option string;
  ri_verification_disposition : option VerificationAssessmentDisposition;
  ri_verification_repository_generation : option string; ri_verification_change_identity : option string;
  ri_completion_decision_id : option string; ri_completion_decision_digest : option string;
  ri_completion_decision_sequence : option Z; ri_completion_outcome : option CompletionOutcome;
  ri_completion_continuation_state : option CompletionContinuationState;
  ri_failure_signature : option NormalizedFailureSignature; ri_failure_signature_digest : option string;
  ri_no_progress_detected : bool; ri_identical_failure_streak : option Z;
  ri_recovery_attempt_count : option Z; ri_replan_count : option Z; ri_total_recovery_count : option Z; ri_planning_status : PlanningRecoveryStatus;
  ri_policy : RecoveryPolicy
}.

Definition opt_enum {A} `{PyEnum A} (o : option A) : pyval := opt_str (enum_value <$> o).

Definition input_payload (i : RecoveryInput) : list (string * pyval) :=
  let p := rp_body (ri_policy i) in
  [("principal_id", PStr (ri_principal_id i)); ("project_id", PStr (ri_project_id i));
   ("task_id", PStr (ri_task_id i)); ("goal_spec_id", PStr (ri_goal_spec_id i));
   ("goal_spec_digest", PStr (ri_goal_spec_digest i));
   ("cognitive_state", PStr (enum_value (ri_cognitive_state i)));
   ("control_state_version", PInt (ri_control_state_version i));
   ("task_status", PStr (ri_task_status i)); ("workspace_id", opt_str (ri_workspace_id i));
   ("repository_id", opt_str (ri_repository_id i)); ("base_revision", opt_str (ri_base_revision i));
   ("published_plan_revision_id", opt_str (ri_published_plan_revision_id i));
   ("published_plan_revision_digest", opt_str (ri_published_plan_revision_digest i));
   ("latest_plan_revision_id", opt_str (ri_latest_plan_revision_id i));
   ("latest_plan_revision_sequence", opt_int (ri_latest_plan_revision_sequence i));
   ("verification_assessment_id", opt_str (ri_verification_assessment_id i));
   ("verification_assessment_digest", opt_str (ri_verification_assessment_digest i));
   ("verification_disposition", opt_enum (ri_verification_disposition i));
   ("verification_repository_generation", opt_str (ri_verification_repository_generation i));
   ("verification_change_identity", opt_str (ri_verification_change_identity i));
   ("completion_decision_id", opt_str (ri_completion_decision_id i));
   ("completion_decision_digest", opt_str (ri_completion_decision_digest i));
   ("completion_decision_sequence", opt_int (ri_completion_decision_sequence i));
   ("completion_outcome", opt_enum (ri_completion_outcome i));
   ("completion_continuation_state", opt_enum (ri_completion_continuation_state i));
   ("failure_signature_digest", opt_str (ri_failure_signature_digest i));
   ("no_progress_detected", PBool (ri_no_progress_detected i));
   ("identical_failure_streak", opt_int (ri_identical_failure_streak i));
   ("recovery_attempt_count", opt_int (ri_recovery_attempt_count i));
   ("replan_count", opt_int (ri_replan_count i)); ("total_recovery_count", opt_int (ri_total_recovery_count i));
   ("planning_status", PStr (enum_value (ri_planning_status i)));
   ("policy_schema_version", rp_schema_version p);
   ("policy_max_recovery_attempts_per_plan", PInt (max_recovery_attempts_per_plan p));
   ("policy_identical_failure_threshold", PInt (identical_failure_threshold p));
   ("policy_max_replans_per_task", PInt (max_replans_per_task p));
   ("policy_max_recovery_cycles_per_turn", PInt (max_recovery_cycles_per_turn p));
   ("policy_max_history_records", PInt (max_history_records p));
   ("policy_digest", PStr (policy_digest (ri_policy i)))].

Definition input_digest (i : RecoveryInput) : res string := canonical_digest (PDict (input_payload i)).

Definition is_some {A} (o : option A) : bool := match o with Some _ => true | None => false end.

(** [RecoveryInput.__post_init__] *)
Definition make_input (kw : string -> pyval) (cognitive : AgentCognitiveState)
    (disposition : option VerificationAssessmentDisposition) (outcome : option CompletionOutcome)
    (continuation : option CompletionContinuationState)
    (signature : option NormalizedFailureSignature) (planning : PlanningRecoveryStatus)
    (policy : RecoveryPolicy) : res RecoveryInput :=
  let* principal := id_text (kw "principal_id") "principal_id" in
  let* task := id_text (kw "task_id") "task_id" in
  let* goal := id_text (kw "goal_spec_id") "goal_spec_id" in
  let* status := id_text (kw "task_status") "task_status" in
  let* project := match kw "project_id" with PStr s => Ok s | _ => rce "project_id must be a string" end in
  let* goal_digest := _digest (kw "goal_spec_digest") "goal_spec_digest" in
  let* version := nonneg (kw "control_state_version") "control_state_version" in
  let* workspace := _optional_text (kw "workspace_id") "workspace_id" in
  let* repository := _optional_text (kw "repository_id") "repository_id" in
  let* base := _optional_text (kw "base_revision") "base_revision" in
  let* plan := _optional_text (kw "published_plan_revision_id") "published_plan_revision_id" in
  let* latest := _optional_text (kw "latest_plan_revision_id") "latest_plan_revision_id" in
  let* assessment := _optional_text (kw "verification_assessment_id") "verification_assessment_id" in
  let* generation := _optional_text (kw "verification_repository_generation") "verification_repository_generation" in
  let* change := _optional_text (kw "verification_change_identity") "verification_change_identity" in
  let* decision := _optional_text (kw "completion_decision_id") "completion_decision_id" in
  rce_if (negb (is_some plan) && negb (is_none (kw "published_plan_revision_digest")))
    "published plan digest requires a plan identity" ;;*
  let* plan_digest := _optional_digest (kw "published_plan_revision_digest") "published_plan_revision_digest" in
  let* assessment_digest := _optional_digest (kw "verification_assessment_digest") "verification_assessment_digest" in
  let* decision_dg := _optional_digest (kw "completion_decision_digest") "completion_decision_digest" in
  (if negb (is_some assessment) then
     rce_if (is_some assessment_digest || is_some disposition || is_some generation || is_some change)
       "verification facts require a verification assessment identity"
   else rce_if (negb (is_some assessment_digest) || negb (is_some disposition))
       "verification assessment identity requires digest and disposition") ;;*
  (if negb (is_some decision) then
     rce_if (is_some decision_dg || negb (is_none (kw "completion_decision_sequence"))
             || is_some outcome || is_some continuation)
       "completion facts require a completion decision identity"
   else rce_if (negb (is_some decision_dg) || is_none (kw "completion_decision_sequence")
             || negb (is_some outcome) || negb (is_some continuation))
       "completion decision identity requires all decision facts") ;;*
  let* given := _optional_digest (kw "failure_signature_digest") "failure_signature_digest" in
  let derived := signature_digest <$> signature in
  rce_if (is_some derived && is_some given && negb (bool_decide (given = derived)))
    "failure signature digest is inconsistent" ;;*
  let failure_digest := if is_some derived then derived else given in
  let* no_progress := match kw "no_progress_detected" with
    | PBool b => Ok b | _ => rce "no_progress_detected must be a boolean" end in
  rce_if (no_progress && negb (is_some failure_digest))
    "no_progress_detected requires a normalized failure signature digest" ;;*
  let* latest_seq := optional_nonneg (kw "latest_plan_revision_sequence") "latest_plan_revision_sequence" in
  let* decision_seq := optional_nonneg (kw "completion_decision_sequence") "completion_decision_sequence" in
  let* streak := optional_nonneg (kw "identical_failure_streak") "identical_failure_streak" in
  let* attempts := optional_nonneg (kw "recovery_attempt_count") "recovery_attempt_count" in
  let* replans := optional_nonneg (kw "replan_count") "replan_count" in
  let* total := optional_nonneg (kw "total_recovery_count") "total_recovery_count" in
  rce_if (negb (is_some latest) && is_some latest_seq) "latest plan sequence requires a latest plan identity" ;;*
  rce_if (is_some latest && negb (is_some latest_seq)) "latest plan identity requires a latest plan sequence" ;;*
  rce_if (is_some decision_seq && negb (is_some decision))
    "completion sequence requires a completion decision identity" ;;*
  let i := MkInput principal project task goal goal_digest cognitive version status workspace repository
    base plan plan_digest latest latest_seq assessment assessment_digest disposition generation change
    decision decision_dg decision_seq outcome continuation signature failure_digest no_progress streak
    attempts replans total planning policy in
  let* bytes := canonical_json_bytes (PDict (input_payload i)) in
  rce_if (MAX_FAILURE_SIGNATURE_BYTES <? Z.of_nat (String.length bytes))
    "recovery input exceeds its bounded size" ;;*
  Ok i.

(** ** Evaluations and decisions *)
Record RecoveryEvaluation := MkEvaluation {
  re_action : RecoveryAction; re_reason_code : RecoveryReasonCode;
  re_subject_ids : list string; re_reason_summary : string
}.
Definition make_evaluation (action : RecoveryAction) (reason : RecoveryReasonCode)
    (subjects : list pyval) (summary : pyval) : res RecoveryEvaluation :=
  let* ids := _tuple_text subjects "subject_ids" MAX_SUBJECT_IDS in
  let* text := _text summary "reason_summary" true MAX_RECOVERY_TEXT_LENGTH in
  Ok (MkEvaluation action reason ids text).

Record RecoveryDecision := MkRecoveryDecision {
  rd_schema_version : pyval; recovery_decision_id : string; rd_input : RecoveryInput;
  rd_action : RecoveryAction; rd_reason_code : RecoveryReasonCode;
  rd_subject_ids : list string; rd_reason_summary : string; rd_decision_digest : string
}.

Definition decision_payload (schema : pyval) (i : RecoveryInput) (action : RecoveryAction)
    (reason : RecoveryReasonCode) (subjects : list string) (summary : string) : list (string * pyval) :=
  ("schema_version", schema) :: input_payload i
  ++ [("action", PStr (enum_value action)); ("reason_code", PStr (enum_value reason));
      ("subject_ids", str_list subjects); ("reason_summary", PStr summary)].
(** [RecoveryDecision.semantic_payload] *)
Definition rd_payload (d : RecoveryDecision) : list (string * pyval) :=
  decision_payload (rd_schema_version d) (rd_input d) (rd_action d) (rd_reason_code d)
    (rd_subject_ids d) (rd_reason_summary d).

(** [RecoveryDecision.__post_init__] *)
Definition make_recovery_decision (schema id : pyval) (i : RecoveryInput) (action : RecoveryAction)
    (reason : RecoveryReasonCode) (subjects : list pyval) (summary digest : pyval) : res RecoveryDecision :=
  rce_if (negb (equals_one schema)) "unsupported recovery decision schema" ;;*
  let* id := id_text id "recovery_decision_id" in
  let* ids := _tuple_text subjects "subject_ids" MAX_SUBJECT_IDS in
  let* text := _text summary "reason_summary" true MAX_RECOVERY_TEXT_LENGTH in
  let* expected := canonical_digest (PDict (decision_payload schema i action reason ids text)) in
  let* d := _digest digest "decision_digest" in
  rce_if (negb (bool_decide (d = expected))) "decision_digest does not match semantics" ;;*
  Ok (MkRecoveryDecision schema id i action reason ids text d).

(** [RecoveryDecision.from_input] *)
Definition from_input (id : pyval) (i : RecoveryInput) (e : RecoveryEvaluation) (schema : pyval)
    : res RecoveryDecision :=
  let* digest := canonical_digest (PDict (decision_payload schema i (re_action e) (re_reason_code e)
                   (re_subject_ids e) (re_reason_summary e))) in
  make_recovery_decision schema id i (re_action e) (re_reason_code e) (PStr <$> re_subject_ids e)
    (PStr (re_reason_summary e)) (PStr digest).

Definition rd_to_canonical_mapping (d : RecoveryDecision) : pyval :=
  PDict (rd_payload d ++ [("recovery_decision_id", PStr (recovery_decision_id d));
                          ("decision_digest", PStr (rd_decision_digest d))]).
Definition rd_canonical_json (d : RecoveryDecision) : res string :=
  canonical_json_bytes (rd_to_canonical_mapping d).

(** [RecoveryDecision.from_canonical_json] *)
Definition INPUT_KEYS : list string :=
  ["principal_id"; "project_id"; "task_id"; "goal_spec_id"; "goal_spec_digest"; "cognitive_state";
   "control_state_version"; "task_status"; "workspace_id"; "repository_id"; "base_revision";
   "published_plan_revision_id"; "published_plan_revision_digest"; "latest_plan_revision_id";
   "latest_plan_revision_sequence"; "verification_assessment_id"; "verification_assessment_digest";
   "verification_disposition"; "verification_repository_generation"; "verification_change_identity";
   "completion_decision_id"; "completion_decision_digest"; "completion_decision_sequence";
   "completion_outcome"; "completion_continuation_state"; "failure_signature_digest";
   "no_progress_detected"; "identical_failure_streak"; "recovery_attempt_count"; "replan_count";
   "total_recovery_count"; "planning_status"; "policy_schema_version";
   "policy_max_recovery_attempts_per_plan"; "policy_identical_failure_threshold";
   "policy_max_replans_per_task"; "policy_max_recovery_cycles_per_turn"; "policy_max_history_records";
   "policy_digest"].
Definition REQUIRED_KEYS : list string :=
  ["schema_version"; "recovery_decision_id"; "decision_digest"; "action"; "reason_code"; "subject_ids";
   "reason_summary"] ++ INPUT_KEYS.

(** [set(decoded) == required] *)
Definition same_keys (d : list (string * pyval)) (keys : list string) : bool :=
  forallb (fun k => str_in k keys) (dict_keys d) && forallb (fun k => str_in k (dict_keys d)) keys.

(** [decoded[key]], for a key known to be present *)
Definition field (d : list (string * pyval)) (key : string) : pyval := default PNone (dict_get key d).

Definition optional_enum {A} `{PyEnum A} (value : pyval) (label : string) : res (option A) :=
  match value with
  | PNone => Ok None
  | v => try_except (let* a := enum_of v in Ok (Some a)) [TypeError; ValueError]
           (fun _ => rce (label +:+ " is invalid"))
  end.

(** [decoded["subject_ids"]] after the checks that it is a list of strings *)
Definition subject_values (v : pyval) : res (list pyval) :=
  match v with
  | PList l =>
      rce_if (existsb (fun x => match x with PStr _ => false | _ => true end) l)
        "subject_ids must contain only strings" ;;* Ok l
  | _ => rce "subject_ids must be a JSON array"
  end.

Definition decode_policy (d : list (string * pyval)) : res RecoveryPolicy :=
  make_recovery_policy (schema_value (field d "policy_schema_version"))
    (field d "policy_max_recovery_attempts_per_plan") (field d "policy_identical_failure_threshold")
    (field d "policy_max_replans_per_task") (field d "policy_max_recovery_cycles_per_turn")
    (field d "policy_max_history_records") (field d "policy_digest").

(** The body of the [try] statement. *)
Definition decode_values (d : list (string * pyval)) (subjects : list pyval)
    : res (RecoveryInput * RecoveryEvaluation) :=
  let* policy := decode_policy d in
  let* cognitive := enum_of (field d "cognitive_state") in
  let* disposition := optional_enum (field d "verification_disposition") "verification_disposition" in
  let* outcome := optional_enum (field d "completion_outcome") "completion_outcome" in
  let* continuation := optional_enum (field d "completion_continuation_state") "completion_continuation_state" in
  let* planning := enum_of (field d "planning_status") in
  let* i := make_input (field d) cognitive disposition outcome continuation None planning policy in
  let* action := enum_of (field d "action") in
  let* reason := enum_of (field d "reason_code") in
  let* e := make_evaluation action reason subjects (field d "reason_summary") in
  Ok (i, e).

(** [value != expected], for an expected string *)
Definition differs (value : pyval) (expected : option string) : bool :=
  match expected with
  | Some e => match value with PStr s => negb (bool_decide (s = e)) | _ => true end
  | None => false
  end.

Definition rd_from_canonical_json (payload : string) (expected_digest expected_id : option string)
    : res RecoveryDecision :=
  let* decoded := try_except (loads _reject_duplicate_keys default_constant_hook payload)
    [TypeError; ValueError] (fun _ => rce "canonical recovery decision JSON is malformed") in
  match decoded with
  | PDict d =>
      rce_if (negb (same_keys d REQUIRED_KEYS)) "canonical recovery decision has an invalid schema" ;;*
      rce_if (differs (field d "recovery_decision_id") expected_id) "recovery decision identity mismatch" ;;*
      rce_if (differs (field d "decision_digest") expected_digest) "recovery decision digest mismatch" ;;*
      let* subjects := subject_values (field d "subject_ids") in
      let* ie := try_except (decode_values d subjects) [KeyError; TypeError; ValueError; RecoveryContractError]
        (fun e => if isinstance (exn_cls e) RecoveryContractError then Raise e
                  else rce "canonical recovery decision contains malformed values") in
      let* result := from_input (field d "recovery_decision_id") ie.1 ie.2
                       (schema_value (field d "schema_version")) in
      rce_if (differs (field d "decision_digest") (Some (rd_decision_digest result)))
        "recovery decision digest does not match payload" ;;*
      Ok result
  | _ => rce "canonical recovery decision must be an object"
  end.

(** ** The evaluator *)

(** [a >= b] and [a < b] on a counter that may be [None] *)
Definition count_ge (o : option Z) (n : Z) : res bool :=
  match o with
  | Some z => Ok (n <=? z)
  | None => Raise (Exn TypeError "'>=' not supported between instances of 'NoneType' and 'int'")
  end.
Definition count_lt (o : option Z) (n : Z) : res bool :=
  match o with
  | Some z => Ok (z <? n)
  | None => Raise (Exn TypeError "'<' not supported between instances of 'NoneType' and 'int'")
  end.
Definition evaluation (a : RecoveryAction) (r : RecoveryReasonCode) (summary : string)
    : res RecoveryEvaluation := make_evaluation a r [] (PStr summary).

Definition _repeated_failure_action (i : RecoveryInput) : res RecoveryEvaluation :=
  let p := rp_body (ri_policy i) in
  let* within := count_lt (ri_replan_count i) (max_replans_per_task p) in
  if within then
    let* repeated := count_ge (ri_identical_failure_streak i) (identical_failure_threshold p) in
    evaluation RA_REPLAN
      (if repeated then RR_IDENTICAL_FAILURE_SIGNATURE else RR_RECOVERY_ATTEMPT_BUDGET_EXHAUSTED)
      "current-plan recovery budget requires replanning"
  else evaluation RA_BLOCK RR_REPLAN_BUDGET_EXHAUSTED "replan budget is exhausted".

Definition _failure_action (i : RecoveryInput) : res RecoveryEvaluation :=
  let p := rp_body (ri_policy i) in
  let* repeated := count_ge (ri_identical_failure_streak i) (identical_failure_threshold p) in
  let* exhausted := if repeated then Ok true
    else count_ge (ri_recovery_attempt_count i) (max_recovery_attempts_per_plan p) in
  if exhausted then _repeated_failure_action i
  else evaluation RA_RECOVER_CURRENT_PLAN RR_VERIFICATION_FAILED
         "trusted verification failed; current plan may be recovered".

(** [RecoveryEvaluator.evaluate_action] *)
Definition evaluate_action (i : RecoveryInput) : res RecoveryEvaluation :=
  let p := rp_body (ri_policy i) in
  if str_in (ri_task_status i) _TERMINAL_TASK_STATUSES then
    evaluation RA_NO_ACTION RR_TASK_TERMINAL "terminal task has no recovery action"
  else match ri_planning_status i with
  | PS_INVALID => evaluation RA_BLOCK RR_PLANNING_INVALID "planning input is invalid"
  | PS_STALE => evaluation RA_BLOCK RR_PLANNING_STALE "planning input is stale"
  | PS_BLOCKED => evaluation RA_BLOCK RR_PLANNING_BLOCKED "planning is blocked"
  | PS_NONE =>
  match ri_completion_continuation_state i with
  | Some CC_INTEGRITY_ERROR => evaluation RA_BLOCK RR_DURABLE_HISTORY_INTEGRITY_ERROR
      "durable completion history failed integrity checks"
  | Some CC_REPLAN_REQUIRED => evaluation RA_REPLAN RR_COMPLETION_REPLAN_REQUIRED
      "completion history requires a fresh plan"
  | Some CC_EXTERNAL_BLOCKED => evaluation RA_BLOCK RR_COMPLETION_EXTERNAL_BLOCKED
      "completion is blocked by an external condition"
  | Some CC_FAILURE_REVIEW_REQUIRED => evaluation RA_BLOCK RR_COMPLETION_FAILURE_REVIEW_REQUIRED
      "completion failure requires review"
  | _ =>
  match ri_verification_disposition i with
  | Some VD_FAILED => _failure_action i
  | Some VD_STALE => evaluation RA_BLOCK RR_VERIFICATION_STALE "trusted verification is stale"
  | Some VD_UNAVAILABLE | Some VD_INCONCLUSIVE =>
      evaluation RA_BLOCK RR_VERIFICATION_UNAVAILABLE "trusted verification is unavailable"
  | _ =>
      if ri_no_progress_detected i then
        let* within := count_lt (ri_replan_count i) (max_replans_per_task p) in
        if within then evaluation RA_REPLAN RR_IDENTICAL_FAILURE_SIGNATURE
          "identical failure observations indicate no progress"
        else evaluation RA_BLOCK RR_REPLAN_BUDGET_EXHAUSTED "replan budget is exhausted after no progress"
      else
        let* repeated := if is_some (ri_failure_signature_digest i)
          then count_ge (ri_identical_failure_streak i) (identical_failure_threshold p) else Ok false in
        if repeated then _repeated_failure_action i
        else evaluation RA_NO_ACTION RR_NO_RECOVERY_REQUIRED "no deterministic recovery signal is present"
  end
  end
  end.

(** [RecoveryEvaluator.evaluate] *)
Definition evaluate (i : RecoveryInput) (id : pyval) : res RecoveryDecision :=
  let* e := evaluate_action i in
  from_input id i e (PInt RECOVERY_DECISION_SCHEMA_VERSION).

(** ** What the evaluator decides *)
Definition text_fits (s : string) : bool := (py_len s <=? MAX_RECOVERY_TEXT_LENGTH) && negb (has_nul s).

Lemma evaluation_Ok a r s : text_fits s = true -> evaluation a r s = Ok (MkEvaluation a r [] s).
Proof.
  unfold text_fits. intros [H1 H2]%andb_true_iff. unfold evaluation, make_evaluation, _text.
  change (_tuple_text [] "subject_ids" MAX_SUBJECT_IDS) with (@Ok (list string) []). cbn [res_bind negb andb].
  unfold rce_if. rewrite !raise_if_false; [done|by apply negb_true_iff|lia|done].
Qed.
Ltac run_evaluation := repeat (rewrite evaluation_Ok by reflexivity).

(** The preconditions under which verification and progress facts are looked at. *)
Definition undecided (i : RecoveryInput) : Prop :=
  (ri_task_status i ∉ _TERMINAL_TASK_STATUSES) /\ ri_planning_status i = PS_NONE /\
  ri_completion_continuation_state i ∉
    [Some CC_INTEGRITY_ERROR; Some CC_REPLAN_REQUIRED; Some CC_EXTERNAL_BLOCKED; Some CC_FAILURE_REVIEW_REQUIRED].

(** What happens to an undecided input. *)
Definition undecided_action (i : RecoveryInput) : res RecoveryEvaluation :=
  match ri_verification_disposition i with
  | Some VD_FAILED => _failure_action i
  | Some VD_STALE => evaluation RA_BLOCK RR_VERIFICATION_STALE "trusted verification is stale"
  | Some VD_UNAVAILABLE | Some VD_INCONCLUSIVE =>
      evaluation RA_BLOCK RR_VERIFICATION_UNAVAILABLE "trusted verification is unavailable"
  | _ =>
      if ri_no_progress_detected i then
        let* within := count_lt (ri_replan_count i) (max_replans_per_task (rp_body (ri_policy i))) in
        if within then evaluation RA_REPLAN RR_IDENTICAL_FAILURE_SIGNATURE
          "identical failure observations indicate no progress"
        else evaluation RA_BLOCK RR_REPLAN_BUDGET_EXHAUSTED "replan budget is exhausted after no progress"
      else
        let* repeated := if is_some (ri_failure_signature_digest i)
          then count_ge (ri_identical_failure_streak i) (identical_failure_threshold (rp_body (ri_policy i)))
          else Ok false in
        if repeated then _repeated_failure_action i
        else evaluation RA_NO_ACTION RR_NO_RECOVERY_REQUIRED "no deterministic recovery signal is present"
  end.

(** Either the earlier facts fix the action, whatever the counters are, or the
    input is undecided. *)
Lemma evaluate_action_cases i :
  (undecided i /\ evaluate_action i = undecided_action i) \/
  (~ undecided i /\ exists a r s, a <> RA_RECOVER_CURRENT_PLAN /\
     (a = RA_REPLAN -> ri_completion_continuation_state i = Some CC_REPLAN_REQUIRED) /\
     forall i', ri_task_status i' = ri_task_status i -> ri_planning_status i' = ri_planning_status i ->
       ri_completion_continuation_state i' = ri_completion_continuation_state i ->
       evaluate_action i' = Ok (MkEvaluation a r [] s)).
Proof.
  unfold undecided. destruct (str_in (ri_task_status i) _TERMINAL_TASK_STATUSES) eqn:Ht.
  { right. split; [intros [Hn _]; by apply Hn, str_in_true|]. do 3 eexists. split_and!;
      [| |intros i' E1 E2 E3; unfold evaluate_action; rewrite E1, Ht; by run_evaluation]; done. }
  apply str_in_false in Ht as Ht'. destruct (ri_planning_status i) eqn:Hp.
  2-4: right; split; [by intros (_ & ? & _)|]; do 3 eexists; split_and!;
      [| |intros i' E1 E2 E3; unfold evaluate_action; rewrite E1, Ht, E2; by run_evaluation]; done.
  destruct (decide (ri_completion_continuation_state i ∈
    [Some CC_INTEGRITY_ERROR; Some CC_REPLAN_REQUIRED; Some CC_EXTERNAL_BLOCKED; Some CC_FAILURE_REVIEW_REQUIRED]))
    as [Hc|Hc].
  - right. split; [by intros (_ & _ & ?)|].
    repeat (apply elem_of_cons in Hc as [Hc|Hc]); [..|by apply not_elem_of_nil in Hc];
      rewrite Hc; do 3 eexists; (split_and!;
        [| |intros i' E1 E2 E3; unfold evaluate_action; rewrite E1, Ht, E2, E3; by run_evaluation]; done).
  - left. split; [done|]. unfold evaluate_action, undecided_action. rewrite Ht, Hp.
    destruct (ri_completion_continuation_state i) as [[]|]; try done;
      destruct Hc; rewrite !elem_of_cons; auto.
Qed.

Lemma undecided_action_spec i e : undecided_action i = Ok e ->
  let p := rp_body (ri_policy i) in
  let over o n := exists z, o = Some z /\ n <= z in
  let under o n := exists z, o = Some z /\ z < n in
  match re_action e with
  | RA_NO_ACTION => ri_no_progress_detected i = false
  | RA_RECOVER_CURRENT_PLAN => ri_verification_disposition i = Some VD_FAILED /\
      under (ri_identical_failure_streak i) (identical_failure_threshold p) /\
      under (ri_recovery_attempt_count i) (max_recovery_attempts_per_plan p)
  | RA_REPLAN => under (ri_replan_count i) (max_replans_per_task p)
  | RA_BLOCK => over (ri_replan_count i) (max_replans_per_task p) \/
      ri_verification_disposition i ∈ [Some VD_STALE; Some VD_UNAVAILABLE; Some VD_INCONCLUSIVE]
  end.
Proof.
  intros He p over under. unfold undecided_action, _failure_action, _repeated_failure_action, count_ge, count_lt in He.
  revert He. run_evaluation. fold p. subst over under.
  destruct (ri_verification_disposition i) as [[]|] eqn:Hd, (ri_no_progress_detected i) eqn:Hn,
    (ri_identical_failure_streak i) as [st|], (ri_recovery_attempt_count i) as [at_|],
    (ri_replan_count i) as [rp|], (is_some (ri_failure_signature_digest i)); cbn [res_bind]; try done;
    repeat (match goal with |- context [if ?b then _ else _] => destruct b eqn:? end; cbn [res_bind];
            run_evaluation; try done);
    intros [= <-]; cbn [re_action];
    first [done | set_solver | left; eexists; split; [done|lia] | eexists; split; [done|lia]
          | split; [done|]; split; eexists; (split; [done|lia]) ].
Qed.

(** ** Results on the policy *)
Definition strictness (a : RecoveryAction) : Z :=
  match a with RA_NO_ACTION => 0 | RA_RECOVER_CURRENT_PLAN => 1 | RA_REPLAN => 2 | RA_BLOCK => 3 end.

Definition counter_le (a b : option Z) : Prop := exists x y, a = Some x /\ b = Some y /\ x <= y.

(** [i'] carries the same trusted facts as [i] and at least as many negative
    observations. *)
Record more_negative (i i' : RecoveryInput) : Prop := {
  mn_status : ri_task_status i' = ri_task_status i;
  mn_planning : ri_planning_status i' = ri_planning_status i;
  mn_continuation : ri_completion_continuation_state i' = ri_completion_continuation_state i;
  mn_disposition : ri_verification_disposition i' = ri_verification_disposition i;
  mn_policy : ri_policy i' = ri_policy i;
  mn_no_progress : ri_no_progress_detected i = true -> ri_no_progress_detected i' = true;
  mn_signature : is_some (ri_failure_signature_digest i) = true ->
                 is_some (ri_failure_signature_digest i') = true;
  mn_streak : counter_le (ri_identical_failure_streak i) (ri_identical_failure_streak i');
  mn_attempts : counter_le (ri_recovery_attempt_count i) (ri_recovery_attempt_count i');
  mn_replans : counter_le (ri_replan_count i) (ri_replan_count i')
}.

Lemma undecided_action_narrows i i' : more_negative i i' ->
  exists e e', undecided_action i = Ok e /\ undecided_action i' = Ok e' /\
    strictness (re_action e) <= strictness (re_action e').
Proof.
  intros [_ _ _ Hd Hp Hn Hs (s & s' & Es & Es' & Hsle) (a & a' & Ea & Ea' & Hale) (r & r' & Er & Er' & Hrle)].
  unfold undecided_action, _failure_action, _repeated_failure_action, count_ge, count_lt.
  rewrite Hd, Hp, Es, Es', Ea, Ea', Er, Er'. run_evaluation. set (p := rp_body (ri_policy i)).
  destruct (ri_verification_disposition i) as [[]|]; cbn [res_bind].
  all: destruct (ri_no_progress_detected i), (ri_no_progress_detected i'); try (by specialize (Hn eq_refl));
    destruct (is_some (ri_failure_signature_digest i)), (is_some (ri_failure_signature_digest i'));
    try (by specialize (Hs eq_refl)); cbn [res_bind].
  all: repeat (match goal with |- context [if ?b then _ else _] => destruct b eqn:? end; cbn [res_bind];
               run_evaluation).
  all: (do 2 eexists; split; [reflexivity|split; [reflexivity|cbn; lia]]).
Qed.

(** Negative observations only narrow: with the same trusted facts, raising a
    failure streak, an attempt or replan count, or reporting no progress never
    leads to a more permissive action ([NO_ACTION] < [RECOVER_CURRENT_PLAN] <
    [REPLAN] < [BLOCK]). *)
Theorem negative_signals_only_narrow i i' : more_negative i i' ->
  exists e e', evaluate_action i = Ok e /\ evaluate_action i' = Ok e' /\
    strictness (re_action e) <= strictness (re_action e').
Proof.
  intros Hmn. destruct (evaluate_action_cases i) as [[Hu Hi]|(_ & a & r & s & _ & _ & Hall)].
  - destruct (evaluate_action_cases i') as [[_ Hi']|(Hn & _)].
    + rewrite Hi, Hi'. by apply undecided_action_narrows.
    + destruct Hn. unfold undecided. destruct Hmn as [-> -> -> _ _ _ _ _ _ _]. exact Hu.
  - exists (MkEvaluation a r [] s), (MkEvaluation a r [] s).
    rewrite (Hall i), (Hall i'); [done|apply Hmn..|done|done|done].
Qed.

(** C30. The evaluator asks to recover the current plan only when trusted
    verification failed, the task is live, planning and completion raise no
    objection, and both the failure streak and the attempts are below the policy's
    limits; it asks for a new plan only within the replan budget, or because
    completion requires it. *)
Theorem recovery_actions_bounded i e : evaluate_action i = Ok e ->
  let p := rp_body (ri_policy i) in
  match re_action e with
  | RA_RECOVER_CURRENT_PLAN =>
      undecided i /\ ri_verification_disposition i = Some VD_FAILED /\
      (exists s, ri_identical_failure_streak i = Some s /\ s < identical_failure_threshold p) /\
      (exists a, ri_recovery_attempt_count i = Some a /\ a < max_recovery_attempts_per_plan p)
  | RA_REPLAN =>
      ri_completion_continuation_state i = Some CC_REPLAN_REQUIRED \/
      (undecided i /\ exists r, ri_replan_count i = Some r /\ r < max_replans_per_task p)
  | RA_NO_ACTION => undecided i -> ri_no_progress_detected i = false
  | RA_BLOCK => True
  end.
Proof.
  intros He p. destruct (evaluate_action_cases i) as [[Hu Hi]|(Hn & a & r & s & Ha & Hr & Hall)].
  - rewrite Hi in He. pose proof (undecided_action_spec i e He) as Hs. cbn zeta in Hs. fold p in Hs.
    destruct (re_action e); auto.
  - rewrite (Hall i) in He by done. injection He as <-. cbn [re_action]. destruct a; auto; done.
Qed.

(** The recovery design bounds the replans of a task by the policy; the
    evaluator does not apply that bound when completion asks for the replan: a
    live task with such a completion decision is replanned whatever its replan
    count is. *)
Theorem completion_replan_ignores_budget i :
  ri_task_status i = "running" -> ri_planning_status i = PS_NONE ->
  ri_completion_continuation_state i = Some CC_REPLAN_REQUIRED ->
  exists e, evaluate_action i = Ok e /\ re_action e = RA_REPLAN /\
    re_reason_code e = RR_COMPLETION_REPLAN_REQUIRED.
Proof.
  intros Ht Hp Hc. unfold evaluate_action. rewrite Ht, Hp, Hc.
  replace (str_in "running" _TERMINAL_TASK_STATUSES) with false by reflexivity.
  run_evaluation. eexists. split; [reflexivity|]. split; reflexivity.
Qed.

(** ** Decoding what was encoded *)

(** A validator that accepts a value accepts its own result. *)
Lemma text_val v l b n s : _text v l b n = Ok s -> v = PStr s /\ _text (PStr s) l b n = Ok s.
Proof.
  destruct v; try done. intros H. pose proof H as H'. cbn [_text] in H'. inv_res. done.
Qed.
Lemma id_text_val v l s : id_text v l = Ok s -> v = PStr s /\ id_text (PStr s) l = Ok s.
Proof. apply text_val. Qed.
Lemma optional_text_val v l o : _optional_text v l = Ok o ->
  v = opt_str o /\ _optional_text (opt_str o) l = Ok o.
Proof.
  destruct v; try (by intros [= <-]); unfold _optional_text; intros H; inv_res;
    match goal with E : id_text _ _ = Ok _ |- _ => apply id_text_val in E as [E1 E2] end; try done.
  simplify_eq. split; [done|]. cbn [opt_str]. by rewrite E2.
Qed.
Lemma digest_val v l s : _digest v l = Ok s -> v = PStr s /\ is_sha256_hex s = true.
Proof.
  destruct v; try done. cbn [_digest]. unfold rce_if. intros H. inv_res.
  by rewrite negb_false_iff in *.
Qed.
Lemma digest_hex l s : is_sha256_hex s = true -> _digest (PStr s) l = Ok s.
Proof. intros H. cbn [_digest]. unfold rce_if. by rewrite raise_if_false by (by rewrite H). Qed.
Lemma optional_digest_val v l o : _optional_digest v l = Ok o ->
  v = opt_str o /\ forall l', _optional_digest (opt_str o) l' = Ok o.
Proof.
  destruct v; try (by intros [= <-]); unfold _optional_digest; intros H; inv_res;
    match goal with E : _digest _ _ = Ok _ |- _ => apply digest_val in E as [E1 E2] end; try done.
  simplify_eq. split; [done|]. intros l'. cbn [opt_str]. by rewrite digest_hex.
Qed.
Lemma nonneg_val v l z : nonneg v l = Ok z -> v = PInt z /\ nonneg (PInt z) l = Ok z.
Proof. destruct v; try done. intros H. pose proof H as H'. cbn [nonneg] in H'. inv_res. done. Qed.
Lemma optional_nonneg_val v l o : optional_nonneg v l = Ok o ->
  v = opt_int o /\ optional_nonneg (opt_int o) l = Ok o.
Proof.
  destruct v; try (by intros [= <-]); unfold optional_nonneg; intros H; inv_res;
    match goal with E : nonneg _ _ = Ok _ |- _ => apply nonneg_val in E as [E1 E2] end; try done.
  simplify_eq. split; [done|]. cbn [opt_int]. by rewrite E2.
Qed.
Lemma is_none_opt_str o : is_none (opt_str o) = negb (is_some o).
Proof. by destruct o. Qed.
Lemma is_none_opt_int o : is_none (opt_int o) = negb (is_some o).
Proof. by destruct o. Qed.

Lemma res_map_id_text label l s : res_map (fun item => id_text item label) l = Ok s <->
  l = PStr <$> s /\ Forall (fun x => id_text (PStr x) label = Ok x) s.
Proof.
  rewrite res_map_Ok. split.
  - induction 1 as [|x y l s Hx _ [-> IH]]; [done|]. apply id_text_val in Hx as [-> Hy].
    split; [done|by constructor].
  - intros [-> H]. induction H; [constructor|]. rewrite fmap_cons. by constructor.
Qed.

Lemma tuple_text_val l label n ids : _tuple_text l label n = Ok ids ->
  _tuple_text (PStr <$> ids) label n = Ok ids.
Proof.
  unfold _tuple_text. intros H. apply res_bind_Ok in H as (r & [-> Hr]%res_map_id_text & H).
  apply res_bind_Ok in H as (? & Hd & H). apply res_bind_Ok in H as (? & Hn & [= <-]).
  unfold rce_if in *. rewrite raise_if_Ok in Hd, Hn.
  rewrite (proj2 (res_map_id_text label _ (py_sorted r))).
  2: { split; [done|]. by apply Forall_sorted_by. }
  cbn [res_bind]. rewrite !raise_if_false; cbn [res_bind].
  - unfold py_sorted. by rewrite sorted_by_idemp.
  - unfold py_sorted. by rewrite length_sorted_by.
  - apply has_duplicates_false. apply has_duplicates_false in Hd. unfold py_sorted. by rewrite sorted_by_perm.
Qed.

(** The signature object itself is not stored, only its digest. *)
Definition forget_signature (i : RecoveryInput) : RecoveryInput :=
  MkInput (ri_principal_id i) (ri_project_id i) (ri_task_id i) (ri_goal_spec_id i) (ri_goal_spec_digest i)
    (ri_cognitive_state i) (ri_control_state_version i) (ri_task_status i) (ri_workspace_id i)
    (ri_repository_id i) (ri_base_revision i) (ri_published_plan_revision_id i)
    (ri_published_plan_revision_digest i) (ri_latest_plan_revision_id i)
    (ri_latest_plan_revision_sequence i) (ri_verification_assessment_id i)
    (ri_verification_assessment_digest i) (ri_verification_disposition i)
    (ri_verification_repository_generation i) (ri_verification_change_identity i)
    (ri_completion_decision_id i) (ri_completion_decision_digest i) (ri_completion_decision_sequence i)
    (ri_completion_outcome i) (ri_completion_continuation_state i) None (ri_failure_signature_digest i)
    (ri_no_progress_detected i) (ri_identical_failure_streak i) (ri_recovery_attempt_count i)
    (ri_replan_count i) (ri_total_recovery_count i) (ri_planning_status i) (ri_policy i).

(** [agrees kw d]: the keyword arguments are the members of [d]. *)
Definition agrees (kw : string -> pyval) (d : list (string * pyval)) : Prop :=
  forall k v, dict_get k d = Some v -> kw k = v.

(** Keep what a hypothesis about a validator says of its result. *)
Ltac revalidate :=
  repeat match goal with
  | H : id_text ?v _ = Ok ?s |- _ =>
      lazymatch v with PStr _ => fail | _ => apply id_text_val in H as [_ H] end
  | H : _optional_text ?v _ = Ok ?o |- _ =>
      lazymatch v with opt_str _ => fail | _ => apply optional_text_val in H as [_ H] end
  | H : nonneg ?v _ = Ok ?o |- _ =>
      lazymatch v with PInt _ => fail | _ => apply nonneg_val in H as [_ H] end
  | H : optional_nonneg ?v _ = Ok ?o |- _ =>
      let E := fresh "E" in lazymatch v with opt_int _ => fail | _ => apply optional_nonneg_val in H as [E H];
      rewrite ?E in *; clear E end
  | H : _digest ?v _ = Ok ?o |- _ => apply digest_val in H as [_ H]
  | H : _optional_digest ?v _ = Ok ?o |- _ =>
      let E := fresh "E" in apply optional_digest_val in H as [E H]; rewrite ?E in *; clear E
  end.

Lemma make_input_again kw cog vd co cc sg ps pol i kw' :
  (forall x, sg = Some x -> is_sha256_hex (signature_digest x) = true) ->
  make_input kw cog vd co cc sg ps pol = Ok i -> agrees kw' (input_payload i) ->
  make_input kw' (ri_cognitive_state i) (ri_verification_disposition i) (ri_completion_outcome i)
    (ri_completion_continuation_state i) None (ri_planning_status i) (ri_policy i)
  = Ok (forget_signature i).
Proof.
  intros Hsg H. unfold make_input in H. cbv zeta in H.
  do 16 (apply res_bind_Ok in H as (? & ? & H)).
  do 16 (apply res_bind_Ok in H as (? & ? & H)).
  repeat (apply res_bind_Ok in H as (? & ? & H)).
  injection H as <-. intros Hkw. revalidate.
  clear H4 H24 H23. set (fd := if is_some _ then _ else _) in *.
  assert (Hfd : forall l', _optional_digest (opt_str fd) l' = Ok fd).
  { subst fd. destruct sg as [g|]; [|done]. intros l'.
    change (_optional_digest (PStr (signature_digest g)) l' = Ok (Some (signature_digest g))).
    unfold _optional_digest. by rewrite digest_hex by auto. }
  clearbody fd. unfold agrees, input_payload in Hkw. cbn in Hkw. unfold make_input. cbv zeta.
  cbn [ri_cognitive_state ri_verification_disposition ri_completion_outcome
       ri_completion_continuation_state ri_planning_status ri_policy].
  repeat match goal with |- context [kw' ?k] => rewrite (Hkw k _ eq_refl) end.
  repeat first
    [ match goal with E : _ = Ok _ |- _ => rewrite E; clear E end
    | rewrite digest_hex by done | rewrite H17 | rewrite H18 | rewrite H19 | rewrite Hfd];
  cbn [res_bind].
  change (is_some (signature_digest <$> None)) with false; cbn [andb].
  match goal with E : canonical_json_bytes (PDict (input_payload ?i)) = Ok _ |-
      context [input_payload ?j] => change (input_payload j) with (input_payload i) end.
  change (rce_if false "failure signature digest is inconsistent") with (@Ok unit tt).
  repeat match goal with E : _ = Ok _ |- _ => rewrite E; clear E; cbn [res_bind] end.
  done.
Qed.

(** ** What the constructors accept *)
Definition signature_ok (sg : NormalizedFailureSignature) : Prop :=
  exists source kw cases lists given, make_signature source kw cases lists given = Ok sg.
Definition policy_ok (pol : RecoveryPolicy) : Prop :=
  exists attempts threshold replans cycles history given,
    make_recovery_policy (PInt 1) attempts threshold replans cycles history given = Ok pol.
Definition input_ok (i : RecoveryInput) : Prop :=
  exists kw cog vd co cc sg ps pol,
    (forall x, sg = Some x -> signature_ok x) /\ policy_ok pol /\
    make_input kw cog vd co cc sg ps pol = Ok i.

Lemma signature_ok_hex sg : signature_ok sg -> is_sha256_hex (signature_digest sg) = true.
Proof.
  intros (source & kw & cases & lists & given & H). unfold make_signature in H.
  do 14 (apply res_bind_Ok in H as (? & _ & H)). cbv zeta in H. destruct given; try done.
  apply res_bind_Ok in H as (dg & Hdg%canonical_digest_form & H). apply res_bind_Ok in H as (d & Hd & H).
  do 2 (apply res_bind_Ok in H as (? & _ & H)). injection H as <-. cbn [signature_digest].
  destruct (negb _); [|by injection Hd as <-]. apply res_bind_Ok in Hd as (g & [_ Hg]%digest_val & Hd).
  apply res_bind_Ok in Hd as (? & _ & [= <-]). done.
Qed.

Lemma bounded_int_val v n z : bounded_int v n = Ok z -> bounded_int (PInt z) n = Ok z.
Proof. destruct v; try done. intros H. pose proof H as H'. cbn [bounded_int] in H'. inv_res. done. Qed.

(** The decoded policy is the stored one. *)
Lemma policy_again pol : policy_ok pol ->
  let b := rp_body pol in rp_schema_version b = PInt 1 /\
  make_recovery_policy (PInt 1) (PInt (max_recovery_attempts_per_plan b))
    (PInt (identical_failure_threshold b)) (PInt (max_replans_per_task b))
    (PInt (max_recovery_cycles_per_turn b)) (PInt (max_history_records b))
    (PStr (policy_digest pol)) = Ok pol.
Proof.
  intros (? & ? & ? & ? & ? & given & H). unfold make_recovery_policy in H.
  apply res_bind_Ok in H as (? & _ & H). do 5 (apply res_bind_Ok in H as (? & ?%bounded_int_val & H)).
  apply res_bind_Ok in H as (dg & Hdg & H).
  assert (pol = MkRecoveryPolicy (MkPolicyBody (PInt 1) x5 x6 x7 x8 x9) dg) as ->.
  { destruct (truthy given); [|by injection H]. apply res_bind_Ok in H as (? & _ & H).
    apply res_bind_Ok in H as (? & E & [= <-]). unfold rce_if in E. rewrite raise_if_Ok in E.
    apply negb_false_iff, bool_decide_eq_true in E. by subst. }
  split; [done|]. cbn [rp_body max_recovery_attempts_per_plan identical_failure_threshold
    max_replans_per_task max_recovery_cycles_per_turn max_history_records policy_digest].
  unfold make_recovery_policy. change (rce_if (negb (equals_one (PInt 1))) _) with (@Ok unit tt).
  cbn [res_bind]. pose proof (canonical_digest_form _ _ Hdg) as Hhex.
  repeat match goal with E : _ = Ok _ |- _ => rewrite E; cbn [res_bind]; clear E end.
  replace (truthy (PStr dg)) with true by (by destruct dg). rewrite digest_hex by done. cbn [res_bind].
  by rewrite bool_decide_true.
Qed.

(** ** The stored mapping *)
Lemma canon_opt_int o : canon (opt_int o) = opt_int o.
Proof. by destruct o. Qed.
Lemma canon_opt_enum {A} `{PyEnum A} (o : option A) : canon (opt_enum o) = opt_enum o.
Proof. by destruct o. Qed.
Lemma plain_opts : (forall o, plain (opt_str o) = true) /\ (forall o, plain (opt_int o) = true)
  /\ (forall l, plain (str_list l) = true).
Proof.
  split_and!; [by intros []..|]. intros l. cbn. apply forallb_Forall_true, Forall_fmap, Forall_true. done.
Qed.

Lemma input_payload_canon i : rp_schema_version (rp_body (ri_policy i)) = PInt 1 ->
  (fun kv => (kv.1, canon kv.2)) <$> input_payload i = input_payload i.
Proof.
  intros Hs. unfold input_payload. rewrite Hs. cbn -[opt_str opt_int opt_enum].
  by rewrite ?canon_opt_str, ?canon_opt_int, ?canon_opt_enum.
Qed.
Lemma input_payload_plain i : rp_schema_version (rp_body (ri_policy i)) = PInt 1 ->
  forallb (fun kv => plain kv.2) (input_payload i) = true.
Proof.
  intros Hs. unfold input_payload, opt_enum. rewrite Hs. cbn -[opt_str opt_int].
  destruct plain_opts as (H1 & H2 & _). by rewrite ?H1, ?H2.
Qed.
Lemma rd_keys_nodup d : NoDup (dict_keys (rd_payload d ++
  [("recovery_decision_id", PStr (recovery_decision_id d)); ("decision_digest", PStr (rd_decision_digest d))])).
Proof. cbn. apply (bool_decide_unpack _). vm_compute. done. Qed.

(** What [make_input] keeps of its typed arguments. *)
Lemma make_input_policy kw cog vd co cc sg ps pol i :
  make_input kw cog vd co cc sg ps pol = Ok i -> ri_policy i = pol.
Proof.
  unfold make_input. cbv zeta. intros H. repeat (apply res_bind_Ok in H as (? & _ & H)).
  by injection H as <-.
Qed.
Lemma input_ok_schema i : input_ok i -> rp_schema_version (rp_body (ri_policy i)) = PInt 1.
Proof.
  intros (? & ? & ? & ? & ? & ? & ? & pol & _ & Hp & ->%make_input_policy). by apply policy_again.
Qed.
Lemma forget_payload i : input_payload (forget_signature i) = input_payload i.
Proof. done. Qed.

(** The members of the mapping, read through its canonical form. *)
Definition stored_members (d : RecoveryDecision) : list (string * pyval) :=
  sorted_by fst (rd_payload d ++ [("recovery_decision_id", PStr (recovery_decision_id d));
                                  ("decision_digest", PStr (rd_decision_digest d))]).
Lemma stored_members_canon d : rd_schema_version d = PInt 1 -> input_ok (rd_input d) ->
  plain (rd_to_canonical_mapping d) = true /\ canon (rd_to_canonical_mapping d) = PDict (stored_members d).
Proof.
  intros Hs Hi%input_ok_schema. unfold rd_to_canonical_mapping. split.
  - cbn [plain]. apply andb_true_iff. split; [apply bool_decide_true, rd_keys_nodup|].
    rewrite forallb_app. unfold rd_payload, decision_payload. rewrite Hs. cbn [forallb].
    rewrite forallb_app, input_payload_plain by done. cbn -[str_list].
    destruct plain_opts as (_ & _ & ->). done.
  - cbn [canon]. unfold stored_members. do 2 f_equal. unfold rd_payload, decision_payload. rewrite Hs.
    rewrite fmap_app, fmap_cons, fmap_app, input_payload_canon by done.
    cbn -[str_list]. by rewrite canon_strs.
Qed.
Lemma field_stored d k v : dict_get k (rd_payload d ++
    [("recovery_decision_id", PStr (recovery_decision_id d)); ("decision_digest", PStr (rd_decision_digest d))])
  = Some v -> field (stored_members d) k = v.
Proof.
  intros H. unfold field, stored_members. by rewrite dict_get_sorted, H by apply rd_keys_nodup.
Qed.
Lemma field_input d : agrees (field (stored_members d)) (input_payload (rd_input d)).
Proof.
  intros k v Hk. apply field_stored, dict_get_elem; [apply rd_keys_nodup|].
  apply dict_get_Some in Hk. unfold rd_payload, decision_payload.
  rewrite elem_of_app, elem_of_cons, elem_of_app. auto.
Qed.
Lemma stored_keys d : same_keys (stored_members d) REQUIRED_KEYS = true.
Proof.
  assert (Hp : dict_keys (stored_members d) ≡ₚ REQUIRED_KEYS).
  { unfold dict_keys, stored_members. rewrite sorted_by_perm. cbn.
    apply (bool_decide_unpack _). vm_compute. done. }
  unfold same_keys. rewrite andb_true_iff, !forallb_Forall_true, !Forall_forall.
  unfold str_in. setoid_rewrite bool_decide_eq_true. by setoid_rewrite Hp.
Qed.

(** The decoder's steps on the stored members. *)
Lemma optional_enum_value {A} `{PyEnumLaws A} (o : option A) label :
  optional_enum (opt_enum o) label = Ok o.
Proof.
  destruct o as [a|]; [|done]. cbn -[enum_of].
  by rewrite (proj2 (enum_of_Ok (PStr (enum_value a)) a) eq_refl).
Qed.
Lemma subject_values_strs l : subject_values (str_list l) = Ok (PStr <$> l).
Proof.
  unfold subject_values, str_list. replace (existsb _ (PStr <$> l)) with false; [done|].
  symmetry. by induction l.
Qed.
Lemma reject_keys_nodup ps : NoDup (dict_keys ps) -> _reject_duplicate_keys ps = Ok (PDict ps).
Proof. intros Hnd. unfold _reject_duplicate_keys, rce_if. by rewrite reject_fold_nodup. Qed.

Lemma decode_stored d subjects :
  input_ok (rd_input d) -> _tuple_text subjects "subject_ids" MAX_SUBJECT_IDS = Ok (rd_subject_ids d) ->
  _text (PStr (rd_reason_summary d)) "reason_summary" true MAX_RECOVERY_TEXT_LENGTH = Ok (rd_reason_summary d) ->
  decode_values (stored_members d) (PStr <$> rd_subject_ids d) =
  Ok (forget_signature (rd_input d),
      MkEvaluation (rd_action d) (rd_reason_code d) (rd_subject_ids d) (rd_reason_summary d)).
Proof.
  intros Hi Hids%tuple_text_val Htext. pose proof Hi as (kw & cog & vd & co & cc & sg & ps & pol & Hsg & Hpol & Hmake).
  pose proof (make_input_policy _ _ _ _ _ _ _ _ _ Hmake) as Hpe.
  destruct (policy_again _ Hpol) as [Hs Hagain]. rewrite <-Hpe in *.
  unfold decode_values, decode_policy.
  repeat match goal with |- context [field (stored_members d) ?k] =>
    erewrite (field_stored d k) by reflexivity end.
  rewrite Hs. change (schema_value (PInt 1)) with (PInt 1). rewrite Hagain. cbn [res_bind].
  rewrite !(proj2 (enum_of_Ok _ _) eq_refl), !optional_enum_value. cbn [res_bind].
  erewrite (make_input_again _ _ _ _ _ _ _ _ _ _ _ Hmake (field_input d)). cbn [res_bind].
  unfold make_evaluation. rewrite Hids, Htext. done.
  Unshelve. intros x ->. by apply signature_ok_hex, Hsg.
Qed.

Lemma differs_same s : differs (PStr s) (Some s) = false.
Proof. cbn. by rewrite bool_decide_true. Qed.

(** A decision is rebuilt from its own fields. *)
Lemma from_input_inv id i e d : from_input id i e (PInt 1) = Ok d ->
  rd_schema_version d = PInt 1 /\ rd_input d = i /\ rd_action d = re_action e /\
  rd_reason_code d = re_reason_code e /\
  _tuple_text (PStr <$> rd_subject_ids d) "subject_ids" MAX_SUBJECT_IDS = Ok (rd_subject_ids d) /\
  _text (PStr (rd_reason_summary d)) "reason_summary" true MAX_RECOVERY_TEXT_LENGTH = Ok (rd_reason_summary d) /\
  from_input (PStr (recovery_decision_id d)) (forget_signature i)
    (MkEvaluation (rd_action d) (rd_reason_code d) (rd_subject_ids d) (rd_reason_summary d)) (PInt 1)
  = Ok (MkRecoveryDecision (PInt 1) (recovery_decision_id d) (forget_signature i) (re_action e)
          (re_reason_code e) (rd_subject_ids d) (rd_reason_summary d) (rd_decision_digest d)).
Proof.
  intros Hd. unfold from_input in Hd. apply res_bind_Ok in Hd as (dg & Hdg & Hd).
  unfold make_recovery_decision in Hd. apply res_bind_Ok in Hd as (? & _ & Hd).
  apply res_bind_Ok in Hd as (id' & [-> Hid]%id_text_val & Hd).
  apply res_bind_Ok in Hd as (ids & Hids%tuple_text_val & Hd).
  apply res_bind_Ok in Hd as (text & [_ Htext]%text_val & Hd).
  apply res_bind_Ok in Hd as (dg' & Hdg' & Hd). apply res_bind_Ok in Hd as (? & [[= <-] Hhex]%digest_val & Hd).
  apply res_bind_Ok in Hd as (? & E & [= <-]). unfold rce_if in E.
  rewrite raise_if_Ok, negb_false_iff, bool_decide_eq_true in E. subst dg'.
  cbn [rd_schema_version rd_input rd_action rd_reason_code rd_subject_ids rd_reason_summary
       recovery_decision_id rd_decision_digest]. split_and!; try done.
  unfold from_input, make_recovery_decision. cbn [re_action re_reason_code re_subject_ids re_reason_summary].
  change (decision_payload (PInt 1) (forget_signature i)) with (decision_payload (PInt 1) i).
  rewrite Hdg', Hid, Hids, Htext. cbn -[decision_payload canonical_digest _digest].
  rewrite Hdg', digest_hex by done. cbn [res_bind]. by rewrite bool_decide_true.
Qed.

(** A stored recovery decision reads back: a decision that [from_input]
    builds over a valid input is accepted by [from_canonical_json] from its own
    canonical text, under its own digest and identity, and comes back equal
    in every field. Only the in-memory failure-signature object is not stored;
    its digest is. *)
Theorem recovery_roundtrip id i e d p :
  input_ok i -> from_input id i e (PInt 1) = Ok d -> rd_canonical_json d = Ok p ->
  rd_from_canonical_json p (Some (rd_decision_digest d)) (Some (recovery_decision_id d))
  = Ok (MkRecoveryDecision (PInt 1) (recovery_decision_id d) (forget_signature i) (re_action e)
          (re_reason_code e) (rd_subject_ids d) (rd_reason_summary d) (rd_decision_digest d)).
Proof.
  intros Hi Hd Hp. destruct (from_input_inv _ _ _ _ Hd) as (Hs & Hin & Ha & Hr & Hids & Htext & Hagain).
  rewrite <-Hin in Hi. destruct (stored_members_canon d Hs Hi) as [Hplain Hcanon].
  apply canonical_json_bytes_Ok in Hp as [-> _]; [|done].
  unfold rd_from_canonical_json. rewrite (loads_dumpsc _ _ reject_keys_nodup _ Hplain).
  cbn [try_except res_bind]. rewrite Hcanon, stored_keys.
  repeat match goal with |- context [field (stored_members d) ?k] =>
    erewrite (field_stored d k) by reflexivity end.
  rewrite !differs_same, subject_values_strs, Hs. cbn [res_bind rce_if raise_if negb].
  rewrite (decode_stored d _ Hi Hids Htext). cbn [try_except res_bind fst snd].
  change (schema_value (PInt 1)) with (PInt 1). rewrite Hin, Hagain. cbn [res_bind rd_decision_digest].
  by rewrite differs_same.
Qed.

(** ** Concrete inputs *)
Definition sample_policy : RecoveryPolicy :=
  MkRecoveryPolicy (MkPolicyBody (PInt 1) 3 2 3 4 256)
    "f514b65a12d2739b05699c570cec8e99e2b9beab3157d6c2334b1b31173e7682".
Lemma sample_policy_ok : production_default = Ok sample_policy.
Proof. vm_compute. reflexivity. Qed.

Definition hex64 : string := "0304523efff53f243d76dc81b7c271f922292543cead846ee714f066c3331e5f".

(** A running task whose trusted verification failed. *)
Definition sample_input (continuation : option CompletionContinuationState) (streak replans : Z)
    : RecoveryInput :=
  MkInput "p" "proj" "t" "g" hex64 VERIFYING 4 "running" (Some "w") (Some "r") None (Some "plan-1")
    (Some hex64) (Some "plan-1") (Some 1) (Some "a") (Some hex64) (Some VD_FAILED) None None
    (if is_some continuation then Some "d" else None) (if is_some continuation then Some hex64 else None)
    (if is_some continuation then Some 2 else None) (if is_some continuation then Some REPLAN else None)
    continuation None (Some hex64) true (Some streak) (Some 1) (Some replans) (Some 2) PS_NONE sample_policy.
Definition sample_kw (key : string) : pyval := field (input_payload (sample_input None 1 0)) key.

Lemma sample_input_ok : input_ok (sample_input None 1 0).
Proof.
  exists sample_kw, VERIFYING, (Some VD_FAILED), None, None, None, PS_NONE, sample_policy. split_and!; [done| |].
  - pose proof sample_policy_ok as H. unfold production_default in H. do 6 eexists. exact H.
  - vm_compute. reflexivity.
Qed.

Example negative_signals_only_narrow_witness :
  exists e e', evaluate_action (sample_input None 1 0) = Ok e /\ re_action e = RA_RECOVER_CURRENT_PLAN /\
    evaluate_action (sample_input None 2 0) = Ok e' /\ re_action e' = RA_REPLAN /\
    strictness (re_action e) <= strictness (re_action e').
Proof.
  destruct (negative_signals_only_narrow (sample_input None 1 0) (sample_input None 2 0))
    as (e & e' & H1 & H2 & H3).
  { split; try done; do 2 eexists; (split; [reflexivity|split; [reflexivity|lia]]). }
  exists e, e'. split_and!; [done| |done| |done].
  - vm_compute in H1. by injection H1 as <-.
  - vm_compute in H2. by injection H2 as <-.
Defined.

Example recovery_actions_bounded_witness :
  ri_verification_disposition (sample_input None 1 0) = Some VD_FAILED /\
  exists a, ri_recovery_attempt_count (sample_input None 1 0) = Some a /\
    a < max_recovery_attempts_per_plan (rp_body sample_policy).
Proof.
  assert (H : exists e, evaluate_action (sample_input None 1 0) = Ok e /\ re_action e = RA_RECOVER_CURRENT_PLAN)
    by (eexists; split; [vm_compute; reflexivity|reflexivity]).
  destruct H as (e & He & Ha). pose proof (recovery_actions_bounded _ e He) as H.
  cbn zeta in H. rewrite Ha in H. destruct H as (_ & H1 & _ & H2). split; [exact H1|exact H2].
Defined.

Example completion_replan_ignores_budget_witness :
  max_replans_per_task (rp_body sample_policy) = 3 /\
  exists e, evaluate_action (sample_input (Some CC_REPLAN_REQUIRED) 1 1000) = Ok e /\ re_action e = RA_REPLAN.
Proof.
  split; [reflexivity|].
  destruct (completion_replan_ignores_budget (sample_input (Some CC_REPLAN_REQUIRED) 1 1000)
              eq_refl eq_refl eq_refl) as (e & H1 & H2 & _).
  exists e. split; [exact H1|exact H2].
Defined.

Definition sample_evaluation : RecoveryEvaluation :=
  MkEvaluation RA_RECOVER_CURRENT_PLAN RR_VERIFICATION_FAILED [] "trusted verification failed".
Definition sample_payload : list (string * pyval) :=
  decision_payload (PInt 1) (sample_input None 1 0) (re_action sample_evaluation)
    (re_reason_code sample_evaluation) [] (re_reason_summary sample_evaluation).

Lemma sample_decision_built : exists d p,
  from_input (PStr "rd-1") (sample_input None 1 0) sample_evaluation (PInt 1) = Ok d /\
  recovery_decision_id d = "rd-1" /\ rd_canonical_json d = Ok p.
Proof.
  destruct (ascii_serialises (PDict sample_payload)) as [_ Hdg]; [reflexivity..|].
  pose proof (canonical_digest_form _ _ Hdg) as Hhex. revert Hhex Hdg.
  generalize (sha256_hexdigest (dumpsc (PDict sample_payload))) as dg. intros dg Hhex Hdg.
  exists (MkRecoveryDecision (PInt 1) "rd-1" (sample_input None 1 0) (re_action sample_evaluation)
    (re_reason_code sample_evaluation) [] (re_reason_summary sample_evaluation) dg).
  eexists. split_and!; [|reflexivity|].
  - unfold sample_payload in Hdg. unfold from_input, make_recovery_decision.
    change (re_subject_ids sample_evaluation) with (@nil string). rewrite Hdg. cbn [res_bind].
    change (rce_if (negb (equals_one (PInt 1))) _) with (@Ok unit tt).
    change (id_text (PStr "rd-1") _) with (@Ok string "rd-1").
    change (_tuple_text (PStr <$> []) _ _) with (@Ok (list string) []).
    replace (_text (PStr _) _ _ _) with (@Ok string (re_reason_summary sample_evaluation)) by reflexivity.
    cbn [res_bind]. rewrite Hdg, digest_hex by done. cbn [res_bind]. by rewrite bool_decide_true.
  - apply ascii_serialises.
    + apply stored_members_canon; [done|exact sample_input_ok].
    + unfold rd_to_canonical_mapping. cbn [rd_decision_digest recovery_decision_id ascii_value].
      rewrite forallb_app. cbn [forallb ascii_value fst snd]. rewrite (ascii_hex dg) by done. reflexivity.
Qed.

Example recovery_roundtrip_witness : exists d p r,
  from_input (PStr "rd-1") (sample_input None 1 0) sample_evaluation (PInt 1) = Ok d /\
  rd_canonical_json d = Ok p /\
  rd_from_canonical_json p (Some (rd_decision_digest d)) (Some "rd-1") = Ok r /\
  rd_action r = RA_RECOVER_CURRENT_PLAN /\ ri_task_id (rd_input r) = "t".
Proof.
  destruct sample_decision_built as (d & p & Hd & Hid & Hp).
  pose proof (recovery_roundtrip _ _ _ _ _ sample_input_ok Hd Hp) as H. rewrite Hid in H.
  exists d, p. eexists. split; [exact Hd|]. split; [exact Hp|]. split; [exact H|]. split; reflexivity.
Defined.
