(* ===== verification/Authority.v ===== *)
(** * Authority snapshots and approval bindings ([agent/approval.py],
    [security/authority_context.py])

    The immutable records that tie an approval to one execution: the owner
    context, the authority of one tool step, and the binding of one approval
    request.  Fields have their declared types; a constructor call is the record
    followed by its validation.  A time is an integer multiple of [2^-1074], and
    [float_repr] is the text [float.__repr__] gives it. *)
From Stdlib Require Import Ascii.
From S2P Require Import Prelude PyStr Json PyValue Sha256 ProtocolBoundary.
Open Scope Z_scope.

Definition value_error {A} (msg : string) : res A := Raise (Exn ValueError msg).
Definition value_error_if (c : bool) (msg : string) : res unit := raise_if c ValueError msg.

(** [any(values) and not all(values)] on strings *)
Definition partly_filled (values : list string) : bool :=
  existsb (fun v => negb (str_empty v)) values && negb (forallb (fun v => negb (str_empty v)) values).

(** A non-empty [delegation_digest] that is not 64 lower-case hex digits *)
Definition bad_delegation (d : string) : bool :=
  negb (str_empty d) && (negb (py_len d =? 64) || negb (string_forallb is_hex_lower d)).

(** ** [AuthorityContextV1] *)
Record AuthorityContextV1 := {
  ac_principal_id : string; ac_principal_kind : string; ac_parent_principal_id : string;
  ac_project_id : string; ac_session_id : string; ac_runtime_id : string;
  ac_source_transport : string; ac_task_id : string; ac_workspace_id : string;
  ac_workspace_generation : Z; ac_policy_digest : string; ac_authorization_epoch : Z;
  ac_delegation_digest : string; ac_schema_version : Z;
}.

Definition check_context (a : AuthorityContextV1) : res AuthorityContextV1 :=
  value_error_if (negb (ac_schema_version a =? 1)) "unsupported authority context schema" ;;*
  value_error_if ((ac_workspace_generation a <? 0) || (ac_authorization_epoch a <? 0))
    "authority context counters must be non-negative" ;;*
  value_error_if (bad_delegation (ac_delegation_digest a)) "authority context delegation digest is malformed" ;;*
  Ok a.

Definition context_payload (a : AuthorityContextV1) : pyval :=
  PDict [
    ("schema_version", PInt (ac_schema_version a)); ("principal_id", PStr (ac_principal_id a));
    ("principal_kind", PStr (ac_principal_kind a)); ("parent_principal_id", PStr (ac_parent_principal_id a));
    ("project_id", PStr (ac_project_id a)); ("session_id", PStr (ac_session_id a));
    ("runtime_id", PStr (ac_runtime_id a)); ("source_transport", PStr (ac_source_transport a));
    ("task_id", PStr (ac_task_id a)); ("workspace_id", PStr (ac_workspace_id a));
    ("workspace_generation", PInt (ac_workspace_generation a)); ("policy_digest", PStr (ac_policy_digest a));
    ("authorization_epoch", PInt (ac_authorization_epoch a));
    ("delegation_digest", PStr (ac_delegation_digest a)) ].

(** [json.dumps(payload, sort_keys=True, separators=(",", ":"))], then SHA-256 *)
Definition ascii_digest (payload : pyval) : string := sha256_hexdigest (ascii_text (dumpsc payload)).
Definition context_digest (a : AuthorityContextV1) : string := ascii_digest (context_payload a).

(** ** [StepExecutionAuthority] *)
Record StepExecutionAuthority := {
  sa_principal_id : string; sa_project_id : string; sa_session_id : string; sa_task_id : string;
  sa_turn_id : string; sa_step_id : string; sa_tool_call_id : string; sa_tool_name : string;
  sa_workspace_id : string; sa_workspace_generation : Z; sa_cwd_identity : string;
  sa_permission_profile_digest : string; sa_environment_keys : list string;
  sa_environment_digest : string; sa_sandbox_backend : string; sa_sandbox_decision_digest : string;
  sa_executable_identity : string; sa_network_authority : string; sa_target : string;
  sa_approval_target : string; sa_arguments_digest : string;
  sa_authorization_resource_digest : string; sa_authorization_epoch : Z; sa_policy_digest : string;
  sa_tool_schema_digest : string; sa_tool_security_digest : string; sa_spawn_plan_digest : string;
  sa_approval_receipt_digest : string; sa_principal_kind : string; sa_parent_principal_id : string;
  sa_delegation_digest : string; sa_runtime_id : string; sa_source_transport : string;
  sa_plan_revision_id : string; sa_plan_revision_digest : string; sa_plan_step_id : string;
  sa_plan_step_digest : string; sa_plan_execution_epoch_digest : string; sa_plan_route_id : string;
  sa_plan_route_digest : string;
}.

Definition PRINCIPAL_KINDS : list string :=
  ["human"; "gateway"; "channel"; "automation"; "subagent"; "browser"].

Definition sa_required (a : StepExecutionAuthority) : list string :=
  [sa_principal_id a; sa_project_id a; sa_session_id a; sa_task_id a; sa_turn_id a; sa_step_id a;
   sa_tool_call_id a; sa_tool_name a; sa_workspace_id a; sa_cwd_identity a; sa_permission_profile_digest a;
   sa_environment_digest a; sa_sandbox_backend a; sa_sandbox_decision_digest a; sa_executable_identity a;
   sa_network_authority a; sa_target a; sa_approval_target a; sa_arguments_digest a;
   sa_authorization_resource_digest a; sa_policy_digest a; sa_tool_schema_digest a; sa_tool_security_digest a].
Definition sa_plan_fields (a : StepExecutionAuthority) : list string :=
  [sa_plan_revision_id a; sa_plan_revision_digest a; sa_plan_step_id a; sa_plan_step_digest a;
   sa_plan_execution_epoch_digest a; sa_plan_route_id a; sa_plan_route_digest a].

Definition sorted_unique (keys : list string) : bool :=
  bool_decide (keys = py_sorted (remove_dups keys)).

Definition check_authority (a : StepExecutionAuthority) : res StepExecutionAuthority :=
  value_error_if (existsb str_empty (sa_required a)) "step execution authority fields must not be empty" ;;*
  value_error_if ((sa_workspace_generation a <? 0) || (sa_authorization_epoch a <? 0))
    "step execution authority generations must be non-negative" ;;*
  value_error_if (existsb str_empty (sa_environment_keys a))
    "step execution environment keys must be non-empty strings" ;;*
  value_error_if (negb (sorted_unique (sa_environment_keys a)))
    "step execution environment keys must be sorted and unique" ;;*
  value_error_if (partly_filled [sa_principal_kind a; sa_parent_principal_id a; sa_delegation_digest a])
    "step execution typed principal binding is incomplete" ;;*
  value_error_if (negb (str_empty (sa_principal_kind a)) && negb (str_in (sa_principal_kind a) PRINCIPAL_KINDS))
    "step execution principal kind is invalid" ;;*
  value_error_if (bad_delegation (sa_delegation_digest a)) "step execution delegation digest is invalid" ;;*
  value_error_if (partly_filled (sa_plan_fields a)) "plan execution binding is incomplete" ;;*
  Ok a.

Definition authority_context (a : StepExecutionAuthority) : res AuthorityContextV1 :=
  check_context {|
    ac_principal_id := sa_principal_id a; ac_principal_kind := sa_principal_kind a;
    ac_parent_principal_id := sa_parent_principal_id a; ac_project_id := sa_project_id a;
    ac_session_id := sa_session_id a; ac_runtime_id := sa_runtime_id a;
    ac_source_transport := sa_source_transport a; ac_task_id := sa_task_id a;
    ac_workspace_id := sa_workspace_id a; ac_workspace_generation := sa_workspace_generation a;
    ac_policy_digest := sa_policy_digest a; ac_authorization_epoch := sa_authorization_epoch a;
    ac_delegation_digest := sa_delegation_digest a; ac_schema_version := 1 |}.

Definition own_fields (a : StepExecutionAuthority) : list (string * pyval) :=
  [
    ("principal_id", PStr (sa_principal_id a)); ("project_id", PStr (sa_project_id a));
    ("session_id", PStr (sa_session_id a)); ("task_id", PStr (sa_task_id a));
    ("turn_id", PStr (sa_turn_id a)); ("step_id", PStr (sa_step_id a));
    ("tool_call_id", PStr (sa_tool_call_id a)); ("tool_name", PStr (sa_tool_name a));
    ("workspace_id", PStr (sa_workspace_id a)); ("workspace_generation", PInt (sa_workspace_generation a));
    ("cwd_identity", PStr (sa_cwd_identity a));
    ("permission_profile_digest", PStr (sa_permission_profile_digest a));
    ("environment_keys", str_list (sa_environment_keys a));
    ("environment_digest", PStr (sa_environment_digest a)); ("sandbox_backend", PStr (sa_sandbox_backend a));
    ("sandbox_decision_digest", PStr (sa_sandbox_decision_digest a));
    ("executable_identity", PStr (sa_executable_identity a));
    ("network_authority", PStr (sa_network_authority a)); ("target", PStr (sa_target a));
    ("approval_target", PStr (sa_approval_target a)); ("arguments_digest", PStr (sa_arguments_digest a));
    ("authorization_resource_digest", PStr (sa_authorization_resource_digest a));
    ("authorization_epoch", PInt (sa_authorization_epoch a)); ("policy_digest", PStr (sa_policy_digest a));
    ("tool_schema_digest", PStr (sa_tool_schema_digest a));
    ("tool_security_digest", PStr (sa_tool_security_digest a));
    ("spawn_plan_digest", PStr (sa_spawn_plan_digest a)); ("principal_kind", PStr (sa_principal_kind a));
    ("parent_principal_id", PStr (sa_parent_principal_id a));
    ("delegation_digest", PStr (sa_delegation_digest a)); ("runtime_id", PStr (sa_runtime_id a));
    ("source_transport", PStr (sa_source_transport a)); ("plan_revision_id", PStr (sa_plan_revision_id a));
    ("plan_revision_digest", PStr (sa_plan_revision_digest a)); ("plan_step_id", PStr (sa_plan_step_id a));
    ("plan_step_digest", PStr (sa_plan_step_digest a));
    ("plan_execution_epoch_digest", PStr (sa_plan_execution_epoch_digest a));
    ("plan_route_id", PStr (sa_plan_route_id a)); ("plan_route_digest", PStr (sa_plan_route_digest a)) ].

Definition authority_payload (include_receipt : bool) (a : StepExecutionAuthority) : res pyval :=
  let* ctx := authority_context a in
  Ok (PDict (own_fields a ++
    [("authority_context", context_payload ctx); ("authority_context_digest", PStr (context_digest ctx))] ++
    (if include_receipt then [("approval_receipt_digest", PStr (sa_approval_receipt_digest a))] else []))).

(** [_canonical_digest]: the text, in UTF-8, that is hashed, and its digest *)
Definition _canonical_text (value : pyval) : res string := encode_utf8 (dumpsc value).
Definition _canonical_digest (value : pyval) : res string :=
  let* text := _canonical_text value in Ok (sha256_hexdigest text).

Definition scope_digest (a : StepExecutionAuthority) : res string :=
  let* payload := authority_payload false a in _canonical_digest payload.
Definition authority_digest (a : StepExecutionAuthority) : res string :=
  let* payload := authority_payload true a in _canonical_digest payload.

(** ** [ApprovalBinding] *)
Record ApprovalBinding := {
  ab_principal_id : string; ab_session_id : string; ab_task_id : string; ab_turn_id : string;
  ab_tool_call_id : string; ab_tool_name : string; ab_arguments_digest : string;
  ab_workspace_id : string; ab_profile_digest : string; ab_expires_at : Z; ab_nonce : string;
  ab_project_id : string; ab_workspace_generation : Z; ab_authorization_resource_digest : string;
  ab_authorization_epoch : Z; ab_policy_digest : string; ab_tool_schema_digest : string;
  ab_tool_security_digest : string; ab_step_authority_digest : string; ab_plan_revision_id : string;
  ab_plan_revision_digest : string; ab_plan_step_id : string; ab_plan_step_digest : string;
  ab_plan_execution_epoch_digest : string; ab_plan_route_id : string; ab_plan_route_digest : string;
}.

Definition ab_plan_fields (b : ApprovalBinding) : list string :=
  [ab_plan_revision_id b; ab_plan_revision_digest b; ab_plan_step_id b; ab_plan_step_digest b;
   ab_plan_execution_epoch_digest b; ab_plan_route_id b; ab_plan_route_digest b].

Definition check_binding (b : ApprovalBinding) : res ApprovalBinding :=
  value_error_if (existsb str_empty
    [ab_principal_id b; ab_session_id b; ab_task_id b; ab_turn_id b; ab_tool_call_id b; ab_tool_name b;
   ab_arguments_digest b; ab_workspace_id b; ab_profile_digest b; ab_nonce b])
    "approval binding fields must not be empty" ;;*
  value_error_if (ab_expires_at b <=? 0) "approval binding expiry must be positive" ;;*
  value_error_if (partly_filled (ab_plan_fields b)) "approval plan binding is incomplete" ;;*
  Ok b.

Definition binding_payload (float_repr : Z -> string) (b : ApprovalBinding) : pyval :=
  PDict [
    ("principal_id", PStr (ab_principal_id b)); ("session_id", PStr (ab_session_id b));
    ("task_id", PStr (ab_task_id b)); ("turn_id", PStr (ab_turn_id b));
    ("tool_call_id", PStr (ab_tool_call_id b)); ("tool_name", PStr (ab_tool_name b));
    ("arguments_digest", PStr (ab_arguments_digest b)); ("workspace_id", PStr (ab_workspace_id b));
    ("profile_digest", PStr (ab_profile_digest b)); ("expires_at", PFloat (float_repr (ab_expires_at b)));
    ("nonce", PStr (ab_nonce b)); ("project_id", PStr (ab_project_id b));
    ("workspace_generation", PInt (ab_workspace_generation b));
    ("authorization_resource_digest", PStr (ab_authorization_resource_digest b));
    ("authorization_epoch", PInt (ab_authorization_epoch b)); ("policy_digest", PStr (ab_policy_digest b));
    ("tool_schema_digest", PStr (ab_tool_schema_digest b));
    ("tool_security_digest", PStr (ab_tool_security_digest b));
    ("step_authority_digest", PStr (ab_step_authority_digest b));
    ("plan_revision_id", PStr (ab_plan_revision_id b));
    ("plan_revision_digest", PStr (ab_plan_revision_digest b)); ("plan_step_id", PStr (ab_plan_step_id b));
    ("plan_step_digest", PStr (ab_plan_step_digest b));
    ("plan_execution_epoch_digest", PStr (ab_plan_execution_epoch_digest b));
    ("plan_route_id", PStr (ab_plan_route_id b)); ("plan_route_digest", PStr (ab_plan_route_digest b)) ].
Definition binding_digest (float_repr : Z -> string) (b : ApprovalBinding) : string :=
  ascii_digest (binding_payload float_repr b).


(** ** Digests bind every field *)

#[export] Instance str_list_inj : Inj (=) (=) str_list.
Proof.
  intros l k H. injection H. revert k H. induction l as [|x l IH]; intros [|y k] _; cbn; try done.
  intros [= -> E]. f_equal. apply IH; [|done]. unfold str_list. by f_equal.
Qed.

Lemma own_fields_inj a b :
  own_fields a = own_fields b -> sa_approval_receipt_digest a = sa_approval_receipt_digest b -> a = b.
Proof.
  destruct a, b. cbn [own_fields sa_approval_receipt_digest]. intros H Hr. injection H. intros.
  assert (sa_environment_keys0 = sa_environment_keys1) by (apply (inj str_list); unfold str_list; by f_equal). by subst.
Qed.

(** The keys of a payload are distinct, its values are plain. *)
Definition payload_keys (r : bool) : list string :=
  dict_keys (own_fields (Build_StepExecutionAuthority "" "" "" "" "" "" "" "" "" 0 "" "" [] "" "" "" "" "" ""
    "" "" "" 0 "" "" "" "" "" "" "" "" "" "" "" "" "" "" "" "" "")) ++
  ["authority_context"; "authority_context_digest"] ++ (if r then ["approval_receipt_digest"] else []).
Lemma payload_keys_nodup r : NoDup (payload_keys r).
Proof. apply (bool_decide_unpack _). destruct r; vm_compute; exact I. Qed.

Definition payload_members (r : bool) (a : StepExecutionAuthority) (context : pyval) (digest : string) :=
  own_fields a ++ [("authority_context", context); ("authority_context_digest", PStr digest)] ++
    (if r then [("approval_receipt_digest", PStr (sa_approval_receipt_digest a))] else []).
Lemma payload_members_keys r a c d : dict_keys (payload_members r a c d) = payload_keys r.
Proof. by destruct r. Qed.
Lemma payload_members_plain r a c d : plain c = true -> plain (PDict (payload_members r a c d)) = true.
Proof.
  intros Hc. cbn [plain]. apply andb_true_intro. split.
  - apply bool_decide_eq_true_2. rewrite payload_members_keys. apply payload_keys_nodup.
  - unfold payload_members. rewrite forallb_app. apply andb_true_intro. split.
    + assert (plain (str_list (sa_environment_keys a)) = true) as He.
      { cbn. rewrite forallb_Forall_true. apply Forall_fmap, Forall_true. done. }
      cbn -[str_list plain]. by rewrite He.
    + destruct r; cbn; by rewrite Hc.
Qed.
Lemma context_payload_plain c : plain (context_payload c) = true.
Proof. by vm_compute. Qed.

Lemma authority_payload_members r a v : authority_payload r a = Ok v ->
  exists c d, v = PDict (payload_members r a c d) /\ plain v = true.
Proof.
  unfold authority_payload. intros H. apply res_bind_Ok in H as (ctx & _ & H).
  apply (f_equal (fun m => match m with Ok x => x | _ => v end)) in H. cbv beta iota in H. subst v.
  exists (context_payload ctx), (context_digest ctx). split; [done|].
  apply payload_members_plain, context_payload_plain.
Qed.

Lemma dumpsc_canon_inj v w : plain v = true -> plain w = true -> dumpsc v = dumpsc w -> canon v = canon w.
Proof.
  intros Hv Hw E.
  pose proof (loads_dumpsc _ _reject_nonstandard_json_constant reject_duplicates_nodup _ Hv) as H.
  rewrite E, (loads_dumpsc _ _ reject_duplicates_nodup _ Hw) in H. congruence.
Qed.

Lemma dict_ext {V} (d1 d2 : list (string * V)) :
  dict_keys d1 = dict_keys d2 -> NoDup (dict_keys d1) ->
  (forall k, k ∈ dict_keys d1 -> dict_get k d1 = dict_get k d2) -> d1 = d2.
Proof.
  revert d2. induction d1 as [|[k v] d1 IH]; intros [|[k2 v2] d2]; cbn; try done.
  intros [= <- Ek] [Hk Hnd]%NoDup_cons Hg. f_equal.
  - specialize (Hg k). cbn in Hg. rewrite !bool_decide_true in Hg by done.
    assert (Some v = Some v2) as [= ->] by (apply Hg; left). done.
  - apply IH; try done. intros k' Hk'. specialize (Hg k' ltac:(by right)). cbn in Hg.
    rewrite !bool_decide_false in Hg by (intros ->; done). done.
Qed.

Lemma dict_get_app {V} k (d1 d2 : list (string * V)) : k ∈ dict_keys d1 -> dict_get k (d1 ++ d2) = dict_get k d1.
Proof.
  induction d1 as [|[k' v] d1 IH]; cbn; [by intros ?%not_elem_of_nil|].
  intros H. case_bool_decide as E; [done|]. apply IH. by apply elem_of_cons in H as [|].
Qed.

Definition canonical_members (d : list (string * pyval)) : Prop := Forall (fun kv => canon kv.2 = kv.2) d.
Lemma canonical_get k d : canonical_members d -> canon <$> dict_get k d = dict_get k d.
Proof.
  intros H. destruct (dict_get k d) as [v|] eqn:E; [|done]. cbn. f_equal.
  apply dict_get_Some in E. unfold canonical_members in H. rewrite Forall_forall in H. apply (H _ E).
Qed.
Lemma own_fields_canonical a : canonical_members (own_fields a).
Proof. unfold canonical_members, own_fields. repeat (constructor; [apply canon_strs || done|]). constructor. Qed.

(** Equal texts come from equal fields. *)
Lemma members_text_inj r a b ca da cb db :
  plain (PDict (payload_members r a ca da)) = true -> plain (PDict (payload_members r b cb db)) = true ->
  dumpsc (PDict (payload_members r a ca da)) = dumpsc (PDict (payload_members r b cb db)) ->
  own_fields a = own_fields b /\ (r = true -> sa_approval_receipt_digest a = sa_approval_receipt_digest b).
Proof.
  intros Ha Hb E. apply dumpsc_canon_inj in E; [|done..]. cbn [canon] in E.
  assert (forall k, canon <$> dict_get k (payload_members r a ca da)
                  = canon <$> dict_get k (payload_members r b cb db)) as Hg.
  { intros k. rewrite <-!dict_get_canon by (rewrite payload_members_keys; apply payload_keys_nodup).
    congruence. }
  pose proof (payload_keys_nodup r) as Hnd. split.
  - apply dict_ext; [done| |].
    + rewrite <-(payload_members_keys r a ca da) in Hnd. unfold payload_members, dict_keys in Hnd.
      rewrite fmap_app in Hnd. by apply NoDup_app in Hnd as [? _].
    + intros k Hk. specialize (Hg k). unfold payload_members in Hg. rewrite !dict_get_app in Hg by done.
      by rewrite !canonical_get in Hg by apply own_fields_canonical.
  - intros ->. specialize (Hg "approval_receipt_digest"). cbn in Hg. by injection Hg.
Qed.

(** The text a digest is taken of *)
Definition authority_text (include_receipt : bool) (a : StepExecutionAuthority) : res string :=
  let* payload := authority_payload include_receipt a in _canonical_text payload.

Lemma authority_text_members r a t : authority_text r a = Ok t ->
  exists c d, t = dumpsc (PDict (payload_members r a c d)) /\ plain (PDict (payload_members r a c d)) = true.
Proof.
  unfold authority_text. intros H. apply res_bind_Ok in H as (v & Hv & H).
  apply authority_payload_members in Hv as (c & d & -> & Hp). exists c, d. split; [|done].
  unfold _canonical_text, encode_utf8 in H. apply res_bind_Ok in H as (? & _ & H). congruence.
Qed.

Lemma digest_text r a d : (let* p := authority_payload r a in _canonical_digest p) = Ok d ->
  exists s, authority_text r a = Ok s /\ sha256_hexdigest s = d.
Proof.
  unfold authority_text, _canonical_digest. destruct (authority_payload r a) as [p|]; cbn [res_bind]; [|done].
  destruct (_canonical_text p) as [s|]; cbn [res_bind]; [|done]. intros H. exists s. split; [done|].
  revert H. generalize (sha256_hexdigest s). by intros ? [= ->].
Qed.

(** The digests of a step authority bind every field: two authorities whose
    final digests are equal are the same record, and two whose scope digests are
    equal (the scope reviewed before approval) agree on every field but the
    receipt attached afterwards, unless SHA-256 collides on their two texts. *)
Theorem authority_digest_binds a b :
  (forall d, authority_digest a = Ok d -> authority_digest b = Ok d ->
     a = b \/ exists s t, authority_text true a = Ok s /\ authority_text true b = Ok t /\
                          s <> t /\ sha256_hexdigest s = sha256_hexdigest t) /\
  (forall d, scope_digest a = Ok d -> scope_digest b = Ok d ->
     own_fields a = own_fields b \/
     exists s t, authority_text false a = Ok s /\ authority_text false b = Ok t /\
                 s <> t /\ sha256_hexdigest s = sha256_hexdigest t).
Proof.
  assert (forall r d, (let* p := authority_payload r a in _canonical_digest p) = Ok d ->
    (let* p := authority_payload r b in _canonical_digest p) = Ok d ->
    (own_fields a = own_fields b /\ (r = true -> sa_approval_receipt_digest a = sa_approval_receipt_digest b)) \/
    exists s t, authority_text r a = Ok s /\ authority_text r b = Ok t /\ s <> t /\
                sha256_hexdigest s = sha256_hexdigest t) as H.
  { intros r d Ha Hb. apply digest_text in Ha as (s & Ha & Hs), Hb as (t & Hb & Ht).
    destruct (decide (s = t)) as [->|Hne]; [left|right; exists s, t; by rewrite Hs, Ht].
    destruct (authority_text_members _ _ _ Ha) as (ca & da & -> & Pa).
    destruct (authority_text_members _ _ _ Hb) as (cb & db & E & Pb). by eapply members_text_inj. }
  split; intros d Ha Hb.
  - destruct (H true d Ha Hb) as [[H1 H2]|?]; [left; by apply own_fields_inj, H2|by right].
  - destruct (H false d Ha Hb) as [[H1 _]|?]; auto.
Qed.

(** A validated authority always has a payload: the owner context repeats no
    check that validation left open. *)
Lemma checked_authority_payload r a : check_authority a = Ok a -> exists v, authority_payload r a = Ok v.
Proof.
  unfold check_authority, value_error_if. intros H. inv_res. unfold authority_payload, authority_context, check_context.
  cbn [ac_schema_version ac_workspace_generation ac_authorization_epoch ac_delegation_digest].
  unfold value_error_if. rewrite !raise_if_false by done. cbn [res_bind]. by eexists.
Qed.

Definition example_authority : StepExecutionAuthority :=
  Build_StepExecutionAuthority "user" "proj" "s1" "task" "turn" "step" "call" "shell" "ws" 0 "cwd" "profile"
    ["HOME"; "PATH"] "env" "bwrap" "decision" "exe" "none" "ls" "ls" "args" "res" 3 "policy" "schema" "sec" "" "receipt"
    "" "" "" "" "" "" "" "" "" "" "" "".

Example authority_digest_binds_witness :
  check_authority example_authority = Ok example_authority /\
  exists d, scope_digest example_authority = Ok d /\
    (own_fields example_authority = own_fields example_authority \/
     exists s t, authority_text false example_authority = Ok s /\ authority_text false example_authority = Ok t /\
                 s <> t /\ sha256_hexdigest s = sha256_hexdigest t).
Proof.
  split; [reflexivity|].
  assert (is_ok (scope_digest example_authority) = true) as H by (vm_compute; reflexivity).
  destruct (scope_digest example_authority) as [d|] eqn:E; [|discriminate].
  exists d. split; [reflexivity|].
  exact (proj2 (authority_digest_binds example_authority example_authority) d E E).
Defined.
