(* ===== verification/OperationLedger.v ===== *)
(** * The durable approval ledger (the operation-approval methods of [db/database.py])

    [operation_approvals] and [operation_approval_events]: approvals of
    destructive operations that survive a restart.  Every method is one
    transaction under [_operation_approval_lock] (or the writer lock alone, for
    the retention sweep), so concurrent callers are a sequence of operations
    ([ledger_run]).  Columns have the type of their declaration; the binding JSON
    and the identifiers that no operation reads are kept as given. *)
From S2P Require Import Prelude PyStr Json PyValue.
Open Scope Z_scope.

Abbreviation OpTime := Z (only parsing).

(** [CHECK(status IN ('pending','approved','consumed','cancelled'))] *)
Inductive OpStatus := OpPending | OpApproved | OpConsumed | OpCancelled.
#[export] Instance OpStatus_eq_dec : EqDecision OpStatus.
Proof. solve_decision. Defined.
Definition op_status_text (s : OpStatus) : string :=
  match s with
  | OpPending => "pending" | OpApproved => "approved" | OpConsumed => "consumed" | OpCancelled => "cancelled"
  end.
Definition op_active (s : OpStatus) : bool :=
  match s with OpPending | OpApproved => true | OpConsumed | OpCancelled => false end.

Record OpRow := MkOpRow {
  op_binding_digest : string; op_binding_json : string; op_principal_id : string; op_session_id : string;
  op_task_id : string; op_workspace_id : string; op_operation : string; op_nonce_hash : string;
  op_expires_at : OpTime; op_status : OpStatus; op_created_at : OpTime;
  op_approved_at : option OpTime; op_consumed_at : option OpTime
}.
Record OpEvent := MkOpEvent {
  oe_approval_id : string; oe_event_type : string; oe_binding_digest : string; oe_principal_id : string;
  oe_session_id : string; oe_detail : pyval; oe_created_at : OpTime
}.
Definition oe_detail_json (e : OpEvent) : string := json_dumps_sorted (oe_detail e).

(** The rows by primary key, the events in the order of [id] *)
Record OpDb := MkOpDb { op_rows : gmap string OpRow; op_events : list OpEvent }.
Definition empty_ledger : OpDb := MkOpDb ∅ [].

Definition set_status (s : OpStatus) (r : OpRow) : OpRow :=
  MkOpRow (op_binding_digest r) (op_binding_json r) (op_principal_id r) (op_session_id r) (op_task_id r)
    (op_workspace_id r) (op_operation r) (op_nonce_hash r) (op_expires_at r) s (op_created_at r)
    (op_approved_at r) (op_consumed_at r).
Definition stamp_approved (now : OpTime) (r : OpRow) : OpRow :=
  MkOpRow (op_binding_digest r) (op_binding_json r) (op_principal_id r) (op_session_id r) (op_task_id r)
    (op_workspace_id r) (op_operation r) (op_nonce_hash r) (op_expires_at r) (op_status r) (op_created_at r)
    (Some now) (op_consumed_at r).
Definition stamp_consumed (now : OpTime) (r : OpRow) : OpRow :=
  MkOpRow (op_binding_digest r) (op_binding_json r) (op_principal_id r) (op_session_id r) (op_task_id r)
    (op_workspace_id r) (op_operation r) (op_nonce_hash r) (op_expires_at r) (op_status r) (op_created_at r)
    (op_approved_at r) (Some now).

Definition put_row (id : string) (r : OpRow) (db : OpDb) : OpDb := MkOpDb (<[id := r]> (op_rows db)) (op_events db).

Definition _insert_operation_event (id event_type digest principal session : string) (detail : pyval)
    (created_at : OpTime) (db : OpDb) : OpDb :=
  MkOpDb (op_rows db) (op_events db ++ [MkOpEvent id event_type digest principal session detail created_at]).

(** The arguments of [register_operation_approval] *)
Record Registration := MkReg {
  rg_approval_id : string; rg_binding_digest : string; rg_binding_json : string; rg_principal_id : string;
  rg_session_id : string; rg_task_id : string; rg_workspace_id : string; rg_operation : string;
  rg_nonce_hash : string; rg_expires_at : OpTime; rg_created_at : OpTime
}.
Definition registered_row (g : Registration) : OpRow :=
  MkOpRow (rg_binding_digest g) (rg_binding_json g) (rg_principal_id g) (rg_session_id g) (rg_task_id g)
    (rg_workspace_id g) (rg_operation g) (rg_nonce_hash g) (rg_expires_at g) OpPending (rg_created_at g) None None.

Definition register_operation_approval (g : Registration) (db : OpDb) : res unit * OpDb :=
  match op_rows db !! rg_approval_id g with
  | Some existing =>
      if negb (bool_decide (op_binding_digest existing = rg_binding_digest g))
      then (Raise (Exn PermissionError "operation approval id is already bound to another operation"), db)
      else (Ok tt, db)
  | None =>
      (Ok tt, _insert_operation_event (rg_approval_id g) "registered" (rg_binding_digest g) (rg_principal_id g)
                (rg_session_id g) (PDict []) (rg_created_at g)
                (put_row (rg_approval_id g) (registered_row g) db))
  end.

Definition can_approve (principal session : string) (now : OpTime) (r : OpRow) : bool :=
  bool_decide (op_status r = OpPending) && (now <? op_expires_at r)
  && bool_decide (op_principal_id r = principal) && bool_decide (op_session_id r = session).

Definition approve_operation_approval (id principal session : string) (now : OpTime) (db : OpDb) : bool * OpDb :=
  match op_rows db !! id with
  | None => (false, db)
  | Some r =>
      let success := can_approve principal session now r in
      let db1 := if success then put_row id (stamp_approved now (set_status OpApproved r)) db else db in
      (success, _insert_operation_event id (if success then "approved" else "approve-rejected")
                  (op_binding_digest r) principal session (PDict []) now db1)
  end.

Definition can_consume (digest principal session : string) (now : OpTime) (r : OpRow) : bool :=
  bool_decide (op_status r = OpApproved) && (now <? op_expires_at r)
  && bool_decide (op_binding_digest r = digest) && bool_decide (op_principal_id r = principal)
  && bool_decide (op_session_id r = session).

Definition consume_operation_approval (id digest principal session : string) (now : OpTime) (db : OpDb)
    : bool * OpDb :=
  match op_rows db !! id with
  | None => (false, db)
  | Some r =>
      let active := op_active (op_status r) in
      let success := active && can_consume digest principal session now r in
      let db1 := if active then put_row id (stamp_consumed now (set_status OpConsumed r)) db else db in
      (success, _insert_operation_event id (if success then "consumed" else "consume-rejected") digest principal
                  session (PDict [("previous_status", PStr (op_status_text (op_status r)))]) now db1)
  end.

Definition cancel_operation_approval (id : string) (now : OpTime) (db : OpDb) : OpDb :=
  match op_rows db !! id with
  | Some r =>
      if op_active (op_status r)
      then _insert_operation_event id "cancelled" (op_binding_digest r) (op_principal_id r) (op_session_id r)
             (PDict []) now (put_row id (stamp_consumed now (set_status OpCancelled r)) db)
      else db
  | None => db
  end.

Definition list_operation_approval_events (id : string) (db : OpDb) : list OpEvent :=
  filter (fun e => oe_approval_id e = id) (op_events db).

(** [cutoff] is the float [time.time() - max(retention_seconds, 0)]. *)
Definition stale_row (cutoff : OpTime) (r : OpRow) : bool :=
  bool_decide (op_status r = OpConsumed) || bool_decide (op_status r = OpCancelled) || (op_expires_at r <? cutoff).
Definition prune_approval_ledger (cutoff : OpTime) (db : OpDb) : (Z * Z) * OpDb :=
  let stale_ids := dom (filter (fun kv => stale_row cutoff kv.2 = true) (op_rows db)) in
  let rows := filter (fun kv => kv.1 ∉ stale_ids) (op_rows db) in
  let events := filter (fun e => oe_approval_id e ∉ stale_ids) (op_events db) in
  ((Z.of_nat (size (op_rows db) - size rows), Z.of_nat (length (op_events db) - length events)),
   MkOpDb rows events).

(** ** Sequences of operations *)
Inductive LedgerOp :=
| LRegister (g : Registration)
| LApprove (id principal session : string) (now : OpTime)
| LConsume (id digest principal session : string) (now : OpTime)
| LCancel (id : string) (now : OpTime)
| LPrune (cutoff : OpTime).

(** What an operation did, from its result and the row it found *)
Inductive LedgerFact :=
| FInserted (g : Registration)
| FApproved (id principal session : string) (now : OpTime)
| FConsumed (id digest principal session : string) (now : OpTime)
| FBurned (id : string)
| FCancelled (id : string)
| FRemoved (ids : gset string)
| FNothing.

Definition ledger_step (op : LedgerOp) (db : OpDb) : LedgerFact * OpDb :=
  match op with
  | LRegister g =>
      let '(r, db') := register_operation_approval g db in
      (match op_rows db !! rg_approval_id g with None => FInserted g | Some _ => FNothing end, db')
  | LApprove id principal session now =>
      let '(ok, db') := approve_operation_approval id principal session now db in
      (if ok then FApproved id principal session now else FNothing, db')
  | LConsume id digest principal session now =>
      let '(ok, db') := consume_operation_approval id digest principal session now db in
      (if ok then FConsumed id digest principal session now
       else match op_rows db !! id with
            | Some r => if op_active (op_status r) then FBurned id else FNothing
            | None => FNothing end, db')
  | LCancel id now =>
      (match op_rows db !! id with
       | Some r => if op_active (op_status r) then FCancelled id else FNothing
       | None => FNothing end, cancel_operation_approval id now db)
  | LPrune cutoff =>
      let '(_, db') := prune_approval_ledger cutoff db in
      (FRemoved (dom (op_rows db) ∖ dom (op_rows db')), db')
  end.

(** The facts of a sequence of operations, oldest first, and the final ledger *)
Fixpoint ledger_run (ops : list LedgerOp) (db : OpDb) : list LedgerFact * OpDb :=
  match ops with
  | [] => ([], db)
  | op :: ops' =>
      let '(f, db1) := ledger_step op db in
      let '(fs, db2) := ledger_run ops' db1 in (f :: fs, db2)
  end.

(** ** The abstract ledger

    What the ledger promises: an approval is inserted once, may be approved while
    it is pending, and is closed by the first attempt to use it. *)
Inductive EntryState := Waiting | Granted (principal session : string) (at_time : OpTime) | Closed.
Record Entry := MkEntry { en_reg : Registration; en_state : EntryState }.
Definition close (e : Entry) : Entry := MkEntry (en_reg e) Closed.
Definition grant (principal session : string) (now : OpTime) (e : Entry) : Entry :=
  match en_state e with Waiting => MkEntry (en_reg e) (Granted principal session now) | _ => e end.

Definition apply_fact (m : gmap string Entry) (f : LedgerFact) : gmap string Entry :=
  match f with
  | FInserted g => <[rg_approval_id g := MkEntry g Waiting]> m
  | FApproved id principal session t => alter (grant principal session t) id m
  | FConsumed id _ _ _ _ | FBurned id | FCancelled id => alter close id m
  | FRemoved ids => filter (fun kv => kv.1 ∉ ids) m
  | FNothing => m
  end.
Definition replay_facts : list LedgerFact -> gmap string Entry := foldl apply_fact ∅.

Definition represents (id : string) (r : OpRow) (e : Entry) : Prop :=
  let g := en_reg e in
  id = rg_approval_id g /\ op_binding_digest r = rg_binding_digest g /\ op_principal_id r = rg_principal_id g /\
  op_session_id r = rg_session_id g /\ op_expires_at r = rg_expires_at g /\
  match en_state e with
  | Waiting => op_status r = OpPending
  | Granted principal session t =>
      op_status r = OpApproved /\ op_approved_at r = Some t /\ t < rg_expires_at g /\
      principal = rg_principal_id g /\ session = rg_session_id g
  | Closed => op_status r = OpConsumed \/ op_status r = OpCancelled
  end.
Definition abstracts (db : OpDb) (m : gmap string Entry) : Prop :=
  forall id, option_Forall2 (represents id) (op_rows db !! id) (m !! id).

Lemma prune_rows cutoff db id :
  op_rows (prune_approval_ledger cutoff db).2 !! id =
  match op_rows db !! id with
  | Some r => if stale_row cutoff r then None else Some r
  | None => None
  end.
Proof.
  unfold prune_approval_ledger. cbn [snd op_rows].
  destruct (op_rows db !! id) as [r|] eqn:E.
  - destruct (stale_row cutoff r) eqn:Hs.
    + apply map_lookup_filter_None_2. right. intros r' Hr' Hn. cbn in Hn. apply Hn, elem_of_dom.
      exists r. apply map_lookup_filter_Some. done.
    + apply map_lookup_filter_Some. split; [done|]. cbn. intros [r' Hr']%elem_of_dom.
      apply map_lookup_filter_Some in Hr' as [Hr' Hs']. cbn in Hs'. congruence.
  - apply map_lookup_filter_None_2. by left.
Qed.

Lemma put_row_lookup id k r db :
  op_rows (put_row k r db) !! id = if decide (id = k) then Some r else op_rows db !! id.
Proof. cbn. case_decide; subst; [by rewrite lookup_insert_eq|by rewrite lookup_insert_ne]. Qed.

Lemma alter_lookup {V} (f : V -> V) k (m : gmap string V) id :
  alter f k m !! id = if decide (id = k) then f <$> m !! id else m !! id.
Proof. case_decide; subst; [by rewrite lookup_alter_eq|by rewrite lookup_alter_ne]. Qed.

(** A changed row and the entry it stands for *)
Lemma abstracts_put db m id r e :
  abstracts db m -> represents id r e ->
  forall m', (forall k, m' !! k = if decide (k = id) then Some e else m !! k) -> abstracts (put_row id r db) m'.
Proof.
  intros H Hr m' Hm' k. rewrite put_row_lookup, Hm'. case_decide; [subst; by constructor|apply H].
Qed.
Lemma abstracts_event db m id t d p s x n :
  abstracts db m -> abstracts (_insert_operation_event id t d p s x n db) m.
Proof. done. Qed.

Lemma abstracts_row db m id r : abstracts db m -> op_rows db !! id = Some r ->
  exists e, m !! id = Some e /\ represents id r e.
Proof. intros H E. specialize (H id). rewrite E in H. inversion H; subst; eauto. Qed.

Lemma represents_close id r e r' :
  represents id r e -> op_binding_digest r' = op_binding_digest r -> op_principal_id r' = op_principal_id r ->
  op_session_id r' = op_session_id r -> op_expires_at r' = op_expires_at r ->
  (op_status r' = OpConsumed \/ op_status r' = OpCancelled) -> represents id r' (close e).
Proof. intros (?&?&?&?&?&_) ?????. repeat split; cbn; congruence || done. Qed.

Lemma represents_grant id p s now r e :
  represents id r e -> can_approve p s now r = true ->
  represents id (stamp_approved now (set_status OpApproved r)) (grant p s now e).
Proof.
  unfold can_approve. intros (?&?&?&?&?&He) Hc.
  apply andb_prop in Hc as [[[Hp ?%Z.ltb_lt]%andb_prop ?%bool_decide_eq_true]%andb_prop ?%bool_decide_eq_true].
  apply bool_decide_eq_true in Hp. unfold grant.
  destruct (en_state e); [|destruct He as [He _]; congruence|destruct He; congruence].
  unfold represents. cbn. repeat split; congruence || lia.
Qed.

Lemma abstracts_alter db m id r' e (f : Entry -> Entry) :
  abstracts db m -> m !! id = Some e -> represents id r' (f e) ->
  abstracts (put_row id r' db) (alter f id m).
Proof.
  intros H He Hr. eapply abstracts_put; [done|done|]. intros k. rewrite alter_lookup. case_decide; [|done].
  subst. by rewrite He.
Qed.

Lemma ledger_step_abstracts op db m :
  abstracts db m -> abstracts (ledger_step op db).2 (apply_fact m (ledger_step op db).1).
Proof.
  intros H. destruct op as [g|id p s now|id d p s now|id now|cutoff]; cbn.
  - unfold register_operation_approval. destruct (op_rows db !! rg_approval_id g) eqn:E.
    + by destruct (negb _).
    + cbn. apply abstracts_event. apply (abstracts_put _ m _ _ (MkEntry g Waiting)); [done| |].
      * unfold represents; cbn; auto 10.
      * intros k. case_decide; subst; [by rewrite lookup_insert_eq|by rewrite lookup_insert_ne].
  - unfold approve_operation_approval. destruct (op_rows db !! id) as [r|] eqn:E; [|done].
    destruct (can_approve p s now r) eqn:Hc; cbn; apply abstracts_event; [|done].
    destruct (abstracts_row _ _ _ _ H E) as (e & He & Hr).
    eapply abstracts_alter; [done|done|]. by apply represents_grant.
  - unfold consume_operation_approval. destruct (op_rows db !! id) as [r|] eqn:E; [|done].
    destruct (abstracts_row _ _ _ _ H E) as (e & He & Hr).
    destruct (op_active (op_status r)); cbn; [|by apply abstracts_event].
    destruct (can_consume d p s now r); apply abstracts_event; (eapply abstracts_alter; [done|done|]);
      (eapply represents_close; [done..|]; by left).
  - unfold cancel_operation_approval. destruct (op_rows db !! id) as [r|] eqn:E; [|done].
    destruct (abstracts_row _ _ _ _ H E) as (e & He & Hr).
    destruct (op_active (op_status r)); [|done]. apply abstracts_event.
    eapply abstracts_alter; [done|done|]. eapply represents_close; [done..|]. by right.
  - intros k. specialize (H k). pose proof (prune_rows cutoff db k) as Hk. cbn in Hk.
    destruct (prune_approval_ledger cutoff db) as [n db'] eqn:Ep. cbn in *. rewrite Hk.
    destruct (op_rows db !! k) as [r|] eqn:E; inversion H as [? e Hr E1 E2|E1]; subst.
    + destruct (stale_row cutoff r) eqn:Hs.
      * rewrite ?E, ?Hs in Hk. rewrite map_lookup_filter_None_2; [constructor|]. right. intros e' _ Hn. cbn in Hn. apply Hn.
        rewrite elem_of_difference, !elem_of_dom, E. split; [by eexists|].
        rewrite Hk. by intros [? [=]].
      * match goal with |- option_Forall2 _ _ ?x => assert (x = Some e) as ->; [|by constructor] end.
        apply map_lookup_filter_Some. split; [done|]. cbn. rewrite elem_of_difference, !elem_of_dom, Hk.
        intros [_ []]. by eexists.
    + rewrite map_lookup_filter_None_2 by (by left). constructor.
Qed.

Lemma ledger_run_app ops ops' db :
  ledger_run (ops ++ ops') db =
  let '(fs, db1) := ledger_run ops db in let '(fs', db2) := ledger_run ops' db1 in (fs ++ fs', db2).
Proof.
  revert db. induction ops as [|op ops IH]; intros db; cbn; [by destruct (ledger_run ops' db)|].
  destruct (ledger_step op db) as [f db1]. rewrite IH. destruct (ledger_run ops db1) as [fs db2].
  by destruct (ledger_run ops' db2).
Qed.

Lemma ledger_run_abstracts ops db m :
  abstracts db m -> abstracts (ledger_run ops db).2 (foldl apply_fact m (ledger_run ops db).1).
Proof.
  revert db m. induction ops as [|op ops IH]; intros db m H; [done|]. cbn.
  pose proof (ledger_step_abstracts op db m H) as H1. destruct (ledger_step op db) as [f db1]. cbn in H1.
  specialize (IH db1 _ H1). by destruct (ledger_run ops db1).
Qed.
Lemma empty_abstracts : abstracts empty_ledger ∅.
Proof. intros id. constructor. Qed.

(** A fact that leaves an open approval open *)
Definition quiet (id : string) (f : LedgerFact) : Prop :=
  match f with
  | FInserted g => rg_approval_id g <> id
  | FConsumed k _ _ _ _ | FBurned k | FCancelled k => k <> id
  | FRemoved ids => id ∉ ids
  | _ => True
  end.

(** Where an open entry comes from *)
Definition origin (id : string) (fs : list LedgerFact) (e : Entry) : Prop :=
  rg_approval_id (en_reg e) = id /\
  match en_state e with
  | Waiting => exists f1 f2, fs = f1 ++ FInserted (en_reg e) :: f2 /\ Forall (quiet id) f2
  | Granted p s t => exists f1 f2 f3, fs = f1 ++ FInserted (en_reg e) :: f2 ++ FApproved id p s t :: f3 /\
                                     Forall (quiet id) f2 /\ Forall (quiet id) f3
  | Closed => True
  end.

Lemma origin_quiet id fs f e : origin id fs e -> quiet id f -> origin id (fs ++ [f]) e.
Proof.
  unfold origin. intros [H He] Hq. split; [done|]. destruct (en_state e); [| |done].
  - destruct He as (f1 & f2 & -> & H2). exists f1, (f2 ++ [f]). rewrite <-app_assoc. split; [done|].
    apply Forall_app. auto.
  - destruct He as (f1 & f2 & f3 & -> & H2 & H3). exists f1, f2, (f3 ++ [f]).
    rewrite <-!app_assoc. cbn. rewrite <-app_assoc. split_and!; [done|done|]. apply Forall_app. auto.
Qed.

Lemma origin_close id k fs f e :
  (forall e, replay_facts fs !! id = Some e -> origin id fs e) -> (k <> id -> quiet id f) ->
  alter close k (replay_facts fs) !! id = Some e -> origin id (fs ++ [f]) e.
Proof.
  intros IH Hq. rewrite alter_lookup. case_decide as E.
  - destruct (replay_facts fs !! id) as [e0|]; [|done]. cbn. intros [= <-].
    destruct (IH e0 eq_refl) as [? _]. done.
  - intros He. apply origin_quiet; auto.
Qed.

Lemma replay_origin id fs e : replay_facts fs !! id = Some e -> origin id fs e.
Proof.
  revert e. induction fs as [|f fs IH] using rev_ind; intros e; [done|].
  unfold replay_facts. rewrite foldl_snoc. fold (replay_facts fs).
  destruct f as [g|k p s t|k d p s t|k|k|ids|]; cbn [apply_fact].
  - destruct (decide (id = rg_approval_id g)) as [->|Hne].
    + rewrite lookup_insert_eq. intros [= <-]. split; [done|]. cbn. exists fs, []. done.
    + rewrite lookup_insert_ne by done. intros He. apply origin_quiet; [auto|]. cbn. congruence.
  - rewrite alter_lookup. case_decide as E.
    + subst k. destruct (replay_facts fs !! id) as [e0|]; [|done]. cbn. intros [= <-].
      specialize (IH e0 eq_refl). unfold grant. destruct (en_state e0) eqn:Es.
      * destruct IH as [Hi IH]. rewrite Es in IH. split; [done|]. destruct IH as (f1 & f2 & -> & H2). cbn.
        exists f1, f2, []. rewrite <-app_assoc. cbn. done.
      * apply origin_quiet; done.
      * apply origin_quiet; done.
    + intros He. apply origin_quiet; [auto|done].
  - by apply origin_close.
  - by apply origin_close.
  - by apply origin_close.
  - intros [He Hn]%map_lookup_filter_Some. apply origin_quiet; [auto|done].
  - intros He. apply origin_quiet; [auto|done].
Qed.

Lemma can_consume_spec d p s now r : can_consume d p s now r = true <->
  op_status r = OpApproved /\ now < op_expires_at r /\ op_binding_digest r = d /\ op_principal_id r = p /\
  op_session_id r = s.
Proof. unfold can_consume. rewrite !andb_true_iff, Z.ltb_lt, !bool_decide_eq_true. tauto. Qed.

(** Where a successful consumption comes from *)
Lemma consumed_history ops fs db id digest principal session now db' :
  ledger_run ops empty_ledger = (fs, db) ->
  consume_operation_approval id digest principal session now db = (true, db') ->
  exists g t f1 f2 f3,
    fs = f1 ++ FInserted g :: f2 ++ FApproved id principal session t :: f3 /\
    Forall (quiet id) f2 /\ Forall (quiet id) f3 /\
    rg_approval_id g = id /\ rg_binding_digest g = digest /\ rg_principal_id g = principal /\
    rg_session_id g = session /\ t < rg_expires_at g /\ now < rg_expires_at g.
Proof.
  intros Hrun Hc. pose proof (ledger_run_abstracts ops _ _ empty_abstracts) as H. rewrite Hrun in H. cbn in H.
  unfold consume_operation_approval in Hc. destruct (op_rows db !! id) as [r|] eqn:E; [|done].
  injection Hc as Hc _. apply andb_prop in Hc as [_ Hc]. apply can_consume_spec in Hc as (Hs&?&?&?&?).
  destruct (abstracts_row _ _ _ _ H E) as (e & He & Hr).
  fold (replay_facts fs) in He. apply replay_origin in He as [Hid Ho].
  destruct Hr as (?&?&?&?&?&Hr). destruct (en_state e) as [|p s t|]; [congruence| |destruct Hr; congruence].
  destruct Hr as (_ & _ & Ht & -> & ->), Ho as (f1 & f2 & f3 & -> & Hf2 & Hf3).
  exists (en_reg e), t, f1, f2, f3. split_and!; try congruence; try lia.
Qed.

(** C10. A durable approval is honoured only for the operation that was approved:
    after any sequence of ledger operations, a successful consumption names an
    approval that was registered with that very binding digest, principal and
    session, was then approved by that principal in that session before it
    expired, has not expired at consumption, and was not consumed, burned by a
    failed attempt, cancelled, removed or registered anew in between. *)
Theorem consumption_needs_approval ops fs db id digest principal session now db' :
  ledger_run ops empty_ledger = (fs, db) ->
  consume_operation_approval id digest principal session now db = (true, db') ->
  exists g t f1 f2 f3,
    fs = f1 ++ FInserted g :: f2 ++ FApproved id principal session t :: f3 /\
    Forall (quiet id) f2 /\ Forall (quiet id) f3 /\
    rg_approval_id g = id /\ rg_binding_digest g = digest /\ rg_principal_id g = principal /\
    rg_session_id g = session /\ t < rg_expires_at g /\ now < rg_expires_at g.
Proof. apply consumed_history. Qed.

(** ** One use per registration *)
Definition consumed_fact (id : string) (f : LedgerFact) : bool :=
  match f with FConsumed k _ _ _ _ => bool_decide (k = id) | _ => false end.
Definition inserted_fact (id : string) (f : LedgerFact) : bool :=
  match f with FInserted g => bool_decide (rg_approval_id g = id) | _ => false end.
Definition tally (p : LedgerFact -> bool) (fs : list LedgerFact) : nat := length (List.filter p fs).
Definition usable (id : string) (db : OpDb) : nat :=
  match op_rows db !! id with Some r => if op_active (op_status r) then 1 else 0 | None => 0 end.

Lemma ledger_step_usable id op db :
  let '(f, db') := ledger_step op db in
  (tally (consumed_fact id) [f] + usable id db' <= tally (inserted_fact id) [f] + usable id db)%nat.
Proof.
  unfold tally. destruct op as [g|k p s now|k d p s now|k now|cutoff]; cbn.
  - unfold register_operation_approval. destruct (op_rows db !! rg_approval_id g) eqn:E.
    + destruct (negb _); cbn; lia.
    + cbn. unfold usable. cbn. destruct (decide (id = rg_approval_id g)) as [->|Hne].
      * rewrite lookup_insert_eq, E, bool_decide_true by done. done.
      * rewrite lookup_insert_ne by done. lia.
  - unfold approve_operation_approval. destruct (op_rows db !! k) as [r|] eqn:E; [|cbn; lia].
    destruct (can_approve p s now r) eqn:Hc; cbn; [|unfold usable; cbn; lia].
    unfold can_approve in Hc. rewrite !andb_true_iff, bool_decide_eq_true in Hc. destruct Hc as [[[Hp _] _] _].
    unfold usable. cbn. destruct (decide (id = k)) as [->|Hne].
    + rewrite lookup_insert_eq, E, Hp. done.
    + rewrite lookup_insert_ne by done. lia.
  - unfold consume_operation_approval. destruct (op_rows db !! k) as [r|] eqn:E; [|cbn; lia].
    destruct (op_active (op_status r)) eqn:Ha; cbn; [|unfold usable; cbn; lia].
    unfold usable. destruct (decide (id = k)) as [->|Hne].
    + destruct (can_consume d p s now r); cbn; rewrite lookup_insert_eq, E, Ha; cbn;
        rewrite ?bool_decide_true by done; cbn; lia.
    + destruct (can_consume d p s now r); cbn; rewrite lookup_insert_ne, ?bool_decide_false by done; cbn; lia.
  - unfold cancel_operation_approval. destruct (op_rows db !! k) as [r|] eqn:E; [|cbn; lia].
    destruct (op_active (op_status r)) eqn:Ha; cbn; [|lia].
    unfold usable. cbn. destruct (decide (id = k)) as [->|Hne].
    + rewrite lookup_insert_eq. cbn. lia.
    + rewrite lookup_insert_ne by done. lia.
  - pose proof (prune_rows cutoff db id) as Hk. cbn in Hk. cbn.
    unfold usable. cbn. rewrite Hk. destruct (op_rows db !! id) as [r|]; [|lia]. destruct (stale_row cutoff r); lia.
Qed.

Lemma tally_cons p f fs : tally p (f :: fs) = (tally p [f] + tally p fs)%nat.
Proof. unfold tally. cbn. destruct (p f); cbn; lia. Qed.

Lemma ledger_run_usable id ops db :
  let '(fs, db') := ledger_run ops db in
  (tally (consumed_fact id) fs + usable id db' <= tally (inserted_fact id) fs + usable id db)%nat.
Proof.
  revert db. induction ops as [|op ops IH]; intros db; cbn; [unfold tally; cbn; lia|].
  pose proof (ledger_step_usable id op db) as H1. destruct (ledger_step op db) as [f db1].
  specialize (IH db1). destruct (ledger_run ops db1) as [fs db2].
  rewrite (tally_cons (consumed_fact id)), (tally_cons (inserted_fact id)). lia.
Qed.

(** One use per registration: in every sequence of ledger operations, from any
    ledger, an approval id is consumed successfully at most as often as it was
    inserted, counting a usable row the sequence starts with; and any attempt to
    consume a row, also a failed one, leaves no usable row under that id. *)
Theorem approvals_are_one_shot id ops db :
  (let '(fs, db') := ledger_run ops db in
   (tally (consumed_fact id) fs + usable id db' <= tally (inserted_fact id) fs + usable id db)%nat) /\
  (forall digest principal session now,
     usable id (consume_operation_approval id digest principal session now db).2 = 0%nat).
Proof.
  split; [apply ledger_run_usable|]. intros d p s now. unfold usable, consume_operation_approval.
  destruct (op_rows db !! id) as [r|] eqn:E; [|cbn; by rewrite E].
  destruct (op_active (op_status r)) eqn:Ha; cbn; [by rewrite lookup_insert_eq|by rewrite E, Ha].
Qed.

(** ** The audit events explain the state *)
Definition replay_event (s : option OpStatus) (e : OpEvent) : option OpStatus :=
  let t := oe_event_type e in
  if bool_decide (t = "registered") then Some OpPending
  else if bool_decide (t = "approved") then Some OpApproved
  else if bool_decide (t = "consumed") then Some OpConsumed
  else if bool_decide (t = "consume-rejected") then (fun s => if op_active s then OpConsumed else s) <$> s
  else if bool_decide (t = "cancelled") then Some OpCancelled
  else s.
Definition replay_events : list OpEvent -> option OpStatus := foldl replay_event None.
Definition audited (db : OpDb) : Prop :=
  forall id, replay_events (list_operation_approval_events id db) = op_status <$> op_rows db !! id.

(** Appending one event for [id] to a changed ledger *)
Lemma audited_append db db1 id t d p s x n :
  audited db -> op_events db1 = op_events db ->
  (forall k, k <> id -> op_rows db1 !! k = op_rows db !! k) ->
  replay_event (op_status <$> op_rows db !! id) (MkOpEvent id t d p s x n) = op_status <$> op_rows db1 !! id ->
  audited (_insert_operation_event id t d p s x n db1).
Proof.
  intros H He Hk Hr k. specialize (H k). unfold list_operation_approval_events in *. cbn [op_events op_rows _insert_operation_event].
  rewrite He, filter_app, filter_cons. cbn [oe_approval_id]. case_decide as E.
  - subst k. rewrite filter_nil. unfold replay_events in *. by rewrite foldl_snoc, H.
  - rewrite filter_nil, app_nil_r, H. by rewrite Hk.
Qed.

Lemma replay_rejected st id d p s x n :
  replay_event st (MkOpEvent id "consume-rejected" d p s x n) = (fun s => if op_active s then OpConsumed else s) <$> st.
Proof. done. Qed.

Lemma put_other id r db k : k <> id -> op_rows (put_row id r db) !! k = op_rows db !! k.
Proof. intros H. cbn. by rewrite lookup_insert_ne. Qed.

Lemma prune_audited cutoff db : audited db -> audited (prune_approval_ledger cutoff db).2.
Proof.
  intros H k. rewrite prune_rows. specialize (H k). unfold list_operation_approval_events in *. cbn.
  set (stale := dom _) in *. rewrite list_filter_filter.
  assert (k ∈ stale <-> exists r, op_rows db !! k = Some r /\ stale_row cutoff r = true) as Hs.
  { unfold stale. rewrite elem_of_dom. split.
    - intros [r Hr]. apply map_lookup_filter_Some in Hr. eauto.
    - intros (r & Hr). exists r. by apply map_lookup_filter_Some. }
  destruct (decide (k ∈ stale)) as [Hi|Hi].
  - destruct (proj1 Hs Hi) as (r & -> & ->). cbn.
    assert (forall l : list OpEvent, filter (fun e => oe_approval_id e = k /\ (oe_approval_id e ∉ stale)) l = []) as ->; [|done].
    intros l. induction l as [|e l IH]; [done|]. rewrite filter_cons_False; [done|]. intros [-> ?]. done.
  - assert (forall l : list OpEvent, filter (fun e => oe_approval_id e = k /\ (oe_approval_id e ∉ stale)) l
                                   = filter (fun e => oe_approval_id e = k) l) as ->.
    { intros l. apply list_filter_iff. intros e. split; [tauto|]. by intros ->. }
    rewrite H. destruct (op_rows db !! k) as [r|] eqn:E; [|done].
    destruct (stale_row cutoff r) eqn:Er; [|done]. destruct Hi. apply Hs. eauto.
Qed.

Lemma ledger_step_audited op db : audited db -> audited (ledger_step op db).2.
Proof.
  intros H. destruct op as [g|k p s now|k d p s now|k now|cutoff]; cbn [ledger_step].
  - unfold register_operation_approval. destruct (op_rows db !! rg_approval_id g) eqn:E.
    + by destruct (negb _).
    + cbn [snd]. eapply audited_append; [done|done|apply put_other|]. cbn. by rewrite lookup_insert_eq.
  - unfold approve_operation_approval. destruct (op_rows db !! k) as [r|] eqn:E; [|done].
    destruct (can_approve p s now r) eqn:Hc; cbn [snd].
    + eapply audited_append; [done|done|apply put_other|]. cbn. by rewrite lookup_insert_eq, E.
    + eapply audited_append; [done..|]. cbn. by rewrite E.
  - unfold consume_operation_approval. destruct (op_rows db !! k) as [r|] eqn:E; [|done].
    destruct (op_active (op_status r)) eqn:Ha; cbn [snd andb].
    + destruct (can_consume d p s now r) eqn:Hc; cbn [snd];
        (eapply audited_append; [done|done|apply put_other|]); cbn; rewrite lookup_insert_eq, E; [done|].
      rewrite replay_rejected. cbn. by rewrite Ha.
    + eapply audited_append; [done..|]. rewrite replay_rejected, E. cbn. by rewrite Ha.
  - unfold cancel_operation_approval. destruct (op_rows db !! k) as [r|] eqn:E; [|done].
    destruct (op_active (op_status r)) eqn:Ha; [|done]. cbn [snd].
    eapply audited_append; [done|done|apply put_other|]. cbn. by rewrite lookup_insert_eq.
  - pose proof (prune_audited cutoff db H) as Hp. by destruct (prune_approval_ledger cutoff db).
Qed.

Lemma ledger_run_audited ops db : audited db -> audited (ledger_run ops db).2.
Proof.
  revert db. induction ops as [|op ops IH]; intros db H; [done|]. cbn.
  pose proof (ledger_step_audited op db H) as H1. destruct (ledger_step op db) as [f db1].
  specialize (IH db1 H1). by destruct (ledger_run ops db1).
Qed.

(** The audit events explain the ledger: after any sequence of operations,
    retention sweeps included, the status of every approval is what replaying
    its stored events gives, and an id without a row has none that says
    otherwise. *)
Theorem audit_log_explains_state ops id :
  let db := (ledger_run ops empty_ledger).2 in
  replay_events (list_operation_approval_events id db) = op_status <$> op_rows db !! id.
Proof. apply (ledger_run_audited ops empty_ledger). intros k. done. Qed.

Definition use_once (g : Registration) (t now : OpTime) : list LedgerOp :=
  [LApprove (rg_approval_id g) (rg_principal_id g) (rg_session_id g) t;
   LConsume (rg_approval_id g) (rg_binding_digest g) (rg_principal_id g) (rg_session_id g) now].

(** An unexpired registration that its owner approves is consumed. *)
Lemma use_once_run g t now db :
  op_rows db !! rg_approval_id g = Some (registered_row g) -> t < rg_expires_at g -> now < rg_expires_at g ->
  exists db',
    ledger_run (use_once g t now) db =
      ([FApproved (rg_approval_id g) (rg_principal_id g) (rg_session_id g) t;
        FConsumed (rg_approval_id g) (rg_binding_digest g) (rg_principal_id g) (rg_session_id g) now], db') /\
    op_status <$> op_rows db' !! rg_approval_id g = Some OpConsumed.
Proof.
  intros E Ht Hn.
  assert (can_approve (rg_principal_id g) (rg_session_id g) t (registered_row g) = true) as Ha.
  { unfold can_approve. cbn. by rewrite (proj2 (Z.ltb_lt _ _) Ht), !bool_decide_true. }
  assert (can_consume (rg_binding_digest g) (rg_principal_id g) (rg_session_id g) now
            (stamp_approved t (set_status OpApproved (registered_row g))) = true) as Hc.
  { by apply can_consume_spec. }
  unfold use_once. cbn [ledger_run ledger_step]. unfold approve_operation_approval. rewrite E, Ha.
  unfold consume_operation_approval. cbn [_insert_operation_event op_rows put_row].
  rewrite lookup_insert_eq, Hc. eexists. split; [done|]. cbn. by rewrite lookup_insert_eq.
Qed.

Lemma prune_forgets cutoff id db : op_status <$> op_rows db !! id = Some OpConsumed ->
  op_rows (prune_approval_ledger cutoff db).2 !! id = None /\
  list_operation_approval_events id (prune_approval_ledger cutoff db).2 = [].
Proof.
  destruct (op_rows db !! id) as [r|] eqn:E; [|done]. intros Hs. injection Hs as Hs.
  assert (stale_row cutoff r = true) as Hst by (unfold stale_row; by rewrite Hs).
  split; [by rewrite prune_rows, E, Hst|].
  unfold list_operation_approval_events, prune_approval_ledger. cbn. rewrite list_filter_filter.
  set (stale := dom _). assert (id ∈ stale) as Hi.
  { apply elem_of_dom. exists r. by apply map_lookup_filter_Some. }
  generalize (op_events db). intros l. induction l as [|e l IH]; [done|].
  rewrite filter_cons_False; [done|]. by intros [-> ?].
Qed.

(** The retention sweep forgets used approvals at once: whatever the retention
    time, a sweep right after a consumption removes the row and all its events,
    and the same approval id can then be registered, approved and consumed
    again. *)
Theorem retention_reopens_consumed cutoff g t now db :
  op_rows db !! rg_approval_id g = Some (registered_row g) ->
  t < rg_expires_at g -> now < rg_expires_at g ->
  list_operation_approval_events (rg_approval_id g) (ledger_run (use_once g t now ++ [LPrune cutoff]) db).2 = [] /\
  tally (consumed_fact (rg_approval_id g))
    (ledger_run (use_once g t now ++ [LPrune cutoff; LRegister g] ++ use_once g t now) db).1 = 2%nat.
Proof.
  intros E Ht Hn. destruct (use_once_run g t now db E Ht Hn) as (db1 & H1 & Hs).
  destruct (prune_forgets cutoff _ _ Hs) as [Hrow Hev]. rewrite !ledger_run_app, H1.
  cbn [ledger_run ledger_step app]. destruct (prune_approval_ledger cutoff db1) as [n db2]. cbn [snd] in *.
  split; [done|]. unfold register_operation_approval. rewrite Hrow.
  destruct (use_once_run g t now
    (_insert_operation_event (rg_approval_id g) "registered" (rg_binding_digest g) (rg_principal_id g)
       (rg_session_id g) (PDict []) (rg_created_at g) (put_row (rg_approval_id g) (registered_row g) db2)))
    as (db3 & H3 & _); [by cbn; rewrite lookup_insert_eq|done..|].
  rewrite H3. unfold tally. cbn. by rewrite !bool_decide_true.
Qed.

(** ** Witnesses *)
Definition example_reg : Registration :=
  MkReg "op-1" "digest" "{}" "alice" "s1" "task" "ws" "git.reset" "nonce" 100 0.

Example consumption_needs_approval_witness :
  exists g t f1 f2 f3,
    (ledger_run [LRegister example_reg; LApprove "op-1" "alice" "s1" 10] empty_ledger).1
      = f1 ++ FInserted g :: f2 ++ FApproved "op-1" "alice" "s1" t :: f3 /\
    Forall (quiet "op-1") f2 /\ Forall (quiet "op-1") f3 /\
    rg_approval_id g = "op-1" /\ rg_binding_digest g = "digest" /\ rg_principal_id g = "alice" /\
    rg_session_id g = "s1" /\ t < rg_expires_at g /\ 20 < rg_expires_at g.
Proof.
  refine (consumption_needs_approval [LRegister example_reg; LApprove "op-1" "alice" "s1" 10] _ _
            "op-1" "digest" "alice" "s1" 20 _ (surjective_pairing _) _).
  vm_compute. reflexivity.
Defined.

Example retention_reopens_consumed_witness :
  tally (consumed_fact "op-1")
    (ledger_run (use_once example_reg 10 20 ++ [LPrune (-1000); LRegister example_reg] ++ use_once example_reg 10 20)
       (ledger_run [LRegister example_reg] empty_ledger).2).1 = 2%nat.
Proof.
  apply (retention_reopens_consumed (-1000) example_reg 10 20); [vm_compute; reflexivity|reflexivity..].
Defined.
