(* ===== verification/Approvals.v ===== *)
(** * The approval broker ([agent/approval.py], [ApprovalBroker])

    Tool approvals held in memory: registration under quotas, waiting, resolving,
    one-shot dispatch, task decisions and the periodic sweep; and approvals of
    destructive operations, in memory or through the durable ledger.

    Each critical section under [_lock] is one atomic operation on the broker.
    [wait] has three of them around an [await]; its calls are [Waiter]s, and a
    [World] is the broker, the futures it has created and every call of [wait].
    [act] is one step of one participant; interleavings are sequences of
    actions.  Clock readings and drawn tokens are arguments.

    Plan approvals are kept only as far as the sweep and cancellation reach;
    their signed receipts are not part of this file. *)
From S2P Require Import Prelude PyStr Json PyValue Authority OperationLedger.
Open Scope Z_scope.

Record ApprovalDecision := MkDecision { ad_approved : bool; ad_remember : bool }.
#[export] Instance ApprovalDecision_eq_dec : EqDecision ApprovalDecision.
Proof. solve_decision. Defined.
Definition denied : ApprovalDecision := MkDecision false false.

(** [_ToolApprovalRecord] *)
Record ToolRecord := MkTool {
  ta_binding : ApprovalBinding; ta_digest : string; ta_id : string;
  ta_decision : option ApprovalDecision; ta_used : bool; ta_dispatched : bool; ta_created_at : Z
}.
Definition mark_used (r : ToolRecord) : ToolRecord :=
  MkTool (ta_binding r) (ta_digest r) (ta_id r) (ta_decision r) true (ta_dispatched r) (ta_created_at r).
Definition set_decision (d : ApprovalDecision) (r : ToolRecord) : ToolRecord :=
  MkTool (ta_binding r) (ta_digest r) (ta_id r) (Some d) (ta_used r) (ta_dispatched r) (ta_created_at r).
Definition mark_dispatched (r : ToolRecord) : ToolRecord :=
  MkTool (ta_binding r) (ta_digest r) (ta_id r) (ta_decision r) (ta_used r) true (ta_created_at r).

(** A future of the event loop *)
Inductive Future := FutPending | FutResult (d : ApprovalDecision) | FutCancelled.
#[export] Instance Future_eq_dec : EqDecision Future.
Proof. solve_decision. Defined.
Definition fut_done (f : Future) : bool := match f with FutPending => false | _ => true end.

(** An entry of [_operation_approvals] *)
Record OperationRecord := MkOperation {
  or_binding : list (string * pyval); or_digest : string; or_expiry : Z; or_approved : bool; or_used : bool
}.
Record PlanApprovalRecord := MkPlan {
  pl_request_id : string; pl_approval_request_id : string; pl_binding : pyval; pl_summary : pyval;
  pl_expires_at : Z; pl_decision : option string; pl_decide_count : Z
}.

(** The broker.  [_tool_approvals] is a dict in insertion order; [_pending] maps
    an approval id to a future, an index into [br_futures]. *)
Record Broker := MkBroker {
  br_max_session : Z; br_max_turn : Z;
  br_tools : list (string * ToolRecord);
  br_pending : gmap string nat;
  br_futures : list Future;
  br_operations : gmap string OperationRecord;
  br_plans : gmap string PlanApprovalRecord
}.
Definition with_tools (l : list (string * ToolRecord)) (b : Broker) : Broker :=
  MkBroker (br_max_session b) (br_max_turn b) l (br_pending b) (br_futures b) (br_operations b) (br_plans b).
Definition with_pending (m : gmap string nat) (b : Broker) : Broker :=
  MkBroker (br_max_session b) (br_max_turn b) (br_tools b) m (br_futures b) (br_operations b) (br_plans b).
Definition with_futures (l : list Future) (b : Broker) : Broker :=
  MkBroker (br_max_session b) (br_max_turn b) (br_tools b) (br_pending b) l (br_operations b) (br_plans b).
Definition with_operations (m : gmap string OperationRecord) (b : Broker) : Broker :=
  MkBroker (br_max_session b) (br_max_turn b) (br_tools b) (br_pending b) (br_futures b) m (br_plans b).
Definition with_plans (m : gmap string PlanApprovalRecord) (b : Broker) : Broker :=
  MkBroker (br_max_session b) (br_max_turn b) (br_tools b) (br_pending b) (br_futures b) (br_operations b) m.

Definition new_broker (max_pending_per_principal_session max_pending_per_turn : Z) : res Broker :=
  if (max_pending_per_principal_session <=? 0) || (max_pending_per_turn <=? 0)
  then value_error "approval pending quotas must be positive"
  else Ok (MkBroker max_pending_per_principal_session max_pending_per_turn [] ∅ [] ∅ ∅).

Definition records (b : Broker) : list ToolRecord := (br_tools b).*2.
(** Assignment to fields of the record object stored under [id] *)
Definition update_tool (id : string) (f : ToolRecord -> ToolRecord) (b : Broker) : Broker :=
  with_tools ((fun kv => if bool_decide (kv.1 = id) then (kv.1, f kv.2) else kv) <$> br_tools b) b.
(** [future.set_result(d)] on a future that is not done *)
Definition set_result (f : nat) (d : ApprovalDecision) (b : Broker) : Broker :=
  with_futures (<[f := FutResult d]> (br_futures b)) b.
Definition future_state (f : nat) (b : Broker) : Future := default FutCancelled (br_futures b !! f).

(** ** [register_tool_approval] *)
Definition is_active (now : Z) (r : ToolRecord) : bool := negb (ta_used r) && (now <? ab_expires_at (ta_binding r)).
Definition same_session (principal session : string) (r : ToolRecord) : bool :=
  bool_decide (ab_principal_id (ta_binding r) = principal) && bool_decide (ab_session_id (ta_binding r) = session).
Definition same_turn (principal session turn : string) (r : ToolRecord) : bool :=
  same_session principal session r && bool_decide (ab_turn_id (ta_binding r) = turn).
Definition count_if {A} (p : A -> bool) (l : list A) : Z := Z.of_nat (length (List.filter p l)).

(** The [while] loop draws tokens until the id is not a key of the store;
    [None] when it has not ended on the given draws. *)
Fixpoint fresh_id (draws keys : list string) : option string :=
  match draws with
  | [] => None
  | t :: draws' =>
      let id := "approval_" +:+ t in if str_in id keys then fresh_id draws' keys else Some id
  end.

Section Registration.
Variable float_repr : Z -> string.

(** The handle: binding digest and approval id *)
Definition register_tool_approval (binding : ApprovalBinding) (now created_at : Z) (draws : list string)
    (b : Broker) : option (res (string * string) * Broker) :=
  let digest := binding_digest float_repr binding in
  match List.find (fun r => bool_decide (ta_digest r = digest)) (records b) with
  | Some existing => Some (Ok (digest, ta_id existing), b)
  | None =>
      let active := List.filter (is_active now) (records b) in
      let p := ab_principal_id binding in
      let s := ab_session_id binding in
      if br_max_session b <=? count_if (same_session p s) active
      then Some (Raise (Exn PermissionError "approval pending quota exceeded for principal/session"), b)
      else if br_max_turn b <=? count_if (same_turn p s (ab_turn_id binding)) active
      then Some (Raise (Exn PermissionError "approval pending quota exceeded for turn"), b)
      else
        match fresh_id draws (dict_keys (br_tools b)) with
        | None => None
        | Some id =>
            Some (Ok (digest, id),
                  with_tools (br_tools b ++ [(id, MkTool binding digest id None false false created_at)]) b)
        end
  end.
End Registration.

(** [_find_tool_approval_locked] *)
Definition opt_matches (o : option string) (s : string) : bool :=
  match o with None => true | Some x => bool_decide (s = x) end.
Definition matching (call digest : string) (principal session : option string) (r : ToolRecord) : bool :=
  bool_decide (ta_digest r = digest) && bool_decide (ab_tool_call_id (ta_binding r) = call)
  && opt_matches principal (ab_principal_id (ta_binding r)) && opt_matches session (ab_session_id (ta_binding r)).
Definition _find_tool_approval_locked (call digest : string) (principal session : option string) (b : Broker)
    : option ToolRecord :=
  match List.filter (matching call digest principal session) (records b) with
  | [r] => Some r
  | _ => None
  end.

(** ** [wait]: entry, the [TimeoutError] handler, [finally] *)
Inductive WaitEntry := WaitReturns (d : ApprovalDecision) | WaitBlocks (f : nat).
Definition expired (now : Z) (r : ToolRecord) : bool := ab_expires_at (ta_binding r) <=? now.

Definition wait_enter (call digest : string) (now : Z) (b : Broker) : WaitEntry * Broker :=
  match _find_tool_approval_locked call digest None None b with
  | None => (WaitReturns denied, b)
  | Some r =>
      if ta_used r || negb (bool_decide (ta_digest r = digest)) || expired now r then (WaitReturns denied, b)
      else
        match ta_decision r, br_pending b !! ta_id r with
        | Some d, _ => (WaitReturns d, update_tool (ta_id r) mark_used b)
        | None, Some f => (WaitBlocks f, b)
        | None, None =>
            let f := length (br_futures b) in
            (WaitBlocks f, with_pending (<[ta_id r := f]> (br_pending b))
                             (with_futures (br_futures b ++ [FutPending]) b))
        end
  end.
Definition wait_timed_out (call digest : string) (b : Broker) : Broker :=
  match _find_tool_approval_locked call digest None None b with
  | Some r => update_tool (ta_id r) mark_used b
  | None => b
  end.
Definition wait_finally (call digest : string) (b : Broker) : Broker :=
  match _find_tool_approval_locked call digest None None b with
  | Some r => update_tool (ta_id r) mark_used (with_pending (delete (ta_id r) (br_pending b)) b)
  | None => b
  end.

(** ** [resolve], [consume_for_dispatch], [consume_task_decision_and_commit] *)
Definition wrong_scope (digest principal session : string) (r : ToolRecord) : bool :=
  negb (bool_decide (ta_digest r = digest))
  || negb (bool_decide (ab_principal_id (ta_binding r) = principal))
  || negb (bool_decide (ab_session_id (ta_binding r) = session)).
Definition decided (r : ToolRecord) : bool := match ta_decision r with Some _ => true | None => false end.

Definition resolve (call : string) (approved remember : bool) (principal session digest : string) (now : Z)
    (b : Broker) : bool * Broker :=
  match _find_tool_approval_locked call digest (Some principal) (Some session) b with
  | None => (false, b)
  | Some r =>
      if ta_used r || decided r || wrong_scope digest principal session r || expired now r then (false, b)
      else
        let decision := MkDecision approved remember in
        let b1 := update_tool (ta_id r) (set_decision decision) b in
        match br_pending b1 !! ta_id r with
        | None => (true, b1)
        | Some f => if fut_done (future_state f b1) then (false, b1) else (true, set_result f decision b1)
        end
  end.

Definition consume_for_dispatch (call : string) (approved remember : bool) (principal session digest : string)
    (now : Z) (b : Broker) : ApprovalDecision * Broker :=
  match _find_tool_approval_locked call digest (Some principal) (Some session) b with
  | None => (denied, b)
  | Some r =>
      if ta_dispatched r || wrong_scope digest principal session r || expired now r then (denied, b)
      else
        let callback := MkDecision approved remember in
        match ta_decision r with
        | Some d =>
            if negb (bool_decide (d = callback)) then (denied, update_tool (ta_id r) mark_used b)
            else (d, update_tool (ta_id r) (fun r => mark_dispatched (mark_used r)) b)
        | None =>
            (callback, update_tool (ta_id r) (fun r => mark_dispatched (mark_used (set_decision callback r))) b)
        end
  end.

(** [commit] runs inside the critical section; its state is the caller's. *)
Definition consume_task_decision_and_commit {S} (call : string) (approved : bool)
    (principal session digest : string) (now : Z) (commit : S -> res bool * S) (s : S) (b : Broker)
    : res bool * S * Broker :=
  match _find_tool_approval_locked call digest (Some principal) (Some session) b with
  | None => (Ok false, s, b)
  | Some r =>
      if ta_used r || ta_dispatched r || decided r || wrong_scope digest principal session r || expired now r
      then (Ok false, s, b)
      else
        let decision := MkDecision approved false in
        let b1 := update_tool (ta_id r) (fun r => mark_dispatched (mark_used (set_decision decision r))) b in
        match commit s with
        | (Ok true, s') =>
            match br_pending b1 !! ta_id r with
            | Some f => if fut_done (future_state f b1) then (Ok true, s', b1) else (Ok true, s', set_result f decision b1)
            | None => (Ok true, s', b1)
            end
        | (Ok false, s') => (Ok false, s', b1)
        | (Raise e, s') => (Raise e, s', b1)
        end
  end.

(** ** [sweep_expired] *)

(** The binary64 number nearest to a multiple of [2^-1074] *)
Definition round_binary64 (x : Z) : Z :=
  let e := Z.log2 (Z.abs x) - 52 in
  if e <=? 0 then x
  else
    let q := x / 2 ^ e in
    let r := x mod 2 ^ e in
    let half := 2 ^ (e - 1) in
    (if (r <? half) || ((r =? half) && Z.even q) then q else q + 1) * 2 ^ e.

Definition stale_tool (now ttl : Z) (r : ToolRecord) : bool :=
  ta_used r || (ttl <? round_binary64 (now - ta_created_at r)).
Definition evict_tool (b : Broker) (key : string) : Broker :=
  let b1 := with_tools (filter (fun kv => kv.1 <> key) (br_tools b)) b in
  let b2 := with_pending (delete key (br_pending b1)) b1 in
  match br_pending b1 !! key with
  | Some f => if fut_done (future_state f b2) then b2 else set_result f denied b2
  | None => b2
  end.
Definition sweep_expired (now ttl : Z) (b : Broker) : (Z * Z * Z) * Broker :=
  let stale := (List.filter (fun kv => stale_tool now ttl kv.2) (br_tools b)).*1 in
  let b1 := foldl evict_tool b stale in
  let plans := filter (fun kv => now < pl_expires_at kv.2) (br_plans b1) in
  let b2 := with_plans plans b1 in
  let operations := filter (fun kv => or_used kv.2 = false /\ now < or_expiry kv.2) (br_operations b2) in
  ((Z.of_nat (length stale), Z.of_nat (size (br_plans b1) - size plans),
    Z.of_nat (size (br_operations b2) - size operations)), with_operations operations b2).

(** ** Destructive operations *)
Section Operations.
(** [str] of a float, a list or a dict; the text SQLite stores for a real number
    in a text column; the strings [float] accepts *)
Variable repr : pyval -> string.
Variable sql_real : string -> string.
Variable float_accepts : string -> bool.

Definition get_or (d : list (string * pyval)) (key : string) (otherwise : pyval) : pyval :=
  match dict_get key d with Some v => if truthy v then v else otherwise | None => otherwise end.
Definition get_none (d : list (string * pyval)) (key : string) : pyval := default PNone (dict_get key d).
Definition setdefault (key : string) (v : pyval) (d : list (string * pyval)) : list (string * pyval) :=
  match dict_get key d with Some _ => d | None => dict_set key v d end.
Definition dict_pop (key : string) (d : list (string * pyval)) : list (string * pyval) :=
  List.filter (fun kv => negb (bool_decide (kv.1 = key))) d.

Definition OPERATION_KEYS : list string := ["principal_id"; "session_id"; "task_id"; "workspace_id"; "operation"].

Definition _normalize_operation_binding (binding : list (string * pyval)) : res (list (string * pyval)) :=
  let requester := py_str repr (get_or binding "requester" (get_or binding "session_id" (PStr ""))) in
  let n1 := dict_set "requester" (PStr requester) binding in
  let n2 := dict_set "session_id" (PStr (py_str repr (get_or n1 "session_id" (PStr requester)))) n1 in
  let n3 := dict_set "principal_id"
              (PStr (py_str repr (get_or n2 "principal_id" (get_none n2 "session_id")))) n2 in
  let n4 := dict_pop "expiry" n3 in
  match List.find (fun key => str_empty (py_str repr (get_or n4 key (PStr "")))) OPERATION_KEYS with
  | Some key => value_error ("operation approval binding requires " +:+ key)
  | None =>
      let* arguments := _canonical_digest (PDict [
        ("operation", get_none n4 "operation"); ("target", get_none n4 "target");
        ("changeset_id", get_none n4 "changeset_id"); ("payload_hash", get_none n4 "payload_hash")]) in
      let n5 := setdefault "arguments_digest" (PStr arguments) n4 in
      let* profile := _canonical_digest (PDict [
        ("network_policy", default (PStr "none") (dict_get "network_policy" n5));
        ("credential_scope", default (PStr "") (dict_get "credential_scope" n5));
        ("operation", get_none n5 "operation")]) in
      Ok (setdefault "profile_digest" (PStr profile) n5)
  end.

(** A value bound to a text column *)
Definition sql_text (v : pyval) : res string :=
  match v with
  | PStr s => Ok s
  | PInt z => Ok (Z_to_dec z)
  | PBool x => Ok (if x then "1" else "0")
  | PFloat lit => Ok (sql_real lit)
  | PNone => Raise (Exn SqliteIntegrityError "NOT NULL constraint failed")
  | PList _ | PDict _ => Raise (Exn SqliteError "type is not supported")
  end.
Definition registration (approval_id digest nonce_hash : string) (normalized : list (string * pyval))
    (expiry created_at : Z) : res Registration :=
  let text key := sql_text (get_none normalized key) in
  let* principal := text "principal_id" in
  let* session := text "session_id" in
  let* task := text "task_id" in
  let* workspace := text "workspace_id" in
  let* operation := text "operation" in
  Ok (MkReg approval_id digest (ascii_text (dumpsc (PDict normalized))) principal session task workspace operation
        nonce_hash expiry created_at).

Definition put_operation (id : string) (r : OperationRecord) (b : Broker) : Broker :=
  with_operations (<[id := r]> (br_operations b)) b.

(** [ledger] is the database, when the broker has one. *)
Definition register_operation (approval_id : string) (binding : list (string * pyval)) (expiry : Z)
    (nonce_hash : string) (created_at : Z) (b : Broker) (ledger : option OpDb) : res unit * Broker * option OpDb :=
  match (let* n := _normalize_operation_binding binding in let* d := _canonical_digest (PDict n) in Ok (n, d)) with
  | Raise e => (Raise e, b, ledger)
  | Ok (normalized, digest) =>
      let b1 := put_operation approval_id (MkOperation normalized digest expiry false false) b in
      match ledger with
      | None => (Ok tt, b1, None)
      | Some db =>
          match op_rows db !! approval_id, registration approval_id digest nonce_hash normalized expiry created_at with
          | None, Raise e => (Raise e, b1, Some db)
          | None, Ok g => let '(r, db') := register_operation_approval g db in (r, b1, Some db')
          | Some existing, _ =>
              (raise_if (negb (bool_decide (op_binding_digest existing = digest))) PermissionError
                 "operation approval id is already bound to another operation", b1, Some db)
          end
      end
  end.

Definition mark_approved (r : OperationRecord) : OperationRecord :=
  MkOperation (or_binding r) (or_digest r) (or_expiry r) true (or_used r).
Definition burn (r : OperationRecord) : OperationRecord :=
  MkOperation (or_binding r) (or_digest r) (or_expiry r) (or_approved r) true.
Definition update_operation (id : string) (f : OperationRecord -> OperationRecord) (b : Broker) : Broker :=
  with_operations (alter f id (br_operations b)) b.

Definition get_is (d : list (string * pyval)) (key value : string) : bool :=
  match dict_get key d with Some (PStr s) => bool_decide (s = value) | _ => false end.

Definition approve_operation (approval_id requester : string) (principal_id : option string) (now : Z)
    (b : Broker) (ledger : option OpDb) : bool * Broker * option OpDb :=
  let principal := match principal_id with
    | Some p => if str_empty p then requester else p | None => requester end in
  match ledger with
  | Some db =>
      let '(approved, db') := approve_operation_approval approval_id principal requester now db in
      (approved, if approved then update_operation approval_id mark_approved b else b, Some db')
  | None =>
      match br_operations b !! approval_id with
      | None => (false, b, None)
      | Some r =>
          if or_used r || (or_expiry r <=? now) || negb (get_is (or_binding r) "session_id" requester)
             || negb (get_is (or_binding r) "principal_id" principal)
          then (false, b, None) else (true, update_operation approval_id mark_approved b, None)
      end
  end.

(** [float(binding.get("expiry") or 0)]; the value is not used further *)
Definition check_expiry (v : pyval) : res unit :=
  match v with
  | PList _ | PDict _ => raise_if (truthy v) TypeError "float() argument must be a string or a real number"
  | PStr s => raise_if (truthy v && negb (float_accepts s)) ValueError "could not convert string to float"
  | _ => Ok tt
  end.

Definition consume_operation (approval_id : string) (binding : list (string * pyval)) (now : Z)
    (b : Broker) (ledger : option OpDb) : res bool * Broker * option OpDb :=
  match (check_expiry (get_none binding "expiry") ;;*
         let* n := _normalize_operation_binding binding in let* d := _canonical_digest (PDict n) in Ok (n, d)) with
  | Raise e => (Raise e, b, ledger)
  | Ok (normalized, digest) =>
      match ledger with
      | Some db =>
          let '(ok, db') := consume_operation_approval approval_id digest
                              (py_str repr (get_none normalized "principal_id"))
                              (py_str repr (get_none normalized "session_id")) now db in
          (Ok ok, b, Some db')
      | None =>
          match br_operations b !! approval_id with
          | None => (Ok false, b, None)
          | Some r =>
              if or_used r then (Ok false, b, None)
              else (Ok (or_approved r && (now <? or_expiry r) && bool_decide (or_digest r = digest)),
                    update_operation approval_id burn b, None)
          end
      end
  end.

Definition cancel_operation (approval_id : string) (now : Z) (b : Broker) (ledger : option OpDb)
    : Broker * option OpDb :=
  (update_operation approval_id burn b, cancel_operation_approval approval_id now <$> ledger).
End Operations.

(** ** Plan approvals *)
Definition PLAN_APPROVAL_NAMESPACE : string := "plan-execution".
Definition _plan_broker_request_id (approval_request_id : string) : string :=
  PLAN_APPROVAL_NAMESPACE +:+ ":" +:+ approval_request_id.
Definition register_plan_approval (approval_request_id : string) (binding summary : pyval) (expires_at : Z)
    (b : Broker) : string * Broker :=
  let id := _plan_broker_request_id approval_request_id in
  match br_plans b !! id with
  | Some _ => (id, b)
  | None => (id, with_plans (<[id := MkPlan id approval_request_id binding summary expires_at None 0]> (br_plans b)) b)
  end.
Definition get_plan_approval (id : string) (b : Broker) : option PlanApprovalRecord := br_plans b !! id.
Definition cancel_plan_approval (id : string) (b : Broker) : bool * Broker :=
  match br_plans b !! id with
  | None => (false, b)
  | Some r =>
      (true, with_plans (<[id := MkPlan (pl_request_id r) (pl_approval_request_id r) (pl_binding r) (pl_summary r)
                                   (pl_expires_at r) (match pl_decision r with None => Some "rejected" | d => d end)
                                   (pl_decide_count r + 1)]> (br_plans b)) b)
  end.

(** ** The world: the broker and the calls of [wait] *)

(** What a call of [wait] ends with; [None] is [CancelledError]. *)
Definition Outcome : Type := option ApprovalDecision.
Inductive WaitPhase :=
| WBlocked (f : nat)            (* awaiting the future *)
| WTimedOut                     (* before the section of the timeout handler *)
| WFinally (o : Outcome)        (* before the section of [finally] *)
| WDone (o : Outcome).
Record Waiter := MkWaiter { wt_call : string; wt_digest : string; wt_timeout : bool; wt_phase : WaitPhase }.
Definition set_phase (p : WaitPhase) (w : Waiter) : Waiter := MkWaiter (wt_call w) (wt_digest w) (wt_timeout w) p.

Record World := MkWorld { wd_broker : Broker; wd_waiters : list Waiter }.

Inductive Action :=
| ARegister (binding : ApprovalBinding) (now created_at : Z) (draws : list string)
| AWait (call digest : string) (timeout : bool) (now : Z)
| AWake (i : nat)                                        (* the awaited future is done *)
| ATimeout (i : nat) | ATimeoutSection (i : nat)
| ACancelWait (i : nat)                                  (* the waiting task is cancelled *)
| AFinally (i : nat)
| AResolve (call : string) (approved remember : bool) (principal session digest : string) (now : Z)
| ADispatch (call : string) (approved remember : bool) (principal session digest : string) (now : Z)
| ACommit (call : string) (approved : bool) (principal session digest : string) (now : Z) (outcome : res bool)
| ASweep (now ttl : Z).

(** What an action did to a record *)
Inductive ToolFact :=
| TNew (id digest : string)
| TDecided (id : string) (d : ApprovalDecision)
| TGrant (id digest : string) (d : ApprovalDecision).

Definition record_changes (old : option ToolRecord) (r : ToolRecord) : list ToolFact :=
  match old with
  | None => [TNew (ta_id r) (ta_digest r)]
  | Some o =>
      (if decided o then [] else match ta_decision r with Some d => [TDecided (ta_id r) d] | None => [] end) ++
      (if ta_dispatched r && negb (ta_dispatched o)
       then [TGrant (ta_id r) (ta_digest r) (default denied (ta_decision r))] else [])
  end.
Definition changes (b b' : Broker) : list ToolFact :=
  (br_tools b') ≫= (fun kv => record_changes (dict_get kv.1 (br_tools b)) kv.2).

(** The next world, when the action can happen *)
Section World.
Variable float_repr : Z -> string.

Definition on_broker (b : Broker) (w : World) : World := MkWorld b (wd_waiters w).
Definition move_waiter (i : nat) (p : WaitPhase) (w : World) : World :=
  MkWorld (wd_broker w) (alter (set_phase p) i (wd_waiters w)).
Definition at_phase (i : nat) (w : World) : option WaitPhase := wt_phase <$> wd_waiters w !! i.

(** Cancelling a task that awaits the future itself cancels the future; under
    [shield] only the wait ends.  A task cancelled while it enters a critical
    section skips the section. *)
Definition cancel_wait (i : nat) (wt : Waiter) (w : World) : option World :=
  match wt_phase wt with
  | WBlocked f =>
      let b := wd_broker w in
      let b' := if wt_timeout wt || fut_done (future_state f b) then b
                else with_futures (<[f := FutCancelled]> (br_futures b)) b in
      Some (move_waiter i (WFinally None) (on_broker b' w))
  | WTimedOut => Some (move_waiter i (WFinally None) w)
  | WFinally _ => Some (move_waiter i (WDone None) w)
  | WDone _ => None
  end.

Definition act (a : Action) (w : World) : option World :=
  let b := wd_broker w in
  match a with
  | ARegister binding now created_at draws =>
      (fun p => on_broker p.2 w) <$> register_tool_approval float_repr binding now created_at draws b
  | AWait call digest timeout now =>
      let '(e, b') := wait_enter call digest now b in
      let phase := match e with WaitReturns d => WDone (Some d) | WaitBlocks f => WBlocked f end in
      Some (MkWorld b' (wd_waiters w ++ [MkWaiter call digest timeout phase]))
  | AWake i =>
      match at_phase i w with
      | Some (WBlocked f) =>
          match future_state f b with
          | FutPending => None
          | FutResult d => Some (move_waiter i (WFinally (Some d)) w)
          | FutCancelled => Some (move_waiter i (WFinally None) w)
          end
      | _ => None
      end
  | ATimeout i =>
      match wd_waiters w !! i with
      | Some wt => match wt_phase wt with
                   | WBlocked _ => if wt_timeout wt then Some (move_waiter i WTimedOut w) else None
                   | _ => None end
      | None => None
      end
  | ATimeoutSection i =>
      match wd_waiters w !! i with
      | Some wt => match wt_phase wt with
                   | WTimedOut => Some (move_waiter i (WFinally (Some denied))
                                          (on_broker (wait_timed_out (wt_call wt) (wt_digest wt) b) w))
                   | _ => None end
      | None => None
      end
  | ACancelWait i => match wd_waiters w !! i with Some wt => cancel_wait i wt w | None => None end
  | AFinally i =>
      match wd_waiters w !! i with
      | Some wt => match wt_phase wt with
                   | WFinally o => Some (move_waiter i (WDone o)
                                          (on_broker (wait_finally (wt_call wt) (wt_digest wt) b) w))
                   | _ => None end
      | None => None
      end
  | AResolve call approved remember principal session digest now =>
      Some (on_broker (resolve call approved remember principal session digest now b).2 w)
  | ADispatch call approved remember principal session digest now =>
      Some (on_broker (consume_for_dispatch call approved remember principal session digest now b).2 w)
  | ACommit call approved principal session digest now outcome =>
      Some (on_broker (consume_task_decision_and_commit call approved principal session digest now
                         (fun _ : unit => (outcome, tt)) tt b).2 w)
  | ASweep now ttl => Some (on_broker (sweep_expired now ttl b).2 w)
  end.

(** The facts and the world after a sequence of actions; [None] when an action
    cannot happen *)
Fixpoint run_actions (actions : list Action) (w : World) : option (list ToolFact * World) :=
  match actions with
  | [] => Some ([], w)
  | a :: rest =>
      w1 ← act a w;
      p ← run_actions rest w1;
      Some (changes (wd_broker w) (wd_broker w1) ++ p.1, p.2)
  end.
End World.

(** ** How the store of tool approvals evolves *)
Definition tool_store : Type := list (string * ToolRecord).
Definition wf_tools (l : tool_store) : Prop :=
  NoDup (dict_keys l) /\ NoDup (ta_digest <$> l.*2) /\ Forall (fun kv => ta_id kv.2 = kv.1) l.

(** A record only gains: its identity and its decision stay, its flags are never
    reset, and it is dispatched only with a decision. *)
Record evolves (r r' : ToolRecord) : Prop := {
  ev_binding : ta_binding r' = ta_binding r;
  ev_digest : ta_digest r' = ta_digest r;
  ev_id : ta_id r' = ta_id r;
  ev_created : ta_created_at r' = ta_created_at r;
  ev_decision : forall d, ta_decision r = Some d -> ta_decision r' = Some d;
  ev_used : ta_used r = true -> ta_used r' = true;
  ev_dispatched : ta_dispatched r = true -> ta_dispatched r' = true;
  ev_grant : ta_dispatched r' = true -> ta_dispatched r = false -> is_Some (ta_decision r')
}.

Definition change_at (id : string) (f : ToolRecord -> ToolRecord) (l : tool_store) : tool_store :=
  (fun kv => if bool_decide (kv.1 = id) then (kv.1, f kv.2) else kv) <$> l.

Inductive quiet_step (l : tool_store) : tool_store -> Prop :=
| QSame : quiet_step l l
| QChange id r f : (id, r) ∈ l -> evolves r (f r) -> quiet_step l (change_at id f l)
| QEvict l' : l' `sublist_of` l -> quiet_step l l'.
Inductive tools_step (l : tool_store) : tool_store -> Prop :=
| TsQuiet l' : quiet_step l l' -> tools_step l l'
| TsNew id binding digest created_at :
    id ∉ dict_keys l -> digest ∉ ta_digest <$> l.*2 ->
    tools_step l (l ++ [(id, MkTool binding digest id None false false created_at)]).

Lemma evolves_refl r : evolves r r.
Proof. split; auto; congruence. Qed.
Lemma evolves_used r : evolves r (mark_used r).
Proof. split; auto; cbn; congruence. Qed.
Lemma evolves_decision d r : decided r = false -> evolves r (set_decision d r).
Proof. unfold decided. destruct (ta_decision r) eqn:E; [done|]. split; auto; cbn; congruence. Qed.
Lemma evolves_dispatch r : decided r = true -> evolves r (mark_dispatched (mark_used r)).
Proof. unfold decided. destruct (ta_decision r) eqn:E; [|done]. split; auto; cbn; congruence || (rewrite E; eauto). Qed.
Lemma evolves_take d r : decided r = false -> evolves r (mark_dispatched (mark_used (set_decision d r))).
Proof. unfold decided. destruct (ta_decision r) eqn:E; [done|]. split; auto; cbn; congruence || eauto. Qed.
Create HintDb approvals.
#[export] Hint Resolve evolves_refl evolves_used evolves_decision evolves_dispatch evolves_take : approvals.

Lemma change_at_lookup id f l r k r' :
  NoDup (dict_keys l) -> (id, r) ∈ l -> (k, r') ∈ change_at id f l ->
  (k = id /\ r' = f r) \/ (k <> id /\ (k, r') ∈ l).
Proof.
  intros Hnd Hr Hin. apply list_elem_of_fmap in Hin as ([k0 r0] & E & Hin). cbn in E.
  case_bool_decide as Hk; [|simplify_eq; by right]. injection E as -> ->. subst k0. left. split; [done|].
  apply (dict_get_elem _ _ _ Hnd) in Hr, Hin. congruence.
Qed.
Lemma change_at_keys id f l : dict_keys (change_at id f l) = dict_keys l.
Proof.
  unfold change_at, dict_keys. rewrite <-list_fmap_compose. apply list_fmap_ext. intros i [k r] _. cbn.
  by case_bool_decide.
Qed.

Lemma wf_step l l' : wf_tools l -> tools_step l l' -> wf_tools l'.
Proof.
  intros (H1 & H2 & H3) [l1 [|id r f Hr He|l2 Hs]|id bd dg c Hk Hd]; [done| | |].
  - split_and!.
    + by rewrite change_at_keys.
    + replace (ta_digest <$> (change_at id f l).*2) with (ta_digest <$> l.*2); [done|].
      unfold change_at. rewrite <-!list_fmap_compose. apply list_fmap_ext. intros i [k r0] Hi. cbn.
      case_bool_decide; [|done]. subst k. apply list_elem_of_lookup_2 in Hi.
      apply (dict_get_elem _ _ _ H1) in Hr, Hi. cbn. symmetry. replace r0 with r by congruence. apply He.
    + apply Forall_forall. intros [k r0] Hi. destruct (change_at_lookup _ _ _ _ _ _ H1 Hr Hi) as [[-> ->]|[_ Hi']].
      * cbn. rewrite (ev_id _ _ He). rewrite Forall_forall in H3. apply (H3 _ Hr).
      * rewrite Forall_forall in H3. apply (H3 _ Hi').
  - split_and!.
    + eapply sublist_NoDup; [exact H1|]. unfold dict_keys. by apply fmap_sublist.
    + eapply sublist_NoDup; [exact H2|]. by apply fmap_sublist, fmap_sublist.
    + rewrite !Forall_forall in *. intros kv Hkv. apply H3. by eapply elem_of_submseteq, sublist_submseteq.
  - unfold wf_tools, dict_keys in *. rewrite !fmap_app. cbn. split_and!.
    + apply NoDup_app. split_and!; [done|set_solver|apply NoDup_singleton].
    + apply NoDup_app. split_and!; [done|set_solver|apply NoDup_singleton].
    + apply Forall_app. split; [done|]. by repeat constructor.
Qed.

(** Every action takes the store through one such step. *)
Lemma find_elem call digest p s b r :
  wf_tools (br_tools b) -> _find_tool_approval_locked call digest p s b = Some r ->
  (ta_id r, r) ∈ br_tools b /\ ta_digest r = digest /\ ab_tool_call_id (ta_binding r) = call /\
  opt_matches p (ab_principal_id (ta_binding r)) = true /\ opt_matches s (ab_session_id (ta_binding r)) = true.
Proof.
  intros (_ & _ & Hid) H. unfold _find_tool_approval_locked in H.
  destruct (List.filter _ _) as [|x [|]] eqn:E; try done. injection H as ->.
  assert (In r (List.filter (matching call digest p s) (records b))) as Hin by (rewrite E; by left).
  apply List.filter_In in Hin as [Hin Hm]. unfold matching in Hm.
  rewrite !andb_true_iff, !bool_decide_eq_true in Hm. destruct Hm as [[[? ?] ?] ?]. split_and!; try done.
  unfold records in Hin. apply list_elem_of_In, list_elem_of_fmap in Hin as ([k r'] & -> & Hin). cbn.
  rewrite Forall_forall in Hid. specialize (Hid _ Hin). cbn in Hid. by rewrite Hid.
Qed.

Lemma update_step id r f b :
  (id, r) ∈ br_tools b -> evolves r (f r) -> quiet_step (br_tools b) (br_tools (update_tool id f b)).
Proof. intros Hr He. by apply (QChange _ id r f). Qed.

Lemma fresh_id_fresh draws keys id : fresh_id draws keys = Some id -> id ∉ keys.
Proof.
  induction draws as [|t draws IH]; cbn; [done|]. destruct (str_in _ keys) eqn:E; [auto|].
  intros [= <-]. by apply str_in_false.
Qed.

Section Steps.
Variable float_repr : Z -> string.

Lemma register_step binding now c draws b r b' :
  register_tool_approval float_repr binding now c draws b = Some (r, b') -> tools_step (br_tools b) (br_tools b').
Proof.
  unfold register_tool_approval. destruct (List.find _ (records b)) eqn:Ef; [intros [= _ <-]; by repeat constructor|].
  destruct (_ <=? _); [intros [= _ <-]; by repeat constructor|]. destruct (_ <=? _); [intros [= _ <-]; by repeat constructor|].
  destruct (fresh_id draws _) as [id|] eqn:Ei; [|done]. intros [= _ <-]. cbn [br_tools with_tools]. apply TsNew.
  - by eapply fresh_id_fresh.
  - intros Hin. apply list_elem_of_fmap in Hin as (x & Hx & Hin). apply list_elem_of_In in Hin.
    pose proof (List.find_none _ _ Ef x Hin) as Hn. cbn in Hn. apply bool_decide_eq_false in Hn. congruence.
Qed.

Lemma wait_enter_step call digest now b :
  wf_tools (br_tools b) -> quiet_step (br_tools b) (br_tools (wait_enter call digest now b).2).
Proof.
  intros Hw. unfold wait_enter. destruct (_find_tool_approval_locked _ _ _ _ _) as [r|] eqn:E; [|constructor].
  destruct (_ || _); [constructor|]. apply find_elem in E as (Hr & _); [|done].
  destruct (ta_decision r); [eapply update_step; eauto with approvals|].
  destruct (br_pending b !! ta_id r); constructor.
Qed.
Lemma wait_timed_out_step call digest b :
  wf_tools (br_tools b) -> quiet_step (br_tools b) (br_tools (wait_timed_out call digest b)).
Proof.
  intros Hw. unfold wait_timed_out. destruct (_find_tool_approval_locked _ _ _ _ _) as [r|] eqn:E; [|constructor].
  apply find_elem in E as (Hr & _); [|done]. eapply update_step; eauto with approvals.
Qed.
Lemma wait_finally_step call digest b :
  wf_tools (br_tools b) -> quiet_step (br_tools b) (br_tools (wait_finally call digest b)).
Proof.
  intros Hw. unfold wait_finally. destruct (_find_tool_approval_locked _ _ _ _ _) as [r|] eqn:E; [|constructor].
  apply find_elem in E as (Hr & _); [|done].
  apply (update_step _ r _ (with_pending (delete (ta_id r) (br_pending b)) b)); [done|auto with approvals].
Qed.

Lemma resolve_step call ap rm p s digest now b :
  wf_tools (br_tools b) -> quiet_step (br_tools b) (br_tools (resolve call ap rm p s digest now b).2).
Proof.
  intros Hw. unfold resolve. destruct (_find_tool_approval_locked _ _ _ _ _) as [r|] eqn:E; [|constructor].
  apply find_elem in E as (Hr & _); [|done].
  destruct (_ || _) eqn:Hc; [constructor|]. rewrite !orb_false_iff in Hc. destruct Hc as [[[_ Hd] _] _].
  assert (quiet_step (br_tools b) (br_tools (update_tool (ta_id r) (set_decision (MkDecision ap rm)) b)))
    by (eapply update_step; eauto with approvals).
  destruct (br_pending _ !! _); [|done]. by destruct (fut_done _).
Qed.
Lemma dispatch_step call ap rm p s digest now b :
  wf_tools (br_tools b) -> quiet_step (br_tools b) (br_tools (consume_for_dispatch call ap rm p s digest now b).2).
Proof.
  intros Hw. unfold consume_for_dispatch.
  destruct (_find_tool_approval_locked _ _ _ _ _) as [r|] eqn:E; [|constructor].
  apply find_elem in E as (Hr & _); [|done]. destruct (_ || _); [constructor|].
  destruct (ta_decision r) as [d|] eqn:Ed.
  - destruct (negb _); (eapply update_step; [done|]); [auto with approvals|].
    apply evolves_dispatch. unfold decided. by rewrite Ed.
  - eapply update_step; [done|]. apply evolves_take. unfold decided. by rewrite Ed.
Qed.
Lemma commit_step {S} call ap p s digest now (commit : S -> res bool * S) st b :
  wf_tools (br_tools b) ->
  quiet_step (br_tools b) (br_tools (consume_task_decision_and_commit call ap p s digest now commit st b).2).
Proof.
  intros Hw. unfold consume_task_decision_and_commit.
  destruct (_find_tool_approval_locked _ _ _ _ _) as [r|] eqn:E; [|constructor].
  apply find_elem in E as (Hr & _); [|done].
  destruct (_ || _) eqn:Hc; [constructor|]. rewrite !orb_false_iff in Hc. destruct Hc as [[[[_ _] Hd] _] _].
  assert (quiet_step (br_tools b) (br_tools (update_tool (ta_id r)
    (fun r => mark_dispatched (mark_used (set_decision (MkDecision ap false) r))) b)))
    by (eapply update_step; eauto with approvals).
  destruct (commit st) as [[[]|] st']; [|done..].
  destruct (br_pending _ !! _); [|done]. by destruct (fut_done _).
Qed.

Lemma evict_tools key b : br_tools (evict_tool b key) = filter (fun kv => kv.1 <> key) (br_tools b).
Proof. unfold evict_tool. destruct (br_pending _ !! _); [|done]. by destruct (fut_done _). Qed.
Lemma evict_all_tools keys b : br_tools (foldl evict_tool b keys) `sublist_of` br_tools b.
Proof.
  revert b. induction keys as [|k keys IH]; intros b; cbn; [done|]. etrans; [apply IH|].
  rewrite evict_tools. apply sublist_filter.
Qed.
Lemma sweep_tools now ttl b :
  br_tools (sweep_expired now ttl b).2 =
  br_tools (foldl evict_tool b (List.filter (fun kv => stale_tool now ttl kv.2) (br_tools b)).*1).
Proof. done. Qed.

Abbreviation store w := (br_tools (wd_broker w)).

Definition is_register (a : Action) : bool := match a with ARegister _ _ _ _ => true | _ => false end.

Lemma act_quiet a w w' :
  wf_tools (store w) -> is_register a = false -> act float_repr a w = Some w' -> quiet_step (store w) (store w').
Proof.
  intros Hw Ha. unfold act. destruct a as [bd now c dr|call dg to now|i|i|i|i|i|call ap rm p s dg now
    |call ap rm p s dg now|call ap p s dg now o|now ttl].
  - done.
  - pose proof (wait_enter_step call dg now (wd_broker w) Hw) as H.
    destruct (wait_enter _ _ _ _) as [e b']. by intros [= <-].
  - destruct (at_phase i w) as [[f| | |]|]; try done.
    destruct (future_state _ _); [done|intros [= <-]; constructor|intros [= <-]; constructor].
  - destruct (_ !! i) as [wt|]; [|done]. destruct (wt_phase wt); try done. destruct (wt_timeout wt); [|done].
    intros [= <-]. constructor.
  - destruct (_ !! i) as [wt|]; [|done]. destruct (wt_phase wt); try done. intros [= <-].
    by apply wait_timed_out_step.
  - destruct (_ !! i) as [wt|]; [|done]. unfold cancel_wait. destruct (wt_phase wt) as [f| | |]; try done;
      intros [= <-]; cbn; [destruct (_ || _)|..]; constructor.
  - destruct (_ !! i) as [wt|]; [|done]. destruct (wt_phase wt); try done. intros [= <-].
    by apply wait_finally_step.
  - intros [= <-]. by apply resolve_step.
  - intros [= <-]. by apply dispatch_step.
  - intros [= <-]. by apply commit_step.
  - intros [= <-]. apply QEvict. exact (evict_all_tools _ (wd_broker w)).
Qed.

Lemma act_step a w w' : wf_tools (store w) -> act float_repr a w = Some w' -> tools_step (store w) (store w').
Proof.
  intros Hw H. destruct (is_register a) eqn:Ha; [|by eapply TsQuiet, act_quiet].
  destruct a as [bd now c dr| | | | | | | | | |]; try done. cbn in H.
  destruct (register_tool_approval _ _ _ _ _ _) as [[r b']|] eqn:E; [|done]. injection H as <-.
  by eapply register_step.
Qed.

(** An invariant of the store and of the facts so far *)
Lemma run_invariant (P : list ToolFact -> tool_store -> Prop) actions w fs w' fs0 :
  wf_tools (store w) -> P fs0 (store w) ->
  (forall fs l l' b b', br_tools b = l -> br_tools b' = l' -> wf_tools l -> tools_step l l' -> P fs l ->
     P (fs ++ changes b b') l') ->
  run_actions float_repr actions w = Some (fs, w') -> wf_tools (store w') /\ P (fs0 ++ fs) (store w').
Proof.
  intros Hw HP Hstep. revert w fs fs0 Hw HP. induction actions as [|a rest IH]; intros w fs fs0 Hw HP; cbn.
  - intros [= <- <-]. by rewrite app_nil_r.
  - destruct (act float_repr a w) as [w1|] eqn:E; [|done]. cbn.
    destruct (run_actions float_repr rest w1) as [[fs1 w2]|] eqn:E1; [|done]. cbn. intros [= <- <-].
    pose proof (act_step _ _ _ Hw E) as Hs. rewrite app_assoc. eapply IH; [by eapply wf_step| |done].
    by eapply Hstep.
Qed.
End Steps.

Lemma record_changes_same r : record_changes (Some r) r = [].
Proof. unfold record_changes, decided. destruct (ta_decision r); cbn; by destruct (ta_dispatched r). Qed.

Definition store_changes (l l' : tool_store) : list ToolFact :=
  l' ≫= (fun kv => record_changes (dict_get kv.1 l) kv.2).
Lemma changes_store b b' : changes b b' = store_changes (br_tools b) (br_tools b').
Proof. done. Qed.

Lemma store_changes_kept l l1 : NoDup (dict_keys l) -> (forall kv, kv ∈ l1 -> kv ∈ l) -> store_changes l l1 = [].
Proof.
  intros Hnd. unfold store_changes. induction l1 as [|[k r] l1 IH]; intros Hin; cbn; [done|].
  rewrite (dict_get_elem k r l Hnd) by (apply Hin; left). rewrite record_changes_same. cbn.
  apply IH. intros kv Hkv. apply Hin. by right.
Qed.
Lemma change_at_other id f l : id ∉ dict_keys l -> change_at id f l = l.
Proof.
  induction l as [|[k x] l IH]; [done|]. unfold dict_keys. cbn. intros [Hk Hni]%not_elem_of_cons.
  rewrite bool_decide_false by congruence. f_equal. by apply IH.
Qed.
(** One record changes in place. *)
Lemma change_at_split id r l : wf_tools l -> (id, r) ∈ l ->
  exists l1 l2, l = l1 ++ (id, r) :: l2 /\ forall f, change_at id f l = l1 ++ (id, f r) :: l2.
Proof.
  intros (Hnd & _) Hr. apply list_elem_of_split in Hr as (l1 & l2 & ->). exists l1, l2. split; [done|]. intros f.
  unfold dict_keys in Hnd. rewrite fmap_app in Hnd. cbn in Hnd. apply NoDup_app in Hnd as (_ & Hd & Hnd).
  apply NoDup_cons in Hnd as [Hni2 _].
  pose proof (change_at_other id f l1) as E1. pose proof (change_at_other id f l2 Hni2) as E2.
  unfold change_at in *. rewrite fmap_app. cbn. rewrite bool_decide_true by done. rewrite E1, E2; [done|].
  intros Hi. apply (Hd id Hi). left.
Qed.
Lemma store_changes_change id r f l : wf_tools l -> (id, r) ∈ l ->
  store_changes l (change_at id f l) = record_changes (Some r) (f r).
Proof.
  intros Hw Hr. destruct (change_at_split _ _ _ Hw Hr) as (l1 & l2 & E & Hf). rewrite Hf.
  destruct Hw as (Hnd & _). unfold store_changes. rewrite bind_app. cbn.
  rewrite (dict_get_elem id r l Hnd Hr).
  pose proof (store_changes_kept l l1 Hnd) as E1. pose proof (store_changes_kept l l2 Hnd) as E2.
  unfold store_changes in E1, E2. subst l. rewrite E1, E2; [by rewrite app_nil_r|set_solver..].
Qed.
Lemma store_changes_new id r l : wf_tools l -> id ∉ dict_keys l ->
  store_changes l (l ++ [(id, r)]) = [TNew (ta_id r) (ta_digest r)].
Proof.
  intros (Hnd & _) Hk. unfold store_changes. rewrite bind_app.
  pose proof (store_changes_kept l l Hnd ltac:(done)) as E. unfold store_changes in E. rewrite E. cbn.
  apply dict_get_None in Hk. by rewrite Hk.
Qed.

(** What one step of the store contributes to the facts *)
Lemma tools_step_cases l l' (P : list ToolFact -> tool_store -> Prop) :
  wf_tools l -> tools_step l l' ->
  (forall l1, l1 `sublist_of` l -> P [] l1) ->
  (forall l1 l2 id r r', l = l1 ++ (id, r) :: l2 -> ta_id r = id -> evolves r r' ->
     P (record_changes (Some r) r') (l1 ++ (id, r') :: l2)) ->
  (forall id bd dg c, id ∉ dict_keys l -> (dg ∉ ta_digest <$> l.*2) ->
     P [TNew id dg] (l ++ [(id, MkTool bd dg id None false false c)])) ->
  P (store_changes l l') l'.
Proof.
  intros Hw Hs Hsub Hch Hnew. destruct Hs as [l1 [|id r f Hr He|l2 Hs]|id bd dg c Hk Hd].
  - rewrite store_changes_kept; [by apply Hsub|apply Hw|done].
  - rewrite (store_changes_change id r f l Hw Hr).
    destruct (change_at_split _ _ _ Hw Hr) as (la & lb & E & ->). eapply Hch; [done| |done].
    destruct Hw as (_ & _ & Hid). rewrite Forall_forall in Hid. apply (Hid _ Hr).
  - rewrite store_changes_kept; [by apply Hsub|apply Hw|].
    intros kv Hkv. by eapply elem_of_submseteq, sublist_submseteq.
  - rewrite store_changes_new by done. by apply Hnew.
Qed.

(** ** At most one dispatch per registration *)
Definition grants_of (digest : string) (fs : list ToolFact) : nat :=
  length (List.filter (fun f => match f with TGrant _ d _ => bool_decide (d = digest) | _ => false end) fs).
Definition news_of (digest : string) (fs : list ToolFact) : nat :=
  length (List.filter (fun f => match f with TNew _ d => bool_decide (d = digest) | _ => false end) fs).
Definition can_dispatch (digest : string) (kv : string * ToolRecord) : bool :=
  bool_decide (ta_digest kv.2 = digest) && negb (ta_dispatched kv.2).
Definition undispatched (digest : string) (l : tool_store) : nat := length (List.filter (can_dispatch digest) l).

Lemma filter_length_sublist {A} (p : A -> bool) (l1 l2 : list A) :
  l1 `sublist_of` l2 -> (length (List.filter p l1) <= length (List.filter p l2))%nat.
Proof. induction 1; cbn; [done|destruct (p x); cbn; lia|destruct (p x); cbn; lia]. Qed.
Lemma filter_length_app {A} (p : A -> bool) (l1 l2 : list A) :
  length (List.filter p (l1 ++ l2)) = (length (List.filter p l1) + length (List.filter p l2))%nat.
Proof. by rewrite List.filter_app, length_app. Qed.

Lemma once_step digest fs l l' :
  wf_tools l -> tools_step l l' ->
  (grants_of digest fs + undispatched digest l <= news_of digest fs)%nat ->
  (grants_of digest (fs ++ store_changes l l') + undispatched digest l' <= news_of digest (fs ++ store_changes l l'))%nat.
Proof.
  intros Hw Hs H. unfold grants_of, news_of in *. rewrite !filter_length_app. revert H.
  apply (tools_step_cases l l' (fun cs l1 =>
    (length (List.filter _ fs) + undispatched digest l <= length (List.filter _ fs))%nat ->
    (length (List.filter _ fs) + length (List.filter _ cs) + undispatched digest l1
      <= length (List.filter _ fs) + length (List.filter _ cs))%nat) Hw Hs).
  - intros l1 Hl1 H. pose proof (filter_length_sublist (can_dispatch digest) _ _ Hl1). cbn. unfold undispatched in *. lia.
  - intros l1 l2 id r r' -> _ He H. unfold undispatched in *. rewrite !filter_length_app in *. cbn in *.
    unfold can_dispatch at 2. unfold can_dispatch at 2 in H. cbn in *. rewrite (ev_digest _ _ He).
    destruct (ta_dispatched r') eqn:E1, (ta_dispatched r) eqn:E2; cbn; rewrite ?andb_false_r, ?andb_true_r in *; cbn in *.
    all: try (rewrite (ev_dispatched _ _ He E2) in E1; discriminate).
    all: destruct (decided r); [|destruct (ta_decision r')]; cbn in *; rewrite ?(ev_digest _ _ He);
      destruct (bool_decide (ta_digest r = digest)); cbn in *; lia.
  - intros id bd dg c _ _ H. unfold undispatched in *. rewrite filter_length_app. cbn.
    unfold can_dispatch at 2. cbn. rewrite andb_true_r. destruct (bool_decide (dg = digest)); cbn; lia.
Qed.

(** ** Dispatches follow the recorded decision *)

(** The decision recorded for [id] since its last registration *)
Definition note_decision (id : string) (o : option ApprovalDecision) (f : ToolFact) : option ApprovalDecision :=
  match f with
  | TNew k _ => if bool_decide (k = id) then None else o
  | TDecided k d => if bool_decide (k = id) then Some d else o
  | TGrant _ _ _ => o
  end.
Definition last_decision (id : string) : list ToolFact -> option ApprovalDecision := foldl (note_decision id) None.

(** A decision is recorded once, and a grant carries the recorded decision. *)
Definition fact_ok (before : list ToolFact) (f : ToolFact) : Prop :=
  match f with
  | TNew _ _ => True
  | TDecided id _ => last_decision id before = None
  | TGrant id _ d => last_decision id before = Some d
  end.
Definition facts_ok (fs : list ToolFact) : Prop := forall f1 f f2, fs = f1 ++ f :: f2 -> fact_ok f1 f.

Lemma facts_ok_snoc fs f : facts_ok fs -> fact_ok fs f -> facts_ok (fs ++ [f]).
Proof.
  intros H Hf f1 g f2 E. destruct f2 as [|g2 f2] using rev_ind.
  - apply app_inj_tail in E as [-> ->]. done.
  - rewrite app_comm_cons, app_assoc in E. apply app_inj_tail in E as [-> _]. eauto.
Qed.
Lemma last_decision_snoc id fs f : last_decision id (fs ++ [f]) = note_decision id (last_decision id fs) f.
Proof. unfold last_decision. by rewrite foldl_snoc. Qed.

Definition decisions_agree (fs : list ToolFact) (l : tool_store) : Prop :=
  Forall (fun kv => ta_decision kv.2 = last_decision kv.1 fs) l /\ facts_ok fs.

(** The facts of one changed record are consistent with the history, and other
    records keep their decision. *)
Lemma record_changes_agree fs r r' :
  evolves r r' -> ta_decision r = last_decision (ta_id r) fs -> facts_ok fs ->
  facts_ok (fs ++ record_changes (Some r) r') /\
  last_decision (ta_id r) (fs ++ record_changes (Some r) r') = ta_decision r' /\
  (forall k, k <> ta_id r -> last_decision k (fs ++ record_changes (Some r) r') = last_decision k fs).
Proof.
  intros He Hd Hok. cbn [record_changes]. set (decide_part := if decided r then _ else _).
  assert (facts_ok (fs ++ decide_part) /\ last_decision (ta_id r) (fs ++ decide_part) = ta_decision r' /\
    (forall k, k <> ta_id r -> last_decision k (fs ++ decide_part) = last_decision k fs)) as (H1 & H2 & H3).
  { unfold decide_part, decided. destruct (ta_decision r) as [d|] eqn:Er.
    - rewrite app_nil_r. split_and!; [done| |done]. by rewrite <-Hd, (ev_decision _ _ He d Er).
    - destruct (ta_decision r') as [d|]; [|by rewrite app_nil_r].
      split_and!; [apply facts_ok_snoc; [done|]; cbn; by rewrite (ev_id _ _ He)| |].
      + rewrite last_decision_snoc. cbn. by rewrite (ev_id _ _ He), bool_decide_true.
      + intros k Hk. rewrite last_decision_snoc. cbn. rewrite (ev_id _ _ He), bool_decide_false by congruence. done. }
  rewrite app_assoc. destruct (ta_dispatched r' && negb (ta_dispatched r)) eqn:E; [|by rewrite app_nil_r].
  apply andb_prop in E as [E1 E2%negb_true_iff]. destruct (ev_grant _ _ He E1 E2) as [d Ed].
  split_and!.
  - apply facts_ok_snoc; [done|]. cbn. by rewrite (ev_id _ _ He), H2, Ed.
  - by rewrite last_decision_snoc.
  - intros k Hk. rewrite last_decision_snoc. cbn. auto.
Qed.

Lemma decisions_agree_step fs l l' :
  wf_tools l -> tools_step l l' -> decisions_agree fs l -> decisions_agree (fs ++ store_changes l l') l'.
Proof.
  intros Hw Hs Hag. apply (tools_step_cases l l' (fun cs l1 => decisions_agree (fs ++ cs) l1) Hw Hs);
    destruct Hag as [Hd Hok].
  - intros l1 Hl1. rewrite app_nil_r. split; [|done]. rewrite !Forall_forall in *. intros kv Hkv. apply Hd.
    by eapply elem_of_submseteq, sublist_submseteq.
  - intros l1 l2 id r r' -> Hid He. destruct Hw as (Hnd & _). unfold dict_keys in Hnd.
    rewrite fmap_app in Hnd. cbn in Hnd. apply NoDup_app in Hnd as (_ & Hx & Hnd). apply NoDup_cons in Hnd as [Hni _].
    apply Forall_app in Hd as [Hd1 Hd2]. apply Forall_cons in Hd2 as [Hr Hd2]. cbn in Hr. subst id.
    destruct (record_changes_agree fs r r' He Hr Hok) as (G1 & G2 & G3). split; [|done].
    apply Forall_app. split; [|constructor; [by cbn|]].
    + rewrite Forall_forall in *. intros kv Hkv. rewrite G3; [by apply Hd1|]. intros E.
      apply (Hx kv.1); [by apply list_elem_of_fmap_2|]. rewrite E. left.
    + rewrite Forall_forall in *. intros kv Hkv. rewrite G3; [by apply Hd2|]. intros E.
      apply Hni. rewrite <-E. by apply list_elem_of_fmap_2.
  - intros id bd dg c Hk _. split; [|by apply facts_ok_snoc].
    apply Forall_app. split.
    + rewrite Forall_forall in *. intros kv Hkv. rewrite last_decision_snoc. cbn.
      rewrite bool_decide_false; [by apply Hd|]. intros ->. apply Hk. unfold dict_keys. by apply list_elem_of_fmap_2.
    + repeat constructor. cbn. rewrite last_decision_snoc. cbn. by rewrite bool_decide_true.
Qed.

(** An approved answer of [consume_for_dispatch] is a grant, in scope and unexpired. *)
Lemma dispatch_grants call ap rm p s digest now b d b' :
  wf_tools (br_tools b) -> consume_for_dispatch call ap rm p s digest now b = (d, b') -> ad_approved d = true ->
  exists r, (ta_id r, r) ∈ br_tools b /\ ta_digest r = digest /\ ab_tool_call_id (ta_binding r) = call /\
    ab_principal_id (ta_binding r) = p /\ ab_session_id (ta_binding r) = s /\ now < ab_expires_at (ta_binding r) /\
    ta_dispatched r = false /\ d = MkDecision ap rm /\ TGrant (ta_id r) digest d ∈ changes b b'.
Proof.
  intros Hw H Ha. unfold consume_for_dispatch in H.
  destruct (_find_tool_approval_locked _ _ _ _ _) as [r|] eqn:E; [|by simplify_eq].
  apply find_elem in E as (Hr & Hd & Hc & Hp & Hs); [|done]. cbn in Hp, Hs. apply bool_decide_eq_true in Hp, Hs.
  destruct (_ || _) eqn:Hg; [by simplify_eq|]. rewrite !orb_false_iff in Hg. destruct Hg as [[Hnd _] He].
  unfold expired in He. apply Z.leb_gt in He. exists r.
  destruct (ta_decision r) as [d0|] eqn:Ed.
  - destruct (negb _) eqn:Hm; [by simplify_eq|]. apply negb_false_iff, bool_decide_eq_true in Hm.
    injection H as <- <-. split_and!; try done. rewrite changes_store.
    cbn [br_tools update_tool with_tools]. fold (change_at (ta_id r) (fun r => mark_dispatched (mark_used r)) (br_tools b)).
    rewrite (store_changes_change _ _ _ _ Hw Hr). cbn. unfold decided. rewrite Hnd, Ed, Hd. cbn. left.
  - injection H as <- <-. split_and!; try done. rewrite changes_store.
    cbn [br_tools update_tool with_tools].
    fold (change_at (ta_id r) (fun r => mark_dispatched (mark_used (set_decision (MkDecision ap rm) r))) (br_tools b)).
    rewrite (store_changes_change _ _ _ _ Hw Hr). cbn. unfold decided. rewrite Hnd, Ed, Hd. cbn. right. left.
Qed.

Lemma new_broker_tools ms mt b : new_broker ms mt = Ok b -> br_tools b = [].
Proof. unfold new_broker. destruct (_ || _); [done|]. by intros [= <-]. Qed.
Lemma new_broker_wf ms mt b : new_broker ms mt = Ok b -> wf_tools (br_tools b).
Proof. intros ->%new_broker_tools. split_and!; constructor. Qed.

(** ** Quotas *)

(** Active approvals whose binding satisfies [q] *)
Definition load (now : Z) (q : ApprovalBinding -> bool) (l : tool_store) : Z :=
  count_if (fun kv => is_active now kv.2 && q (ta_binding kv.2)) l.
Definition of_session (p s : string) (bd : ApprovalBinding) : bool :=
  bool_decide (ab_principal_id bd = p) && bool_decide (ab_session_id bd = s).
Definition of_turn (p s t : string) (bd : ApprovalBinding) : bool := of_session p s bd && bool_decide (ab_turn_id bd = t).

Lemma count_if_filter {A} (p q : A -> bool) l : count_if q (List.filter p l) = count_if (fun x => p x && q x) l.
Proof.
  unfold count_if. f_equal. induction l as [|x l IH]; cbn; [done|]. destruct (p x); cbn; [|done].
  destruct (q x); cbn; by rewrite ?IH.
Qed.
Lemma count_if_records (p : ToolRecord -> bool) b : count_if p (records b) = count_if (fun kv => p kv.2) (br_tools b).
Proof.
  unfold count_if, records. f_equal. induction (br_tools b) as [|[k r] l IH]; cbn; [done|]. destruct (p r); cbn; by rewrite ?IH.
Qed.
Lemma load_records now q b : count_if (fun r => q (ta_binding r)) (List.filter (is_active now) (records b)) = load now q (br_tools b).
Proof. by rewrite count_if_filter, count_if_records. Qed.

Lemma count_if_le {A} (p q : A -> bool) l : (forall x, p x = true -> q x = true) -> count_if p l <= count_if q l.
Proof.
  intros H. unfold count_if. induction l as [|x l IH]; cbn; [done|].
  destruct (p x) eqn:E; [rewrite (H _ E); cbn; lia|]. destruct (q x); cbn; lia.
Qed.
Lemma load_later now now' q l : now <= now' -> load now' q l <= load now q l.
Proof.
  intros Hle. apply count_if_le. intros kv. unfold is_active. rewrite !andb_true_iff, !Z.ltb_lt. intuition lia.
Qed.
Lemma load_app now q l1 l2 : load now q (l1 ++ l2) = load now q l1 + load now q l2.
Proof. unfold load, count_if. rewrite filter_length_app. lia. Qed.
Lemma load_one now q kv : load now q [kv] = if is_active now kv.2 && q (ta_binding kv.2) then 1 else 0.
Proof. unfold load, count_if. cbn. by destruct (_ && _). Qed.
Lemma load_cons now q kv l : load now q (kv :: l) = load now q [kv] + load now q l.
Proof. apply (load_app now q [kv] l). Qed.

(** No step but a registration adds load. *)
Lemma load_quiet now q l l' : wf_tools l -> quiet_step l l' -> load now q l' <= load now q l.
Proof.
  intros Hw [|id r f Hr He|l1 Hl1]; [done| |].
  - destruct (change_at_split _ _ _ Hw Hr) as (l1 & l2 & -> & ->).
    rewrite !load_app, (load_cons _ _ (id, f r)), (load_cons _ _ (id, r)), !load_one. cbn.
    unfold is_active. rewrite (ev_binding _ _ He).
    destruct (ta_used r) eqn:E; [rewrite (ev_used _ _ He E); lia|]. destruct (ta_used (f r)); cbn; [|lia].
    destruct (_ && _); lia.
  - unfold load, count_if. apply inj_le, filter_length_sublist. done.
Qed.

Definition limits (b : Broker) : Z * Z := (br_max_session b, br_max_turn b).
Lemma evict_limits keys b : limits (foldl evict_tool b keys) = limits b.
Proof.
  revert b. induction keys as [|k keys IH]; intros b; cbn; [done|]. rewrite IH. unfold evict_tool.
  destruct (br_pending _ !! _); [|done]. by destruct (fut_done _).
Qed.
Lemma act_limits float_repr a w w' : act float_repr a w = Some w' -> limits (wd_broker w') = limits (wd_broker w).
Proof.
  unfold act. destruct a as [bd now c dr|call dg to now|i|i|i|i|i|call ap rm p s dg now
    |call ap rm p s dg now|call ap p s dg now o|now ttl].
  - destruct (register_tool_approval _ _ _ _ _ _) as [[r b']|] eqn:E; [|done]. cbn. intros [= <-]. cbn.
    unfold register_tool_approval in E. repeat case_match; by simplify_eq.
  - destruct (wait_enter _ _ _ _) as [e b'] eqn:E. intros [= <-]. unfold wait_enter in E.
    repeat case_match; by simplify_eq.
  - intros. repeat case_match; by simplify_eq.
  - intros. repeat case_match; by simplify_eq.
  - intros. repeat case_match; simplify_eq. cbn. unfold wait_timed_out. by case_match.
  - unfold cancel_wait. intros. repeat case_match; simplify_eq; try done; cbn; by case_match.
  - intros. repeat case_match; simplify_eq. cbn. unfold wait_finally. by case_match.
  - intros [= <-]. cbn. unfold resolve. by repeat case_match.
  - intros [= <-]. cbn. unfold consume_for_dispatch. by repeat case_match.
  - intros [= <-]. cbn. unfold consume_task_decision_and_commit. by repeat case_match.
  - intros [= <-]. cbn. apply evict_limits.
Qed.

Definition within_quota (now : Z) (b : Broker) : Prop :=
  (forall p s, load now (of_session p s) (br_tools b) <= br_max_session b) /\
  (forall p s t, load now (of_turn p s t) (br_tools b) <= br_max_turn b).

Lemma register_quota float_repr bd now c draws b r b' :
  within_quota now b -> register_tool_approval float_repr bd now c draws b = Some (r, b') -> within_quota now b'.
Proof.
  intros [Hs Ht] H. unfold register_tool_approval in H. destruct (List.find _ _); [by simplify_eq|].
  destruct (br_max_session b <=? _) eqn:E1; [by simplify_eq|]. destruct (br_max_turn b <=? _) eqn:E2; [by simplify_eq|].
  destruct (fresh_id _ _) as [id|]; [|done]. injection H as _ <-. apply Z.leb_gt in E1, E2.
  rewrite (load_records now (of_session (ab_principal_id bd) (ab_session_id bd))) in E1.
  rewrite (load_records now (of_turn (ab_principal_id bd) (ab_session_id bd) (ab_turn_id bd))) in E2.
  split; cbn [br_tools with_tools br_max_session br_max_turn].
  - intros p s. rewrite load_app, load_one. cbn. specialize (Hs p s).
    destruct (of_session p s bd) eqn:E; [|rewrite andb_false_r; lia].
    unfold of_session in E. rewrite andb_true_iff, !bool_decide_eq_true in E. destruct E as [<- <-]. case_match; lia.
  - intros p s t. rewrite load_app, load_one. cbn. specialize (Ht p s t).
    destruct (of_turn p s t bd) eqn:E; [|rewrite andb_false_r; lia].
    unfold of_turn, of_session in E. rewrite !andb_true_iff, !bool_decide_eq_true in E. destruct E as [[<- <-] <-].
    case_match; lia.
Qed.

Lemma within_quota_later now now' b : now <= now' -> within_quota now b -> within_quota now' b.
Proof.
  intros Hle [Hs Ht]. split; intros; (etrans; [by apply load_later|]); auto.
Qed.

(** Clock readings of registrations that do not go backwards, from [t] on; the
    last reading *)
Fixpoint clock_from (t : Z) (actions : list Action) : Prop :=
  match actions with
  | [] => True
  | ARegister _ now _ _ :: rest => t <= now /\ clock_from now rest
  | _ :: rest => clock_from t rest
  end.
Fixpoint last_reading (t : Z) (actions : list Action) : Z :=
  match actions with
  | [] => t
  | ARegister _ now _ _ :: rest => last_reading now rest
  | _ :: rest => last_reading t rest
  end.

Section Broker.
Variable float_repr : Z -> string.

(** C8. At most one dispatch per registration: in every interleaving of
    registrations, waits, callbacks, task decisions and sweeps, a binding digest
    is granted at most as often as a record was created for it; and whenever
    [consume_for_dispatch] answers "approved", that is such a grant, for a record
    with this digest, call, principal and session, not expired and not granted
    before. *)
Theorem dispatch_at_most_once ms mt b actions fs w digest :
  new_broker ms mt = Ok b -> run_actions float_repr actions (MkWorld b []) = Some (fs, w) ->
  (grants_of digest fs <= news_of digest fs)%nat /\
  (forall call ap rm p s now d b', consume_for_dispatch call ap rm p s digest now (wd_broker w) = (d, b') ->
     ad_approved d = true ->
     exists r, (ta_id r, r) ∈ br_tools (wd_broker w) /\ ta_digest r = digest /\
       ab_tool_call_id (ta_binding r) = call /\ ab_principal_id (ta_binding r) = p /\
       ab_session_id (ta_binding r) = s /\ now < ab_expires_at (ta_binding r) /\ ta_dispatched r = false /\
       d = MkDecision ap rm /\ TGrant (ta_id r) digest d ∈ changes (wd_broker w) b').
Proof.
  intros Hb Hrun.
  destruct (run_invariant float_repr (fun fs l => (grants_of digest fs + undispatched digest l <= news_of digest fs)%nat)
              actions (MkWorld b []) fs w []) as [Hw Hc]; [by eapply new_broker_wf| | |done|].
  - cbn. by rewrite (new_broker_tools _ _ _ Hb).
  - intros fs0 l l' b1 b2 <- <- Hw Hs. rewrite changes_store. by apply once_step.
  - change ([] ++ fs) with fs in Hc. split; [lia|]. intros. by eapply dispatch_grants.
Qed.

(** C9. A decision is final: in every interleaving, a decision is recorded for an
    approval at most once between two registrations of its id, and every grant
    carries the decision recorded before it; a rejection by the user can not be
    turned into an approved dispatch. *)
Theorem dispatch_follows_decision ms mt b actions fs w :
  new_broker ms mt = Ok b -> run_actions float_repr actions (MkWorld b []) = Some (fs, w) ->
  (forall f1 id d f2, fs = f1 ++ TDecided id d :: f2 -> last_decision id f1 = None) /\
  (forall f1 id digest d f2, fs = f1 ++ TGrant id digest d :: f2 -> last_decision id f1 = Some d).
Proof.
  intros Hb Hrun.
  destruct (run_invariant float_repr decisions_agree actions (MkWorld b []) fs w []) as [_ [_ Hok]];
    [by eapply new_broker_wf| | |done|].
  - cbn. rewrite (new_broker_tools _ _ _ Hb). split; [constructor|]. intros [] ? ? [=].
  - intros fs0 l l' b1 b2 <- <- Hw Hs. rewrite changes_store. by apply decisions_agree_step.
  - split; intros; by eapply (Hok _ _ _ H).
Qed.

(** One action preserves the quotas, at the reading of its clock. *)
Lemma act_quota a w w' t :
  wf_tools (br_tools (wd_broker w)) -> within_quota t (wd_broker w) -> clock_from t [a] ->
  act float_repr a w = Some w' -> within_quota (last_reading t [a]) (wd_broker w').
Proof.
  intros Hw Hq Hc H. destruct (is_register a) eqn:Ha.
  - destruct a as [bd now c dr| | | | | | | | | |]; try done. cbn in H, Hc |- *.
    destruct (register_tool_approval _ _ _ _ _ _) as [[r b']|] eqn:E; [|done]. injection H as <-.
    eapply register_quota; [|done]. eapply within_quota_later; [|done]. apply Hc.
  - replace (last_reading t [a]) with t by (by destruct a).
    pose proof (act_limits _ _ _ _ H) as El. injection El as El1 El2.
    pose proof (act_quiet _ _ _ _ Hw Ha H) as Hs. destruct Hq as [Hq1 Hq2].
    split; intros; rewrite ?El1, ?El2; (etrans; [by eapply load_quiet|]); auto.
Qed.

Lemma clock_cons t a rest :
  clock_from t (a :: rest) <-> clock_from t [a] /\ clock_from (last_reading t [a]) rest.
Proof. destruct a; cbn; tauto. Qed.
Lemma last_reading_cons t a rest : last_reading t (a :: rest) = last_reading (last_reading t [a]) rest.
Proof. by destruct a. Qed.

(** Quotas hold in every interleaving: as long as the clock does not go
    backwards between registrations, at no later moment does a principal's
    session have more unused, unexpired approvals than its limit, nor a turn more
    than its own. *)
Theorem approval_quotas_hold ms mt b t actions fs w now p s turn :
  new_broker ms mt = Ok b -> clock_from t actions ->
  run_actions float_repr actions (MkWorld b []) = Some (fs, w) -> last_reading t actions <= now ->
  load now (of_session p s) (br_tools (wd_broker w)) <= ms /\
  load now (of_turn p s turn) (br_tools (wd_broker w)) <= mt.
Proof.
  intros Hb Hc Hrun Hn.
  assert (forall actions w0 t fs, wf_tools (br_tools (wd_broker w0)) -> within_quota t (wd_broker w0) ->
    limits (wd_broker w0) = (ms, mt) -> clock_from t actions -> run_actions float_repr actions w0 = Some (fs, w) ->
    within_quota (last_reading t actions) (wd_broker w) /\ limits (wd_broker w) = (ms, mt)) as H.
  { clear. induction actions as [|a rest IH]; intros w0 t fs Hw Hq Hl Hc; cbn [run_actions].
    - intros [= _ <-]. done.
    - destruct (act float_repr a w0) as [w1|] eqn:E; [|done]. cbn [mbind option_bind].
      destruct (run_actions float_repr rest w1) as [[fs1 w2]|] eqn:E1; [|done]. cbn [mbind option_bind fst snd]. intros [= _ <-].
      apply clock_cons in Hc as [Ha Hrest]. rewrite last_reading_cons. eapply IH; [| | |done|done].
      + by eapply wf_step, act_step.
      + by eapply act_quota.
      + by rewrite (act_limits _ _ _ _ E). }
  assert (limits b = (ms, mt) /\ 0 < ms /\ 0 < mt) as (Hl & Hms & Hmt).
  { unfold new_broker in Hb. destruct (_ || _) eqn:E; [done|]. injection Hb as <-.
    rewrite orb_false_iff, !Z.leb_gt in E. split_and!; [done|lia..]. }
  destruct (H actions (MkWorld b []) t fs) as [Hq El]; [by eapply new_broker_wf| |done..|].
  { cbn. split; intros; rewrite (new_broker_tools _ _ _ Hb); unfold load, count_if; cbn; injection Hl as E1 E2; rewrite ?E1, ?E2; lia. }
  injection El as <- <-. destruct (within_quota_later _ _ _ Hn Hq) as [H1 H2]. auto.
Qed.
End Broker.

(** ** Operations *)

(** A durable approval that the broker consumes was registered for the very
    normalised binding presented, approved by its owner and never used. *)
Lemma operation_consumed_as_bound repr float_accepts id binding now b ops fs db b' db' :
  ledger_run ops empty_ledger = (fs, db) ->
  consume_operation repr float_accepts id binding now b (Some db) = (Ok true, b', Some db') ->
  b' = b /\ exists normalized digest g t f1 f2 f3,
    _normalize_operation_binding repr binding = Ok normalized /\ _canonical_digest (PDict normalized) = Ok digest /\
    fs = f1 ++ FInserted g :: f2 ++
         FApproved id (py_str repr (get_none normalized "principal_id")) (py_str repr (get_none normalized "session_id")) t :: f3 /\
    Forall (quiet id) f2 /\ Forall (quiet id) f3 /\ rg_approval_id g = id /\ rg_binding_digest g = digest /\
    now < rg_expires_at g.
Proof.
  intros Hrun H. unfold consume_operation in H.
  destruct (res_bind (check_expiry _ _) _) as [[n d]|e] eqn:E; [|done].
  inv_res. destruct (consume_operation_approval id d _ _ now db) as [ok db1] eqn:Ec. injection H as -> <- <-.
  split; [done|]. destruct (consumed_history _ _ _ _ _ _ _ _ _ Hrun Ec) as (g & t & f1 & f2 & f3 & ? & ? & ? & ? & ? & _ & _ & _ & ?).
  exists n, d, g, t, f1, f2, f3. done.
Qed.

(** Without a ledger every attempt to consume burns the record. *)
Lemma memory_operation_burned repr float_accepts id binding now b v b' l binding' now' :
  consume_operation repr float_accepts id binding now b None = (Ok v, b', l) ->
  (consume_operation repr float_accepts id binding' now' b' None).1.1 <> Ok true.
Proof.
  intros H. assert (forall r, br_operations b' !! id = Some r -> or_used r = true) as Hu.
  { unfold consume_operation in H. destruct (res_bind (check_expiry _ _) _) as [[n d]|e]; [|done].
    destruct (br_operations b !! id) as [r|] eqn:E; [|intros ?; congruence].
    destruct (or_used r) eqn:Er; simplify_eq; [intros; congruence|]. cbn. rewrite lookup_alter_eq, E. by intros ? [= <-]. }
  unfold consume_operation. destruct (res_bind (check_expiry _ _) _) as [[n d]|e]; [|done].
  destruct (br_operations b' !! id) as [r|]; [|done]. by rewrite (Hu r).
Qed.

(** ** Witnesses *)
Definition one_repr (t : Z) : string := "1.0".
Definition example_binding : ApprovalBinding :=
  Build_ApprovalBinding "alice" "s1" "task" "turn" "call" "shell" "args" "ws" "profile" 100 "nonce" "" 0 "" 0
    "" "" "" "" "" "" "" "" "" "" "".
Definition example_digest : string := Eval vm_compute in binding_digest one_repr example_binding.
Definition example_broker : Broker := MkBroker 2 1 [] ∅ [] ∅ ∅.
Definition example_actions : list Action :=
  [ARegister example_binding 1 1 ["a"]; AWait "call" example_digest true 2;
   AResolve "call" true false "alice" "s1" example_digest 3; AWake 0; AFinally 0;
   ADispatch "call" true false "alice" "s1" example_digest 4;
   ADispatch "call" true false "alice" "s1" example_digest 5].
Definition waiting_actions : list Action :=
  [ARegister example_binding 1 1 ["a"]; AWait "call" example_digest false 2].
Abbreviation example_run acts := (run_actions one_repr acts (MkWorld example_broker [])).

(** The evaluated runs *)
Definition nothing_yet : list ToolFact * World := ([], MkWorld example_broker []).
Definition example_end : list ToolFact * World := Eval vm_compute in default nothing_yet (example_run example_actions).
Definition waiting_end : list ToolFact * World := Eval vm_compute in default nothing_yet (example_run waiting_actions).
Lemma example_run_end : example_run example_actions = Some example_end.
Proof. vm_compute. reflexivity. Qed.
Lemma waiting_run_end : example_run waiting_actions = Some waiting_end.
Proof. vm_compute. reflexivity. Qed.

Example dispatch_at_most_once_witness :
  grants_of example_digest example_end.1 = 1%nat /\
  (grants_of example_digest example_end.1 <= news_of example_digest example_end.1)%nat.
Proof.
  split; [reflexivity|].
  exact (proj1 (dispatch_at_most_once one_repr 2 1 example_broker example_actions example_end.1 example_end.2
                  example_digest eq_refl example_run_end)).
Defined.

Example dispatch_follows_decision_witness :
  last_decision "approval_a" [TNew "approval_a" example_digest; TDecided "approval_a" (MkDecision true false)]
  = Some (MkDecision true false).
Proof.
  exact (proj2 (dispatch_follows_decision one_repr 2 1 example_broker example_actions example_end.1 example_end.2
                  eq_refl example_run_end)
           [TNew "approval_a" example_digest; TDecided "approval_a" (MkDecision true false)]
           "approval_a" example_digest (MkDecision true false) [] eq_refl).
Defined.

Example approval_quotas_hold_witness :
  load 3 (of_session "alice" "s1") (br_tools (wd_broker waiting_end.2)) <= 2 /\
  load 3 (of_turn "alice" "s1" "turn") (br_tools (wd_broker waiting_end.2)) <= 1.
Proof.
  apply (approval_quotas_hold one_repr 2 1 example_broker 0 waiting_actions waiting_end.1 waiting_end.2 3
           "alice" "s1" "turn" eq_refl).
  - cbn. lia.
  - exact waiting_run_end.
  - cbn. lia.
Defined.

