(* ===== verification/ApprovalWaits.v ===== *)
(** * Waiting for approvals ([agent/approval.py], [ApprovalBroker.wait])

    When a call of [wait] is woken: with one call per approval, always; with two,
    one of them can be left behind. *)
From S2P Require Import Prelude PyStr Json PyValue Authority OperationLedger Approvals.
Open Scope Z_scope.

(** ** Waiters are woken *)

(** A record for this digest and call whose pending future is [f] *)
Definition linked (b : Broker) (digest call : string) (f : nat) : Prop :=
  exists id r, (id, r) ∈ br_tools b /\ br_pending b !! id = Some f /\
               ta_digest r = digest /\ ab_tool_call_id (ta_binding r) = call.
Definition unresolved (f : nat) (b : Broker) : Prop := br_futures b !! f = Some FutPending.

Lemma future_state_pending f b : future_state f b = FutPending <-> unresolved f b.
Proof. unfold future_state, unresolved. destruct (br_futures b !! f); cbn; split; congruence. Qed.

Definition pending_range (b : Broker) : Prop :=
  forall id f, br_pending b !! id = Some f -> (f < length (br_futures b))%nat.

(** No operation but [finally] breaks a link without resolving the future. *)
Record keeps_links (b b' : Broker) : Prop := {
  kl_future f : (f < length (br_futures b))%nat -> unresolved f b' -> unresolved f b;
  kl_link f dg c : linked b dg c f -> unresolved f b' -> linked b' dg c f;
  kl_length : (length (br_futures b) <= length (br_futures b'))%nat;
  kl_range : pending_range b -> pending_range b'
}.
Lemma keeps_links_refl b : keeps_links b b.
Proof. split; auto. Qed.
Lemma linked_change b id r g dg c f :
  wf_tools (br_tools b) -> (id, r) ∈ br_tools b -> evolves r (g r) ->
  linked b dg c f -> linked (update_tool id g b) dg c f.
Proof.
  intros (Hnd & _) Hr He (k & x & Hx & Hp & Hd & Hc).
  destruct (decide (k = id)) as [->|Hne].
  - assert (x = r) as -> by (apply (dict_get_elem _ _ _ Hnd) in Hr, Hx; congruence).
    exists id, (g r). split_and!; [|done|by rewrite (ev_digest _ _ He)|by rewrite (ev_binding _ _ He)].
    cbn. apply list_elem_of_fmap. exists (id, r). cbn. by rewrite bool_decide_true.
  - exists k, x. split_and!; [|done..]. cbn. apply list_elem_of_fmap. exists (k, x). cbn. by rewrite bool_decide_false.
Qed.
Lemma keeps_update b id r g :
  wf_tools (br_tools b) -> (id, r) ∈ br_tools b -> evolves r (g r) -> keeps_links b (update_tool id g b).
Proof. intros Hw Hr He. split; [done| |done|done]. intros. by eapply linked_change. Qed.

Lemma set_result_unresolved f g d b : unresolved f (set_result g d b) -> f <> g /\ unresolved f b.
Proof.
  unfold unresolved. cbn. intros H. destruct (decide (f = g)) as [->|Hne].
  - apply list_lookup_insert_Some in H as [(_ & [=] & _)|[? _]]; done.
  - by rewrite list_lookup_insert_ne in H.
Qed.
Lemma keeps_set_result b b' g d : keeps_links b b' -> keeps_links b (set_result g d b').
Proof.
  intros [F K L R]. split.
  - intros f Hf H. apply set_result_unresolved in H as [_ H]. auto.
  - intros f dg c Hl H. apply set_result_unresolved in H as [_ H]. exact (K _ _ _ Hl H).
  - cbn. by rewrite length_insert.
  - intros Hr id f Hf. cbn in *. rewrite length_insert. by eapply R.
Qed.

Lemma evict_unresolved f b k : unresolved f (evict_tool b k) -> unresolved f b.
Proof.
  unfold evict_tool. destruct (br_pending _ !! k) as [g|]; [|done]. destruct (fut_done _); [done|].
  by intros [_ H]%set_result_unresolved.
Qed.
Lemma evict_link f dg c b k : linked b dg c f -> unresolved f (evict_tool b k) -> linked (evict_tool b k) dg c f.
Proof.
  intros (id & r & Hr & Hp & Hd & Hc) Hu.
  assert (id <> k) as Hne.
  { intros ->. unfold evict_tool in Hu. cbn in Hu. rewrite Hp in Hu. destruct (fut_done _) eqn:E.
    - apply future_state_pending in Hu. unfold future_state in *. cbn in *. by rewrite Hu in E.
    - apply set_result_unresolved in Hu as [[] _]. done. }
  exists id, r. split_and!; [| |done..].
  - rewrite evict_tools. apply list_elem_of_filter. done.
  - unfold evict_tool. destruct (br_pending _ !! k); [destruct (fut_done _)|]; cbn; by rewrite lookup_delete_ne.
Qed.
Lemma evict_all_unresolved f ks b : unresolved f (foldl evict_tool b ks) -> unresolved f b.
Proof. revert b. induction ks as [|k ks IH]; intros b; cbn; [done|]. intros H. by eapply evict_unresolved, IH. Qed.
Lemma evict_all_link f dg c ks b :
  linked b dg c f -> unresolved f (foldl evict_tool b ks) -> linked (foldl evict_tool b ks) dg c f.
Proof.
  revert b. induction ks as [|k ks IH]; intros b Hl Hu; cbn in *; [done|].
  apply IH; [|done]. apply evict_link; [done|]. by eapply evict_all_unresolved.
Qed.
Lemma evict_range ks b : length (br_futures (foldl evict_tool b ks)) = length (br_futures b) /\
  (pending_range b -> pending_range (foldl evict_tool b ks)).
Proof.
  revert b. induction ks as [|k ks IH]; intros b; cbn; [done|]. destruct (IH (evict_tool b k)) as [-> Hr].
  assert (length (br_futures (evict_tool b k)) = length (br_futures b) /\
          br_pending (evict_tool b k) = delete k (br_pending b)) as [E1 E2].
  { unfold evict_tool. destruct (br_pending _ !! k); [destruct (fut_done _)|]; cbn; by rewrite ?length_insert. }
  split; [done|]. intros H. apply Hr. intros id f Hf. rewrite E1. rewrite E2 in Hf.
  apply lookup_delete_Some in Hf as [_ Hf]. by eapply H.
Qed.
Lemma sweep_keeps now ttl b : keeps_links b (sweep_expired now ttl b).2.
Proof.
  destruct (evict_range (List.filter (fun kv => stale_tool now ttl kv.2) (br_tools b)).*1 b) as [E R].
  split; [intros f _; apply evict_all_unresolved|intros f dg c; apply evict_all_link| |exact R].
  change (length (br_futures b) <= length (br_futures (foldl evict_tool b
    (List.filter (fun kv => stale_tool now ttl kv.2) (br_tools b)).*1)))%nat. lia.
Qed.

Lemma resolve_keeps call ap rm p s digest now b :
  wf_tools (br_tools b) -> keeps_links b (resolve call ap rm p s digest now b).2.
Proof.
  intros Hw. unfold resolve. destruct (_find_tool_approval_locked _ _ _ _ _) as [r|] eqn:E; [|apply keeps_links_refl].
  apply find_elem in E as (Hr & _); [|done].
  destruct (_ || _) eqn:Hc; [apply keeps_links_refl|]. rewrite !orb_false_iff in Hc. destruct Hc as [[[_ Hd] _] _].
  assert (keeps_links b (update_tool (ta_id r) (set_decision (MkDecision ap rm)) b)) as H
    by (eapply keeps_update; eauto with approvals).
  destruct (br_pending _ !! _); [|done]. destruct (fut_done _); [done|]. by apply keeps_set_result.
Qed.
Lemma dispatch_keeps call ap rm p s digest now b :
  wf_tools (br_tools b) -> keeps_links b (consume_for_dispatch call ap rm p s digest now b).2.
Proof.
  intros Hw. unfold consume_for_dispatch.
  destruct (_find_tool_approval_locked _ _ _ _ _) as [r|] eqn:E; [|apply keeps_links_refl].
  apply find_elem in E as (Hr & _); [|done]. destruct (_ || _); [apply keeps_links_refl|].
  destruct (ta_decision r) as [d|] eqn:Ed.
  - destruct (negb _); (eapply keeps_update; [done|done|]); [auto with approvals|].
    apply evolves_dispatch. unfold decided. by rewrite Ed.
  - eapply keeps_update; [done|done|]. apply evolves_take. unfold decided. by rewrite Ed.
Qed.
Lemma commit_keeps {S} call ap p s digest now (commit : S -> res bool * S) st b :
  wf_tools (br_tools b) ->
  keeps_links b (consume_task_decision_and_commit call ap p s digest now commit st b).2.
Proof.
  intros Hw. unfold consume_task_decision_and_commit.
  destruct (_find_tool_approval_locked _ _ _ _ _) as [r|] eqn:E; [|apply keeps_links_refl].
  apply find_elem in E as (Hr & _); [|done].
  destruct (_ || _) eqn:Hc; [apply keeps_links_refl|]. rewrite !orb_false_iff in Hc. destruct Hc as [[[[_ _] Hd] _] _].
  assert (keeps_links b (update_tool (ta_id r)
    (fun r => mark_dispatched (mark_used (set_decision (MkDecision ap false) r))) b)) as H
    by (eapply keeps_update; eauto with approvals).
  destruct (commit st) as [[[]|] st']; [|done..].
  destruct (br_pending _ !! _); [|done]. destruct (fut_done _); [done|]. by apply keeps_set_result.
Qed.
Lemma timed_out_keeps call digest b : wf_tools (br_tools b) -> keeps_links b (wait_timed_out call digest b).
Proof.
  intros Hw. unfold wait_timed_out. destruct (_find_tool_approval_locked _ _ _ _ _) as [r|] eqn:E; [|apply keeps_links_refl].
  apply find_elem in E as (Hr & _); [|done]. eapply keeps_update; eauto with approvals.
Qed.
Lemma register_keeps float_repr bd now c draws b r b' :
  register_tool_approval float_repr bd now c draws b = Some (r, b') -> keeps_links b b'.
Proof.
  unfold register_tool_approval. intros H. repeat case_match; simplify_eq; try apply keeps_links_refl.
  split; [done| |done|done]. intros f dg cl (id & x & Hx & ?) _. exists id, x. split; [|done]. cbn. apply elem_of_app. by left.
Qed.
Lemma wait_enter_keeps call digest now b e b' :
  wf_tools (br_tools b) -> wait_enter call digest now b = (e, b') ->
  keeps_links b b' /\ (forall f, e = WaitBlocks f -> linked b' digest call f).
Proof.
  intros Hw H. unfold wait_enter in H.
  destruct (_find_tool_approval_locked _ _ _ _ _) as [r|] eqn:E; [|simplify_eq; split; [apply keeps_links_refl|done]].
  apply find_elem in E as (Hr & Hd & Hc & _); [|done].
  destruct (_ || _); [simplify_eq; split; [apply keeps_links_refl|done]|].
  destruct (ta_decision r); [simplify_eq; split; [eapply keeps_update; eauto with approvals|done]|].
  destruct (br_pending b !! ta_id r) as [f|] eqn:Ep; simplify_eq.
  - split; [apply keeps_links_refl|]. intros g [= ->]. by exists (ta_id r), r.
  - split.
    + split.
      * intros f Hf. unfold unresolved. cbn. by rewrite lookup_app_l.
      * intros f dg c (id & x & Hx & Hp & ?) _. exists id, x. split_and!; [done| |naive_solver..]. cbn.
        rewrite lookup_insert_ne by congruence. done.
      * cbn. rewrite length_app. lia.
      * intros Hrg id f. cbn. rewrite length_app. cbn. intros [[_ <-]|[_ Hf]]%lookup_insert_Some; [lia|].
        specialize (Hrg _ _ Hf). lia.
    + intros g [= <-]. exists (ta_id r), r. split_and!; [done| |done..]. cbn. by rewrite lookup_insert_eq.
Qed.

(** Every waiter on an unresolved future is linked to it. *)
Definition all_linked (w : World) : Prop :=
  pending_range (wd_broker w) /\
  forall i wt f, wd_waiters w !! i = Some wt -> wt_phase wt = WBlocked f ->
    (f < length (br_futures (wd_broker w)))%nat /\
    (unresolved f (wd_broker w) -> linked (wd_broker w) (wt_digest wt) (wt_call wt) f).

Lemma all_linked_broker w b' ws :
  all_linked w -> keeps_links (wd_broker w) b' ->
  (forall i wt f, ws !! i = Some wt -> wt_phase wt = WBlocked f ->
     exists wt0, wd_waiters w !! i = Some wt0 /\ wt_phase wt0 = WBlocked f /\ wt_digest wt0 = wt_digest wt /\
                 wt_call wt0 = wt_call wt) ->
  all_linked (MkWorld b' ws).
Proof.
  intros [Hr Hl] K Hws. split; [by apply (kl_range _ _ K)|]. cbn. intros i wt f Hi Hf.
  destruct (Hws i wt f Hi Hf) as (wt0 & Hi0 & Hf0 & <- & <-). destruct (Hl i wt0 f Hi0 Hf0) as [Hlt Hl0].
  pose proof (kl_length _ _ K). split; [lia|]. intros Hu. apply (kl_link _ _ K); [|done].
  apply Hl0. by apply (kl_future _ _ K).
Qed.
Lemma moved_waiters i p w j wt f :
  (forall g, p <> WBlocked g) -> wd_waiters (move_waiter i p w) !! j = Some wt -> wt_phase wt = WBlocked f ->
  exists wt0, wd_waiters w !! j = Some wt0 /\ wt_phase wt0 = WBlocked f /\ wt_digest wt0 = wt_digest wt /\
              wt_call wt0 = wt_call wt.
Proof.
  intros Hp. cbn. destruct (decide (i = j)) as [->|Hne].
  - rewrite list_lookup_alter_eq. destruct (wd_waiters w !! j); [|done]. cbn. intros [= <-]. cbn. intros E. by destruct (Hp f).
  - rewrite list_lookup_alter_ne by done. eauto 10.
Qed.

(** [finally] of one waiter leaves the links of waiters for other digests. *)
Lemma finally_link call digest b dg c f :
  wf_tools (br_tools b) -> dg <> digest -> linked b dg c f -> linked (wait_finally call digest b) dg c f.
Proof.
  intros Hw Hne Hl. unfold wait_finally. destruct (_find_tool_approval_locked _ _ _ _ _) as [r|] eqn:E; [|done].
  apply find_elem in E as (Hr & Hd & _); [|done].
  apply (linked_change (with_pending (delete (ta_id r) (br_pending b)) b) (ta_id r) r); [done|done|auto with approvals|].
  destruct Hl as (id & x & Hx & Hp & Hdx & Hc). exists id, x. split_and!; [done| |done..]. cbn.
  rewrite lookup_delete_ne; [done|]. intros Hid. destruct Hw as (Hnd & _).
  rewrite <-Hid in Hx. apply (dict_get_elem _ _ _ Hnd) in Hr, Hx. congruence.
Qed.
Lemma finally_futures call digest b : br_futures (wait_finally call digest b) = br_futures b.
Proof. unfold wait_finally. by destruct (_find_tool_approval_locked _ _ _ _ _). Qed.
Lemma finally_range call digest b : pending_range b -> pending_range (wait_finally call digest b).
Proof.
  intros H id f. rewrite finally_futures. unfold wait_finally.
  destruct (_find_tool_approval_locked _ _ _ _ _); [|apply H]. cbn. intros [_ Hf]%lookup_delete_Some. by eapply H.
Qed.

Lemma cancel_keeps f b : keeps_links b (with_futures (<[f := FutCancelled]> (br_futures b)) b).
Proof.
  assert (forall g, unresolved g (with_futures (<[f := FutCancelled]> (br_futures b)) b) -> unresolved g b) as Hu.
  { intros g. unfold unresolved. cbn. destruct (decide (g = f)) as [->|Hne].
    - intros [(_ & [=] & _)|[? _]]%list_lookup_insert_Some; done.
    - by rewrite list_lookup_insert_ne. }
  split; [auto|done|cbn; by rewrite length_insert|]. intros H id g. cbn. rewrite length_insert. apply H.
Qed.

Ltac move_done i :=
  intros ? ? ? Hj Hf0; eapply (moved_waiters i); [|exact Hj|exact Hf0]; intros ?; congruence.

Section Waiters.
Variable float_repr : Z -> string.

Lemma act_linked a w w' :
  wf_tools (br_tools (wd_broker w)) -> NoDup (wt_digest <$> wd_waiters w) ->
  all_linked w -> act float_repr a w = Some w' -> all_linked w'.
Proof.
  intros Hw Hnd Hl H. unfold act in H. destruct a as [bd now c dr|call dg to now|i|i|i|i|i|call ap rm p s dg now
    |call ap rm p s dg now|call ap p s dg now o|now ttl].
  - destruct (register_tool_approval _ _ _ _ _ _) as [[r b']|] eqn:E; [|done]. injection H as <-.
    apply (all_linked_broker w); [done|by eapply register_keeps|eauto 10].
  - destruct (wait_enter _ _ _ _) as [e b'] eqn:E. injection H as <-.
    apply wait_enter_keeps in E as [K Hb]; [|done].
    pose proof (all_linked_broker w b' (wd_waiters w) Hl K ltac:(eauto 10)) as [Hr Hold]. split; [done|].
    cbn in *. intros i wt f Hi Hf. apply lookup_app_Some in Hi as [Hi|[_ Hi]]; [by apply (Hold i)|].
    apply list_lookup_singleton_Some in Hi as [_ <-]. cbn in *. destruct e as [|g]; [done|]. injection Hf as ->.
    pose proof (Hb f eq_refl) as Hlk. split; [|done]. destruct Hlk as (id & r & _ & Hp & _). by eapply Hr.
  - destruct (at_phase i w) as [[f| | |]|]; try done.
    destruct (future_state _ _); [done|..]; injection H as <-;
      (apply (all_linked_broker w); [done|apply keeps_links_refl|]); move_done i.
  - destruct (_ !! i) as [wt|]; [|done]. destruct (wt_phase wt); try done. destruct (wt_timeout wt); [|done].
    injection H as <-. apply (all_linked_broker w); [done|apply keeps_links_refl|]. move_done i.
  - destruct (_ !! i) as [wt|]; [|done]. destruct (wt_phase wt); try done. injection H as <-.
    apply (all_linked_broker w); [done|by apply timed_out_keeps|]. move_done i.
  - destruct (_ !! i) as [wt|]; [|done]. unfold cancel_wait in H. destruct (wt_phase wt) as [f| | |]; try done;
      injection H as <-; (apply (all_linked_broker w); [done| |move_done i]);
      [|apply keeps_links_refl..].
    cbn. destruct (_ || _); [apply keeps_links_refl|apply cancel_keeps].
  - destruct (_ !! i) as [wt|] eqn:Ei; [|done]. destruct (wt_phase wt) as [| |o|] eqn:Ep; try done. injection H as <-.
    destruct Hl as [Hr Hl]. split; [by apply finally_range|]. cbn. intros j wt' f Hj Hf. rewrite finally_futures.
    assert (i <> j) as Hij.
    { intros ->. rewrite list_lookup_alter_eq, Ei in Hj. cbn in Hj. injection Hj as <-. done. }
    rewrite list_lookup_alter_ne in Hj by done. destruct (Hl j wt' f Hj Hf) as [Hlt Hl']. split; [done|].
    unfold unresolved. rewrite finally_futures. intros Hu. apply finally_link; [done| |by apply Hl'].
    intros E. apply Hij. eapply NoDup_lookup; [exact Hnd|by rewrite list_lookup_fmap, Ei|].
    rewrite list_lookup_fmap, Hj. cbn. by rewrite E.
  - injection H as <-. apply (all_linked_broker w); [done|by apply resolve_keeps|eauto 10].
  - injection H as <-. apply (all_linked_broker w); [done|by apply dispatch_keeps|eauto 10].
  - injection H as <-. apply (all_linked_broker w); [done|by apply commit_keeps|eauto 10].
  - injection H as <-. apply (all_linked_broker w); [done|by apply sweep_keeps|eauto 10].
Qed.

Lemma digests_moved (i : nat) p (l : list Waiter) : wt_digest <$> alter (set_phase p) i l = wt_digest <$> l.
Proof. revert i. induction l as [|x l IH]; intros [|i]; cbn; [done..|]. f_equal. apply IH. Qed.
Lemma act_digests a w w' : act float_repr a w = Some w' ->
  exists k, wt_digest <$> wd_waiters w' = (wt_digest <$> wd_waiters w) ++ k.
Proof.
  intros H. destruct a as [bd now c dr|call dg to now|i|i|i|i|i|call ap rm p s dg now
    |call ap rm p s dg now|call ap p s dg now o|now ttl]; cbn in H.
  2: { destruct (wait_enter _ _ _ _). injection H as <-. cbn. rewrite fmap_app. eauto. }
  all: exists []; rewrite app_nil_r; unfold cancel_wait in H; repeat case_match; simplify_eq; cbn; try done;
    try apply digests_moved.
  destruct (register_tool_approval _ _ _ _ _ _); [|done]. cbn in H. by simplify_eq.
Qed.
Lemma run_digests actions w fs w' : run_actions float_repr actions w = Some (fs, w') ->
  exists k, wt_digest <$> wd_waiters w' = (wt_digest <$> wd_waiters w) ++ k.
Proof.
  revert w fs. induction actions as [|a rest IH]; intros w fs; cbn; [intros [= _ <-]; exists []; by rewrite app_nil_r|].
  destruct (act float_repr a w) as [w1|] eqn:E; [|done]. cbn.
  destruct (run_actions float_repr rest w1) as [[fs1 w2]|] eqn:E1; [|done]. cbn. intros [= _ <-].
  destruct (act_digests _ _ _ E) as [k1 H1], (IH _ _ E1) as [k2 H2]. exists (k1 ++ k2). by rewrite H2, H1, app_assoc.
Qed.

Lemma run_linked actions w fs w' :
  wf_tools (br_tools (wd_broker w)) -> all_linked w -> run_actions float_repr actions w = Some (fs, w') ->
  NoDup (wt_digest <$> wd_waiters w') -> wf_tools (br_tools (wd_broker w')) /\ all_linked w'.
Proof.
  revert w fs. induction actions as [|a rest IH]; intros w fs Hw Hl; cbn; [by intros [= _ <-]|].
  destruct (act float_repr a w) as [w1|] eqn:E; [|done]. cbn.
  destruct (run_actions float_repr rest w1) as [[fs1 w2]|] eqn:E1; [|done]. cbn. intros [= _ <-] Hnd.
  eapply IH; [| |done|done].
  - by eapply wf_step, act_step.
  - eapply act_linked; [done| |done|done].
    destruct (act_digests _ _ _ E) as [k1 H1], (run_digests _ _ _ _ E1) as [k2 H2].
    rewrite H2, H1 in Hnd. apply NoDup_app in Hnd as [Hnd _]. by apply NoDup_app in Hnd as [Hnd _].
Qed.

(** The sweep resolves the future of every record it evicts. *)
Lemma sweep_resolves now ttl b id r f dg c :
  wf_tools (br_tools b) -> (id, r) ∈ br_tools b -> stale_tool now ttl r = true -> ta_digest r = dg ->
  linked b dg c f -> ~ unresolved f (sweep_expired now ttl b).2.
Proof.
  intros Hw Hr Hs Hd Hl Hu. pose proof (kl_link _ _ (sweep_keeps now ttl b) _ _ _ Hl Hu) as (k & x & Hx & _ & Hdx & _).
  rewrite sweep_tools in Hx.
  assert (forall ks b, (k, x) ∈ br_tools (foldl evict_tool b ks) -> (k, x) ∈ br_tools b /\ (k ∉ ks)) as Hev.
  { clear. induction ks as [|k0 ks IH]; intros b; cbn; [intros ?; split; [done|apply not_elem_of_nil]|].
    intros [H Hn]%IH. rewrite evict_tools in H. apply list_elem_of_filter in H as [Hne H]. cbn in Hne.
    split; [done|]. apply not_elem_of_cons. done. }
  apply Hev in Hx as [Hx Hk]. apply Hk. destruct Hw as (Hnd & Hdg & _).
  assert (k = id /\ x = r) as [-> ->].
  { apply list_elem_of_lookup_1 in Hx as [i Hi], Hr as [j Hj].
    assert (i = j) as ->; [|naive_solver].
    eapply NoDup_lookup; [exact Hdg|by rewrite !list_lookup_fmap, Hi|by rewrite !list_lookup_fmap, Hj; cbn; rewrite Hdx, Hd]. }
  apply list_elem_of_fmap. exists (id, r). split; [done|]. apply list_elem_of_In, List.filter_In.
  split; [by apply list_elem_of_In|done].
Qed.

(** Waiters do not hang: when each approval is waited for by one call, then in
    every interleaving a call of [wait] that is blocked on an unresolved future
    still has its record in the broker with that very future pending, and a
    sweep that finds this record used or too old resolves the future, so the call
    can go on. *)
Theorem sweep_wakes_waiters ms mt b actions fs w i wt f :
  new_broker ms mt = Ok b -> run_actions float_repr actions (MkWorld b []) = Some (fs, w) ->
  NoDup (wt_digest <$> wd_waiters w) ->
  wd_waiters w !! i = Some wt -> wt_phase wt = WBlocked f -> future_state f (wd_broker w) = FutPending ->
  exists id r, (id, r) ∈ br_tools (wd_broker w) /\ br_pending (wd_broker w) !! id = Some f /\
    ta_digest r = wt_digest wt /\
    forall now ttl w1, stale_tool now ttl r = true -> act float_repr (ASweep now ttl) w = Some w1 ->
      is_Some (act float_repr (AWake i) w1).
Proof.
  intros Hb Hrun Hnd Hi Hf Hp.
  destruct (run_linked actions (MkWorld b []) fs w) as [Hw [_ Hl]]; [by eapply new_broker_wf| |done|done|].
  { unfold new_broker in Hb. destruct (_ || _); [done|]. injection Hb as <-. split; [intros ? ? [=]|]. cbn. intros i0 ? ? H0. by rewrite lookup_nil in H0. }
  apply future_state_pending in Hp. destruct (Hl i wt f Hi Hf) as [_ Hlk]. specialize (Hlk Hp).
  destruct Hlk as (id & r & Hr & Hpd & Hd & Hc). exists id, r. split_and!; [done..|].
  intros now ttl w1 Hs H. injection H as <-. cbn. unfold at_phase. cbn. rewrite Hi. cbn. rewrite Hf.
  assert (linked (wd_broker w) (wt_digest wt) (wt_call wt) f) as Hlk by (by exists id, r).
  pose proof (sweep_resolves now ttl _ _ _ _ _ _ Hw Hr Hs Hd Hlk) as Hn.
  rewrite <-future_state_pending in Hn. cbn in Hn.
  match goal with |- context [future_state f ?x] => destruct (future_state f x) eqn:E end; [by destruct Hn|eauto..].
Qed.
End Waiters.

(** ** Two waits for one approval *)
Definition orphaned (f : nat) (b : Broker) : Prop := unresolved f b /\ forall id, br_pending b !! id <> Some f.

Lemma orphaned_set_result f g id d b : br_pending b !! id = Some g -> orphaned f b -> orphaned f (set_result g d b).
Proof.
  intros Hg [Hu Hp]. split; [|done]. unfold unresolved. cbn. rewrite list_lookup_insert_ne; [done|].
  intros ->. by apply (Hp id).
Qed.
Lemma orphaned_evict f b k : orphaned f b -> orphaned f (evict_tool b k).
Proof.
  intros [Hu Hp]. assert (orphaned f (with_pending (delete k (br_pending b)) (with_tools (filter (fun kv => kv.1 <> k) (br_tools b)) b))).
  { split; [done|]. intros id. cbn. intros [_ H]%lookup_delete_Some. by apply (Hp id). }
  unfold evict_tool. cbn. destruct (br_pending b !! k) as [g|] eqn:E; [|done]. destruct (fut_done _); [done|].
  split; [|apply H]. unfold unresolved. cbn. rewrite list_lookup_insert_ne; [done|]. intros ->. by apply (Hp k).
Qed.

Section Orphans.
Variable float_repr : Z -> string.

Definition is_cancel (a : Action) : bool := match a with ACancelWait _ => true | _ => false end.

Lemma act_orphaned f a w w' :
  is_cancel a = false -> act float_repr a w = Some w' -> orphaned f (wd_broker w) -> orphaned f (wd_broker w').
Proof.
  intros Ha H Ho. destruct a as [bd now c dr|call dg to now|i|i|i|i|i|call ap rm p s dg now
    |call ap rm p s dg now|call ap p s dg now o|now ttl]; cbn in H; try done.
  - destruct (register_tool_approval _ _ _ _ _ _) as [[r b']|] eqn:E; [|done]. injection H as <-. cbn.
    unfold register_tool_approval in E. repeat case_match; by simplify_eq.
  - destruct (wait_enter _ _ _ _) as [e b'] eqn:E. injection H as <-. unfold wait_enter in E.
    repeat case_match; simplify_eq; try done. destruct Ho as [Hu Hp].
    apply lookup_lt_Some in Hu as Hlt. split.
    + unfold unresolved. cbn. by rewrite lookup_app_l.
    + intros id. cbn. intros [[_ Hf]|[_ Hf]]%lookup_insert_Some; [lia|by apply (Hp id)].
  - repeat case_match; by simplify_eq.
  - repeat case_match; by simplify_eq.
  - repeat case_match; simplify_eq. cbn. unfold wait_timed_out. by case_match.
  - repeat case_match; simplify_eq. cbn. unfold wait_finally. case_match; [|done]. destruct Ho as [Hu Hp].
    split; [done|]. intros id. cbn. intros [_ Hf]%lookup_delete_Some. by apply (Hp id).
  - injection H as <-. cbn. unfold resolve. repeat case_match; try done. by eapply orphaned_set_result.
  - injection H as <-. cbn. unfold consume_for_dispatch. by repeat case_match.
  - injection H as <-. cbn. unfold consume_task_decision_and_commit. repeat case_match; try done.
    by eapply orphaned_set_result.
  - injection H as <-. cbn.
    generalize ((List.filter (fun kv => stale_tool now ttl kv.2) (br_tools (wd_broker w))).*1).
    intros ks. change (orphaned f (foldl evict_tool (wd_broker w) ks)). revert Ho. generalize (wd_broker w).
    induction ks as [|k ks IH]; intros b Ho; cbn; [done|]. by apply IH, orphaned_evict.
Qed.

Lemma act_stuck f a w w' i wt :
  is_cancel a = false -> act float_repr a w = Some w' -> orphaned f (wd_broker w) ->
  wd_waiters w !! i = Some wt -> wt_phase wt = WBlocked f -> wt_timeout wt = false -> wd_waiters w' !! i = Some wt.
Proof.
  intros Ha H [Hu _] Hi Hf Ht. apply future_state_pending in Hu.
  assert (forall j p, i <> j -> wd_waiters (move_waiter j p w) !! i = Some wt) as Hmv.
  { intros j p Hne. cbn. by rewrite list_lookup_alter_ne. }
  destruct a as [bd now c dr|call dg to now|j|j|j|j|j|call ap rm p s dg now
    |call ap rm p s dg now|call ap p s dg now o|now ttl]; cbn in H; try done.
  - destruct (register_tool_approval _ _ _ _ _ _); [|done]. by injection H as <-.
  - destruct (wait_enter _ _ _ _). injection H as <-. cbn. by apply lookup_app_l_Some.
  - unfold at_phase in H. destruct (decide (i = j)) as [<-|Hne].
    + rewrite Hi in H. cbn in H. by rewrite Hf, Hu in H.
    + repeat case_match; simplify_eq; by apply Hmv.
  - destruct (decide (i = j)) as [<-|Hne]; [by rewrite Hi, Hf, Ht in H|]. repeat case_match; simplify_eq; by apply Hmv.
  - destruct (decide (i = j)) as [<-|Hne]; [by rewrite Hi, Hf in H|]. repeat case_match; simplify_eq. by apply (Hmv j).
  - destruct (decide (i = j)) as [<-|Hne]; [by rewrite Hi, Hf in H|]. repeat case_match; simplify_eq. by apply (Hmv j).
  - by injection H as <-.
  - by injection H as <-.
  - by injection H as <-.
  - by injection H as <-.
Qed.

(** Two waits for one approval can leave one hanging: a call of [wait] without
    timeout whose future is no longer pending in the broker (because another
    wait for the same approval has ended and dropped it) stays blocked through
    every later sequence of operations, sweeps included, until a task is
    cancelled. *)
Theorem orphaned_wait_hangs w i wt f actions fs w' :
  wd_waiters w !! i = Some wt -> wt_phase wt = WBlocked f -> wt_timeout wt = false ->
  future_state f (wd_broker w) = FutPending -> (forall id, br_pending (wd_broker w) !! id <> Some f) ->
  Forall (fun a => is_cancel a = false) actions -> run_actions float_repr actions w = Some (fs, w') ->
  wd_waiters w' !! i = Some wt.
Proof.
  intros Hi Hf Ht Hp Hn Hc Hrun. apply future_state_pending in Hp.
  assert (orphaned f (wd_broker w)) as Ho by done. clear Hp Hn.
  revert w fs Hi Ho Hrun. induction Hc as [|a rest Ha _ IH]; intros w fs Hi Ho; cbn; [by intros [= _ <-]|].
  destruct (act float_repr a w) as [w1|] eqn:E; [|done]. cbn.
  destruct (run_actions float_repr rest w1) as [[fs1 w2]|] eqn:E1; [|done]. cbn. intros [= _ <-].
  eapply IH; [| |done].
  - by eapply act_stuck.
  - by eapply act_orphaned.
Qed.
End Orphans.

(** ** Witnesses *)
Definition double_wait_actions : list Action :=
  [ARegister example_binding 1 1 ["a"]; AWait "call" example_digest true 2; AWait "call" example_digest false 2;
   ATimeout 0; ATimeoutSection 0; AFinally 0].
Definition double_wait_end : list ToolFact * World :=
  Eval vm_compute in default nothing_yet (example_run double_wait_actions).
Lemma double_wait_run_end : example_run double_wait_actions = Some double_wait_end.
Proof. vm_compute. reflexivity. Qed.

Example sweep_wakes_waiters_witness :
  exists id r, (id, r) ∈ br_tools (wd_broker waiting_end.2) /\ br_pending (wd_broker waiting_end.2) !! id = Some 0%nat /\ ta_digest r = example_digest /\
    forall now ttl w1, stale_tool now ttl r = true -> act one_repr (ASweep now ttl) waiting_end.2 = Some w1 ->
      is_Some (act one_repr (AWake 0) w1).
Proof.
  apply (sweep_wakes_waiters one_repr 2 1 example_broker waiting_actions waiting_end.1 waiting_end.2 0
           (MkWaiter "call" example_digest false (WBlocked 0)) 0 eq_refl waiting_run_end).
  - apply NoDup_singleton.
  - reflexivity.
  - reflexivity.
  - reflexivity.
Defined.

Definition swept : list ToolFact * World :=
  Eval vm_compute in default nothing_yet (run_actions one_repr [ASweep 1000 1] double_wait_end.2).
Example orphaned_wait_hangs_witness :
  br_tools (wd_broker swept.2) = [] /\
  wd_waiters swept.2 !! 1%nat = Some (MkWaiter "call" example_digest false (WBlocked 0)).
Proof.
  split; [reflexivity|].
  apply (orphaned_wait_hangs one_repr double_wait_end.2 1 _ 0 [ASweep 1000 1] swept.1 swept.2);
    [reflexivity|reflexivity|reflexivity|reflexivity| | |reflexivity].
  - intros id. change (br_pending (wd_broker double_wait_end.2)) with (∅ : gmap string nat). by rewrite lookup_empty.
  - repeat constructor.
Defined.
