(* ===== verification/ShellSemantics.v ===== *)
(** * Shell semantics ([security/shell_semantics.py])

    The conservative classification of shell scripts and argv vectors: a
    non-executing parser builds an AST of commands, operators and features, and a
    script is [SAFE] only when its whole command graph is literal and every
    command satisfies an argument policy.

    The parser indexes code points, so a script is the list of its code points,
    each the string of its UTF-8 bytes ([chars]).  A position is kept next to the
    remaining characters.  Nested scripts are analysed by the same function one
    level deeper; at depth nine it gives up, so the recursion is on the levels
    left. *)
From Stdlib Require Import Ascii.
From S2P Require Import Prelude PyStr Json PyValue Sha256 Authority.
Open Scope Z_scope.

(** ** Characters *)
Fixpoint chars (s : string) : list string :=
  match s with
  | EmptyString => []
  | String c r =>
      match r with
      | String d _ =>
          if is_continuation d
          then match chars r with x :: l => String c x :: l | [] => [] end
          else String c EmptyString :: chars r
      | EmptyString => [String c EmptyString]
      end
  end.
(** ["".join(l)] *)
Fixpoint text_of (l : list string) : string :=
  match l with [] => EmptyString | c :: r => c +:+ text_of r end.

Definition NEWLINE : string := String LF EmptyString.
Definition RETURN : string := String CR EmptyString.
Definition TAB : string := String "009"%char EmptyString.
Definition DQUOTE : string := String QUOTE EmptyString.
Definition SQUOTE : string := "'".
Definition BACKSLASH : string := "\".
Definition BACKTICK : string := "`".

Definition ascii_of_char (c : string) : option ascii :=
  match c with String a EmptyString => Some a | _ => None end.
Definition char_test (p : ascii -> bool) (c : string) : bool :=
  match ascii_of_char c with Some a => p a | None => false end.
Definition is_ident_start (a : ascii) : bool :=
  between 65 90 (byte a) || between 97 122 (byte a) || (byte a =? 95).
Definition is_ident (a : ascii) : bool := is_ident_start a || between 48 57 (byte a).
(** [char in "..."] for one character *)
Definition char_in (set : string) (c : string) : bool := str_in c (chars set).

(** The index of the first [c] in [l] *)
Fixpoint find_char (c : string) (l : list string) : option nat :=
  match l with
  | [] => None
  | x :: r => if bool_decide (x = c) then Some O else S <$> find_char c r
  end.
(** [text.split("=", 1)[0]] *)
Fixpoint before_equals (s : string) : string :=
  match s with
  | EmptyString => EmptyString
  | String c r => if byte c =? 61 then EmptyString else String c (before_equals r)
  end.
Fixpoint starts_with (p l : list string) : bool :=
  match p, l with
  | [], _ => true
  | x :: p', y :: l' => bool_decide (x = y) && starts_with p' l'
  | _ :: _, [] => false
  end.
Definition has_prefix (p s : string) : bool := match drop_prefix p s with Some _ => true | None => false end.

(** ** Data *)
Inductive ShellSemanticStatus := SAFE | SEMANTIC_UNKNOWN | SHELL_BLOCKED.
#[export] Instance ShellSemanticStatus_eq_dec : EqDecision ShellSemanticStatus.
Proof. solve_decision. Defined.
Definition shell_status_value (s : ShellSemanticStatus) : string :=
  match s with SAFE => "safe" | SEMANTIC_UNKNOWN => "semantic-unknown" | SHELL_BLOCKED => "blocked" end.

Definition READ_ONLY_EXECUTABLES : list string :=
  ["cat"; "date"; "echo"; "grep"; "head"; "ls"; "pwd"; "rg"; "tail"; "test"; "true"; "wc"; "which"].
Definition MUTATING_EXECUTABLES : list string :=
  ["chmod"; "chown"; "cp"; "curl"; "dd"; "git"; "kill"; "mkdir"; "mv"; "npm"; "pip"; "python"; "python3"; "rm";
   "rmdir"; "tee"; "touch"].
Definition BLOCKED_EXECUTABLES : list string :=
  ["sudo"; "su"; "passwd"; "visudo"; "chroot"; "iptables"; "nft"; "ufw"; "fdisk"; "parted"; "mount"; "shutdown";
   "reboot"; "halt"; "poweroff"; "systemctl"; "service"; "crontab"; "at"; "useradd"; "userdel"; "usermod";
   "groupadd"; "groupdel"; "insmod"; "modprobe"].
Definition SHELL_EVALUATORS : list string :=
  ["eval"; "source"; "."; "exec"; "command"; "builtin"; "sh"; "bash"; "zsh"].
Definition CALLBACK_OPTIONS : list string :=
  ["--pre"; "--pre-glob"; "-exec"; "-execdir"; "--exec"; "--exec-batch"; "--execdir"].
Definition _GIT_FORBIDDEN_GLOBALS : list string := ["-c"; "--config-env"; "--exec-path"; "--paginate"; "-p"].
Definition _GIT_DIFF_FORBIDDEN : list string := ["--output"; "--ext-diff"; "--textconv"].
Definition _GIT_BRANCH_MUTATING_FLAGS : list string :=
  ["-d"; "-D"; "-m"; "-M"; "-c"; "-C"; "-f"; "--force"; "-u"; "--set-upstream-to"; "--unset-upstream";
   "--edit-description"; "--delete"; "--move"; "--copy"].
Definition _GIT_BRANCH_QUERY_FLAGS : list string :=
  ["-l"; "--list"; "-v"; "-vv"; "--verbose"; "-a"; "--all"; "-r"; "--remotes"; "-q"; "--quiet"; "--show-current";
   "--contains"; "--no-contains"; "--merged"; "--no-merged"; "--points-at"; "--sort"; "--format"; "--column";
   "--no-column"].
Definition _GIT_BRANCH_SAFE_CLUSTER_LETTERS : string := "lavrq".
Definition _FIND_FORBIDDEN : list string :=
  ["-exec"; "-execdir"; "-ok"; "-okdir"; "-delete"; "-fprint"; "-fprint0"; "-fprintf"; "-fprintf0"; "-fls"].
Definition _MAX_SCRIPT_BYTES : Z := 1024 * 1024.
Definition _MAX_PARSE_DEPTH : nat := 8.

Record ShellWord := MkWord { sw_text : string; sw_literal : bool; sw_quoted : bool; sw_assignment : bool }.
Record ShellCommandNode := MkCommand {
  sc_words : list ShellWord; sc_operator_before : string; sc_redirection : bool; sc_callback : bool
}.
Record ShellAst := MkAst { sh_commands : list ShellCommandNode; sh_operators : list string; sh_features : list string }.
Record ShellAnalysis := MkAnalysis {
  an_status : ShellSemanticStatus; an_read_only : bool; an_requires_approval : bool; an_reason : string;
  an_ast : ShellAst; an_blocked_executable : string
}.

(** [Path(text).name] *)
Fixpoint split_slash (s : string) : list string :=
  match s with
  | EmptyString => [EmptyString]
  | String c r =>
      if byte c =? 47 then EmptyString :: split_slash r
      else match split_slash r with x :: l => String c x :: l | [] => [] end
  end.
Definition path_name (s : string) : string :=
  default EmptyString (last (List.filter (fun x => negb (str_in x [""; "."])) (split_slash s))).
Definition executable (c : ShellCommandNode) : string :=
  match List.find (fun w => negb (sw_assignment w)) (sc_words c) with
  | Some w => path_name (sw_text w)
  | None => EmptyString
  end.

Definition word_canonical (w : ShellWord) : pyval :=
  PDict [("text", PStr (sw_text w)); ("literal", PBool (sw_literal w)); ("quoted", PBool (sw_quoted w));
         ("assignment", PBool (sw_assignment w))].
Definition ast_canonical (a : ShellAst) : pyval :=
  PDict [("commands", PList ((fun c => PDict [
            ("operator_before", PStr (sc_operator_before c)); ("redirection", PBool (sc_redirection c));
            ("callback", PBool (sc_callback c)); ("words", PList (word_canonical <$> sc_words c))]) <$> sh_commands a));
         ("operators", str_list (sh_operators a)); ("features", str_list (sh_features a))].
Definition ast_digest (a : ShellAst) : string := ascii_digest (ast_canonical a).
Definition semantic_digest (a : ShellAnalysis) : string := ast_digest (an_ast a).
Definition executables (a : ShellAnalysis) : list string :=
  List.filter (fun e => negb (str_empty e)) (executable <$> sh_commands (an_ast a)).

(** ** Argument policies *)
Definition args_of (c : ShellCommandNode) : list string := sw_text <$> tail (sc_words c).
Definition meets (l forbidden : list string) : bool := existsb (fun x => str_in x forbidden) l.

Definition branch_flag (arg : string) : option bool :=
  (* [None]: refuse; [Some b]: accepted, [b] when it is a query flag *)
  if has_prefix "--" arg then
    let option := before_equals arg in
    if str_in option _GIT_BRANCH_MUTATING_FLAGS then None
    else if negb (str_in option _GIT_BRANCH_QUERY_FLAGS) then None
    else Some (negb (bool_decide (option = "--show-current")))
  else if has_prefix "-" arg && (1 <? py_len arg) then
    if str_in arg _GIT_BRANCH_MUTATING_FLAGS then None
    else if str_in arg _GIT_BRANCH_QUERY_FLAGS then Some true
    else if (2 <? py_len arg) && forallb (char_in _GIT_BRANCH_SAFE_CLUSTER_LETTERS) (tail (chars arg)) then Some true
    else None
  else Some false.
Definition _git_branch_argv_is_query_only (args : list string) : bool :=
  match args with
  | [] => true
  | _ =>
      let flags := branch_flag <$> args in
      if existsb (fun f => bool_decide (f = None)) flags then false
      else
        let saw_query_flag := existsb (fun f => bool_decide (f = Some true)) flags in
        let positionals := List.filter (fun a => negb (has_prefix "-" a)) args in
        negb (negb (match positionals with [] => true | _ => false end) && negb saw_query_flag)
  end.

(** The options before the subcommand: [None] when one is forbidden *)
Fixpoint skip_globals (args : list string) : option (list string) :=
  match args with
  | [] => Some []
  | a :: r =>
      if has_prefix "-" a
      then if str_in (before_equals a) _GIT_FORBIDDEN_GLOBALS then None else skip_globals r
      else Some args
  end.
Definition _git_argv_is_read_only (c : ShellCommandNode) : bool :=
  match skip_globals (args_of c) with
  | None | Some [] => false
  | Some (subcommand :: rest) =>
      if bool_decide (subcommand = "branch") then _git_branch_argv_is_query_only rest
      else if str_in subcommand ["status"; "rev-parse"; "ls-files"]
      then negb (existsb (has_prefix "--output") rest)
      else if str_in subcommand ["diff"; "log"; "show"]
      then negb (meets (before_equals <$> rest) _GIT_DIFF_FORBIDDEN)
      else if bool_decide (subcommand = "cat-file")
      then negb (existsb (has_prefix "--batch-command") rest)
      else false
  end.
Definition _find_argv_is_read_only (c : ShellCommandNode) : bool :=
  negb (meets (before_equals <$> args_of c) _FIND_FORBIDDEN).

Definition _command_is_literal_read_only (c : ShellCommandNode) : bool :=
  let raw_word := match List.find (fun w => negb (sw_assignment w)) (sc_words c) with
    | Some w => sw_text w | None => EmptyString end in
  let exe := executable c in
  if negb (bool_decide (raw_word = exe)) then false
  else if str_in exe MUTATING_EXECUTABLES || str_in exe SHELL_EVALUATORS
  then if bool_decide (exe = "git") then _git_argv_is_read_only c else false
  else if bool_decide (exe = "find") then _find_argv_is_read_only c
  else if negb (str_in exe READ_ONLY_EXECUTABLES) then false
  else negb (meets (before_equals <$> args_of c) CALLBACK_OPTIONS).

(** ** Lexical helpers *)
Definition OPERATORS : list (list string) := Eval vm_compute in
  chars <$> ["<<<"; "&>>"; "<<-"; ">>&"; "<("; ">("; "&&"; "||"; "|&"; ">>"; "<<"; "<>"; ">&"; "<&"; ">|"; ";;&";
             ";;"; ";&"].
Definition _operator_at (rest : list string) : list string :=
  match List.find (fun op => starts_with op rest) OPERATORS with
  | Some op => op
  | None => match rest with c :: _ => if char_in "|;&()<>" c then [c] else [] | [] => [] end
  end.

(** The index of the next unescaped backtick *)
Fixpoint _find_backtick (l : list string) : option nat :=
  match l with
  | [] => None
  | c :: r =>
      if bool_decide (c = BACKSLASH) then match r with [] => None | _ :: r' => (fun n => S (S n)) <$> _find_backtick r' end
      else if bool_decide (c = BACKTICK) then Some O
      else S <$> _find_backtick r
  end.

(** The index of the delimiter that closes [depth] open ones; [quote] is the open
    quotation mark, if any. *)
Fixpoint _matching_delimiter (opening closing : string) (depth : nat) (quote : option string) (l : list string)
    : option nat :=
  match l with
  | [] => None
  | c :: r =>
      if bool_decide (c = BACKSLASH)
      then match r with
           | [] => None
           | _ :: r' => (fun n => S (S n)) <$> _matching_delimiter opening closing depth quote r'
           end
      else
        match quote with
        | Some q =>
            S <$> _matching_delimiter opening closing depth (if bool_decide (c = q) then None else Some q) r
        | None =>
            if bool_decide (c = SQUOTE) || bool_decide (c = DQUOTE)
            then S <$> _matching_delimiter opening closing depth (Some c) r
            else if bool_decide (c = opening) then S <$> _matching_delimiter opening closing (S depth) None r
            else if bool_decide (c = closing)
            then match depth with
                 | S O => Some O
                 | _ => S <$> _matching_delimiter opening closing (pred depth) None r
                 end
            else S <$> _matching_delimiter opening closing depth None r
        end
  end.

Fixpoint ident_length (l : list string) : nat :=
  match l with c :: r => if char_test is_ident c then S (ident_length r) else O | [] => O end.

Definition set_add (f : string) (l : list string) : list string := if str_in f l then l else l ++ [f].
Definition set_update (fs l : list string) : list string := foldl (fun acc f => set_add f acc) l fs.

Section Parser.
(** Whether a nested script is blocked *)
Variable nested_blocks : list string -> bool.

(** [rest] starts at position [index].  The result is the number of characters
    the caller skips: for a closed expansion, the position after its end. *)
Definition _consume_expansion (index : nat) (rest : list string) : option (nat * list string * bool) :=
  match rest with
  | c :: ((n :: _) as tail1) =>
      if negb (bool_decide (c = "$")) then None
      else if starts_with ["("; "("] tail1 then
        let end_ := _matching_delimiter "(" ")" 1 None (drop 3 rest) in
        Some (match end_ with Some k => (index + 3 + k + 1)%nat | None => length rest end, ["arithmetic-expansion"], false)
      else if bool_decide (n = "(") then
        let end_ := _matching_delimiter "(" ")" 1 None (drop 2 rest) in
        let inner := match end_ with Some k => take k (drop 2 rest) | None => [] end in
        Some (match end_ with Some k => (index + 2 + k + 1)%nat | None => length rest end, ["command-substitution"],
              match inner with [] => false | _ => nested_blocks inner end)
      else if bool_decide (n = "{") then
        let end_ := _matching_delimiter "{" "}" 1 None (drop 2 rest) in
        Some (match end_ with Some k => (index + 2 + k + 1)%nat | None => length rest end, ["parameter-expansion"], false)
      else if char_in "@$?*!#-0123456789" n then Some (2%nat, ["parameter-expansion"], false)
      else if char_test is_ident_start n then Some (S (ident_length tail1), ["parameter-expansion"], false)
      else None
  | _ => None
  end.

(** From position [index] inside double quotes: the position of the closing
    quotation mark, the features and whether a nested script is blocked *)
Fixpoint _consume_double_quote (fuel : nat) (index : nat) (rest : list string) (features : list string)
    (blocked : bool) : option nat * list string * bool :=
  match fuel, rest with
  | S fuel', c :: r =>
      if bool_decide (c = BACKSLASH) then _consume_double_quote fuel' (index + 2) (drop 2 rest) features blocked
      else if bool_decide (c = DQUOTE) then (Some index, features, blocked)
      else
        match _consume_expansion index rest with
        | Some (consumed, found, b) =>
            _consume_double_quote fuel' (index + consumed) (drop consumed rest) (set_update found features) (blocked || b)
        | None =>
            if bool_decide (c = BACKTICK) then
              let features' := set_add "command-substitution" features in
              match _find_backtick r with
              | Some k => _consume_double_quote fuel' (index + k + 2) (drop (k + 2) rest) features'
                            (blocked || nested_blocks (take k r))
              | None => (None, features', blocked)
              end
            else _consume_double_quote fuel' (S index) r features blocked
        end
  | _, _ => (None, features, blocked)
  end.

(** The local variables of [_parse] *)
Record PState := MkP {
  ps_commands : list ShellCommandNode; ps_operators : list string; ps_features : list string;
  ps_words : list ShellWord; ps_current : list string; ps_literal : bool; ps_quoted : bool;
  ps_redirection : bool; ps_callback : bool; ps_operator_before : string; ps_nested_blocked : bool;
  ps_heredoc : option string; ps_heredoc_pending : bool; ps_word_start : bool
}.
Definition p_init : PState := MkP [] [] [] [] [] true false false false "" false None false true.

(** [_ASSIGNMENT_RE.match(text)] *)
Fixpoint assignment_tail (l : list string) : bool :=
  match l with
  | [] => false
  | c :: r => bool_decide (c = "=") || (char_test is_ident c && assignment_tail r)
  end.
Definition is_assignment (l : list string) : bool :=
  match l with [] => false | c :: r => char_test is_ident_start c && assignment_tail r end.

Definition flush_word (s : PState) : PState :=
  match ps_current s with
  | [] => s
  | current =>
      let text := text_of current in
      let assignment := is_assignment current && match ps_words s with [] => true | _ => false end in
      let starts := ps_heredoc_pending s && match ps_heredoc s with None => true | Some _ => false end in
      MkP (ps_commands s) (ps_operators s) (ps_features s)
        (ps_words s ++ [MkWord text (ps_literal s) (ps_quoted s) assignment]) [] true false (ps_redirection s)
        (ps_callback s) (ps_operator_before s) (ps_nested_blocked s)
        (if starts then Some text else ps_heredoc s) (if starts then false else ps_heredoc_pending s) true
  end.

Definition flush_command (s : PState) : PState :=
  let callback := ps_callback s || meets ((fun w => before_equals (sw_text w)) <$> tail (ps_words s)) CALLBACK_OPTIONS in
  let '(commands, features) :=
    match ps_words s with
    | [] => (ps_commands s, ps_features s)
    | ws => (ps_commands s ++ [MkCommand ws (ps_operator_before s) (ps_redirection s) callback],
             if callback then set_add "executable-callback" (ps_features s) else ps_features s)
    end in
  MkP commands (ps_operators s) features [] (ps_current s) (ps_literal s) (ps_quoted s) false false ""
    (ps_nested_blocked s) (ps_heredoc s) (ps_heredoc_pending s) (ps_word_start s).

(** Assignments to single variables *)
Definition mark_features (fs : list string) (s : PState) : PState :=
  MkP (ps_commands s) (ps_operators s) (set_update fs (ps_features s)) (ps_words s) (ps_current s) (ps_literal s)
    (ps_quoted s) (ps_redirection s) (ps_callback s) (ps_operator_before s) (ps_nested_blocked s) (ps_heredoc s)
    (ps_heredoc_pending s) (ps_word_start s).
Definition mark_unknown (f : string) : PState -> PState := mark_features [f].
Definition extend_current (l : list string) (literal quoted : bool) (s : PState) : PState :=
  MkP (ps_commands s) (ps_operators s) (ps_features s) (ps_words s) (ps_current s ++ l) (ps_literal s && literal)
    (ps_quoted s || quoted) (ps_redirection s) (ps_callback s) (ps_operator_before s) (ps_nested_blocked s)
    (ps_heredoc s) (ps_heredoc_pending s) false.
Definition note_blocked (b : bool) (s : PState) : PState :=
  MkP (ps_commands s) (ps_operators s) (ps_features s) (ps_words s) (ps_current s) (ps_literal s) (ps_quoted s)
    (ps_redirection s) (ps_callback s) (ps_operator_before s) (ps_nested_blocked s || b) (ps_heredoc s)
    (ps_heredoc_pending s) (ps_word_start s).
Definition push_operator (op : string) (s : PState) : PState :=
  MkP (ps_commands s) (ps_operators s ++ [op]) (ps_features s) (ps_words s) (ps_current s) (ps_literal s) (ps_quoted s)
    (ps_redirection s) (ps_callback s) (ps_operator_before s) (ps_nested_blocked s) (ps_heredoc s)
    (ps_heredoc_pending s) (ps_word_start s).
Definition set_before (op : string) (s : PState) : PState :=
  MkP (ps_commands s) (ps_operators s) (ps_features s) (ps_words s) (ps_current s) (ps_literal s) (ps_quoted s)
    (ps_redirection s) (ps_callback s) op (ps_nested_blocked s) (ps_heredoc s) (ps_heredoc_pending s) (ps_word_start s).
Definition set_redirection (s : PState) : PState :=
  MkP (ps_commands s) (ps_operators s) (ps_features s) (ps_words s) (ps_current s) (ps_literal s) (ps_quoted s)
    true (ps_callback s) (ps_operator_before s) (ps_nested_blocked s) (ps_heredoc s) (ps_heredoc_pending s)
    (ps_word_start s).
Definition set_heredoc (h : option string) (pending : bool) (s : PState) : PState :=
  MkP (ps_commands s) (ps_operators s) (ps_features s) (ps_words s) (ps_current s) (ps_literal s) (ps_quoted s)
    (ps_redirection s) (ps_callback s) (ps_operator_before s) (ps_nested_blocked s) h pending (ps_word_start s).
Definition set_word_start (b : bool) (s : PState) : PState :=
  MkP (ps_commands s) (ps_operators s) (ps_features s) (ps_words s) (ps_current s) (ps_literal s) (ps_quoted s)
    (ps_redirection s) (ps_callback s) (ps_operator_before s) (ps_nested_blocked s) (ps_heredoc s)
    (ps_heredoc_pending s) b.
Definition mark_nonliteral (s : PState) : PState :=
  MkP (ps_commands s) (ps_operators s) (ps_features s) (ps_words s) (ps_current s) false (ps_quoted s)
    (ps_redirection s) (ps_callback s) (ps_operator_before s) (ps_nested_blocked s) (ps_heredoc s)
    (ps_heredoc_pending s) (ps_word_start s).

(** [line.rstrip("\r")] *)
Definition rstrip_returns (l : list string) : list string :=
  rev ((fix go l := match l with c :: r => if bool_decide (c = RETURN) then go r else l | [] => [] end) (rev l)).

Definition REDIRECTION_FREE : list string := ["<"; ">"; ">>"; "<>"; "|"; "|&"; "||"; "&&"; ";"; "&"; NEWLINE].
Definition CONTROL_OPERATORS : list string := ["|"; "|&"; "||"; "&&"; ";"; "&"].

Definition on_operator (op : list string) (s : PState) : PState :=
  let name := text_of op in
  let s1 := push_operator name (flush_word s) in
  let s2 :=
    if has_prefix "<" name || has_prefix ">" name || str_in name ["&>"; "&>>"] then
      let s' := mark_unknown "redirection" (set_redirection s1) in
      if has_prefix "<<" name then mark_unknown "heredoc" (set_heredoc (ps_heredoc s') true s') else s'
    else if str_in name ["("; ")"] then mark_unknown "subshell" s1
    else if str_in name [";;"; ";&"; ";;&"] then mark_unknown "compound-command" s1
    else s1 in
  let s3 := if str_in name ["<("; ">("] then mark_unknown "process-substitution" s2 else s2 in
  let s4 := if str_in name REDIRECTION_FREE then s3 else mark_unknown "shell-operator" s3 in
  let s5 := if str_in name CONTROL_OPERATORS then set_before name (flush_command s4) else s4 in
  set_word_start true s5.

Definition on_plain (c : string) (s : PState) : PState :=
  let s1 :=
    if char_in "*?[" c then mark_nonliteral (mark_unknown "glob-expansion" s)
    else if bool_decide (c = "{") || bool_decide (c = "}") then mark_nonliteral (mark_unknown "brace-expansion" s)
    else if bool_decide (c = "~") && ps_word_start s then mark_nonliteral (mark_unknown "tilde-expansion" s)
    else s in
  let s2 :=
    if bool_decide (c = "=") && negb (match ps_current s1 with [] => true | _ => false end)
       && match ps_words s1 with [] => true | _ => false end
    then mark_unknown "environment-assignment" s1 else s1 in
  extend_current [c] true false s2.

(** One iteration of the loop: the number of characters consumed, [None] for
    [break] *)
Definition parse_step (index : nat) (rest : list string) (s : PState) : option nat * PState :=
  match ps_heredoc s, rest with
  | _, [] => (None, s)
  | Some delimiter, _ =>
      let newline := find_char NEWLINE rest in
      let line := text_of (rstrip_returns (match newline with Some k => take k rest | None => rest end)) in
      let s' := if bool_decide (line = delimiter) || bool_decide (line = "-" +:+ delimiter)
                then set_heredoc None (ps_heredoc_pending s) s else s in
      (Some (match newline with Some k => S k | None => length rest end), s')
  | None, c :: r =>
      if bool_decide (c = BACKSLASH) then
        match r with
        | [] => (Some 1%nat, mark_unknown "trailing-escape" s)
        | n :: _ => (Some 2%nat, extend_current [n] true true s)
        end
      else if bool_decide (c = SQUOTE) then
        match find_char SQUOTE r with
        | None => (None, mark_unknown "unterminated-single-quote" s)
        | Some k => (Some (k + 2)%nat, extend_current (take k r) true true s)
        end
      else if bool_decide (c = DQUOTE) then
        let '(end_, quote_features, blocked) := _consume_double_quote (length r) (S index) r [] false in
        let s1 := note_blocked blocked (mark_features quote_features s) in
        match end_ with
        | None => (None, mark_unknown "unterminated-double-quote" s1)
        | Some e =>
            (Some (e + 1 - index)%nat,
             extend_current (take (e - S index) r) (match quote_features with [] => true | _ => false end) true s1)
        end
      else if bool_decide (c = " ") || bool_decide (c = TAB) || bool_decide (c = RETURN) then (Some 1%nat, flush_word s)
      else if bool_decide (c = NEWLINE) then
        let s1 := flush_word s in
        match ps_heredoc s1 with
        | Some _ => (Some 1%nat, s1)
        | None => (Some 1%nat, set_word_start true (set_before "newline" (push_operator "newline" (flush_command s1))))
        end
      else if bool_decide (c = "#") && ps_word_start s then
        (Some (match find_char NEWLINE rest with Some k => k | None => length rest end), mark_features ["comment"] s)
      else
        match _consume_expansion index rest with
        | Some (consumed, found, blocked) =>
            (Some consumed, extend_current (take consumed rest) false false (note_blocked blocked (mark_features found s)))
        | None =>
            if bool_decide (c = BACKTICK) then
              let s1 := mark_unknown "command-substitution" s in
              match _find_backtick r with
              | Some k =>
                  let inner := take k r in
                  let b := match inner with [] => false | _ => nested_blocks inner end in
                  (Some (k + 2)%nat, extend_current (take (k + 2) rest) false false (note_blocked b s1))
              | None => (Some (length rest), extend_current rest false false s1)
              end
            else
              match _operator_at rest with
              | [] => (Some 1%nat, on_plain c s)
              | op => (Some (length op), on_operator op s)
              end
        end
  end.

Fixpoint parse_loop (fuel : nat) (index : nat) (rest : list string) (s : PState) : PState :=
  match fuel, rest with
  | S fuel', _ :: _ =>
      match parse_step index rest s with
      | (None, s') => s'
      | (Some n, s') => parse_loop fuel' (index + n) (drop n rest) s'
      end
  | _, _ => s
  end.

Definition _parse (script : list string) : ShellAst * bool :=
  let s := flush_command (flush_word (parse_loop (length script) 0 script p_init)) in
  let s' := match ps_heredoc s with Some _ => mark_unknown "unterminated-heredoc" s | None => s end in
  (MkAst (ps_commands s') (ps_operators s') (py_sorted (ps_features s')), ps_nested_blocked s').
End Parser.

(** ** Analysis *)
Definition unknown_analysis (reason : string) (ast : ShellAst) : ShellAnalysis :=
  MkAnalysis SEMANTIC_UNKNOWN false true reason ast "".
Definition safe_analysis (reason : string) (ast : ShellAst) : ShellAnalysis :=
  MkAnalysis SAFE true false reason ast "".

(** The checks on the commands, in order; [None] when all pass *)
Fixpoint check_commands (ast : ShellAst) (commands : list ShellCommandNode) : option ShellAnalysis :=
  match commands with
  | [] => None
  | c :: rest =>
      match sc_words c with
      | [] => check_commands ast rest
      | ws =>
          if sc_redirection c || sc_callback c
          then Some (unknown_analysis "shell command has redirection or executable callback semantics" ast)
          else if existsb (fun w => negb (sw_literal w) || sw_assignment w) ws
          then Some (unknown_analysis "shell command contains non-literal words or assignments" ast)
          else if negb (_command_is_literal_read_only c)
          then Some (unknown_analysis ("argv semantic policy does not prove read-only: " +:+ executable c) ast)
          else check_commands ast rest
      end
  end.

Definition classify (ast : ShellAst) (nested_blocked : bool) : ShellAnalysis :=
  let blocked := default EmptyString
    (List.find (fun e => str_in e BLOCKED_EXECUTABLES) (executable <$> sh_commands ast)) in
  if negb (str_empty blocked) || nested_blocked
  then MkAnalysis SHELL_BLOCKED false true
         ("blocked executable in shell graph: " +:+ (if str_empty blocked then "nested command" else blocked)) ast blocked
  else
    match List.filter (fun f => negb (bool_decide (f = "comment"))) (sh_features ast) with
    | (_ :: _) as unknown =>
        unknown_analysis ("shell semantic graph is not proven literal: " +:+ join ", " unknown) ast
    | [] =>
        match sh_commands ast with
        | [] => safe_analysis "no executable command" ast
        | commands => default (safe_analysis "literal read-only executable graph" ast) (check_commands ast commands)
        end
    end.

(** [levels] is the number of nesting levels left, [_MAX_PARSE_DEPTH + 1] at the
    top. *)
Fixpoint analyze_levels (levels : nat) (script : list string) : ShellAnalysis :=
  if str_empty (py_strip (text_of script)) then safe_analysis "empty shell script" (MkAst [] [] [])
  else if _MAX_SCRIPT_BYTES <? Z.of_nat (String.length (text_of script))
  then unknown_analysis "shell script exceeds semantic parser budget" (MkAst [] [] ["script-size"])
  else
    match levels with
    | O => unknown_analysis "shell expansion nesting exceeds semantic parser budget" (MkAst [] [] ["expansion-depth"])
    | S levels' =>
        let nested inner := bool_decide (an_status (analyze_levels levels' inner) = SHELL_BLOCKED) in
        let '(ast, nested_blocked) := _parse nested script in classify ast nested_blocked
    end.

(** [script.encode("utf-8")] raises on a lone surrogate; nested scripts are parts
    of the script. *)
Definition analyze_shell_script (script : string) : res ShellAnalysis :=
  if negb (str_empty (py_strip script)) && has_surrogate script
  then Raise (Exn UnicodeEncodeError "surrogates not allowed")
  else Ok (analyze_levels (S _MAX_PARSE_DEPTH) (chars script)).

Definition analyze_argv (argv : list string) : ShellAnalysis :=
  let words := (fun a => MkWord a true false false) <$> List.filter (fun a => negb (str_empty a)) argv in
  let command := MkCommand words "" false false in
  match words with
  | [] => unknown_analysis "argv is empty" (MkAst [] [] [])
  | _ =>
      let ast := MkAst [command] [] [] in
      if str_in (executable command) BLOCKED_EXECUTABLES
      then MkAnalysis SHELL_BLOCKED false true ("blocked executable: " +:+ executable command) ast (executable command)
      else if _command_is_literal_read_only command then safe_analysis "literal read-only argv policy" ast
      else unknown_analysis ("argv semantic policy does not prove read-only: " +:+ executable command) ast
  end.

(** ** The terminal tool's verdicts ([tools/terminal_tools.py]) *)
(** The set literal [DANGEROUS_PATTERNS]; its iteration order is not specified, so
    [evaluate_command_safety] takes it as an argument. *)
Definition DANGEROUS_PATTERNS : list string := ["rm -rf /"; "rm -fr /"; ":(){"; "mkfs"; "diskutil erase"].

(** [str.lower] on the code points whose lower case has an ASCII character: the
    ASCII capitals, the Kelvin sign and the dotted capital I.  Every other code
    point is kept, which no search for an ASCII pattern can tell. *)
Definition lower_char (c : string) : list string :=
  if bool_decide (c = "K") then ["k"]
  else if bool_decide (c = "İ") then ["i"; "̇"]
  else match ascii_of_char c with
       | Some a => [String (if between 65 90 (byte a) then chr (byte a + 32) else a) EmptyString]
       | None => [c]
       end.
Definition lower_chars (l : list string) : list string := concat (lower_char <$> l).
(** [pattern in text] *)
Fixpoint contains (p l : list string) : bool :=
  starts_with p l || match l with [] => false | _ :: r => contains p r end.

(** [shlex.quote], [shlex.join] *)
Definition shlex_safe (a : ascii) : bool := is_ident a || char_in "@%+=:,./-" (String a EmptyString).
Definition shlex_quote (w : list string) : list string :=
  match w with
  | [] => [SQUOTE; SQUOTE]
  | _ =>
      if forallb (char_test shlex_safe) w then w
      else SQUOTE :: concat ((fun c => if bool_decide (c = SQUOTE)
                                       then [SQUOTE; DQUOTE; SQUOTE; DQUOTE; SQUOTE] else [c]) <$> w) ++ [SQUOTE]
  end.
Fixpoint shlex_join (ws : list (list string)) : list string :=
  match ws with
  | [] => []
  | [w] => shlex_quote w
  | w :: r => shlex_quote w ++ " " :: shlex_join r
  end.

Record CommandSafety := MkSafety {
  cs_segments : list string; cs_base_commands : list string; cs_read_only : bool; cs_requires_confirmation : bool;
  cs_blocked : bool; cs_reason : string; cs_semantic_status : string; cs_semantic_digest : string;
  cs_features : list string
}.
Definition evaluate_command_safety (patterns : list string) (command : string) : res CommandSafety :=
  let* semantic := analyze_shell_script command in
  let lowered := lower_chars (chars (py_strip command)) in
  let dangerous_pattern := default EmptyString (List.find (fun p => contains (chars p) lowered) patterns) in
  let nodes := List.filter (fun c => match sc_words c with [] => false | _ => true end)
                 (sh_commands (an_ast semantic)) in
  Ok (MkSafety
    ((fun c => text_of (shlex_join ((fun w => chars (sw_text w)) <$> sc_words c))) <$> nodes)
    (executables semantic) (an_read_only semantic) (an_requires_approval semantic)
    (bool_decide (an_status semantic = SHELL_BLOCKED) || negb (str_empty dangerous_pattern))
    (if str_empty dangerous_pattern then an_reason semantic else dangerous_pattern)
    (shell_status_value (an_status semantic)) (semantic_digest semantic) (sh_features (an_ast semantic))).
Definition evaluate_argv_safety (argv : list string) : CommandSafety :=
  let semantic := analyze_argv argv in
  MkSafety (match argv with [] => [] | _ => [text_of (shlex_join (chars <$> argv))] end)
    (executables semantic) (an_read_only semantic) (an_requires_approval semantic)
    (bool_decide (an_status semantic = SHELL_BLOCKED)) (an_reason semantic) (shell_status_value (an_status semantic))
    (semantic_digest semantic) (sh_features (an_ast semantic)).
Definition is_read_only_command (patterns : list string) (command : string) : res bool :=
  let* safety := evaluate_command_safety patterns command in Ok (cs_read_only safety && negb (cs_blocked safety)).
Definition is_read_only_argv (argv : list string) : bool :=
  let safety := evaluate_argv_safety argv in cs_read_only safety && negb (cs_blocked safety).
