(* ===== verification/ShellLexing.v ===== *)
(** * The literal shell fragment

    A reference lexer of the part of the shell language that the analysis of
    [ShellSemantics] may call safe: words, quotation, blanks, comments and control
    operators, read one character at a time.  It refuses every character that
    makes the shell expand, redirect or open a compound command.  The theorems
    compare it with the parser of [security/shell_semantics.py], which jumps over
    quotations and operators and collects features instead of refusing. *)
From Stdlib Require Import Ascii.
From S2P Require Import Prelude PyStr Json PyValue Sha256 Authority ShellSemantics.
Open Scope Z_scope.

(** ** The reference lexer *)
Inductive lexmode := Plain | Single | Double | Comment.

(** The commands read so far, the words of the current one and the open word *)
Record LexState := MkLex {
  lx_cmds : list (list (list string)); lx_words : list (list string); lx_word : option (list string)
}.
Definition lex_init : LexState := MkLex [] [] None.
Definition begin_word (st : LexState) : LexState := MkLex (lx_cmds st) (lx_words st) (Some (default [] (lx_word st))).
Definition add_chars (l : list string) (st : LexState) : LexState :=
  MkLex (lx_cmds st) (lx_words st) (Some (default [] (lx_word st) ++ l)).
Definition end_word (st : LexState) : LexState :=
  match lx_word st with
  | None => st
  | Some w => MkLex (lx_cmds st) (lx_words st ++ [w]) None
  end.
Definition end_command (st : LexState) : LexState :=
  match lx_words (end_word st) with
  | [] => end_word st
  | ws => MkLex (lx_cmds st ++ [ws]) [] None
  end.

(** [$] begins an expansion *)
Definition dollar_expands (l : list string) : bool :=
  match l with
  | c :: n :: _ => bool_decide (c = "$") && (char_in "({@$?*!#-0123456789" n || char_test is_ident_start n)
  | _ => false
  end.
Definition double_semicolon (c : string) (r : list string) : bool :=
  bool_decide (c = ";") && match r with n :: _ => char_in ";&" n | [] => false end.
Definition word_open (st : LexState) : bool := match lx_word st with Some _ => true | None => false end.

Fixpoint lex (m : lexmode) (st : LexState) (l : list string) : option (list (list (list string))) :=
  match l with
  | [] => match m with Plain | Comment => Some (lx_cmds (end_command st)) | _ => None end
  | c :: r =>
      match m with
      | Single => if bool_decide (c = SQUOTE) then lex Plain st r else lex Single (add_chars [c] st) r
      | Double =>
          if bool_decide (c = DQUOTE) then lex Plain st r
          else if dollar_expands l || bool_decide (c = BACKTICK) then None
          else lex Double (add_chars [c] st) r
      | Comment => if bool_decide (c = NEWLINE) then lex Plain (end_command st) r else lex Comment st r
      | Plain =>
          if bool_decide (c = SQUOTE) then lex Single (begin_word st) r
          else if bool_decide (c = DQUOTE) then lex Double (begin_word st) r
          else if bool_decide (c = " ") || bool_decide (c = TAB) then lex Plain (end_word st) r
          else if bool_decide (c = NEWLINE) then lex Plain (end_command st) r
          else if bool_decide (c = "#") && negb (word_open st) then lex Comment st r
          else if dollar_expands l || bool_decide (c = BACKTICK) || char_in "<>()" c || double_semicolon c r then None
          else if char_in "|;&" c then lex Plain (end_command st) r
          else if char_in "*?[{}" c || bool_decide (c = "~") && negb (word_open st)
                  || bool_decide (c = "=") && word_open st && bool_decide (lx_words st = []) then None
          else lex Plain (add_chars [c] st) r
      end
  end.
Definition literal_graph (script : list string) : option (list (list (list string))) := lex Plain lex_init script.

(** The scripts compared: no escape, no carriage return, no empty quotation and no
    [$] in front of a quotation mark or a bracket *)
Definition odd_pair (a b : string) : bool :=
  bool_decide (a = SQUOTE) && bool_decide (b = SQUOTE) || bool_decide (a = DQUOTE) && bool_decide (b = DQUOTE)
  || bool_decide (a = "$") && (bool_decide (b = SQUOTE) || bool_decide (b = DQUOTE) || bool_decide (b = "[")).
Fixpoint ordinary (l : list string) : bool :=
  match l with
  | [] => true
  | c :: r =>
      negb (bool_decide (c = BACKSLASH) || bool_decide (c = RETURN))
      && match r with d :: _ => negb (odd_pair c d) | [] => true end && ordinary r
  end.

(** ** What the policies say of a literal graph *)
Definition word_of (assignment : bool) (w : list string) : ShellWord := MkWord (text_of w) true false assignment.
Definition command_of (ws : list (list string)) : ShellCommandNode :=
  MkCommand (match ws with [] => [] | w :: r => word_of (is_assignment w) w :: (word_of false <$> r) end) "" false false.
Definition has_callback (ws : list (list string)) : bool :=
  meets ((fun w => before_equals (text_of w)) <$> tail ws) CALLBACK_OPTIONS.
Definition command_allowed (ws : list (list string)) : bool :=
  negb (match ws with [] => false | w :: _ => is_assignment w end) && negb (has_callback ws)
  && _command_is_literal_read_only (command_of ws).
Definition graph_status (g : list (list (list string))) : ShellSemanticStatus :=
  if existsb (fun ws => str_in (executable (command_of ws)) BLOCKED_EXECUTABLES) g then SHELL_BLOCKED
  else if forallb command_allowed g then SAFE else SEMANTIC_UNKNOWN.

(** ** The simulation *)
Definition word_view (w : ShellWord) : string * bool * bool := (sw_text w, sw_literal w, sw_assignment w).
Definition cmd_view (c : ShellCommandNode) : list (string * bool * bool) * bool * bool :=
  (word_view <$> sc_words c, sc_redirection c, sc_callback c).
Definition ref_views (ws : list (list string)) : list (string * bool * bool) := word_view <$> sc_words (command_of ws).
Definition ref_view (ws : list (list string)) : list (string * bool * bool) * bool * bool :=
  (ref_views ws, false, has_callback ws).

Record sim (st : LexState) (s : PState) : Prop := MkSim {
  sim_cmds : cmd_view <$> ps_commands s = ref_view <$> lx_cmds st;
  sim_nonempty : Forall (fun ws => ws ≠ []) (lx_cmds st);
  sim_words : word_view <$> ps_words s = ref_views (lx_words st);
  sim_current : ps_current s = default [] (lx_word st);
  sim_open : lx_word st ≠ Some [];
  sim_start : ps_word_start s = negb (word_open st);
  sim_literal : ps_literal s = true;
  sim_redirection : ps_redirection s = false;
  sim_nocallback : ps_callback s = false;
  sim_heredoc : ps_heredoc s = None;
  sim_pending : ps_heredoc_pending s = false;
  sim_nested : ps_nested_blocked s = false;
  sim_features : forall f, f ∈ ps_features s -> f = "comment" \/ f = "executable-callback";
  sim_callback : "executable-callback" ∈ ps_features s <-> existsb has_callback (lx_cmds st) = true
}.

Lemma elem_of_set_add f g l : f ∈ set_add g l <-> f = g \/ f ∈ l.
Proof.
  unfold set_add. destruct (str_in g l) eqn:E.
  - apply str_in_true in E. split; [tauto | intros [-> | ?]; done].
  - rewrite elem_of_app, list_elem_of_singleton. tauto.
Qed.
Lemma elem_of_set_update f fs l : f ∈ set_update fs l <-> f ∈ fs \/ f ∈ l.
Proof.
  unfold set_update. revert l. induction fs as [|g fs IH]; intros l; cbn [foldl].
  - split; [tauto | intros [H|H]; [by apply not_elem_of_nil in H | done]].
  - rewrite IH, elem_of_set_add, elem_of_cons. tauto.
Qed.

Lemma ref_views_snoc ws w :
  ref_views (ws ++ [w]) = ref_views ws ++ [(text_of w, true, is_assignment w && match ws with [] => true | _ => false end)].
Proof.
  destruct ws as [|v ws]; unfold ref_views; cbn.
  - by rewrite andb_true_r.
  - rewrite andb_false_r, !fmap_app. done.
Qed.
Lemma ref_views_nil ws : ref_views ws = [] <-> ws = [].
Proof. destruct ws; done. Qed.

Lemma views_empty (l : list ShellWord) ws : word_view <$> l = ref_views ws -> (l = [] <-> ws = []).
Proof. intros H. destruct l, ws; try done; split; done. Qed.

Lemma views_texts (l : list ShellWord) ws : word_view <$> l = ref_views ws -> sw_text <$> l = text_of <$> ws.
Proof.
  intros H. apply (f_equal (fmap (fun v => v.1.1))) in H. revert H. unfold ref_views.
  rewrite <- !list_fmap_compose. intros H. etransitivity; [exact H|].
  destruct ws as [|w ws]; [done|]. cbn. f_equal. rewrite <- list_fmap_compose. done.
Qed.

Lemma views_callback (l : list ShellWord) ws :
  word_view <$> l = ref_views ws ->
  meets ((fun w => before_equals (sw_text w)) <$> tail l) CALLBACK_OPTIONS = has_callback ws.
Proof.
  intros H. apply views_texts in H. unfold has_callback. f_equal.
  trans (before_equals <$> (sw_text <$> tail l)); [by rewrite <- list_fmap_compose|].
  trans (before_equals <$> (text_of <$> tail ws)); [|by rewrite <- list_fmap_compose].
  f_equal. destruct l, ws; simplify_eq/=; done.
Qed.

Lemma sim_flush_word st s : sim st s -> sim (end_word st) (flush_word s).
Proof.
  intros []. unfold flush_word, end_word. rewrite sim_current0.
  destruct (lx_word st) as [[|c w]|] eqn:E; cbn [default from_option]; [done| |by constructor; rewrite ?E].
  constructor; cbn -[ref_views text_of is_assignment]; try done; try (by rewrite sim_pending0).
  rewrite fmap_app, sim_words0, ref_views_snoc. cbn [fmap list_fmap]. unfold word_view at 1. cbn [sw_text sw_literal sw_assignment].
  rewrite sim_literal0. do 4 f_equal. pose proof (views_empty _ _ sim_words0).
  destruct (ps_words s), (lx_words st); cbn in *; try done; naive_solver.
Qed.

Lemma end_word_word st : lx_word (end_word st) = None.
Proof. unfold end_word. destruct (lx_word st) eqn:E; done. Qed.
Lemma end_word_idemp st : end_word (end_word st) = end_word st.
Proof. unfold end_word at 1. by rewrite end_word_word. Qed.
Lemma end_command_word st : lx_word (end_command st) = None.
Proof. unfold end_command. destruct (lx_words (end_word st)); [apply end_word_word | done]. Qed.
Lemma end_command_words st : lx_words (end_command st) = [].
Proof. unfold end_command. destruct (lx_words (end_word st)) eqn:E; done. Qed.
Lemma end_command_end_word st : end_command (end_word st) = end_command st.
Proof.
  unfold end_command. rewrite end_word_idemp. destruct (lx_words (end_word st)); [done|].
  unfold end_word. destruct (lx_word st); done.
Qed.
Lemma end_command_idemp st : end_command (end_command st) = end_command st.
Proof.
  unfold end_command at 1. unfold end_word at 1 2. rewrite end_command_word.
  by rewrite end_command_words.
Qed.

Lemma sim_flush_command st s : lx_word st = None -> sim st s -> sim (end_command st) (flush_command s).
Proof.
  intros Hw []. unfold flush_command, end_command, end_word. rewrite Hw, sim_nocallback0, (views_callback _ _ sim_words0).
  pose proof (views_empty _ _ sim_words0) as He.
  destruct (lx_words st) as [|w ws] eqn:Ew.
  - destruct (ps_words s); [|by destruct (proj2 He eq_refl)]. cbn.
    by constructor; cbn; rewrite ?Ew.
  - destruct (ps_words s) as [|v vs] eqn:Ev; [by destruct (proj1 He eq_refl)|].
    constructor; cbn -[has_callback ref_view ref_views]; try done.
    + rewrite !fmap_app, sim_cmds0. cbn [fmap list_fmap]. f_equal. unfold cmd_view, ref_view.
      cbn [sc_words sc_redirection sc_callback]. by rewrite sim_words0, sim_redirection0.
    + apply Forall_app. by split; [|repeat constructor].
    + by rewrite sim_current0, Hw.
    + by rewrite sim_start0; unfold word_open; rewrite Hw.
    + intros f. destruct (has_callback (w :: ws)); [|by apply sim_features0].
      rewrite elem_of_set_add. intros [-> | Hf]; [by right | by apply sim_features0].
    + rewrite existsb_app. cbn [existsb]. rewrite orb_false_r.
      destruct (has_callback (w :: ws)).
      * rewrite elem_of_set_add, orb_true_r. tauto.
      * by rewrite orb_false_r.
Qed.

(** ** Features are never dropped *)
Lemma flush_word_features s : ps_features (flush_word s) = ps_features s.
Proof. unfold flush_word. destruct (ps_current s); done. Qed.
Lemma flush_command_mono f s : f ∈ ps_features s -> f ∈ ps_features (flush_command s).
Proof.
  intros Hf. unfold flush_command. destruct (ps_words s); [done|].
  destruct (ps_callback s || _); cbn; [|done]. apply elem_of_set_add. by right.
Qed.
Lemma mark_features_elem f fs s : f ∈ ps_features (mark_features fs s) <-> f ∈ fs \/ f ∈ ps_features s.
Proof. apply elem_of_set_update. Qed.
Lemma mark_unknown_elem f g s : f ∈ ps_features (mark_unknown g s) <-> f = g \/ f ∈ ps_features s.
Proof. unfold mark_unknown. by rewrite mark_features_elem, list_elem_of_singleton. Qed.

(** A state with at least the features of [s] *)
Definition grows (s s' : PState) : Prop := forall f, f ∈ ps_features s -> f ∈ ps_features s'.
#[export] Instance grows_refl : Reflexive grows.
Proof. intros s f Hf. exact Hf. Qed.
#[export] Instance grows_trans : Transitive grows.
Proof. intros s1 s2 s3 H1 H2 f Hf. auto. Qed.
Lemma grows_eq s s' : ps_features s' = ps_features s -> grows s s'.
Proof. intros H f Hf. by rewrite H. Qed.
Lemma grows_mark fs s : grows s (mark_features fs s).
Proof. intros f Hf. apply mark_features_elem. by right. Qed.
Lemma grows_if (b : bool) s s1 s2 : grows s s1 -> grows s s2 -> grows s (if b then s1 else s2).
Proof. by destruct b. Qed.
Lemma grows_flush_word s : grows s (flush_word s).
Proof. apply grows_eq, flush_word_features. Qed.
Lemma grows_flush_command s : grows s (flush_command s).
Proof. intros f. apply flush_command_mono. Qed.
Lemma grows_unknown g s : grows s (mark_unknown g s).
Proof. apply grows_mark. Qed.
(** Peels one state operation off the larger side *)
Ltac grow :=
  repeat first
    [ reflexivity | assumption | apply grows_if
    | lazymatch goal with
      | |- grows _ (mark_unknown ?g ?s) => transitivity s; [|apply grows_unknown]
      | |- grows _ (mark_features ?g ?s) => transitivity s; [|apply grows_mark]
      | |- grows _ (flush_word ?s) => transitivity s; [|apply grows_flush_word]
      | |- grows _ (flush_command ?s) => transitivity s; [|apply grows_flush_command]
      | |- grows _ (extend_current _ _ _ ?s) => transitivity s; [|by apply grows_eq]
      | |- grows _ (note_blocked _ ?s) => transitivity s; [|by apply grows_eq]
      | |- grows _ (push_operator _ ?s) => transitivity s; [|by apply grows_eq]
      | |- grows _ (set_before _ ?s) => transitivity s; [|by apply grows_eq]
      | |- grows _ (set_redirection ?s) => transitivity s; [|by apply grows_eq]
      | |- grows _ (set_heredoc _ _ ?s) => transitivity s; [|by apply grows_eq]
      | |- grows _ (set_word_start _ ?s) => transitivity s; [|by apply grows_eq]
      | |- grows _ (mark_nonliteral ?s) => transitivity s; [|by apply grows_eq]
      end ].

Lemma grows_on_operator op s : grows s (on_operator op s).
Proof. unfold on_operator. grow. Qed.
Lemma grows_on_plain c s : grows s (on_plain c s).
Proof. unfold on_plain. grow. Qed.
Lemma parse_step_mono nb i l s : grows s (parse_step nb i l s).2.
Proof.
  unfold parse_step. destruct (ps_heredoc s); destruct l as [|c r]; [done| |done|].
  { cbn [snd]. grow. }
  repeat case_match; simplify_eq; cbn [snd]; grow; auto using grows_on_plain, grows_on_operator.
Qed.
Lemma parse_loop_mono nb fuel i l s : grows s (parse_loop nb fuel i l s).
Proof.
  revert i l s. induction fuel as [|fuel IH]; intros i l s; [done|]. cbn [parse_loop].
  destruct l as [|c r]; [done|]. pose proof (parse_step_mono nb i (c :: r) s) as H.
  destruct (parse_step nb i (c :: r) s) as [[n|] s']; [by transitivity s' | done].
Qed.

(** ** Progress and fuel *)
Lemma find_char_lt c l k : find_char c l = Some k -> (k < length l)%nat.
Proof.
  revert k. induction l as [|x l IH]; intros k; [done|]. cbn. case_bool_decide; [intros [= <-]; lia|].
  destruct (find_char c l) eqn:E; cbn; [intros [= <-] | done]. specialize (IH _ eq_refl). lia.
Qed.
Lemma consume_expansion_pos nb i l n fs b : _consume_expansion nb i l = Some (n, fs, b) -> (1 <= n)%nat /\ fs ≠ [].
Proof.
  unfold _consume_expansion. destruct l as [|c [|d r]]; [done..|].
  repeat case_match; intros; simplify_eq/=; split; done || lia.
Qed.
Lemma operator_at_pos l op : _operator_at l = op -> op ≠ [] -> (1 <= length op)%nat.
Proof. destruct op; [done | cbn; lia]. Qed.

(** A double quotation that ends does so after its beginning *)
Lemma double_quote_end nb fuel i l fs b e fs' b' :
  _consume_double_quote nb fuel i l fs b = (Some e, fs', b') -> (i <= e)%nat.
Proof.
  revert i l fs b. induction fuel as [|fuel IH]; intros i l fs b; [done|]. cbn [_consume_double_quote].
  destruct l as [|c r]; [done|].
  case_bool_decide; [intros Hx%IH; lia|]. case_bool_decide; [intros [= <-]; lia|].
  destruct (_consume_expansion nb i (c :: r)) as [[[n f] b0]|] eqn:E; [intros Hx%IH; lia|].
  case_bool_decide; [|intros Hx%IH; lia].
  destruct (_find_backtick r); [intros Hx%IH; lia | done].
Qed.

(** Each iteration of the parser's loop consumes a character. *)
Lemma parse_step_advances nb i l s n s' : l ≠ [] -> parse_step nb i l s = (Some n, s') -> (1 <= n)%nat.
Proof.
  unfold parse_step. intros Hl. destruct (ps_heredoc s) as [d|]; destruct l as [|c r]; [done| |done|].
  { destruct (find_char NEWLINE (c :: r)); intros [= <- _]; cbn; lia. }
  repeat case_match; intros; simplify_eq; cbn [length]; try lia.
  all: try (match goal with H : _consume_double_quote _ _ _ _ _ _ = _ |- _ => apply double_quote_end in H; lia end).
  all: try (eapply consume_expansion_pos; eassumption).
  match goal with H : find_char _ _ = Some n |- _ => revert H end.
  cbn [find_char]. rewrite H3. destruct (find_char NEWLINE r); intros [= <-]; lia.
Qed.

Lemma parse_loop_fuel nb fuel i l s :
  (length l <= fuel)%nat -> parse_loop nb fuel i l s = parse_loop nb (length l) i l s.
Proof.
  revert i l s. induction fuel as [fuel IH] using lt_wf_ind. intros i l s Hl.
  destruct l as [|c r]; [destruct fuel; done|]. destruct fuel as [|fuel]; [cbn in Hl; lia|].
  cbn [length parse_loop]. destruct (parse_step nb i (c :: r) s) as [[n|] s'] eqn:E; [|done].
  apply parse_step_advances in E; [|done]. destruct n as [|n]; [lia|]. cbn [drop].
  cbn in Hl. pose proof (length_drop r n).
  rewrite (IH fuel), (IH (length r)) by lia. done.
Qed.

Lemma double_quote_fuel nb fuel i l fs b :
  (length l <= fuel)%nat -> _consume_double_quote nb fuel i l fs b = _consume_double_quote nb (length l) i l fs b.
Proof.
  revert i l fs b. induction fuel as [fuel IH] using lt_wf_ind. intros i l fs b Hl.
  destruct l as [|c r]; [destruct fuel; done|]. destruct fuel as [|fuel]; [cbn in Hl; lia|].
  assert (Hd : forall n j fs0 b0, (1 <= n)%nat ->
    _consume_double_quote nb fuel j (drop n (c :: r)) fs0 b0
    = _consume_double_quote nb (length r) j (drop n (c :: r)) fs0 b0).
  { intros [|n] j fs0 b0 Hn; [lia|]. cbn [drop]. cbn in Hl. pose proof (length_drop r n).
    rewrite (IH fuel), (IH (length r)) by lia. done. }
  cbn [length _consume_double_quote].
  case_bool_decide; [apply Hd; lia|]. case_bool_decide; [done|].
  destruct (_consume_expansion nb i (c :: r)) as [[[n f] b0]|] eqn:E; [apply Hd; eapply consume_expansion_pos; exact E|].
  case_bool_decide; [|apply (Hd 1%nat); lia].
  destruct (_find_backtick r); [apply Hd; lia | done].
Qed.

(** ** Quotations *)
Lemma add_chars_app a b st : add_chars b (add_chars a st) = add_chars (a ++ b) st.
Proof. unfold add_chars. cbn. by rewrite app_assoc. Qed.
Lemma add_chars_begin a st : add_chars a (begin_word st) = add_chars a st.
Proof. done. Qed.

Lemma find_char_head_other c x l k : find_char c l = Some k -> head l ≠ Some c -> x = c -> (1 <= k)%nat.
Proof. destruct l as [|y l]; [done|]. cbn. case_bool_decide; [by intros _ ? ?; subst|]. destruct (find_char c l); cbn; [intros [= <-]; lia | done]. Qed.

Lemma lex_single st l :
  lex Single st l = match find_char SQUOTE l with
                    | None => None
                    | Some k => lex Plain (match k with O => st | _ => add_chars (take k l) st end) (drop (S k) l)
                    end.
Proof.
  revert st. induction l as [|c l IH]; intros st; [done|]. cbn [lex find_char].
  case_bool_decide; [done|]. rewrite IH. destruct (find_char SQUOTE l) as [[|k]|]; cbn [fmap option_fmap option_map]; try done.
  by rewrite add_chars_app.
Qed.

Lemma expansion_iff nb i l : _consume_expansion nb i l = None <-> dollar_expands l = false.
Proof.
  unfold _consume_expansion, dollar_expands. destruct l as [|c [|n r]]; [done..|].
  destruct (bool_decide (c = "$")); cbn [negb andb]; [|done].
  destruct (decide (n = "(")) as [->|Hp]; [cbn; repeat case_match; done|].
  assert (Hs : starts_with ["("; "("] (n :: r) = false) by (cbn; by rewrite bool_decide_eq_false_2 by congruence).
  rewrite Hs, (bool_decide_eq_false_2 (n = "(")) by done.
  destruct (decide (n = "{")) as [->|Hb]; [cbn; done|]. rewrite (bool_decide_eq_false_2 (n = "{")) by done.
  assert (Hc : char_in "({@$?*!#-0123456789" n = char_in "@$?*!#-0123456789" n).
  { unfold char_in. change (chars "({@$?*!#-0123456789") with ("(" :: "{" :: chars "@$?*!#-0123456789").
    unfold str_in. apply bool_decide_ext. rewrite !elem_of_cons. tauto. }
  rewrite Hc. destruct (char_in "@$?*!#-0123456789" n); [done|]. by destruct (char_test is_ident_start n).
Qed.


Lemma set_update_nonempty fs l : fs ≠ [] -> set_update fs l ≠ [].
Proof.
  destruct fs as [|f fs]; [done|]. intros _ H.
  assert (Hf : f ∈ set_update (f :: fs) l) by (apply elem_of_set_update; left; left).
  rewrite H in Hf. by apply not_elem_of_nil in Hf.
Qed.
Lemma set_update_keeps fs l : l ≠ [] -> set_update fs l ≠ [].
Proof.
  destruct l as [|f l]; [done|]. intros _ H.
  assert (Hf : f ∈ set_update fs (f :: l)) by (apply elem_of_set_update; right; left).
  rewrite H in Hf. by apply not_elem_of_nil in Hf.
Qed.
Lemma double_quote_keeps nb fuel i l fs b : fs ≠ [] -> (_consume_double_quote nb fuel i l fs b).1.2 ≠ [].
Proof.
  revert i l fs b. induction fuel as [|fuel IH]; intros i l fs b Hf; [done|]. cbn [_consume_double_quote].
  destruct l as [|c r]; [done|].
  case_bool_decide; [by apply IH|]. case_bool_decide; [done|].
  destruct (_consume_expansion nb i (c :: r)) as [[[n f] b0]|]; [by apply IH, set_update_keeps|].
  case_bool_decide; [|by apply IH].
  assert (set_add "command-substitution" fs ≠ []) by by apply (set_update_keeps ["command-substitution"]).
  destruct (_find_backtick r); [by apply IH | done].
Qed.

Lemma expansion_no_comment nb i l n fs b : _consume_expansion nb i l = Some (n, fs, b) -> "comment" ∉ fs.
Proof.
  unfold _consume_expansion. destruct l as [|c [|d r]]; [done..|].
  repeat case_match; intros; simplify_eq; by rewrite list_elem_of_singleton.
Qed.
Lemma double_quote_no_comment nb fuel i l fs b :
  "comment" ∉ fs -> "comment" ∉ (_consume_double_quote nb fuel i l fs b).1.2.
Proof.
  revert i l fs b. induction fuel as [|fuel IH]; intros i l fs b Hf; [done|]. cbn [_consume_double_quote].
  destruct l as [|c r]; [done|].
  case_bool_decide; [by apply IH|]. case_bool_decide; [done|].
  destruct (_consume_expansion nb i (c :: r)) as [[[n f] b0]|] eqn:E.
  { apply IH. rewrite elem_of_set_update. apply expansion_no_comment in E. tauto. }
  case_bool_decide; [|by apply IH].
  assert ("comment" ∉ set_add "command-substitution" fs) by (rewrite elem_of_set_add; naive_solver).
  destruct (_find_backtick r); [by apply IH | done].
Qed.

(** A double quotation either has no expansion and ends at the next mark, or the
    lexer refuses it and the parser reports a feature or no end. *)
Lemma lex_double nb i st l :
  BACKSLASH ∉ l ->
  (exists k, find_char DQUOTE l = Some k
     /\ _consume_double_quote nb (length l) i l [] false = (Some (i + k)%nat, [], false)
     /\ lex Double st l = lex Plain (match k with O => st | _ => add_chars (take k l) st end) (drop (S k) l))
  \/ (lex Double st l = None
      /\ ((_consume_double_quote nb (length l) i l [] false).1.1 = None
          \/ (_consume_double_quote nb (length l) i l [] false).1.2 ≠ [])).
Proof.
  revert i st. induction l as [|c l IH]; intros i st Hb; [right; split; [done | by left]|].
  apply not_elem_of_cons in Hb as [Hc Hb].
  cbn [lex length _consume_double_quote find_char]. rewrite (bool_decide_eq_false_2 (c = BACKSLASH)) by done.
  destruct (bool_decide_reflect (c = DQUOTE)) as [->|Hd].
  { left. exists O. split_and!; try done. by rewrite Nat.add_0_r. }
  destruct (dollar_expands (c :: l)) eqn:Ed; cbn [orb].
  { right. split; [done|]. right.
    destruct (_consume_expansion nb i (c :: l)) as [[[n f] b0]|] eqn:E; [|by apply expansion_iff in E; rewrite Ed in E].
    apply consume_expansion_pos in E as [_ Hf]. by apply double_quote_keeps, set_update_nonempty. }
  apply (expansion_iff nb i) in Ed. rewrite Ed.
  destruct (bool_decide_reflect (c = BACKTICK)).
  { right. split; [done|]. destruct (_find_backtick l); [right | by left]. by apply double_quote_keeps. }
  destruct (IH (S i) (add_chars [c] st) Hb) as [(k & Hk & Hq & Hl)|[Hl Hq]].
  - left. exists (S k). rewrite Hk, Hq, Hl. split_and!; [done| by rewrite Nat.add_succ_r|].
    cbn [take drop]. destruct k; [done|]. by rewrite add_chars_app.
  - right. done.
Qed.

(** ** Operators *)
Definition risky_operator (name : string) : bool :=
  has_prefix "<" name || has_prefix ">" name || str_in name ["&>"; "&>>"] || str_in name ["("; ")"]
  || str_in name [";;"; ";&"; ";;&"].
(** Some feature other than a comment *)
Definition unknown_feature (s : PState) : Prop := exists f, f ∈ ps_features s /\ f ≠ "comment".
Lemma unknown_grows s s' : unknown_feature s -> grows s s' -> unknown_feature s'.
Proof. intros (f & Hf & Hn) H. exists f. auto. Qed.
Lemma unknown_mark f s : f ≠ "comment" -> unknown_feature (mark_unknown f s).
Proof. intros H. exists f. split; [|done]. apply mark_unknown_elem. by left. Qed.

Lemma risky_operator_unknown op s : risky_operator (text_of op) = true -> unknown_feature (on_operator op s).
Proof.
  unfold risky_operator, on_operator. intros Hr. set (s2 := if has_prefix "<" (text_of op) || _ || _ then _ else _).
  apply (unknown_grows s2); [|grow]. subst s2.
  destruct (has_prefix "<" (text_of op) || has_prefix ">" (text_of op) || _).
  - apply (unknown_grows (mark_unknown "redirection" (set_redirection (push_operator (text_of op) (flush_word s)))));
      [by apply unknown_mark | grow].
  - cbn [orb] in Hr. destruct (str_in (text_of op) ["("; ")"]); [by apply unknown_mark|].
    cbn [orb] in Hr. rewrite Hr. by apply unknown_mark.
Qed.
Lemma control_operator_step op s :
  risky_operator (text_of op) = false -> str_in (text_of op) CONTROL_OPERATORS = true ->
  on_operator op s = set_word_start true (set_before (text_of op)
                       (flush_command (push_operator (text_of op) (flush_word s)))).
Proof.
  intros Hr Hc. unfold on_operator, risky_operator in *. rewrite !orb_false_iff in Hr.
  destruct Hr as [[[[-> ->] ->] ->] ->]. rewrite Hc. cbn [orb].
  apply str_in_true in Hc.
  assert (Hx : str_in (text_of op) ["<("; ">("] = false /\ str_in (text_of op) REDIRECTION_FREE = true).
  { unfold CONTROL_OPERATORS in Hc. rewrite !elem_of_cons, elem_of_nil in Hc.
    destruct_or? Hc; try done; rewrite Hc; done. }
  by destruct Hx as [-> ->].
Qed.

Lemma operator_at_cases c r op :
  _operator_at (c :: r) = op ->
  (op = [] /\ char_in "|;&()<>" c = false)
  \/ (op ∈ OPERATORS /\ starts_with op (c :: r) = true)
  \/ (op = [c] /\ char_in "|;&()<>" c = true /\ forall o, o ∈ OPERATORS -> starts_with o (c :: r) = false).
Proof.
  unfold _operator_at. intros <-. destruct (List.find _ OPERATORS) as [o|] eqn:E.
  - apply List.find_some in E as [Hin Hs]. right. left. split; [by apply list_elem_of_In | done].
  - destruct (char_in "|;&()<>" c); [|by left]. right. right. split_and!; [done..|].
    intros o Ho%list_elem_of_In. exact (List.find_none _ _ E _ Ho).
Qed.

Lemma dollar_expands_other c r : bool_decide (c = "$") = false -> dollar_expands (c :: r) = false.
Proof. intros H. destruct r; [done|]. cbn. by rewrite H. Qed.
(** Evaluates the tests of the goal on concrete characters *)
Ltac eval_tests :=
  repeat match goal with
  | |- context [bool_decide (?a = ?b)] =>
      let v := eval vm_compute in (bool_decide (a = b)) in
      lazymatch v with
      | true => change (bool_decide (a = b)) with true
      | false => change (bool_decide (a = b)) with false
      end
  | |- context [char_in ?a ?b] =>
      let v := eval vm_compute in (char_in a b) in
      lazymatch v with true => change (char_in a b) with true | false => change (char_in a b) with false end
  | |- context [dollar_expands (?c :: ?r)] => rewrite (dollar_expands_other c r) by reflexivity
  end; cbn [orb andb negb].

Lemma lex_refused c r st : c ∈ ["<"; ">"; "("; ")"] -> lex Plain st (c :: r) = None.
Proof.
  rewrite !elem_of_cons, elem_of_nil. intros H. destruct_or? H; try done; subst c; cbn [lex]; eval_tests; done.
Qed.
Lemma lex_separator c r st :
  c ∈ ["|"; ";"; "&"] -> lex Plain st (c :: r) = if double_semicolon c r then None else lex Plain (end_command st) r.
Proof.
  rewrite !elem_of_cons, elem_of_nil. intros H. destruct_or? H; try done; subst c; cbn [lex]; eval_tests; done.
Qed.

Lemma starts_with_cons p op l : starts_with (p :: op) l = true -> exists r, l = p :: r /\ starts_with op r = true.
Proof.
  destruct l as [|y l]; cbn; [done|]. intros [->%bool_decide_eq_true H]%andb_true_iff. by exists l.
Qed.

Lemma lex_operator c r st op :
  _operator_at (c :: r) = op -> op ≠ [] ->
  (risky_operator (text_of op) = true /\ lex Plain st (c :: r) = None)
  \/ (risky_operator (text_of op) = false /\ str_in (text_of op) CONTROL_OPERATORS = true
      /\ lex Plain st (c :: r) = lex Plain (end_command st) (drop (length op) (c :: r))).
Proof.
  intros Hop Hne. destruct (operator_at_cases _ _ _ Hop) as [[-> _]|[[Hin Hs]|(-> & Hc & Hno)]]; [done| |].
  - clear Hop. unfold OPERATORS in Hin. rewrite !elem_of_cons, elem_of_nil in Hin.
    destruct_or? Hin; try done; subst op; repeat (apply starts_with_cons in Hs as (? & ? & Hs)); simplify_eq.
    all: first [ left; split; [reflexivity|]; first
                   [ apply lex_refused; repeat constructor; fail
                   | by rewrite lex_separator by repeat constructor
                   | rewrite lex_separator by repeat constructor; apply lex_refused; repeat constructor ]
               | right; split_and!; [reflexivity..|];
                 rewrite lex_separator by repeat constructor; cbn [double_semicolon]; eval_tests;
                 rewrite lex_separator by repeat constructor; cbn [double_semicolon]; eval_tests;
                 by rewrite end_command_idemp ].
  - unfold char_in in Hc. apply str_in_true in Hc.
    change (chars "|;&()<>") with ["|"; ";"; "&"; "("; ")"; "<"; ">"] in Hc. rewrite !elem_of_cons, elem_of_nil in Hc.
    destruct_or? Hc; try done; subst c.
    all: first [ left; split; [reflexivity|]; apply lex_refused; repeat constructor; fail
               | right; split_and!; [reflexivity..|]; rewrite lex_separator by repeat constructor ].
    all: destruct r as [|n r]; [done|]; unfold double_semicolon; eval_tests; try done.
    destruct (char_in ";&" n) eqn:En; [|done]. unfold char_in in En. apply str_in_true in En. change (chars ";&") with [";"; "&"] in En.
    rewrite !elem_of_cons, elem_of_nil in En. destruct_or? En; try done; subst n.
    + specialize (Hno [";"; ";"]). discriminate Hno. unfold OPERATORS. repeat constructor.
    + specialize (Hno [";"; "&"]). discriminate Hno. unfold OPERATORS. repeat constructor.
Qed.

(** ** One step of the parser *)
Lemma ordinary_cons c r :
  ordinary (c :: r) = true ->
  c ≠ BACKSLASH /\ c ≠ RETURN /\ ordinary r = true /\ (forall d, head r = Some d -> odd_pair c d = false).
Proof.
  cbn [ordinary]. rewrite !andb_true_iff, negb_true_iff, orb_false_iff, !bool_decide_eq_false.
  intros [[[H1 H2] H3] H4]. split_and!; try done. intros d Hd. destruct r; simplify_eq/=. by apply negb_true_iff.
Qed.
Lemma ordinary_drop n l : ordinary l = true -> ordinary (drop n l) = true.
Proof.
  revert l. induction n as [|n IH]; intros [|c r] H; try done. apply IH. by apply ordinary_cons in H as (_ & _ & H & _).
Qed.
Lemma ordinary_no_escape l : ordinary l = true -> BACKSLASH ∉ l.
Proof.
  induction l as [|c r IH]; intros H; [apply not_elem_of_nil|].
  apply ordinary_cons in H as (H1 & _ & H2 & _). apply not_elem_of_cons. split; [congruence | auto].
Qed.

Lemma sim_extend st s l q : l ≠ [] -> sim st s -> sim (add_chars l st) (extend_current l true q s).
Proof.
  intros Hl []. constructor; cbn; try done.
  - by rewrite sim_current0.
  - intros [= H%app_nil]. by destruct H.
  - by rewrite sim_literal0.
Qed.
(** Assignments the relation does not look at *)
Lemma sim_push st s op : sim st s -> sim st (push_operator op s).
Proof. intros []. by constructor. Qed.
Lemma sim_before st s op : lx_word st = None -> sim st s -> sim st (set_word_start true (set_before op s)).
Proof. intros Hw []. constructor; cbn; try done. unfold word_open. by rewrite Hw. Qed.
Lemma sim_noted st s fs :
  (forall f, f ∈ fs -> f = "comment") -> sim st s -> sim st (note_blocked false (mark_features fs s)).
Proof.
  intros Hf []. constructor; cbn; try done.
  - by rewrite orb_false_r.
  - intros f [H|H]%elem_of_set_update; [left; auto | auto].
  - rewrite elem_of_set_update. split; [intros [H%Hf|H]; [done | by apply sim_callback0] | rewrite sim_callback0; tauto].
Qed.

Lemma lex_comment st l :
  lx_word st = None ->
  lex Comment st l = lex Plain st (drop (match find_char NEWLINE l with Some k => k | None => length l end) l).
Proof.
  intros Hw. induction l as [|c l IH]; [done|]. cbn [lex find_char].
  destruct (bool_decide_reflect (c = NEWLINE)) as [->|Hn].
  - cbn [drop lex]. eval_tests. done.
  - rewrite IH. destruct (find_char NEWLINE l); done.
Qed.

Lemma no_expansion nb i c r : dollar_expands (c :: r) = false -> _consume_expansion nb i (c :: r) = None.
Proof. apply expansion_iff. Qed.

(** The parser's step on [c :: r] either keeps the relation, or the lexer refuses
    the script and the parser has noted why. *)
Definition step_ok (nb : list string -> bool) (i : nat) (l : list string) (st : LexState) (s : PState) : Prop :=
  (exists n st' s', parse_step nb i l s = (Some n, s') /\ sim st' s' /\ lex Plain st l = lex Plain st' (drop n l))
  \/ (lex Plain st l = None /\ unknown_feature (parse_step nb i l s).2).

Lemma quote_positive q c r k :
  (q = SQUOTE \/ q = DQUOTE) -> c = q -> ordinary (c :: r) = true -> find_char q r = Some k -> exists k', k = S k'.
Proof.
  intros Hq -> (_ & _ & _ & Ho)%ordinary_cons Hk. destruct k as [|k]; [|eauto].
  destruct r as [|d r]; [done|]. cbn in Hk. case_bool_decide; [|by destruct (find_char q r)].
  subst d. specialize (Ho q eq_refl). by destruct Hq as [-> | ->].
Qed.

Lemma step_single nb i r st s :
  ordinary (SQUOTE :: r) = true -> sim st s -> step_ok nb i (SQUOTE :: r) st s.
Proof.
  intros Ho Hs. unfold step_ok, parse_step. rewrite (sim_heredoc _ _ Hs). cbn [lex]. eval_tests.
  rewrite lex_single. destruct (find_char SQUOTE r) as [k|] eqn:Ek.
  - destruct (quote_positive _ _ _ _ (or_introl eq_refl) eq_refl Ho Ek) as [k' ->]. left.
    exists (S k' + 2)%nat, (add_chars (take (S k') r) st). eexists. split; [done|]. split.
    + apply sim_extend; [|done]. apply find_char_lt in Ek. destruct r; cbn in *; [lia | done].
    + rewrite add_chars_begin. by replace (S k' + 2)%nat with (S (S (S k'))) by lia.
  - right. split; [done|]. by apply unknown_mark.
Qed.

Lemma step_double nb i r st s :
  ordinary (DQUOTE :: r) = true -> sim st s -> step_ok nb i (DQUOTE :: r) st s.
Proof.
  intros Ho Hs. unfold step_ok, parse_step. rewrite (sim_heredoc _ _ Hs). cbn [lex]. eval_tests.
  assert (Hb : BACKSLASH ∉ r) by (apply ordinary_no_escape; by apply ordinary_cons in Ho as (_ & _ & ? & _)).
  destruct (lex_double nb (S i) (begin_word st) r Hb) as [(k & Hk & Hq & Hl)|[Hl Hq]].
  - rewrite Hq, Hl. destruct (quote_positive _ _ _ _ (or_intror eq_refl) eq_refl Ho Hk) as [k' ->]. left.
    do 3 eexists. split; [done|]. split.
    + apply sim_extend; [|apply sim_noted; [|exact Hs]; intros f Hf; by apply not_elem_of_nil in Hf].
      apply find_char_lt in Hk. replace (S i + S k' - S i)%nat with (S k') by lia. destruct r; cbn in *; [lia | done].
    + rewrite add_chars_begin. replace (S i + S k' + 1 - i)%nat with (S (S (S k'))) by lia.
      by replace (S i + S k' - S i)%nat with (S k') by lia.
  - rewrite Hl. right. split; [done|]. destruct (_consume_double_quote _ _ _ _ _ _) as [[[e|] fs] b] eqn:E; cbn in Hq |- *.
    + destruct Hq as [?|Hf]; [done|]. destruct fs as [|f fs]; [done|]. exists f. split.
      * apply mark_features_elem. left. left.
      * intros ->. apply (double_quote_no_comment nb (length r) (S i) r [] false); [apply not_elem_of_nil|].
        rewrite E. left.
    + by apply unknown_mark.
Qed.

Lemma step_comment nb i r st s :
  lx_word st = None -> sim st s -> step_ok nb i ("#" :: r) st s.
Proof.
  intros Hw Hs. left. unfold parse_step. rewrite (sim_heredoc _ _ Hs), (sim_start _ _ Hs). cbn [lex].
  unfold word_open. rewrite Hw. eval_tests. do 3 eexists. split; [done|]. split.
  - apply (sim_noted _ _ ["comment"]) in Hs; [|by intros f ->%list_elem_of_singleton].
    destruct Hs. constructor; cbn in *; try done. by rewrite orb_false_r in sim_nested0.
  - rewrite lex_comment by done. cbn [find_char]. eval_tests. by destruct (find_char NEWLINE r).
Qed.

Lemma step_plain c r st s :
  sim st s ->
  lex Plain st (c :: r) = (if char_in "*?[{}" c || bool_decide (c = "~") && negb (word_open st)
                  || bool_decide (c = "=") && word_open st && bool_decide (lx_words st = []) then None
          else lex Plain (add_chars [c] st) r) ->
  (sim (add_chars [c] st) (on_plain c s) /\ lex Plain st (c :: r) = lex Plain (add_chars [c] st) r)
  \/ (lex Plain st (c :: r) = None /\ unknown_feature (on_plain c s)).
Proof.
  intros Hs Hl. rewrite Hl. unfold on_plain.
  assert (Hcls : char_in "*?[{}" c = char_in "*?[" c || (bool_decide (c = "{") || bool_decide (c = "}"))).
  { unfold char_in, str_in. rewrite <- !bool_decide_or. apply bool_decide_ext.
    change (chars "*?[{}") with ["*"; "?"; "["; "{"; "}"]. change (chars "*?[") with ["*"; "?"; "["].
    rewrite !elem_of_cons, elem_of_nil. tauto. }
  rewrite Hcls, (sim_start _ _ Hs).
  destruct (char_in "*?[" c); [right; split; [done|]|].
  { eapply unknown_grows; [apply (unknown_mark "glob-expansion" s); done | grow]. }
  destruct (bool_decide (c = "{") || bool_decide (c = "}")); [right; split; [done|]|].
  { eapply unknown_grows; [apply (unknown_mark "brace-expansion" s); done | grow]. }
  cbn [orb]. destruct (bool_decide (c = "~") && negb (word_open st)); [right; split; [done|]|].
  { eapply unknown_grows; [apply (unknown_mark "tilde-expansion" s); done | grow]. }
  cbn [orb].
  assert (He : bool_decide (c = "=") && negb (match ps_current s with [] => true | _ => false end)
    && match ps_words s with [] => true | _ => false end
    = bool_decide (c = "=") && word_open st && bool_decide (lx_words st = [])).
  { rewrite (sim_current _ _ Hs). pose proof (views_empty _ _ (sim_words _ _ Hs)) as Hv.
    pose proof (sim_open _ _ Hs). unfold word_open. destruct (bool_decide (c = "=")); [|done]. f_equal.
    - destruct (lx_word st) as [[|]|]; done.
    - destruct (ps_words s), (lx_words st); cbn; naive_solver. }
  rewrite He. destruct (_ && _ && _); [right|left]; (split; [|try done]).
  - done.
  - eapply unknown_grows; [apply (unknown_mark "environment-assignment" s); done | grow].
  - by apply sim_extend.
Qed.

Lemma step_operator nb i c r st s op :
  _operator_at (c :: r) = op -> op ≠ [] -> parse_step nb i (c :: r) s = (Some (length op), on_operator op s) ->
  sim st s -> step_ok nb i (c :: r) st s.
Proof.
  intros Hop Hne Hp Hs. unfold step_ok. rewrite Hp.
  destruct (lex_operator c r st op Hop Hne) as [[Hr Hl]|(Hr & Hc & Hl)].
  - right. split; [done|]. by apply risky_operator_unknown.
  - left. exists (length op), (end_command st), (on_operator op s). split_and!; [done| |done].
    rewrite control_operator_step by done. apply sim_before; [apply end_command_word|].
    rewrite <- end_command_end_word. apply sim_flush_command; [apply end_word_word|].
    by apply sim_push, sim_flush_word.
Qed.

(** The step on a character that is no quotation mark and begins no comment *)
Lemma parse_step_other nb i c r st s :
  ordinary (c :: r) = true -> sim st s -> c ≠ SQUOTE -> c ≠ DQUOTE ->
  bool_decide (c = "#") && negb (word_open st) = false ->
  parse_step nb i (c :: r) s =
    if bool_decide (c = " ") || bool_decide (c = TAB) then (Some 1%nat, flush_word s)
    else if bool_decide (c = NEWLINE)
    then (Some 1%nat, set_word_start true (set_before "newline" (push_operator "newline" (flush_command (flush_word s)))))
    else match _consume_expansion nb i (c :: r) with
      | Some (consumed, found, blocked) =>
        (Some consumed, extend_current (take consumed (c :: r)) false false (note_blocked blocked (mark_features found s)))
      | None => if bool_decide (c = BACKTICK) then
          let s1 := mark_unknown "command-substitution" s in
          match _find_backtick r with
          | Some k => (Some (k + 2)%nat, extend_current (take (k + 2) (c :: r)) false false
              (note_blocked (match take k r with [] => false | _ => nb (take k r) end) s1))
          | None => (Some (length (c :: r)), extend_current (c :: r) false false s1)
          end
        else match _operator_at (c :: r) with
          | [] => (Some 1%nat, on_plain c s) | op => (Some (length op), on_operator op s) end
      end.
Proof.
  intros (Hb & Hr & _)%ordinary_cons Hs Hsq Hdq Ec.
  unfold parse_step. rewrite (sim_heredoc _ _ Hs), (sim_start _ _ Hs), Ec.
  rewrite (bool_decide_eq_false_2 (c = BACKSLASH)), (bool_decide_eq_false_2 (c = SQUOTE)),
    (bool_decide_eq_false_2 (c = DQUOTE)), (bool_decide_eq_false_2 (c = RETURN)), orb_false_r by done.
  destruct (_ || _); [done|]. destruct (bool_decide (c = NEWLINE)); [|done].
  by rewrite (sim_heredoc _ _ (sim_flush_word _ _ Hs)).
Qed.
Lemma lex_other c r st :
  c ≠ SQUOTE -> c ≠ DQUOTE -> bool_decide (c = "#") && negb (word_open st) = false ->
  lex Plain st (c :: r) =
    if bool_decide (c = " ") || bool_decide (c = TAB) then lex Plain (end_word st) r
    else if bool_decide (c = NEWLINE) then lex Plain (end_command st) r
    else if dollar_expands (c :: r) || bool_decide (c = BACKTICK) || char_in "<>()" c || double_semicolon c r then None
    else if char_in "|;&" c then lex Plain (end_command st) r
    else if char_in "*?[{}" c || bool_decide (c = "~") && negb (word_open st)
                  || bool_decide (c = "=") && word_open st && bool_decide (lx_words st = []) then None
    else lex Plain (add_chars [c] st) r.
Proof.
  intros Hsq Hdq Ec. cbn [lex].
  rewrite (bool_decide_eq_false_2 (c = SQUOTE)), (bool_decide_eq_false_2 (c = DQUOTE)), Ec by done. done.
Qed.
Lemma not_operator c r :
  _operator_at (c :: r) = [] ->
  char_in "<>()" c = false /\ double_semicolon c r = false /\ char_in "|;&" c = false.
Proof.
  intros Eo. assert (Hn : c ∉ ["|"; ";"; "&"; "("; ")"; "<"; ">"]).
  { destruct (operator_at_cases _ _ _ Eo) as [[_ H]|[[H _]|[H _]]]; [by apply str_in_false in H| |done].
    exfalso. unfold OPERATORS in H. rewrite !elem_of_cons, elem_of_nil in H. destruct_or? H; done. }
  unfold double_semicolon, char_in. rewrite !str_in_false.
  change (chars "<>()") with ["<"; ">"; "("; ")"]. change (chars "|;&") with ["|"; ";"; "&"].
  rewrite !not_elem_of_cons in Hn |- *. rewrite (bool_decide_eq_false_2 (c = ";")) by tauto.
  split_and!; tauto || apply not_elem_of_nil || done.
Qed.

Lemma step_sim nb i c r st s : ordinary (c :: r) = true -> sim st s -> step_ok nb i (c :: r) st s.
Proof.
  intros Ho Hs.
  destruct (decide (c = SQUOTE)) as [->|Hsq]; [by apply step_single|].
  destruct (decide (c = DQUOTE)) as [->|Hdq]; [by apply step_double|].
  destruct (bool_decide (c = "#") && negb (word_open st)) eqn:Ec.
  { apply andb_true_iff in Ec as [->%bool_decide_eq_true Hw]. apply step_comment; [|done].
    unfold word_open in Hw. by destruct (lx_word st). }
  pose proof (parse_step_other nb i c r st s Ho Hs Hsq Hdq Ec) as Hp. pose proof (lex_other c r st Hsq Hdq Ec) as Hl.
  clear Ec. destruct (bool_decide (c = " ") || bool_decide (c = TAB)).
  { left. exists 1%nat, (end_word st), (flush_word s). split_and!; [done | by apply sim_flush_word | done]. }
  destruct (bool_decide (c = NEWLINE)).
  { left. eexists 1%nat, (end_command st), _. split; [exact Hp|]. split; [|done].
    apply sim_before; [apply end_command_word|]. apply sim_push. rewrite <- end_command_end_word.
    apply sim_flush_command; [apply end_word_word | by apply sim_flush_word]. }
  destruct (dollar_expands (c :: r)) eqn:Ed; cbn [orb] in Hl.
  { right. split; [done|]. rewrite Hp.
    destruct (_consume_expansion nb i (c :: r)) as [[[n f] b]|] eqn:E; [|by apply expansion_iff in E; rewrite Ed in E].
    pose proof (expansion_no_comment _ _ _ _ _ _ E). apply consume_expansion_pos in E as [_ Hf]. cbn [snd].
    destruct f as [|f fs]; [done|]. apply (unknown_grows (mark_features (f :: fs) s)); [|grow].
    exists f. split; [apply mark_features_elem; left; left|]. intros ->. apply H. left. }
  apply (expansion_iff nb i) in Ed. rewrite Ed in Hp.
  destruct (bool_decide (c = BACKTICK)); cbn [orb] in Hl.
  { right. split; [done|]. rewrite Hp. apply (unknown_grows (mark_unknown "command-substitution" s)); [by apply unknown_mark|].
    destruct (_find_backtick r); cbn [snd]; grow. }
  destruct (_operator_at (c :: r)) as [|o op] eqn:Eo; [|by eapply step_operator].
  apply not_operator in Eo as (H1 & H2 & H3). rewrite H1, H2, H3 in Hl. cbn [orb] in Hl.
  destruct (step_plain c r st s Hs Hl) as [[Hs' Hl']|[Hl' Hu]]; [left | right; by rewrite Hp].
  by exists 1%nat, (add_chars [c] st), (on_plain c s).
Qed.

(** ** The whole script *)
Lemma loop_sim nb fuel i l st s :
  (length l <= fuel)%nat -> ordinary l = true -> sim st s ->
  (exists st' s', parse_loop nb fuel i l s = s' /\ sim st' s' /\ lex Plain st l = Some (lx_cmds (end_command st')))
  \/ (lex Plain st l = None /\ unknown_feature (parse_loop nb fuel i l s)).
Proof.
  revert i l st s. induction fuel as [|fuel IH]; intros i l st s Hf Ho Hs.
  { destruct l; cbn in Hf; [|lia]. left. by exists st, s. }
  destruct l as [|c r]; [left; by exists st, s|]. cbn [parse_loop].
  destruct (step_sim nb i c r st s Ho Hs) as [(n & st' & s' & Hp & Hs' & Hl)|[Hl Hu]].
  - rewrite Hp, Hl. apply parse_step_advances in Hp; [|done]. apply IH; [|by apply ordinary_drop|done].
    rewrite length_drop. cbn in Hf |- *. lia.
  - right. split; [done|]. destruct (parse_step nb i (c :: r) s) as [[n|] s']; [|done].
    eapply unknown_grows; [exact Hu | apply parse_loop_mono].
Qed.

Lemma sim_init : sim lex_init p_init.
Proof.
  constructor; cbn; try done; try by constructor.
  { intros f H. by apply not_elem_of_nil in H. }
  split; [intros H; by apply not_elem_of_nil in H | done].
Qed.

Lemma finish_sim st s :
  sim st s -> sim (MkLex (lx_cmds (end_command st)) [] None) (flush_command (flush_word s)).
Proof.
  intros Hs. replace (MkLex (lx_cmds (end_command st)) [] None) with (end_command st).
  - rewrite <- end_command_end_word. apply sim_flush_command; [apply end_word_word | by apply sim_flush_word].
  - pose proof (end_command_word st). pose proof (end_command_words st). by destruct (end_command st); simplify_eq/=.
Qed.

Lemma parse_sim nb script :
  ordinary script = true ->
  match literal_graph script with
  | Some g => exists s, _parse nb script = (MkAst (ps_commands s) (ps_operators s) (py_sorted (ps_features s)), false)
                /\ sim (MkLex g [] None) s
  | None => exists f, f ∈ sh_features (_parse nb script).1 /\ f ≠ "comment"
  end.
Proof.
  intros Ho. unfold literal_graph, _parse.
  destruct (loop_sim nb (length script) 0 script lex_init p_init (le_n _) Ho sim_init) as [(st & s & -> & Hs & ->)|[-> Hu]].
  - exists (flush_command (flush_word s)). apply finish_sim in Hs.
    by rewrite (sim_heredoc _ _ Hs), (sim_nested _ _ Hs).
  - set (s := flush_command _).
    assert (Hg : unknown_feature s) by (eapply unknown_grows; [exact Hu | subst s; grow]). clearbody s.
    assert (Hg' : unknown_feature (match ps_heredoc s with Some _ => mark_unknown "unterminated-heredoc" s | None => s end))
      by (destruct (ps_heredoc s); [eapply unknown_grows; [exact Hg | grow] | done]).
    destruct Hg' as (f & Hf & Hn). exists f. split; [|done]. cbn [fst sh_features]. by apply elem_of_sorted_by.
Qed.

(** *** The verdict *)
Lemma view_find (l1 l2 : list ShellWord) :
  word_view <$> l1 = word_view <$> l2 ->
  sw_text <$> List.find (fun w => negb (sw_assignment w)) l1 = sw_text <$> List.find (fun w => negb (sw_assignment w)) l2.
Proof.
  revert l2. induction l1 as [|[t1 i1 q1 a1] l1 IH]; intros [|[t2 i2 q2 a2] l2] H; try done.
  unfold word_view in H. simplify_eq/=. destruct a2; cbn; [by apply IH | done].
Qed.
Lemma view_texts (l1 l2 : list ShellWord) : word_view <$> l1 = word_view <$> l2 -> sw_text <$> l1 = sw_text <$> l2.
Proof.
  revert l2. induction l1 as [|[t1 i1 q1 a1] l1 IH]; intros [|[t2 i2 q2 a2] l2] H; try done.
  unfold word_view in H. simplify_eq/=. f_equal. by apply IH.
Qed.
(** The policies look at the text of a command's words and at its assignments. *)
Lemma view_policies c ws :
  cmd_view c = ref_view ws ->
  executable c = executable (command_of ws)
  /\ _command_is_literal_read_only c = _command_is_literal_read_only (command_of ws).
Proof.
  unfold cmd_view, ref_view, ref_views. intros [= Hw _ _].
  pose proof (view_find _ _ Hw) as Hf. pose proof (view_texts _ _ Hw) as Ht.
  assert (He : executable c = executable (command_of ws)).
  { unfold executable. revert Hf. do 2 destruct (List.find _ _); cbn; congruence. }
  assert (Ha : args_of c = args_of (command_of ws)).
  { assert (Hx : forall l, sw_text <$> tail l = tail (sw_text <$> l)) by (by intros []). unfold args_of. by rewrite !Hx, Ht. }
  split; [done|]. unfold _command_is_literal_read_only, _git_argv_is_read_only, _find_argv_is_read_only. rewrite He, Ha.
  revert Hf. do 2 destruct (List.find _ _); cbn [fmap option_fmap option_map]; intros Hf; try done.
  injection Hf as ->. done.
Qed.

Lemma cons_eq_inv {A} (x y : A) l k : x :: l = y :: k -> x = y /\ l = k.
Proof. by intros [= -> ->]. Qed.
Lemma executables_agree (cs : list ShellCommandNode) (g : list (list (list string))) :
  cmd_view <$> cs = ref_view <$> g -> executable <$> cs = (fun ws => executable (command_of ws)) <$> g.
Proof.
  revert g. induction cs as [|c cs IH]; intros [|ws g] H; try done. cbn [fmap list_fmap] in *.
  apply cons_eq_inv in H as [Hv H]. rewrite (proj1 (view_policies c ws Hv)). f_equal. by apply IH.
Qed.
Lemma find_existsb {A} (p : A -> bool) l :
  existsb p l = match List.find p l with Some _ => true | None => false end.
Proof. induction l as [|x l IH]; [done|]. cbn. by destruct (p x). Qed.

(** No blocked executable has the empty name. *)
Lemma blocked_nonempty e : str_in e BLOCKED_EXECUTABLES = true -> str_empty e = false.
Proof. intros H%str_in_true. destruct e; [|done]. unfold BLOCKED_EXECUTABLES in H. rewrite !elem_of_cons, elem_of_nil in H. destruct_or? H; done. Qed.
Lemma blocked_test (cs : list ShellCommandNode) (g : list (list (list string))) :
  cmd_view <$> cs = ref_view <$> g ->
  negb (str_empty (default EmptyString (List.find (fun e => str_in e BLOCKED_EXECUTABLES) (executable <$> cs))))
  = existsb (fun ws => str_in (executable (command_of ws)) BLOCKED_EXECUTABLES) g.
Proof.
  intros H. rewrite (executables_agree _ _ H).
  replace (existsb (fun ws => str_in (executable (command_of ws)) BLOCKED_EXECUTABLES) g)
    with (existsb (fun e => str_in e BLOCKED_EXECUTABLES) ((fun ws => executable (command_of ws)) <$> g)).
  2: { clear H. induction g as [|ws g IH]; [done|]. cbn. by rewrite IH. }
  rewrite find_existsb. destruct (List.find _ _) as [e|] eqn:E; [|done].
  apply List.find_some in E as [_ E]. cbn. by rewrite (blocked_nonempty e E).
Qed.

Lemma view_nonliteral c ws :
  cmd_view c = ref_view ws ->
  existsb (fun w => negb (sw_literal w) || sw_assignment w) (sc_words c)
  = match ws with [] => false | w :: _ => is_assignment w end.
Proof.
  unfold cmd_view, ref_view, ref_views. intros [= Hw _ _].
  trans (existsb (fun v => negb v.1.2 || v.2) (word_view <$> sc_words c)).
  { clear Hw. induction (sc_words c) as [|w l IH]; [done|]. cbn. by rewrite IH. }
  rewrite Hw. destruct ws as [|w r]; [done|]. cbn.
  replace (existsb _ (word_view <$> (word_of false <$> r))) with false; [by rewrite orb_false_r|].
  clear. induction r as [|x r IH]; [done | exact IH].
Qed.

Lemma check_commands_sim ast cs g :
  cmd_view <$> cs = ref_view <$> g -> Forall (fun ws => ws ≠ []) g ->
  from_option an_status SAFE (check_commands ast cs) = if forallb command_allowed g then SAFE else SEMANTIC_UNKNOWN.
Proof.
  revert g. induction cs as [|c cs IH]; intros [|ws g] H Hne; try done. cbn [fmap list_fmap] in H.
  apply cons_eq_inv in H as [Hv H]. apply Forall_cons in Hne as [Hw Hne]. cbn [check_commands forallb].
  pose proof (view_nonliteral _ _ Hv) as Hnl. destruct (view_policies _ _ Hv) as [_ Hp].
  unfold cmd_view, ref_view in Hv. injection Hv as Hwv Hrd Hcb.
  destruct (sc_words c) as [|v vs] eqn:Ew; [by symmetry in Hwv; apply ref_views_nil in Hwv|].
  rewrite Hrd, Hcb, Hnl, Hp. unfold command_allowed. cbn [orb].
  destruct (has_callback ws); [by rewrite andb_false_r|].
  destruct (match ws with [] => false | w :: _ => is_assignment w end); [done|]. cbn [negb andb].
  destruct (_command_is_literal_read_only (command_of ws)); [by apply IH | done].
Qed.

Lemma classify_literal ast g :
  cmd_view <$> sh_commands ast = ref_view <$> g -> Forall (fun ws => ws ≠ []) g ->
  (forall f, f ∈ sh_features ast -> f = "comment" \/ f = "executable-callback") ->
  ("executable-callback" ∈ sh_features ast <-> existsb has_callback g = true) ->
  an_status (classify ast false) = graph_status g.
Proof.
  intros Hv Hne Hf Hcb. unfold classify, graph_status. rewrite (blocked_test _ _ Hv), orb_false_r.
  destruct (existsb (fun ws => str_in (executable (command_of ws)) BLOCKED_EXECUTABLES) g); [done|].
  destruct (List.filter (fun f => negb (bool_decide (f = "comment"))) (sh_features ast)) as [|f fs] eqn:E.
  - rewrite <- (check_commands_sim ast _ _ Hv Hne). destruct (sh_commands ast); [done|].
    by destruct (check_commands _ _).
  - assert (Hin : f ∈ sh_features ast /\ f ≠ "comment").
    { assert (H : In f (f :: fs)) by by left. rewrite <- E in H. apply List.filter_In in H as [H1 H2].
      split; [by apply list_elem_of_In|]. by apply negb_true_iff, bool_decide_eq_false in H2. }
    destruct Hin as [Hin Hn]. destruct (Hf f Hin) as [-> | ->]; [done|].
    apply Hcb, existsb_exists in Hin as (ws & Hws & Hc).
    destruct (forallb command_allowed g) eqn:Ea; [|done].
    rewrite forallb_forall in Ea. specialize (Ea ws Hws). unfold command_allowed in Ea.
    by rewrite Hc, andb_false_r in Ea.
Qed.
Lemma classify_unknown ast b f : f ∈ sh_features ast -> f ≠ "comment" -> an_status (classify ast b) ≠ SAFE.
Proof.
  intros Hf Hn. unfold classify. case_match; [done|].
  destruct (List.filter (fun f => negb (bool_decide (f = "comment"))) (sh_features ast)) as [|g fs] eqn:E; [|done].
  exfalso. assert (H' : In f []); [|done]. rewrite <- E. apply List.filter_In.
  split; [by apply list_elem_of_In|]. by apply negb_true_iff, bool_decide_eq_false.
Qed.

Lemma sim_verdict g s :
  sim (MkLex g [] None) s ->
  an_status (classify (MkAst (ps_commands s) (ps_operators s) (py_sorted (ps_features s))) false) = graph_status g.
Proof.
  intros Hs. apply classify_literal; cbn [sh_commands sh_features].
  - apply (sim_cmds _ _ Hs).
  - apply (sim_nonempty _ _ Hs).
  - intros f Hf%elem_of_sorted_by. by apply (sim_features _ _ Hs).
  - rewrite <- (sim_callback _ _ Hs). apply elem_of_sorted_by.
Qed.
(** A script that is neither blank nor larger than the budget *)
Definition in_budget (script : string) : bool :=
  negb (str_empty (py_strip script)) && (Z.of_nat (String.length script) <=? _MAX_SCRIPT_BYTES).
Lemma text_of_chars s : text_of (chars s) = s.
Proof.
  induction s as [|c [|d r] IH]; [done..|].
  change (chars (String c (String d r))) with (if is_continuation d
    then match chars (String d r) with x :: l => String c x :: l | [] => [] end
    else String c EmptyString :: chars (String d r)).
  destruct (is_continuation d).
  - revert IH. destruct (chars (String d r)) as [|x l]; cbn [text_of]; [done|]. intros IH. rewrite <- IH. reflexivity.
  - cbn [text_of]. by rewrite IH.
Qed.

Lemma analyze_levels_S n script :
  analyze_levels (S n) script =
  if str_empty (py_strip (text_of script)) then safe_analysis "empty shell script" (MkAst [] [] [])
  else if _MAX_SCRIPT_BYTES <? Z.of_nat (String.length (text_of script))
  then unknown_analysis "shell script exceeds semantic parser budget" (MkAst [] [] ["script-size"])
  else let '(ast, nested_blocked) :=
         _parse (fun inner => bool_decide (an_status (analyze_levels n inner) = SHELL_BLOCKED)) script in
       classify ast nested_blocked.
Proof. reflexivity. Qed.
Lemma analyze_shell_script_Ok script a :
  analyze_shell_script script = Ok a -> a = analyze_levels (S _MAX_PARSE_DEPTH) (chars script).
Proof. unfold analyze_shell_script. destruct (_ && _); [done|]. congruence. Qed.

Lemma verdict_graph script a :
  in_budget script = true -> ordinary (chars script) = true -> analyze_shell_script script = Ok a ->
  match literal_graph (chars script) with
  | Some g => an_status a = graph_status g
  | None => an_status a ≠ SAFE
  end.
Proof.
  unfold in_budget. rewrite andb_true_iff, negb_true_iff, Z.leb_le. intros [Hne Hsz] Ho.
  intros ->%analyze_shell_script_Ok. rewrite analyze_levels_S, text_of_chars, Hne.
  replace (_MAX_SCRIPT_BYTES <? _) with false by lia.
  set (nb := fun inner => bool_decide (_ = SHELL_BLOCKED)). pose proof (parse_sim nb _ Ho) as Hp.
  destruct (literal_graph (chars script)) as [g|].
  - destruct Hp as (s & -> & Hs). by apply sim_verdict.
  - destruct Hp as (f & Hf & Hn). destruct (_parse nb (chars script)) as [ast b]. by eapply classify_unknown.
Qed.
(** A verdict is read-only exactly when it is safe, and then needs no approval. *)
Definition flags_ok (a : ShellAnalysis) : Prop :=
  an_read_only a = bool_decide (an_status a = SAFE) /\ an_requires_approval a = negb (an_read_only a).
Lemma check_commands_flags ast cs :
  flags_ok (default (safe_analysis "literal read-only executable graph" ast) (check_commands ast cs)).
Proof.
  induction cs as [|d ds IH]; [done|]. cbn [check_commands].
  destruct (sc_words d); [exact IH|]. destruct (sc_redirection d || sc_callback d); [done|].
  destruct (existsb _ _); [done|]. destruct (negb _); [done | exact IH].
Qed.
Lemma classify_flags ast b : flags_ok (classify ast b).
Proof.
  unfold classify. case_match; [done|]. case_match; [|done]. destruct (sh_commands ast); [done|].
  apply check_commands_flags.
Qed.
Lemma analyze_flags script a : analyze_shell_script script = Ok a -> flags_ok a.
Proof.
  intros ->%analyze_shell_script_Ok. rewrite analyze_levels_S. case_match; [done|]. case_match; [done|].
  destruct (_parse _ _). apply classify_flags.
Qed.

(** C24. The classification agrees with the reference lexer.  For every script within
    the budget that has no escape, carriage return, empty quotation or [$] before a
    quotation mark or a bracket: when the lexer reads a literal graph, the verdict is
    exactly the one its commands get (blocked when one names a blocked executable,
    safe when every argument vector satisfies its policy, unknown otherwise); when
    the lexer refuses the script, because the shell would expand, redirect or group,
    the verdict is never safe.  A verdict is read-only exactly when it is safe, and
    every other one requires approval. *)
Theorem verdict_matches_literal_graph script a :
  in_budget script = true -> ordinary (chars script) = true -> analyze_shell_script script = Ok a ->
  match literal_graph (chars script) with
  | Some g => an_status a = graph_status g
  | None => an_status a ≠ SAFE
  end
  /\ an_read_only a = bool_decide (an_status a = SAFE) /\ an_requires_approval a = negb (an_read_only a).
Proof. intros Hb Ho Ha. split; [by apply verdict_graph | by eapply analyze_flags]. Qed.

Lemma verdict_matches_literal_graph_witness :
  exists a, analyze_shell_script "grep -n 'a b' src | wc -l # count" = Ok a /\ an_status a = SAFE.
Proof.
  eexists. split; [vm_compute; reflexivity|].
  refine (proj1 (verdict_matches_literal_graph "grep -n 'a b' src | wc -l # count" _ _ _ _)); vm_compute; reflexivity.
Defined.

(** ** Reading back quoted argument vectors *)
Section runs.
Context (nb : list string -> bool).
(** The loop reads [l] from position [i] and takes [s] to [s'], whatever follows. *)
Definition runs (i : nat) (l : list string) (s s' : PState) : Prop :=
  forall rest, parse_loop nb (length (l ++ rest)) i (l ++ rest) s = parse_loop nb (length rest) (i + length l) rest s'.

Lemma runs_nil i s : runs i [] s s.
Proof. intros rest. cbn. by rewrite Nat.add_0_r. Qed.
Lemma runs_app i l1 l2 s s1 s2 : runs i l1 s s1 -> runs (i + length l1) l2 s1 s2 -> runs i (l1 ++ l2) s s2.
Proof. intros H1 H2 rest. rewrite <- app_assoc, H1, H2. f_equal. rewrite length_app. lia. Qed.
Lemma runs_step i c l s s' :
  (forall rest, parse_step nb i (c :: l ++ rest) s = (Some (S (length l)), s')) -> runs i (c :: l) s s'.
Proof.
  intros H rest. change ((c :: l) ++ rest) with (c :: l ++ rest). cbn [length parse_loop]. rewrite H. cbn [drop].
  rewrite drop_app_length. apply parse_loop_fuel. rewrite length_app. lia.
Qed.

Lemma extend_extend a b p q s : extend_current b true q (extend_current a true p s) = extend_current (a ++ b) true (p || q) s.
Proof. unfold extend_current. cbn. f_equal; [by rewrite app_assoc | by rewrite !andb_true_r | by rewrite orb_assoc]. Qed.

Lemma find_char_app c l r : (c ∉ l) -> find_char c (l ++ c :: r) = Some (length l).
Proof.
  induction l as [|x l IH]; intros H; cbn; [by rewrite bool_decide_eq_true_2|].
  apply not_elem_of_cons in H as [Hx H]. rewrite bool_decide_eq_false_2 by congruence. by rewrite IH.
Qed.
Lemma runs_single i p s :
  ps_heredoc s = None -> (SQUOTE ∉ p) -> runs i (SQUOTE :: p ++ [SQUOTE]) s (extend_current p true true s).
Proof.
  intros Hh Hp. apply runs_step. intros rest. unfold parse_step. rewrite Hh. eval_tests.
  rewrite <- app_assoc. cbn [app]. rewrite find_char_app by done. rewrite take_app_length.
  do 2 f_equal. rewrite length_app. cbn. lia.
Qed.
Lemma runs_double_mark i s :
  ps_heredoc s = None -> runs i [DQUOTE; SQUOTE; DQUOTE] s (extend_current [SQUOTE] true true s).
Proof.
  intros Hh. apply runs_step. intros rest. unfold parse_step. rewrite Hh. eval_tests.
  cbn [length app _consume_double_quote]. eval_tests.
  assert (Hx : _consume_expansion nb (S i) (SQUOTE :: DQUOTE :: rest) = None) by (by apply expansion_iff).
  rewrite Hx. eval_tests. replace (S (S i) + 1 - i)%nat with 3%nat by lia.
  replace (S (S i) - S i)%nat with 1%nat by lia. f_equal.
  unfold note_blocked, mark_features, extend_current. cbn. by rewrite !orb_false_r.
Qed.

Lemma runs_quoted_from p w i s :
  ps_heredoc s = None -> (SQUOTE ∉ p) ->
  runs i (SQUOTE :: p ++ concat ((fun c => if bool_decide (c = SQUOTE)
                                       then [SQUOTE; DQUOTE; SQUOTE; DQUOTE; SQUOTE] else [c]) <$> w) ++ [SQUOTE]) s
    (extend_current (p ++ w) true true s).
Proof.
  revert p i s. induction w as [|c w IH]; intros p i s Hh Hp; cbn [fmap list_fmap concat app].
  { rewrite app_nil_r. by apply runs_single. }
  case_bool_decide as Hc.
  - subst c. cbn [app].
    match goal with |- runs _ (_ :: _ ++ _ :: _ :: _ :: _ :: ?t) _ _ =>
      replace (SQUOTE :: p ++ SQUOTE :: DQUOTE :: SQUOTE :: DQUOTE :: t)
        with ((SQUOTE :: p ++ [SQUOTE]) ++ [DQUOTE; SQUOTE; DQUOTE] ++ t) by (cbn; by rewrite <- app_assoc)
    end.
    eapply runs_app; [by apply runs_single|]. eapply runs_app; [by apply runs_double_mark|].
    rewrite extend_extend.
    replace (extend_current (p ++ SQUOTE :: w) true true s)
      with (extend_current ([] ++ w) true true (extend_current (p ++ [SQUOTE]) true (true || true) s)).
    + apply (IH []); [done | apply not_elem_of_nil].
    + rewrite extend_extend. cbn [app orb]. by rewrite <- app_assoc.
  - cbn [app]. replace (p ++ c :: w) with ((p ++ [c]) ++ w) by by rewrite <- app_assoc.
    match goal with |- runs _ (_ :: _ ++ _ :: ?t) _ _ =>
      replace (SQUOTE :: p ++ c :: t) with (SQUOTE :: (p ++ [c]) ++ t) by (by rewrite <- app_assoc) end.
    apply IH; [done|]. rewrite elem_of_app, list_elem_of_singleton. intros [?|?]; [done | by subst].
Qed.

(** No character with a meaning of its own is safe to leave unquoted. *)
Definition SHELL_SPECIAL : list string :=
  [BACKSLASH; SQUOTE; DQUOTE; " "; TAB; RETURN; NEWLINE; "#"; "$"; BACKTICK; "|"; ";"; "&"; "("; ")"; "<"; ">";
   "*"; "?"; "["; "{"; "}"; "~"].
Lemma safe_not_special c : char_test shlex_safe c = true -> c ∉ SHELL_SPECIAL.
Proof.
  intros Hs Hc. unfold SHELL_SPECIAL in Hc. rewrite !elem_of_cons, elem_of_nil in Hc.
  destruct_or? Hc; try done; subst c; discriminate Hs.
Qed.
Lemma operator_at_none c r : c ∉ ["|"; ";"; "&"; "("; ")"; "<"; ">"] -> _operator_at (c :: r) = [].
Proof.
  intros Hc. destruct (operator_at_cases c r _ eq_refl) as [[H _]|[[Hin Hs]|(_ & H & _)]]; [done| |].
  - exfalso. unfold OPERATORS in Hin. rewrite !elem_of_cons, elem_of_nil in Hin.
    destruct_or? Hin; try done; rewrite Hin in Hs; apply starts_with_cons in Hs as (? & Hx & _);
      injection Hx as -> _; apply Hc; repeat constructor.
  - by apply str_in_true in H.
Qed.

(** An unquoted word character that assigns nothing extends the word. *)
Lemma runs_safe_char c i s :
  char_test shlex_safe c = true -> ps_heredoc s = None -> (c = "=" -> ps_current s = [] \/ ps_words s ≠ []) ->
  runs i [c] s (extend_current [c] true false s).
Proof.
  intros Hc%safe_not_special Hh He. apply runs_step. intros rest. cbn [app length].
  unfold SHELL_SPECIAL in Hc. rewrite !not_elem_of_cons in Hc. destruct_and! Hc.
  unfold parse_step. rewrite Hh.
  rewrite !bool_decide_eq_false_2 by done. cbn [orb andb].
  rewrite (proj2 (expansion_iff nb i (c :: rest))) by (apply dollar_expands_other; by apply bool_decide_eq_false).
  rewrite operator_at_none by (rewrite !not_elem_of_cons; split_and!; done || apply not_elem_of_nil).
  f_equal. unfold on_plain.
  assert (Hg : char_in "*?[" c = false).
  { unfold char_in. apply str_in_false. change (chars "*?[") with ["*"; "?"; "["].
    rewrite !not_elem_of_cons. split_and!; done || apply not_elem_of_nil. }
  rewrite Hg, !(bool_decide_eq_false_2 (c = "{")), !(bool_decide_eq_false_2 (c = "}")),
    !(bool_decide_eq_false_2 (c = "~")) by done. cbn [orb andb].
  case_bool_decide as Hq; [|done]. cbn [andb]. destruct (He Hq) as [-> | Hw]; [done|].
  destruct (ps_words s); [done|]. by rewrite andb_false_r.
Qed.
Lemma runs_safe_word w i s :
  forallb (char_test shlex_safe) w = true -> ps_heredoc s = None -> (("=" ∉ w) \/ ps_words s ≠ []) ->
  w ≠ [] -> runs i w s (extend_current w true false s).
Proof.
  revert i s. induction w as [|c w IH]; intros i s Hf Hh He Hne; [done|]. cbn in Hf. apply andb_true_iff in Hf as [Hc Hf].
  assert (H1 : runs i [c] s (extend_current [c] true false s)).
  { apply runs_safe_char; try done. intros ->. destruct He as [He|He]; [|by right]. destruct He. left. }
  destruct w as [|d w]; [done|]. apply (runs_app _ [c] _ _ _ _ H1).
  replace (extend_current (c :: d :: w) true false s) with (extend_current (d :: w) true false (extend_current [c] true false s))
    by (by rewrite extend_extend).
  apply IH; try done. destruct He as [He|He]; [|by right]. left. intros ?. apply He. by right.
Qed.

(** One quoted word is read as a word with its text. *)
Lemma runs_word w i s :
  w ≠ [] -> ps_heredoc s = None -> (("=" ∉ w) \/ ps_words s ≠ []) ->
  exists q, runs i (shlex_quote w) s (extend_current w true q s).
Proof.
  intros Hw Hh He. unfold shlex_quote. destruct w as [|c w]; [done|].
  destruct (forallb _ (c :: w)) eqn:Ef; [exists false; by apply runs_safe_word|].
  exists true. apply (runs_quoted_from []); [done | apply not_elem_of_nil].
Qed.
Lemma runs_blank i s : ps_heredoc s = None -> runs i [" "] s (flush_word s).
Proof. intros Hh. apply runs_step. intros rest. unfold parse_step. rewrite Hh. eval_tests. done. Qed.
Lemma runs_control op i s :
  op ∈ CONTROL_OPERATORS -> ps_heredoc s = None -> ps_heredoc (on_operator (chars op) s) = None ->
  runs i (chars op ++ [" "]) s (flush_word (on_operator (chars op) s)).
Proof.
  intros Hop Hh Hh' rest. rewrite length_app with (l := chars op), Nat.add_assoc, <- app_assoc.
  rewrite <- (runs_blank (i + length (chars op)) _ Hh' rest). cbn [app].
  assert (Hs : parse_step nb i (chars op ++ " " :: rest) s = (Some (length (chars op)), on_operator (chars op) s)).
  { unfold CONTROL_OPERATORS in Hop. rewrite !elem_of_cons, elem_of_nil in Hop.
    destruct_or? Hop; try done; subst op;
      match goal with |- context [chars ?o] => let v := eval vm_compute in (chars o) in change (chars o) with v end;
      unfold parse_step; rewrite Hh; cbn [app]; eval_tests;
      (rewrite (proj2 (expansion_iff _ _ _)) by (by apply dollar_expands_other)); reflexivity. }
  destruct (chars op) as [|c l] eqn:El; [by unfold CONTROL_OPERATORS in Hop; rewrite !elem_of_cons, elem_of_nil in Hop;
    destruct_or? Hop; subst|].
  cbn [app length parse_loop] in *. rewrite Hs. cbn [drop]. rewrite drop_app_length.
  rewrite parse_loop_fuel by (rewrite length_app; cbn; lia). done.
Qed.

Definition words_ok (ws : list (list string)) : Prop := Forall (fun w => w ≠ []) ws.
Lemma runs_join ws i st s :
  ws ≠ [] -> words_ok ws -> sim st s -> lx_word st = None -> (("=" ∉ default [] (head ws)) \/ lx_words st ≠ []) ->
  exists st' s', runs i (shlex_join ws) s s' /\ sim st' s' /\ end_word st' = MkLex (lx_cmds st) (lx_words st ++ ws) None.
Proof.
  revert i st s. induction ws as [|w ws IH]; intros i st s Hne Hok Hs Hw He; [done|].
  apply Forall_cons in Hok as [Hw1 Hok].
  assert (He' : ("=" ∉ w) \/ ps_words s ≠ []).
  { destruct He as [He|He]; [by left|right]. intros Hx. by apply (views_empty _ _ (sim_words _ _ Hs)) in Hx. }
  destruct (runs_word w i s Hw1 (sim_heredoc _ _ Hs) He') as [q Hq].
  pose proof (sim_extend _ _ w q Hw1 Hs) as Hs1.
  assert (Hend : end_word (add_chars w st) = MkLex (lx_cmds st) (lx_words st ++ [w]) None)
    by (unfold end_word, add_chars; cbn; by rewrite Hw).
  destruct ws as [|w2 ws].
  { by exists (add_chars w st), (extend_current w true q s). }
  pose proof (runs_blank (i + length (shlex_quote w)) _ (sim_heredoc _ _ Hs1)) as Hb.
  pose proof (sim_flush_word _ _ Hs1) as Hs2. rewrite Hend in Hs2.
  destruct (IH (i + length (shlex_quote w) + length [" "])%nat _ _ ltac:(done) Hok Hs2 eq_refl) as (st' & s' & Hr & Hs' & He2).
  { right. cbn. by destruct (lx_words st). }
  exists st', s'. split_and!; [|done|].
  - change (shlex_join (w :: w2 :: ws)) with (shlex_quote w ++ [" "] ++ shlex_join (w2 :: ws)).
    eapply runs_app; [exact Hq|]. eapply runs_app; [exact Hb | exact Hr].
  - rewrite He2. cbn. by rewrite <- app_assoc.
Qed.

(** Argument vectors, quoted and joined by control operators *)
Fixpoint render_graph (ws : list (list string)) (more : list (string * list (list string))) : list string :=
  shlex_join ws ++ match more with
                   | [] => []
                   | (op, ws') :: m => [" "] ++ (chars op ++ [" "]) ++ render_graph ws' m
                   end.
Definition argv_ok (ws : list (list string)) : Prop := ws ≠ [] /\ words_ok ws /\ ("=" ∉ default [] (head ws)).

Lemma chars_control op : op ∈ CONTROL_OPERATORS ->
  text_of (chars op) = op /\ risky_operator op = false /\ str_in op CONTROL_OPERATORS = true.
Proof.
  intros Hop. split; [apply text_of_chars|]. unfold CONTROL_OPERATORS in Hop. rewrite !elem_of_cons, elem_of_nil in Hop.
  destruct_or? Hop; try done; by subst op.
Qed.

Lemma runs_graph ws more i st s :
  argv_ok ws -> Forall (fun p => p.1 ∈ CONTROL_OPERATORS /\ argv_ok p.2) more ->
  sim st s -> lx_word st = None -> lx_words st = [] ->
  exists st' s', runs i (render_graph ws more) s s' /\ sim st' s'
    /\ lx_cmds (end_command st') = lx_cmds st ++ ws :: more.*2.
Proof.
  revert ws i st s. induction more as [|[op ws'] more IH]; intros ws i st s (Hne & Hok & He) Hm Hs Hw Hws.
  - destruct (runs_join ws i st s Hne Hok Hs Hw (or_introl He)) as (st' & s' & Hr & Hs' & Hend).
    exists st', s'. cbn [render_graph]. rewrite app_nil_r. split_and!; try done.
    rewrite <- end_command_end_word, Hend, Hws. unfold end_command. cbn. destruct ws; done.
  - apply Forall_cons in Hm as [[Hop Hok'] Hm]. cbn [fst snd] in *.
    destruct (runs_join ws i st s Hne Hok Hs Hw (or_introl He)) as (st1 & s1 & Hr & Hs1 & Hend).
    pose proof (sim_flush_word _ _ Hs1) as Hs2. rewrite Hend, Hws in Hs2. cbn [app] in Hs2.
    destruct (chars_control op Hop) as (Ht & Hrisk & Hc).
    set (st2 := end_command (MkLex (lx_cmds st) ws None)).
    assert (Hs3 : sim st2 (on_operator (chars op) (flush_word s1))).
    { rewrite control_operator_step by (by rewrite Ht). apply sim_before; [apply end_command_word|].
      unfold st2. rewrite <- end_command_end_word. apply sim_flush_command; [apply end_word_word|].
      by apply sim_push, sim_flush_word. }
    assert (Hs4 : sim st2 (flush_word (on_operator (chars op) (flush_word s1)))).
    { replace st2 with (end_word st2); [by apply sim_flush_word|]. unfold end_word, st2. by rewrite end_command_word. }
    edestruct (IH ws' (i + length (shlex_join ws) + length [" "] + length (chars op ++ [" "]))%nat st2 _ Hok' Hm Hs4)
      as (st' & s' & Hr' & Hs' & Hcmd); [apply end_command_word | apply end_command_words|].
    exists st', s'. split_and!; [|done|].
    + cbn [render_graph]. eapply runs_app; [exact Hr|].
      eapply runs_app; [apply runs_blank; exact (sim_heredoc _ _ Hs1)|].
      eapply runs_app; [|exact Hr'].
      apply runs_control; [done | exact (sim_heredoc _ _ Hs2) | exact (sim_heredoc _ _ Hs3)].
    + rewrite Hcmd. unfold st2, end_command. cbn. destruct ws; [done|]. cbn. by rewrite <- app_assoc.
Qed.

Lemma parse_graph ws more :
  argv_ok ws -> Forall (fun p => p.1 ∈ CONTROL_OPERATORS /\ argv_ok p.2) more ->
  exists s, _parse nb (render_graph ws more)
      = (MkAst (ps_commands s) (ps_operators s) (py_sorted (ps_features s)), false)
    /\ sim (MkLex (ws :: more.*2) [] None) s.
Proof.
  intros Hok Hm.
  destruct (runs_graph ws more 0 lex_init p_init Hok Hm sim_init eq_refl eq_refl) as (st & s & Hr & Hs & Hc).
  specialize (Hr []). rewrite app_nil_r in Hr. unfold _parse. rewrite Hr. cbn [length parse_loop].
  exists (flush_command (flush_word s)). apply finish_sim in Hs. rewrite Hc in Hs.
  by rewrite (sim_heredoc _ _ Hs), (sim_nested _ _ Hs).
Qed.
End runs.

Lemma classify_ast ast b : an_ast (classify ast b) = ast.
Proof.
  unfold classify. case_match; [done|]. case_match; [|done]. destruct (sh_commands ast) as [|c cs] eqn:E; [done|].
  clear. induction (c :: cs) as [|d ds IH]; [done|]. cbn [check_commands]. repeat case_match; done.
Qed.

(** A code point: a leading byte and its continuation bytes *)
Definition wf_char (c : string) : bool :=
  match c with EmptyString => false | String a r => negb (is_continuation a) && string_forallb is_continuation r end.
Lemma chars_app_char c r l :
  wf_char c = true -> chars r = l -> match r with EmptyString => True | String d _ => is_continuation d = false end ->
  chars (c +:+ r) = c :: l.
Proof.
  destruct c as [|a c]; [done|]. cbn [wf_char]. rewrite andb_true_iff. intros [_ Hc] <- Hr.
  revert a. induction c as [|b c IH]; intros a.
  - destruct r as [|d r]; [done|]. change (String a "" +:+ String d r) with (String a (String d r)).
    cbn [chars]. by rewrite Hr.
  - cbn in Hc. apply andb_true_iff in Hc as [Hb Hc]. specialize (IH Hc b).
    change (String a (String b c) +:+ r) with (String a (String b c +:+ r)).
    change (chars (String a (String b c +:+ r))) with (if is_continuation b
      then match chars (String b c +:+ r) with x :: l => String a x :: l | [] => [] end
      else String a EmptyString :: chars (String b c +:+ r)).
    by rewrite Hb, IH.
Qed.
Lemma chars_text_of l : Forall (fun c => wf_char c = true) l -> chars (text_of l) = l.
Proof.
  induction 1 as [|c l Hc Hl IH]; [done|]. cbn [text_of]. apply chars_app_char; [done..|].
  destruct Hl as [|d l Hd _]; [done|]. cbn [text_of]. destruct d as [|a d]; [done|]. cbn.
  cbn in Hd. by apply andb_true_iff in Hd as [?%negb_true_iff _].
Qed.
Definition wf_word (w : list string) : Prop := Forall (fun c => wf_char c = true) w.
Lemma wf_quote w : wf_word w -> wf_word (shlex_quote w).
Proof.
  intros Hw. unfold shlex_quote. destruct w as [|c w]; [by repeat constructor|].
  destruct (forallb _ (c :: w)); [done|]. constructor; [done|]. apply Forall_app. split; [|by repeat constructor].
  revert Hw. generalize (c :: w). clear. induction 1 as [|c w Hc Hw IH]; [constructor|].
  cbn [fmap list_fmap concat]. apply Forall_app. split; [|done]. case_bool_decide; by repeat constructor.
Qed.
Lemma wf_join ws : Forall wf_word ws -> wf_word (shlex_join ws).
Proof.
  induction 1 as [|w ws Hw Hws IH]; [constructor|]. cbn [shlex_join]. destruct ws as [|w2 ws]; [by apply wf_quote|].
  apply Forall_app. split; [by apply wf_quote|]. by constructor.
Qed.
Lemma wf_graph ws more :
  Forall wf_word ws -> Forall (fun p => p.1 ∈ CONTROL_OPERATORS /\ Forall wf_word p.2) more -> wf_word (render_graph ws more).
Proof.
  revert ws. induction more as [|[op ws'] more IH]; intros ws Hws Hm; cbn [render_graph].
  - rewrite app_nil_r. by apply wf_join.
  - apply Forall_cons in Hm as [[Hop Hw] Hm]. apply Forall_app. split; [by apply wf_join|].
    constructor; [done|]. apply Forall_app. split; [|by apply IH]. apply Forall_app. split; [|by repeat constructor].
    unfold CONTROL_OPERATORS in Hop. cbn [fst] in Hop. rewrite !elem_of_cons, elem_of_nil in Hop.
    destruct_or? Hop; try done; subst op; by repeat constructor.
Qed.

(** A graph of argument vectors, each word quoted by [shlex.quote] and the
    vectors joined by control operators, is read back exactly: the commands of the
    AST have the original words whatever characters they contain, and the verdict is
    the one the policies give to those vectors. *)
Theorem quoted_graph_read_back ws more a :
  argv_ok ws /\ Forall wf_word ws ->
  Forall (fun p => p.1 ∈ CONTROL_OPERATORS /\ argv_ok p.2 /\ Forall wf_word p.2) more ->
  in_budget (text_of (render_graph ws more)) = true ->
  analyze_shell_script (text_of (render_graph ws more)) = Ok a ->
  an_status a = graph_status (ws :: more.*2)
  /\ (fun c => sw_text <$> sc_words c) <$> sh_commands (an_ast a) = (fun v => text_of <$> v) <$> (ws :: more.*2).
Proof.
  intros [Hok Hwf] Hm. unfold in_budget. rewrite andb_true_iff, negb_true_iff, Z.leb_le. intros [Hne Hsz].
  assert (Hg : wf_word (render_graph ws more)).
  { apply wf_graph; [done|]. eapply Forall_impl; [exact Hm|]. cbn. tauto. }
  intros ->%analyze_shell_script_Ok. rewrite (chars_text_of _ Hg), analyze_levels_S, Hne.
  replace (_MAX_SCRIPT_BYTES <? _) with false by lia.
  set (nb := fun inner => bool_decide (_ = SHELL_BLOCKED)).
  destruct (parse_graph nb ws more Hok) as (s & -> & Hs).
  { eapply Forall_impl; [exact Hm|]. cbn. tauto. }
  split; [by apply sim_verdict|]. rewrite classify_ast. cbn [sh_commands].
  pose proof (sim_cmds _ _ Hs) as Hc. revert Hc. cbn [lx_cmds]. generalize (ps_commands s) (ws :: more.*2). clear.
  induction l as [|c l IH]; intros [|v g] H; try done. cbn [fmap list_fmap] in *.
  apply cons_eq_inv in H as [Hv H]. f_equal; [|by apply IH].
  apply views_texts. unfold cmd_view, ref_view in Hv. congruence.
Qed.
Lemma quoted_graph_read_back_witness :
  let ws := chars <$> ["grep"; "it's $HOME \"; "f"] in
  let more := [(";", chars <$> ["sudo"; "id"])] in
  exists a, analyze_shell_script (text_of (render_graph ws more)) = Ok a /\ an_status a = SHELL_BLOCKED
    /\ (fun c => sw_text <$> sc_words c) <$> sh_commands (an_ast a) = [["grep"; "it's $HOME \"; "f"]; ["sudo"; "id"]].
Proof.
  intros ws more. eexists. split; [vm_compute; reflexivity|].
  refine (quoted_graph_read_back ws more _ _ _ _ _); [| |vm_compute; reflexivity..].
  - split_and!; [split_and!; [done | by repeat constructor |]|]; [by apply (bool_decide_unpack _) | by repeat constructor].
  - repeat constructor; cbn; try done; by apply (bool_decide_unpack _).
Defined.

(** The parser's loops end: every iteration consumes a character, so the number
    of characters is enough fuel, and more fuel changes neither the parse nor the
    scan of a double quotation. *)
Theorem shell_parser_terminates nb fuel i l s fs b :
  (length l <= fuel)%nat ->
  (forall n s', l ≠ [] -> parse_step nb i l s = (Some n, s') -> (1 <= n)%nat)
  /\ parse_loop nb fuel i l s = parse_loop nb (length l) i l s
  /\ _consume_double_quote nb fuel i l fs b = _consume_double_quote nb (length l) i l fs b.
Proof.
  intros Hf. split_and!; [intros; by eapply parse_step_advances | by apply parse_loop_fuel | by apply double_quote_fuel].
Qed.
Lemma shell_parser_terminates_witness :
  parse_loop (fun _ => false) 100 0 (chars "ls") p_init = parse_loop (fun _ => false) 2 0 (chars "ls") p_init.
Proof.
  refine (proj1 (proj2 (shell_parser_terminates (fun _ => false) 100 0 (chars "ls") p_init [] false _))).
  vm_compute. lia.
Defined.

Lemma dangerous_iff patterns lowered :
  patterns ≡ₚ DANGEROUS_PATTERNS ->
  str_empty (default EmptyString (List.find (fun p => contains (chars p) lowered) patterns)) = true
  <-> (forall p, p ∈ DANGEROUS_PATTERNS -> contains (chars p) lowered = false).
Proof.
  intros Hp. destruct (List.find _ patterns) as [p|] eqn:E.
  - apply List.find_some in E as [Hin Hc]. apply list_elem_of_In in Hin. rewrite Hp in Hin. cbn. split.
    + intros He. exfalso. unfold DANGEROUS_PATTERNS in Hin. rewrite !elem_of_cons, elem_of_nil in Hin.
      destruct_or? Hin; subst; done.
    + intros H. specialize (H p Hin). congruence.
  - split; [|done]. intros _ p Hin. rewrite <- Hp in Hin. apply list_elem_of_In in Hin. exact (List.find_none _ _ E p Hin).
Qed.

(** C25. What the terminal tool runs without approval.  For every non-blank script within the size budget that has no
    escape, carriage return, empty quotation or [$] before a quotation mark or a bracket, [is_read_only_command] accepts
    exactly those that are a literal graph whose commands all satisfy the argument policies and in which no dangerous
    pattern occurs, in any case of letters; the iteration order of the pattern set is irrelevant.  (Outside of these
    scripts it can accept more: [empty_quotation_hides_command].) *)
Theorem read_only_command_iff patterns script b :
  patterns ≡ₚ DANGEROUS_PATTERNS ->
  in_budget script = true -> ordinary (chars script) = true -> is_read_only_command patterns script = Ok b ->
  b = true <->
  (exists g, literal_graph (chars script) = Some g /\ graph_status g = SAFE)
  /\ forall p, p ∈ DANGEROUS_PATTERNS -> contains (chars p) (lower_chars (chars (py_strip script))) = false.
Proof.
  intros Hp Hb Ho Hr. unfold is_read_only_command in Hr. inv_res.
  match goal with H : evaluate_command_safety _ _ = Ok _ |- _ => unfold evaluate_command_safety in H end. inv_res.
  match goal with H : analyze_shell_script _ = Ok ?a |- _ => rename H into Ha, a into a0 end.
  cbn [cs_read_only cs_blocked].
  pose proof (verdict_graph _ _ Hb Ho Ha) as Hv. destruct (analyze_flags _ _ Ha) as [-> _].
  rewrite <- (dangerous_iff _ _ Hp), andb_true_iff, negb_true_iff, orb_false_iff, bool_decide_eq_true,
    bool_decide_eq_false, negb_false_iff.
  destruct (literal_graph (chars script)) as [g|].
  - rewrite Hv. split.
    + intros (Hs & _ & Hd). split; [by exists g | done].
    + intros [(g' & [= <-] & Hs) Hd]. rewrite Hs. done.
  - split; [by intros [Hs _] | by intros [(g & ? & _) _]].
Qed.
Lemma read_only_command_iff_witness :
  is_read_only_command DANGEROUS_PATTERNS "ls -la; git log" = Ok true
  /\ exists g, literal_graph (chars "ls -la; git log") = Some g /\ graph_status g = SAFE.
Proof.
  split; [vm_compute; reflexivity|].
  refine (proj1 (proj1 (read_only_command_iff DANGEROUS_PATTERNS "ls -la; git log" true _ _ _ _) _));
    [reflexivity | vm_compute; reflexivity..].
Defined.

(** ** Where the analysis and the shell disagree *)
(** The lines that a [#] starts in the shell are comments, but after an empty
    quotation the parser has forgotten that a word may start: it reads on, and a
    quotation mark in the comment hides the following line.  The shell runs
    [sudo id]. *)
Theorem empty_quotation_hides_command :
  let script := text_of (chars "echo '' #'" ++ [NEWLINE] ++ chars "sudo id #'") in
  exists a, analyze_shell_script script = Ok a /\ an_status a = SAFE
    /\ literal_graph (chars script) = Some [[chars "echo"; []]; [chars "sudo"; chars "id"]].
Proof. eexists. split_and!; vm_compute; reflexivity. Qed.
(** [$'...'] is a quotation to the shell, and an escaped newline joins two lines;
    the parser keeps the dollar sign or the newline in the word, so the forbidden
    predicate of [find] is not recognised. *)
Theorem continued_words_are_safe :
  (exists a, analyze_shell_script "find . $'-delete'" = Ok a /\ an_status a = SAFE
     /\ ((fun c => sw_text <$> sc_words c) <$> sh_commands (an_ast a)) = [["find"; "."; "$-delete"]])
  /\ (exists a, analyze_shell_script (text_of (chars "find . -del\" ++ [NEWLINE] ++ chars "ete")) = Ok a
        /\ an_status a = SAFE).
Proof. split; eexists; split_and!; vm_compute; reflexivity. Qed.
(** The end of an expansion is returned as a length, so text after it is skipped:
    a blocked executable later on the line is not seen, while in front it is. *)
Theorem expansion_skips_commands :
  (exists a, analyze_shell_script "echo $(true) ; sudo id" = Ok a /\ an_status a = SEMANTIC_UNKNOWN
     /\ executables a = ["echo"])
  /\ (exists a, analyze_shell_script "sudo id ; echo $(true)" = Ok a /\ an_status a = SHELL_BLOCKED).
Proof. split; eexists; split_and!; vm_compute; reflexivity. Qed.
