(* ===== verification/PyText.v ===== *)
(** * Text functions of the standard library

    [os.path] on POSIX without the file system, [fnmatch.fnmatch] and
    [shlex.split], as the permission code uses them.  Texts are indexed by code
    points, the strings of [chars]. *)
From Stdlib Require Import Ascii.
From S2P Require Import Prelude PyStr Json ShellSemantics.
Open Scope Z_scope.

(** ** [posixpath] *)
Definition isabs (path : string) : bool := has_prefix "/" path.
(** [path.split("/")] without the empty and ["."] components *)
Definition path_parts (path : string) : list string :=
  List.filter (fun c => negb (str_in c [""; "."])) (split_slash path).
Definition initial_slashes (path : string) : string :=
  if has_prefix "//" path && negb (has_prefix "///" path) then "//" else if isabs path then "/" else "".
(** One component of the loop of [normpath]; [acc] is reversed *)
Definition norm_step (rooted : bool) (acc : list string) (comp : string) : list string :=
  if negb (bool_decide (comp = "..")) || (negb rooted && match acc with [] => true | _ => false end)
     || bool_decide (head acc = Some "..")
  then comp :: acc else tail acc.
Definition normpath (path : string) : string :=
  if str_empty path then "."
  else
    let slashes := initial_slashes path in
    let comps := rev (foldl (norm_step (negb (str_empty slashes))) [] (path_parts path)) in
    let text := slashes +:+ join "/" comps in
    if str_empty text then "." else text.

(** [common = s1] up to the first difference from [s2] *)
Fixpoint common_prefix (s1 s2 : list string) : list string :=
  match s1, s2 with
  | x :: r1, y :: r2 => if bool_decide (x = y) then x :: common_prefix r1 r2 else []
  | _, _ => []
  end.
(** [os.path.commonpath((a, b))] *)
Definition commonpath (a b : string) : res string :=
  if negb (eqb (isabs a) (isabs b)) then Raise (Exn ValueError "Can't mix absolute and relative paths")
  else
    let '(s1, s2) := if py_leb (path_parts a) (path_parts b) then (path_parts a, path_parts b)
                     else (path_parts b, path_parts a) in
    Ok ((if isabs a then "/" else "") +:+ join "/" (common_prefix s1 s2)).

(** [str(PurePosixPath(path))] *)
Definition pure_posix_path (path : string) : string :=
  let text := initial_slashes path +:+ join "/" (path_parts path) in
  if str_empty text then "." else text.

(** ** [fnmatch] *)
Inductive class_item := CChar (c : string) | CRange (lo hi : string).
Inductive glob_item := GStar | GAny | GNever | GLit (c : string) | GClass (negated : bool) (items : list class_item).

(** The characters of a set up to its closing bracket; a leading bracket is a member *)
Fixpoint until_bracket (l : list string) : option (list string * list string) :=
  match l with
  | [] => None
  | c :: r => if bool_decide (c = "]") then Some ([], r) else (fun p => (c :: p.1, p.2)) <$> until_bracket r
  end.
Definition set_text (l : list string) : option (list string * list string) :=
  let '(bang, l1) := match l with c :: r => if bool_decide (c = "!") then ([c], r) else ([], l) | [] => ([], l) end in
  let '(first, l2) := match l1 with c :: r => if bool_decide (c = "]") then ([c], r) else ([], l1) | [] => ([], l1) end in
  (fun p => (bang ++ first ++ p.1, p.2)) <$> until_bracket l2.

(** Splits at the hyphens of ranges: [skip] characters are taken before the next
    one is looked for. *)
Fixpoint range_chunks (skip : nat) (current : list string) (l : list string) : list (list string) :=
  match l with
  | [] => [rev current]
  | c :: r =>
      match skip with
      | S n => range_chunks n (c :: current) r
      | O => if bool_decide (c = "-") then rev current :: range_chunks 2 [] r else range_chunks O (c :: current) r
      end
  end.
Definition set_chunks (l : list string) : list (list string) :=
  let skip := match l with c :: _ => if bool_decide (c = "!") then 2%nat else 1%nat | [] => 1%nat end in
  let chunks := range_chunks skip [] l in
  match last chunks with
  | Some [] => match rev (removelast chunks) with c :: r => rev r ++ [c ++ ["-"]] | [] => [] end
  | _ => chunks
  end.
Definition str_gt (a b : string) : bool := negb (py_leb a b).
(** Empty ranges are removed from the right *)
Definition merge_chunk (left : list string) (right : list (list string)) : list (list string) :=
  match right, last left with
  | c :: rest, Some hi =>
      match c with
      | lo :: c' => if str_gt hi lo then (removelast left ++ c') :: rest else left :: right
      | [] => left :: right
      end
  | _, _ => left :: right
  end.
Definition merge_chunks (chunks : list (list string)) : list (list string) := foldr merge_chunk [] chunks.

(** The members of the class the regular expression module reads: [None] is the
    hyphen of a range. *)
Fixpoint class_items (l : list (option string)) : list class_item :=
  match l with
  | [] => []
  | t :: r =>
      let c := default "-" t in
      match r with
      | None :: r' =>
          match r' with
          | [] => [CChar c; CChar "-"]
          | u :: r'' => CRange c (default "-" u) :: class_items r''
          end
      | _ => CChar c :: class_items r
      end
  end.
Fixpoint join_chunks (chunks : list (list string)) : list (option string) :=
  match chunks with
  | [] => []
  | [c] => Some <$> c
  | c :: r => (Some <$> c) ++ None :: join_chunks r
  end.
Definition set_item (text : list string) : glob_item :=
  let body := if str_in "-" text then join_chunks (merge_chunks (set_chunks text)) else Some <$> text in
  match body with
  | [] => GNever
  | Some c :: r =>
      if bool_decide (c = "!") then match r with [] => GAny | _ => GClass true (class_items r) end
      else GClass false (class_items body)
  | _ => GClass false (class_items body)
  end.
Fixpoint translate (fuel : nat) (pat : list string) : list glob_item :=
  match fuel, pat with
  | S fuel', c :: r =>
      if bool_decide (c = "*") then GStar :: translate fuel' r
      else if bool_decide (c = "?") then GAny :: translate fuel' r
      else if bool_decide (c = "[") then
        match set_text r with
        | Some (text, rest) => set_item text :: translate fuel' rest
        | None => GLit c :: translate fuel' r
        end
      else GLit c :: translate fuel' r
  | _, _ => []
  end.
Definition in_item (c : string) (i : class_item) : bool :=
  match i with CChar d => bool_decide (c = d) | CRange lo hi => py_leb lo c && py_leb c hi end.
Definition item_matches (i : glob_item) (c : string) : bool :=
  match i with
  | GStar | GNever => false
  | GAny => true
  | GLit d => bool_decide (c = d)
  | GClass negated items => xorb negated (existsb (in_item c) items)
  end.
Fixpoint glob_match (items : list glob_item) (name : list string) : bool :=
  match items with
  | [] => match name with [] => true | _ => false end
  | GStar :: rest =>
      (fix star (name : list string) : bool :=
         glob_match rest name || match name with [] => false | _ :: r => star r end) name
  | i :: rest => match name with [] => false | c :: r => item_matches i c && glob_match rest r end
  end.
Definition fnmatch (name pat : string) : bool :=
  glob_match (translate (length (chars pat)) (chars pat)) (chars name).

(** ** [shlex.split] *)
Inductive shlex_state := SBlank | SWord | SQuote (q : string) | SEscape (back : option string).
Definition shlex_ws (c : string) : bool := str_in c [" "; TAB; RETURN; NEWLINE].
Definition is_quote (c : string) : bool := str_in c [SQUOTE; DQUOTE].
Fixpoint shlex_loop (st : shlex_state) (token : list string) (quoted : bool) (words : list (list string)) (l : list string)
    : res (list (list string)) :=
  let emitted := match token with [] => quoted | _ => true end in
  match l with
  | [] =>
      match st with
      | SQuote _ => Raise (Exn ValueError "No closing quotation")
      | SEscape _ => Raise (Exn ValueError "No escaped character")
      | _ => Ok (if emitted then words ++ [token] else words)
      end
  | c :: r =>
      match st with
      | SBlank =>
          if shlex_ws c then shlex_loop SBlank token quoted words r
          else if bool_decide (c = BACKSLASH) then shlex_loop (SEscape None) token quoted words r
          else if is_quote c then shlex_loop (SQuote c) token quoted words r
          else shlex_loop SWord [c] quoted words r
      | SWord =>
          if shlex_ws c
          then if emitted then shlex_loop SBlank [] false (words ++ [token]) r else shlex_loop SBlank token quoted words r
          else if is_quote c then shlex_loop (SQuote c) token quoted words r
          else if bool_decide (c = BACKSLASH) then shlex_loop (SEscape None) token quoted words r
          else shlex_loop SWord (token ++ [c]) quoted words r
      | SQuote q =>
          if bool_decide (c = q) then shlex_loop SWord token true words r
          else if bool_decide (c = BACKSLASH) && bool_decide (q = DQUOTE) then shlex_loop (SEscape (Some q)) token true words r
          else shlex_loop (SQuote q) (token ++ [c]) true words r
      | SEscape back =>
          let kept := match back with
            | Some q => if negb (bool_decide (c = BACKSLASH)) && negb (bool_decide (c = q)) then [BACKSLASH] else []
            | None => [] end in
          shlex_loop (match back with Some q => SQuote q | None => SWord end) (token ++ kept ++ [c]) quoted words r
      end
  end.
Definition shlex_split (s : string) : res (list string) :=
  let* words := shlex_loop SBlank [] false [] (chars s) in Ok (text_of <$> words).

(** ** Components *)
Definition slash_free (c : string) : Prop := string_forallb (fun a => negb (byte a =? 47)) c = true.
Lemma split_slash_cons a s :
  (byte a =? 47) = false ->
  split_slash (String a s) = match split_slash s with x :: l => String a x :: l | [] => [] end.
Proof. intros H. cbn. by rewrite H. Qed.
Lemma split_slash_nonempty s : split_slash s ≠ [].
Proof. induction s as [|a s IH]; cbn; [done|]. destruct (byte a =? 47); [done|]. by destruct (split_slash s). Qed.
Lemma split_slash_app c s :
  slash_free c -> split_slash (c +:+ s) = match split_slash s with x :: l => (c +:+ x) :: l | [] => [] end.
Proof.
  unfold slash_free. induction c as [|a c IH]; intros H; [change ("" +:+ s) with s; by destruct (split_slash s)|].
  cbn in H. apply andb_true_iff in H as [Ha%negb_true_iff H].
  change (String a c +:+ s) with (String a (c +:+ s)). rewrite split_slash_cons, IH by done.
  by destruct (split_slash s).
Qed.
Lemma split_join l : l ≠ [] -> Forall slash_free l -> split_slash (join "/" l) = l.
Proof.
  intros Hne Hl. induction Hl as [|c l Hc Hl IH]; [done|]. destruct l as [|d l].
  - cbn. rewrite <- (str_app_nil_r c) at 1. rewrite split_slash_app by done. cbn. by rewrite str_app_nil_r.
  - change (join "/" (c :: d :: l)) with (c +:+ String "/" (join "/" (d :: l))). rewrite split_slash_app by done.
    cbn [split_slash]. change (byte "/" =? 47) with true. cbn iota. rewrite IH by done. by rewrite str_app_nil_r.
Qed.
Lemma split_slash_free s : Forall slash_free (split_slash s).
Proof.
  induction s as [|a s IH]; [by repeat constructor|]. destruct (byte a =? 47) eqn:E.
  - cbn. rewrite E. by constructor.
  - rewrite split_slash_cons by done. destruct IH as [|x l Hx Hl]; [constructor|]. constructor; [|done].
    unfold slash_free in *. cbn. by rewrite E.
Qed.
(** A component that [path_parts] keeps *)
Definition component (c : string) : Prop := slash_free c /\ c ≠ "" /\ c ≠ ".".
Lemma path_parts_components s : Forall component (path_parts s).
Proof.
  unfold path_parts. pose proof (split_slash_free s) as H. induction H as [|c l Hc Hl IH]; [constructor|].
  cbn [List.filter]. destruct (str_in c [""; "."]) eqn:E; [exact IH|]. constructor; [|exact IH].
  apply str_in_false in E. rewrite !not_elem_of_cons in E. split_and!; [done | tauto | tauto].
Qed.
Lemma path_parts_root l : Forall component l -> path_parts (String "/" (join "/" l)) = l.
Proof.
  intros Hl. unfold path_parts. cbn [split_slash]. change (byte "/" =? 47) with true. cbn iota.
  destruct l as [|c l]; [done|]. rewrite split_join; [|done|eapply Forall_impl; [exact Hl | by intros ? []]].
  change (List.filter (fun c => negb (str_in c [""; "."])) ("" :: c :: l))
    with (List.filter (fun c => negb (str_in c [""; "."])) (c :: l)).
  induction Hl as [|d r (_ & H1 & H2) Hr IH]; [done|]. cbn [List.filter].
  replace (str_in d [""; "."]) with false; [cbn; by rewrite IH|]. symmetry. apply str_in_false.
  rewrite !not_elem_of_cons. split_and!; [done | done | apply not_elem_of_nil].
Qed.

Lemma common_prefix_comm a b : common_prefix a b = common_prefix b a.
Proof.
  revert b. induction a as [|x a IH]; intros [|y b]; try done. cbn.
  destruct (bool_decide_reflect (x = y)) as [->|H]; [by rewrite bool_decide_eq_true_2, IH|].
  by rewrite bool_decide_eq_false_2 by congruence.
Qed.
Lemma common_prefix_prefix a b : common_prefix a b `prefix_of` a.
Proof.
  revert b. induction a as [|x a IH]; intros [|y b]; cbn; try apply prefix_nil.
  case_bool_decide; [|apply prefix_nil]. by apply prefix_cons.
Qed.
Lemma common_prefix_all a b : common_prefix a b = a <-> a `prefix_of` b.
Proof.
  revert b. induction a as [|x a IH]; intros b; [split; [intros; apply prefix_nil | done]|].
  destruct b as [|y b]; cbn; [split; [done | intros [? ?]; done]|].
  case_bool_decide as E.
  - subst y. split; [intros [= H]; apply prefix_cons; by apply IH | intros H%prefix_cons_inv_2; f_equal; by apply IH].
  - split; [done | intros H%prefix_cons_inv_1; done].
Qed.
Lemma Forall_prefix {A} (P : A -> Prop) l k : l `prefix_of` k -> Forall P k -> Forall P l.
Proof. intros [r ->] H. by apply Forall_app in H as [? _]. Qed.

(** A path in the form [realpath] returns: absolute, without empty components *)
Definition plain_path (path : string) : Prop := path = String "/" (join "/" (path_parts path)).
(** Containment is by whole components. *)
Lemma commonpath_spec root path :
  plain_path root ->
  commonpath root path = Ok root <-> isabs path = true /\ path_parts root `prefix_of` path_parts path.
Proof.
  intros Hroot. assert (Ha : isabs root = true) by (rewrite Hroot; done).
  unfold commonpath. rewrite Ha. destruct (isabs path) eqn:Hp; cbn [eqb negb]; [|split; [done | by intros []]].
  assert (Hc : (let '(s1, s2) := if py_leb (path_parts root) (path_parts path) then (path_parts root, path_parts path)
                else (path_parts path, path_parts root) in Ok ("/" +:+ join "/" (common_prefix s1 s2)))
              = Ok (String "/" (join "/" (common_prefix (path_parts root) (path_parts path))))).
  { destruct (py_leb _ _); [done|]. by rewrite common_prefix_comm. }
  rewrite Hc. split.
  - intros [= H]. split; [done|]. apply common_prefix_all. apply (f_equal path_parts) in H.
    rewrite path_parts_root in H; [done|].
    eapply Forall_prefix; [apply common_prefix_prefix | apply path_parts_components].
  - intros [_ H%common_prefix_all]. rewrite H. by rewrite <- Hroot.
Qed.
