(* ===== verification/Coroutine.v ===== *)
(** * Coroutines over a shared database

    The asynchronous components suspend at every database access.  A [World] holds
    the component's own state, the database and what is to come: for each access,
    the operations that others complete before it, and whether it works, fails
    before it has an effect, or raises after its effect is committed. *)
From S2P Require Import Prelude.

Inductive outcome := Works | FailsBefore | FailsAfter.
Record Access (Op : Type) := MkAccess { ac_before : list Op; ac_outcome : outcome }.
Arguments MkAccess {Op} ac_before ac_outcome.
Arguments ac_before {Op} _.
Arguments ac_outcome {Op} _.
Record World (E D Op : Type) := MkWorld { w_engine : E; w_db : D; w_accesses : list (Access Op) }.
Arguments MkWorld {E D Op} w_engine w_db w_accesses.
Arguments w_engine {E D Op} _.
Arguments w_db {E D Op} _.
Arguments w_accesses {E D Op} _.

Definition eng (E D Op A : Type) : Type := World E D Op -> res A * World E D Op.
Section eng.
Context {E D Op : Type}.
Definition eng_ret {A} (a : A) : eng E D Op A := fun w => (Ok a, w).
Definition eng_raise {A} (c : exn_class) (msg : string) : eng E D Op A := fun w => (Raise (Exn c msg), w).
Definition eng_lift {A} (m : res A) : eng E D Op A := fun w => (m, w).
Definition eng_bind {A B} (m : eng E D Op A) (f : A -> eng E D Op B) : eng E D Op B :=
  fun w => match m w with (Ok a, w') => f a w' | (Raise e, w') => (Raise e, w') end.
(** [try: m except Exception: handler] *)
Definition eng_try {A} (m : eng E D Op A) (h : exn -> eng E D Op A) : eng E D Op A :=
  fun w => match m w with (Ok a, w') => (Ok a, w') | (Raise e, w') => h e w' end.
Definition get_engine : eng E D Op E := fun w => (Ok (w_engine w), w).
Definition put_engine (e : E) : eng E D Op unit := fun w => (Ok tt, MkWorld e (w_db w) (w_accesses w)).
Definition modify (f : E -> E) : eng E D Op unit := fun w => put_engine (f (w_engine w)) w.

Lemma eng_bind_Ok {A B} (m : eng E D Op A) (f : A -> eng E D Op B) w b w' :
  eng_bind m f w = (Ok b, w') <-> exists a w1, m w = (Ok a, w1) /\ f a w1 = (Ok b, w').
Proof.
  unfold eng_bind. destruct (m w) as [[a|e] w1]; split.
  - intros Ef. by exists a, w1.
  - intros (a' & w1' & [= <- <-] & Ef). done.
  - done.
  - by intros (a' & w1' & ? & _).
Qed.
End eng.
Notation "'let+' x ':=' m 'in' k" := (eng_bind m (fun x => k))
  (at level 10, x binder, m at level 100, k at level 200) : py_scope.
Notation "m ';;+' k" := (eng_bind m (fun _ => k)) (at level 100, right associativity) : py_scope.

(** The operations of others on the database *)
Class Interferes (D Op : Type) := interfere : D -> list Op -> D.
Section access.
Context {E D Op : Type} `{Interferes D Op}.
Definition quiet_access : Access Op := MkAccess [] Works.
Definition next_access (w : World E D Op) : Access Op := hd quiet_access (w_accesses w).
(** The database as the next access finds it *)
Definition next_db (w : World E D Op) : D := interfere (w_db w) (ac_before (next_access w)).
Definition db_access {A} (f : D -> res A * D) : eng E D Op A :=
  fun w =>
    let failure := Raise (Exn SqliteError "database is locked") in
    let '(r, db) := match ac_outcome (next_access w) with
                    | Works => f (next_db w)
                    | FailsBefore => (failure, next_db w)
                    | FailsAfter => (failure, (f (next_db w)).2)
                    end in
    (r, MkWorld (w_engine w) db (tl (w_accesses w))).
Definition db_read {A} (f : D -> A) : eng E D Op A := db_access (fun db => (Ok (f db), db)).
Definition db_write {A} (f : D -> A * D) : eng E D Op A := db_access (fun db => let '(a, db') := f db in (Ok a, db')).

Lemma read_Ok {A} (f : D -> A) w a w' :
  db_read f w = (Ok a, w') ->
  ac_outcome (next_access w) = Works /\ a = f (next_db w) /\ w' = MkWorld (w_engine w) (next_db w) (tl (w_accesses w)).
Proof. unfold db_read, db_access. destruct (ac_outcome _); [|done..]. by intros [= <- <-]. Qed.
Lemma write_Ok {A} (f : D -> A * D) w a w' :
  db_write f w = (Ok a, w') ->
  ac_outcome (next_access w) = Works /\ f (next_db w) = (a, w_db w') /\ w_engine w' = w_engine w /\ w_accesses w' = tl (w_accesses w).
Proof. unfold db_write, db_access. destruct (ac_outcome _); [|done..]. destruct (f _) as [x db]. by intros [= <- <-]. Qed.
End access.

(** ** Frames
    A preorder on worlds that the parts of a coroutine respect is respected by the
    whole. *)
Create HintDb framed.
Section framed.
Context {E D Op : Type} (R : relation (World E D Op)) {HR : PreOrder R}.
Definition framed {A} (m : eng E D Op A) : Prop := forall w, R w (m w).2.

Lemma framed_lift {A} (r : res A) : framed (eng_lift r).
Proof. intros w. cbn. reflexivity. Qed.
Lemma framed_ret {A} (a : A) : framed (eng_ret a).
Proof. intros w. cbn. reflexivity. Qed.
Lemma framed_raise {A} c msg : framed (eng_raise c msg : eng E D Op A).
Proof. intros w. cbn. reflexivity. Qed.
Lemma framed_get : framed get_engine.
Proof. intros w. cbn. reflexivity. Qed.
Lemma framed_bind {A B} (m : eng E D Op A) (f : A -> eng E D Op B) : framed m -> (forall a, framed (f a)) -> framed (eng_bind m f).
Proof.
  intros Hm Hf w. unfold eng_bind. specialize (Hm w). destruct (m w) as [[a|e] w1]; [|done].
  etransitivity; [exact Hm | apply Hf].
Qed.
(** The part that follows a look at the state may use what it saw. *)
Lemma framed_get_bind {B} (f : E -> eng E D Op B) : (forall w, R w (f (w_engine w) w).2) -> framed (eng_bind get_engine f).
Proof. intros Hf w. apply Hf. Qed.
Lemma framed_try {A} (m : eng E D Op A) (h : exn -> eng E D Op A) : framed m -> (forall e, framed (h e)) -> framed (eng_try m h).
Proof.
  intros Hm Hf w. unfold eng_try. specialize (Hm w). destruct (m w) as [[a|e] w1]; [done|].
  etransitivity; [exact Hm | apply Hf].
Qed.
Lemma framed_modify f : (forall w, R w (MkWorld (f (w_engine w)) (w_db w) (w_accesses w))) -> framed (modify f).
Proof. intros Hf w. apply Hf. Qed.
Lemma framed_access {A} `{Interferes D Op} (f : D -> res A * D) :
  (forall w db, db = next_db w \/ db = (f (next_db w)).2 -> R w (MkWorld (w_engine w) db (tl (w_accesses w)))) -> framed (db_access f).
Proof.
  intros Hf w. unfold db_access. destruct (ac_outcome _).
  - pose proof (Hf w (f (next_db w)).2 ltac:(by right)) as Hw. by destruct (f (next_db w)).
  - cbn. apply Hf. by left.
  - cbn. apply Hf. by right.
Qed.
End framed.
Ltac frame_step :=
  match goal with
  | |- forall _, _ => intro
  | |- framed _ _ => solve [auto with framed nocore]
  | |- framed _ (if ?b then _ else _) => destruct b
  | |- framed _ (match ?x with _ => _ end) => destruct x
  | |- framed _ (eng_bind _ _) => apply framed_bind
  | |- framed _ (eng_try _ _) => apply framed_try
  | |- framed _ (eng_ret _) => apply framed_ret
  | |- framed _ (eng_raise _ _) => apply framed_raise
  | |- framed _ (eng_lift _) => apply framed_lift
  | |- framed _ get_engine => apply framed_get
  | |- PreOrder _ => exact _
  end.
(** Reduces a frame to those of the parts that are not known *)
Ltac frame := cbv zeta; repeat (frame_step; cbv zeta beta).
