(* ===== verification/PermissionStore.v ===== *)
(** * Permission rules in the database ([db/repositories/permissions.py])

    The tables [permissions] and [authorization_contexts] with the operations of
    [PermissionRepository].  A context binds a principal and a project to one
    effective policy and counts an epoch; every change of the rules or the policy
    of an owner advances its epoch, and the rules carry the epoch they were last
    confirmed at as their generation.

    Each operation is one transaction.  [granted_at] is [datetime('now')], whole
    seconds since the epoch; the query orders by the decimal text of that number,
    which is the order of the numbers because they have equally many digits. *)
From S2P Require Import Prelude PyStr Json.
Open Scope Z_scope.

(** ** Tables *)
Record PermissionRow := MkPermRow {
  pr_id : Z; pr_pattern : string; pr_permission_level : string; pr_approval : string; pr_mode : string;
  pr_granted_at : Z; pr_principal_id : string; pr_project_id : string; pr_policy_digest : string;
  pr_generation : Z; pr_transport_class : string; pr_grant_lifetime : string; pr_session_id : string;
  pr_task_id : string; pr_workspace_id : string; pr_expires_at : option Z; pr_created_by : string;
  pr_resource_type : string; pr_resource_spec : string
}.
Record AuthorizationContext := MkAuthContext { ax_policy_digest : string; ax_epoch : Z }.
(** The owner of rules: principal and project *)
Definition Owner : Type := string * string.
Record PermissionDb := MkPermDb {
  permissions : list PermissionRow; authorization_contexts : gmap Owner AuthorizationContext; permission_seq : Z
}.
Definition empty_permissions : PermissionDb := MkPermDb [] ∅ 0.

Definition row_owner (r : PermissionRow) : Owner := (pr_principal_id r, pr_project_id r).
Definition set_generation (epoch : Z) (r : PermissionRow) : PermissionRow :=
  MkPermRow (pr_id r) (pr_pattern r) (pr_permission_level r) (pr_approval r) (pr_mode r) (pr_granted_at r)
    (pr_principal_id r) (pr_project_id r) (pr_policy_digest r) epoch (pr_transport_class r) (pr_grant_lifetime r)
    (pr_session_id r) (pr_task_id r) (pr_workspace_id r) (pr_expires_at r) (pr_created_by r) (pr_resource_type r)
    (pr_resource_spec r).
(** [principal_id = ? AND project_id = ? AND policy_digest = ?] *)
Definition owned_row (o : Owner) (policy : string) (r : PermissionRow) : bool :=
  bool_decide (row_owner r = o) && bool_decide (pr_policy_digest r = policy).
(** [UPDATE permissions SET generation = ? WHERE ...] *)
Definition confirm_rows (o : Owner) (policy : string) (epoch : Z) (l : list PermissionRow) : list PermissionRow :=
  (fun r => if owned_row o policy r then set_generation epoch r else r) <$> l.

(** ** Operations *)
Definition _authorization_context_row (o : Owner) (db : PermissionDb) : option AuthorizationContext :=
  authorization_contexts db !! o.
Definition get_authorization_context : Owner -> PermissionDb -> option AuthorizationContext := _authorization_context_row.
Definition put_context (o : Owner) (c : AuthorizationContext) (db : PermissionDb) : PermissionDb :=
  MkPermDb (permissions db) (<[o := c]> (authorization_contexts db)) (permission_seq db).

(** A rule as the callers pass it; [resource_spec] is an object or a text *)
Record NewRule := MkNewRule {
  nr_pattern : string; nr_permission_level : string; nr_approval : string; nr_mode : string;
  nr_transport_class : string; nr_grant_lifetime : string; nr_session_id : string; nr_task_id : string;
  nr_workspace_id : string; nr_expires_at : option Z; nr_created_by : string; nr_resource_type : string;
  nr_resource_spec : list (string * pyval) + string
}.
Definition resource_spec_value (spec : list (string * pyval) + string) : string :=
  match spec with inl d => dumpsc (PDict d) | inr text => text end.
Definition new_row (id now : Z) (o : Owner) (policy : string) (epoch : Z) (n : NewRule) : PermissionRow :=
  MkPermRow id (nr_pattern n) (nr_permission_level n) (nr_approval n) (nr_mode n) now o.1 o.2 policy epoch
    (nr_transport_class n) (nr_grant_lifetime n) (nr_session_id n) (nr_task_id n) (nr_workspace_id n)
    (nr_expires_at n) (nr_created_by n) (nr_resource_type n) (resource_spec_value (nr_resource_spec n)).

Definition insert_permission_rule (now : Z) (o : Owner) (policy : string) (n : NewRule) : PermissionDb -> res Z * PermissionDb :=
  transaction (fun db =>
    let insert epoch db1 :=
      let id := permission_seq db + 1 in
      (Ok id, MkPermDb (confirm_rows o policy epoch (permissions db1) ++ [new_row id now o policy epoch n])
                (authorization_contexts db1) id) in
    match _authorization_context_row o db with
    | None => insert 1 (put_context o (MkAuthContext policy 1) db)
    | Some c =>
        if negb (bool_decide (ax_policy_digest c = policy))
        then (Raise (Exn ValueError "permission grant policy digest does not match the authoritative authorization context"), db)
        else insert (ax_epoch c + 1) (put_context o (MkAuthContext (ax_policy_digest c) (ax_epoch c + 1)) db)
    end).

(** [ORDER BY granted_at DESC, id DESC] *)
Definition newest_first (l : list PermissionRow) : list PermissionRow :=
  sorted_by (fun r => (- pr_granted_at r, - pr_id r)) l.
Definition matches_filter {A} `{EqDecision A} (filter : option A) (value : A) : bool :=
  match filter with None => true | Some x => bool_decide (value = x) end.
Definition list_permission_rules (principal project policy : option string) (generation : option Z) (db : PermissionDb)
    : list PermissionRow :=
  newest_first (List.filter (fun r =>
    matches_filter principal (pr_principal_id r) && matches_filter project (pr_project_id r)
    && matches_filter policy (pr_policy_digest r) && matches_filter generation (pr_generation r)) (permissions db)).

(** Without a complete scope: [DELETE ... WHERE id = ?], with the principal if given *)
Definition delete_unscoped (rule_id : Z) (principal : option string) (db : PermissionDb) : Z * PermissionDb :=
  let doomed r := (pr_id r =? rule_id) && matches_filter principal (pr_principal_id r) in
  (Z.of_nat (length (List.filter doomed (permissions db))),
   MkPermDb (List.filter (fun r => negb (doomed r)) (permissions db)) (authorization_contexts db) (permission_seq db)).
Definition delete_scoped (rule_id : Z) (o : Owner) (policy : string) (db : PermissionDb) : Z * PermissionDb :=
  match _authorization_context_row o db with
  | None => (0, db)
  | Some c =>
      if negb (bool_decide (ax_policy_digest c = policy)) then (0, db)
      else
        let doomed r := (pr_id r =? rule_id) && owned_row o policy r in
        let count := Z.of_nat (length (List.filter doomed (permissions db))) in
        if count =? 0 then (0, db)
        else
          let epoch := ax_epoch c + 1 in
          let rows := List.filter (fun r => negb (doomed r)) (permissions db) in
          (count, MkPermDb (confirm_rows o policy epoch rows)
                    (<[o := MkAuthContext (ax_policy_digest c) epoch]> (authorization_contexts db)) (permission_seq db))
  end.
Definition delete_permission_rule (rule_id : Z) (principal project policy : option string) (db : PermissionDb)
    : Z * PermissionDb :=
  match principal, project, policy with
  | Some p, Some j, Some d => delete_scoped rule_id (p, j) d db
  | _, _, _ => delete_unscoped rule_id principal db
  end.

Definition bind_authorization_context (o : Owner) (policy : string) (db : PermissionDb) : Z * PermissionDb :=
  match _authorization_context_row o db with
  | None => (1, put_context o (MkAuthContext policy 1) db)
  | Some c =>
      if bool_decide (ax_policy_digest c = policy) then (ax_epoch c, db)
      else (ax_epoch c + 1, put_context o (MkAuthContext policy (ax_epoch c + 1)) db)
  end.

(** ** Sequences of scoped operations *)
Inductive perm_op :=
| OpGrant (now : Z) (o : Owner) (policy : string) (n : NewRule)
| OpRevoke (rule_id : Z) (o : Owner) (policy : string)
| OpBind (o : Owner) (policy : string).
Definition op_owner (op : perm_op) : Owner :=
  match op with OpGrant _ o _ _ | OpRevoke _ o _ | OpBind o _ => o end.
Definition perm_step (db : PermissionDb) (op : perm_op) : PermissionDb :=
  match op with
  | OpGrant now o policy n => (insert_permission_rule now o policy n db).2
  | OpRevoke id o policy => (delete_scoped id o policy db).2
  | OpBind o policy => (bind_authorization_context o policy db).2
  end.
Definition perm_run (db : PermissionDb) (ops : list perm_op) : PermissionDb := foldl perm_step db ops.

Definition epoch_of (o : Owner) (db : PermissionDb) : Z := from_option ax_epoch 0 (authorization_contexts db !! o).
Definition rows_of (o : Owner) (db : PermissionDb) : list PermissionRow :=
  List.filter (fun r => bool_decide (row_owner r = o)) (permissions db).
(** The rules an engine of this owner and policy reads at the current epoch *)
Definition current_rules (o : Owner) (policy : string) (db : PermissionDb) : list PermissionRow :=
  list_permission_rules (Some o.1) (Some o.2) (Some policy) (Some (epoch_of o db)) db.

(** ** Frames *)
Lemma filter_confirm_other (o o' : Owner) policy epoch l :
  o ≠ o' -> List.filter (fun r => bool_decide (row_owner r = o')) (confirm_rows o policy epoch l)
            = List.filter (fun r => bool_decide (row_owner r = o')) l.
Proof.
  intros Ho. induction l as [|r l IH]; [done|].
  change (confirm_rows o policy epoch (r :: l))
    with ((if owned_row o policy r then set_generation epoch r else r) :: confirm_rows o policy epoch l).
  destruct (owned_row o policy r) eqn:E; cbn [List.filter].
  - apply andb_true_iff in E as [E%bool_decide_eq_true _].
    rewrite (bool_decide_eq_false_2 (row_owner (set_generation epoch r) = o')), (bool_decide_eq_false_2 (row_owner r = o'))
      by (change (row_owner (set_generation epoch r)) with (row_owner r); congruence). apply IH.
  - destruct (bool_decide (row_owner r = o')); [f_equal|]; apply IH.
Qed.
Lemma filter_keep_other (o o' : Owner) policy id l :
  o ≠ o' ->
  List.filter (fun r => bool_decide (row_owner r = o'))
    (List.filter (fun r => negb ((pr_id r =? id) && owned_row o policy r)) l)
  = List.filter (fun r => bool_decide (row_owner r = o')) l.
Proof.
  intros Ho. induction l as [|r l IH]; [done|]. cbn [List.filter]. unfold owned_row.
  destruct (bool_decide_reflect (row_owner r = o)) as [E|E].
  - rewrite (bool_decide_eq_false_2 (row_owner r = o')) by congruence.
    destruct (negb _); [cbn [List.filter]; rewrite (bool_decide_eq_false_2 (row_owner r = o')) by congruence|]; apply IH.
  - cbn [andb]. rewrite andb_false_r. cbn [negb List.filter]. destruct (bool_decide (row_owner r = o')); [f_equal|]; apply IH.
Qed.

Ltac reduce_db := cbn [fst snd permissions authorization_contexts put_context permission_seq].
(** What an owner sees of the store *)
Definition view (o : Owner) (db : PermissionDb) : option AuthorizationContext * list PermissionRow :=
  (authorization_contexts db !! o, rows_of o db).

Lemma step_other op o db : op_owner op ≠ o -> view o (perm_step db op) = view o db.
Proof.
  intros Ho. destruct op as [now o1 policy n|id o1 policy|o1 policy]; cbn [op_owner] in Ho; cbn [perm_step].
  - unfold insert_permission_rule, transaction, view, rows_of.
    destruct (_authorization_context_row o1 db) as [c|]; [destruct (negb _); [done|]|]; reduce_db;
      rewrite lookup_insert_ne, List.filter_app, filter_confirm_other by done; cbn [List.filter];
      change (row_owner (new_row _ _ o1 _ _ _)) with (o1.1, o1.2); rewrite <- surjective_pairing;
      rewrite (bool_decide_eq_false_2 (o1 = o)) by done; by rewrite app_nil_r.
  - unfold delete_scoped, view, rows_of. destruct (_authorization_context_row o1 db) as [c|]; [|done].
    destruct (negb _); [done|]. case_match; [done|]. reduce_db.
    by rewrite lookup_insert_ne, filter_confirm_other, filter_keep_other by done.
  - unfold bind_authorization_context, view, rows_of. destruct (_authorization_context_row o1 db) as [c|].
    + case_bool_decide; [done|]. reduce_db. by rewrite lookup_insert_ne.
    + reduce_db. by rewrite lookup_insert_ne.
Qed.

Lemma epoch_insert o c db l n : epoch_of o (MkPermDb l (<[o := c]> (authorization_contexts db)) n) = ax_epoch c.
Proof. unfold epoch_of. cbn. by rewrite lookup_insert_eq. Qed.

(** A step either leaves an owner's view alone or advances its epoch. *)
Lemma step_epoch op o db : view o (perm_step db op) = view o db \/ epoch_of o db < epoch_of o (perm_step db op).
Proof.
  destruct (decide (op_owner op = o)) as [<-|Ho]; [|left; by apply step_other].
  destruct op as [now o policy n|id o policy|o policy]; cbn [op_owner perm_step].
  - unfold insert_permission_rule, transaction, _authorization_context_row.
    destruct (authorization_contexts db !! o) as [c|] eqn:Ec; [destruct (negb _); [by left|]|]; right; reduce_db;
      rewrite epoch_insert; unfold epoch_of; rewrite Ec; cbn; lia.
  - unfold delete_scoped. unfold _authorization_context_row. destruct (authorization_contexts db !! o) as [c|] eqn:Ec; [|by left].
    destruct (negb _); [by left|]. case_match; [by left|]. right. reduce_db. rewrite epoch_insert. unfold epoch_of. rewrite Ec. cbn. lia.
  - unfold bind_authorization_context, _authorization_context_row. destruct (authorization_contexts db !! o) as [c|] eqn:Ec.
    + case_bool_decide; [by left|]. right. reduce_db. unfold put_context. rewrite epoch_insert. unfold epoch_of. rewrite Ec. cbn. lia.
    + right. reduce_db. unfold put_context. rewrite epoch_insert. unfold epoch_of. rewrite Ec. cbn. lia.
Qed.
Lemma step_epoch_le op o db : epoch_of o db <= epoch_of o (perm_step db op).
Proof.
  destruct (step_epoch op o db) as [H|H]; [|lia]. unfold view in H. unfold epoch_of.
  apply (f_equal fst) in H. cbn in H. rewrite H. lia.
Qed.
Lemma run_epoch_le ops o db : epoch_of o db <= epoch_of o (perm_run db ops).
Proof.
  revert db. induction ops as [|op ops IH]; intros db; [cbn; lia|]. cbn [perm_run foldl].
  pose proof (step_epoch_le op o db). specialize (IH (perm_step db op)). unfold perm_run in IH. lia.
Qed.
Lemma run_same_epoch ops o db : epoch_of o (perm_run db ops) = epoch_of o db -> view o (perm_run db ops) = view o db.
Proof.
  revert db. induction ops as [|op ops IH]; intros db; [done|]. cbn [perm_run foldl]. intros He.
  pose proof (run_epoch_le ops o (perm_step db op)) as H1. unfold perm_run in H1.
  destruct (step_epoch op o db) as [Hv|Hlt]; [|lia]. rewrite <- Hv. apply IH. unfold perm_run.
  assert (epoch_of o (perm_step db op) = epoch_of o db); [|lia].
  unfold epoch_of. unfold view in Hv. apply (f_equal fst) in Hv. cbn in Hv. by rewrite Hv.
Qed.

(** The rules of an owner are a function of its view. *)
Lemma list_rules_rows o policy generation db :
  list_permission_rules (Some o.1) (Some o.2) (Some policy) (Some generation) db
  = newest_first (List.filter (fun r => bool_decide (pr_policy_digest r = policy) && bool_decide (pr_generation r = generation))
      (rows_of o db)).
Proof.
  unfold list_permission_rules, rows_of. f_equal. induction (permissions db) as [|r l IH]; [done|].
  cbn [List.filter matches_filter]. unfold row_owner at 1.
  replace (bool_decide ((pr_principal_id r, pr_project_id r) = o))
    with (bool_decide (pr_principal_id r = o.1) && bool_decide (pr_project_id r = o.2)).
  2: { rewrite <- bool_decide_and. apply bool_decide_ext. destruct o. cbn. naive_solver. }
  destruct (bool_decide (pr_principal_id r = o.1)), (bool_decide (pr_project_id r = o.2)); cbn [andb List.filter]; try apply IH.
  destruct (_ && _); [f_equal|]; apply IH.
Qed.
Lemma current_rules_view o policy db db' : view o db' = view o db -> current_rules o policy db' = current_rules o policy db.
Proof.
  unfold view. intros [= Hc Hr]. unfold current_rules, epoch_of. rewrite Hc, !list_rules_rows. by rewrite Hr.
Qed.

(** The authorization epoch identifies the authority of an owner.  Whatever
    grants, revocations and policy bindings of any owners happen between two reads,
    if an owner's epoch is the same at both then its policy binding and its rules
    are the same, so a dispatch validated against the epoch of its check runs under
    the rules it was checked with; operations of other owners change neither. *)
Theorem epoch_identifies_authority ops o policy db :
  (epoch_of o (perm_run db ops) = epoch_of o db \/ Forall (fun op => op_owner op ≠ o) ops) ->
  get_authorization_context o (perm_run db ops) = get_authorization_context o db
  /\ rows_of o (perm_run db ops) = rows_of o db
  /\ current_rules o policy (perm_run db ops) = current_rules o policy db.
Proof.
  intros H. assert (Hv : view o (perm_run db ops) = view o db).
  { destruct H as [H|H]; [by apply run_same_epoch|]. revert db. induction H as [|op ops Ho _ IH]; intros db; [done|].
    cbn [perm_run foldl]. etransitivity; [apply IH | by apply step_other]. }
  split_and!; [exact (f_equal fst Hv) | exact (f_equal snd Hv) | by apply current_rules_view].
Qed.
Lemma epoch_identifies_authority_witness :
  let n := MkNewRule "/srv/a" "read" "deny" "all" "all" "project_all_transports" "" "" "" None "" "" (inr "") in
  let db := perm_run empty_permissions [OpBind ("alice", "p") "d1"; OpGrant 5 ("alice", "p") "d1" n] in
  current_rules ("alice", "p") "d1" (perm_run db [OpBind ("bob", "p") "d2"; OpGrant 6 ("bob", "p") "d2" n])
  = current_rules ("alice", "p") "d1" db.
Proof.
  intros n db.
  refine (proj2 (proj2 (epoch_identifies_authority _ ("alice", "p") "d1" db _))).
  left. vm_compute. reflexivity.
Defined.

(** ** Effect of a grant and of a revocation *)
Definition perm_ok (db : PermissionDb) : Prop :=
  NoDup (pr_id <$> permissions db) /\ Forall (fun r => pr_id r <= permission_seq db) (permissions db)
  /\ Forall (fun r => pr_generation r <= epoch_of (row_owner r) db) (permissions db).

Lemma confirm_ids o policy epoch l : pr_id <$> confirm_rows o policy epoch l = pr_id <$> l.
Proof. unfold confirm_rows. rewrite <- list_fmap_compose. apply list_fmap_ext. intros i r _. cbn. by case_match. Qed.
Lemma elem_of_confirm o policy epoch l r :
  r ∈ confirm_rows o policy epoch l
  <-> exists r0, r0 ∈ l /\ r = if owned_row o policy r0 then set_generation epoch r0 else r0.
Proof. unfold confirm_rows. rewrite list_elem_of_fmap. naive_solver. Qed.
Lemma owned_confirmed o policy epoch r :
  owned_row o policy (if owned_row o policy r then set_generation epoch r else r) = owned_row o policy r.
Proof. destruct (owned_row o policy r) eqn:E; exact E. Qed.

Lemma elem_of_current o policy db r :
  r ∈ current_rules o policy db
  <-> r ∈ permissions db /\ owned_row o policy r = true /\ pr_generation r = epoch_of o db.
Proof.
  unfold current_rules. rewrite list_rules_rows. unfold newest_first. rewrite elem_of_sorted_by, !list_elem_of_In, !List.filter_In.
  unfold owned_row. rewrite <- list_elem_of_In, !andb_true_iff, !bool_decide_eq_true. unfold rows_of.
  rewrite list_elem_of_In, List.filter_In, bool_decide_eq_true. tauto.
Qed.

Lemma confirm_generation o policy epoch l (db : PermissionDb) :
  Forall (fun r => pr_generation r <= epoch_of (row_owner r) db) l ->
  forall db', epoch_of o db' = epoch -> (forall o', o' ≠ o -> epoch_of o' db' = epoch_of o' db) -> epoch_of o db <= epoch ->
  Forall (fun r => pr_generation r <= epoch_of (row_owner r) db') (confirm_rows o policy epoch l).
Proof.
  intros Hl db' He Ho Hle. apply Forall_forall. intros r (r0 & Hr0 & ->)%elem_of_confirm.
  rewrite Forall_forall in Hl. specialize (Hl r0 Hr0). destruct (owned_row o policy r0) eqn:E.
  - apply andb_true_iff in E as [E%bool_decide_eq_true _].
    change (row_owner (set_generation epoch r0)) with (row_owner r0). rewrite E, He. cbn. lia.
  - destruct (decide (row_owner r0 = o)) as [E'|E']; [rewrite E' in *; lia | by rewrite Ho].
Qed.
Lemma epoch_other o o' c db l n :
  o' ≠ o -> epoch_of o' (MkPermDb l (<[o := c]> (authorization_contexts db)) n) = epoch_of o' db.
Proof. intros H. unfold epoch_of. cbn. by rewrite lookup_insert_ne. Qed.

Lemma grant_shape now o policy n db id db' :
  insert_permission_rule now o policy n db = (Ok id, db') ->
  id = permission_seq db + 1
  /\ db' = MkPermDb (confirm_rows o policy (epoch_of o db + 1) (permissions db) ++ [new_row id now o policy (epoch_of o db + 1) n])
             (<[o := MkAuthContext policy (epoch_of o db + 1)]> (authorization_contexts db)) id.
Proof.
  unfold insert_permission_rule, transaction, _authorization_context_row, epoch_of.
  destruct (authorization_contexts db !! o) as [c|]; [case_bool_decide; cbn [negb]|]; reduce_db; intros [= <- <-]; [|done].
  subst policy. done.
Qed.
Lemma revoke_shape rule_id o policy db count db' :
  delete_scoped rule_id o policy db = (count, db') -> count ≠ 0 ->
  db' = MkPermDb (confirm_rows o policy (epoch_of o db + 1)
                    (List.filter (fun r => negb ((pr_id r =? rule_id) && owned_row o policy r)) (permissions db)))
          (<[o := MkAuthContext policy (epoch_of o db + 1)]> (authorization_contexts db)) (permission_seq db).
Proof.
  unfold delete_scoped, _authorization_context_row, epoch_of. destruct (authorization_contexts db !! o) as [c|]; [|by intros [= <- <-]].
  case_bool_decide; cbn [negb]; [|by intros [= <- <-]]. case_match; [by intros [= <- <-]|]. intros [= <- <-] _. subst policy. done.
Qed.

Lemma sublist_List_filter {A} (p : A -> bool) l : List.filter p l `sublist_of` l.
Proof. induction l as [|x l IH]; cbn; [constructor|]. destruct (p x); by constructor. Qed.

Lemma perm_step_ok op db : perm_ok db -> perm_ok (perm_step db op).
Proof.
  intros (Hnd & Hid & Hg). destruct op as [now o policy n|id o policy|o policy]; cbn [perm_step].
  - destruct (insert_permission_rule now o policy n db) as [[id|e] db'] eqn:E; cbn [snd].
    2: { unfold insert_permission_rule in E. apply transaction_raise in E. by subst. }
    apply grant_shape in E as [-> ->]. split_and!; reduce_db.
    + rewrite fmap_app, confirm_ids. apply NoDup_app. split_and!; [done| |apply NoDup_singleton].
      intros i (r & -> & Hr)%list_elem_of_fmap Hi%list_elem_of_singleton. rewrite Forall_forall in Hid. specialize (Hid r Hr).
      change (pr_id (new_row _ _ _ _ _ _)) with (permission_seq db + 1) in Hi. lia.
    + apply Forall_app. split; [|by repeat constructor; cbn; lia]. apply Forall_forall.
      intros r (r0 & Hr0 & ->)%elem_of_confirm. rewrite Forall_forall in Hid. specialize (Hid r0 Hr0). case_match; cbn; lia.
    + apply Forall_app. split.
      * eapply confirm_generation; [exact Hg | by rewrite epoch_insert | intros; by apply epoch_other | lia].
      * constructor; [|constructor]. change (row_owner (new_row _ _ o _ _ _)) with (o.1, o.2).
        rewrite <- surjective_pairing, epoch_insert. cbn. lia.
  - destruct (delete_scoped id o policy db) as [count db'] eqn:E. cbn [snd].
    destruct (decide (count = 0)) as [->|Hc].
    { unfold delete_scoped in E. repeat case_match; simplify_eq; try done. lia. }
    apply revoke_shape in E as ->; [|done]. split_and!; reduce_db.
    + rewrite confirm_ids. eapply sublist_NoDup; [exact Hnd|]. apply fmap_sublist, sublist_List_filter.
    + apply Forall_forall. intros r (r0 & Hr0 & ->)%elem_of_confirm. apply list_elem_of_In, List.filter_In in Hr0 as [Hr0 _].
      rewrite <- list_elem_of_In in Hr0. rewrite Forall_forall in Hid. specialize (Hid r0 Hr0). case_match; cbn; lia.
    + eapply confirm_generation; [|by rewrite epoch_insert | intros; by apply epoch_other | cbn; lia].
      apply Forall_forall. intros r Hr. apply list_elem_of_In, List.filter_In in Hr as [Hr _].
      rewrite Forall_forall in Hg. apply Hg. by apply list_elem_of_In.
  - unfold bind_authorization_context, _authorization_context_row.
    assert (Hb : forall c, epoch_of o db <= ax_epoch c -> perm_ok (put_context o c db)).
    { intros c Hc. split_and!; [done..|]. eapply Forall_impl; [exact Hg|]. intros r Hr. cbn beta in *. unfold put_context.
      destruct (decide (row_owner r = o)) as [E|E]; [rewrite E in *; rewrite epoch_insert; lia | by rewrite epoch_other]. }
    unfold epoch_of in Hb. destruct (authorization_contexts db !! o) as [c|]; [case_bool_decide|]; cbn [snd]; try done;
      apply Hb; cbn; lia.
Qed.

Lemma perm_run_ok ops db : perm_ok db -> perm_ok (perm_run db ops).
Proof. revert db. induction ops as [|op ops IH]; intros db H; [done|]. by apply IH, perm_step_ok. Qed.
Lemma empty_permissions_ok : perm_ok empty_permissions.
Proof. split_and!; constructor. Qed.

(** Grants and revocations take effect at once and exactly.  After a grant the
    owner's current rules are all its rules of the bound policy, confirmed at the new
    epoch, and the new one, whose identity is fresh; after a revocation they are all
    but the revoked one.  A grant for another policy than the bound one changes
    nothing. *)
Theorem grant_and_revoke_exact ops o policy db :
  db = perm_run empty_permissions ops ->
  (forall now n id db', insert_permission_rule now o policy n db = (Ok id, db') ->
     (forall r, r ∈ permissions db -> pr_id r ≠ id)
     /\ forall r, r ∈ current_rules o policy db' <->
          r = new_row id now o policy (epoch_of o db + 1) n
          \/ exists r0, r0 ∈ permissions db /\ owned_row o policy r0 = true /\ r = set_generation (epoch_of o db + 1) r0)
  /\ (forall rule_id count db', delete_scoped rule_id o policy db = (count, db') -> count ≠ 0 ->
        forall r, r ∈ current_rules o policy db' <->
          exists r0, r0 ∈ permissions db /\ owned_row o policy r0 = true /\ pr_id r0 ≠ rule_id
            /\ r = set_generation (epoch_of o db + 1) r0)
  /\ (forall now n e db', insert_permission_rule now o policy n db = (Raise e, db') -> db' = db).
Proof.
  intros Hdb. destruct (perm_run_ok ops _ empty_permissions_ok) as (Hnd & Hid & Hg).
  rewrite <- Hdb in *. clear Hdb. split_and!.
  - intros now n id db' [-> ->]%grant_shape. split.
    { intros r Hr E. rewrite Forall_forall in Hid. specialize (Hid r Hr). lia. }
    intros r. rewrite elem_of_current, epoch_insert. reduce_db. rewrite elem_of_app, list_elem_of_singleton, elem_of_confirm.
    cbn [ax_epoch]. split.
    + intros ([(r0 & Hr0 & ->)| ->] & Ho & He); [|by left]. rewrite owned_confirmed in Ho. right. exists r0. by rewrite Ho.
    + intros [-> | (r0 & Hr0 & Ho & ->)].
      * split_and!; [by right| |done]. unfold owned_row, row_owner. cbn. rewrite <- surjective_pairing.
        by rewrite !bool_decide_eq_true_2.
      * split_and!; [left; exists r0; by rewrite Ho | exact Ho | done].
  - intros rule_id count db' E Hc. apply revoke_shape in E as ->; [|done]. intros r.
    rewrite elem_of_current, epoch_insert. reduce_db. rewrite elem_of_confirm. cbn [ax_epoch].
    setoid_rewrite list_elem_of_In. setoid_rewrite List.filter_In. setoid_rewrite <- list_elem_of_In. split.
    + intros ((r0 & [Hr0 Hn] & ->) & Ho & He). rewrite owned_confirmed in Ho. exists r0. rewrite Ho in Hn |- *.
      split_and!; try done. rewrite andb_true_r in Hn. lia.
    + intros (r0 & Hr0 & Ho & Hn & ->). split_and!; [|exact Ho|done]. exists r0. rewrite Ho. split_and!; try done.
      rewrite andb_true_r. lia.
  - intros now n e db' E. unfold insert_permission_rule in E. by apply transaction_raise in E.
Qed.
Lemma grant_and_revoke_exact_witness :
  let n := MkNewRule "/srv/a" "read" "deny" "all" "all" "project_all_transports" "" "" "" None "" "" (inr "") in
  let db := perm_run empty_permissions [OpBind ("alice", "p") "d1"; OpGrant 5 ("alice", "p") "d1" n] in
  exists db', insert_permission_rule 7 ("alice", "p") "d1" n db = (Ok 2, db')
    /\ new_row 2 7 ("alice", "p") "d1" 3 n ∈ current_rules ("alice", "p") "d1" db'.
Proof.
  intros n db. eexists. split; [vm_compute; reflexivity|].
  refine (proj2 (proj2 (proj1 (grant_and_revoke_exact
    [OpBind ("alice", "p") "d1"; OpGrant 5 ("alice", "p") "d1" n] ("alice", "p") "d1" db eq_refl) 7 n 2 _ _) _) _).
  - vm_compute. reflexivity.
  - left. vm_compute. reflexivity.
Defined.

(** ** Returning to an earlier policy
    Rules keep the policy they were granted under.  After another policy was bound
    and the first one again, none of its rules is read, because their generation is
    old; the next grant confirms all of them. *)
Theorem rebinding_hides_then_revives :
  let deny := MkNewRule "/srv/*" "write" "deny" "all" "all" "project_all_transports" "" "" "" None "" "" (inr "") in
  let allow := MkNewRule "" "read" "auto-approve" "all" "interactive" "project_interactive" "" "" "" None "" "generic" (inr "{}") in
  let o := ("alice", "p") in
  let db := perm_run empty_permissions [OpBind o "A"; OpGrant 5 o "A" deny; OpBind o "B"; OpBind o "A"] in
  current_rules o "A" db = [] /\ length (permissions db) = 1%nat
  /\ (pr_approval <$> current_rules o "A" (perm_step db (OpGrant 9 o "A" allow))) = ["auto-approve"; "deny"].
Proof. vm_compute. done. Qed.
