(* ===== verification/PermissionRules.v ===== *)
(** * Typed permission rules ([permissions/rules.py], [permissions/resource.py])

    A rule that relaxes approval names a typed resource: a path, a program with
    its arguments, a network origin, a process, a workspace or an exact target.
    [validate_typed_rule] puts its specification into canonical form and
    [match_typed_rule] compares it with an observation of the requested resource.

    Specifications and observations are JSON objects.  Python's [==] on them is
    structural equality of [pyval]: in every comparison of this module one side is
    a text, an integer or a list of texts. *)
From Stdlib Require Import Ascii.
From S2P Require Import Prelude PyStr Json PyValue Sha256 ShellSemantics PyText.
Open Scope Z_scope.

(** The file system, Unicode tables and the URL parser, which are not part of the
    modelled code *)
Record SplitResult := MkSplit {
  sr_scheme : string; sr_netloc : string; sr_path : string; sr_hostname : option string; sr_port : res (option Z)
}.
Class Platform := {
  (** [os.path.realpath]; a path with a null character raises *)
  realpath : string -> res string;
  (** [str.lower] *)
  str_lower : string -> string;
  (** [text.encode("idna").decode("ascii")] *)
  idna : string -> res string;
  (** [int(text, 16)] accepts the text *)
  int_base16 : string -> bool;
  (** [urllib.parse.urlsplit] *)
  urlsplit : string -> res SplitResult;
  (** [str] of a float, a list or a dict *)
  py_repr : pyval -> string
}.

(** Lower case never makes a text empty and keeps ASCII texts without capitals; a
    resolved path is absolute. *)
Class PlatformLaws `{Platform} := {
  str_lower_nonempty s : s ≠ "" -> str_lower s ≠ "";
  str_lower_id s : string_forallb (fun a => (byte a <? 128) && negb (between 65 90 (byte a))) s = true -> str_lower s = s;
  realpath_abs p q : realpath p = Ok q -> isabs q = true
}.

(** ** Data *)
Definition FILESYSTEM : string := "filesystem".
Definition EXEC : string := "exec".
Definition NETWORK : string := "network".
Definition PROCESS : string := "process".
Definition WORKSPACE : string := "workspace".
Definition GENERIC : string := "generic".
Definition _RESOURCE_TYPES : list string := [FILESYSTEM; EXEC; NETWORK; PROCESS; WORKSPACE; GENERIC].

Inductive ApprovalMode := AUTO_APPROVE | SUGGEST | ASK_EVERY | DENY.
#[export] Instance ApprovalMode_eq_dec : EqDecision ApprovalMode.
Proof. solve_decision. Defined.
Definition approval_value (a : ApprovalMode) : string :=
  match a with AUTO_APPROVE => "auto-approve" | SUGGEST => "suggest" | ASK_EVERY => "ask-every" | DENY => "deny" end.
Definition is_relaxing_approval (a : ApprovalMode) : bool := str_in (approval_value a) ["auto-approve"; "suggest"].

Inductive AuthorizationResourceKind :=
| WORKSPACE_PATH | WORKSPACE_COPY_MOVE | PROCESS_ARGV | PROCESS_SHELL | PROCESS_CONTROL | NETWORK_ORIGIN | KIND_WORKSPACE.
#[export] Instance AuthorizationResourceKind_eq_dec : EqDecision AuthorizationResourceKind.
Proof. solve_decision. Defined.
Definition kind_value (k : AuthorizationResourceKind) : string :=
  match k with
  | WORKSPACE_PATH => "workspace-path" | WORKSPACE_COPY_MOVE => "workspace-copy-move" | PROCESS_ARGV => "process-argv"
  | PROCESS_SHELL => "process-shell" | PROCESS_CONTROL => "process-control" | NETWORK_ORIGIN => "network-origin"
  | KIND_WORKSPACE => "workspace"
  end.
Record AuthorizationResource := MkResource {
  ar_kind : AuthorizationResourceKind; ar_principal_id : string; ar_project_id : string; ar_task_id : string;
  ar_workspace_id : string; ar_workspace_generation : Z; ar_canonical_target : string; ar_root_device : option Z;
  ar_root_inode : option Z; ar_workspace_root : string
}.
(** [AuthorizationResource.__post_init__] *)
Definition make_resource (r : AuthorizationResource) : res AuthorizationResource :=
  raise_if (existsb str_empty [ar_principal_id r; ar_project_id r; ar_task_id r; ar_workspace_id r; ar_canonical_target r])
    ValueError "authorization resource identity is incomplete" ;;*
  raise_if (ar_workspace_generation r <=? 0) ValueError "workspace generation must be positive" ;;*
  Ok r.
Definition opt_int (o : option Z) : pyval := match o with Some z => PInt z | None => PNone end.
Definition resource_dict (r : AuthorizationResource) : pyval :=
  PDict [("kind", PStr (kind_value (ar_kind r))); ("principal_id", PStr (ar_principal_id r));
         ("project_id", PStr (ar_project_id r)); ("task_id", PStr (ar_task_id r)); ("workspace_id", PStr (ar_workspace_id r));
         ("workspace_generation", PInt (ar_workspace_generation r)); ("canonical_target", PStr (ar_canonical_target r));
         ("root_device", opt_int (ar_root_device r)); ("root_inode", opt_int (ar_root_inode r));
         ("workspace_root", PStr (ar_workspace_root r))].
Definition resource_digest (r : AuthorizationResource) : res string :=
  let* bytes := encode_utf8 (dumpsc (resource_dict r)) in Ok (sha256_hexdigest bytes).

(** ** Equality of values *)
Fixpoint py_eq (v w : pyval) : bool :=
  match v, w with
  | PNone, PNone => true
  | PBool a, PBool b => eqb a b
  | PInt a, PInt b => a =? b
  | PFloat a, PFloat b => bool_decide (a = b)
  | PStr a, PStr b => bool_decide (a = b)
  | PList l, PList k =>
      (fix go (l k : list pyval) : bool :=
         match l, k with [], [] => true | x :: l', y :: k' => py_eq x y && go l' k' | _, _ => false end) l k
  | PDict l, PDict k =>
      (fix go (l k : list (string * pyval)) : bool :=
         match l, k with
         | [], [] => true
         | (a, x) :: l', (b, y) :: k' => bool_decide (a = b) && py_eq x y && go l' k'
         | _, _ => false
         end) l k
  | _, _ => false
  end.
Lemma py_eq_true v w : py_eq v w = true <-> v = w.
Proof.
  revert w. induction v as [|b|z|s|s|l IH|d IH] using pyval_ind; intros [|b'|z'|s'|s'|l'|d']; cbn; try (split; done).
  - rewrite eqb_true_iff. naive_solver.
  - rewrite Z.eqb_eq. naive_solver.
  - rewrite bool_decide_eq_true. naive_solver.
  - rewrite bool_decide_eq_true. naive_solver.
  - revert l'. induction IH as [|x l Hx Hl IHl]; intros [|y l']; try (split; done).
    rewrite andb_true_iff, Hx, IHl. naive_solver.
  - revert d'. induction IH as [|[a x] d Hx Hd IHd]; intros [|[b y] d']; try (split; done).
    cbn in Hx. rewrite !andb_true_iff, bool_decide_eq_true, Hx, IHd. naive_solver.
Qed.
Lemma py_eq_refl v : py_eq v v = true.
Proof. by apply py_eq_true. Qed.

(** [d.get(key)], [d.get(key, default)], [key in d] *)
Definition get (key : string) (d : list (string * pyval)) : pyval := default PNone (dict_get key d).
Definition get_or (key : string) (def : pyval) (d : list (string * pyval)) : pyval := default def (dict_get key d).
Definition has_key (key : string) (d : list (string * pyval)) : bool := match dict_get key d with Some _ => true | None => false end.
Definition value_error {A} (msg : string) : res A := Raise (Exn ValueError msg).
Definition is_str (v : pyval) : bool := match v with PStr _ => true | _ => false end.
Definition is_bool (v : pyval) : bool := match v with PBool _ => true | _ => false end.

(** ** Texts *)
Definition is_glob_meta (a : ascii) : bool := str_in (String a EmptyString) ["*"; "?"; "["].
Definition _has_glob_meta (value : string) : bool := string_existsb is_glob_meta value.
(** [text.rstrip(c)] for one character *)
Fixpoint rstrip_of (a : ascii) (s : string) : string :=
  match s with
  | EmptyString => EmptyString
  | String c r => match rstrip_of a r with
                  | EmptyString => if Ascii.eqb c a then EmptyString else String c EmptyString
                  | r' => String c r'
                  end
  end.
(** The text before the first glob character, and from it on *)
Fixpoint split_at_meta (s : string) : option (string * string) :=
  match s with
  | EmptyString => None
  | String c r => if is_glob_meta c then Some (EmptyString, s) else (fun p => (String c p.1, p.2)) <$> split_at_meta r
  end.
(** [c.isspace()] *)
Definition is_space (c : string) : bool := str_empty (py_strip c).

Section Rules.
Context `{Platform}.

Definition str_of (v : pyval) : string := py_str py_repr v.

Definition _require_string (spec : list (string * pyval)) (name : string) : res string :=
  match get name spec with
  | PStr s => if str_empty (py_strip s) then value_error "typed resource field must be a non-empty string" else Ok (py_strip s)
  | _ => value_error "typed resource field must be a non-empty string"
  end.
Definition _require_absolute_path (value : string) : res string :=
  raise_if (negb (isabs value)) ValueError "typed resource field must be absolute" ;;*
  raise_if (_has_glob_meta value) ValueError "typed resource field must not contain glob syntax" ;;*
  let normalized := normpath value in
  raise_if (negb (isabs normalized)) ValueError "typed resource field is not a valid path" ;;*
  realpath normalized.
Definition _canonical_host (value : string) : res string :=
  let host := str_lower (rstrip_of "." (py_strip value)) in
  raise_if (str_empty host || _has_glob_meta host || existsb is_space (chars host)) ValueError
    "network host must be a concrete hostname" ;;*
  try_except (idna host) [UnicodeEncodeError] (fun _ => value_error "network host is not valid IDNA").

Definition allowed_fields (resource_type : string) : list string :=
  if bool_decide (resource_type = FILESYSTEM)
  then ["operation"; "tool"; "path"; "root"; "recursive"; "source"; "destination"]
  else if bool_decide (resource_type = EXEC)
  then ["operation"; "tool"; "executable"; "argv_prefix"; "argv_exact"; "cwd"; "workspace_root"; "cwd_scope"; "allow_shell";
        "shell"; "script_digest"; "semantic_status"; "semantic_digest"]
  else if bool_decide (resource_type = NETWORK) then ["operation"; "tool"; "scheme"; "host"; "port"; "path_prefix"]
  else if bool_decide (resource_type = PROCESS) then ["operation"; "tool"; "process_id"]
  else if bool_decide (resource_type = WORKSPACE) then ["operation"; "tool"; "workspace_root"]
  else ["operation"; "tool"; "target"].

(** [spec[name] = f(spec)] when the field is present *)
Definition update_present (name : string) (f : list (string * pyval) -> res pyval) (spec : list (string * pyval))
    : res (list (string * pyval)) :=
  if has_key name spec then let* v := f spec in Ok (dict_set name v spec) else Ok spec.
Definition as_string (name : string) (spec : list (string * pyval)) : res pyval :=
  let* s := _require_string spec name in Ok (PStr s).
Definition as_path (name : string) (spec : list (string * pyval)) : res pyval :=
  let* p := _require_absolute_path (str_of (get name spec)) in Ok (PStr p).

(** The fields of a rule whose one selector is [name] *)
Definition filesystem_fields (relaxing : bool) (name : string) (spec : list (string * pyval)) : res (list (string * pyval)) :=
  let raw_root := str_of (get_or "root" (PStr "") spec) in
  let* spec1 := update_present name (as_path name) spec in
  let* spec2 := update_present "destination" (as_path "destination") spec1 in
  raise_if (has_key "recursive" spec2 && negb (is_bool (get "recursive" spec2))) ValueError "filesystem recursive must be boolean" ;;*
  if has_key "root" spec2 then
    raise_if (relaxing && str_in (normpath raw_root) ["/"; "\"]) ValueError "relaxing filesystem root cannot be '/'" ;;*
    Ok (dict_set "recursive" (PBool (truthy (get_or "recursive" (PBool true) spec2))) spec2)
  else if has_key "path" spec2
  then Ok (dict_set "recursive" (PBool (truthy (get_or "recursive" (PBool false) spec2))) spec2)
  else Ok spec2.
Definition validate_filesystem (relaxing : bool) (spec : list (string * pyval)) : res (list (string * pyval)) :=
  let selectors := List.filter (fun n => has_key n spec) ["path"; "root"; "source"] in
  raise_if (has_key "destination" spec && negb (has_key "source" spec)) ValueError "filesystem destination requires source" ;;*
  match selectors with
  | [name] =>
      raise_if (bool_decide (name = "source") && negb (has_key "destination" spec)) ValueError
        "filesystem rule needs path, root, or source+destination" ;;*
      filesystem_fields relaxing name spec
  | _ => value_error "filesystem rule needs path, root, or source+destination"
  end.

Definition as_digest (name : string) (spec : list (string * pyval)) : res pyval :=
  let* digest := _require_string spec name in
  raise_if (negb (py_len digest =? 64)) ValueError (name +:+ " must be a SHA-256 hex digest") ;;*
  raise_if (negb (int_base16 digest)) ValueError (name +:+ " must be hexadecimal") ;;*
  Ok (PStr (str_lower digest)).
Definition as_status (spec : list (string * pyval)) : res pyval :=
  let* status := _require_string spec "semantic_status" in
  raise_if (negb (str_in status ["safe"; "semantic-unknown"; "blocked"])) ValueError "semantic_status is invalid" ;;*
  Ok (PStr status).
Definition concrete_arg (v : pyval) : bool :=
  match v with PStr s => negb (str_empty s) && negb (_has_glob_meta s) | _ => false end.
Definition as_list (v : pyval) : option (list pyval) := match v with PList l => Some l | _ => None end.

Definition validate_exec (relaxing : bool) (spec : list (string * pyval)) : res (list (string * pyval)) :=
  let* executable := _require_string spec "executable" in
  raise_if (_has_glob_meta executable || existsb (char_in (";&|<>" +:+ NEWLINE)) (chars executable)) ValueError
    "executable must be a concrete program name" ;;*
  let spec1 := dict_set "executable" (PStr executable) spec in
  let argv_prefix := get_or "argv_prefix" (PList []) spec1 in
  raise_if (negb (match as_list argv_prefix with Some l => forallb concrete_arg l | None => false end)) ValueError
    "argv_prefix must be a list of concrete strings" ;;*
  let spec2 := dict_set "argv_prefix" argv_prefix spec1 in
  raise_if (has_key "argv_exact" spec2 && negb (is_bool (get "argv_exact" spec2))) ValueError "argv_exact must be boolean" ;;*
  let* spec3 := update_present "cwd" (as_path "cwd") spec2 in
  let cwd_scope := get_or "cwd_scope" (PStr (if has_key "cwd" spec3 then "exact" else "any")) spec3 in
  raise_if (match cwd_scope with PList _ | PDict _ => true | _ => false end) TypeError "unhashable type" ;;*
  raise_if (negb (existsb (fun x => py_eq cwd_scope (PStr x)) ["exact"; "workspace"; "any"])) ValueError
    "cwd_scope must be exact, workspace, or any" ;;*
  raise_if (py_eq cwd_scope (PStr "exact") && negb (has_key "cwd" spec3)) ValueError "exact cwd_scope requires cwd" ;;*
  let* spec4 := update_present "workspace_root" (as_path "workspace_root") spec3 in
  raise_if (py_eq cwd_scope (PStr "workspace") && negb (has_key "workspace_root" spec4)) ValueError
    "workspace cwd_scope requires workspace_root" ;;*
  let spec5 := dict_set "cwd_scope" cwd_scope spec4 in
  let allow_shell := get_or "allow_shell" (PBool false) spec5 in
  raise_if (negb (is_bool allow_shell)) ValueError "allow_shell must be boolean" ;;*
  let spec6 := dict_set "allow_shell" allow_shell spec5 in
  let* spec7 := update_present "shell" (as_string "shell") spec6 in
  let* spec8 := update_present "script_digest" (as_digest "script_digest") spec7 in
  let* spec9 := update_present "semantic_digest" (as_digest "semantic_digest") spec8 in
  let* spec10 := update_present "semantic_status" as_status spec9 in
  raise_if (relaxing && truthy allow_shell && negb (has_key "script_digest" spec10)) ValueError
    "relaxing shell rules require script_digest" ;;*
  Ok spec10.

Definition validate_network (spec : list (string * pyval)) : res (list (string * pyval)) :=
  let* scheme0 := _require_string spec "scheme" in
  let scheme := str_lower scheme0 in
  raise_if (negb (str_in scheme ["http"; "https"; "ws"; "wss"])) ValueError "unsupported network scheme" ;;*
  let spec1 := dict_set "scheme" (PStr scheme) spec in
  let* host0 := _require_string spec1 "host" in
  let* host := _canonical_host host0 in
  let spec2 := dict_set "host" (PStr host) spec1 in
  raise_if (has_key "port" spec2 && negb (match get "port" spec2 with PInt _ => true | _ => false end)) ValueError
    "network port must be an integer" ;;*
  raise_if (match dict_get "port" spec2 with Some (PInt p) => negb ((1 <=? p) && (p <=? 65535)) | _ => false end) ValueError
    "network port is out of range" ;;*
  match get_or "path_prefix" (PStr "/") spec2 with
  | PStr prefix =>
      raise_if (negb (has_prefix "/" prefix) || _has_glob_meta prefix) ValueError
        "path_prefix must be an absolute concrete URL path" ;;*
      let normal := pure_posix_path prefix in
      Ok (dict_set "path_prefix" (PStr (if has_prefix "/" normal then normal else "/" +:+ normal)) spec2)
  | _ => value_error "path_prefix must be an absolute concrete URL path"
  end.

Definition validate_process (spec : list (string * pyval)) : res (list (string * pyval)) :=
  let* process_id := _require_string spec "process_id" in
  raise_if (_has_glob_meta process_id) ValueError "process_id must be concrete" ;;*
  Ok (dict_set "process_id" (PStr process_id) spec).
Definition validate_workspace (relaxing : bool) (spec : list (string * pyval)) : res (list (string * pyval)) :=
  let* raw := _require_string spec "workspace_root" in
  let* root := _require_absolute_path raw in
  raise_if (relaxing && bool_decide (root = "/")) ValueError "relaxing workspace root cannot be '/'" ;;*
  Ok (dict_set "workspace_root" (PStr root) spec).
Definition validate_generic (spec : list (string * pyval)) : res (list (string * pyval)) :=
  let* target := _require_string spec "target" in
  raise_if (_has_glob_meta target) ValueError "generic typed targets must be exact" ;;*
  Ok (dict_set "target" (PStr target) spec).

Definition validate_fields (rt : string) (relaxing : bool) (spec : list (string * pyval)) : res (list (string * pyval)) :=
  if bool_decide (rt = FILESYSTEM) then validate_filesystem relaxing spec
  else if bool_decide (rt = EXEC) then validate_exec relaxing spec
  else if bool_decide (rt = NETWORK) then validate_network spec
  else if bool_decide (rt = PROCESS) then validate_process spec
  else if bool_decide (rt = WORKSPACE) then validate_workspace relaxing spec
  else validate_generic spec.

(** [{key: spec[key] for key in sorted(spec)}] *)
Definition sorted_spec (spec : list (string * pyval)) : list (string * pyval) := sorted_by fst spec.
Definition validate_typed_rule (resource_type : string) (resource_spec : pyval) (approval : ApprovalMode)
    : res (list (string * pyval)) :=
  let rt := str_lower (py_strip resource_type) in
  raise_if (negb (str_in rt _RESOURCE_TYPES)) ValueError "unknown typed resource type" ;;*
  match resource_spec with
  | PDict spec0 =>
      raise_if (negb (forallb (fun k => str_in k (allowed_fields rt)) (dict_keys spec0))) ValueError "unknown fields" ;;*
      raise_if (has_key "operation" spec0 &&
                match get "operation" spec0 with PStr s => str_empty (py_strip s) | _ => true end) ValueError
        "operation must be a non-empty string" ;;*
      let* spec1 := update_present "operation" (as_string "operation") spec0 in
      let* spec2 := update_present "tool" (as_string "tool") spec1 in
      let relaxing := is_relaxing_approval approval in
      let* spec := validate_fields rt relaxing spec2 in
      Ok (sorted_spec spec)
  | _ => value_error "typed resource spec must be an object"
  end.

(** ** Observations *)
Definition _path_contains (root path : string) : bool :=
  match commonpath root path with Ok c => bool_decide (c = root) | Raise _ => false end.

Definition _network_observation (target : string) : res (option (list (string * pyval))) :=
  let* parsed := urlsplit target in
  match sr_hostname parsed with
  | Some hostname =>
      if str_empty (sr_scheme parsed) || str_empty hostname then Ok None
      else
        let* host := idna hostname in
        let* port := sr_port parsed in
        Ok (Some [("scheme", PStr (str_lower (sr_scheme parsed))); ("host", PStr (str_lower host)); ("port", opt_int port);
                  ("path", PStr (if str_empty (sr_path parsed) then "/" else sr_path parsed))])
  | None => Ok None
  end.

Definition SHELL_OPERATORS : list string := ["|"; "||"; "&"; "&&"; ";"; "<"; ">"; "<<"; ">>"].
Definition shell_token (v : pyval) : bool := match v with PStr s => negb (str_in s SHELL_OPERATORS) | _ => false end.

(** [json.loads]; the exceptions it can raise are value errors *)
Definition decode_target (target : string) : res (list (string * pyval)) :=
  let* decoded := try_except (loads default_object_hook default_constant_hook target) [TypeError; ValueError]
    (fun _ => value_error "authorization resource target is not canonical JSON") in
  match decoded with PDict d => Ok d | _ => value_error "authorization resource target must be an object" end.

Definition _typed_observation_from_resource (r : AuthorizationResource) (operation : string)
    : res (string * list (string * pyval)) :=
  let target := ar_canonical_target r in
  match ar_kind r with
  | NETWORK_ORIGIN =>
      let* observation := _network_observation target in
      match observation with
      | Some o => Ok (NETWORK, o)
      | None => value_error "authorization resource has an invalid network target"
      end
  | kind =>
      let* decoded := decode_target target in
      let tool := ("tool", get_or "tool" (PStr "") decoded) in
      Ok match kind with
         | WORKSPACE_PATH =>
             (FILESYSTEM, [("operation", PStr operation); tool; ("path", get_or "path" (PStr "") decoded)])
         | WORKSPACE_COPY_MOVE =>
             (FILESYSTEM, [("operation", PStr operation); tool; ("source", get_or "source" (PStr "") decoded);
                           ("destination", get_or "destination" (PStr "") decoded)])
         | PROCESS_ARGV =>
             let argv := default [] (as_list (get "argv" decoded)) in
             (EXEC, [("operation", PStr operation); tool; ("executable", default (PStr "") (head argv)); ("argv", PList argv);
                     ("cwd", get_or "cwd" (PStr "") decoded); ("workspace_root", PStr (ar_workspace_root r));
                     ("is_shell", PBool false)])
         | PROCESS_SHELL =>
             let tokens := default [] (as_list (get "tokens" decoded)) in
             (EXEC, [("operation", PStr operation); tool; ("executable", default (PStr "") (List.find shell_token tokens));
                     ("argv", PList []); ("cwd", get_or "cwd" (PStr "") decoded);
                     ("workspace_root", PStr (ar_workspace_root r)); ("is_shell", PBool true);
                     ("shell", get_or "shell" (PStr "") decoded); ("script_digest", get_or "script_digest" (PStr "") decoded);
                     ("semantic_status", get_or "semantic_status" (PStr "") decoded);
                     ("semantic_digest", get_or "semantic_digest" (PStr "") decoded)])
         | PROCESS_CONTROL =>
             (PROCESS, [("operation", get_or "action" (PStr operation) decoded); tool;
                        ("process_id", get_or "process_id" (PStr "") decoded)])
         | _ =>
             (WORKSPACE, [("operation", PStr operation); tool; ("workspace_root", get_or "workspace_root" (PStr "") decoded)])
         end
  end.

(** [x or default] *)
Definition or_else (v w : pyval) : pyval := if truthy v then v else w.
Definition FILE_TOOLS : list string :=
  ["read_file"; "write_file"; "patch"; "search_files"; "list_directory"; "file_info"; "tree_view"; "file_search_content";
   "multi_edit"; "code_search"; "code_symbols"; "copy_file"; "move_file"].
Definition TERMINAL_TOOLS : list string := ["terminal"; "terminal_argv"; "terminal_shell"; "test_run"].

Definition observed_root (params : list (string * pyval)) : res string :=
  if truthy (get "workspace_root" params) then realpath (str_of (get "workspace_root" params)) else Ok "".
Definition request_observation (tool_name : string) (params : list (string * pyval)) (target operation : string)
    : res (string * list (string * pyval)) :=
  let base := [("operation", PStr operation); ("tool", PStr tool_name)] in
  if str_in tool_name FILE_TOOLS then
    if str_in tool_name ["copy_file"; "move_file"] then
      let* source := realpath (str_of (get_or "src" (PStr "") params)) in
      let* destination := realpath (str_of (get_or "dst" (PStr "") params)) in
      Ok (FILESYSTEM, base ++ [("source", PStr source); ("destination", PStr destination)])
    else Ok (FILESYSTEM, base ++ [("path", PStr target)])
  else if str_in tool_name TERMINAL_TOOLS then
    let argv := as_list (get "argv" params) in
    if str_in tool_name ["terminal"; "terminal_shell"] && bool_decide (argv = None) then
      let script := str_of (or_else (get "script" params) (or_else (get "command" params) (PStr ""))) in
      let* semantic := analyze_shell_script script in
      let* cwd := realpath (str_of (get_or "cwd" (PStr ".") params)) in
      let* root := observed_root params in
      let* bytes := encode_utf8 script in
      Ok (EXEC, base ++ [("executable", PStr (default "" (head (executables semantic)))); ("argv", PList []); ("cwd", PStr cwd);
            ("workspace_root", PStr root); ("is_shell", PBool true);
            ("shell", PStr (str_of (or_else (get "shell" params) (PStr "/bin/sh"))));
            ("script_digest", PStr (sha256_hexdigest bytes));
            ("semantic_status", PStr (shell_status_value (an_status semantic)));
            ("semantic_digest", PStr (semantic_digest semantic))])
    else
      let* items := match argv with
        | Some l => Ok l
        | None => try_except
            (let* words := shlex_split (str_of (or_else (get "command" params) (or_else (get "script" params) (PStr "")))) in
             Ok (PStr <$> words)) [ValueError] (fun _ => Ok [])
        end in
      let strings := List.filter is_str items in
      let* cwd := realpath (str_of (get_or "cwd" (PStr ".") params)) in
      let* root := observed_root params in
      Ok (EXEC, base ++ [("executable", default (PStr "") (head strings)); ("argv", PList strings); ("cwd", PStr cwd);
            ("workspace_root", PStr root); ("is_shell", PBool false); ("shell", PStr ""); ("script_digest", PStr "")])
  else
    let* network := if has_key "url" params then _network_observation (str_of (get_or "url" (PStr "") params)) else Ok None in
    match network with
    | Some o => Ok (NETWORK, o)
    | None =>
        if bool_decide (tool_name = "process")
        then Ok (PROCESS, [("operation", PStr (str_of (or_else (get "action" params) (PStr operation)))); ("tool", PStr tool_name);
                           ("process_id", PStr (str_of (or_else (get "id" params) (PStr ""))))])
        else Ok (GENERIC, base ++ [("target", PStr target)])
    end.

(** ** Matching *)
(** [spec.get(name) and spec[name] != value] *)
Definition differs (name : string) (spec : list (string * pyval)) (value : pyval) : bool :=
  truthy (get name spec) && negb (py_eq (get name spec) value).

Definition match_filesystem (spec observed : list (string * pyval)) (operation : string) : bool :=
  if differs "operation" spec (PStr operation) then false
  else if differs "tool" spec (get "tool" observed) then false
  else if has_key "source" spec
  then py_eq (get "source" observed) (get "source" spec) && py_eq (get "destination" observed) (get "destination" spec)
  else
    let path := str_of (get_or "path" (PStr "") observed) in
    if has_key "path" spec && negb (truthy (get_or "recursive" (PBool false) spec))
    then py_eq (PStr path) (get "path" spec)
    else
      let root := get_or "root" (get_or "path" (PStr "") spec) spec in
      truthy root && _path_contains (str_of root) path.

Definition match_exec (spec observed : list (string * pyval)) (operation : string) : bool :=
  let is_shell := truthy (get "is_shell" observed) in
  let allow_shell := truthy (get_or "allow_shell" (PBool false) spec) in
  let argv0 := default [] (as_list (get "argv" observed)) in
  let prefix := default [] (as_list (get "argv_prefix" spec)) in
  let argv := match argv0 with x :: r => if py_eq x (get "executable" observed) then r else argv0 | [] => [] end in
  let cwd_scope := get "cwd_scope" spec in
  let workspace_root := str_of (or_else (get "workspace_root" spec) (PStr "")) in
  let observed_ws := str_of (or_else (get "workspace_root" observed) (PStr "")) in
  let cwd := str_of (or_else (get "cwd" observed) (PStr "")) in
  if differs "operation" spec (PStr operation) then false
  else if differs "tool" spec (get "tool" observed) then false
  else if is_shell && negb allow_shell then false
  else if negb is_shell && allow_shell then false
  else if negb (py_eq (get "executable" spec) (get "executable" observed)) then false
  else if (if truthy (get "argv_exact" spec) then negb (py_eq (PList argv) (PList prefix))
           else negb (py_eq (PList (take (length prefix) argv)) (PList prefix))) then false
  else if py_eq cwd_scope (PStr "exact") && negb (py_eq (get "cwd" spec) (get "cwd" observed)) then false
  else if py_eq cwd_scope (PStr "workspace")
          && (str_empty workspace_root || negb (bool_decide (observed_ws = workspace_root)) || str_empty cwd
              || negb (_path_contains workspace_root cwd)) then false
  else if differs "shell" spec (get "shell" observed) then false
  else if differs "script_digest" spec (get "script_digest" observed) then false
  else if differs "semantic_status" spec (get "semantic_status" observed) then false
  else negb (differs "semantic_digest" spec (get "semantic_digest" observed)).

(** The prefix of a validated rule is a text. *)
Definition match_network (spec observed : list (string * pyval)) : bool :=
  if existsb (fun name => has_key name spec && negb (py_eq (get name spec) (get name observed))) ["scheme"; "host"; "port"]
  then false
  else
    let prefix := str_of (get_or "path_prefix" (PStr "/") spec) in
    let path := str_of (get_or "path" (PStr "/") observed) in
    bool_decide (path = prefix) || has_prefix (rstrip_of "/" prefix +:+ "/") path || bool_decide (prefix = "/").

Definition match_process (spec observed : list (string * pyval)) : bool :=
  forallb (fun name => negb (has_key name spec) || py_eq (get name spec) (get name observed)) ["process_id"; "tool"]
  && negb (differs "operation" spec (get "operation" observed)).
Definition match_workspace (spec observed : list (string * pyval)) : bool :=
  py_eq (get "workspace_root" spec) (get "workspace_root" observed)
  && negb (differs "operation" spec (get "operation" observed)) && negb (differs "tool" spec (get "tool" observed)).

Definition match_observed (resource_type : string) (spec : list (string * pyval)) (observed_type : string)
    (observed : list (string * pyval)) (tool_name target operation : string) : bool :=
  if negb (bool_decide (observed_type = resource_type)) then false
  else if bool_decide (resource_type = FILESYSTEM) then match_filesystem spec observed operation
  else if bool_decide (resource_type = EXEC) then match_exec spec observed operation
  else if bool_decide (resource_type = NETWORK) then match_network spec observed
  else if bool_decide (resource_type = PROCESS) then match_process spec observed
  else if bool_decide (resource_type = WORKSPACE) then match_workspace spec observed
  else if bool_decide (resource_type = GENERIC) then
    py_eq (get "target" spec) (PStr target) && negb (differs "tool" spec (PStr tool_name))
  else false.
Definition match_typed_rule (resource_type : string) (spec : list (string * pyval)) (resource : option AuthorizationResource)
    (tool_name : string) (params : list (string * pyval)) (target operation : string) : res bool :=
  let* '(observed_type, observed) := match resource with
    | Some r => _typed_observation_from_resource r operation
    | None => request_observation tool_name params target operation
    end in
  Ok (match_observed resource_type spec observed_type observed tool_name target operation).

(** ** Rules from a resource and from legacy patterns *)
Definition pick (names : list string) (d : list (string * pyval)) : list (string * pyval) :=
  (fun n => (n, get n d)) <$> names.
Definition exact_spec (resource_type : string) (o : list (string * pyval)) : list (string * pyval) :=
  if bool_decide (resource_type = FILESYSTEM) then
    if has_key "path" o then pick ["operation"; "tool"; "path"] o else pick ["operation"; "tool"; "source"; "destination"] o
  else if bool_decide (resource_type = EXEC) then
    if truthy (get "is_shell" o) then
      pick ["operation"; "tool"] o ++
      [("executable", or_else (get "executable" o) (PStr "shell")); ("argv_prefix", PList []); ("allow_shell", PBool true);
       ("shell", or_else (get "shell" o) (PStr "/bin/sh")); ("script_digest", get "script_digest" o);
       ("semantic_status", get_or "semantic_status" (PStr "") o); ("semantic_digest", get_or "semantic_digest" (PStr "") o);
       ("cwd", get "cwd" o); ("workspace_root", get "workspace_root" o)]
    else
      pick ["operation"; "tool"; "executable"] o ++
      [("argv_prefix", PList (tail (default [] (as_list (get "argv" o))))); ("argv_exact", PBool true);
       ("allow_shell", PBool false); ("cwd", get "cwd" o); ("workspace_root", get "workspace_root" o)]
  else if bool_decide (resource_type = NETWORK) then
    [("scheme", get "scheme" o); ("host", get "host" o); ("path_prefix", get "path" o)]
    ++ match get "port" o with PNone => [] | port => [("port", port)] end
  else o.
Definition typed_rule_from_authorization_resource (r : AuthorizationResource) (operation : string)
    : res (string * list (string * pyval)) :=
  let* '(resource_type, observation) := _typed_observation_from_resource r operation in
  let* spec := validate_typed_rule resource_type (PDict (exact_spec resource_type observation)) AUTO_APPROVE in
  Ok (resource_type, spec).

Definition _split_path_pattern (pattern : string) : option string :=
  match split_at_meta pattern with
  | None => None
  | Some (before, suffix) =>
      if negb (str_in suffix ["*"; "**"]) then None
      else
        let prefix := rstrip_of "/" before in
        if str_empty prefix || bool_decide (prefix = "/") || negb (isabs prefix) then None else Some prefix
  end.

Definition LEGACY_PREFIXES : list string := ["read_file"; "write_file"; "search_files"; "terminal"; "process"].
(** The tool a pattern names in front of a colon, and the rest *)
Definition legacy_tool (s : string) : string * string :=
  match List.find (fun t => has_prefix (t +:+ ":") s) LEGACY_PREFIXES with
  | Some tool => (tool, py_strip (default "" (drop_prefix (tool +:+ ":") s)))
  | None => ("", s)
  end.
Definition with_tool (tool : string) (spec : list (string * pyval)) : list (string * pyval) :=
  if str_empty tool then spec else spec ++ [("tool", PStr tool)].
(** [s[:-1]] for a text that ends with an ASCII character *)
Fixpoint drop_last (s : string) : string :=
  match s with EmptyString => EmptyString | String c EmptyString => EmptyString | String c r => String c (drop_last r) end.
Definition ends_with_star (s : string) : bool := match last (String.list_ascii_of_string s) with Some c => Ascii.eqb c "*" | None => false end.
(** [text.rstrip()] *)
Definition py_rstrip (s : string) : string := String.string_of_list_ascii (rstrip_bytes (String.list_ascii_of_string s)).

Definition legacy_network (parsed : SplitResult) (hostname pattern : string) (approval : ApprovalMode)
    : res (string * list (string * pyval)) :=
  raise_if (_has_glob_meta hostname || existsb (char_in "[]?") (chars pattern)) ValueError
    "network pattern contains ambiguous glob syntax" ;;*
  let* path_prefix := match split_at_meta (sr_path parsed) with
    | Some (before, suffix) =>
        if str_in suffix ["*"; "**"] then Ok (rstrip_of "/" before)
        else value_error "network path glob must be a trailing subtree"
    | None => Ok (sr_path parsed)
    end in
  let* port := sr_port parsed in
  let spec := [("scheme", PStr (sr_scheme parsed)); ("host", PStr hostname);
               ("path_prefix", PStr (if str_empty path_prefix then "/" else path_prefix))]
              ++ match port with Some p => [("port", PInt p)] | None => [] end in
  let* spec' := validate_typed_rule NETWORK (PDict spec) approval in Ok (NETWORK, spec').
Definition legacy_path (tool pattern : string) (approval : ApprovalMode) : res (string * list (string * pyval)) :=
  let* spec := match _split_path_pattern pattern with
    | Some root => Ok [("path", PStr root); ("recursive", PBool true)]
    | None => if _has_glob_meta pattern then value_error "filesystem pattern is not a trailing subtree"
              else Ok [("path", PStr pattern)]
    end in
  let* spec' := validate_typed_rule FILESYSTEM (PDict (with_tool tool spec)) approval in Ok (FILESYSTEM, spec').
Definition legacy_command (pattern : string) (approval : ApprovalMode) : res (string * list (string * pyval)) :=
  let glob := _has_glob_meta pattern in
  raise_if (glob && (negb (ends_with_star pattern) || _has_glob_meta (drop_last pattern))) ValueError
    "command pattern must end with one '*'" ;;*
  let command := if glob then py_rstrip (drop_last pattern) else pattern in
  let* argv := try_except (shlex_split command) [ValueError] (fun _ => value_error "command pattern is not valid argv") in
  match argv with
  | [] => value_error "command pattern has no executable"
  | program :: args =>
      raise_if (existsb (fun a => existsb (char_in (";&|<>" +:+ NEWLINE)) (chars a)) argv) ValueError
        "command pattern has no executable" ;;*
      raise_if (glob && Nat.eqb (length argv) 1) ValueError "command wildcard must include a concrete argv prefix" ;;*
      let spec := [("executable", PStr program); ("argv_prefix", str_list args); ("allow_shell", PBool false)] in
      let* spec' := validate_typed_rule EXEC (PDict spec) approval in Ok (EXEC, spec')
  end.
Definition legacy_local (tool pattern permission_level : string) (approval : ApprovalMode)
    : res (string * list (string * pyval)) :=
  if isabs pattern || (negb (_has_glob_meta pattern) && string_existsb (fun a => byte a =? 47) pattern)
  then legacy_path tool pattern approval
  else if negb (bool_decide (permission_level = "execute") || str_in tool ["terminal"; "process"] || _has_glob_meta pattern)
  then let* spec' := validate_typed_rule GENERIC (PDict (with_tool tool [("target", PStr pattern)])) approval in
       Ok (GENERIC, spec')
  else legacy_command pattern approval.
Definition legacy_pattern_to_typed (pattern permission_level : string) (approval : ApprovalMode)
    : res (string * list (string * pyval)) :=
  let text0 := py_strip pattern in
  raise_if (str_empty text0) ValueError "relaxing grants require a typed resource rule" ;;*
  raise_if (negb (existsb (fun c => negb (str_in c ["*"; "?"; "["]) && negb (is_space c)) (chars text0))) ValueError
    "auto-approve pattern is too broad; a typed resource scope is required" ;;*
  let '(tool, pattern') := legacy_tool text0 in
  let* parsed := urlsplit pattern' in
  match sr_hostname parsed with
  | Some hostname =>
      if negb (str_empty (sr_scheme parsed)) && negb (str_empty hostname)
      then legacy_network parsed hostname pattern' approval
      else legacy_local tool pattern' permission_level approval
  | None => legacy_local tool pattern' permission_level approval
  end.

(** ** Fields of a validated specification *)
Lemma get_set k k' v d : get k (dict_set k' v d) = if bool_decide (k = k') then v else get k d.
Proof. unfold get. rewrite dict_get_set. by case_bool_decide. Qed.
Lemma has_key_set k k' v d : has_key k (dict_set k' v d) = bool_decide (k = k') || has_key k d.
Proof. unfold has_key. rewrite dict_get_set. by case_bool_decide. Qed.
Lemma has_key_get k d : has_key k d = true -> dict_get k d = Some (get k d).
Proof. unfold has_key, get. by destruct (dict_get k d). Qed.
(** [d'] differs from [d] only at the keys of [ks], and keeps all keys. *)
Definition changes (ks : list string) (d d' : list (string * pyval)) : Prop :=
  (NoDup (dict_keys d) -> NoDup (dict_keys d'))
  /\ (forall k, k ∉ ks -> dict_get k d' = dict_get k d) /\ (forall k, has_key k d = true -> has_key k d' = true).
Lemma changes_refl ks d : changes ks d d.
Proof. done. Qed.
Lemma changes_trans ks1 ks2 d1 d2 d3 : changes ks1 d1 d2 -> changes ks2 d2 d3 -> changes (ks1 ++ ks2) d1 d3.
Proof.
  intros (N1 & C1 & K1) (N2 & C2 & K2). split_and!; auto. intros k Hk. rewrite elem_of_app in Hk.
  rewrite C2, C1 by tauto. done.
Qed.
Lemma changes_set k v d : changes [k] d (dict_set k v d).
Proof.
  split_and!; [apply dict_set_nodup| |].
  - intros j Hj. rewrite dict_get_set, bool_decide_eq_false_2; [done|]. intros ->. apply Hj. left.
  - intros j Hj. by rewrite has_key_set, Hj, orb_true_r.
Qed.
Lemma changes_present name f d d' :
  update_present name f d = Ok d' ->
  changes [name] d d' /\ (has_key name d = true -> f d = Ok (get name d')) /\ (has_key name d = false -> d' = d).
Proof.
  unfold update_present. destruct (has_key name d) eqn:E; [|by intros [= <-]]. intros Hu. inv_res. simplify_eq.
  split_and!; [apply changes_set| |done]. intros _. by rewrite get_set, bool_decide_eq_true_2.
Qed.
Lemma changes_get ks d d' k : changes ks d d' -> k ∉ ks -> get k d' = get k d.
Proof. intros (_ & C & _) Hk. unfold get. by rewrite C. Qed.
Lemma changes_key ks d d' k : changes ks d d' -> k ∉ ks -> has_key k d' = has_key k d.
Proof. intros (_ & C & _) Hk. unfold has_key. by rewrite C. Qed.

(** What the string checks return *)
Definition nonempty_text (v : pyval) : Prop := exists s, v = PStr s /\ s ≠ "".
Lemma nonempty_truthy v : nonempty_text v -> truthy v = true.
Proof. intros (s & -> & Hs). cbn. by destruct s. Qed.
Lemma require_string_Ok d name s : _require_string d name = Ok s -> s ≠ "".
Proof. unfold _require_string. destruct (get name d); try done. case_match eqn:E; [done|]. intros [= <-] Hs. by rewrite Hs in E. Qed.
Lemma as_string_Ok name d v : as_string name d = Ok v -> nonempty_text v.
Proof. unfold as_string. intros H1. inv_res. simplify_eq. eexists. split; [done|]. by eapply require_string_Ok. Qed.

Lemma as_status_Ok d v : as_status d = Ok v -> nonempty_text v.
Proof. unfold as_status. intros H1. inv_res. simplify_eq. eexists. split; [done|]. by eapply require_string_Ok. Qed.

Lemma changes_weaken ks ks' d d' : changes ks d d' -> ks ⊆ ks' -> changes ks' d d'.
Proof. intros (N & C & K) Hs. split_and!; auto. Qed.

Ltac not_listed := rewrite ?not_elem_of_cons; split_and?; try done; try apply not_elem_of_nil.

Lemma present_keys name f d d' k : update_present name f d = Ok d' -> has_key k d' = has_key k d.
Proof.
  unfold update_present. destruct (has_key name d) eqn:E; [|by intros [= <-]]. intros Hu. inv_res. simplify_eq.
  rewrite has_key_set. case_bool_decide; [by subst | done].
Qed.
Lemma filesystem_fields_Ok relaxing name d d' :
  filesystem_fields relaxing name d = Ok d' ->
  changes [name; "destination"; "recursive"] d d'
  /\ (forall k, k ≠ "recursive" -> has_key k d' = has_key k d)
  /\ (name = "path" -> has_key "path" d = true -> has_key "root" d = false ->
        get "recursive" d' = PBool (truthy (get_or "recursive" (PBool false) d)))
  /\ (name ∉ ["destination"; "recursive"] -> has_key name d = true ->
        exists raw p, get name d' = PStr p /\ _require_absolute_path raw = Ok p).
Proof.
  unfold filesystem_fields. intros Hv.
  apply res_bind_Ok in Hv as (d1 & U1 & Hv). apply res_bind_Ok in Hv as (d2 & U2 & Hv).
  assert (Hk : forall k, has_key k d2 = has_key k d).
  { intros k. by rewrite (present_keys _ _ _ _ k U2), (present_keys _ _ _ _ k U1). }
  apply changes_present in U1 as (C1 & P1 & _). apply changes_present in U2 as (C2 & _).
  pose proof (changes_trans _ _ _ _ _ C1 C2) as C. cbn [app] in C.
  apply res_bind_Ok in Hv as (u & _ & Hv).
  assert (Hset : forall v, changes [name; "destination"; "recursive"] d (dict_set "recursive" v d2)).
  { intros v. exact (changes_trans _ _ _ _ _ C (changes_set "recursive" v d2)). }
  assert (Hkset : forall v k, k ≠ "recursive" -> has_key k (dict_set "recursive" v d2) = has_key k d).
  { intros v k Hn. by rewrite has_key_set, bool_decide_eq_false_2, Hk. }
  assert (Hsel : forall v, name ∉ ["destination"; "recursive"] -> has_key name d = true ->
    exists raw p, get name (dict_set "recursive" v d2) = PStr p /\ get name d2 = PStr p /\ _require_absolute_path raw = Ok p).
  { intros v Hn Hh. rewrite !not_elem_of_cons in Hn. destruct Hn as (Hn1 & Hn2 & _). specialize (P1 Hh). unfold as_path in P1.
    apply res_bind_Ok in P1 as (p & P1 & [= P2]). exists (str_of (get name d)), p.
    rewrite get_set, bool_decide_eq_false_2, (changes_get _ _ _ name C2) by (try done; not_listed). done. }
  rewrite !Hk in Hv. destruct (has_key "root" d) eqn:Er.
  - apply res_bind_Ok in Hv as (u' & _ & [= <-]). split_and!; [apply Hset | apply Hkset | done |].
    intros Hn Hh. destruct (Hsel (PBool (truthy (get_or "recursive" (PBool true) d2))) Hn Hh) as (raw & p & ? & _ & ?). eauto.
  - destruct (has_key "path" d) eqn:Ep; injection Hv as <-.
    + split_and!; [apply Hset | apply Hkset| |].
      * intros -> _ _. rewrite !get_set, bool_decide_eq_true_2 by done.
        destruct C as (_ & C & _); unfold get_or; by rewrite C by not_listed.
      * intros Hn Hh. destruct (Hsel (PBool (truthy (get_or "recursive" (PBool false) d2))) Hn Hh) as (raw & p & ? & _ & ?). eauto.
    + split_and!; [eapply changes_weaken; [exact C | set_solver] | intros; apply Hk | done|].
      intros Hn Hh. destruct (Hsel PNone Hn Hh) as (raw & p & _ & ? & ?). eauto.
Qed.
(** The selectors of a filesystem rule *)
Lemma validate_filesystem_Ok relaxing d d' :
  validate_filesystem relaxing d = Ok d' ->
  changes ["path"; "root"; "source"; "destination"; "recursive"] d d'
  /\ (forall k, k ≠ "recursive" -> has_key k d' = has_key k d)
  /\ (has_key "path" d = true -> has_key "root" d' = false /\ has_key "source" d' = false
        /\ get "recursive" d' = PBool (truthy (get_or "recursive" (PBool false) d))
        /\ exists raw p, get "path" d' = PStr p /\ _require_absolute_path raw = Ok p)
  /\ (has_key "source" d = true -> exists p, get "source" d' = PStr p).
Proof.
  unfold validate_filesystem. cbn [List.filter]. intros Hv. apply res_bind_Ok in Hv as (u & _ & Hv). revert Hv.
  destruct (has_key "path" d) eqn:Hp, (has_key "root" d) eqn:Hr, (has_key "source" d) eqn:Hs; try done; intros Hv;
    apply res_bind_Ok in Hv as (u' & _ & (C & K & F & S)%filesystem_fields_Ok);
    (split_and!; [eapply changes_weaken; [exact C | set_solver] | exact K| |]); try done.
  - intros _. rewrite !K by done. split_and!; [done | done | by apply F | apply S; [not_listed | done]].
  - intros _. destruct S as (raw & p & ? & _); [not_listed | done | eauto].
Qed.

Context `{!PlatformLaws}.
Lemma as_digest_Ok name d v : as_digest name d = Ok v -> nonempty_text v.
Proof.
  unfold as_digest. intros Hd. inv_res. simplify_eq. eexists. split; [done|]. apply str_lower_nonempty.
  by eapply require_string_Ok.
Qed.

(** An optional field of a program rule, checked by [f] *)
Lemma present_text name f d d' :
  update_present name f d = Ok d' -> (forall v, f d = Ok v -> nonempty_text v) ->
  changes [name] d d' /\ (has_key name d = true -> truthy (get name d') = true).
Proof.
  intros (C & P & _)%changes_present Hf. split; [done|]. intros Hk. apply nonempty_truthy. auto.
Qed.
Tactic Notation "take" hyp(Hv) ident(d) ident(U) :=
  apply res_bind_Ok in Hv; destruct Hv as (d & U & Hv).

Lemma validate_exec_Ok relaxing d d' :
  validate_exec relaxing d = Ok d' ->
  changes ["executable"; "argv_prefix"; "cwd"; "workspace_root"; "cwd_scope"; "allow_shell"; "shell"; "script_digest";
           "semantic_digest"; "semantic_status"] d d'
  /\ (has_key "argv_prefix" d = true -> get "argv_prefix" d' = get "argv_prefix" d)
  /\ (has_key "allow_shell" d = true -> get "allow_shell" d' = get "allow_shell" d)
  /\ (has_key "cwd" d = true -> has_key "cwd_scope" d = false -> get "cwd_scope" d' = PStr "exact")
  /\ (forall k, k ∈ ["shell"; "script_digest"; "semantic_digest"; "semantic_status"] -> has_key k d = true ->
        truthy (get k d') = true)
  /\ nonempty_text (get "executable" d').
Proof.
  unfold validate_exec. intros Hv. take Hv executable E. take Hv u1 E1.
  set (d1 := dict_set "executable" (PStr executable) d) in *. set (prefix := get_or "argv_prefix" (PList []) d1) in *.
  take Hv u2 E2. set (d2 := dict_set "argv_prefix" prefix d1) in *. take Hv u3 E3. take Hv d3 U3.
  set (scope := get_or "cwd_scope" _ d3) in *. take Hv u4 E4. take Hv u5 E5. take Hv u6 E6. take Hv d4 U4. take Hv u7 E7.
  set (d5 := dict_set "cwd_scope" scope d4) in *. set (allow := get_or "allow_shell" (PBool false) d5) in *. take Hv u8 E8.
  set (d6 := dict_set "allow_shell" allow d5) in *. take Hv d7 U7. take Hv d8 U8. take Hv d9 U9. take Hv d10 U10. take Hv u9 E9.
  injection Hv as <-.
  assert (C2 : changes ["executable"; "argv_prefix"] d d2)
    by exact (changes_trans _ _ _ _ _ (changes_set _ _ _) (changes_set _ _ _)).
  apply changes_present in U3 as (C3 & _ & _). apply changes_present in U4 as (C4 & _ & _).
  assert (C6 : changes ["cwd_scope"; "allow_shell"] d4 d6)
    by exact (changes_trans _ _ _ _ _ (changes_set _ _ _) (changes_set _ _ _)).
  apply present_text in U7 as [C7 T7]; [|apply as_string_Ok]. apply present_text in U8 as [C8 T8]; [|apply as_digest_Ok].
  apply present_text in U9 as [C9 T9]; [|apply as_digest_Ok]. apply present_text in U10 as [C10 T10]; [|apply as_status_Ok].
  pose proof (changes_trans _ _ _ _ _ (changes_trans _ _ _ _ _ C2 C3) C4) as C24. cbn [app] in C24.
  pose proof (changes_trans _ _ _ _ _ (changes_trans _ _ _ _ _ (changes_trans _ _ _ _ _ C7 C8) C9) C10) as C710. cbn [app] in C710.
  split_and!.
  - exact (changes_trans _ _ _ _ _ (changes_trans _ _ _ _ _ C24 C6) C710).
  - intros Hk. rewrite (changes_get _ _ _ "argv_prefix" C710) by not_listed.
    rewrite (changes_get _ _ _ "argv_prefix" C6) by not_listed. rewrite (changes_get _ _ _ "argv_prefix" C4) by not_listed.
    rewrite (changes_get _ _ _ "argv_prefix" C3) by not_listed. subst d2. rewrite get_set, bool_decide_eq_true_2 by done.
    subst prefix. unfold get_or. subst d1. rewrite dict_get_set, bool_decide_eq_false_2 by done. by rewrite (has_key_get _ _ Hk).
  - intros Hk. rewrite (changes_get _ _ _ "allow_shell" C710) by not_listed. subst d6.
    rewrite get_set, bool_decide_eq_true_2 by done. subst allow. unfold get_or. subst d5.
    rewrite dict_get_set, bool_decide_eq_false_2 by done. destruct C24 as (_ & C & _). rewrite C by not_listed.
    by rewrite (has_key_get _ _ Hk).
  - intros Hk Hn. rewrite (changes_get _ _ _ "cwd_scope" C710) by not_listed. subst d6.
    rewrite get_set, bool_decide_eq_false_2 by done. subst d5. rewrite get_set, bool_decide_eq_true_2 by done.
    subst scope. unfold get_or. pose proof (changes_trans _ _ _ _ _ C2 C3) as C23. cbn [app] in C23.
    destruct C23 as (_ & C & K). rewrite C, (K "cwd" Hk) by not_listed. unfold has_key in Hn. by destruct (dict_get "cwd_scope" d).
  - pose proof (changes_trans _ _ _ _ _ C24 C6) as C26. cbn [app] in C26.
    intros k Hk Hd. rewrite !elem_of_cons, elem_of_nil in Hk. destruct_or? Hk; try done; subst k.
    + rewrite (changes_get _ _ _ "shell" C10), (changes_get _ _ _ "shell" C9), (changes_get _ _ _ "shell" C8) by not_listed.
      apply T7. by apply C26.
    + rewrite (changes_get _ _ _ "script_digest" C10), (changes_get _ _ _ "script_digest" C9) by not_listed.
      apply T8. by apply C7, C26.
    + rewrite (changes_get _ _ _ "semantic_digest" C10) by not_listed. apply T9. by apply C8, C7, C26.
    + apply T10. by apply C9, C8, C7, C26.
  - rewrite (changes_get _ _ _ "executable" C710), (changes_get _ _ _ "executable" C6), (changes_get _ _ _ "executable" C4),
      (changes_get _ _ _ "executable" C3) by not_listed. subst d2 d1. rewrite !get_set.
    rewrite bool_decide_eq_false_2, bool_decide_eq_true_2 by done. eexists. split; [done|]. by eapply require_string_Ok.
Qed.

(** ** What a match says *)
Lemma differs_false name spec v : differs name spec v = false -> truthy (get name spec) = true -> get name spec = v.
Proof. unfold differs. intros Hd Ht. rewrite Ht in Hd. cbn in Hd. apply negb_false_iff in Hd. by apply py_eq_true. Qed.

Lemma match_path spec o operation :
  match_filesystem spec o operation = true ->
  truthy (get "operation" spec) = true -> truthy (get "tool" spec) = true -> has_key "source" spec = false ->
  has_key "path" spec = true -> truthy (get_or "recursive" (PBool false) spec) = false ->
  get "operation" spec = PStr operation /\ get "tool" spec = get "tool" o
  /\ get "path" spec = PStr (str_of (get_or "path" (PStr "") o)).
Proof.
  unfold match_filesystem. intros Hm Ho Ht Hs Hp Hr.
  destruct (differs "operation" spec _) eqn:D1; [done|]. destruct (differs "tool" spec _) eqn:D2; [done|].
  rewrite Hs, Hp, Hr in Hm. cbn [negb andb] in Hm. apply py_eq_true in Hm.
  split_and!; [by apply differs_false in D1 | by apply differs_false in D2 | done].
Qed.
Lemma match_copy spec o operation :
  match_filesystem spec o operation = true ->
  truthy (get "operation" spec) = true -> truthy (get "tool" spec) = true -> has_key "source" spec = true ->
  get "operation" spec = PStr operation /\ get "tool" spec = get "tool" o
  /\ get "source" o = get "source" spec /\ get "destination" o = get "destination" spec.
Proof.
  unfold match_filesystem. intros Hm Ho Ht Hs.
  destruct (differs "operation" spec _) eqn:D1; [done|]. destruct (differs "tool" spec _) eqn:D2; [done|].
  rewrite Hs in Hm. apply andb_true_iff in Hm as [Hm1%py_eq_true Hm2%py_eq_true].
  split_and!; [by apply differs_false in D1 | by apply differs_false in D2 | done | done].
Qed.
Lemma match_exec_Ok spec o operation :
  match_exec spec o operation = true ->
  truthy (get "operation" spec) = true -> truthy (get "tool" spec) = true -> get "cwd_scope" spec = PStr "exact" ->
  get "operation" spec = PStr operation /\ get "tool" spec = get "tool" o
  /\ truthy (get "is_shell" o) = truthy (get_or "allow_shell" (PBool false) spec)
  /\ get "executable" spec = get "executable" o /\ get "cwd" spec = get "cwd" o
  /\ (truthy (get "argv_exact" spec) = true ->
      default [] (as_list (get "argv_prefix" spec))
      = match default [] (as_list (get "argv" o)) with
        | x :: r => if py_eq x (get "executable" o) then r else x :: r | [] => [] end)
  /\ forall k, k ∈ ["shell"; "script_digest"; "semantic_status"; "semantic_digest"] -> truthy (get k spec) = true ->
       get k spec = get k o.
Proof.
  unfold match_exec. intros Hm Ho Ht Hc. rewrite Hc in Hm. rewrite py_eq_refl in Hm. cbn [andb] in Hm.
  destruct (differs "operation" spec _) eqn:D1; [done|]. destruct (differs "tool" spec _) eqn:D2; [done|].
  destruct (truthy (get "is_shell" o)) eqn:Es, (truthy (get_or "allow_shell" (PBool false) spec)) eqn:Ea; cbn [negb andb] in Hm; try done.
  all: destruct (py_eq (get "executable" spec) (get "executable" o)) eqn:Ee; cbn [negb] in Hm; [apply py_eq_true in Ee|done].
  all: destruct (if truthy (get "argv_exact" spec) then _ else _) eqn:Ev in Hm; [done|].
  all: destruct (py_eq (get "cwd" spec) (get "cwd" o)) eqn:Ew; cbn [negb] in Hm; [apply py_eq_true in Ew|done].
  all: destruct (py_eq (PStr "exact") (PStr "workspace") && _) eqn:Ex; [done|].
  all: destruct (differs "shell" spec _) eqn:D3; [done|]. all: destruct (differs "script_digest" spec _) eqn:D4; [done|].
  all: destruct (differs "semantic_status" spec _) eqn:D5; [done|]. all: apply negb_true_iff in Hm.
  all: split_and!; [by apply differs_false in D1 | by apply differs_false in D2 | done | done | done | |].
  all: lazymatch goal with
       | |- truthy _ = true -> _ => intros Hx; rewrite Hx in Ev; apply negb_false_iff, py_eq_true in Ev; injection Ev as Ev;
           rewrite <- Ev; by destruct (default [] (as_list (get "argv" o)))
       | _ => idtac end.
  all: intros k Hk Hkt; rewrite !elem_of_cons, elem_of_nil in Hk; destruct_or? Hk; try done; subst k;
    by eapply differs_false.
Qed.

Lemma type_lower rt : rt ∈ _RESOURCE_TYPES -> str_lower (py_strip rt) = rt.
Proof.
  unfold _RESOURCE_TYPES. rewrite !elem_of_cons, elem_of_nil. intros Hr. destruct_or? Hr; try done; subst rt;
    match goal with |- str_lower (py_strip ?x) = _ => change (py_strip x) with x end; by apply str_lower_id.
Qed.

(** Validation checks the common fields, then those of the type. *)
Lemma validate_parts rt d a spec :
  rt ∈ _RESOURCE_TYPES -> validate_typed_rule rt (PDict d) a = Ok spec ->
  exists d2 d3, changes ["operation"; "tool"] d d2
    /\ (forall k, k ∈ ["operation"; "tool"] -> has_key k d = true -> truthy (get k d2) = true)
    /\ validate_fields rt (is_relaxing_approval a) d2 = Ok d3
    /\ (NoDup (dict_keys d3) -> forall k, dict_get k spec = dict_get k d3).
Proof.
  intros Hrt Hv. unfold validate_typed_rule in Hv. rewrite (type_lower rt Hrt) in Hv.
  take Hv u1 E1. take Hv u2 E2. take Hv u3 E3. take Hv d1 U1. take Hv d2 U2. take Hv d3 U3. injection Hv as <-.
  apply present_text in U1 as [C1 T1]; [|apply as_string_Ok]. apply present_text in U2 as [C2 T2]; [|apply as_string_Ok].
  exists d2, d3. split_and!; [exact (changes_trans _ _ _ _ _ C1 C2) | | done | intros Hn k; by apply dict_get_sorted].
  intros k Hk Hd. rewrite !elem_of_cons, elem_of_nil in Hk. destruct_or? Hk; try done; subst k.
  - rewrite (changes_get _ _ _ "operation" C2) by not_listed. auto.
  - apply T2. by apply C1.
Qed.

(** *** Rules made from a resource *)
(** The fields of a request in which a remembered rule admits one value; for a network
    origin the port and the path are treated by [within_origin]. *)
Definition request_fields (rt : string) : list string :=
  if bool_decide (rt = FILESYSTEM) then ["operation"; "tool"; "source"; "destination"]
  else if bool_decide (rt = EXEC)
  then ["operation"; "tool"; "executable"; "argv"; "cwd"; "is_shell"; "shell"; "script_digest"; "semantic_status"; "semantic_digest"]
  else if bool_decide (rt = NETWORK) then ["scheme"; "host"]
  else if bool_decide (rt = PROCESS) then ["operation"; "tool"; "process_id"]
  else ["operation"; "tool"; "workspace_root"].
(** Their values, as the rule fixes them *)
Definition expected (rt : string) (spec : list (string * pyval)) (k : string) : pyval :=
  if bool_decide (rt = EXEC) then
    let shell := truthy (get_or "allow_shell" (PBool false) spec) in
    if bool_decide (k = "is_shell") then PBool shell
    else if bool_decide (k = "argv")
    then PList (if shell then [] else get "executable" spec :: default [] (as_list (get "argv_prefix" spec)))
    else if str_in k ["shell"; "script_digest"; "semantic_status"; "semantic_digest"] then if shell then get k spec else PNone
    else get k spec
  else get k spec.
Definition determined (rt : string) (spec o : list (string * pyval)) : Prop :=
  (forall k, k ∈ request_fields rt -> get k o = expected rt spec k)
  /\ (rt = FILESYSTEM -> str_of (get_or "path" (PStr "") o) = str_of (get_or "path" (PStr "") spec)).

Lemma require_path_abs raw p : _require_absolute_path raw = Ok p -> isabs p = true.
Proof. unfold _require_absolute_path. intros Hv. inv_res. by eapply realpath_abs. Qed.
Lemma get_agree (d d' : list (string * pyval)) : (forall k, dict_get k d = dict_get k d') -> forall k, get k d = get k d'.
Proof. intros Hd k. unfold get. by rewrite Hd. Qed.

Lemma has_key_keys (d : list (string * pyval)) k : has_key k d = bool_decide (k ∈ dict_keys d).
Proof.
  unfold has_key. destruct (dict_get k d) eqn:E.
  - rewrite bool_decide_eq_true_2; [done|]. destruct (decide (k ∈ dict_keys d)) as [|Hn]; [done|].
    apply dict_get_None in Hn. congruence.
  - rewrite bool_decide_eq_false_2; [done|]. by apply dict_get_None.
Qed.
Ltac each_field Hk := rewrite !elem_of_cons, elem_of_nil in Hk; destruct_or? Hk; try done; subst.

Lemma determined_path d0 spec o1 operation :
  dict_keys d0 = ["operation"; "tool"; "path"] ->
  validate_typed_rule FILESYSTEM (PDict d0) AUTO_APPROVE = Ok spec ->
  (exists t v, o1 = [("operation", PStr operation); ("tool", t); ("path", v)])
  \/ (exists t v w, o1 = [("operation", PStr operation); ("tool", t); ("source", v); ("destination", w)]) ->
  match_filesystem spec o1 operation = true -> determined FILESYSTEM spec o1.
Proof.
  intros Hd Hv Ho Hm.
  pose proof (has_key_keys d0) as Hkey. rewrite Hd in Hkey.
  apply validate_parts in Hv as (d2 & d3 & C2 & T & Hf & G); [|unfold _RESOURCE_TYPES; repeat constructor].
  change (validate_filesystem true d2 = Ok d3) in Hf. apply validate_filesystem_Ok in Hf as (C3 & K3 & P3 & _).
  assert (Hp2 : has_key "path" d2 = true) by (rewrite (changes_key _ _ _ _ C2) by not_listed; by rewrite Hkey).
  destruct (P3 Hp2) as (Hroot & Hsrc & Hrec & raw & p & Hpath & Habs). apply require_path_abs in Habs.
  assert (Hnd : NoDup (dict_keys d3)).
  { apply C3, C2. rewrite Hd. apply (bool_decide_unpack _). vm_compute. done. }
  specialize (G Hnd). pose proof (get_agree _ _ G) as Gg.
  assert (Hrec' : truthy (get_or "recursive" (PBool false) spec) = false).
  { unfold get_or. rewrite G. unfold get in Hrec. destruct (dict_get "recursive" d3) as [v|]; [|done]. cbn in Hrec |- *. subst v.
    cbn. unfold get_or. destruct C2 as (_ & C2 & _). rewrite C2 by not_listed. specialize (Hkey "recursive").
    unfold has_key in Hkey. destruct (dict_get "recursive" d0); [by vm_compute in Hkey | done]. }
  assert (Hop : forall k, k ∈ ["operation"; "tool"] -> truthy (get k spec) = true).
  { intros k Hk. rewrite Gg, (changes_get _ _ _ k C3) by (each_field Hk; not_listed). apply T; [done|]. each_field Hk; by rewrite Hkey. }
  destruct (match_path spec o1 operation Hm) as (M1 & M2 & M3); try (apply Hop; repeat constructor).
  { unfold has_key. rewrite G. exact Hsrc. }
  { unfold has_key. rewrite G. change (has_key "path" d3 = true). by rewrite K3. }
  { done. }
  rewrite Gg, Hpath in M3. injection M3 as M3.
  destruct Ho as [(t & v & ->)|(t & v & w & ->)]; [|exfalso; cbn in M3; subst p; done].
  assert (Hsp : str_of (get_or "path" (PStr "") spec) = p).
  { unfold get_or. rewrite G. unfold get in Hpath. destruct (dict_get "path" d3); [cbn in *; by subst|done]. }
  assert (Hno : forall k, k ∈ ["source"; "destination"] -> get k spec = PNone).
  { intros k Hk. rewrite Gg. unfold get. replace (dict_get k d3) with (@None pyval); [done|]. symmetry.
    assert (Hx : has_key k d3 = false).
    { rewrite K3 by (each_field Hk; done). rewrite (changes_key _ _ _ _ C2) by (each_field Hk; not_listed). each_field Hk; by rewrite Hkey. }
    unfold has_key in Hx. by destruct (dict_get k d3). }
  split; [|intros _; by rewrite Hsp, M3].
  intros k Hk. change (request_fields FILESYSTEM) with ["operation"; "tool"; "source"; "destination"] in Hk.
  change (expected FILESYSTEM spec k) with (get k spec). each_field Hk; [by rewrite M1 | by rewrite M2 | |];
    rewrite Hno by repeat constructor; done.
Qed.

(** The validated fields: operation and tool are texts, absent keys stay absent
    unless the type's validation adds them. *)
Lemma validated_spec rt d0 spec ks :
  rt ∈ _RESOURCE_TYPES -> dict_keys d0 = ks -> NoDup ks -> validate_typed_rule rt (PDict d0) AUTO_APPROVE = Ok spec ->
  exists d2 d3, changes ["operation"; "tool"] d0 d2 /\ validate_fields rt true d2 = Ok d3
    /\ (forall k, k ∉ ["operation"; "tool"] -> has_key k d2 = bool_decide (k ∈ ks))
    /\ NoDup (dict_keys d2)
    /\ (forall ks', changes ks' d2 d3 -> (forall k, dict_get k spec = dict_get k d3) /\ (forall k, get k spec = get k d3)
          /\ forall k, k ∈ ["operation"; "tool"] -> k ∈ ks -> k ∉ ks' -> truthy (get k spec) = true).
Proof.
  intros Hrt Hd Hn (d2 & d3 & C2 & T & Hf & G)%validate_parts; [|done].
  assert (Hn2 : NoDup (dict_keys d2)) by (apply C2; by rewrite Hd).
  exists d2, d3. split_and!; [done | done | | done|].
  - intros k Hk. rewrite (changes_key _ _ _ _ C2) by done. by rewrite has_key_keys, Hd.
  - intros ks' C3. assert (Hg : forall k, dict_get k spec = dict_get k d3) by (apply G, C3; done).
    split_and!; [done | by apply get_agree|]. intros k Hk Hks Hnk. rewrite (get_agree _ _ Hg), (changes_get _ _ _ k C3) by done.
    apply T; [done|]. rewrite has_key_keys, Hd. by apply bool_decide_eq_true.
Qed.
Ltac in_types := unfold _RESOURCE_TYPES; repeat constructor.
Ltac decide_it := apply (bool_decide_unpack _); vm_compute; done.

Lemma determined_copy d0 spec o1 operation :
  dict_keys d0 = ["operation"; "tool"; "source"; "destination"] ->
  validate_typed_rule FILESYSTEM (PDict d0) AUTO_APPROVE = Ok spec ->
  (exists t v, o1 = [("operation", PStr operation); ("tool", t); ("path", v)])
  \/ (exists t v w, o1 = [("operation", PStr operation); ("tool", t); ("source", v); ("destination", w)]) ->
  match_filesystem spec o1 operation = true -> determined FILESYSTEM spec o1.
Proof.
  intros Hd Hv Ho Hm.
  destruct (validated_spec FILESYSTEM d0 spec _ ltac:(in_types) Hd ltac:(decide_it) Hv) as (d2 & d3 & C2 & Hf & Hk2 & Hn2 & G).
  change (validate_filesystem true d2 = Ok d3) in Hf. apply validate_filesystem_Ok in Hf as (C3 & K3 & _ & S3).
  destruct (G _ C3) as (G1 & G2 & G3).
  destruct S3 as (src & Hsrc3); [rewrite Hk2 by not_listed; decide_it|].
  assert (Hsrc : has_key "source" spec = true).
  { unfold has_key. rewrite G1. change (has_key "source" d3 = true). rewrite K3, Hk2 by not_listed. decide_it. }
  assert (Hnp : dict_get "path" spec = None).
  { rewrite G1. assert (Hx : has_key "path" d3 = false) by (rewrite K3, Hk2 by not_listed; decide_it).
    unfold has_key in Hx. by destruct (dict_get "path" d3). }
  destruct (match_copy spec o1 operation Hm) as (M1 & M2 & M3 & M4); [apply G3; decide_it..|done|].
  destruct Ho as [(t & v & ->)|(t & v & w & ->)]; [by rewrite G2, Hsrc3 in M3|].
  split.
  - intros k Hk. change (request_fields FILESYSTEM) with ["operation"; "tool"; "source"; "destination"] in Hk.
    change (expected FILESYSTEM spec k) with (get k spec). each_field Hk; [by rewrite M1 | by rewrite M2 | by rewrite <- M3 | by rewrite <- M4].
  - intros _. unfold get_or. by rewrite Hnp.
Qed.

Definition exec_keys : list string :=
  ["executable"; "argv_prefix"; "cwd"; "workspace_root"; "cwd_scope"; "allow_shell"; "shell"; "script_digest";
   "semantic_digest"; "semantic_status"].
(** What a program rule with a directory fixes in a request it matches *)
Lemma match_exec_spec d0 spec ks o1 operation :
  dict_keys d0 = ks -> NoDup ks -> ["operation"; "tool"; "argv_prefix"; "allow_shell"; "cwd"] ⊆ ks -> ("cwd_scope" ∉ ks) ->
  validate_typed_rule EXEC (PDict d0) AUTO_APPROVE = Ok spec -> match_exec spec o1 operation = true ->
  (get "operation" spec = PStr operation /\ get "tool" spec = get "tool" o1
   /\ truthy (get "is_shell" o1) = truthy (get_or "allow_shell" (PBool false) spec)
   /\ get "executable" spec = get "executable" o1 /\ get "cwd" spec = get "cwd" o1)
  /\ get_or "allow_shell" (PBool false) spec = get "allow_shell" d0
  /\ get "argv_exact" spec = get "argv_exact" d0
  /\ (truthy (get "argv_exact" spec) = true ->
      default [] (as_list (get "argv_prefix" spec))
      = match default [] (as_list (get "argv" o1)) with
        | x :: r => if py_eq x (get "executable" o1) then r else x :: r | [] => [] end)
  /\ (forall k, k ∈ ["shell"; "script_digest"; "semantic_status"; "semantic_digest"] -> k ∈ ks -> get k spec = get k o1)
  /\ nonempty_text (get "executable" spec).
Proof.
  intros Hd Hn Hks Hns Hv Hm.
  destruct (validated_spec EXEC d0 spec ks ltac:(in_types) Hd Hn Hv) as (d2 & d3 & C2 & Hf & Hk2 & Hn2 & G).
  change (validate_exec true d2 = Ok d3) in Hf. apply validate_exec_Ok in Hf as (C3 & P3 & A3 & W3 & T3 & X3).
  destruct (G _ C3) as (G1 & G2 & G3).
  assert (Hin : forall k, k ∉ ["operation"; "tool"] -> k ∈ ks -> has_key k d2 = true).
  { intros k Hk Hkk. rewrite Hk2 by done. by apply bool_decide_eq_true. }
  assert (Hc : get "cwd_scope" spec = PStr "exact").
  { rewrite G2. apply W3; [apply Hin; [not_listed | apply Hks; repeat constructor]|]. rewrite Hk2 by not_listed.
    by apply bool_decide_eq_false. }
  destruct (match_exec_Ok spec o1 operation Hm) as (M1 & M2 & M3 & M4 & M5 & M6 & M7);
    [apply G3; [repeat constructor | apply Hks; repeat constructor | not_listed]..|done|].
  split_and!; try done.
  - assert (Ha : get "allow_shell" spec = get "allow_shell" d0).
    { rewrite G2, A3 by (apply Hin; [not_listed | apply Hks; repeat constructor]). apply (changes_get _ _ _ _ C2). not_listed. }
    unfold get_or. destruct (dict_get "allow_shell" spec) as [v|] eqn:E; [unfold get in Ha; rewrite E in Ha; exact Ha|].
    exfalso. rewrite G1 in E. assert (Hh : has_key "allow_shell" d3 = true)
      by (apply C3, Hin; [not_listed | apply Hks; repeat constructor]). unfold has_key in Hh. by rewrite E in Hh.
  - rewrite G2, (changes_get _ _ _ _ C3), (changes_get _ _ _ _ C2) by not_listed. done.
  - intros k Hk Hkk. apply M7; [done|]. rewrite G2. apply T3; [each_field Hk; repeat constructor|].
    apply Hin; [each_field Hk; not_listed | done].
  - by rewrite G2.
Qed.

(** The observation of a program call and of a shell call *)
Definition argv_observation (operation : string) (tool : pyval) (argv : list pyval) (cwd : pyval) (root : string)
    : list (string * pyval) :=
  [("operation", PStr operation); ("tool", tool); ("executable", default (PStr "") (head argv)); ("argv", PList argv);
   ("cwd", cwd); ("workspace_root", PStr root); ("is_shell", PBool false)].
Definition shell_observation (operation : string) (tool executable cwd : pyval) (root : string) (sh digest status sem : pyval)
    : list (string * pyval) :=
  [("operation", PStr operation); ("tool", tool); ("executable", executable); ("argv", PList []); ("cwd", cwd);
   ("workspace_root", PStr root); ("is_shell", PBool true); ("shell", sh); ("script_digest", digest);
   ("semantic_status", status); ("semantic_digest", sem)].
Definition exec_observation (operation : string) (o : list (string * pyval)) : Prop :=
  (exists t l c r, o = argv_observation operation t l c r)
  \/ (exists t e c r sh d st se, o = shell_observation operation t e c r sh d st se).

Lemma determined_exec o0 spec o1 operation0 operation :
  exec_observation operation0 o0 -> exec_observation operation o1 ->
  validate_typed_rule EXEC (PDict (exact_spec EXEC o0)) AUTO_APPROVE = Ok spec ->
  match_exec spec o1 operation = true -> determined EXEC spec o1.
Proof.
  intros Ho0 Ho1 Hv Hm. split; [|done]. intros k Hk.
  change (request_fields EXEC) with ["operation"; "tool"; "executable"; "argv"; "cwd"; "is_shell"; "shell"; "script_digest";
    "semantic_status"; "semantic_digest"] in Hk.
  destruct Ho0 as [(t & l & c & r & ->)|(t & e & c & r & sh & d & st & se & ->)].
  - destruct (match_exec_spec (exact_spec EXEC (argv_observation operation0 t l c r)) spec
      ["operation"; "tool"; "executable"; "argv_prefix"; "argv_exact"; "allow_shell"; "cwd"; "workspace_root"]
      o1 operation eq_refl ltac:(decide_it) ltac:(set_solver) ltac:(decide_it) Hv Hm) as ((M1 & M2 & M3 & M4 & M5) & A & X & V & _ & (e & E & He)).
    unfold expected. rewrite bool_decide_eq_true_2 by done. rewrite A in M3 |- *. cbn in M3.
    destruct Ho1 as [(t1 & l1 & c1 & r1 & ->)|(t1 & e1 & c1 & r1 & sh1 & d1 & st1 & se1 & ->)]; [|done].
    rewrite X in V. specialize (V eq_refl). rewrite E in M4.
    destruct l1 as [|x l1]; [change (PStr e = PStr "") in M4; congruence|]. change (PStr e = x) in M4. subst x.
    change (default [] (as_list (get "argv_prefix" spec)) = if py_eq (PStr e) (PStr e) then l1 else PStr e :: l1) in V.
    rewrite py_eq_refl in V.
    each_field Hk; try (by rewrite M1); try (by rewrite M2); try (by rewrite M5); cbn; rewrite ?E, ?V; done.
  - destruct (match_exec_spec (exact_spec EXEC (shell_observation operation0 t e c r sh d st se)) spec
      ["operation"; "tool"; "executable"; "argv_prefix"; "allow_shell"; "shell"; "script_digest";
        "semantic_status"; "semantic_digest"; "cwd"; "workspace_root"]
      o1 operation eq_refl ltac:(decide_it) ltac:(set_solver) ltac:(decide_it) Hv Hm) as ((M1 & M2 & M3 & M4 & M5) & A & X & V & T & _).
    unfold expected. rewrite bool_decide_eq_true_2 by done. rewrite A in M3 |- *. cbn in M3.
    destruct Ho1 as [(t1 & l1 & c1 & r1 & ->)|(t1 & e1 & c1 & r1 & sh1 & d1 & st1 & se1 & ->)]; [done|].
    assert (T' : forall k, k ∈ ["shell"; "script_digest"; "semantic_status"; "semantic_digest"] -> get k spec = get k _)
      by (intros j Hj; apply T; [exact Hj | each_field Hj; repeat constructor]).
    each_field Hk; try (by rewrite M1); try (by rewrite M2); try (by rewrite M4); try (by rewrite M5); try done;
      symmetry; apply T'; repeat constructor.
Qed.

Lemma determined_process d0 spec o1 :
  dict_keys d0 = ["operation"; "tool"; "process_id"] ->
  validate_typed_rule PROCESS (PDict d0) AUTO_APPROVE = Ok spec ->
  match_process spec o1 = true -> determined PROCESS spec o1.
Proof.
  intros Hd Hv Hm. split; [|done].
  destruct (validated_spec PROCESS d0 spec _ ltac:(in_types) Hd ltac:(decide_it) Hv) as (d2 & d3 & C2 & Hf & Hk2 & Hn2 & G).
  change (validate_process d2 = Ok d3) in Hf. unfold validate_process in Hf. take Hf pid E. take Hf u E'. injection Hf as <-.
  destruct (G _ (changes_set "process_id" (PStr pid) d2)) as (G1 & G2 & G3).
  unfold match_process in Hm. apply andb_true_iff in Hm as [Hm Hop%negb_true_iff]. cbn [forallb] in Hm.
  rewrite !andb_true_iff, !orb_true_iff, !negb_true_iff, !py_eq_true in Hm. destruct Hm as (Hp & Ht & _).
  assert (Hh : forall k, k ∈ ["process_id"; "tool"] -> has_key k spec = true).
  { intros k Hk. unfold has_key. rewrite G1. change (has_key k (dict_set "process_id" (PStr pid) d2) = true).
    rewrite has_key_set. each_field Hk; [done|]. rewrite (proj2 (proj2 C2)); [done|]. rewrite has_key_keys, Hd. decide_it. }
  rewrite !Hh in Hp, Ht by repeat constructor. destruct Hp as [|Hp]; [done|]. destruct Ht as [|Ht]; [done|].
  apply differs_false in Hop; [|apply G3; decide_it].
  intros k Hk. change (request_fields PROCESS) with ["operation"; "tool"; "process_id"] in Hk.
  change (expected PROCESS spec k) with (get k spec). each_field Hk; done.
Qed.
Lemma determined_workspace d0 spec o1 :
  dict_keys d0 = ["operation"; "tool"; "workspace_root"] ->
  validate_typed_rule WORKSPACE (PDict d0) AUTO_APPROVE = Ok spec ->
  match_workspace spec o1 = true -> determined WORKSPACE spec o1.
Proof.
  intros Hd Hv Hm. split; [|done].
  destruct (validated_spec WORKSPACE d0 spec _ ltac:(in_types) Hd ltac:(decide_it) Hv) as (d2 & d3 & C2 & Hf & Hk2 & Hn2 & G).
  change (validate_workspace true d2 = Ok d3) in Hf. unfold validate_workspace in Hf.
  take Hf raw E. take Hf root E'. take Hf u E2. injection Hf as <-.
  destruct (G _ (changes_set "workspace_root" (PStr root) d2)) as (G1 & G2 & G3).
  unfold match_workspace in Hm. rewrite !andb_true_iff, !negb_true_iff, py_eq_true in Hm. destruct Hm as ((Hr & Ho) & Ht).
  apply differs_false in Ho; [|apply G3; decide_it]. apply differs_false in Ht; [|apply G3; decide_it].
  intros k Hk. change (request_fields WORKSPACE) with ["operation"; "tool"; "workspace_root"] in Hk.
  change (expected WORKSPACE spec k) with (get k spec). each_field Hk; done.
Qed.
(** What validation leaves of a network rule *)
Lemma network_spec o0 spec :
  validate_typed_rule NETWORK (PDict (exact_spec NETWORK o0)) AUTO_APPROVE = Ok spec ->
  (forall k, k ∈ ["scheme"; "host"] -> has_key k spec = true)
  /\ dict_get "port" spec = dict_get "port" (exact_spec NETWORK o0).
Proof.
  intros Hv. assert (Hrt : NETWORK ∈ _RESOURCE_TYPES) by in_types.
  destruct (validate_parts NETWORK _ _ _ Hrt Hv) as (d2 & d3 & C2 & _ & Hf & G).
  assert (Hnd : NoDup (dict_keys (exact_spec NETWORK o0))).
  { unfold exact_spec. destruct (get "port" o0); decide_it. }
  change (validate_network d2 = Ok d3) in Hf. unfold validate_network in Hf.
  take Hf scheme E1. take Hf u1 E2. take Hf host0 E3. take Hf host E4. take Hf u2 E5. take Hf u3 E6.
  set (d2' := dict_set "host" _ _) in Hf.
  assert (C3 : changes ["scheme"; "host"] d2 d2') by exact (changes_trans _ _ _ _ _ (changes_set _ _ _) (changes_set _ _ _)).
  destruct (get_or "path_prefix" (PStr "/") d2') as [| | | |prefix| |]; try done. take Hf u4 E7. injection Hf as <-.
  pose proof (changes_trans _ _ _ _ _ C3 (changes_set "path_prefix" (PStr (if has_prefix "/" (pure_posix_path prefix)
    then pure_posix_path prefix else "/" +:+ pure_posix_path prefix)) d2')) as C4.
  assert (G' := G (proj1 C4 (proj1 C2 Hnd))). split.
  - intros k Hk. unfold has_key. rewrite G'. rewrite dict_get_set, bool_decide_eq_false_2 by (each_field Hk; done). subst d2'.
    rewrite !dict_get_set. each_field Hk; done.
  - rewrite G'. destruct C4 as (_ & C4 & _). destruct C2 as (_ & C2 & _).
    rewrite C4 by (cbn [app]; not_listed). by rewrite C2 by not_listed.
Qed.
Lemma determined_network o0 spec o1 :
  validate_typed_rule NETWORK (PDict (exact_spec NETWORK o0)) AUTO_APPROVE = Ok spec ->
  match_network spec o1 = true -> determined NETWORK spec o1.
Proof.
  intros [Hh _]%network_spec Hm. split; [|done].
  unfold match_network in Hm. destruct (existsb _ _) eqn:Ex; [done|]. cbn [existsb] in Ex.
  rewrite !orb_false_iff, !Hh in Ex by repeat constructor. cbn [andb] in Ex. destruct Ex as (X1 & X2 & _).
  apply negb_false_iff, py_eq_true in X1. apply negb_false_iff, py_eq_true in X2.
  intros k Hk. change (request_fields NETWORK) with ["scheme"; "host"] in Hk.
  change (expected NETWORK spec k) with (get k spec). each_field Hk; done.
Qed.

(** The part of a network origin a rule fixes besides the scheme and host: the port,
    when the request it was made from had one, and the prefix of the path. *)
Definition within_origin (o0 spec o : list (string * pyval)) : Prop :=
  (get "port" o0 <> PNone -> get "port" o = get "port" o0)
  /\ let prefix := str_of (get_or "path_prefix" (PStr "/") spec) in
     let path := str_of (get_or "path" (PStr "/") o) in
     prefix = "/" \/ path = prefix \/ has_prefix (rstrip_of "/" prefix +:+ "/") path = true.
Lemma exact_port o0 : get "port" o0 <> PNone -> dict_get "port" (exact_spec NETWORK o0) = Some (get "port" o0).
Proof. intros Hp. unfold exact_spec. cbn. by destruct (get "port" o0). Qed.
Lemma network_within o0 spec o1 :
  validate_typed_rule NETWORK (PDict (exact_spec NETWORK o0)) AUTO_APPROVE = Ok spec ->
  match_network spec o1 = true -> within_origin o0 spec o1.
Proof.
  intros [_ Hport]%network_spec Hm. unfold match_network in Hm. destruct (existsb _ _) eqn:Ex; [done|]. split.
  - intros Hp. rewrite (exact_port _ Hp) in Hport. cbn [existsb] in Ex. rewrite !orb_false_iff in Ex.
    destruct Ex as (_ & _ & X & _). unfold has_key in X. rewrite Hport in X. cbn [andb] in X.
    apply negb_false_iff, py_eq_true in X. rewrite <- X. unfold get at 1. by rewrite Hport.
  - cbv zeta in Hm |- *. rewrite !orb_true_iff, !bool_decide_eq_true in Hm. tauto.
Qed.

(** The observations of a resource by its kind *)
Lemma observation_shape r operation rt o :
  _typed_observation_from_resource r operation = Ok (rt, o) ->
  rt ∈ [FILESYSTEM; EXEC; NETWORK; PROCESS; WORKSPACE]
  /\ (rt = FILESYSTEM ->
        (exists t v, o = [("operation", PStr operation); ("tool", t); ("path", v)])
        \/ (exists t v w, o = [("operation", PStr operation); ("tool", t); ("source", v); ("destination", w)]))
  /\ (rt = EXEC -> exec_observation operation o)
  /\ (rt = PROCESS -> dict_keys o = ["operation"; "tool"; "process_id"])
  /\ (rt = WORKSPACE -> dict_keys o = ["operation"; "tool"; "workspace_root"]).
Proof.
  unfold _typed_observation_from_resource. destruct (ar_kind r); intros Ho.
  6: { take Ho ob E. destruct ob; [|done]. injection Ho as <- <-. split_and!; try done. repeat constructor. }
  all: take Ho d E; injection Ho as <- <-; split_and!; try done; try by repeat constructor.
  - intros _. left. eauto.
  - intros _. right. eauto.
  - intros _. left. unfold argv_observation. eauto.
  - intros _. right. unfold shell_observation. eauto 9.
Qed.

Lemma rule_determines r operation0 rt spec r1 o1 tool_name target operation :
  typed_rule_from_authorization_resource r operation0 = Ok (rt, spec) ->
  _typed_observation_from_resource r1 operation = Ok (rt, o1) ->
  match_observed rt spec rt o1 tool_name target operation = true ->
  determined rt spec o1
  /\ exists o0, _typed_observation_from_resource r operation0 = Ok (rt, o0) /\ (rt = NETWORK -> within_origin o0 spec o1).
Proof.
  unfold typed_rule_from_authorization_resource. intros Hr Ho Hm. apply res_bind_Ok in Hr as ([rt0 o0] & Hobs & Hr).
  take Hr spec0 Hv. injection Hr as -> ->. split.
  2: { exists o0. split; [exact Hobs|]. intros ->. change (match_network spec o1 = true) in Hm. by eapply network_within. }
  apply observation_shape in Hobs as (Hrt & F0 & E0 & P0 & W0).
  apply observation_shape in Ho as (_ & F1 & E1 & _ & _).
  rewrite !elem_of_cons, elem_of_nil in Hrt. destruct_or? Hrt; try done; subst rt.
  - change (match_filesystem spec o1 operation = true) in Hm. destruct (F0 eq_refl) as [(t & v & ->)|(t & v & w & ->)].
    + by apply (determined_path _ spec o1 operation (eq_refl : dict_keys (exact_spec FILESYSTEM
        [("operation", PStr operation0); ("tool", t); ("path", v)]) = _)); [|apply F1|].
    + by apply (determined_copy _ spec o1 operation (eq_refl : dict_keys (exact_spec FILESYSTEM
        [("operation", PStr operation0); ("tool", t); ("source", v); ("destination", w)]) = _)); [|apply F1|].
  - change (match_exec spec o1 operation = true) in Hm. eapply determined_exec; [by apply E0 | by apply E1 | exact Hv | exact Hm].
  - change (match_network spec o1 = true) in Hm. by eapply determined_network.
  - change (match_process spec o1 = true) in Hm. change (exact_spec PROCESS o0) with o0 in Hv.
    by apply (determined_process o0); [apply P0 | |].
  - change (match_workspace spec o1 = true) in Hm. change (exact_spec WORKSPACE o0) with o0 in Hv.
    by apply (determined_workspace o0); [apply W0 | |].
Qed.

(** C14. A rule remembered from an approved request covers only requests for the same
    thing: any two resources it matches agree on the operation, the tool and the
    path, or the source and destination; on the program, all its arguments, the
    directory and, for a shell script, the shell, the digest of its text and the
    digest and status of its analysis; on the process; on the workspace.  Of network
    origins it covers those of one scheme and host whose path is the rule's prefix or
    below it, and of one port when the approved request had a port; a rule made from
    a request without a port does not look at the port
    ([remembered_origin_ignores_port]), and the paths may differ below the prefix. *)
Theorem remembered_rule_is_exact r operation rt spec r1 t1 p1 g1 op1 r2 t2 p2 g2 op2 :
  typed_rule_from_authorization_resource r operation = Ok (rt, spec) ->
  match_typed_rule rt spec (Some r1) t1 p1 g1 op1 = Ok true ->
  match_typed_rule rt spec (Some r2) t2 p2 g2 op2 = Ok true ->
  exists o1 o2, _typed_observation_from_resource r1 op1 = Ok (rt, o1) /\ _typed_observation_from_resource r2 op2 = Ok (rt, o2)
    /\ (forall k, k ∈ request_fields rt -> get k o1 = get k o2)
    /\ (rt = FILESYSTEM -> str_of (get_or "path" (PStr "") o1) = str_of (get_or "path" (PStr "") o2))
    /\ exists o0, _typed_observation_from_resource r operation = Ok (rt, o0)
         /\ (rt = NETWORK -> within_origin o0 spec o1 /\ within_origin o0 spec o2).
Proof.
  intros Hr M1 M2. unfold match_typed_rule in M1, M2.
  apply res_bind_Ok in M1 as ([rt1 o1] & O1 & [= M1]). apply res_bind_Ok in M2 as ([rt2 o2] & O2 & [= M2]).
  assert (rt1 = rt) as -> by (unfold match_observed in M1; destruct (bool_decide_reflect (rt1 = rt)); [done | discriminate M1]).
  assert (rt2 = rt) as -> by (unfold match_observed in M2; destruct (bool_decide_reflect (rt2 = rt)); [done | discriminate M2]).
  destruct (rule_determines _ _ _ _ _ _ _ _ _ Hr O1 M1) as ([F1 P1] & o0 & O0 & N1).
  destruct (rule_determines _ _ _ _ _ _ _ _ _ Hr O2 M2) as ([F2 P2] & o0' & O0' & N2).
  assert (o0' = o0) as -> by congruence.
  exists o1, o2. split_and!; try done.
  - intros k Hk. by rewrite F1, F2.
  - intros E. by rewrite P1, P2.
  - exists o0. auto.
Qed.

(** A recursive filesystem rule covers exactly the subtree of its root: of two
    absolute paths in resolved form the second is inside the first when the first's
    components are an initial part of the second's; a sibling whose name merely
    begins like the root is outside. *)
Theorem subtree_rule_exact spec o operation root path :
  plain_path root -> get_or "root" (get_or "path" (PStr "") spec) spec = PStr root ->
  has_key "source" spec = false -> has_key "path" spec && negb (truthy (get_or "recursive" (PBool false) spec)) = false ->
  get_or "path" (PStr "") o = PStr path ->
  match_filesystem spec o operation = true <->
  differs "operation" spec (PStr operation) = false /\ differs "tool" spec (get "tool" o) = false
  /\ isabs path = true /\ path_parts root `prefix_of` path_parts path.
Proof.
  intros Hroot Hr Hs Hrec Hp. unfold match_filesystem. rewrite Hs, Hrec, Hr, Hp. cbn [str_of py_str].
  assert (Ht : truthy (PStr root) = true) by (rewrite Hroot; done). rewrite Ht. cbn [andb].
  unfold _path_contains. pose proof (commonpath_spec root path Hroot) as Hc.
  destruct (differs "operation" spec _); [split; [done | by intros [? _]]|].
  destruct (differs "tool" spec _); [split; [done | by intros (_ & ? & _)]|].
  destruct (commonpath root path) as [c|e].
  - rewrite bool_decide_eq_true. split; [intros ->; split_and!; [done | done | by apply Hc | by apply Hc]|].
    intros (_ & _ & Hx). destruct Hc as [_ Hc]. specialize (Hc Hx). congruence.
  - split; [done|]. intros (_ & _ & Hx). by apply Hc in Hx.
Qed.
End Rules.

(** ** A concrete platform *)
Module Example.
Definition lower_ascii (a : ascii) : ascii := if between 65 90 (byte a) then chr (byte a + 32) else a.
Fixpoint map_string (f : ascii -> ascii) (s : string) : string :=
  match s with EmptyString => EmptyString | String a r => String (f a) (map_string f r) end.
(** No symbolic links; three URLs *)
#[export] Instance example_platform : Platform := {
  realpath p := Ok (if isabs p then normpath p else "/work/" +:+ p);
  str_lower := map_string lower_ascii;
  idna s := Ok s;
  int_base16 := string_forallb is_hex_lower;
  urlsplit s :=
    if bool_decide (s = "https://example.org/") then Ok (MkSplit "https" "example.org" "/" (Some "example.org") (Ok None))
    else if bool_decide (s = "https://example.org:8443/admin")
    then Ok (MkSplit "https" "example.org:8443" "/admin" (Some "example.org") (Ok (Some 8443)))
    else if bool_decide (s = "https://example.org:8443/admin/users")
    then Ok (MkSplit "https" "example.org:8443" "/admin/users" (Some "example.org") (Ok (Some 8443)))
    else Ok (MkSplit "" "" s None (Ok None));
  py_repr _ := "object"
}.
Lemma normpath_abs p : isabs p = true -> isabs (normpath p) = true.
Proof.
  intros Hp. unfold normpath. destruct p as [|a p]; [done|]. cbn [str_empty].
  assert (Hs : initial_slashes (String a p) = "/" \/ initial_slashes (String a p) = "//").
  { unfold initial_slashes. rewrite Hp. destruct (_ && _); auto. }
  destruct Hs as [-> | ->]; done.
Qed.
#[export] Instance example_laws : PlatformLaws.
Proof.
  split.
  - intros [|a s]; done.
  - cbn. induction s as [|a s IH]; [done|]. cbn. rewrite !andb_true_iff, negb_true_iff. intros [[_ Ha] Hs].
    unfold lower_ascii at 1. by rewrite Ha, IH.
  - intros p q. cbn. destruct (isabs p) eqn:E; intros [= <-]; [by apply normpath_abs | done].
Qed.
Definition resource (kind : AuthorizationResourceKind) (target : string) : AuthorizationResource :=
  MkResource kind "alice" "p" "t" "w" 1 target None None "/w".
Definition argv_target (args : list string) : string :=
  dumpsc (PDict [("argv", str_list args); ("cwd", PStr "/w"); ("tool", PStr "terminal_argv")]).
End Example.
Import Example.

Lemma remembered_rule_is_exact_witness :
  let r := resource PROCESS_ARGV (argv_target ["rm"; "build/x"]) in
  exists spec o1 o2, typed_rule_from_authorization_resource r "execute" = Ok (EXEC, spec)
    /\ _typed_observation_from_resource r "execute" = Ok (EXEC, o1)
    /\ _typed_observation_from_resource r "execute" = Ok (EXEC, o2)
    /\ (forall k, k ∈ request_fields EXEC -> get k o1 = get k o2)
    /\ exists nspec n0 n1, let n := resource NETWORK_ORIGIN "https://example.org:8443/admin" in
         let m := resource NETWORK_ORIGIN "https://example.org:8443/admin/users" in
         typed_rule_from_authorization_resource n "network" = Ok (NETWORK, nspec)
         /\ _typed_observation_from_resource n "network" = Ok (NETWORK, n0) /\ get "port" n0 = PInt 8443
         /\ _typed_observation_from_resource m "network" = Ok (NETWORK, n1) /\ within_origin n0 nspec n1.
Proof.
  intros r. eexists.
  destruct (remembered_rule_is_exact r "execute" EXEC
    (match typed_rule_from_authorization_resource r "execute" with Ok (_, s) => s | Raise _ => [] end)
    r "terminal_argv" [] "" "execute" r "terminal_argv" [] "" "execute") as (o1 & o2 & H1 & H2 & H3 & _);
    [vm_compute; reflexivity..|].
  exists o1, o2. split_and!; [vm_compute; reflexivity | exact H1 | exact H2 | exact H3|].
  pose (n := resource NETWORK_ORIGIN "https://example.org:8443/admin"). pose (m := resource NETWORK_ORIGIN "https://example.org:8443/admin/users").
  destruct (remembered_rule_is_exact n "network" NETWORK
    (match typed_rule_from_authorization_resource n "network" with Ok (_, s) => s | Raise _ => [] end)
    n "http_request" [] "" "network" m "http_request" [] "" "network") as (n0 & n1 & N0 & N1 & _ & _ & o0 & N2 & HN);
    [vm_compute; reflexivity..|].
  rewrite N0 in N2. injection N2 as <-. eexists _, n0, n1. cbv zeta.
  split; [vm_compute; reflexivity|]. split; [exact N0|]. split; [vm_compute in N0; injection N0 as <-; reflexivity|].
  split; [exact N1|exact (proj2 (HN eq_refl))].
Defined.

Lemma subtree_rule_exact_witness :
  let spec := [("path", PStr "/srv/a"); ("recursive", PBool true)] in
  match_filesystem spec [("path", PStr "/srv/a/b.txt")] "read" = true
  /\ match_filesystem spec [("path", PStr "/srv/ab")] "read" = false
  /\ (isabs "/srv/a/b.txt" = true /\ path_parts "/srv/a" `prefix_of` path_parts "/srv/a/b.txt").
Proof.
  intros spec. split; [vm_compute; reflexivity|]. split; [vm_compute; reflexivity|].
  refine (proj2 (proj2 (proj1 (subtree_rule_exact spec [("path", PStr "/srv/a/b.txt")] "read" "/srv/a" "/srv/a/b.txt"
    eq_refl eq_refl eq_refl eq_refl eq_refl) _))).
  vm_compute. reflexivity.
Defined.

(** ** Where rules are wider than documented *)
(** A relaxing rule may not have the root directory as its subtree, but a path that
    is marked recursive is not checked. *)
Theorem relaxing_root_not_refused :
  (exists e, validate_typed_rule FILESYSTEM (PDict [("root", PStr "/")]) AUTO_APPROVE = Raise e)
  /\ (exists spec, validate_typed_rule FILESYSTEM (PDict [("path", PStr "/"); ("recursive", PBool true)]) AUTO_APPROVE = Ok spec
        /\ match_typed_rule FILESYSTEM spec None "write_file" [] "/etc/passwd" "write" = Ok true).
Proof. split; eexists; [|split]; vm_compute; reflexivity. Qed.
(** A rule made from a URL without a port has no port, and then the port of a
    request is not compared. *)
Theorem remembered_origin_ignores_port :
  exists spec, typed_rule_from_authorization_resource (resource NETWORK_ORIGIN "https://example.org/") "network" = Ok (NETWORK, spec)
    /\ match_typed_rule NETWORK spec (Some (resource NETWORK_ORIGIN "https://example.org:8443/admin")) "http_request" [] "" "network"
       = Ok true.
Proof. eexists; split; vm_compute; reflexivity. Qed.
