(* ===== verification/PermissionEvaluator.v ===== *)
(** * Permission decisions ([permissions/models.py], [permissions/evaluator.py])

    The decision on one tool call against a snapshot of rules: commands that the
    policy always asks for, then the first rule in scope that matches, then the
    shortcut for read-only terminal commands of an interactive user, then the
    default mode. *)
From Stdlib Require Import Ascii.
From S2P Require Import Prelude PyStr Json PyValue Sha256 ShellSemantics ShellLexing PyText PermissionRules.
Open Scope Z_scope.

(** ** Data *)
Definition DEFAULT_EXEC_TOOLS : list string :=
  ["terminal"; "terminal_argv"; "terminal_shell"; "process"; "sandbox_exec"; "sandbox_build"].
Definition INTERACTIVE : string := "interactive".
Definition UNATTENDED : string := "unattended".
Definition ALL : string := "all".
Definition TRANSPORT_CLASSES : list string := [INTERACTIVE; UNATTENDED; ALL].
Definition ONCE : string := "once".
Definition TURN : string := "turn".
Definition SESSION : string := "session".
Definition TASK : string := "task".
Definition PROJECT_INTERACTIVE : string := "project_interactive".
Definition PROJECT_ALL_TRANSPORTS : string := "project_all_transports".
Definition GRANT_LIFETIMES : list string := [ONCE; TURN; SESSION; TASK; PROJECT_INTERACTIVE; PROJECT_ALL_TRANSPORTS].

(** Times are integer multiples of [2^-1074] seconds. *)
Record PermissionRule := MkRule {
  ru_id : option Z; ru_pattern : string; ru_permission_level : string; ru_approval : ApprovalMode; ru_mode : string;
  ru_granted_at : Z; ru_policy_digest : string; ru_generation : Z; ru_transport_class : string; ru_grant_lifetime : string;
  ru_session_id : string; ru_task_id : string; ru_workspace_id : string; ru_expires_at : option Z; ru_created_by : string;
  ru_resource_type : string; ru_resource_spec : option (list (string * pyval))
}.
Record PermissionDecision := MkDecision {
  pd_approved : ApprovalMode; pd_reason : string; pd_target : string; pd_matched_rule : option PermissionRule;
  pd_requires_user_confirm : bool
}.
(** The call to decide on *)
Record ToolCall := MkCall {
  tc_tool_name : string; tc_params : list (string * pyval); tc_permission_level : string; tc_mode : string;
  tc_resource : option AuthorizationResource; tc_source_transport : option string; tc_session_id : option string;
  tc_task_id : option string; tc_workspace_id : option string
}.
(** The configuration of an evaluator *)
Record EvaluatorConfig := MkEvalConfig {
  ec_default_mode : ApprovalMode; ec_commands_require_approval : list string; ec_exec_tool_names : list string
}.
(** [PermissionEvaluator.__init__]: an absent or empty set of executing tools is the default one *)
Definition mk_evaluator (default_mode : ApprovalMode) (commands_require_approval : list string)
    (exec_tool_names : option (list string)) : EvaluatorConfig :=
  MkEvalConfig default_mode commands_require_approval
    (match exec_tool_names with Some (n :: l) => n :: l | _ => DEFAULT_EXEC_TOOLS end).
Definition opt_text (o : option string) : string := default EmptyString o.

(** ** Commands *)
Definition _append_segment (segments : list string) (current : list string) : list string :=
  let segment := py_strip (text_of current) in
  if str_empty segment then segments else segments ++ [segment].
Fixpoint segment_loop (in_single in_double : bool) (current : list string) (segments : list string) (l : list string)
    : list string :=
  match l with
  | [] => _append_segment segments current
  | c :: r =>
      let in_single' := if bool_decide (c = SQUOTE) && negb in_double then negb in_single else in_single in
      let in_double' := if bool_decide (c = SQUOTE) && negb in_double then in_double
                        else if bool_decide (c = DQUOTE) && negb in_single then negb in_double else in_double in
      if negb in_single' && negb in_double' then
        match r with
        | n :: r' =>
            if (bool_decide (c = "&") && bool_decide (n = "&")) || (bool_decide (c = "|") && bool_decide (n = "|"))
            then segment_loop in_single' in_double' [] (_append_segment segments current) r'
            else if str_in c ["|"; ";"; "&"] then segment_loop in_single' in_double' [] (_append_segment segments current) r
            else segment_loop in_single' in_double' (current ++ [c]) segments r
        | [] =>
            if str_in c ["|"; ";"; "&"] then segment_loop in_single' in_double' [] (_append_segment segments current) r
            else segment_loop in_single' in_double' (current ++ [c]) segments r
        end
      else segment_loop in_single' in_double' (current ++ [c]) segments r
  end.
Definition split_command_segments (command : string) : list string := segment_loop false false [] [] (chars command).
Definition normalize_command_target (command : string) : string :=
  match split_command_segments command with
  | [] => EmptyString
  | first :: _ => match shlex_split first with Ok parts => join " " parts | Raise _ => py_strip first end
  end.
Definition covers (normalized entry0 : string) : bool :=
  let entry := py_strip entry0 in
  negb (str_empty entry)
  && (bool_decide (normalized = entry) || has_prefix (entry +:+ " ") normalized || fnmatch normalized entry).
Definition _matches_required_approval (command_text : string) (approval_list : list string) : bool :=
  if str_empty command_text || match approval_list with [] => true | _ => false end then false
  else existsb (fun raw => let normalized := normalize_command_target raw in
                           negb (str_empty normalized) && existsb (covers normalized) approval_list)
         (split_command_segments command_text).

Section Evaluator.
Context `{Platform}.

Definition _command_text (params : list (string * pyval)) : string :=
  match get "argv" params with
  | PList l =>
      if forallb is_str l then text_of (shlex_join ((fun v => match v with PStr s => chars s | _ => [] end) <$> l))
      else str_of (or_else (get "script" params) (or_else (get "command" params) (or_else (get "id" params) (PStr ""))))
  | _ => str_of (or_else (get "script" params) (or_else (get "command" params) (or_else (get "id" params) (PStr ""))))
  end.
(** [is_read_only_argv] on decoded values: [shlex.quote] raises on a value that is
    neither a text nor empty *)
Definition argv_texts (l : list pyval) : list string := omap (fun v => match v with PStr s => Some s | _ => None end) l.
Definition _is_read_only_terminal_call (tool_name : string) (params : list (string * pyval)) : res bool :=
  if bool_decide (tool_name = "terminal_argv") then
    match get "argv" params with
    | PList l =>
        raise_if (existsb (fun v => negb (is_str v) && truthy v) l) TypeError "expected string or bytes-like object" ;;*
        Ok (is_read_only_argv (argv_texts l))
    | _ => Ok false
    end
  else is_read_only_command DANGEROUS_PATTERNS (_command_text params).

Definition _is_interactive_transport (source_transport : option string) : bool :=
  str_in (str_lower (py_strip (opt_text source_transport))) ["cli"; "tui"].
Definition _transport_class (source_transport : option string) : string :=
  if _is_interactive_transport source_transport then INTERACTIVE else UNATTENDED.

(** ** Rules *)
Definition _rule_scope_matches (now : Z) (rule : PermissionRule) (transport_class : string)
    (session_id task_id workspace_id : option string) : bool :=
  if match ru_expires_at rule with Some t => t <=? now | None => false end then false
  else if negb (str_in (ru_transport_class rule) [ALL; transport_class]) then false
  else if negb (str_empty (ru_workspace_id rule)) && negb (bool_decide (ru_workspace_id rule = opt_text workspace_id)) then false
  else if bool_decide (ru_grant_lifetime rule = PROJECT_INTERACTIVE) then bool_decide (transport_class = INTERACTIVE)
  else if bool_decide (ru_grant_lifetime rule = PROJECT_ALL_TRANSPORTS) then true
  else if bool_decide (ru_grant_lifetime rule = SESSION)
  then negb (str_empty (opt_text session_id)) && bool_decide (ru_session_id rule = opt_text session_id)
  else if bool_decide (ru_grant_lifetime rule = TASK)
  then negb (str_empty (opt_text task_id)) && bool_decide (ru_task_id rule = opt_text task_id)
  else false.

Definition _matches_rule (rule : PermissionRule) (call : ToolCall) (target : string) : res bool :=
  if negb (str_empty (ru_resource_type rule)) then
    try_except
      (match_typed_rule (ru_resource_type rule) (default [] (ru_resource_spec rule)) (tc_resource call) (tc_tool_name call)
         (tc_params call) target (tc_permission_level call))
      [TypeError; ValueError; KeyError] (fun _ => Ok false)
  else if negb (is_relaxing_approval (ru_approval rule)) then Ok (fnmatch target (ru_pattern rule))
  else Ok false.

(** The checks a rule has to pass before it is compared with the call *)
Definition in_scope (now : Z) (call : ToolCall) (rule : PermissionRule) : bool :=
  (bool_decide (ru_mode rule = ALL) || bool_decide (ru_mode rule = tc_mode call))
  && bool_decide (ru_permission_level rule = tc_permission_level call)
  && _rule_scope_matches now rule (_transport_class (tc_source_transport call)) (tc_session_id call) (tc_task_id call)
       (tc_workspace_id call).
Fixpoint first_match (now : Z) (call : ToolCall) (target : string) (rules : list PermissionRule) : res (option PermissionRule) :=
  match rules with
  | [] => Ok None
  | rule :: rest =>
      if negb (in_scope now call rule) then first_match now call target rest
      else let* matched := _matches_rule rule call target in
           if matched then Ok (Some rule) else first_match now call target rest
  end.

Definition match_label (rule : PermissionRule) : string :=
  if str_empty (ru_resource_type rule) then ru_pattern rule else ru_resource_type rule +:+ " resource".
Definition policy_asks (config : EvaluatorConfig) (call : ToolCall) : bool :=
  match ec_commands_require_approval config with [] => false | _ => true end
  && str_in (tc_tool_name call) (ec_exec_tool_names config)
  && _matches_required_approval (_command_text (tc_params call)) (ec_commands_require_approval config).
Definition default_decision (mode : ApprovalMode) (target : string) : PermissionDecision :=
  match mode with
  | AUTO_APPROVE => MkDecision AUTO_APPROVE "No matching rule, default: auto-approve" target None false
  | DENY => MkDecision DENY "No matching rule, default: deny" target None false
  | _ => MkDecision mode ("No matching rule, default: " +:+ approval_value mode) target None true
  end.
Definition read_only_terminal (call : ToolCall) : res bool :=
  if str_in (tc_tool_name call) ["terminal"; "terminal_argv"; "terminal_shell"] then
    let* read_only := _is_read_only_terminal_call (tc_tool_name call) (tc_params call) in
    Ok (read_only && _is_interactive_transport (tc_source_transport call))
  else Ok false.

Definition evaluate_call (now : Z) (config : EvaluatorConfig) (rules : list PermissionRule) (call : ToolCall) (target : string)
    : res PermissionDecision :=
  if policy_asks config call
  then Ok (MkDecision ASK_EVERY ("Policy requires approval for command: " +:+ target) target None true)
  else
    let* shortcut := read_only_terminal call in
    let* found := first_match now call target rules in
    match found with
    | Some rule =>
        Ok (MkDecision (ru_approval rule) ("Matched rule: " +:+ match_label rule) target (Some rule)
              (bool_decide (ru_approval rule = ASK_EVERY)))
    | None =>
        if shortcut
        then Ok (MkDecision AUTO_APPROVE "Read-only terminal command (no deny rule matched)" target None false)
        else Ok (default_decision (ec_default_mode config) target)
    end.

(** ** The first rule that applies *)
Definition applies (now : Z) (call : ToolCall) (target : string) (rule : PermissionRule) : Prop :=
  in_scope now call rule = true /\ _matches_rule rule call target = Ok true.
Definition passes (now : Z) (call : ToolCall) (target : string) (rule : PermissionRule) : Prop :=
  in_scope now call rule = false \/ _matches_rule rule call target = Ok false.

Lemma first_match_some now call target rules rule :
  first_match now call target rules = Ok (Some rule) ->
  exists before after, rules = before ++ rule :: after /\ Forall (passes now call target) before
    /\ applies now call target rule.
Proof.
  induction rules as [|r rules IH]; [done|]. cbn [first_match].
  destruct (in_scope now call r) eqn:Es; cbn [negb].
  - destruct (_matches_rule r call target) as [[]|e] eqn:Em; cbn; intros H0; [| |done].
    + injection H0 as <-. by exists [], rules.
    + destruct (IH H0) as (b & a & -> & Hb & Ha). exists (r :: b), a. split_and!; try done. constructor; [by right | done].
  - intros H0. destruct (IH H0) as (b & a & -> & Hb & Ha). exists (r :: b), a. split_and!; try done.
    constructor; [by left | done].
Qed.
Lemma first_match_none now call target rules :
  first_match now call target rules = Ok None -> Forall (passes now call target) rules.
Proof.
  induction rules as [|r rules IH]; [done|]. cbn [first_match].
  destruct (in_scope now call r) eqn:Es; cbn [negb].
  - destruct (_matches_rule r call target) as [[]|e] eqn:Em; cbn; intros H0; try done.
    constructor; [by right | by apply IH].
  - intros H0. constructor; [by left | by apply IH].
Qed.

(** Only a typed rule that matches the resource of the call relaxes. *)
Lemma relaxing_rule_typed rule call target :
  is_relaxing_approval (ru_approval rule) = true -> _matches_rule rule call target = Ok true ->
  ru_resource_type rule ≠ EmptyString
  /\ match_typed_rule (ru_resource_type rule) (default [] (ru_resource_spec rule)) (tc_resource call) (tc_tool_name call)
       (tc_params call) target (tc_permission_level call) = Ok true.
Proof.
  intros Hr. unfold _matches_rule. destruct (ru_resource_type rule) as [|a t] eqn:Et; cbn [str_empty negb].
  - by rewrite Hr.
  - intros Hm. split; [done|]. unfold try_except in Hm. by repeat case_match; simplify_eq.
Qed.

(** ** Quoted argument vectors *)
Definition continues (s : string) : bool := match s with String a _ => is_continuation a | EmptyString => false end.
(** A text begins with a code point. *)
Definition text_ok (s : string) : Prop := continues s = false.
Lemma chars_unfold a r :
  chars (String a r) = if continues r then match chars r with x :: l => String a x :: l | [] => [] end
                       else String a EmptyString :: chars r.
Proof. destruct r; done. Qed.
Lemma chars_head s : match chars s, s with
  | x :: _, String a _ => exists r, x = String a r /\ string_forallb is_continuation r = true
  | [], EmptyString => True | _, _ => False end /\ wf_word (tail (chars s)).
Proof.
  induction s as [|a s [IH1 IH2]]; [split; constructor|]. rewrite chars_unfold. destruct (continues s) eqn:Ec.
  - destruct s as [|b s]; [done|]. destruct (chars (String b s)) as [|x l]; [done|]. destruct IH1 as (r & -> & Hr).
    cbn [tail] in *. split; [|done]. exists (String b r). split; [done|]. cbn. by rewrite Hr, andb_true_r.
  - cbn [tail]. split; [by exists EmptyString|]. destruct s as [|b s]; [constructor|].
    destruct (chars (String b s)) as [|x l]; [done|]. destruct IH1 as (r & -> & Hr). constructor; [|done].
    cbn in Ec |- *. by rewrite Ec, Hr.
Qed.
Lemma chars_are_chars s : text_ok s -> wf_word (chars s).
Proof.
  intros Hs. pose proof (chars_head s) as [H1 H2]. destruct (chars s) as [|x l]; [constructor|].
  destruct s as [|a s]; [done|]. destruct H1 as (r & -> & Hr). constructor; [|done].
  unfold text_ok in Hs. cbn in Hs |- *. by rewrite Hs, Hr.
Qed.

(** The characters that separate commands, or quote *)
Definition quiet (c : string) : Prop := c ∉ [SQUOTE; DQUOTE; BACKSLASH; " "; TAB; RETURN; NEWLINE; "|"; ";"; "&"].
Lemma safe_quiet c : char_test shlex_safe c = true -> quiet c.
Proof.
  intros Hs Hc. rewrite !elem_of_cons, elem_of_nil in Hc. destruct_or? Hc; try done; subst c; discriminate Hs.
Qed.
Lemma safe_char c : char_test shlex_safe c = true -> exists a, c = String a EmptyString /\ byte a < 128 /\ ws1 a = false.
Proof.
  unfold char_test, ascii_of_char. destruct c as [|a [|b r]]; try done. intros Ha. exists a. split; [done|].
  destruct a as [[] [] [] [] [] [] [] []]; try discriminate Ha; (split; [vm_compute; reflexivity | reflexivity]).
Qed.
Definition quote_body (w : list string) : list string :=
  concat ((fun c => if bool_decide (c = SQUOTE) then [SQUOTE; DQUOTE; SQUOTE; DQUOTE; SQUOTE] else [c]) <$> w).
Lemma shlex_quote_cases w :
  (shlex_quote w = w /\ w ≠ [] /\ Forall (fun c => char_test shlex_safe c = true) w)
  \/ shlex_quote w = SQUOTE :: quote_body w ++ [SQUOTE].
Proof.
  destruct w as [|c w]; [by right|]. unfold shlex_quote. destruct (forallb _ (c :: w)) eqn:E; [left | by right].
  split_and!; [done..|]. apply Forall_forall. intros x Hx. rewrite forallb_forall in E. by apply E, list_elem_of_In.
Qed.

Lemma segment_quiet c cur segs r :
  quiet c -> segment_loop false false cur segs (c :: r) = segment_loop false false (cur ++ [c]) segs r.
Proof.
  intros Hc. unfold quiet in Hc. rewrite !not_elem_of_cons in Hc. destruct_and! Hc. cbn [segment_loop].
  rewrite !(bool_decide_eq_false_2 (c = _)) by done. cbn [andb negb orb].
  assert (E : str_in c ["|"; ";"; "&"] = false).
  { apply str_in_false. rewrite !not_elem_of_cons. split_and!; done || apply not_elem_of_nil. }
  rewrite E. by destruct r.
Qed.
(** The marks toggle the two quotations. *)
Lemma segment_mark (in_single in_double : bool) c cur segs r :
  in_single && in_double = false -> (c = SQUOTE /\ in_double = false) \/ (c = DQUOTE /\ in_single = false) \/ (c = SQUOTE /\ in_double = true) ->
  segment_loop in_single in_double cur segs (c :: r)
  = segment_loop (xorb in_single (bool_decide (c = SQUOTE) && negb in_double))
      (xorb in_double (bool_decide (c = DQUOTE))) (cur ++ [c]) segs r.
Proof.
  intros Hb Hc. destruct in_single, in_double; try done; destruct_or! Hc; destruct Hc as [-> ?]; try done; by destruct r.
Qed.
Lemma segment_body w cur segs r :
  segment_loop true false cur segs (quote_body w ++ SQUOTE :: r)
  = segment_loop false false (cur ++ quote_body w ++ [SQUOTE]) segs r.
Proof.
  revert cur. induction w as [|c w IH]; intros cur; [exact (segment_mark true false SQUOTE cur segs r eq_refl (or_introl (conj eq_refl eq_refl)))|].
  unfold quote_body. cbn [fmap list_fmap concat]. fold (quote_body w). case_bool_decide as Hc.
  - subst c. cbn [app].
    transitivity (segment_loop true false (cur ++ [SQUOTE; DQUOTE; SQUOTE; DQUOTE; SQUOTE]) segs (quote_body w ++ SQUOTE :: r)).
    + rewrite !segment_mark by (done || tauto). rewrite <- !app_assoc. done.
    + rewrite IH. by rewrite <- !app_assoc.
  - cbn [app segment_loop]. rewrite (bool_decide_eq_false_2 (c = SQUOTE)) by done. cbn [andb negb].
    rewrite andb_false_r. cbn [andb]. rewrite IH. by rewrite <- !app_assoc.
Qed.
Lemma segment_word w cur segs r :
  segment_loop false false cur segs (shlex_quote w ++ r) = segment_loop false false (cur ++ shlex_quote w) segs r.
Proof.
  destruct (shlex_quote_cases w) as [(-> & _ & Hw) | ->].
  - revert cur. induction Hw as [|c w Hc Hw IH]; intros cur; [by rewrite app_nil_r|]. cbn [app].
    rewrite segment_quiet by (by apply safe_quiet). rewrite IH. by rewrite <- app_assoc.
  - transitivity (segment_loop true false (cur ++ [SQUOTE]) segs (quote_body w ++ SQUOTE :: r)).
    + cbn [app]. rewrite segment_mark by (done || tauto). by rewrite <- app_assoc.
    + rewrite segment_body. by rewrite <- !app_assoc.
Qed.
Lemma segment_join ws cur segs :
  segment_loop false false cur segs (shlex_join ws) = _append_segment segs (cur ++ shlex_join ws).
Proof.
  revert cur. induction ws as [|w [|w' ws] IH]; intros cur.
  - by rewrite app_nil_r.
  - cbn [shlex_join]. rewrite <- (app_nil_r (shlex_quote w)) at 1. by rewrite segment_word.
  - change (shlex_join (w :: w' :: ws)) with (shlex_quote w ++ " " :: shlex_join (w' :: ws)).
    rewrite segment_word.
    transitivity (segment_loop false false ((cur ++ shlex_quote w) ++ [" "]) segs (shlex_join (w' :: ws))).
    + destruct (shlex_join (w' :: ws)); done.
    + rewrite IH. by rewrite <- !app_assoc.
Qed.

Lemma shlex_body w token q words r :
  shlex_loop (SQuote SQUOTE) token q words (quote_body w ++ SQUOTE :: r) = shlex_loop SWord (token ++ w) true words r.
Proof.
  revert token q. induction w as [|c w IH]; intros token q; [by rewrite app_nil_r|].
  unfold quote_body. cbn [fmap list_fmap concat]. fold (quote_body w). case_bool_decide as Hc.
  - subst c. cbn [app].
    transitivity (shlex_loop (SQuote SQUOTE) (token ++ [SQUOTE]) true words (quote_body w ++ SQUOTE :: r)).
    + cbn. done.
    + rewrite IH. by rewrite <- app_assoc.
  - cbn [app shlex_loop]. rewrite (bool_decide_eq_false_2 (c = SQUOTE)) by done.
    rewrite (bool_decide_eq_false_2 (SQUOTE = DQUOTE)) by done. rewrite andb_false_r, IH. by rewrite <- app_assoc.
Qed.
Lemma shlex_quiet c st token q words r :
  quiet c -> st = SBlank /\ token = [] \/ st = SWord ->
  shlex_loop st token q words (c :: r) = shlex_loop SWord (token ++ [c]) q words r.
Proof.
  intros Hc. unfold quiet in Hc. rewrite !not_elem_of_cons in Hc. destruct_and! Hc.
  assert (E : shlex_ws c = false).
  { apply str_in_false. rewrite !not_elem_of_cons. split_and!; done || apply not_elem_of_nil. }
  assert (E2 : is_quote c = false).
  { apply str_in_false. rewrite !not_elem_of_cons. split_and!; done || apply not_elem_of_nil. }
  intros [[-> ->] | ->]; cbn [shlex_loop]; rewrite E, E2, (bool_decide_eq_false_2 (c = BACKSLASH)) by done; done.
Qed.
Lemma shlex_word w words :
  exists q, (w ≠ [] \/ q = true)
    /\ forall r, shlex_loop SBlank [] false words (shlex_quote w ++ r) = shlex_loop SWord w q words r.
Proof.
  destruct (shlex_quote_cases w) as [(-> & Hne & Hw) | ->].
  - exists false. split; [by left|]. intros r. destruct Hw as [|c w Hc Hw]; [done|]. cbn [app].
    rewrite shlex_quiet by (by apply safe_quiet || by left). cbn [app]. change (c :: w) with ([c] ++ w).
    generalize [c] as t. induction Hw as [|d w Hd Hw IH]; intros t; [by rewrite app_nil_r|]. cbn [app].
    rewrite shlex_quiet by (by apply safe_quiet || by right). rewrite IH by done. by rewrite <- app_assoc.
  - exists true. split; [by right|]. intros r. cbn [app]. rewrite <- app_assoc. cbn [app]. apply (shlex_body w []).
Qed.
Lemma shlex_round_trip ws words : shlex_loop SBlank [] false words (shlex_join ws) = Ok (words ++ ws).
Proof.
  revert words. induction ws as [|w [|w' ws] IH]; intros words.
  - cbn. by rewrite app_nil_r.
  - cbn [shlex_join]. destruct (shlex_word w words) as (q & Hq & Hr). rewrite <- (app_nil_r (shlex_quote w)), Hr.
    cbn. destruct w; [|done]. by destruct Hq as [? | ->].
  - change (shlex_join (w :: w' :: ws)) with (shlex_quote w ++ " " :: shlex_join (w' :: ws)).
    destruct (shlex_word w words) as (q & Hq & Hr). rewrite Hr.
    transitivity (shlex_loop SBlank [] false (words ++ [w]) (shlex_join (w' :: ws))).
    + cbn [shlex_loop]. change (shlex_ws " ") with true. destruct w; [|done]. by destruct Hq as [? | ->].
    + rewrite IH. by rewrite <- app_assoc.
Qed.

(** A text that begins and ends with an unaccented visible character is not stripped. *)
Definition visible (c : string) : Prop := exists a, c = String a EmptyString /\ byte a < 128 /\ ws1 a = false.
Definition bounded (l : list string) : Prop :=
  (exists c r, l = c :: r /\ visible c) /\ (exists r c, l = r ++ [c] /\ visible c).
Lemma drop_ws_visible w2 w3 a l :
  ws1 a = false -> (forall b, w2 a b = false) -> (forall b c, w3 a b c = false) -> drop_ws w2 w3 (a :: l) = a :: l.
Proof. intros H1 H2 H3. cbn [drop_ws]. rewrite H1. destruct l as [|b [|c l]]; [done|..]; rewrite H2; [done|]. by rewrite H3. Qed.
Lemma list_ascii_app s t : String.list_ascii_of_string (s +:+ t) = String.list_ascii_of_string s ++ String.list_ascii_of_string t.
Proof. induction s as [|a s IH]; [done|]. cbn. by rewrite IH. Qed.
Lemma text_of_app l r : text_of (l ++ r) = text_of l +:+ text_of r.
Proof. induction l as [|c l IH]; [done|]. cbn [app text_of]. by rewrite IH, str_app_assoc. Qed.
Lemma strip_bounded l : bounded l -> py_strip (text_of l) = text_of l.
Proof.
  intros [(c & r & Hl & a & -> & Ha & Hwa) (r' & d & Hl' & z & -> & Hz & Hwz)].
  unfold py_strip, lstrip_bytes, rstrip_bytes.
  assert (E : drop_ws ws2 ws3 (String.list_ascii_of_string (text_of l)) = String.list_ascii_of_string (text_of l)).
  { rewrite Hl. cbn [text_of String.append String.list_ascii_of_string]. apply drop_ws_visible; [done| |].
    - intros b. unfold ws2. by rewrite (proj2 (Z.eqb_neq (byte a) 194)) by lia.
    - intros b c. unfold ws3. rewrite (proj2 (Z.eqb_neq (byte a) 225)), (proj2 (Z.eqb_neq (byte a) 226)),
        (proj2 (Z.eqb_neq (byte a) 227)) by lia. done. }
  rewrite E, Hl', text_of_app, list_ascii_app. cbn [text_of String.append String.list_ascii_of_string].
  rewrite rev_app_distr. cbn [rev app]. rewrite drop_ws_visible; [|done|..].
  - cbn [rev]. rewrite rev_involutive. rewrite <- (String.string_of_list_ascii_of_string (text_of r' +:+ String z EmptyString)).
    by rewrite list_ascii_app.
  - intros b. unfold ws2. rewrite (proj2 (Z.eqb_neq (byte z) 133)), (proj2 (Z.eqb_neq (byte z) 160)) by lia. by rewrite andb_false_r.
  - intros b c. unfold ws3, between. rewrite (proj2 (Z.eqb_neq (byte z) 128)), (proj2 (Z.eqb_neq (byte z) 168)),
      (proj2 (Z.eqb_neq (byte z) 169)), (proj2 (Z.eqb_neq (byte z) 175)), (proj2 (Z.eqb_neq (byte z) 159)),
      (proj2 (Z.leb_gt 128 (byte z))) by lia. cbn [andb orb]. by rewrite !andb_false_r.
Qed.
Lemma quote_visible : visible SQUOTE.
Proof. by exists "'"%char. Qed.
Lemma bounded_quote w : bounded (shlex_quote w).
Proof.
  destruct (shlex_quote_cases w) as [(-> & Hne & Hw) | ->].
  - split.
    + destruct Hw as [|c w Hc _]; [done|]. exists c, w. split; [done | by apply safe_char].
    + destruct (exists_last Hne) as (r & c & ->). exists r, c. split; [done|].
      apply Forall_app in Hw as [_ Hw]. by apply safe_char, (Forall_inv Hw).
  - split; [exists SQUOTE, (quote_body w ++ [SQUOTE]) | exists (SQUOTE :: quote_body w), SQUOTE]; split; done || apply quote_visible.
Qed.
Lemma bounded_join w ws : bounded (shlex_join (w :: ws)).
Proof.
  revert w. induction ws as [|w' ws IH]; intros w; [apply bounded_quote|].
  change (shlex_join (w :: w' :: ws)) with (shlex_quote w ++ " " :: shlex_join (w' :: ws)).
  destruct (bounded_quote w) as [(c & r & -> & Hc) _], (IH w') as [_ (r' & d & -> & Hd)].
  split; [by eexists c, _ | exists ((c :: r) ++ " " :: r'), d; split; [by rewrite <- app_assoc | done]].
Qed.
Definition command_line (argv : list string) : string := text_of (shlex_join (chars <$> argv)).
Lemma command_line_chars argv : Forall text_ok argv -> chars (command_line argv) = shlex_join (chars <$> argv).
Proof.
  intros Ha. apply chars_text_of, wf_join, Forall_fmap. eapply Forall_impl; [exact Ha|].
  intros s. apply chars_are_chars.
Qed.
Lemma bounded_nonempty l : bounded l -> str_empty (text_of l) = false.
Proof. intros [(c & r & -> & a & -> & _) _]. done. Qed.
Lemma command_line_segments a argv :
  Forall text_ok (a :: argv) -> split_command_segments (command_line (a :: argv)) = [command_line (a :: argv)].
Proof.
  intros Ha. unfold split_command_segments. rewrite command_line_chars, segment_join by done. unfold _append_segment.
  cbn [app fmap list_fmap]. rewrite strip_bounded by apply bounded_join. by rewrite bounded_nonempty by apply bounded_join.
Qed.
Lemma command_line_split argv : Forall text_ok argv -> shlex_split (command_line argv) = Ok argv.
Proof.
  intros Ha. unfold shlex_split. rewrite command_line_chars, shlex_round_trip by done. cbn. f_equal.
  rewrite <- list_fmap_compose. rewrite <- (list_fmap_id argv) at 2. apply list_fmap_ext. intros i s _. apply text_of_chars.
Qed.
Lemma command_line_matches argv entries :
  Forall text_ok argv ->
  _matches_required_approval (command_line argv) entries
  = negb (str_empty (join " " argv)) && existsb (covers (join " " argv)) entries.
Proof.
  intros Ha. unfold _matches_required_approval. destruct argv as [|a argv]; [done|].
  assert (E : str_empty (command_line (a :: argv)) = false) by (apply bounded_nonempty, bounded_join).
  rewrite E, command_line_segments by done. cbn [orb]. destruct entries as [|e entries]; [by rewrite andb_false_r|].
  cbn [existsb]. rewrite orb_false_r. unfold normalize_command_target.
  by rewrite command_line_segments, command_line_split by done.
Qed.
Lemma command_text_argv params argv :
  get "argv" params = PList (PStr <$> argv) -> _command_text params = command_line argv.
Proof.
  intros Hp. unfold _command_text. rewrite Hp.
  assert (E : forallb is_str (PStr <$> argv) = true) by (clear; by induction argv).
  rewrite E. unfold command_line. by rewrite <- list_fmap_compose.
Qed.

(** An argument vector is compared with the policy's list of commands exactly
    as it is executed: its quoted form is split into one command, read back to the
    same arguments, and the policy asks for approval precisely when the tool can
    execute commands and an entry covers the arguments joined by blanks.  Nothing
    inside an argument (separators, quotes, blanks, newlines) hides the command or
    passes for another one. *)
Theorem argv_policy_exact (config : EvaluatorConfig) (call : ToolCall) (argv : list string)
  (Hargv : get "argv" (tc_params call) = PList (PStr <$> argv)) (Htext : Forall text_ok argv) :
  (argv ≠ [] -> split_command_segments (_command_text (tc_params call)) = [_command_text (tc_params call)])
  /\ shlex_split (_command_text (tc_params call)) = Ok argv
  /\ policy_asks config call
     = str_in (tc_tool_name call) (ec_exec_tool_names config) && negb (str_empty (join " " argv))
       && existsb (covers (join " " argv)) (ec_commands_require_approval config).
Proof.
  rewrite (command_text_argv _ _ Hargv). split_and!.
  - destruct argv as [|a argv]; [done|]. intros _. by apply command_line_segments.
  - by apply command_line_split.
  - unfold policy_asks. rewrite (command_text_argv _ _ Hargv), command_line_matches by done.
    destruct (ec_commands_require_approval config); cbn [andb existsb]; [by rewrite !andb_false_r | by rewrite andb_assoc].
Qed.

(** The ways a decision relaxes without a rule *)
Definition relaxed_by_default (config : EvaluatorConfig) (call : ToolCall) : Prop :=
  is_relaxing_approval (ec_default_mode config) = true
  \/ (tc_tool_name call ∈ ["terminal"; "terminal_argv"; "terminal_shell"]
      /\ _is_read_only_terminal_call (tc_tool_name call) (tc_params call) = Ok true
      /\ _is_interactive_transport (tc_source_transport call) = true).
Lemma read_only_terminal_true call :
  read_only_terminal call = Ok true ->
  tc_tool_name call ∈ ["terminal"; "terminal_argv"; "terminal_shell"]
  /\ _is_read_only_terminal_call (tc_tool_name call) (tc_params call) = Ok true
  /\ _is_interactive_transport (tc_source_transport call) = true.
Proof.
  unfold read_only_terminal. destruct (str_in _ _) eqn:Et; [|done]. apply str_in_true in Et.
  destruct (_is_read_only_terminal_call _ _) as [b|e]; cbn; [|done]. intros [= Hb]. apply andb_true_iff in Hb as [-> Hb]. done.
Qed.
Lemma default_decision_approved mode target : pd_approved (default_decision mode target) = mode.
Proof. by destruct mode. Qed.

(** C13. A decision comes from the first rule in scope that matches: the rules before
    it do not apply, and without one none applies, so no shortcut or default ever
    overrides a rule that refuses.  A decision that lets a call run without asking is
    never given for a command the policy asks about, and it needs a rule of the
    call's mode, level, transport, session, task and workspace that is not expired,
    has a typed resource and matches the resource of the call (a glob pattern never
    suffices), or a relaxing default, or a read-only terminal command of a user
    at a terminal. *)
Theorem relaxing_needs_authority (now : Z) (config : EvaluatorConfig) (rules : list PermissionRule) (call : ToolCall)
  (target : string) (d : PermissionDecision)
  (Hd : evaluate_call now config rules call target = Ok d) :
  match pd_matched_rule d with
  | Some rule =>
      (exists before after, rules = before ++ rule :: after /\ Forall (passes now call target) before
         /\ applies now call target rule)
      /\ pd_approved d = ru_approval rule
      /\ (is_relaxing_approval (pd_approved d) = true ->
          ru_resource_type rule ≠ EmptyString
          /\ match_typed_rule (ru_resource_type rule) (default [] (ru_resource_spec rule)) (tc_resource call)
               (tc_tool_name call) (tc_params call) target (tc_permission_level call) = Ok true)
  | None =>
      (policy_asks config call = true \/ Forall (passes now call target) rules)
      /\ (is_relaxing_approval (pd_approved d) = true -> relaxed_by_default config call)
  end
  /\ (policy_asks config call = true -> pd_approved d = ASK_EVERY /\ pd_requires_user_confirm d = true).
Proof.
  unfold evaluate_call in Hd. destruct (policy_asks config call).
  { injection Hd as <-. cbn. split; [|done]. split; [by left | done]. }
  destruct (read_only_terminal call) as [shortcut|] eqn:Er; cbn in Hd; [|done].
  destruct (first_match now call target rules) as [[rule|]|] eqn:Ef; cbn in Hd; [| |done]; split; try done.
  - injection Hd as <-. cbn. apply first_match_some in Ef as (b & a & -> & Hb & Ha).
    split; [by exists b, a|]. split; [done|]. intros Hr. apply (relaxing_rule_typed _ _ _ Hr), Ha.
  - apply first_match_none in Ef. destruct shortcut; injection Hd as <-; cbn [pd_matched_rule pd_approved].
    + split; [by right|]. intros _. right. by apply read_only_terminal_true.
    + destruct (ec_default_mode config) eqn:Em; cbn; (split; [by right | intros Hr; left; by rewrite Em]).
Qed.
End Evaluator.

(** ** Instances *)
Module EvaluatorExample.
Import PermissionRules.Example.
Definition config : EvaluatorConfig := mk_evaluator ASK_EVERY ["git push"] None.
Definition call (tool : string) (params : list (string * pyval)) : ToolCall :=
  MkCall tool params "execute" "normal" None (Some "cli") (Some "s") (Some "t") (Some "w").
Definition rule (approval : ApprovalMode) (pattern resource_type : string) (spec : list (string * pyval)) : PermissionRule :=
  MkRule (Some 1) pattern "execute" approval ALL 0 "" 1 ALL PROJECT_ALL_TRANSPORTS "" "" "" None "" resource_type (Some spec).
Definition argv_call : ToolCall := call "terminal_argv" [("argv", str_list ["git"; "push"; "a; b 'c'"])].
Definition make_rule : PermissionRule :=
  rule AUTO_APPROVE "" "exec" [("executable", PStr "make"); ("argv_prefix", PList [PStr "test"])].
Definition make_call : ToolCall := call "terminal_argv" [("argv", str_list ["make"; "test"])].
End EvaluatorExample.

Import PermissionRules.Example EvaluatorExample.
Lemma argv_policy_exact_witness :
  policy_asks config argv_call = true /\ shlex_split (_command_text (tc_params argv_call)) = Ok ["git"; "push"; "a; b 'c'"].
Proof.
  destruct (argv_policy_exact config argv_call ["git"; "push"; "a; b 'c'"] eq_refl ltac:(by repeat constructor)) as (_ & H2 & H3).
  split; [|exact H2]. refine (eq_trans H3 _). vm_compute. reflexivity.
Defined.
Lemma relaxing_needs_authority_witness :
  exists d, evaluate_call 5 config [make_rule] make_call "make test" = Ok d /\ pd_matched_rule d = Some make_rule
    /\ is_relaxing_approval (pd_approved d) = true
    /\ match_typed_rule EXEC [("executable", PStr "make"); ("argv_prefix", PList [PStr "test"])] None "terminal_argv"
         (tc_params make_call) "make test" "execute" = Ok true.
Proof.
  eexists. split; [vm_compute; reflexivity|].
  pose proof (relaxing_needs_authority 5 config [make_rule] make_call "make test" _ eq_refl) as [(_ & _ & H) _].
  split_and!; [done..|]. apply H. reflexivity.
Defined.

(** ** Where the policy does not ask *)
(** A shell reads the commands of a script line by line, but only [|], [;] and [&]
    separate the commands that are compared with the policy: the second line of a
    script is taken for arguments of the first. *)
Theorem newline_hides_required_command :
  literal_graph (chars ("true" +:+ NEWLINE +:+ "git push")) = Some [[["t"; "r"; "u"; "e"]]; [chars "git"; chars "push"]]
  /\ _matches_required_approval ("true" +:+ NEWLINE +:+ "git push") ["git push"] = false
  /\ _matches_required_approval "true; git push" ["git push"] = true.
Proof. vm_compute. done. Qed.
