(* ===== verification/PermissionEngine.v ===== *)
(** * The permission engine ([permissions/engine.py])

    An engine belongs to one principal, project and policy.  It keeps the rules it
    has read together with the authorization epoch they were read at, and compares
    that epoch with the database before every decision.

    The methods are coroutines ([Coroutine]); the others are engines that share the
    database.  The memory of one engine is only touched by the method that runs:
    a method is modelled from its call to its end, so a statement about a sequence
    of calls of one engine ([engine_step]) is about calls that do not overlap.
    What two overlapping checks of one engine can do is shown by
    [overlapping_check_uses_revoked_rule].  The clock is read once per decision. *)
From Stdlib Require Import Ascii.
From S2P Require Import Prelude PyStr Json PyValue ShellSemantics PyText Coroutine PermissionStore PermissionRules PermissionEvaluator.
Open Scope Z_scope.

(** ** State *)
Record EngineConfig := MkEngineConfig {
  en_evaluator : EvaluatorConfig; en_principal_id : string; en_project_id : string; en_policy_digest : string
}.
(** [PermissionEngine.__init__]: the evaluator's part is [mk_evaluator] *)
Definition mk_engine_config (default_mode : ApprovalMode) (commands_require_approval : option (list string))
    (exec_tool_names : option (list string)) (principal_id project_id policy_digest : string) : EngineConfig :=
  MkEngineConfig (mk_evaluator default_mode (default [] commands_require_approval) exec_tool_names)
    principal_id project_id policy_digest.
Definition en_owner (c : EngineConfig) : Owner := (en_principal_id c, en_project_id c).
Record Engine := MkEngine { en_rules : list PermissionRule; en_epoch : Z }.
Definition new_engine : Engine := MkEngine [] 0.
#[export] Instance perm_interferes : Interferes PermissionDb perm_op := perm_run.
Abbreviation World := (Coroutine.World Engine PermissionDb perm_op).
Abbreviation Access := (Coroutine.Access perm_op).
Abbreviation eng := (Coroutine.eng Engine PermissionDb perm_op).
Definition put_epoch (epoch : Z) : eng unit := modify (fun e => MkEngine (en_rules e) epoch).
Definition put_rules (rules : list PermissionRule) : eng unit := modify (fun e => MkEngine rules (en_epoch e)).

(** ** Patterns *)
Definition MIN_RULE_SPECIFICITY : Z := 2.
Definition MIN_COMMAND_RULE_SPECIFICITY : Z := 3.
Fixpoint fixed_prefix (l : list string) : Z :=
  match l with [] => 0 | c :: r => if str_in c ["*"; "?"; "["] then 0 else 1 + fixed_prefix r end.
Definition _legacy_command_pattern_body (pattern : string) : option string :=
  let text := py_strip pattern in
  if contains (chars "://") (chars text) || has_prefix "/" text then None
  else if has_prefix "terminal:" text then Some (py_strip (text_of (drop 9 (chars text))))
  else if has_prefix "process:" text then Some (py_strip (text_of (drop 8 (chars text))))
  else if contains ["/"] (chars text) || contains [BACKSLASH] (chars text) then None
  else Some text.
Definition validate_rule_pattern (pattern : string) (approval : ApprovalMode) : res unit :=
  if bool_decide (approval = ASK_EVERY) || bool_decide (approval = DENY) then Ok tt
  else
    let text := py_strip pattern in
    raise_if (str_empty text) ValueError "pattern must not be empty" ;;*
    let '(prefix, required) := match _legacy_command_pattern_body text with
      | Some body => (fixed_prefix (chars body), Z.max MIN_RULE_SPECIFICITY MIN_COMMAND_RULE_SPECIFICITY)
      | None => (fixed_prefix (chars text), MIN_RULE_SPECIFICITY)
      end in
    raise_if (prefix <? required) ValueError "auto-approve pattern is too broad".

(** ** Scopes *)
Definition with_scope (transport_class grant_lifetime : string) (r : PermissionRule) : PermissionRule :=
  MkRule (ru_id r) (ru_pattern r) (ru_permission_level r) (ru_approval r) (ru_mode r) (ru_granted_at r) (ru_policy_digest r)
    (ru_generation r) transport_class grant_lifetime (ru_session_id r) (ru_task_id r) (ru_workspace_id r) (ru_expires_at r)
    (ru_created_by r) (ru_resource_type r) (ru_resource_spec r).
Definition with_resource (resource_type : string) (resource_spec : list (string * pyval)) (r : PermissionRule) : PermissionRule :=
  MkRule (ru_id r) (ru_pattern r) (ru_permission_level r) (ru_approval r) (ru_mode r) (ru_granted_at r) (ru_policy_digest r)
    (ru_generation r) (ru_transport_class r) (ru_grant_lifetime r) (ru_session_id r) (ru_task_id r) (ru_workspace_id r)
    (ru_expires_at r) (ru_created_by r) resource_type (Some resource_spec).
Definition _apply_default_rule_scope (rule : PermissionRule) : PermissionRule :=
  if negb (str_empty (ru_transport_class rule)) || negb (str_empty (ru_grant_lifetime rule)) then rule
  else if bool_decide (ru_approval rule = ASK_EVERY) || bool_decide (ru_approval rule = DENY)
  then with_scope ALL PROJECT_ALL_TRANSPORTS rule
  else with_scope INTERACTIVE PROJECT_INTERACTIVE rule.
Definition validate_rule_scope (rule : PermissionRule) : res unit :=
  raise_if (negb (str_in (ru_transport_class rule) TRANSPORT_CLASSES)) ValueError "unknown transport class" ;;*
  raise_if (negb (str_in (ru_grant_lifetime rule) GRANT_LIFETIMES)) ValueError "unknown grant lifetime" ;;*
  raise_if (str_in (ru_grant_lifetime rule) [ONCE; TURN]) ValueError "grants are ephemeral and must not be persisted" ;;*
  raise_if (bool_decide (ru_grant_lifetime rule = PROJECT_INTERACTIVE)
            && negb (bool_decide (ru_transport_class rule = INTERACTIVE))) ValueError
    "project_interactive grants require interactive scope" ;;*
  raise_if (bool_decide (ru_grant_lifetime rule = PROJECT_ALL_TRANSPORTS)
            && negb (bool_decide (ru_transport_class rule = ALL))) ValueError
    "project_all_transports grants require all scope" ;;*
  raise_if (bool_decide (ru_grant_lifetime rule = SESSION) && str_empty (ru_session_id rule)) ValueError
    "session grants require session_id" ;;*
  raise_if (bool_decide (ru_grant_lifetime rule = TASK) && str_empty (ru_task_id rule)) ValueError
    "task grants require task_id" ;;*
  raise_if (match ru_expires_at rule with Some t => t <=? 0 | None => false end) ValueError "expires_at must be positive".

Section Engine.
Context `{Platform}.

(** ** Rules at the database boundary *)
Definition _typed_rule_display (rule : PermissionRule) : string :=
  dumpsc (PDict [("resource_type", PStr (ru_resource_type rule)); ("resource_spec", PDict (default [] (ru_resource_spec rule)))]).
Definition _materialize_rule_resource (rule : PermissionRule) : res PermissionRule :=
  if negb (str_empty (ru_resource_type rule)) then
    let* spec := validate_typed_rule (ru_resource_type rule) (PDict (default [] (ru_resource_spec rule))) (ru_approval rule) in
    Ok (with_resource (ru_resource_type rule) spec rule)
  else if is_relaxing_approval (ru_approval rule) then
    validate_rule_pattern (ru_pattern rule) (ru_approval rule) ;;*
    let* '(resource_type, resource_spec) :=
      legacy_pattern_to_typed (ru_pattern rule) (ru_permission_level rule) (ru_approval rule) in
    Ok (with_resource resource_type resource_spec rule)
  else validate_rule_pattern (ru_pattern rule) (ru_approval rule) ;;* Ok rule.

(** [ApprovalMode(value)] *)
Definition approval_of (value : string) : res ApprovalMode :=
  match List.find (fun a => bool_decide (approval_value a = value)) [AUTO_APPROVE; SUGGEST; ASK_EVERY; DENY] with
  | Some a => Ok a
  | None => Raise (Exn ValueError "not a valid ApprovalMode")
  end.
(** [value or otherwise] for texts *)
Definition text_or (value otherwise : string) : string := if str_empty value then otherwise else value.
(** The typed resource of a row, under [try] *)
Definition row_resource (row : PermissionRow) (approval : ApprovalMode) : res (string * option (list (string * pyval))) :=
  if negb (str_empty (pr_resource_type row)) then
    let* decoded := loads default_object_hook default_constant_hook (pr_resource_spec row) in
    let* spec := validate_typed_rule (pr_resource_type row) decoded approval in
    Ok (pr_resource_type row, Some spec)
  else if is_relaxing_approval approval then
    validate_rule_pattern (pr_pattern row) approval ;;*
    let* '(resource_type, resource_spec) := legacy_pattern_to_typed (pr_pattern row) (pr_permission_level row) approval in
    Ok (resource_type, Some resource_spec)
  else validate_rule_pattern (pr_pattern row) approval ;;* Ok (EmptyString, None).
Definition row_rule (row : PermissionRow) (approval : ApprovalMode) (resource : string * option (list (string * pyval)))
    : PermissionRule :=
  MkRule (Some (pr_id row)) (pr_pattern row) (pr_permission_level row) approval (pr_mode row)
    (Z.shiftl (pr_granted_at row) 1074) (pr_policy_digest row) (pr_generation row)
    (text_or (pr_transport_class row) INTERACTIVE) (text_or (pr_grant_lifetime row) PROJECT_INTERACTIVE)
    (pr_session_id row) (pr_task_id row) (pr_workspace_id row) (pr_expires_at row) (pr_created_by row) resource.1 resource.2.
(** One row: [None] when it is quarantined *)
Definition materialize_row (row : PermissionRow) : res (option PermissionRule) :=
  let* approval := approval_of (pr_approval row) in
  let* resource := try_except (let* r := row_resource row approval in Ok (Some r)) [ValueError] (fun _ => Ok None) in
  match resource with
  | None => Ok None
  | Some r =>
      let rule := row_rule row approval r in
      try_except (validate_rule_scope rule ;;* Ok (Some rule)) [ValueError] (fun _ => Ok None)
  end.
Fixpoint _materialize_rules (rows : list PermissionRow) : res (list PermissionRule) :=
  match rows with
  | [] => Ok []
  | row :: rest =>
      let* found := materialize_row row in
      let* rules := _materialize_rules rest in
      Ok (match found with Some rule => rule :: rules | None => rules end)
  end.

(** ** Targets *)
Definition normalize_target (tool_name : string) (params : list (string * pyval)) : res string :=
  if str_in tool_name ["read_file"; "write_file"; "patch"; "search_files"] then
    realpath (normpath (str_of (or_else (get "path" params) (or_else (get "root" params) (or_else (get "query" params) (PStr "."))))))
  else if str_in tool_name ["terminal"; "process"] then
    Ok (normalize_command_target (str_of (or_else (get "command" params) (or_else (get "id" params) (PStr "")))))
  else if has_key "url" params then
    let* parsed := urlsplit (str_of (get "url" params)) in Ok (sr_scheme parsed +:+ "://" +:+ sr_netloc parsed)
  else Ok (tool_name +:+ ":" +:+ ascii_text (dumps ", " ": " (PDict params))).

(** ** Methods *)
Variable config : EngineConfig.
Local Abbreviation owner := (en_owner config).
Local Abbreviation policy := (en_policy_digest config).

Definition read_rules (generation : Z) : eng (list PermissionRow) :=
  db_read (list_permission_rules (Some (en_principal_id config)) (Some (en_project_id config)) (Some policy) (Some generation)).
Definition load_rules : eng unit :=
  let+ epoch := db_access (fun db => let '(n, db') := bind_authorization_context owner policy db in (Ok n, db')) in
  put_epoch epoch ;;+
  let+ rows := read_rules epoch in
  let+ rules := eng_lift (_materialize_rules rows) in
  put_rules rules.
Definition _reload_current_rules : eng unit :=
  let+ e := get_engine in
  let+ rows := read_rules (en_epoch e) in
  let+ rules := eng_lift (_materialize_rules rows) in
  put_rules rules.
Definition load_if_unbound : eng unit :=
  let+ e := get_engine in if en_epoch e =? 0 then load_rules else eng_ret tt.

Definition stale_decision (target : string) : PermissionDecision :=
  MkDecision DENY "Effective policy changed; runtime authorization is stale" target None false.
Definition bound_epoch (context : option AuthorizationContext) : option Z :=
  match context with
  | Some c => if bool_decide (ax_policy_digest c = policy) then Some (ax_epoch c) else None
  | None => None
  end.
Definition call_target (call : ToolCall) : res string :=
  match tc_resource call with
  | Some r => Ok (ar_canonical_target r)
  | None => normalize_target (tc_tool_name call) (tc_params call)
  end.
Definition check (now : Z) (call : ToolCall) : eng PermissionDecision :=
  let+ target := eng_lift (call_target call) in
  load_if_unbound ;;+
  let+ context := db_read (get_authorization_context owner) in
  match bound_epoch context with
  | None => put_rules [] ;;+ eng_ret (stale_decision target)
  | Some current_epoch =>
      let+ e := get_engine in
      (if current_epoch =? en_epoch e then eng_ret tt
       else put_epoch current_epoch ;;+
            let+ rows := read_rules current_epoch in
            let+ rules := eng_lift (_materialize_rules rows) in
            put_rules rules) ;;+
      let+ e' := get_engine in
      eng_lift (evaluate_call now (en_evaluator config) (en_rules e') call target)
  end.

Definition new_rule_of (rule : PermissionRule) : NewRule :=
  MkNewRule (text_or (ru_pattern rule) (_typed_rule_display rule)) (ru_permission_level rule) (approval_value (ru_approval rule))
    (ru_mode rule) (ru_transport_class rule) (ru_grant_lifetime rule) (ru_session_id rule) (ru_task_id rule)
    (ru_workspace_id rule) (ru_expires_at rule) (ru_created_by rule) (ru_resource_type rule)
    (match ru_resource_spec rule with Some d => inl d | None => inr EmptyString end).
Definition grant_rule (now : Z) (rule0 : PermissionRule) : eng PermissionRule :=
  let rule1 := _apply_default_rule_scope rule0 in
  let+ rule := eng_lift (_materialize_rule_resource rule1) in
  eng_lift (validate_rule_scope rule) ;;+
  let+ rule_id := db_access (insert_permission_rule now owner policy (new_rule_of rule)) in
  let+ context := db_read (get_authorization_context owner) in
  match context with
  | None => eng_raise PermissionDeniedError "authorization context disappeared after grant"
  | Some c =>
      put_epoch (ax_epoch c) ;;+ _reload_current_rules ;;+
      let+ e := get_engine in
      match List.find (fun r => bool_decide (ru_id r = Some rule_id)) (en_rules e) with
      | Some persisted => eng_ret persisted
      | None => eng_raise PermissionDeniedError "persisted permission rule could not be reloaded"
      end
  end.
Definition revoke_rule (rule_id : Z) : eng unit :=
  let+ rowcount := db_access (fun db =>
    let '(n, db') := delete_permission_rule rule_id (Some (en_principal_id config)) (Some (en_project_id config)) (Some policy) db in
    (Ok n, db')) in
  if rowcount =? 0 then eng_raise PermissionDeniedError "Permission rule not owned by principal (or does not exist); revoke refused"
  else
    let+ context := db_read (get_authorization_context owner) in
    put_epoch (from_option ax_epoch 0 context) ;;+ _reload_current_rules.

Definition authorization_snapshot : eng Z :=
  load_if_unbound ;;+
  let+ context := db_read (get_authorization_context owner) in
  match bound_epoch context with
  | None => eng_raise PermissionDeniedError "Effective policy changed; runtime authorization is stale"
  | Some epoch => eng_ret epoch
  end.
Definition validate_dispatch_epoch (expected_epoch : Z) : eng unit :=
  let+ current_epoch := authorization_snapshot in
  if current_epoch =? expected_epoch then eng_ret tt
  else eng_raise PermissionDeniedError "Authorization changed before tool dispatch; re-approval required".

(** ** Histories *)
(** One engine's calls, one after the other, with operations of other engines
    before each database access.  A call that ended has returned, or raised without
    touching the engine; a call that raised half-way through a reload is not a step
    (see [failed_reload_revives_revoked_rule]), and neither is a call that starts
    while another call of the same engine awaits the database. *)
Definition completed {A} (r : res A) (w w' : World) : Prop := is_ok r = true \/ w_engine w' = w_engine w.
Inductive engine_step : World -> World -> Prop :=
| step_others ops w : engine_step w (MkWorld (w_engine w) (perm_run (w_db w) ops) (w_accesses w))
| step_schedule accesses w : engine_step w (MkWorld (w_engine w) (w_db w) accesses)
| step_load w r w' : load_rules w = (r, w') -> completed r w w' -> engine_step w w'
| step_check now call w r w' : check now call w = (r, w') -> completed r w w' -> engine_step w w'
| step_grant now rule w r w' : grant_rule now rule w = (r, w') -> completed r w w' -> engine_step w w'
| step_revoke rule_id w r w' : revoke_rule rule_id w = (r, w') -> completed r w w' -> engine_step w w'
| step_snapshot w r w' : authorization_snapshot w = (r, w') -> completed r w w' -> engine_step w w'
| step_validate epoch w r w' : validate_dispatch_epoch epoch w = (r, w') -> completed r w w' -> engine_step w w'.
(** Any history of a new engine on a database with any history *)
Definition reachable (w : World) : Prop :=
  exists ops accesses, rtc engine_step (MkWorld new_engine (perm_run empty_permissions ops) accesses) w.

Definition bound (db : PermissionDb) : Prop := is_Some (bound_epoch (get_authorization_context owner db)).
Definition positive (db : PermissionDb) : Prop := map_Forall (fun _ c => 0 < ax_epoch c) (authorization_contexts db).
(** The rules in the cache are the current ones whenever its epoch is the current one. *)
Record synced (w : World) : Prop := MkSynced {
  sync_positive : positive (w_db w);
  sync_epoch : en_epoch (w_engine w) <= epoch_of owner (w_db w);
  sync_rules : en_epoch (w_engine w) = epoch_of owner (w_db w) -> bound (w_db w) ->
    _materialize_rules (current_rules owner policy (w_db w)) = Ok (en_rules (w_engine w))
}.

(** ** Frames *)
Lemma perm_run_app db a b : perm_run db (a ++ b) = perm_run (perm_run db a) b.
Proof. apply foldl_app. Qed.
Definition advances {A} (m : eng A) : Prop :=
  forall w r w', m w = (r, w') -> exists ops, w_db w' = perm_run (w_db w) ops.

Lemma advances_ret {A} (m : res A) : advances (eng_lift m).
Proof. intros w r w' [= _ <-]. by exists []. Qed.
Lemma advances_raise {A} c msg : advances (eng_raise c msg : eng A).
Proof. intros w r w' [= _ <-]. by exists []. Qed.
Lemma advances_get : advances get_engine.
Proof. intros w r w' [= _ <-]. by exists []. Qed.
Lemma advances_bind {A B} (m : eng A) (f : A -> eng B) : advances m -> (forall a, advances (f a)) -> advances (eng_bind m f).
Proof.
  intros Hm Hf w r w'. unfold eng_bind. destruct (m w) as [[a|e] w1] eqn:Em; intros E.
  - destruct (Hm _ _ _ Em) as [o1 H1], (Hf _ _ _ _ E) as [o2 H2]. exists (o1 ++ o2). by rewrite perm_run_app, <- H1.
  - injection E as _ <-. by eapply Hm.
Qed.
Lemma advances_access {A} (f : PermissionDb -> res A * PermissionDb) :
  (forall db, exists ops, (f db).2 = perm_run db ops) -> advances (db_access f).
Proof.
  intros Hf w r w'. unfold db_access. destruct (Hf (next_db w)) as [ops Ho]. destruct (ac_outcome _).
  - destruct (f (next_db w)) as [r0 db]. cbn in Ho. intros [= _ <-].
    exists (ac_before (next_access w) ++ ops). by rewrite perm_run_app.
  - intros [= _ <-]. by exists (ac_before (next_access w)).
  - intros [= _ <-]. exists (ac_before (next_access w) ++ ops). by rewrite perm_run_app.
Qed.
Lemma advances_read {A} (f : PermissionDb -> A) : advances (db_read f).
Proof. apply advances_access. intros db. by exists []. Qed.
Ltac advance :=
  repeat lazymatch goal with
    | |- advances (eng_bind _ _) => apply advances_bind; [|intros ?]
    | |- advances (eng_lift _) => apply advances_ret
    | |- advances (eng_raise _ _) => apply advances_raise
    | |- advances get_engine => apply advances_get
    | |- advances (db_read _) => apply advances_read
    | |- advances (put_epoch _) => intros ? ? ? [= _ <-]; by exists []
    | |- advances (put_rules _) => intros ? ? ? [= _ <-]; by exists []
    | |- advances (eng_ret _) => intros ? ? ? [= _ <-]; by exists []
    | |- advances (match ?x with _ => _ end) => destruct x
    end.
Lemma advances_load : advances load_rules.
Proof.
  unfold load_rules, read_rules. advance. apply advances_access. intros db.
  exists [OpBind owner policy]. cbn. by destruct (bind_authorization_context _ _ _).
Qed.
Lemma advances_unbound : advances load_if_unbound.
Proof. unfold load_if_unbound. advance. apply advances_load. Qed.
Lemma advances_reload : advances _reload_current_rules.
Proof. unfold _reload_current_rules, read_rules. advance. Qed.
Lemma advances_check now call : advances (check now call).
Proof. unfold check, read_rules. advance. apply advances_unbound. Qed.
Lemma advances_grant now rule : advances (grant_rule now rule).
Proof.
  unfold grant_rule. advance; [|apply advances_reload]. apply advances_access. intros db.
  by exists [OpGrant now owner policy (new_rule_of a)].
Qed.
Lemma advances_revoke rule_id : advances (revoke_rule rule_id).
Proof.
  unfold revoke_rule. advance; [|apply advances_reload]. apply advances_access. intros db.
  exists [OpRevoke rule_id owner policy]. cbn. unfold en_owner. by destruct (delete_scoped _ _ _ _).
Qed.
Lemma advances_snapshot : advances authorization_snapshot.
Proof. unfold authorization_snapshot. advance. apply advances_unbound. Qed.
Lemma advances_validate epoch : advances (validate_dispatch_epoch epoch).
Proof. unfold validate_dispatch_epoch. advance. apply advances_snapshot. Qed.

(** ** The cache follows the database *)
Lemma perm_step_positive op db : positive db -> positive (perm_step db op).
Proof.
  unfold positive. intros Hp. destruct op as [now o pol n|id o pol|o pol]; cbn [perm_step].
  - unfold insert_permission_rule, transaction, _authorization_context_row.
    destruct (authorization_contexts db !! o) as [c|] eqn:E; [destruct (negb _); [done|]|]; 
      (apply map_Forall_insert_2; [cbn|done]); [specialize (Hp _ _ E); cbn in Hp; lia | lia].
  - unfold delete_scoped, _authorization_context_row. destruct (authorization_contexts db !! o) as [c|] eqn:E; [|done].
    destruct (negb _); [done|]. case_match; [done|]. cbn. apply map_Forall_insert_2; [|done].
    specialize (Hp _ _ E). cbn in *. lia.
  - unfold bind_authorization_context, _authorization_context_row.
    destruct (authorization_contexts db !! o) as [c|] eqn:E; [case_bool_decide; [done|]|]; 
      (apply map_Forall_insert_2; [cbn|done]); [specialize (Hp _ _ E); cbn in Hp; lia | lia].
Qed.
Lemma perm_run_positive ops db : positive db -> positive (perm_run db ops).
Proof. revert db. induction ops as [|op ops IH]; intros db Hp; [done|]. by apply IH, perm_step_positive. Qed.
Lemma bound_view db db' : view owner db' = view owner db -> bound db' -> bound db.
Proof. unfold view, bound, get_authorization_context, _authorization_context_row. by intros [= -> _]. Qed.

(** Operations of others keep the cache in step. *)
Lemma synced_run w ops accesses :
  synced w -> synced (MkWorld (w_engine w) (perm_run (w_db w) ops) accesses).
Proof.
  intros [Hp He Hr]. pose proof (run_epoch_le ops owner (w_db w)) as Hle. constructor; cbn.
  - by apply perm_run_positive.
  - lia.
  - intros E Hb. assert (Hv : view owner (perm_run (w_db w) ops) = view owner (w_db w)) by (apply run_same_epoch; lia).
    rewrite (current_rules_view _ _ _ _ Hv). apply Hr; [|by eapply bound_view].
    apply (f_equal fst) in Hv. cbn in Hv. unfold epoch_of in E |- *. by rewrite Hv in E.
Qed.
Lemma synced_advance {A} (m : eng A) w r w' :
  advances m -> m w = (r, w') -> w_engine w' = w_engine w -> synced w -> synced w'.
Proof.
  intros Hm E He Hs. destruct (Hm _ _ _ E) as [ops Ho]. pose proof (synced_run w ops (w_accesses w') Hs) as H1.
  destruct w'. cbn in *. by subst.
Qed.

Lemma next_db_le o (w : World) : epoch_of o (w_db w) <= epoch_of o (next_db w).
Proof. apply run_epoch_le. Qed.

(** Reading the rules of the cache's epoch brings it in step. *)
Definition refill (generation : Z) : eng unit :=
  let+ rows := read_rules generation in let+ rules := eng_lift (_materialize_rules rows) in put_rules rules.
Lemma refill_synced g w w' :
  positive (w_db w) -> en_epoch (w_engine w) = g -> g <= epoch_of owner (w_db w) -> refill g w = (Ok tt, w') ->
  synced w' /\ en_epoch (w_engine w') = g.
Proof.
  intros Hp He Hg (rows & w1 & Hr & E)%eng_bind_Ok. apply read_Ok in Hr as (_ & -> & ->).
  apply eng_bind_Ok in E as (rules & w2 & [= Hm <-] & [= <-]). split; [|done].
  pose proof (next_db_le owner w). constructor; cbn; [by apply perm_run_positive | lia |].
  intros E Hb. unfold current_rules. rewrite <- E, He. exact Hm.
Qed.
Lemma epoch_of_context db c : get_authorization_context owner db = Some c -> epoch_of owner db = ax_epoch c.
Proof. unfold get_authorization_context, _authorization_context_row, epoch_of. by intros ->. Qed.
Lemma bind_epoch db n db' : bind_authorization_context owner policy db = (n, db') ->
  epoch_of owner db' = n /\ db' = perm_run db [OpBind owner policy].
Proof.
  intros E. split; [|cbn; by rewrite E]. revert E. unfold bind_authorization_context, _authorization_context_row.
  destruct (authorization_contexts db !! owner) as [c|] eqn:Ec; [case_bool_decide|]; intros [= <- <-].
  - unfold epoch_of. by rewrite Ec.
  - apply epoch_insert.
  - apply epoch_insert.
Qed.
Lemma load_synced w w' : positive (w_db w) -> load_rules w = (Ok tt, w') -> synced w'.
Proof.
  intros Hp (n & w1 & Ha & E)%eng_bind_Ok. unfold db_access in Ha. destruct (ac_outcome _); [|done..].
  destruct (bind_authorization_context owner policy (next_db w)) as [n' db'] eqn:Eb. injection Ha as <- <-.
  apply bind_epoch in Eb as [He ->]. apply eng_bind_Ok in E as ([] & w2 & [= <-] & E).
  apply (refill_synced n') in E; [by destruct E | exact (perm_step_positive (OpBind owner policy) _ (perm_run_positive _ _ Hp)) | done|].
  cbn in He |- *. lia.
Qed.
Lemma unbound_synced w w' : synced w -> load_if_unbound w = (Ok tt, w') -> synced w'.
Proof.
  intros Hs (e & w1 & [= <- <-] & E)%eng_bind_Ok. destruct (_ =? 0).
  - eapply load_synced; [apply Hs | done].
  - by injection E as <-.
Qed.
Lemma reload_synced w w' :
  positive (w_db w) -> en_epoch (w_engine w) <= epoch_of owner (w_db w) -> _reload_current_rules w = (Ok tt, w') -> synced w'.
Proof.
  intros Hp He (e & w1 & [= <- <-] & E)%eng_bind_Ok. eapply refill_synced in E; [by destruct E|done..].
Qed.

(** What a check does after the cache is loaded *)
Definition decide_on (now : Z) (call : ToolCall) (target : string) : eng PermissionDecision :=
  let+ e := get_engine in eng_lift (evaluate_call now (en_evaluator config) (en_rules e) call target).
Definition check_loaded (now : Z) (call : ToolCall) (target : string) : eng PermissionDecision :=
  let+ context := db_read (get_authorization_context owner) in
  match bound_epoch context with
  | None => put_rules [] ;;+ eng_ret (stale_decision target)
  | Some current_epoch =>
      let+ e := get_engine in
      (if current_epoch =? en_epoch e then eng_ret tt else put_epoch current_epoch ;;+ refill current_epoch) ;;+
      decide_on now call target
  end.
Lemma check_unfold now call w :
  check now call w = (let+ target := eng_lift (call_target call) in load_if_unbound ;;+ check_loaded now call target) w.
Proof. done. Qed.

Lemma bound_epoch_Some db g : bound_epoch (get_authorization_context owner db) = Some g -> epoch_of owner db = g /\ bound db.
Proof.
  intros E. split; [|by eexists]. unfold bound_epoch in E. destruct (get_authorization_context owner db) eqn:Ec; [|done].
  case_bool_decide; [|done]. injection E as <-. by apply epoch_of_context.
Qed.
Lemma bound_epoch_None db : bound_epoch (get_authorization_context owner db) = None -> ~ bound db.
Proof. intros E [g Hg]. congruence. Qed.

Lemma check_loaded_synced now call target w d w' :
  synced w -> check_loaded now call target w = (Ok d, w') -> synced w'.
Proof.
  intros Hs (c & w1 & (_ & -> & ->)%read_Ok & E)%eng_bind_Ok.
  pose proof (synced_run w (ac_before (next_access w)) (tl (w_accesses w)) Hs) as H1. fold (next_db w) in H1.
  destruct (bound_epoch _) as [g|] eqn:Eb.
  - apply bound_epoch_Some in Eb as [Hg Hb]. apply eng_bind_Ok in E as (e & w2 & [= <- <-] & E).
    apply eng_bind_Ok in E as ([] & w3 & E3 & E). apply eng_bind_Ok in E as (e4 & w4 & [= <- <-] & [= _ <-]).
    destruct (g =? _) eqn:Eg; [by injection E3 as <-|].
    apply eng_bind_Ok in E3 as ([] & w5 & [= <-] & E3). apply (refill_synced g) in E3; cbn; [by destruct E3 | apply H1 | done | lia].
  - apply bound_epoch_None in Eb. apply eng_bind_Ok in E as ([] & w2 & [= <-] & [= _ <-]).
    destruct H1 as [Hp He Hr]. by constructor.
Qed.
Lemma check_synced now call w d w' : synced w -> check now call w = (Ok d, w') -> synced w'.
Proof.
  intros Hs E. rewrite check_unfold in E. apply eng_bind_Ok in E as (t & w1 & [= _ <-] & E).
  apply eng_bind_Ok in E as ([] & w2 & E1 & E). eapply check_loaded_synced; [|done]. by eapply unbound_synced.
Qed.
(** After the context is read, its epoch is the database's. *)
Lemma context_reload_synced g w c w1 w' :
  positive (w_db w) -> db_read (get_authorization_context owner) w = (Ok c, w1) -> from_option ax_epoch 0 c = g ->
  (put_epoch g ;;+ _reload_current_rules) w1 = (Ok tt, w') -> synced w'.
Proof.
  intros Hp (_ & -> & ->)%read_Ok <- ([] & w2 & [= <-] & E)%eng_bind_Ok.
  eapply reload_synced; [..|done]; cbn; [by apply perm_run_positive|].
  unfold get_authorization_context, _authorization_context_row, epoch_of. done.
Qed.
Lemma advance_positive {A} (m : eng A) w r w' : advances m -> m w = (r, w') -> positive (w_db w) -> positive (w_db w').
Proof. intros Hm [ops ->]%Hm. apply perm_run_positive. Qed.
Lemma grant_synced now rule w r w' : positive (w_db w) -> grant_rule now rule w = (Ok r, w') -> synced w'.
Proof.
  intros Hp. unfold grant_rule. intros (rule' & w1 & [= _ <-] & E)%eng_bind_Ok.
  apply eng_bind_Ok in E as ([] & w1 & [= _ <-] & E). apply eng_bind_Ok in E as (id & w2 & E2 & E).
  apply (advance_positive _ _ _ _ ltac:(apply advances_access; intros db; by exists [OpGrant now owner policy (new_rule_of rule')])) in E2;
    [|done].
  apply eng_bind_Ok in E as (c & w3 & E3 & E). destruct c as [c|]; [|done].
  apply eng_bind_Ok in E as ([] & w4 & E4 & E). apply eng_bind_Ok in E as ([] & w5 & E5 & E).
  apply eng_bind_Ok in E as (e & w6 & [= <- <-] & E).
  assert (Hs : synced w5).
  { eapply (context_reload_synced (ax_epoch c)); [done | done | done|]. apply eng_bind_Ok. by exists tt, w4. }
  destruct (List.find _ _); [|done]. by injection E as _ <-.
Qed.
Lemma revoke_synced id w w' : positive (w_db w) -> revoke_rule id w = (Ok tt, w') -> synced w'.
Proof.
  intros Hp. unfold revoke_rule. intros (n & w1 & E1 & E)%eng_bind_Ok.
  apply advance_positive in E1; [|apply advances_access; intros db; exists [OpRevoke id owner policy]; cbn; unfold en_owner;
    by destruct (delete_scoped _ _ _ _)|done].
  destruct (n =? 0); [done|]. apply eng_bind_Ok in E as (c & w2 & E2 & E). by eapply context_reload_synced.
Qed.
Lemma snapshot_synced w e w' : synced w -> authorization_snapshot w = (Ok e, w') -> synced w'.
Proof.
  intros Hs ([] & w1 & E1 & E)%eng_bind_Ok. pose proof (unbound_synced _ _ Hs E1) as H1.
  apply eng_bind_Ok in E as (c & w2 & (_ & -> & ->)%read_Ok & E). destruct (bound_epoch _); [|done]. injection E as _ <-.
  by apply synced_run.
Qed.

Lemma step_advances w w' : engine_step w w' -> exists ops, w_db w' = perm_run (w_db w) ops.
Proof.
  destruct 1 as [ops w|acc w|w r w' E _|now call w r w' E _|now rule w r w' E _|id w r w' E _|w r w' E _|e w r w' E _].
  - by exists ops.
  - by exists [].
  - by eapply advances_load.
  - by eapply advances_check.
  - by eapply advances_grant.
  - by eapply advances_revoke.
  - by eapply advances_snapshot.
  - by eapply advances_validate.
Qed.
Lemma validate_epoch_Ok e w w' : validate_dispatch_epoch e w = (Ok tt, w') -> authorization_snapshot w = (Ok e, w').
Proof.
  intros (g & w1 & E1 & E)%eng_bind_Ok. destruct (g =? e) eqn:Eg; [|done]. injection E as <-.
  apply Z.eqb_eq in Eg. by subst.
Qed.
(** A call that raised without touching the engine keeps the cache in step. *)
Lemma completed_synced {A} (m : eng A) w r w' :
  advances m -> (forall a, r = Ok a -> synced w') -> synced w -> m w = (r, w') -> completed r w w' -> synced w'.
Proof.
  intros Hm Hok Hs E [Hc|Hc]; [|by eapply synced_advance]. destruct r as [a|]; [|done]. by eapply Hok.
Qed.
Lemma step_synced w w' : engine_step w w' -> synced w -> synced w'.
Proof.
  intros Hst Hs. destruct Hst as [ops w|acc w|w r w' E C|now call w r w' E C|now rule w r w' E C|id w r w' E C|w r w' E C|e w r w' E C].
  - by apply synced_run.
  - exact (synced_run w [] acc Hs).
  - eapply completed_synced; [apply advances_load| |done..]. intros [] ->. eapply load_synced; [apply Hs | done].
  - eapply completed_synced; [apply advances_check| |done..]. intros d ->. by eapply check_synced.
  - eapply completed_synced; [apply advances_grant| |done..]. intros d ->. eapply grant_synced; [apply Hs | done].
  - eapply completed_synced; [apply advances_revoke| |done..]. intros [] ->. eapply revoke_synced; [apply Hs | done].
  - eapply completed_synced; [apply advances_snapshot| |done..]. intros g ->. by eapply snapshot_synced.
  - eapply completed_synced; [apply advances_validate| |done..]. intros [] ->. eapply snapshot_synced; [done | by apply validate_epoch_Ok].
Qed.
Lemma steps_advance w w' : rtc engine_step w w' -> exists ops, w_db w' = perm_run (w_db w) ops.
Proof.
  induction 1 as [w|w1 w2 w3 H12 _ [ops IH]]; [by exists []|]. destruct (step_advances _ _ H12) as [o1 H1].
  exists (o1 ++ ops). by rewrite perm_run_app, <- H1.
Qed.
Lemma steps_synced w w' : rtc engine_step w w' -> synced w -> synced w'.
Proof. induction 1; eauto using step_synced. Qed.
Lemma empty_positive : positive empty_permissions.
Proof. apply map_Forall_empty. Qed.
Lemma new_engine_synced db accesses : positive db -> synced (MkWorld new_engine db accesses).
Proof.
  intros Hp. assert (H0 : forall c, get_authorization_context owner db = Some c -> 0 < ax_epoch c) by (intros c Hc; exact (Hp _ _ Hc)).
  unfold get_authorization_context, _authorization_context_row in H0. constructor; cbn; [done|..]; unfold epoch_of.
  - destruct (authorization_contexts db !! owner) as [c|] eqn:E; cbn; [|lia]. specialize (H0 _ eq_refl). lia.
  - intros E [g Hg]. unfold bound_epoch, get_authorization_context, _authorization_context_row in Hg.
    destruct (authorization_contexts db !! owner) as [c|] eqn:Ec; [|done]. specialize (H0 _ eq_refl). cbn in E. lia.
Qed.
Lemma reachable_synced w : reachable w -> synced w.
Proof.
  intros (ops & acc & Hr). eapply steps_synced; [done|]. apply new_engine_synced, perm_run_positive, empty_positive.
Qed.
Lemma reachable_db w : reachable w -> exists ops, w_db w = perm_run empty_permissions ops.
Proof.
  intros (ops & acc & Hr). destruct (steps_advance _ _ Hr) as [o Ho]. exists (ops ++ o). by rewrite perm_run_app.
Qed.

(** The rules an engine keeps are the current ones whenever its epoch is.  In
    every history of an engine (loads, checks, grants, revocations, snapshots and
    dispatch validations, one after the other, each interrupted at every database
    access by operations of other engines, as long as no reload fails half-way),
    the engine holds, when its epoch is the database's, exactly the rules of its owner and
    policy at that epoch, validated and in order. *)
Theorem cached_rules_are_current (w : World) (Hw : reachable w)
  (Hepoch : en_epoch (w_engine w) = epoch_of owner (w_db w)) (Hbound : bound (w_db w)) :
  _materialize_rules (current_rules owner policy (w_db w)) = Ok (en_rules (w_engine w)).
Proof. by apply (sync_rules _ (reachable_synced _ Hw)). Qed.

Lemma refill_quiet g w :
  next_access w = quiet_access ->
  refill g w = (match _materialize_rules (list_permission_rules (Some (en_principal_id config)) (Some (en_project_id config)) (Some policy) (Some g) (w_db w)) with
                | Ok rules => (Ok tt, MkWorld (MkEngine rules (en_epoch (w_engine w))) (w_db w) (tl (w_accesses w)))
                | Raise e => (Raise e, MkWorld (w_engine w) (w_db w) (tl (w_accesses w)))
                end).
Proof.
  intros Hq. unfold refill, read_rules, db_read, db_access, eng_bind, next_db. rewrite Hq. cbn.
  by destruct (_materialize_rules _).
Qed.

(** C12. A check decides on the rules of the moment.  For an engine whose calls so far
    did not overlap and each returned or left it unchanged ([reachable]), whose
    initial load works, and provided the context read works and the read of the rules
    works with no operation of another engine between the two reads ([Hread],
    [Hquiet]): a check answers as the evaluator does on the rules the owner has in
    the database when the authorization context is read, whatever the engine had
    cached before and whoever changed the rules before that read; when the policy of
    the owner is no longer the engine's, it denies.  Without the two conditions it
    need not: [concurrent_grant_hides_deny_rule], [failed_reload_revives_revoked_rule]. *)
Theorem check_decides_on_current_rules (w w1 : World) (now : Z) (call : ToolCall) (target : string)
  (Hw : reachable w) (Hload : load_if_unbound w = (Ok tt, w1)) (Htarget : call_target call = Ok target)
  (Hread : ac_outcome (next_access w1) = Works) (Hquiet : hd quiet_access (tl (w_accesses w1)) = quiet_access) :
  (check now call w).1 =
    match bound_epoch (get_authorization_context owner (next_db w1)) with
    | None => Ok (stale_decision target)
    | Some _ =>
        let* rules := _materialize_rules (current_rules owner policy (next_db w1)) in
        evaluate_call now (en_evaluator config) rules call target
    end.
Proof.
  pose proof (unbound_synced _ _ (reachable_synced _ Hw) Hload) as Hs.
  rewrite check_unfold. unfold eng_bind at 1. rewrite Htarget. unfold eng_lift at 1, eng_bind at 1. rewrite Hload.
  unfold check_loaded, eng_bind at 1, db_read, db_access. rewrite Hread.
  destruct (bound_epoch _) as [g|] eqn:Eb; [|done].
  apply bound_epoch_Some in Eb as [Hg Hb].
  pose proof (synced_run w1 (ac_before (next_access w1)) (tl (w_accesses w1)) Hs) as [_ _ Hr]. change (perm_run (w_db w1) (ac_before (next_access w1))) with (next_db w1) in Hr.
  cbn in Hr. unfold eng_bind at 1, get_engine. cbn [w_engine]. destruct (g =? en_epoch (w_engine w1)) eqn:Eg.
  - rewrite Hr by (done || lia). done.
  - unfold eng_bind at 1. unfold eng_bind at 1. unfold put_epoch, modify. cbn [put_engine w_engine w_db w_accesses]. rewrite refill_quiet by exact Hquiet.
    unfold current_rules. rewrite Hg. cbn [w_db en_owner fst snd]. 
    match goal with |- _ = res_bind ?m _ => destruct m; reflexivity end.
Qed.

(** ** Revoked rules *)
(** No rule has this identity, and none will. *)
Definition gone (id : Z) (db : PermissionDb) : Prop :=
  id <= permission_seq db /\ Forall (fun r => pr_id r ≠ id) (permissions db).
Lemma gone_confirm id o pol epoch l : Forall (fun r => pr_id r ≠ id) l -> Forall (fun r => pr_id r ≠ id) (confirm_rows o pol epoch l).
Proof. intros Hl. apply Forall_fmap. eapply Forall_impl; [exact Hl|]. intros r Hr. cbn. by case_match. Qed.
Lemma Forall_List_filter {A} (P : A -> Prop) p l : Forall P l -> Forall P (List.filter p l).
Proof. rewrite !Forall_forall. intros Hl x [Hx _]%list_elem_of_In%List.filter_In. by apply Hl, list_elem_of_In. Qed.
Lemma perm_step_gone op id db : gone id db -> gone id (perm_step db op).
Proof.
  intros [Hi Hl]. destruct op as [now o pol n|i o pol|o pol]; cbn [perm_step].
  - unfold insert_permission_rule, transaction.
    destruct (_authorization_context_row o db) as [c|]; [destruct (negb _); [done|]|];
      (split; cbn; [lia | apply Forall_app; split; [by apply gone_confirm | repeat constructor; cbn; lia]]).
  - unfold delete_scoped. destruct (_authorization_context_row o db) as [c|]; [|done]. destruct (negb _); [done|].
    case_match; [done|]. split; cbn; [done|]. by apply gone_confirm, Forall_List_filter.
  - unfold bind_authorization_context. destruct (_authorization_context_row o db) as [c|]; [case_bool_decide|]; done.
Qed.
Lemma perm_run_gone ops id db : gone id db -> gone id (perm_run db ops).
Proof. revert db. induction ops as [|op ops IH]; intros db Hg; [done|]. by apply IH, perm_step_gone. Qed.
Lemma delete_gone id o pol db count db' : perm_ok db -> delete_scoped id o pol db = (count, db') -> count ≠ 0 -> gone id db'.
Proof.
  intros (Hnd & Hid & _). unfold delete_scoped. destruct (_authorization_context_row o db) as [c|]; [|by intros [= <- _]].
  destruct (negb _); [by intros [= <- _]|]. destruct (_ =? 0) eqn:E0; intros [= <- <-]; [done|]. intros Hc.
  destruct (List.filter _ (permissions db)) as [|r l] eqn:Ef; [done|].
  assert (Hr : r ∈ List.filter (fun r => (pr_id r =? id) && owned_row o pol r) (permissions db)) by (rewrite Ef; left).
  apply list_elem_of_In, List.filter_In in Hr as [Hin%list_elem_of_In [Hi%Z.eqb_eq Ho]%andb_true_iff].
  split; cbn; [rewrite Forall_forall in Hid; specialize (Hid _ Hin); lia|].
  apply gone_confirm, Forall_forall. intros s [Hs Hn]%list_elem_of_In%List.filter_In E. apply list_elem_of_In in Hs.
  assert (s = r) as ->.
  { apply list_elem_of_lookup in Hs as [i Hi1], Hin as [j Hj].
    assert (i = j); [|congruence]. eapply (NoDup_lookup _ _ _ (pr_id r) Hnd); rewrite list_lookup_fmap.
    - rewrite Hi1. cbn. congruence.
    - by rewrite Hj. }
  by rewrite E, Z.eqb_refl, Ho in Hn.
Qed.
Lemma list_rules_gone id p j d g db : gone id db -> Forall (fun r => pr_id r ≠ id) (list_permission_rules p j d g db).
Proof.
  intros [_ Hl]. unfold list_permission_rules, newest_first. apply Forall_forall. intros r Hr.
  rewrite sorted_by_perm in Hr. apply list_elem_of_In, List.filter_In in Hr as [Hr _]. apply list_elem_of_In in Hr.
  rewrite Forall_forall in Hl. by apply Hl.
Qed.
Lemma materialize_ids id rows rules :
  _materialize_rules rows = Ok rules -> Forall (fun r => pr_id r ≠ id) rows -> Forall (fun r => ru_id r ≠ Some id) rules.
Proof.
  revert rules. induction rows as [|row rows IH]; intros rules E Hl; [by injection E as <-|]. apply Forall_cons in Hl as [Hrow Hl].
  cbn [_materialize_rules] in E. destruct (materialize_row row) as [found|] eqn:Em; [|done]. cbn in E.
  destruct (_materialize_rules rows) as [rest|]; [|done]. cbn in E. injection E as <-. specialize (IH _ eq_refl Hl).
  destruct found as [rule|]; [|done]. constructor; [|done]. unfold materialize_row in Em.
  inv_res. destruct x0 as [res|]; [|done]. destruct (validate_rule_scope _); cbn in *; [|repeat case_match; done].
  injection Em as <-. cbn. congruence.
Qed.
Lemma refill_ids id g w w' :
  gone id (w_db w) -> refill g w = (Ok tt, w') -> Forall (fun r => ru_id r ≠ Some id) (en_rules (w_engine w')).
Proof.
  intros Hg (rows & w1 & (_ & -> & ->)%read_Ok & E)%eng_bind_Ok. apply eng_bind_Ok in E as (rules & w2 & [= Hm <-] & [= <-]).
  cbn. eapply materialize_ids; [done|]. by apply list_rules_gone, perm_run_gone.
Qed.
Lemma check_loaded_ids id now call target w d w' :
  synced w -> gone id (w_db w) -> check_loaded now call target w = (Ok d, w') ->
  match pd_matched_rule d with Some r => ru_id r ≠ Some id | None => True end.
Proof.
  intros Hs Hgone (c & w1 & (_ & -> & ->)%read_Ok & E)%eng_bind_Ok.
  pose proof (synced_run w (ac_before (next_access w)) (tl (w_accesses w)) Hs) as [_ _ Hr]. cbn in Hr.
  change (perm_run (w_db w) (ac_before (next_access w))) with (next_db w) in Hr.
  assert (Hgone1 : gone id (next_db w)) by by apply perm_run_gone.
  destruct (bound_epoch _) as [g|] eqn:Eb.
  - apply bound_epoch_Some in Eb as [Hg Hb]. apply eng_bind_Ok in E as (e & w2 & [= <- <-] & E).
    apply eng_bind_Ok in E as ([] & w3 & E3 & E).
    assert (Hids : Forall (fun r => ru_id r ≠ Some id) (en_rules (w_engine w3))).
    { destruct (g =? _) eqn:Eg.
      - injection E3 as <-. cbn in Eg |- *. eapply materialize_ids; [apply Hr; [lia | done]|]. by apply list_rules_gone.
      - apply eng_bind_Ok in E3 as ([] & w5 & [= <-] & E3). by eapply refill_ids in E3. }
    apply eng_bind_Ok in E as (e4 & w4 & [= <- <-] & [= Ev <-]).
    unfold evaluate_call in Ev. destruct (policy_asks _ _); [by injection Ev as <-|].
    destruct (read_only_terminal call); cbn in Ev; [|done].
    destruct (first_match _ _ _ _) as [[rule|]|] eqn:Ef; cbn in Ev; [| |done].
    + injection Ev as <-. cbn. apply first_match_some in Ef as (b & af & Heq & _). rewrite Heq in Hids.
      apply Forall_app in Hids as [_ Hids]. by apply Forall_inv in Hids.
    + destruct a; injection Ev as <-; [done|]. by destruct (ec_default_mode _).
  - apply eng_bind_Ok in E as ([] & w2 & _ & [= <- _]). done.
Qed.

(** A revoked rule does not decide again, as long as the calls of the deciding engine
    do not overlap and none of them raised half-way through a reload.  Once a
    revocation by any engine of any owner has removed a rule, no check of such an
    engine is decided by it, whatever the engine had cached before and however the
    check's database accesses interleave with operations of other engines. *)
Theorem revoked_rule_never_decides (w w2 w3 : World) (id : Z) (o : Owner) (pol : string) (count : Z) (db : PermissionDb)
  (accesses : list Access) (now : Z) (call : ToolCall) (d : PermissionDecision)
  (Hw : reachable w) (Hrevoke : delete_scoped id o pol (w_db w) = (count, db)) (Hcount : count ≠ 0)
  (Hsteps : rtc engine_step (MkWorld (w_engine w) db accesses) w2) (Hcheck : check now call w2 = (Ok d, w3)) :
  match pd_matched_rule d with Some r => ru_id r ≠ Some id | None => True end.
Proof.
  destruct (reachable_db _ Hw) as [ops Hdb].
  assert (Hg : gone id db). { eapply delete_gone; [|done..]. rewrite Hdb. apply perm_run_ok, empty_permissions_ok. }
  assert (Hs : synced (MkWorld (w_engine w) db accesses)).
  { pose proof (synced_run w [OpRevoke id o pol] accesses (reachable_synced _ Hw)) as Hs. cbn in Hs. by rewrite Hrevoke in Hs. }
  destruct (steps_advance _ _ Hsteps) as [ops2 H2]. apply (steps_synced _ _ Hsteps) in Hs.
  apply (perm_run_gone ops2) in Hg. cbn in H2. rewrite <- H2 in Hg.
  rewrite check_unfold in Hcheck. apply eng_bind_Ok in Hcheck as (t & w1 & [= _ <-] & E).
  apply eng_bind_Ok in E as ([] & w4 & E1 & E). eapply check_loaded_ids; [by eapply unbound_synced| |done].
  destruct (advances_unbound _ _ _ E1) as [o4 ->]. by apply perm_run_gone.
Qed.

Lemma snapshot_view w e w' :
  authorization_snapshot w = (Ok e, w') -> epoch_of owner (w_db w') = e /\ bound (w_db w').
Proof.
  intros ([] & w1 & _ & E)%eng_bind_Ok. apply eng_bind_Ok in E as (c & w2 & (_ & -> & ->)%read_Ok & E).
  destruct (bound_epoch _) eqn:Eb; [|done]. injection E as <- <-. by apply bound_epoch_Some.
Qed.
(** C11. A dispatch that validates the epoch of its snapshot runs under the authority
    of the snapshot.  Whatever the memory of the engine holds at the snapshot and at
    the validation (earlier calls may have overlapped or failed), and whatever
    grants, revocations and policy bindings any engine made in between: if the
    validation accepts the epoch the snapshot returned, then in the database at the
    moment of the validation the owner is bound to the engine's policy and has the
    same authorization context, the same rule rows and the same current rules as at
    the moment of the snapshot. *)
Theorem dispatch_epoch_pins_authority (w w1 w2 w3 : World) (epoch : Z) (ops : list perm_op)
  (Hsnapshot : authorization_snapshot w = (Ok epoch, w1)) (Hlater : w_db w2 = perm_run (w_db w1) ops)
  (Hvalid : validate_dispatch_epoch epoch w2 = (Ok tt, w3)) :
  bound (w_db w3)
  /\ get_authorization_context owner (w_db w3) = get_authorization_context owner (w_db w1)
  /\ rows_of owner (w_db w3) = rows_of owner (w_db w1)
  /\ current_rules owner policy (w_db w3) = current_rules owner policy (w_db w1).
Proof.
  destruct (snapshot_view _ _ _ Hsnapshot) as [He _]. apply validate_epoch_Ok in Hvalid.
  destruct (snapshot_view _ _ _ Hvalid) as [He3 Hb3]. destruct (advances_snapshot _ _ _ Hvalid) as [o3 H3].
  rewrite Hlater, <- perm_run_app in H3.
  assert (Hv : view owner (w_db w3) = view owner (w_db w1)) by (rewrite H3; apply run_same_epoch; rewrite <- H3; lia).
  split_and!; [done | exact (f_equal fst Hv) | exact (f_equal snd Hv) | by apply current_rules_view].
Qed.
End Engine.

(** ** Instances *)
Module EngineExample.
Import PermissionRules.Example EvaluatorExample.
Definition alice : EngineConfig := mk_engine_config ASK_EVERY None None "alice" "p" "d1".
Definition cat_call : ToolCall := call "terminal" [("command", PStr "cat notes")].
Definition deny_cat : NewRule := new_rule_of (rule DENY "cat *" "" []).
Definition other_rule : NewRule := new_rule_of (rule DENY "curl *" "" []).
Definition make_grant : NewRule := new_rule_of make_rule.
Definition grant (n : NewRule) : perm_op := OpGrant 5 ("alice", "p") "d1" n.
Definition revoke (id : Z) : perm_op := OpRevoke id ("alice", "p") "d1".
Definition quiet_ops (ops : list perm_op) : Access := MkAccess ops Works.
(** An engine that has loaded the rules of a database *)
Definition loaded (ops : list perm_op) (accesses : list Access) : World :=
  let w := (load_rules alice (MkWorld new_engine (perm_run empty_permissions ops) [])).2 in
  MkWorld (w_engine w) (w_db w) accesses.
Definition approved (r : res PermissionDecision * World) : option ApprovalMode :=
  match r.1 with Ok d => Some (pd_approved d) | Raise _ => None end.
End EngineExample.

Import PermissionRules.Example EvaluatorExample EngineExample.
Lemma loaded_reachable ops accesses :
  is_ok (load_rules alice (MkWorld new_engine (perm_run empty_permissions ops) [])).1 = true -> reachable alice (loaded ops accesses).
Proof.
  intros Hok. exists ops, []. eapply rtc_l; [eapply step_load; [apply surjective_pairing | by left]|].
  eapply rtc_l; [apply (step_schedule alice accesses) | apply rtc_refl].
Qed.
Lemma cached_rules_are_current_witness :
  en_rules (w_engine (loaded [grant deny_cat] [])) ≠ []
  /\ _materialize_rules (current_rules ("alice", "p") "d1" (w_db (loaded [grant deny_cat] [])))
     = Ok (en_rules (w_engine (loaded [grant deny_cat] []))).
Proof.
  split; [by vm_compute|]. apply (cached_rules_are_current alice).
  - apply loaded_reachable. vm_compute. reflexivity.
  - vm_compute. reflexivity.
  - exists 1. vm_compute. reflexivity.
Defined.
Lemma check_decides_on_current_rules_witness :
  let w := loaded [grant make_grant] [quiet_ops [grant deny_cat]] in
  (check alice 9 cat_call w).1
  = (let* rules := _materialize_rules (current_rules ("alice", "p") "d1" (next_db w)) in
     evaluate_call 9 (en_evaluator alice) rules cat_call "cat notes")
  /\ approved (check alice 9 cat_call w) = Some DENY.
Proof.
  intros w. split; [|vm_compute; reflexivity].
  pose proof (check_decides_on_current_rules alice w w 9 cat_call "cat notes"
    ltac:(apply loaded_reachable; vm_compute; reflexivity) ltac:(vm_compute; reflexivity) ltac:(vm_compute; reflexivity)
    eq_refl eq_refl) as E.
  replace (bound_epoch alice (get_authorization_context (en_owner alice) (next_db w))) with (Some 2) in E
    by (vm_compute; reflexivity).
  exact E.
Defined.
Lemma revoked_rule_never_decides_witness :
  let w := loaded [grant make_grant] [] in
  let w2 := MkWorld (w_engine w) (perm_run (w_db w) [revoke 1]) [] in
  approved (check alice 9 make_call w) = Some AUTO_APPROVE
  /\ match (check alice 9 make_call w2).1 with
     | Ok d => match pd_matched_rule d with Some r => ru_id r ≠ Some 1 | None => True end
     | Raise _ => False
     end.
Proof.
  intros w w2. split; [vm_compute; reflexivity|].
  destruct (check alice 9 make_call w2) as [[d|e] w3] eqn:E; [|vm_compute in E; discriminate E].
  apply (revoked_rule_never_decides alice w w2 w3 1 ("alice", "p") "d1" 1 (perm_run (w_db w) [revoke 1]) [] 9 make_call d);
    [apply loaded_reachable; vm_compute; reflexivity | vm_compute; reflexivity | done | apply rtc_refl | exact E].
Defined.
Lemma dispatch_epoch_pins_authority_witness :
  let w1 := (authorization_snapshot alice (loaded [grant deny_cat] [])).2 in
  let w2 := MkWorld (w_engine w1) (perm_run (w_db w1) [OpGrant 6 ("bob", "p") "d9" deny_cat]) [] in
  let w3 := (validate_dispatch_epoch alice 1 w2).2 in
  permissions (w_db w3) ≠ permissions (w_db w1)
  /\ current_rules ("alice", "p") "d1" (w_db w3) = current_rules ("alice", "p") "d1" (w_db w1).
Proof.
  intros w1 w2 w3. split; [by vm_compute|].
  refine (proj2 (proj2 (proj2 (dispatch_epoch_pins_authority alice (loaded [grant deny_cat] []) w1 w2 w3 1
    [OpGrant 6 ("bob", "p") "d9" deny_cat] _ eq_refl _)))); vm_compute; reflexivity.
Defined.

(** ** Where a decision misses a rule *)
(** The epoch is kept before the rules of that epoch are read.  When the read fails,
    or is cancelled, the check raises, but the next one finds its epoch current and
    decides on the rules of the earlier epoch: a revoked rule still approves. *)
Theorem failed_reload_revives_revoked_rule :
  let w := loaded [grant make_grant] [quiet_ops [revoke 1]; MkAccess [] FailsBefore] in
  let w' := (check alice 9 make_call w).2 in
  approved (check alice 9 make_call w) = None
  /\ permissions (w_db w') = []
  /\ approved (check alice 9 make_call w') = Some AUTO_APPROVE.
Proof. vm_compute. done. Qed.
(** A check up to the point where it awaits the rules of a new epoch *)
Definition check_awaiting_rules (config : EngineConfig) : eng unit :=
  let+ context := db_read (get_authorization_context (en_owner config)) in
  match bound_epoch config context with Some epoch => put_epoch epoch | None => eng_ret tt end.
(** While a check awaits the rules of the new epoch, the engine has that epoch and the
    old rules.  A second check of the same engine that starts then finds its epoch
    current and does not read the rules: a revoked rule still approves. *)
Theorem overlapping_check_uses_revoked_rule :
  let w := loaded [grant make_grant] [quiet_ops [revoke 1]] in
  let w' := (check_awaiting_rules alice w).2 in
  permissions (w_db w') = []
  /\ approved (check alice 9 make_call w') = Some AUTO_APPROVE.
Proof. vm_compute. done. Qed.
(** A grant of another engine between the reads of the context and of the rules moves
    every rule to the next epoch; the check finds no rule, and a rule that denies the
    call is missed. *)
Theorem concurrent_grant_hides_deny_rule :
  approved (check alice 9 cat_call (loaded [grant deny_cat] [])) = Some DENY
  /\ approved (check alice 9 cat_call (loaded [grant deny_cat] [quiet_ops [grant other_rule]; quiet_access])) = Some DENY
  /\ approved (check alice 9 cat_call (loaded [grant deny_cat] [quiet_ops [grant other_rule]; quiet_ops [grant other_rule]]))
     = Some AUTO_APPROVE.
Proof. vm_compute. done. Qed.
(** The snapshot that a dispatch validates is taken after the check: a rule that
    denies the call and is granted in between is not noticed. *)
Theorem change_before_snapshot_unnoticed :
  let w := loaded [] [quiet_access] in
  let w1 := (check alice 9 cat_call w).2 in
  let w2 := MkWorld (w_engine w1) (perm_run (w_db w1) [grant deny_cat]) [] in
  let '(epoch, w3) := authorization_snapshot alice w2 in
  approved (check alice 9 cat_call w) = Some AUTO_APPROVE
  /\ match epoch with Ok e => (validate_dispatch_epoch alice e w3).1 | Raise x => Raise x end = Ok tt
  /\ approved (check alice 9 cat_call w3) = Some DENY.
Proof. vm_compute. done. Qed.
