(* ===== verification/SchedulerStore.v ===== *)
(** * Scheduled tasks in the database ([db/repositories/scheduler.py])

    The tables [scheduled_tasks] and [scheduler_operation_journal] with the
    operations of [SchedulerRepository]; the project-scoped adapter of
    [scheduler/repository.py] only passes them on.  A task that runs has a claim
    (the identity of one execution) and a lease; control operations advance a
    lifecycle version that every later write has to know.

    Not modelled are the two triggers of the schema that mark rows of the principal
    [legacy] as failed and unclaimed whenever they are written: the statements are
    about tasks with an authenticated owner.  Each operation is one transaction.
    Instants are microseconds of naive UTC time;
    the columns hold their ISO texts, which are ordered like the instants. *)
From S2P Require Import Prelude PyStr Json.
Open Scope Z_scope.

(** ** Tables *)
(** A [datetime]: without or with a time zone *)
Inductive pydatetime := Naive (us : Z) | Aware (us : Z).
#[export] Instance pydatetime_eq_dec : EqDecision pydatetime.
Proof. solve_decision. Defined.

Record SchedRow := MkSchedRow {
  sr_id : string; sr_name : string; sr_prompt : string; sr_status : string; sr_schedule_config : string;
  sr_deliver_to : string; sr_meta : string; sr_last_run : option pydatetime; sr_next_run : option pydatetime;
  sr_run_count : Z; sr_last_result : option string; sr_error : option string; sr_lifecycle_version : Z;
  sr_principal_id : string; sr_execution_id : option string; sr_lease_until : option Z; sr_policy_digest : string;
  sr_project_id : string
}.
Record JournalEntry := MkJournal {
  je_seq : Z; je_operation_id : string; je_task_id : string; je_operation_type : string; je_desired_status : string;
  je_expected_version : Z; je_target_version : Z; je_principal_id : string; je_policy_digest : string;
  je_project_id : string; je_created_at : Z; je_applied_at : option Z
}.
(** Rows in the order of their creation *)
Record SchedDb := MkSchedDb { sd_tasks : list SchedRow; sd_journal : list JournalEntry; sd_seq : Z }.
Definition empty_sched : SchedDb := MkSchedDb [] [] 0.

(** [UPDATE scheduled_tasks SET ... WHERE ...]: the number of rows and the table *)
Definition update_where (p : SchedRow -> bool) (f : SchedRow -> SchedRow) (db : SchedDb) : Z * SchedDb :=
  (Z.of_nat (length (List.filter p (sd_tasks db))),
   MkSchedDb ((fun r => if p r then f r else r) <$> sd_tasks db) (sd_journal db) (sd_seq db)).

(** The columns an update may set; [None] leaves the column *)
Record Changes := MkChanges {
  ch_last_run : option pydatetime; ch_next_run : option pydatetime; ch_run_count : option Z;
  ch_last_result : option string; ch_error : option string
}.
Definition no_changes : Changes := MkChanges None None None None None.
Definition or_old {A} (new : option A) (old : A) : A := default old new.
Definition or_old_opt {A} (new old : option A) : option A := match new with Some _ => new | None => old end.
(** [SET status, lifecycle_version, execution_id, lease_until] and the given columns *)
Definition set_columns (status : string) (version : Z) (execution : option string) (lease : option Z) (c : Changes)
    (r : SchedRow) : SchedRow :=
  MkSchedRow (sr_id r) (sr_name r) (sr_prompt r) status (sr_schedule_config r) (sr_deliver_to r) (sr_meta r)
    (or_old_opt (ch_last_run c) (sr_last_run r)) (or_old_opt (ch_next_run c) (sr_next_run r))
    (or_old (ch_run_count c) (sr_run_count r)) (or_old_opt (ch_last_result c) (sr_last_result r))
    (or_old_opt (ch_error c) (sr_error r)) version (sr_principal_id r) execution lease (sr_policy_digest r) (sr_project_id r).
Definition is_id (task_id : string) (r : SchedRow) : bool := bool_decide (sr_id r = task_id).
Definition has_version (version : Z) (r : SchedRow) : bool := sr_lifecycle_version r =? version.
Definition has_status (status : string) (r : SchedRow) : bool := bool_decide (sr_status r = status).
Definition opt_matches (filter : option string) (value : string) : bool :=
  match filter with None => true | Some x => bool_decide (value = x) end.

(** ** Operations *)
(** [json.dumps(value, ensure_ascii=False)]: keys in their order *)
Fixpoint dumps_in_order (v : pyval) : string :=
  match v with
  | PNone => "null"
  | PBool true => "true"
  | PBool false => "false"
  | PInt z => Z_to_dec z
  | PFloat lit => lit
  | PStr s => encode_str s
  | PList l => "[" +:+ join ", " (dumps_in_order <$> l) +:+ "]"
  | PDict d => "{" +:+ join ", " ((fun kv => encode_str kv.1 +:+ ": " +:+ dumps_in_order kv.2) <$> d) +:+ "}"
  end.
(** [_schedule_to_dict] of a [ScheduleConfig] is the dictionary of its fields. *)
Definition insert_scheduled_task (task_id name prompt status : string) (schedule : list (string * pyval)) (deliver_to : string)
    (meta : list (string * pyval)) (principal_id : string) (next_run : option pydatetime) (project_id policy_digest : string)
    : SchedDb -> res string * SchedDb :=
  transaction (fun db =>
    if str_empty principal_id then (Raise (Exn ValueError "principal_id is required for scheduled task creation"), db)
    else if existsb (is_id task_id) (sd_tasks db) then (Raise (Exn SqliteIntegrityError "UNIQUE constraint failed"), db)
    else (Ok task_id, MkSchedDb (sd_tasks db ++ [MkSchedRow task_id name prompt status (dumps_in_order (PDict schedule)) deliver_to
            (dumps_in_order (PDict meta)) None next_run 0 None None 0 principal_id None None policy_digest project_id])
            (sd_journal db) (sd_seq db))).

Definition update_scheduled_task_status (task_id status : string) (bump_version : bool) : SchedDb -> Z * SchedDb :=
  update_where (is_id task_id) (fun r =>
    set_columns status (sr_lifecycle_version r + if bump_version then 1 else 0) (sr_execution_id r) (sr_lease_until r) no_changes r).
Definition empty_changes (c : Changes) : bool :=
  bool_decide (ch_last_run c = None) && bool_decide (ch_next_run c = None) && bool_decide (ch_run_count c = None)
  && bool_decide (ch_last_result c = None) && bool_decide (ch_error c = None).
Definition update_scheduled_task (task_id : string) (status : option string) (c : Changes) (bump_version : bool) (db : SchedDb)
    : Z * SchedDb :=
  if bool_decide (status = None) && empty_changes c && negb bump_version then (1, db)
  else update_where (is_id task_id) (fun r =>
    set_columns (or_old status (sr_status r)) (sr_lifecycle_version r + if bump_version then 1 else 0) (sr_execution_id r)
      (sr_lease_until r) c r) db.
Definition update_scheduled_task_conditional (task_id : string) (expected_version : Z) (status : option string) (c : Changes)
    (db : SchedDb) : Z * SchedDb :=
  if bool_decide (status = None) && empty_changes c then (0, db)
  else update_where (fun r => is_id task_id r && has_version expected_version r) (fun r =>
    set_columns (or_old status (sr_status r)) (sr_lifecycle_version r) (sr_execution_id r) (sr_lease_until r) c r) db.

Definition list_scheduled_tasks (principal_id project_id : option string) (db : SchedDb) : list SchedRow :=
  List.filter (fun r => opt_matches principal_id (sr_principal_id r) && opt_matches project_id (sr_project_id r)) (sd_tasks db).
Definition row_of (task_id : string) (db : SchedDb) : option SchedRow := List.find (is_id task_id) (sd_tasks db).
Definition get_scheduled_task (task_id : string) (principal_id project_id : option string) (db : SchedDb) : option SchedRow :=
  match row_of task_id db with
  | Some r => if opt_matches principal_id (sr_principal_id r) && opt_matches project_id (sr_project_id r) then Some r else None
  | None => None
  end.

Definition claim_scheduled_task (task_id execution_id : string) (started_at lease_until expected_version : Z)
    (principal_id project_id policy_digest : option string) : SchedDb -> Z * SchedDb :=
  update_where (fun r => is_id task_id r && has_status "pending" r && has_version expected_version r
                         && opt_matches principal_id (sr_principal_id r) && opt_matches project_id (sr_project_id r)
                         && opt_matches policy_digest (sr_policy_digest r))
    (fun r => set_columns "running" (sr_lifecycle_version r) (Some execution_id) (Some lease_until)
                (MkChanges (Some (Naive started_at)) None None None None) r).
Definition clear_scheduled_task_lease (task_id execution_id : string) : SchedDb -> Z * SchedDb :=
  update_where (fun r => is_id task_id r && bool_decide (sr_execution_id r = Some execution_id))
    (fun r => set_columns (sr_status r) (sr_lifecycle_version r) None None no_changes r).
(** [status = 'running' AND lease_until IS NOT NULL AND lease_until < now] *)
Definition lease_expired (now : Z) (r : SchedRow) : bool :=
  has_status "running" r && match sr_lease_until r with Some t => t <? now | None => false end.
Definition fail_row (error : string) (r : SchedRow) : SchedRow :=
  set_columns "failed" (sr_lifecycle_version r + 1) None None (MkChanges None None None None (Some error)) r.
Definition recover_expired_leases (now : Z) : SchedDb -> Z * SchedDb :=
  update_where (lease_expired now)
    (fail_row "execution lease expired (process crash during execution; at-least-once disclosure)").
Definition recover_all_running_tasks : SchedDb -> Z * SchedDb :=
  update_where (has_status "running")
    (fail_row "process restart detected - task was running at startup; single-instance model treats this as a crash (at-least-once disclosure)").
Definition query_running_task_ids (db : SchedDb) : list string := sr_id <$> List.filter (has_status "running") (sd_tasks db).
Definition query_expired_lease_task_ids (now : Z) (db : SchedDb) : list string :=
  sr_id <$> List.filter (lease_expired now) (sd_tasks db).
Definition recover_one_expired_lease (task_id : string) (now : Z) : SchedDb -> Z * SchedDb :=
  update_where (fun r => is_id task_id r && lease_expired now r)
    (fail_row "execution lease expired (periodic sweep; live executor revoked; at-least-once disclosure)").
Definition finalize_scheduled_task (task_id execution_id : string) (expected_version : Z) (status : string) (c : Changes)
    : SchedDb -> Z * SchedDb :=
  update_where (fun r => is_id task_id r && bool_decide (sr_execution_id r = Some execution_id) && has_version expected_version r)
    (fun r => set_columns status (sr_lifecycle_version r) None None c r).
Definition control_changes (next_run : option pydatetime) (error : option string) : Changes := MkChanges None next_run None None error.
Definition control_update_scheduled_task (task_id : string) (expected_version target_version : Z) (status : string)
    (next_run : option pydatetime) (error : option string) : SchedDb -> Z * SchedDb :=
  update_where (fun r => is_id task_id r && has_version expected_version r)
    (fun r => set_columns status target_version (sr_execution_id r) (sr_lease_until r) (control_changes next_run error) r).
Definition control_finalize_scheduled_task (task_id : string) (expected_version target_version : Z) (status : string)
    (next_run : option pydatetime) (error : option string) : SchedDb -> Z * SchedDb :=
  update_where (fun r => is_id task_id r && has_version expected_version r)
    (fun r => set_columns status target_version None None (control_changes next_run error) r).

(** ** Journal *)
Definition insert_scheduler_journal_entry (now : Z) (operation_id task_id operation_type desired_status : string)
    (expected_version target_version : Z) (principal_id policy_digest project_id : string) (db : SchedDb) : Z * SchedDb :=
  let seq := sd_seq db + 1 in
  (seq, MkSchedDb (sd_tasks db)
          (sd_journal db ++ [MkJournal seq operation_id task_id operation_type desired_status expected_version target_version
                               principal_id policy_digest project_id now None]) seq).
Definition unapplied (e : JournalEntry) : bool := bool_decide (je_applied_at e = None).
Definition set_applied (now : Z) (e : JournalEntry) : JournalEntry :=
  MkJournal (je_seq e) (je_operation_id e) (je_task_id e) (je_operation_type e) (je_desired_status e) (je_expected_version e)
    (je_target_version e) (je_principal_id e) (je_policy_digest e) (je_project_id e) (je_created_at e) (Some now).
Definition mark_scheduler_journal_applied (now : Z) (operation_id : string) (db : SchedDb) : Z * SchedDb :=
  let p e := bool_decide (je_operation_id e = operation_id) && unapplied e in
  (Z.of_nat (length (List.filter p (sd_journal db))),
   MkSchedDb (sd_tasks db) ((fun e => if p e then set_applied now e else e) <$> sd_journal db) (sd_seq db)).
Definition list_pending_scheduler_journal_entries (db : SchedDb) : list JournalEntry :=
  List.filter unapplied (sd_journal db).

(** ** Histories *)
(** The writes of the scheduler: those that the engine makes.  [update_scheduled_task],
    [update_scheduled_task_status], [update_scheduled_task_conditional],
    [clear_scheduled_task_lease] and [control_update_scheduled_task] are defined above
    but the engine does not call them: they are not part of a history. *)
Inductive sched_op :=
| SInsert (task_id name prompt : string) (schedule : list (string * pyval)) (deliver_to : string) (meta : list (string * pyval))
    (principal_id : string) (next_run : option pydatetime) (project_id policy_digest : string)
| SClaim (task_id execution_id : string) (started_at lease_until version : Z) (principal_id project_id policy_digest : option string)
| SFinalize (task_id execution_id : string) (version : Z) (status : string) (c : Changes)
| SControl (task_id : string) (version : Z) (status : string) (next_run : option pydatetime) (error : option string)
| SRecoverExpired (now : Z)
| SRecoverAll
| SRecoverOne (task_id : string) (now : Z)
| SJournal (now : Z) (operation_id task_id operation_type desired_status : string) (expected target : Z)
    (principal_id policy_digest project_id : string)
| SMark (now : Z) (operation_id : string).
Definition sched_step (db : SchedDb) (op : sched_op) : SchedDb :=
  match op with
  | SInsert id name prompt schedule deliver meta p next project policy =>
      (insert_scheduled_task id name prompt "pending" schedule deliver meta p next project policy db).2
  | SClaim id e started lease v p project policy => (claim_scheduled_task id e started lease v p project policy db).2
  | SFinalize id e v status c => (finalize_scheduled_task id e v status c db).2
  | SControl id v status next error => (control_finalize_scheduled_task id v (v + 1) status next error db).2
  | SRecoverExpired now => (recover_expired_leases now db).2
  | SRecoverAll => (recover_all_running_tasks db).2
  | SRecoverOne id now => (recover_one_expired_lease id now db).2
  | SJournal now op id ty st e t p policy project =>
      (insert_scheduler_journal_entry now op id ty st e t p policy project db).2
  | SMark now op => (mark_scheduler_journal_applied now op db).2
  end.
Definition sched_run (db : SchedDb) (ops : list sched_op) : SchedDb := foldl sched_step db ops.
(** No write but a claim makes a task running. *)
Definition op_ok (op : sched_op) : Prop :=
  match op with SFinalize _ _ _ status _ | SControl _ _ status _ _ => status ≠ "running" | _ => True end.

(** ** Row by row *)
Definition when (b : bool) (f : SchedRow -> SchedRow) (r : SchedRow) : SchedRow := if b then f r else r.
(** What a write does to one row *)
Definition row_step (op : sched_op) (r : SchedRow) : SchedRow :=
  match op with
  | SClaim id e started lease v p project policy =>
      when (is_id id r && has_status "pending" r && has_version v r && opt_matches p (sr_principal_id r)
            && opt_matches project (sr_project_id r) && opt_matches policy (sr_policy_digest r))
        (fun r => set_columns "running" (sr_lifecycle_version r) (Some e) (Some lease)
                    (MkChanges (Some (Naive started)) None None None None) r) r
  | SFinalize id e v status c =>
      when (is_id id r && bool_decide (sr_execution_id r = Some e) && has_version v r)
        (fun r => set_columns status (sr_lifecycle_version r) None None c r) r
  | SControl id v status next error =>
      when (is_id id r && has_version v r) (fun r => set_columns status (v + 1) None None (control_changes next error) r) r
  | SRecoverExpired now => when (lease_expired now r)
      (fail_row "execution lease expired (process crash during execution; at-least-once disclosure)") r
  | SRecoverAll => when (has_status "running" r)
      (fail_row "process restart detected - task was running at startup; single-instance model treats this as a crash (at-least-once disclosure)") r
  | SRecoverOne id now => when (is_id id r && lease_expired now r)
      (fail_row "execution lease expired (periodic sweep; live executor revoked; at-least-once disclosure)") r
  | _ => r
  end.
Lemma step_rows op db :
  exists new, sd_tasks (sched_step db op) = (row_step op <$> sd_tasks db) ++ new
    /\ Forall (fun r => sr_status r = "pending" /\ sr_execution_id r = None /\ sr_lease_until r = None
                        /\ row_of (sr_id r) db = None) new.
Proof.
  destruct op; try (exists []; rewrite app_nil_r; by split).
  all: try (exists []; rewrite app_nil_r; cbn [row_step]; rewrite list_fmap_id; by split).
  cbn [sched_step]. unfold insert_scheduled_task, transaction.
  destruct (str_empty principal_id); [exists []; rewrite app_nil_r, list_fmap_id; by split|].
  destruct (existsb _ _) eqn:E; [exists []; rewrite app_nil_r, list_fmap_id; by split|].
  eexists [_]. cbn [snd sd_tasks]. rewrite list_fmap_id. split; [done|]. constructor; [|done]. split_and!; try done. cbn.
  unfold row_of. destruct (List.find _ _) as [r|] eqn:Ef; [|done]. apply List.find_some in Ef as [Hin Hid].
  exfalso. apply not_true_iff_false in E. apply E, existsb_exists. by exists r.
Qed.
Lemma row_step_id op r : sr_id (row_step op r) = sr_id r.
Proof. destruct op; cbn [row_step]; unfold when; try done; by case_match. Qed.

Lemma find_app {A} (p : A -> bool) l k :
  List.find p (l ++ k) = match List.find p l with Some x => Some x | None => List.find p k end.
Proof. induction l as [|x l IH]; [done|]. cbn. by destruct (p x). Qed.
Lemma find_row_step op id l : List.find (is_id id) (row_step op <$> l) = row_step op <$> List.find (is_id id) l.
Proof.
  induction l as [|r l IH]; [done|]. cbn [fmap list_fmap List.find]. unfold is_id at 1 3. rewrite row_step_id.
  by case_bool_decide.
Qed.
(** A row follows the writes. *)
Lemma row_of_step op id db r : row_of id db = Some r -> row_of id (sched_step db op) = Some (row_step op r).
Proof.
  intros Hr. destruct (step_rows op db) as (new & E & _). unfold row_of. rewrite E, find_app, find_row_step.
  unfold row_of in Hr. by rewrite Hr.
Qed.
Definition row_run (ops : list sched_op) (r : SchedRow) : SchedRow := foldl (fun r op => row_step op r) r ops.
Lemma row_of_run ops id db r : row_of id db = Some r -> row_of id (sched_run db ops) = Some (row_run ops r).
Proof. revert db r. induction ops as [|op ops IH]; intros db r Hr; [done|]. by apply IH, row_of_step. Qed.
Lemma row_run_id ops r : sr_id (row_run ops r) = sr_id r.
Proof. revert r. induction ops as [|op ops IH]; intros r; [done|]. cbn. etransitivity; [apply IH | apply row_step_id]. Qed.
Lemma row_of_id id db r : row_of id db = Some r -> sr_id r = id.
Proof. intros [_ H]%List.find_some. by apply bool_decide_eq_true in H. Qed.

(** ** Claims and leases *)
(** A running task has a claim and a lease; no other task has either. *)
Definition lease_ok (r : SchedRow) : Prop :=
  (sr_status r = "running" <-> is_Some (sr_execution_id r)) /\ (is_Some (sr_execution_id r) <-> is_Some (sr_lease_until r)).
Lemma lease_free r : sr_status r ≠ "running" -> sr_execution_id r = None -> sr_lease_until r = None -> lease_ok r.
Proof. intros Hs He Hl. unfold lease_ok. rewrite He, Hl. split; [|done]. split; [done | by intros []]. Qed.
Lemma row_step_lease op r : op_ok op -> lease_ok r -> lease_ok (row_step op r).
Proof.
  intros Hok Hr. destruct op; cbn [row_step op_ok] in *; unfold when; try done; case_match; try done.
  all: first [by apply lease_free | by unfold lease_ok; cbn; repeat split; eauto].
Qed.
Lemma step_lease op db : op_ok op -> Forall lease_ok (sd_tasks db) -> Forall lease_ok (sd_tasks (sched_step db op)).
Proof.
  intros Hok Hdb. destruct (step_rows op db) as (new & -> & Hnew). apply Forall_app. split.
  - apply Forall_fmap. eapply Forall_impl; [exact Hdb|]. intros r. by apply row_step_lease.
  - eapply Forall_impl; [exact Hnew|]. intros r (Hs & He & Hl & _). apply lease_free; [|done..]. by rewrite Hs.
Qed.

(** No task is ever stuck.  In every history of the scheduler's writes exactly
    the running tasks have a claim, and exactly the claimed ones a lease, so every
    task that a crash leaves running is found by the recovery of leases. *)
Theorem running_iff_leased (ops : list sched_op) (Hops : Forall op_ok ops) :
  Forall lease_ok (sd_tasks (sched_run empty_sched ops)).
Proof.
  assert (H : forall db, Forall lease_ok (sd_tasks db) -> Forall lease_ok (sd_tasks (sched_run db ops))); [|by apply H].
  induction Hops as [|op ops Hop Hops IH]; intros db Hdb; [done|]. cbn. by apply IH, step_lease.
Qed.

(** ** Fencing *)
Lemma row_step_version op r : sr_lifecycle_version r <= sr_lifecycle_version (row_step op r).
Proof.
  destruct op; cbn [row_step]; unfold when; try lia; case_match; try (cbn; lia).
  cbn. match goal with H : _ && has_version _ _ = true |- _ => apply andb_true_iff in H as [_ H] end.
  unfold has_version in *. lia.
Qed.
(** A row that an execution of [version] can no longer write *)
Definition fenced (execution_id : string) (version : Z) (r : SchedRow) : Prop :=
  version < sr_lifecycle_version r \/ sr_execution_id r ≠ Some execution_id.
Definition claims (execution_id : string) (op : sched_op) : bool :=
  match op with SClaim _ e _ _ _ _ _ _ => bool_decide (e = execution_id) | _ => false end.
Lemma row_step_fenced op e v r : claims e op = false -> fenced e v r -> fenced e v (row_step op r).
Proof.
  intros Hc Hf. destruct (decide (v < sr_lifecycle_version r)) as [Hv|Hv].
  { left. pose proof (row_step_version op r). lia. }
  destruct Hf as [Hf|Hf]; [lia|]. right. destruct op; cbn [row_step claims] in *; unfold when; try done; case_match; try done.
  cbn. intros [= ->]. by apply bool_decide_eq_false in Hc.
Qed.
(** A claimed row keeps its claim or loses it for good. *)
Lemma row_step_claimed op e v r :
  claims e op = false -> sr_status r = "running" -> sr_execution_id r = Some e -> sr_lifecycle_version r = v ->
  row_step op r = r \/ fenced e v (row_step op r).
Proof.
  intros Hc Hs He Hv. destruct op; cbn [row_step]; unfold when; try (by left); case_match; try (by left).
  - exfalso. rewrite !andb_true_iff in H. destruct_and! H. unfold has_status in *. rewrite Hs in *. done.
  - right. by right.
  - right. by right.
  - right. by right.
  - right. by right.
  - right. by right.
Qed.
Lemma row_run_fenced ops e v r : forallb (fun op => negb (claims e op)) ops = true -> fenced e v r -> fenced e v (row_run ops r).
Proof.
  revert r. induction ops as [|op ops IH]; intros r Hc Hf; [done|]. cbn in Hc |- *. apply andb_true_iff in Hc as [Hc1 Hc].
  apply IH; [done|]. apply row_step_fenced; [by apply negb_true_iff | done].
Qed.
Lemma row_run_claimed ops e v r :
  forallb (fun op => negb (claims e op)) ops = true -> sr_status r = "running" -> sr_execution_id r = Some e ->
  sr_lifecycle_version r = v -> row_run ops r = r \/ fenced e v (row_run ops r).
Proof.
  revert r. induction ops as [|op ops IH]; intros r Hc Hs He Hv; [by left|]. cbn in Hc |- *. apply andb_true_iff in Hc as [Hc1 Hc].
  apply negb_true_iff in Hc1. destruct (row_step_claimed op e v r Hc1 Hs He Hv) as [-> | Hf]; [by apply IH|].
  right. by apply row_run_fenced.
Qed.

(** Identities are unique. *)
Definition ids_ok (db : SchedDb) : Prop := NoDup (sr_id <$> sd_tasks db).
Lemma find_none_not_in id l : List.find (is_id id) l = None -> id ∉ sr_id <$> l.
Proof.
  intros Hf Hin. apply list_elem_of_fmap in Hin as (r & -> & Hr%list_elem_of_In).
  pose proof (List.find_none _ _ Hf _ Hr) as Hx. unfold is_id in Hx. by rewrite bool_decide_eq_true_2 in Hx.
Qed.
Lemma step_ids op db : ids_ok db -> ids_ok (sched_step db op).
Proof.
  intros Hdb. unfold ids_ok. destruct op; cbn [sched_step]; try exact Hdb.
  all: try (match goal with |- NoDup (sr_id <$> sd_tasks (?f).2) =>
    replace (sr_id <$> sd_tasks (f).2) with (sr_id <$> sd_tasks db); [exact Hdb|] end;
    unfold claim_scheduled_task, finalize_scheduled_task, control_finalize_scheduled_task, recover_expired_leases,
      recover_all_running_tasks, recover_one_expired_lease, update_where; cbn [snd sd_tasks];
    rewrite <- list_fmap_compose; apply list_fmap_ext; intros i r _; cbn; by case_match).
  unfold insert_scheduled_task, transaction. destruct (str_empty principal_id); [done|].
  destruct (existsb _ _) eqn:E; [done|]. cbn [snd sd_tasks]. rewrite fmap_app. apply NoDup_app. split_and!; [done| |apply NoDup_singleton].
  intros x Hx Hn. apply list_elem_of_singleton in Hn as ->. cbn in Hx.
  apply list_elem_of_fmap in Hx as (r & Hid & Hr%list_elem_of_In). apply not_true_iff_false in E. apply E, existsb_exists.
  exists r. split; [done|]. unfold is_id. rewrite bool_decide_eq_true_2; congruence.
Qed.
Lemma run_ids ops db : ids_ok db -> ids_ok (sched_run db ops).
Proof. revert db. induction ops as [|op ops IH]; intros db Hdb; [done|]. by apply IH, step_ids. Qed.
Lemma row_of_elem db r : ids_ok db -> r ∈ sd_tasks db -> row_of (sr_id r) db = Some r.
Proof.
  unfold ids_ok, row_of. induction (sd_tasks db) as [|x l IH]; intros Hnd Hr; [by apply not_elem_of_nil in Hr|].
  apply NoDup_cons in Hnd as [Hx Hnd]. cbn. unfold is_id at 1. apply elem_of_cons in Hr as [-> | Hr].
  - by rewrite bool_decide_eq_true_2.
  - rewrite bool_decide_eq_false_2; [by apply IH|]. intros E. apply Hx. rewrite E. by apply list_elem_of_fmap_2.
Qed.
(** An update of one task hits its row or nothing. *)
Lemma update_hits p f id db :
  ids_ok db -> (forall r, p r = true -> sr_id r = id) ->
  (update_where p f db).1 ≠ 0 <-> exists r, row_of id db = Some r /\ p r = true.
Proof.
  intros Hdb Hp. cbn. split.
  - intros Hn. destruct (List.filter p (sd_tasks db)) as [|r l] eqn:E; [done|].
    assert (Hr : In r (List.filter p (sd_tasks db))) by (rewrite E; by left). apply List.filter_In in Hr as [Hr Hpr].
    exists r. split; [|done]. rewrite <- (Hp r Hpr). by apply row_of_elem, list_elem_of_In.
  - intros (r & Hr & Hpr) Hn. apply List.find_some in Hr as [Hr _].
    assert (Hin : In r (List.filter p (sd_tasks db))) by (by apply List.filter_In).
    destruct (List.filter p (sd_tasks db)); [done | cbn in Hn; lia].
Qed.
Lemma filter_none {A} (p : A -> bool) l : List.filter p l = [] <-> forall x, x ∈ l -> p x = false.
Proof.
  split.
  - intros E x Hx. destruct (p x) eqn:Ep; [|done]. assert (Hin : In x (List.filter p l)) by (apply List.filter_In; by rewrite <- list_elem_of_In).
    by rewrite E in Hin.
  - intros Hl. induction l as [|x l IH]; [done|]. cbn. rewrite (Hl x ltac:(left)). apply IH. intros y Hy. apply Hl. by right.
Qed.
Lemma update_misses p f db : (update_where p f db).1 = 0 -> sd_tasks (update_where p f db).2 = sd_tasks db.
Proof.
  cbn [update_where fst snd sd_tasks]. intros Hn. assert (Hf : List.filter p (sd_tasks db) = []) by (destruct (List.filter p _); [done | cbn in Hn; lia]).
  transitivity (Datatypes.id <$> sd_tasks db); [|apply list_fmap_id]. apply list_fmap_ext. intros i x Hx.
  by rewrite (proj1 (filter_none p _) Hf x (list_elem_of_lookup_2 _ _ _ Hx)).
Qed.
(** Such an update hits at most one row. *)
Lemma update_count p f id db :
  ids_ok db -> (forall r, p r = true -> sr_id r = id) -> (update_where p f db).1 = 0 \/ (update_where p f db).1 = 1.
Proof.
  intros Hdb Hp. unfold ids_ok in Hdb. cbn. induction (sd_tasks db) as [|x l IH]; [by left|].
  apply NoDup_cons in Hdb as [Hx Hdb]. cbn [List.filter]. destruct (p x) eqn:Ex; [|by apply IH]. right.
  assert (List.filter p l = []) as ->; [|done]. apply filter_none. intros y Hy. destruct (p y) eqn:Ey; [|done]. exfalso.
  apply Hx. rewrite (Hp x Ex), <- (Hp y Ey). by apply list_elem_of_fmap_2.
Qed.
Lemma finalize_hits id e v status c db :
  ids_ok db ->
  (finalize_scheduled_task id e v status c db).1 ≠ 0
  <-> exists r, row_of id db = Some r /\ sr_execution_id r = Some e /\ sr_lifecycle_version r = v.
Proof.
  intros Hdb. unfold finalize_scheduled_task. rewrite (update_hits _ _ id); [|done|].
  - split; intros (r & Hr & H).
    + rewrite !andb_true_iff, bool_decide_eq_true in H. unfold has_version in H. exists r. naive_solver lia.
    + exists r. split; [done|]. destruct H as [He Hv]. unfold is_id, has_version. rewrite (row_of_id _ _ _ Hr), He, Hv.
      by rewrite !bool_decide_eq_true_2, Z.eqb_refl.
  - intros r. rewrite !andb_true_iff. unfold is_id. rewrite bool_decide_eq_true. tauto.
Qed.
Lemma claim_hits id e started lease v p project policy db :
  ids_ok db -> (claim_scheduled_task id e started lease v p project policy db).1 ≠ 0 ->
  exists r, row_of id (sched_step db (SClaim id e started lease v p project policy)) = Some r
    /\ sr_status r = "running" /\ sr_execution_id r = Some e /\ sr_lifecycle_version r = v
    /\ opt_matches p (sr_principal_id r) && opt_matches project (sr_project_id r) && opt_matches policy (sr_policy_digest r) = true.
Proof.
  intros Hdb Hn. apply (update_hits _ _ id) in Hn as (r & Hr & Hp); [|done|].
  - eexists. split; [by apply row_of_step|]. cbn [row_step]. unfold when. rewrite Hp. cbn. split_and!; try done.
    + rewrite !andb_true_iff in Hp. unfold has_version in Hp. lia.
    + rewrite !andb_true_iff in Hp. rewrite !andb_true_iff. cbn. tauto.
  - intros r. rewrite !andb_true_iff. unfold is_id. rewrite bool_decide_eq_true. tauto.
Qed.
Lemma claim_misses id e started lease v p project policy db :
  (claim_scheduled_task id e started lease v p project policy db).1 = 0 ->
  sd_tasks (claim_scheduled_task id e started lease v p project policy db).2 = sd_tasks db.
Proof. apply update_misses. Qed.
Lemma claim_count id e started lease v p project policy db :
  ids_ok db -> let n := (claim_scheduled_task id e started lease v p project policy db).1 in n = 0 \/ n = 1.
Proof.
  intros Hdb. apply (update_count _ _ id); [done|]. intros r. rewrite !andb_true_iff. unfold is_id. rewrite bool_decide_eq_true. tauto.
Qed.

(** C17. An execution writes its result only while it still owns the task.  After the
    claim of an execution, whatever pauses, removals, recoveries, claims and other
    writes follow, its final write takes effect exactly when the row is still the
    one it claimed; an execution that lost the task can change nothing. *)
Theorem stale_execution_is_fenced (before ops : list sched_op) (id e status : string) (started lease v : Z)
  (p project policy : option string) (c : Changes)
  (Hclaim : (claim_scheduled_task id e started lease v p project policy (sched_run empty_sched before)).1 ≠ 0)
  (Hfresh : forallb (fun op => negb (claims e op)) ops = true) :
  let claimed := sched_step (sched_run empty_sched before) (SClaim id e started lease v p project policy) in
  let later := sched_run claimed ops in
  ((finalize_scheduled_task id e v status c later).1 ≠ 0 <-> row_of id later = row_of id claimed)
  /\ ((finalize_scheduled_task id e v status c later).1 = 0 -> sd_tasks (finalize_scheduled_task id e v status c later).2 = sd_tasks later).
Proof.
  intros claimed later.
  assert (Hids : ids_ok (sched_run empty_sched before)) by (apply run_ids, NoDup_nil_2).
  destruct (claim_hits _ _ _ _ _ _ _ _ _ Hids Hclaim) as (r & Hr & Hs & He & Hv & _). fold claimed in Hr.
  assert (Hids' : ids_ok later) by (by apply run_ids, step_ids).
  pose proof (row_of_run ops _ _ _ Hr) as Hr'. fold later in Hr'. split.
  - rewrite finalize_hits by done. rewrite Hr', Hr. destruct (row_run_claimed ops e v r Hfresh Hs He Hv) as [-> | Hf].
    + split; [done|]. intros _. by exists r.
    + split.
      * intros (r' & [= <-] & He' & Hv'). destruct Hf as [Hf|Hf]; [lia | done].
      * intros [= E]. rewrite E in Hf. destruct Hf as [Hf|Hf]; [lia | done].
  - apply update_misses.
Qed.

Module SchedExample.
Definition create_t : sched_op := SInsert "t" "n" "p" [] "local" [] "alice" (Some (Naive 5)) "pj" "d".
Definition claim_e1 : sched_op := SClaim "t" "e1" 10 70 0 (Some "alice") (Some "pj") (Some "d").
End SchedExample.
Import SchedExample.
Lemma running_iff_leased_witness :
  sd_tasks (sched_run empty_sched [create_t; claim_e1; SRecoverExpired 80; SControl "t" 1 "paused" None None]) ≠ []
  /\ Forall lease_ok (sd_tasks (sched_run empty_sched [create_t; claim_e1; SRecoverExpired 80; SControl "t" 1 "paused" None None])).
Proof. split; [done|]. apply running_iff_leased. by repeat constructor. Defined.
Lemma stale_execution_is_fenced_witness :
  let claimed := sched_step (sched_run empty_sched [create_t]) claim_e1 in
  (finalize_scheduled_task "t" "e1" 0 "pending" no_changes (sched_run claimed [SControl "t" 0 "paused" None None])).1 = 0
  /\ ((finalize_scheduled_task "t" "e1" 0 "pending" no_changes (sched_run claimed [SControl "t" 0 "paused" None None])).1 ≠ 0
      <-> row_of "t" (sched_run claimed [SControl "t" 0 "paused" None None]) = row_of "t" claimed).
Proof.
  split; [reflexivity|].
  exact (proj1 (stale_execution_is_fenced [create_t] [SControl "t" 0 "paused" None None] "t" "e1" "pending" 10 70 0
    (Some "alice") (Some "pj") (Some "d") no_changes ltac:(done) eq_refl)).
Defined.
