(* ===== verification/CronSchedule.v ===== *)
(** * Schedules ([scheduler/models.py], [calculator.py], [due_selector.py], [_parse_schedule] of [tools/cron_tools.py])

    Scheduled tasks, the next time a task is due, and the selection of the due
    tasks.  A naive [datetime] is the number of microseconds since the year 1. *)
From Stdlib Require Import Ascii.
From S2P Require Import Prelude PyStr Json PyValue ShellSemantics SchedulerStore.
Open Scope Z_scope.

(** ** Data *)
Inductive CronStatus := PENDING | RUNNING | PAUSED | COMPLETED | FAILED | CANCELLED.
#[export] Instance CronStatus_eq_dec : EqDecision CronStatus.
Proof. solve_decision. Defined.
Definition cron_status_value (s : CronStatus) : string :=
  match s with
  | PENDING => "pending" | RUNNING => "running" | PAUSED => "paused" | COMPLETED => "completed" | FAILED => "failed"
  | CANCELLED => "cancelled"
  end.
Definition all_statuses : list CronStatus := [PENDING; RUNNING; PAUSED; COMPLETED; FAILED; CANCELLED].
(** [TaskStatus(value)] *)
Definition cron_status_of (value : string) : option CronStatus :=
  List.find (fun s => bool_decide (cron_status_value s = value)) all_statuses.
(** The fields of a decoded configuration are JSON values. *)
Record ScheduleConfig := MkSchedule { sc_cron : pyval; sc_iso_time : pyval; sc_interval_seconds : pyval; sc_repeat : pyval }.
Definition no_schedule : ScheduleConfig := MkSchedule PNone PNone PNone PNone.
Record ScheduledTask := MkTask {
  st_id : string; st_name : string; st_prompt : string; st_status : CronStatus; st_schedule : ScheduleConfig;
  st_last_run : option pydatetime; st_next_run : option pydatetime; st_run_count : Z; st_last_result : option string;
  st_error : option string; st_deliver_to : string; st_enabled : bool; st_meta : list (string * pyval);
  st_lifecycle_version : Z; st_principal_id : string; st_execution_id : option string; st_lease_until : option Z;
  st_policy_digest : string; st_project_id : string
}.

(** ** Python *)
(** Parsing of ISO texts, [int] of a value and [str] of a value that is no text *)
Class CronPlatform := {
  fromisoformat : string -> res pydatetime;
  int_value : pyval -> res Z;
  value_repr : pyval -> string
}.
Class CronPlatformLaws `{CronPlatform} := { int_of_int z : int_value (PInt z) = Ok z }.

Definition SECOND : Z := 1000000.
Definition HOUR : Z := 3600 * SECOND.
Definition DAY : Z := 24 * HOUR.
(** [datetime.max]: the year 9999 ends with the ordinal 3652059 *)
Definition MAX_DATETIME : Z := 3652059 * DAY - 1.
Definition in_range (us : Z) : bool := (0 <=? us) && (us <=? MAX_DATETIME).
(** [d + timedelta] *)
Definition dt_add (d : pydatetime) (us : Z) : res pydatetime :=
  match d with
  | Naive t => raise_if (negb (in_range (t + us))) OverflowError "date value out of range" ;;* Ok (Naive (t + us))
  | Aware t => raise_if (negb (in_range (t + us))) OverflowError "date value out of range" ;;* Ok (Aware (t + us))
  end.
(** [a <= b] *)
Definition dt_le (a b : pydatetime) : res bool :=
  match a, b with
  | Naive t, Naive u | Aware t, Aware u => Ok (t <=? u)
  | _, _ => Raise (Exn TypeError "can't compare offset-naive and offset-aware datetimes")
  end.
(** [timedelta(seconds=n)] *)
Definition timedelta_seconds (n : Z) : res Z :=
  raise_if (negb (Z.abs (n / 86400) <=? 999999999)) OverflowError "days; must have magnitude <= 999999999" ;;* Ok (n * SECOND).
(** [now.replace(minute=minute, hour=hour, second=0, microsecond=0)] *)
Definition dt_replace (now : pydatetime) (minute hour : Z) : res pydatetime :=
  raise_if (negb ((0 <=? hour) && (hour <=? 23) && (0 <=? minute) && (minute <=? 59))) ValueError "must be in range" ;;*
  let at_ t := t - t mod DAY + hour * HOUR + minute * (60 * SECOND) in
  Ok (match now with Naive t => Naive (at_ t) | Aware t => Aware (at_ t) end).
(** [text.split()] *)
Definition is_blank_char (c : string) : bool := str_empty (py_strip c).
Fixpoint split_words (word : list string) (l : list string) : list string :=
  let flush rest := match word with [] => rest | _ => text_of word :: rest end in
  match l with
  | [] => flush []
  | c :: r => if is_blank_char c then flush (split_words [] r) else split_words (word ++ [c]) r
  end.
Definition py_split (s : string) : list string := split_words [] (chars s).

Section Calculator.
Context `{CronPlatform}.

(** ** Calculator *)
Definition _DEFAULT_INTERVAL : Z := HOUR.
Definition parse_simple_cron (cron : string) (now : pydatetime) : res pydatetime :=
  match py_split (py_strip cron) with
  | first :: second :: _ =>
      let* target := try_except
        (let* minute := int_value (PStr first) in
         let* hour := int_value (PStr second) in
         let* t := dt_replace now minute hour in Ok (Some t))
        [TypeError; ValueError; OverflowError] (fun _ => Ok None) in
      match target with
      | None => dt_add now _DEFAULT_INTERVAL
      | Some t => let* past := dt_le t now in if past then dt_add t DAY else Ok t
      end
  | _ => dt_add now _DEFAULT_INTERVAL
  end.
Definition compute_iso (value : pyval) : res (option pydatetime) :=
  if truthy value then
    try_except (let* t := match value with PStr s => fromisoformat s | _ => Raise (Exn TypeError "fromisoformat: argument must be str") end in
                Ok (Some t))
      [TypeError; ValueError] (fun _ => Ok None)
  else Ok None.
Definition compute_interval (value : pyval) (now : pydatetime) : res (option pydatetime) :=
  if truthy value then
    try_except (let* n := int_value value in let* delta := timedelta_seconds n in let* t := dt_add now delta in Ok (Some t))
      [TypeError; ValueError; OverflowError] (fun _ => Ok None)
  else Ok None.
Definition compute (schedule : ScheduleConfig) (now : pydatetime) : res pydatetime :=
  let* at_time := compute_iso (sc_iso_time schedule) in
  match at_time with
  | Some t => Ok t
  | None =>
      let* after := compute_interval (sc_interval_seconds schedule) now in
      match after with
      | Some t => Ok t
      | None =>
          if truthy (sc_cron schedule) then parse_simple_cron (py_str value_repr (sc_cron schedule)) now
          else dt_add now _DEFAULT_INTERVAL
      end
  end.

(** ** Selection of the due tasks *)
Definition is_due (now : pydatetime) (pending executing : list string) (t : ScheduledTask) : res bool :=
  if negb (st_enabled t && bool_decide (st_status t = PENDING)) then Ok false
  else match st_next_run t with
  | None => Ok false
  | Some next => let* due := dt_le next now in Ok (due && negb (str_in (st_id t) pending) && negb (str_in (st_id t) executing))
  end.
Fixpoint select (now : pydatetime) (pending executing : list string) (tasks : list ScheduledTask) : res (list ScheduledTask) :=
  match tasks with
  | [] => Ok []
  | t :: rest =>
      let* due := is_due now pending executing t in
      let* more := select now pending executing rest in
      Ok (if due then t :: more else more)
  end.

(** ** Schedule expressions *)
Definition last_char (l : list string) : string := default EmptyString (last l).
Definition _parse_schedule (schedule : string) : ScheduleConfig :=
  let cs := chars schedule in
  let by_cron :=
    match py_split schedule with _ :: _ :: _ => MkSchedule (PStr schedule) PNone PNone PNone | _ => no_schedule end in
  if contains ["T"] cs && (10 <? Z.of_nat (length cs)) then MkSchedule PNone (PStr schedule) PNone PNone
  else if (2 <=? Z.of_nat (length cs)) && str_in (last_char cs) ["m"; "h"; "s"] then
    match int_value (PStr (text_of (removelast cs))) with
    | Ok n =>
        MkSchedule PNone PNone
          (PInt (if bool_decide (last_char cs = "m") then n * 60 else if bool_decide (last_char cs = "h") then n * 3600 else n)) PNone
    | Raise _ => by_cron
    end
  else by_cron.

(** ** Progress *)
Definition time_of_day (hour minute : Z) : Z := hour * HOUR + minute * (60 * SECOND).
Lemma dt_add_later now us : 0 <= now -> 0 < us -> now + us <= MAX_DATETIME -> dt_add (Naive now) us = Ok (Naive (now + us)).
Proof. intros H1 H2 H3. unfold dt_add, in_range. rewrite (proj2 (Z.leb_le 0 (now + us))) by lia. by rewrite (proj2 (Z.leb_le (now + us) MAX_DATETIME)) by lia. Qed.
Lemma first_occurrence now d t :
  0 <= d < DAY -> t = now - now mod DAY + d -> let n := if t <=? now then t + DAY else t in
  now < n <= now + DAY /\ n mod DAY = d /\ (forall u, now < u -> u mod DAY = d -> n <= u).
Proof.
  intros Hd Ht n. assert (HD : 0 < DAY) by (vm_compute; done).
  pose proof (Z.div_mod now DAY ltac:(lia)) as E. pose proof (Z.mod_pos_bound now DAY HD) as Hm.
  assert (En : exists k, n = DAY * k + d /\ now < n <= now + DAY).
  { unfold n. destruct (t <=? now) eqn:El.
    - exists (now / DAY + 1). split; [|lia]. rewrite Ht. nia.
    - exists (now / DAY). split; [|lia]. rewrite Ht. nia. }
  destruct En as (k & En & Hn). split; [done|]. split.
  - rewrite En, Z.mul_comm, Z.add_comm, Z_mod_plus_full. by apply Z.mod_small.
  - intros u Hu Hud. pose proof (Z.div_mod u DAY ltac:(lia)) as Eu. rewrite Hud in Eu.
    destruct (Z.le_gt_cases k (u / DAY)) as [Hk|Hk].
    + assert (DAY * k <= DAY * (u / DAY)) by (apply Z.mul_le_mono_nonneg_l; lia). lia.
    + assert (DAY * (u / DAY) <= DAY * (k - 1)) by (apply Z.mul_le_mono_nonneg_l; lia). lia.
Qed.
Lemma cron_occurrence cron first second rest minute hour now :
  py_split (py_strip cron) = first :: second :: rest -> int_value (PStr first) = Ok minute -> int_value (PStr second) = Ok hour ->
  0 <= minute <= 59 -> 0 <= hour <= 23 -> 0 <= now -> now + DAY <= MAX_DATETIME ->
  exists t, parse_simple_cron cron (Naive now) = Ok (Naive t) /\ now < t <= now + DAY /\ t mod DAY = time_of_day hour minute
    /\ (forall u, now < u -> u mod DAY = time_of_day hour minute -> t <= u).
Proof.
  intros Hs Hm Hh Bm Bh Hn Hmax. unfold parse_simple_cron. rewrite Hs, Hm. cbn [res_bind]. rewrite Hh. cbn [res_bind].
  unfold dt_replace. rewrite !(proj2 (Z.leb_le _ _)) by lia. cbn [negb andb raise_if res_bind try_except dt_le].
  assert (Hd : 0 <= time_of_day hour minute < DAY) by (unfold time_of_day, DAY, HOUR, SECOND; lia).
  set (t := now - now mod DAY + time_of_day hour minute).
  assert (Ht : now - now mod DAY + hour * HOUR + minute * (60 * SECOND) = t) by (unfold t, time_of_day; lia). rewrite Ht.
  pose proof (first_occurrence now _ t Hd eq_refl) as H0. cbn zeta in H0. destruct (t <=? now).
  - exists (t + DAY). split; [|done]. unfold dt_add, in_range. rewrite !(proj2 (Z.leb_le _ _)) by lia. done.
  - by exists t.
Qed.
(** [int] raises only these. *)
Definition int_errors_ok : Prop :=
  forall v e, int_value v = Raise e -> existsb (isinstance (exn_cls e)) [TypeError; ValueError; OverflowError] = true.
Lemma cron_later cron now :
  int_errors_ok -> 0 <= now -> now + DAY <= MAX_DATETIME ->
  exists t, parse_simple_cron cron (Naive now) = Ok (Naive t) /\ now < t.
Proof.
  intros Hint Hn Hmax.
  assert (Hdef : exists t, dt_add (Naive now) _DEFAULT_INTERVAL = Ok (Naive t) /\ now < t).
  { exists (now + HOUR). unfold DAY in Hmax. assert (0 < HOUR) by (vm_compute; done). split; [apply dt_add_later|]; unfold _DEFAULT_INTERVAL; lia. }
  destruct (py_split (py_strip cron)) as [|first [|second rest]] eqn:Es; [by unfold parse_simple_cron; rewrite Es..|].
  destruct (int_value (PStr first)) as [minute|e] eqn:Em.
  2: { unfold parse_simple_cron. rewrite Es, Em. cbn [res_bind try_except]. by rewrite (Hint _ _ Em). }
  destruct (int_value (PStr second)) as [hour|e] eqn:Eh.
  2: { unfold parse_simple_cron. rewrite Es, Em. cbn [res_bind]. rewrite Eh. cbn [res_bind try_except]. by rewrite (Hint _ _ Eh). }
  destruct ((0 <=? hour) && (hour <=? 23) && (0 <=? minute) && (minute <=? 59)) eqn:Eb.
  - rewrite !andb_true_iff, !Z.leb_le in Eb. destruct_and! Eb.
    destruct (cron_occurrence cron first second rest minute hour now) as (t & Ht & Hl & _); [done..|lia|lia|done|done|].
    exists t. split; [done | lia].
  - unfold parse_simple_cron. rewrite Es, Em. cbn [res_bind]. rewrite Eh. cbn [res_bind]. unfold dt_replace. by rewrite Eb.
Qed.

(** C37. A repeating task gets a later run, and a daily one the right one.  Without a
    fixed time, and provided the interval is absent or a positive integer (a negative
    one gives a past time, [negative_interval_always_due]), the next run is later than
    now.  Without fixed time and interval, a schedule of a valid minute and hour runs
    at the first instant after now with that time of day, within a day.  Times are at
    least a day before the end of the year 9999, and [int] raises only the three
    exceptions it is documented to raise. *)
Theorem next_run_is_next_occurrence (schedule : ScheduleConfig) (now : Z)
  (Hint : int_errors_ok) (Hlaw : CronPlatformLaws) (Hnow : 0 <= now) (Hmax : now + DAY <= MAX_DATETIME)
  (Hiso : truthy (sc_iso_time schedule) = false) :
  ((truthy (sc_interval_seconds schedule) = false \/ exists n, sc_interval_seconds schedule = PInt n /\ 0 < n) ->
    exists t, compute schedule (Naive now) = Ok (Naive t) /\ now < t)
  /\ (forall cron first second rest minute hour,
       truthy (sc_interval_seconds schedule) = false -> sc_cron schedule = PStr cron ->
       py_split (py_strip cron) = first :: second :: rest ->
       int_value (PStr first) = Ok minute -> int_value (PStr second) = Ok hour -> 0 <= minute <= 59 -> 0 <= hour <= 23 ->
       exists t, compute schedule (Naive now) = Ok (Naive t) /\ now < t <= now + DAY
         /\ t mod DAY = time_of_day hour minute
         /\ (forall u, now < u -> u mod DAY = time_of_day hour minute -> t <= u)).
Proof.
  assert (Hrest : exists t, (if truthy (sc_cron schedule) then parse_simple_cron (py_str value_repr (sc_cron schedule)) (Naive now)
                             else dt_add (Naive now) _DEFAULT_INTERVAL) = Ok (Naive t) /\ now < t).
  { destruct (truthy (sc_cron schedule)); [by apply cron_later|].
    assert (0 < HOUR) by (vm_compute; done). exists (now + HOUR). unfold DAY in Hmax. split; [apply dt_add_later|]; unfold _DEFAULT_INTERVAL; lia. }
  split.
  - intros Hi. unfold compute, compute_iso. rewrite Hiso. cbn [res_bind]. unfold compute_interval.
    destruct Hi as [-> | (n & -> & Hn)]; [exact Hrest|].
    destruct (truthy (PInt n)); [|exact Hrest]. rewrite int_of_int. cbn [res_bind]. unfold timedelta_seconds.
    destruct (negb _); cbn [raise_if res_bind try_except]; [exact Hrest|].
    unfold dt_add, in_range. destruct (negb _); cbn [raise_if res_bind try_except]; [exact Hrest|].
    exists (now + n * SECOND). split; [done|]. unfold SECOND. lia.
  - intros cron first second rest minute hour Hi Hc Hs Hm Hh Bm Bh.
    unfold compute, compute_iso, compute_interval. rewrite Hiso, Hi, Hc. cbn [res_bind].
    assert (truthy (PStr cron) = true) as ->; [|by eapply cron_occurrence].
    destruct cron; [|done]. by vm_compute in Hs.
Qed.
End Calculator.

(** ** Instances *)
Module CronExample.
Fixpoint digits (acc : Z) (s : string) : option Z :=
  match s with
  | EmptyString => Some acc
  | String a r => if between 48 57 (byte a) then digits (10 * acc + (byte a - 48)) r else None
  end.
Definition parse_int (s : string) : res Z :=
  match s with
  | EmptyString => Raise (Exn ValueError "invalid literal for int()")
  | String "-" r => match digits 0 r with Some z => Ok (- z) | None => Raise (Exn ValueError "invalid literal for int()") end
  | _ => match digits 0 s with Some z => Ok z | None => Raise (Exn ValueError "invalid literal for int()") end
  end.
(** Plain decimals, and one ISO text *)
#[export] Instance example_cron : CronPlatform := {
  fromisoformat s :=
    if bool_decide (s = "2030-01-01T09:00:00Z") then Ok (Aware 64029344400000000)
    else Raise (Exn ValueError "Invalid isoformat string");
  int_value v := match v with PInt z => Ok z | PStr s => parse_int s | _ => Raise (Exn TypeError "int() argument") end;
  value_repr _ := "object"
}.
#[export] Instance example_cron_laws : CronPlatformLaws.
Proof. by split. Qed.
Lemma example_int_errors : int_errors_ok.
Proof.
  intros v e Hv. assert (He : exn_cls e = TypeError \/ exn_cls e = ValueError).
  { revert Hv. destruct v; cbn; try (by intros [= <-]; left). unfold parse_int.
    repeat case_match; intros [= <-]; by right. }
  by destruct He as [-> | ->].
Qed.
Definition noon : Z := 739000 * DAY + 12 * HOUR.
Definition task (next : option pydatetime) : ScheduledTask :=
  MkTask "t" "n" "p" PENDING no_schedule None next 0 None None "local" true [] 0 "alice" None None "d" "pj".
End CronExample.
Import CronExample.

Lemma next_run_is_next_occurrence_witness :
  compute (_parse_schedule "30 9") (Naive noon) = Ok (Naive (739001 * DAY + 9 * HOUR + 1800 * SECOND))
  /\ exists t, compute (_parse_schedule "30 9") (Naive noon) = Ok (Naive t) /\ noon < t <= noon + DAY
       /\ t mod DAY = time_of_day 9 30 /\ (forall u, noon < u -> u mod DAY = time_of_day 9 30 -> t <= u).
Proof.
  split; [vm_compute; reflexivity|].
  refine (proj2 (next_run_is_next_occurrence (_parse_schedule "30 9") noon example_int_errors example_cron_laws _ _ _)
    "30 9" "30" "9" [] 30 9 _ _ _ _ _ _ _); try reflexivity; by vm_compute.
Defined.

(** ** Where schedules do not do what they should *)
(** An ISO time with a time zone is accepted and kept; comparing it with the naive
    present raises, so the selection fails for all tasks, and with it the loop that
    runs them. *)
Theorem zoned_time_stops_selection :
  exists next, compute (_parse_schedule "2030-01-01T09:00:00Z") (Naive noon) = Ok next
    /\ forall rest, exists e, select (Naive noon) [] [] (task (Some next) :: rest) = Raise e.
Proof. eexists. split; [vm_compute; reflexivity|]. intros rest. eexists. reflexivity. Qed.
(** A negative interval is accepted; the next run is always in the past. *)
Theorem negative_interval_always_due :
  compute (_parse_schedule "-5m") (Naive noon) = Ok (Naive (noon - 300 * SECOND))
  /\ select (Naive noon) [] [] [task (Some (Naive (noon - 300 * SECOND)))] = Ok [task (Some (Naive (noon - 300 * SECOND)))].
Proof. split; vm_compute; reflexivity. Qed.
