(* ===== verification/CronEngine.v ===== *)
(** * The cron engine ([scheduler/engine.py], [execution.py], [recovery.py])

    One engine per project keeps the tasks of the database in memory, runs the due
    ones and lets users pause, resume and remove them while the database may fail
    at any access, also after it committed a write.

    Control operations hold the lock of their task and are [Coroutine]s: between two
    accesses others may change the database.  The coroutine that runs a task is cut
    where it waits for the executor or for the completion callback ([Owner]).  Its
    cancellation while it waits for the database is the failure of that access: both
    leave the memory as it is and end the coroutine.  Task objects are shared between
    the engine and the coroutines: [ce_tasks] holds references into [ce_heap].

    A control operation, a tick, a start and a stop are each one step of a history
    ([cron_event]): they are interleaved with what others write to the database, not
    with each other's changes of the memory.  For the operations on one task the lock
    of the task gives this; a control operation that passed the lifecycle check
    before a stop began can in fact overlap the stop's waits, and this interleaving is
    not modelled.

    The engine has a database.  Not modelled: the audit record of a quarantine, whose
    failures are ignored, and the end of a coroutine that its callback has not yet
    removed from [_execute_tasks].  Clock readings are arguments, and the result of
    every bounded wait is taken from [ce_waits]. *)
From S2P Require Import Prelude PyStr Json PyValue ShellSemantics Coroutine SchedulerStore CronSchedule.
Open Scope Z_scope.

(** ** State *)
Inductive CronEngineState := NEW | ACTIVE | STOPPING | STOPPED | QUARANTINED.
#[export] Instance CronEngineState_eq_dec : EqDecision CronEngineState.
Proof. solve_decision. Defined.
Record PendingPersistence := MkPending {
  pp_operation_id : string; pp_desired_status : string; pp_expected_version : Z; pp_is_control_op : bool; pp_target_version : Z
}.
(** An execution: its claim, and the epoch and version at its start *)
Record Token := MkToken { tk_execution_id : string; tk_epoch : Z; tk_version : Z }.
Inductive Phase := Created | Executing (x : Token) | Completing (x : Token).
Record Owner := MkOwner { ow_task : nat; ow_phase : Phase }.
(** [ce_retained]: whether the reconciliation that [stop] left behind still runs *)
Record Cron := MkCron {
  ce_heap : list ScheduledTask;
  ce_tasks : list (string * nat);
  ce_epochs : list (string * Z);
  ce_pending : list (string * PendingPersistence);
  ce_owners : list (string * Owner);
  ce_retained : option bool;
  ce_state : CronEngineState;
  ce_degraded : bool;
  ce_last_sweep : Z;
  ce_uuids : Z;
  ce_waits : list bool
}.
(** [CronEngine.__init__] *)
Class CronConfig := MkCronConfig { cc_project_id : string; cc_policy_digest : string; cc_lease : Z; cc_executor : bool; cc_on_complete : bool }.
Definition new_cron (waits : list bool) : Cron := MkCron [] [] [] [] [] None NEW false 0 0 waits.

#[export] Instance sched_interferes : Interferes SchedDb sched_op := sched_run.
Abbreviation World := (Coroutine.World Cron SchedDb sched_op).
Abbreviation eng := (Coroutine.eng Cron SchedDb sched_op).

(** ** Fields *)
Definition with_heap (f : list ScheduledTask -> list ScheduledTask) (e : Cron) : Cron :=
  MkCron (f (ce_heap e)) (ce_tasks e) (ce_epochs e) (ce_pending e) (ce_owners e) (ce_retained e) (ce_state e) (ce_degraded e) (ce_last_sweep e) (ce_uuids e) (ce_waits e).
Definition with_tasks (f : list (string * nat) -> list (string * nat)) (e : Cron) : Cron :=
  MkCron (ce_heap e) (f (ce_tasks e)) (ce_epochs e) (ce_pending e) (ce_owners e) (ce_retained e) (ce_state e) (ce_degraded e) (ce_last_sweep e) (ce_uuids e) (ce_waits e).
Definition with_epochs (f : list (string * Z) -> list (string * Z)) (e : Cron) : Cron :=
  MkCron (ce_heap e) (ce_tasks e) (f (ce_epochs e)) (ce_pending e) (ce_owners e) (ce_retained e) (ce_state e) (ce_degraded e) (ce_last_sweep e) (ce_uuids e) (ce_waits e).
Definition with_pending (f : list (string * PendingPersistence) -> list (string * PendingPersistence)) (e : Cron) : Cron :=
  MkCron (ce_heap e) (ce_tasks e) (ce_epochs e) (f (ce_pending e)) (ce_owners e) (ce_retained e) (ce_state e) (ce_degraded e) (ce_last_sweep e) (ce_uuids e) (ce_waits e).
Definition with_owners (f : list (string * Owner) -> list (string * Owner)) (e : Cron) : Cron :=
  MkCron (ce_heap e) (ce_tasks e) (ce_epochs e) (ce_pending e) (f (ce_owners e)) (ce_retained e) (ce_state e) (ce_degraded e) (ce_last_sweep e) (ce_uuids e) (ce_waits e).
Definition with_retained (running : option bool) (e : Cron) : Cron :=
  MkCron (ce_heap e) (ce_tasks e) (ce_epochs e) (ce_pending e) (ce_owners e) running (ce_state e) (ce_degraded e) (ce_last_sweep e) (ce_uuids e) (ce_waits e).
Definition with_state (s : CronEngineState) (e : Cron) : Cron :=
  MkCron (ce_heap e) (ce_tasks e) (ce_epochs e) (ce_pending e) (ce_owners e) (ce_retained e) s (ce_degraded e) (ce_last_sweep e) (ce_uuids e) (ce_waits e).
Definition with_degraded (b : bool) (e : Cron) : Cron :=
  MkCron (ce_heap e) (ce_tasks e) (ce_epochs e) (ce_pending e) (ce_owners e) (ce_retained e) (ce_state e) b (ce_last_sweep e) (ce_uuids e) (ce_waits e).
Definition with_sweep (t : Z) (e : Cron) : Cron :=
  MkCron (ce_heap e) (ce_tasks e) (ce_epochs e) (ce_pending e) (ce_owners e) (ce_retained e) (ce_state e) (ce_degraded e) t (ce_uuids e) (ce_waits e).
Definition with_oracle (uuids : Z) (waits : list bool) (e : Cron) : Cron :=
  MkCron (ce_heap e) (ce_tasks e) (ce_epochs e) (ce_pending e) (ce_owners e) (ce_retained e) (ce_state e) (ce_degraded e) (ce_last_sweep e) uuids waits.

(** Assignments to a task *)
Definition set_status (s : CronStatus) (t : ScheduledTask) : ScheduledTask :=
  MkTask (st_id t) (st_name t) (st_prompt t) s (st_schedule t) (st_last_run t) (st_next_run t) (st_run_count t) (st_last_result t) (st_error t)
    (st_deliver_to t) (st_enabled t) (st_meta t) (st_lifecycle_version t) (st_principal_id t) (st_execution_id t) (st_lease_until t)
    (st_policy_digest t) (st_project_id t).
Definition set_error (error : string) (t : ScheduledTask) : ScheduledTask :=
  MkTask (st_id t) (st_name t) (st_prompt t) (st_status t) (st_schedule t) (st_last_run t) (st_next_run t) (st_run_count t) (st_last_result t) (Some error)
    (st_deliver_to t) (st_enabled t) (st_meta t) (st_lifecycle_version t) (st_principal_id t) (st_execution_id t) (st_lease_until t)
    (st_policy_digest t) (st_project_id t).
Definition set_version (v : Z) (t : ScheduledTask) : ScheduledTask :=
  MkTask (st_id t) (st_name t) (st_prompt t) (st_status t) (st_schedule t) (st_last_run t) (st_next_run t) (st_run_count t) (st_last_result t) (st_error t)
    (st_deliver_to t) (st_enabled t) (st_meta t) v (st_principal_id t) (st_execution_id t) (st_lease_until t)
    (st_policy_digest t) (st_project_id t).
Definition set_lease (execution : option string) (lease : option Z) (t : ScheduledTask) : ScheduledTask :=
  MkTask (st_id t) (st_name t) (st_prompt t) (st_status t) (st_schedule t) (st_last_run t) (st_next_run t) (st_run_count t) (st_last_result t) (st_error t)
    (st_deliver_to t) (st_enabled t) (st_meta t) (st_lifecycle_version t) (st_principal_id t) execution lease
    (st_policy_digest t) (st_project_id t).
Definition set_last_run (started : pydatetime) (t : ScheduledTask) : ScheduledTask :=
  MkTask (st_id t) (st_name t) (st_prompt t) (st_status t) (st_schedule t) (Some started) (st_next_run t) (st_run_count t) (st_last_result t) (st_error t)
    (st_deliver_to t) (st_enabled t) (st_meta t) (st_lifecycle_version t) (st_principal_id t) (st_execution_id t) (st_lease_until t)
    (st_policy_digest t) (st_project_id t).
Definition set_next_run (next : pydatetime) (t : ScheduledTask) : ScheduledTask :=
  MkTask (st_id t) (st_name t) (st_prompt t) (st_status t) (st_schedule t) (st_last_run t) (Some next) (st_run_count t) (st_last_result t) (st_error t)
    (st_deliver_to t) (st_enabled t) (st_meta t) (st_lifecycle_version t) (st_principal_id t) (st_execution_id t) (st_lease_until t)
    (st_policy_digest t) (st_project_id t).
Definition set_result (result : string) (t : ScheduledTask) : ScheduledTask :=
  MkTask (st_id t) (st_name t) (st_prompt t) (st_status t) (st_schedule t) (st_last_run t) (st_next_run t) (st_run_count t + 1) (Some result) (st_error t)
    (st_deliver_to t) (st_enabled t) (st_meta t) (st_lifecycle_version t) (st_principal_id t) (st_execution_id t) (st_lease_until t)
    (st_policy_digest t) (st_project_id t).

Definition no_task : ScheduledTask :=
  MkTask EmptyString EmptyString EmptyString PENDING no_schedule None None 0 None None "local" true [] 0 EmptyString None None EmptyString EmptyString.
Definition task_at (r : nat) : eng ScheduledTask :=
  let+ e := get_engine in eng_ret (default no_task (ce_heap e !! r)).
Definition set_task (r : nat) (f : ScheduledTask -> ScheduledTask) : eng unit := modify (with_heap (alter f r)).
Definition new_task (t : ScheduledTask) : eng nat :=
  let+ e := get_engine in modify (with_heap (fun h => h ++ [t])) ;;+ eng_ret (length (ce_heap e)).
Definition find_task (task_id : string) : eng (option nat) := let+ e := get_engine in eng_ret (dict_get task_id (ce_tasks e)).
Definition put_task (task_id : string) (r : nat) : eng unit := modify (with_tasks (dict_set task_id r)).
Definition drop_task (task_id : string) : eng unit := modify (with_tasks (dict_pop task_id)).
Definition set_epoch (task_id : string) (v : Z) : eng unit := modify (with_epochs (dict_set task_id v)).
Definition epoch_in (e : Cron) (task_id : string) : Z := default 0 (dict_get task_id (ce_epochs e)).
Definition set_marker (task_id : string) (m : PendingPersistence) : eng unit := modify (with_pending (dict_set task_id m)).
Definition pop_marker (task_id : string) : eng unit := modify (with_pending (dict_pop task_id)).
(** Pop the marker when it is that of the operation *)
Definition owns_marker (operation_id : string) (m : option PendingPersistence) : bool :=
  match m with Some m => bool_decide (pp_operation_id m = operation_id) | None => false end.
Definition pop_own_marker (task_id operation_id : string) : eng unit :=
  let+ e := get_engine in
  if owns_marker operation_id (dict_get task_id (ce_pending e)) then pop_marker task_id else eng_ret tt.
Definition set_degraded (b : bool) : eng unit := modify (with_degraded b).
Definition drop_owner (task_id : string) : eng unit := modify (with_owners (dict_pop task_id)).
(** [self._tasks[task.id] = task; self._execution_epoch[task.id] = task.lifecycle_version] *)
Definition register (t : ScheduledTask) : eng unit :=
  let+ r := new_task t in put_task (st_id t) r ;;+ set_epoch (st_id t) (st_lifecycle_version t).
(** The result of the next bounded wait: whether it ended in time *)
Definition wait_ends : eng bool :=
  let+ e := get_engine in modify (with_oracle (ce_uuids e) (tl (ce_waits e))) ;;+ eng_ret (hd true (ce_waits e)).

(** Random identities and the comparison of an integer with a float *)
Class CronRuntime := { uuid_hex : Z -> string; int_ge_float : Z -> string -> bool }.

Section Engine.
Context {platform : CronPlatform} {runtime : CronRuntime} {config : CronConfig}.

Definition fresh_uuid : eng string :=
  let+ e := get_engine in modify (with_oracle (ce_uuids e + 1) (ce_waits e)) ;;+ eng_ret (uuid_hex (ce_uuids e)).

(** ** Repository *)
Definition repo_get (task_id : string) : eng (option SchedRow) := db_read (get_scheduled_task task_id None (Some cc_project_id)).
Definition repo_control_finalize (task_id : string) (expected target : Z) (status : string) (next_run : option pydatetime)
    (error : option string) : eng Z :=
  db_write (control_finalize_scheduled_task task_id expected target status next_run error).
(** [row is not None and version == target and status == desired] *)
Definition confirmed (target : Z) (desired : string) (row : option SchedRow) : bool :=
  match row with Some r => (sr_lifecycle_version r =? target) && bool_decide (sr_status r = desired) | None => false end.

(** ** Journal *)
Definition _write_journal_entry (now : Z) (operation_id : string) (task : ScheduledTask) (operation_type desired : string)
    (expected target : Z) : eng Z :=
  db_write (insert_scheduler_journal_entry now operation_id (st_id task) operation_type desired expected target
              (st_principal_id task) cc_policy_digest cc_project_id).
Definition _mark_journal_applied (now : Z) (operation_id : string) : eng unit :=
  eng_try (db_write (mark_scheduler_journal_applied now operation_id) ;;+ eng_ret tt) (fun _ => eng_ret tt).

(** ** Epochs *)
Definition _bump_epoch (task_id : string) : eng unit :=
  let+ e := get_engine in
  let new_epoch := epoch_in e task_id + 1 in
  set_epoch task_id new_epoch ;;+
  match dict_get task_id (ce_tasks e) with Some r => set_task r (set_version new_epoch) | None => eng_ret tt end.
Definition _epoch_changed (task_id : string) (epoch_at_start : Z) : eng bool :=
  let+ e := get_engine in eng_ret (negb (epoch_in e task_id =? epoch_at_start)).
(** [task.lifecycle_version = v; self._execution_epoch[task.id] = v] *)
Definition adopt_version (task_id : string) (r : nat) (v : Z) : eng unit := set_task r (set_version v) ;;+ set_epoch task_id v.

(** ** Writing a state *)
Definition _finalize_task_state (r : nat) (expected_version : Z) (operation_id : string) : eng bool :=
  let+ task := task_at r in
  let id := st_id task in
  let+ e := get_engine in
  let foreign := match dict_get id (ce_pending e) with
                 | Some m => pp_is_control_op m && negb (bool_decide (pp_operation_id m = operation_id))
                 | None => false
                 end in
  if foreign then eng_ret false
  else
    set_marker id (MkPending operation_id (cron_status_value (st_status task)) expected_version false 0) ;;+
    let+ rowcount := db_write (finalize_scheduled_task id (default EmptyString (st_execution_id task)) expected_version
                       (cron_status_value (st_status task))
                       (MkChanges (st_last_run task) (st_next_run task) (Some (st_run_count task)) (st_last_result task) (st_error task))) in
    pop_own_marker id operation_id ;;+ set_task r (set_lease None None) ;;+ eng_ret (negb (rowcount =? 0)).

(** The write of a control operation: when it raises or hits no row, the row is read
    back to see whether it was committed after all *)
Definition control_cas (id : string) (expected target : Z) (desired : string) (next_run : option pydatetime) (error : option string)
    : eng bool :=
  let+ rowcount := eng_try (repo_control_finalize id expected target desired next_run error)
    (fun e => let+ row := repo_get id in if confirmed target desired row then eng_ret 1 else eng_lift (Raise e)) in
  if rowcount =? 0
  then let+ row := eng_try (repo_get id) (fun _ => eng_ret None) in eng_ret (confirmed target desired row)
  else eng_ret true.
(** The row was read: write the desired state over its version *)
Definition persist_over (now : Z) (r : nat) (is_new_op : bool) (operation_id operation_type : string) (task : ScheduledTask)
    (db_version : Z) : eng bool :=
  let id := st_id task in
  let desired := cron_status_value (st_status task) in
  let target := db_version + 1 in
  set_marker id (MkPending operation_id desired db_version true target) ;;+
  (if is_new_op then _write_journal_entry now operation_id task operation_type desired db_version target else eng_ret 0) ;;+
  let+ won := control_cas id db_version target desired (st_next_run task) (st_error task) in
  pop_own_marker id operation_id ;;+
  (if won : bool then adopt_version id r target else eng_ret tt) ;;+
  _mark_journal_applied now operation_id ;;+ eng_ret won.
Definition _persist_task_state (now : Z) (r : nat) (expected_version : option Z) (operation : option string) (operation_type : string)
    : eng bool :=
  let is_new_op := bool_decide (operation = None) in
  let+ operation_id := match operation with Some op => eng_ret op | None => fresh_uuid end in
  match expected_version with
  | Some v => _finalize_task_state r v operation_id
  | None =>
      let+ task := task_at r in
      let id := st_id task in
      let desired := cron_status_value (st_status task) in
      let+ row := eng_try (repo_get id) (fun e =>
        set_marker id (MkPending operation_id desired (st_lifecycle_version task - 1) true (st_lifecycle_version task)) ;;+
        eng_lift (Raise e)) in
      let settled := (if is_new_op then eng_ret tt else _mark_journal_applied now operation_id) ;;+ eng_ret true in
      match row with
      | None => pop_marker id ;;+ settled
      | Some row =>
          if bool_decide (sr_status row = desired) then
            adopt_version id r (sr_lifecycle_version row) ;;+ pop_marker id ;;+ settled
          else persist_over now r is_new_op operation_id operation_type task (sr_lifecycle_version row)
      end
  end.

(** ** Executions *)
Definition forget_lease (r : nat) : eng unit := set_task r (set_lease None None).
Definition _clear_lease (r : nat) (execution_id : string) : eng unit :=
  let+ task := task_at r in
  eng_try (db_write (clear_scheduled_task_lease (st_id task) execution_id) ;;+ eng_ret tt) (fun _ => eng_ret tt) ;;+ forget_lease r.
(** [CancelledError] reaches the coroutine *)
Definition execution_cancelled (task_id : string) (o : Owner) : eng unit :=
  match ow_phase o with
  | Created => eng_ret tt
  | Executing x | Completing x =>
      let+ changed := _epoch_changed task_id (tk_epoch x) in
      if changed : bool then forget_lease (ow_task o)
      else
        set_task (ow_task o) (fun t => set_error "cancelled" (set_status CANCELLED t)) ;;+
        eng_try (_finalize_task_state (ow_task o) (tk_version x) (tk_execution_id x) ;;+ eng_ret tt) (fun _ => eng_ret tt)
  end.
Definition _cancel_in_flight_execution (task_id : string) : eng bool :=
  let+ e := get_engine in
  match dict_get task_id (ce_owners e) with
  | None => eng_ret true
  | Some o =>
      let+ ends := wait_ends in
      if ends : bool then execution_cancelled task_id o ;;+ drop_owner task_id ;;+ eng_ret true
      else eng_ret false
  end.

Definition _check_snapshot_drift (t : ScheduledTask) : option string :=
  if str_empty cc_policy_digest then None
  else if negb (bool_decide (st_policy_digest t = cc_policy_digest)) then
    Some ("security-context drift: task policy_digest != engine policy_digest (task was created under a different effective policy; "
          +:+ "refusing to execute under the current policy - fail-closed)")
  else if negb (bool_decide (st_project_id t = cc_project_id)) then
    Some ("security-context drift: task project_id != engine project_id (task was created under a different project root; "
          +:+ "refusing to execute under the current project - fail-closed)")
  else None.
(** The new state is kept even when it cannot be written. *)
Definition quarantine (now : Z) (task_id : string) (r : nat) (error : string) : eng unit :=
  _bump_epoch task_id ;;+
  set_task r (fun t => set_error error (set_status FAILED t)) ;;+
  eng_try (_persist_task_state now r None None "quarantine" ;;+ eng_ret tt) (fun _ => eng_ret tt).
Definition _quarantine_drifted_task (now : Z) (task_id : string) (r : nat) (reason : string) : eng unit :=
  quarantine now task_id r ("quarantined: " +:+ reason).

(** The claim of a task, with the read-back of a failed write *)
Definition claim (started : Z) (task : ScheduledTask) (execution_id : string) : eng bool :=
  let version := st_lifecycle_version task in
  eng_try
    (let+ rowcount := db_write (claim_scheduled_task (st_id task) execution_id started (started + cc_lease) version
                                  (Some (st_principal_id task)) (Some (st_project_id task)) (Some (st_policy_digest task))) in
     eng_ret (rowcount =? 1))
    (fun _ =>
       let+ row := eng_try (repo_get (st_id task)) (fun _ => eng_ret None) in
       eng_ret (match row with
                | Some r => bool_decide (sr_execution_id r = Some execution_id) && bool_decide (sr_status r = "running")
                            && (sr_lifecycle_version r =? version)
                | None => false
                end)).
(** [_execute_task] up to the executor: [None] when the coroutine ends *)
Definition begin_execution (started : Z) (task_id : string) (r : nat) : eng (option Token) :=
  let+ task := task_at r in
  if str_empty (st_principal_id task) || bool_decide (st_principal_id task = "legacy") then
    quarantine started task_id r "task has no authenticated principal_id (data integrity error)" ;;+ eng_ret None
  else match _check_snapshot_drift task with
  | Some reason => _quarantine_drifted_task started task_id r reason ;;+ eng_ret None
  | None =>
      let+ e := get_engine in
      let+ execution_id := fresh_uuid in
      let+ claimed := claim started task execution_id in
      if claimed : bool then
        set_task r (fun t => set_lease (Some execution_id) (Some (started + cc_lease))
                               (set_last_run (Naive started) (set_status RUNNING t))) ;;+
        eng_ret (Some (MkToken execution_id (epoch_in e task_id) (st_lifecycle_version task)))
      else eng_ret None
  end.
(** The end of [_execute_task]: the state is written unless the epoch moved on *)
Definition conclude_execution (task_id : string) (r : nat) (x : Token) : eng unit :=
  let+ changed := _epoch_changed task_id (tk_epoch x) in
  if changed : bool then forget_lease r
  else eng_try (_finalize_task_state r (tk_version x) (tk_execution_id x) ;;+ eng_ret tt) (fun _ => eng_ret tt).
Definition failed_execution (task_id : string) (r : nat) (x : Token) (error : string) : eng unit :=
  let+ changed := _epoch_changed task_id (tk_epoch x) in
  if changed : bool then forget_lease r
  else set_task r (fun t => set_error error (set_status FAILED t)) ;;+ conclude_execution task_id r x.
(** [run_count >= repeat] *)
Definition reached (run_count : Z) (repeat : pyval) : res bool :=
  match repeat with
  | PInt z => Ok (z <=? run_count)
  | PBool b => Ok ((if b then 1 else 0) <=? run_count)
  | PFloat lit => Ok (int_ge_float run_count lit)
  | _ => Raise (Exn TypeError "'>=' not supported between instances of 'int' and other types")
  end.
Definition result_text (result : pyval) : string :=
  if truthy result then text_of (take 2000 (chars (py_str value_repr result))) else EmptyString.
(** After the executor: the assignments before the completion callback *)
Definition advance_schedule (now : pydatetime) (r : nat) : eng unit :=
  let+ t := task_at r in
  let+ complete := eng_lift (if truthy (sc_iso_time (st_schedule t)) then Ok true
                             else if truthy (sc_repeat (st_schedule t)) then reached (st_run_count t) (sc_repeat (st_schedule t))
                             else Ok false) in
  if complete : bool then set_task r (set_status COMPLETED)
  else
    set_task r (set_status PENDING) ;;+
    let+ next := eng_lift (compute (st_schedule t) now) in set_task r (set_next_run next).
Inductive ExecutorResult := Returns (result : pyval) | Fails (error : string).
(** The executor of [task_id] ended *)
Definition executor_ended (now : pydatetime) (task_id : string) (r : nat) (x : Token) (result : ExecutorResult)
    : eng (option Token) :=
  match result with
  | Fails error => failed_execution task_id r x error ;;+ eng_ret None
  | Returns value =>
      let+ changed := _epoch_changed task_id (tk_epoch x) in
      if changed : bool then forget_lease r ;;+ eng_ret None
      else
        set_task r (set_result (result_text value)) ;;+
        let+ error := eng_try (advance_schedule now r ;;+ eng_ret None) (fun e => eng_ret (Some (exn_msg e))) in
        match error with
        | Some message => failed_execution task_id r x message ;;+ eng_ret None
        | None => if cc_on_complete then eng_ret (Some x) else conclude_execution task_id r x ;;+ eng_ret None
        end
  end.

(** ** The coroutine of a task *)
Definition set_phase (task_id : string) (r : nat) (next : Phase) : eng unit := modify (with_owners (dict_set task_id (MkOwner r next))).
Definition no_executor_result (t : ScheduledTask) : ExecutorResult :=
  Returns (PStr ("[no executor] prompt: " +:+ text_of (take 100 (chars (st_prompt t))))).
Definition after_executor (now : pydatetime) (task_id : string) (r : nat) (x : Token) (result : ExecutorResult) : eng unit :=
  let+ next := executor_ended now task_id r x result in
  match next with Some x => set_phase task_id r (Completing x) | None => drop_owner task_id end.
(** The first part of [_execute_task] *)
Definition run_begin (started : Z) (task_id : string) (r : nat) : eng unit :=
  let+ token := begin_execution started task_id r in
  match token with
  | None => drop_owner task_id
  | Some x =>
      if cc_executor then set_phase task_id r (Executing x)
      else let+ t := task_at r in after_executor (Naive started) task_id r x (no_executor_result t)
  end.
(** The completion callback ended, with an error or not *)
Definition run_completed (task_id : string) (r : nat) (x : Token) (error : option string) : eng unit :=
  match error with
  | Some message => failed_execution task_id r x message
  | None => conclude_execution task_id r x
  end ;;+ drop_owner task_id.
(** What happens to the coroutine of a task *)
Inductive owner_event := Starts | ExecutorEnds (result : ExecutorResult) | CallbackEnds (error : option string).
Definition owner_step (now : Z) (task_id : string) (event : owner_event) : eng unit :=
  let+ e := get_engine in
  match dict_get task_id (ce_owners e) with
  | None => eng_ret tt
  | Some o =>
      match ow_phase o, event with
      | Created, Starts => run_begin now task_id (ow_task o)
      | Executing x, ExecutorEnds result => after_executor (Naive now) task_id (ow_task o) x result
      | Completing x, CallbackEnds error => run_completed task_id (ow_task o) x error
      | _, _ => eng_ret tt
      end
  end.

(** ** Control operations *)
Definition _check_lifecycle_lock (refuse_degraded : bool) : eng (option string) :=
  let+ e := get_engine in
  eng_ret (if bool_decide (ce_state e = STOPPING) || bool_decide (ce_state e = QUARANTINED) then Some "engine_unavailable"
           else if refuse_degraded && ce_degraded e then Some "engine_degraded" else None).
(** [_check_principal(self._tasks.get(task_id), principal_id)] *)
Definition own_task (task_id principal_id : string) : eng (option (nat * ScheduledTask)) :=
  let+ found := find_task task_id in
  match found with
  | None => eng_ret None
  | Some r => let+ t := task_at r in eng_ret (if bool_decide (st_principal_id t = principal_id) then Some (r, t) else None)
  end.
(** A control operation on a task of the principal *)
Definition control (task_id principal_id : string) (body : nat -> ScheduledTask -> eng string) : eng string :=
  let+ locked := _check_lifecycle_lock false in
  match locked with
  | Some message => eng_ret message
  | None =>
      let+ found := own_task task_id principal_id in
      match found with None => eng_ret "not_found" | Some (r, t) => body r t end
  end.
Definition schedule_dict (s : ScheduleConfig) : list (string * pyval) :=
  [("cron", sc_cron s); ("iso_time", sc_iso_time s); ("interval_seconds", sc_interval_seconds s); ("repeat", sc_repeat s)].
Definition create (now : pydatetime) (name prompt : string) (schedule : ScheduleConfig) (deliver_to : string)
    (meta : list (string * pyval)) (principal_id : string) : eng ScheduledTask :=
  let+ locked := _check_lifecycle_lock true in
  match locked with
  | Some message => eng_raise RuntimeError message
  | None =>
      if str_empty principal_id then eng_raise ValueError "principal_id is required for scheduled task creation"
      else
        let+ next_run := eng_lift (compute schedule now) in
        let+ new_id := fresh_uuid in
        let+ id := db_access (insert_scheduled_task new_id name prompt "pending" (schedule_dict schedule) deliver_to meta principal_id
                                (Some next_run) cc_project_id cc_policy_digest) in
        let task := MkTask id name prompt PENDING schedule None (Some next_run) 0 None None deliver_to true meta 0 principal_id
                      None None cc_policy_digest cc_project_id in
        register task ;;+ eng_ret task
  end.
Definition list_tasks (principal_id : option string) (e : Cron) : list ScheduledTask :=
  List.filter (fun t => opt_matches principal_id (st_principal_id t))
    ((fun kv => default no_task (ce_heap e !! kv.2)) <$> ce_tasks e).

(** The result of a pause or a removal *)
Definition control_result (cancel_ok persist_ok : bool) : string :=
  if negb cancel_ok then "cancellation_pending" else if negb persist_ok then "persistence_pending" else "ok".
Definition try_persist (now : Z) (r : nat) (operation : option string) (operation_type : string) : eng bool :=
  eng_try (_persist_task_state now r None operation operation_type) (fun _ => eng_ret false).
(** The new state in memory, the end of the execution, the new state in the database *)
Definition halt (now : Z) (task_id : string) (r : nat) (status : CronStatus) (operation_type : string) : eng (bool * bool) :=
  _bump_epoch task_id ;;+ set_task r (set_status status) ;;+
  let+ cancel_ok := _cancel_in_flight_execution task_id in
  let+ persist_ok := try_persist now r None operation_type in
  eng_ret (cancel_ok, persist_ok).
Definition pause (now : Z) (task_id principal_id : string) : eng string :=
  control task_id principal_id (fun r t =>
    match st_status t with
    | CANCELLED | COMPLETED | FAILED => eng_ret "invalid_state"
    | PAUSED =>
        let+ cancel_ok := _cancel_in_flight_execution task_id in
        let+ e := get_engine in
        let+ persist_ok := match dict_get task_id (ce_pending e) with
                           | Some m => try_persist now r (Some (pp_operation_id m)) "pause"
                           | None => eng_ret true
                           end in
        eng_ret (control_result cancel_ok persist_ok)
    | PENDING | RUNNING =>
        let+ oks := halt now task_id r PAUSED "pause" in eng_ret (control_result oks.1 oks.2)
    end).
Definition is_quarantined (t : ScheduledTask) : bool :=
  match st_error t with Some error => has_prefix "quarantined:" error | None => false end.
Definition remove (now : Z) (task_id principal_id : string) : eng string :=
  control task_id principal_id (fun r t =>
    if bool_decide (st_status t = COMPLETED) || bool_decide (st_status t = FAILED) && negb (is_quarantined t)
    then eng_ret "invalid_state"
    else
      let+ oks := halt now task_id r CANCELLED "remove" in
      (if oks.1 && oks.2 then drop_task task_id else eng_ret tt) ;;+ eng_ret (control_result oks.1 oks.2)).
Definition resume (now : Z) (task_id principal_id : string) : eng string :=
  control task_id principal_id (fun r t =>
    if negb (bool_decide (st_status t = PAUSED)) then eng_ret "invalid_state"
    else
      let+ e := get_engine in
      if bool_decide (is_Some (dict_get task_id (ce_owners e))) then eng_ret "execution_pending"
      else
        let+ next := eng_lift (compute (st_schedule t) (Naive now)) in
        let expected := st_lifecycle_version t in
        let target := expected + 1 in
        let+ rowcount := eng_try (repo_control_finalize task_id expected target "pending" (Some next) None)
          (fun _ => let+ row := eng_try (repo_get task_id) (fun _ => eng_ret None) in
                    eng_ret (if confirmed target "pending" row then 1 else -1)) in
        let+ won := (if rowcount =? 0
                     then let+ row := eng_try (repo_get task_id) (fun _ => eng_ret None) in eng_ret (confirmed target "pending" row)
                     else eng_ret (0 <? rowcount)) in
        if won : bool then
          _bump_epoch task_id ;;+ set_task r (fun t => set_next_run next (set_status PENDING t)) ;;+ eng_ret "ok"
        else eng_ret "persistence_pending").

(** ** Reconciliation *)
(** The versions of a task that is still in memory *)
Definition adopt_if_known (task_id : string) (v : Z) : eng unit :=
  let+ found := find_task task_id in
  match found with Some r => adopt_version task_id r v | None => eng_ret tt end.
Definition _retry_control_marker (task_id : string) (m : PendingPersistence) : eng bool :=
  let settle v := pop_own_marker task_id (pp_operation_id m) ;;+ adopt_if_known task_id v ;;+ eng_ret true in
  let stale := pop_own_marker task_id (pp_operation_id m) ;;+ eng_ret true in
  let+ row := eng_try (let+ row := repo_get task_id in eng_ret (Some row)) (fun _ => eng_ret None) in
  match row with
  | None => eng_ret false
  | Some None => pop_marker task_id ;;+ eng_ret true
  | Some (Some row) =>
      if bool_decide (sr_status row = pp_desired_status m) then settle (sr_lifecycle_version row)
      else if pp_target_version m <=? sr_lifecycle_version row then stale
      else
        let+ rowcount := eng_try
          (repo_control_finalize task_id (pp_expected_version m) (pp_target_version m) (pp_desired_status m) None None)
          (fun _ => let+ row := eng_try (repo_get task_id) (fun _ => eng_ret None) in
                    eng_ret (if confirmed (pp_target_version m) (pp_desired_status m) row then 1 else -1)) in
        if rowcount <? 0 then eng_ret false
        else if rowcount =? 0 then
          let+ row := eng_try (repo_get task_id) (fun _ => eng_ret None) in
          if confirmed (pp_target_version m) (pp_desired_status m) row then settle (pp_target_version m) else stale
        else settle (pp_target_version m)
  end.
(** Put the marker back unless it is still there *)
Definition keep_marker (task_id : string) (m : PendingPersistence) : eng unit :=
  let+ e := get_engine in
  if owns_marker (pp_operation_id m) (dict_get task_id (ce_pending e)) then eng_ret tt else set_marker task_id m.
Definition _classify_executor_marker (task_id : string) (m : PendingPersistence) : eng bool :=
  let+ row := eng_try (let+ row := repo_get task_id in eng_ret (Some row)) (fun _ => eng_ret None) in
  match row with
  | None => keep_marker task_id m ;;+ eng_ret false
  | Some None => pop_own_marker task_id (pp_operation_id m) ;;+ eng_ret true
  | Some (Some row) =>
      if bool_decide (sr_status row = pp_desired_status m) || str_in (sr_status row) ["completed"; "failed"; "cancelled"; "paused"]
      then pop_own_marker task_id (pp_operation_id m) ;;+ eng_ret true
      else keep_marker task_id m ;;+ eng_ret false
  end.
Definition _retry_executor_marker (task_id : string) (m : PendingPersistence) : eng bool :=
  let+ found := find_task task_id in
  match found with
  | None => _classify_executor_marker task_id m
  | Some r =>
      let+ ok := eng_try (let+ b := _finalize_task_state r (pp_expected_version m) (pp_operation_id m) in eng_ret (Some b))
                   (fun _ => eng_ret None) in
      match ok with
      | None => eng_ret false
      | Some true => eng_ret true
      | Some false => _classify_executor_marker task_id m
      end
  end.
(** One marker of the snapshot: whether it is settled *)
Definition reconcile_one (task_id : string) (snapshot : PendingPersistence) : eng bool :=
  let+ locked := wait_ends in
  if negb locked then eng_ret false
  else
    let+ e := get_engine in
    if negb (owns_marker (pp_operation_id snapshot) (dict_get task_id (ce_pending e))) then eng_ret true
    else eng_try (if pp_is_control_op snapshot then _retry_control_marker task_id snapshot
                  else _retry_executor_marker task_id snapshot)
           (fun _ => eng_ret false).
Fixpoint reconcile_all (markers : list (string * PendingPersistence)) : eng (list string) :=
  match markers with
  | [] => eng_ret []
  | (task_id, m) :: rest =>
      let+ ok := reconcile_one task_id m in
      let+ failures := reconcile_all rest in
      eng_ret (if ok : bool then failures else task_id :: failures)
  end.
Definition _reconcile_pending_persistence : eng unit :=
  let+ e := get_engine in
  let+ failures := reconcile_all (ce_pending e) in
  match failures with [] => eng_ret tt | _ => eng_raise ServiceShutdownError "could not persist terminal state for cron task(s)" end.

(** ** Loading *)
Definition load_dict (text : string) : res pyval :=
  try_except (loads default_object_hook default_constant_hook (if str_empty text then "{}" else text))
    [JSONDecodeError; TypeError] (fun _ => Ok (PDict [])).
Definition _task_from_row (row : SchedRow) : res ScheduledTask :=
  let* schedule_data := load_dict (sr_schedule_config row) in
  let* meta := load_dict (sr_meta row) in
  match schedule_data with
  | PDict d =>
      let field k := default PNone (dict_get k d) in
      Ok (MkTask (sr_id row) (sr_name row) (sr_prompt row) (default PENDING (cron_status_of (sr_status row)))
            (MkSchedule (field "cron") (field "iso_time") (field "interval_seconds") (field "repeat"))
            (sr_last_run row) (sr_next_run row) (sr_run_count row) (sr_last_result row) (sr_error row) (sr_deliver_to row) true
            (match meta with PDict m => m | _ => [] end) (sr_lifecycle_version row) (sr_principal_id row) (sr_execution_id row)
            (sr_lease_until row) (sr_policy_digest row) (sr_project_id row))
  | _ => Raise (Exn AttributeError "object has no attribute 'get'")
  end.
Definition load_row (row : SchedRow) : eng unit := let+ task := eng_lift (_task_from_row row) in register task.
Fixpoint eng_each {A} (f : A -> eng unit) (l : list A) : eng unit :=
  match l with [] => eng_ret tt | x :: rest => f x ;;+ eng_each f rest end.
Definition _load_tasks : eng unit :=
  let+ rows := db_read (list_scheduled_tasks None (Some cc_project_id)) in eng_each load_row rows.
Definition adopt_row (task_id : string) (row : option SchedRow) : eng unit :=
  match row with None => drop_task task_id | Some row => load_row row end.
Definition _reload_one_task_from_db (task_id : string) : eng unit :=
  let+ e := get_engine in
  if bool_decide (is_Some (dict_get task_id (ce_pending e))) || bool_decide (is_Some (dict_get task_id (ce_owners e))) then eng_ret tt
  else
    let+ row := eng_try (let+ row := repo_get task_id in eng_ret (Some row)) (fun _ => set_degraded true ;;+ eng_ret None) in
    match row with None => eng_ret tt | Some row => adopt_row task_id row end.

(** ** Replay of the journal *)
Definition replay_one (now : Z) (entry : JournalEntry) : eng unit :=
  let op := je_operation_id entry in
  let+ row := eng_try (let+ row := repo_get (je_task_id entry) in eng_ret (Some row)) (fun _ => eng_ret None) in
  match row with
  | None => eng_ret tt
  | Some None => _mark_journal_applied now op
  | Some (Some row) =>
      if str_in (sr_status row) ["running"; je_desired_status entry; "failed"; "cancelled"] then _mark_journal_applied now op
      else
        let+ found := find_task (je_task_id entry) in
        let+ r := match found with
                  | Some r => eng_ret r
                  | None => let+ t := eng_lift (_task_from_row row) in new_task t
                  end in
        match cron_status_of (je_desired_status entry) with
        | None => _mark_journal_applied now op
        | Some status =>
            set_task r (set_status status) ;;+
            eng_try (_persist_task_state now r None (Some op) (je_operation_type entry) ;;+ eng_ret tt) (fun _ => eng_ret tt)
        end
  end.
Definition _replay_pending_journal_entries (now : Z) : eng unit :=
  let+ entries := eng_try (db_read list_pending_scheduler_journal_entries) (fun _ => eng_ret []) in
  eng_each (replay_one now) entries.

(** ** Leases *)
Definition LEASE_SWEEP_INTERVAL : Z := 60 * SECOND.
Definition revoke_owner (task_id : string) : eng bool :=
  let+ e := get_engine in
  match dict_get task_id (ce_owners e) with
  | None => eng_ret true
  | Some o =>
      _bump_epoch task_id ;;+
      let+ ends := wait_ends in
      if ends : bool then execution_cancelled task_id o ;;+ drop_owner task_id ;;+ eng_ret true else eng_ret false
  end.
Definition _revoke_and_recover_lease (now : Z) (task_id : string) : eng bool :=
  let+ e := get_engine in
  let has_marker := bool_decide (is_Some (dict_get task_id (ce_pending e))) in
  let+ revoked := revoke_owner task_id in
  if negb revoked then eng_ret false
  else if has_marker then eng_ret true
  else
    let+ recovered := eng_try (let+ n := db_write (recover_one_expired_lease task_id now) in eng_ret (Some n))
                        (fun _ => set_degraded true ;;+ eng_ret None) in
    match recovered with
    | None => eng_ret false
    | Some n =>
        if n =? 0 then eng_ret true
        else
          let+ row := eng_try (let+ row := repo_get task_id in eng_ret (Some row)) (fun _ => set_degraded true ;;+ eng_ret None) in
          match row with None => eng_ret true | Some row => adopt_row task_id row ;;+ eng_ret true end
    end.
Fixpoint sweep (now : Z) (ids : list string) : eng unit :=
  match ids with
  | [] => eng_ret tt
  | id :: rest =>
      let+ ok := _revoke_and_recover_lease now id in
      if ok : bool then sweep now rest else set_degraded true
  end.
Definition periodic_sweep (now mono : Z) : eng unit :=
  let+ e := get_engine in
  if LEASE_SWEEP_INTERVAL <=? mono - ce_last_sweep e then
    modify (with_sweep mono) ;;+
    eng_try (let+ expired := db_read (query_expired_lease_task_ids now) in sweep now expired) (fun _ => set_degraded true)
  else eng_ret tt.

(** ** One round of the loop *)
(** Under the lock of the task, if it can be taken in time *)
Definition publish (r : nat) : eng unit :=
  let+ t := task_at r in
  let+ locked := wait_ends in
  let+ e := get_engine in
  if negb locked || negb (bool_decide (st_status t = PENDING)) || negb (st_enabled t)
     || bool_decide (is_Some (dict_get (st_id t) (ce_owners e))) || ce_degraded e
  then eng_ret tt
  else set_phase (st_id t) r Created.
Definition due_refs (now : pydatetime) (e : Cron) : res (list nat) :=
  let* due := select now (ce_pending e).*1 (ce_owners e).*1 ((fun kv => default no_task (ce_heap e !! kv.2)) <$> ce_tasks e) in
  Ok (omap (fun t => dict_get (st_id t) (ce_tasks e)) due).
Definition tick (now mono : Z) : eng unit :=
  let+ e := get_engine in
  if ce_degraded e then eng_ret tt
  else
    periodic_sweep now mono ;;+
    let+ e := get_engine in
    if ce_degraded e then eng_ret tt
    else let+ due := eng_lift (due_refs (Naive now) e) in eng_each publish due.

(** ** Start and stop *)
Fixpoint quarantine_drifted (now : Z) (tasks : list (string * nat)) : eng unit :=
  match tasks with
  | [] => eng_ret tt
  | (task_id, r) :: rest =>
      let+ t := task_at r in
      match _check_snapshot_drift t with
      | Some reason => _quarantine_drifted_task now task_id r reason
      | None => eng_ret tt
      end ;;+ quarantine_drifted now rest
  end.
Definition recover_running (now : Z) : eng unit :=
  _replay_pending_journal_entries now ;;+
  let+ running := db_read query_running_task_ids in
  let+ recovered_running := db_write recover_all_running_tasks in
  let+ expired := db_read (query_expired_lease_task_ids now) in
  let+ recovered_expired := db_write (recover_expired_leases now) in
  if (0 <? recovered_running) || (0 <? recovered_expired)
  then eng_each _reload_one_task_from_db (running ++ List.filter (fun id => negb (str_in id running)) expired)
  else eng_ret tt.
Definition startup (now mono : Z) : eng unit :=
  let+ loaded := eng_try (_load_tasks ;;+ eng_ret true) (fun _ => set_degraded true ;;+ eng_ret false) in
  if negb loaded then eng_ret tt
  else
    let+ e := get_engine in
    (if str_empty cc_policy_digest then eng_ret tt else quarantine_drifted now (ce_tasks e)) ;;+
    eng_try (recover_running now) (fun _ => set_degraded true) ;;+
    modify (with_sweep mono).
Definition start (now mono : Z) : eng unit :=
  let+ e := get_engine in
  match ce_state e with
  | ACTIVE | STOPPING => eng_ret tt
  | QUARANTINED => eng_raise RuntimeError "cron engine is QUARANTINED"
  | NEW | STOPPED =>
      modify (fun e => with_degraded false (with_state ACTIVE e)) ;;+ startup now mono
  end.

(** Every coroutine is cancelled; those that do not end stay. *)
Fixpoint drain (owners : list (string * Owner)) : eng unit :=
  match owners with
  | [] => eng_ret tt
  | (task_id, o) :: rest =>
      let+ ends := wait_ends in
      (if ends : bool then execution_cancelled task_id o ;;+ drop_owner task_id else eng_ret tt) ;;+ drain rest
  end.
Definition shutdown_error {A} : eng A := eng_raise ServiceShutdownError "shared authorities cannot be torn down safely".
Definition drain_executions : eng unit :=
  let+ e := get_engine in
  drain (ce_owners e) ;;+
  let+ e := get_engine in match ce_owners e with [] => eng_ret tt | _ => shutdown_error end.
(** A retained reconciliation goes on in the background; its failure is only logged. *)
Definition retained_ends : eng unit :=
  let+ e := get_engine in
  match ce_retained e with
  | Some true => eng_try _reconcile_pending_persistence (fun _ => eng_ret tt) ;;+ modify (with_retained (Some false))
  | _ => eng_ret tt
  end.
Definition drain_retained : eng unit :=
  let+ e := get_engine in
  match ce_retained e with
  | None => eng_ret tt
  | Some running =>
      let+ time_left := wait_ends in
      if negb time_left then shutdown_error
      else
        let+ ends := (if running then wait_ends else eng_ret true) in
        if ends : bool then retained_ends ;;+ modify (with_retained None) else shutdown_error
  end.
Definition reconcile_pending : eng unit :=
  let+ e := get_engine in
  match ce_pending e with
  | [] => eng_ret tt
  | _ =>
      let+ time_left := wait_ends in
      if negb time_left then shutdown_error
      else
        let+ ends := wait_ends in
        if ends : bool then modify (with_retained (Some false)) ;;+ _reconcile_pending_persistence
        else modify (with_retained (Some true)) ;;+ shutdown_error
  end.
(** [stop], without a control operation that overlaps it *)
Definition stop : eng unit :=
  let+ e := get_engine in
  if bool_decide (ce_state e = STOPPED) then eng_ret tt
  else
    modify (with_state STOPPING) ;;+
    eng_try (drain_executions ;;+ drain_retained ;;+ reconcile_pending)
      (fun err => modify (with_state QUARANTINED) ;;+ eng_lift (Raise err)) ;;+
    modify (with_state STOPPED).

(** ** Histories *)
Inductive cron_event :=
| EvCreate (now : pydatetime) (name prompt : string) (schedule : ScheduleConfig) (deliver_to : string) (meta : list (string * pyval))
    (principal_id : string)
| EvPause (now : Z) (task_id principal_id : string)
| EvResume (now : Z) (task_id principal_id : string)
| EvRemove (now : Z) (task_id principal_id : string)
| EvOwner (now : Z) (task_id : string) (event : owner_event)
| EvTick (now mono : Z)
| EvStart (now mono : Z)
| EvStop
| EvRetained.
Definition discard {A} (m : eng A) : eng unit := m ;;+ eng_ret tt.
(** The loop runs only while the engine is active. *)
Definition cron_step (ev : cron_event) : eng unit :=
  match ev with
  | EvCreate now name prompt schedule deliver_to meta p => discard (create now name prompt schedule deliver_to meta p)
  | EvPause now id p => discard (pause now id p)
  | EvResume now id p => discard (resume now id p)
  | EvRemove now id p => discard (remove now id p)
  | EvOwner now id event => owner_step now id event
  | EvTick now mono => let+ e := get_engine in if bool_decide (ce_state e = ACTIVE) then tick now mono else eng_ret tt
  | EvStart now mono => start now mono
  | EvStop => stop
  | EvRetained => retained_ends
  end.
Inductive reachable : World -> Prop :=
| reach_new db accesses waits : reachable (MkWorld (new_cron waits) db accesses)
| reach_step ev w : reachable w -> reachable (cron_step ev w).2.

(** ** Frames
    A relation on engines that the assignments respect is respected by all operations
    that neither create a coroutine nor change the lifecycle state. *)
Definition keeps_id (f : ScheduledTask -> ScheduledTask) : Prop := forall t, st_id (f t) = st_id t.
Section Frames.
Context (R : relation World) {HR : PreOrder R}.
Hypothesis R_access : forall A (f : SchedDb -> res A * SchedDb), framed R (db_access f).
Hypothesis R_task : forall r f, keeps_id f -> framed R (set_task r f).
Hypothesis R_epoch : forall id v, framed R (set_epoch id v).
Hypothesis R_marker : forall id m, framed R (set_marker id m).
Hypothesis R_pop : forall id, framed R (pop_marker id).
Hypothesis R_owner : forall id, framed R (drop_owner id).
Hypothesis R_wait : framed R wait_ends.
Hypothesis R_uuid : framed R fresh_uuid.
Hypothesis R_degraded : forall b, framed R (set_degraded b).
Hypothesis R_drop : forall id, framed R (drop_task id).
Hypothesis R_new : forall t, framed R (new_task t).
Hypothesis R_register : forall t, framed R (register t).
Hypothesis R_retained : forall b, framed R (modify (with_retained b)).
Hypothesis R_sweep : forall t, framed R (modify (with_sweep t)).
Lemma R_read {A} (f : SchedDb -> A) : framed R (db_read f).
Proof. apply R_access. Qed.
Lemma R_write {A} (f : SchedDb -> A * SchedDb) : framed R (db_write f).
Proof. apply R_access. Qed.
#[local] Hint Resolve R_access R_read R_write R_epoch R_marker R_pop R_owner R_wait R_uuid R_degraded R_drop R_new R_register
  R_retained R_sweep : framed.
#[local] Hint Extern 3 (framed R (set_task _ _)) => apply R_task; intros ?; reflexivity : framed.

Lemma R_get id : framed R (repo_get id).
Proof. apply R_read. Qed.
Lemma R_control id v v' s n e : framed R (repo_control_finalize id v v' s n e).
Proof. apply R_write. Qed.
Lemma R_at r : framed R (task_at r).
Proof. unfold task_at. frame. Qed.
Lemma R_find id : framed R (find_task id).
Proof. unfold find_task. frame. Qed.
Lemma R_own id op : framed R (pop_own_marker id op).
Proof. unfold pop_own_marker. frame. Qed.
Lemma R_forget r : framed R (forget_lease r).
Proof. unfold forget_lease. frame. Qed.
Lemma R_mark now op : framed R (_mark_journal_applied now op).
Proof. unfold _mark_journal_applied. frame. Qed.
Lemma R_write_journal now op t ty d v v' : framed R (_write_journal_entry now op t ty d v v').
Proof. apply R_write. Qed.
Lemma R_adopt id r v : framed R (adopt_version id r v).
Proof. unfold adopt_version. frame. Qed.
Lemma R_changed id v : framed R (_epoch_changed id v).
Proof. unfold _epoch_changed. frame. Qed.
#[local] Hint Resolve R_get R_control R_at R_find R_own R_forget R_mark R_write_journal R_adopt R_changed : framed.
Lemma R_bump id : framed R (_bump_epoch id).
Proof. unfold _bump_epoch. frame. Qed.
Lemma R_finalize r v op : framed R (_finalize_task_state r v op).
Proof. unfold _finalize_task_state. frame. Qed.
#[local] Hint Resolve R_bump R_finalize : framed.
Lemma R_persist now r v op ty : framed R (_persist_task_state now r v op ty).
Proof. unfold _persist_task_state, persist_over, control_cas. frame. Qed.
Lemma R_cancelled id o : framed R (execution_cancelled id o).
Proof. unfold execution_cancelled. frame. Qed.
#[local] Hint Resolve R_persist R_cancelled : framed.
Lemma R_cancel id : framed R (_cancel_in_flight_execution id).
Proof. unfold _cancel_in_flight_execution. frame. Qed.
Lemma R_quarantine now id r e : framed R (quarantine now id r e).
Proof. unfold quarantine. frame. Qed.
Lemma R_conclude id r x : framed R (conclude_execution id r x).
Proof. unfold conclude_execution. frame. Qed.
#[local] Hint Resolve R_cancel R_quarantine R_conclude : framed.
Lemma R_failed id r x e : framed R (failed_execution id r x e).
Proof. unfold failed_execution. frame. Qed.
Lemma R_begin now id r : framed R (begin_execution now id r).
Proof. unfold begin_execution, _quarantine_drifted_task, claim. frame. Qed.
#[local] Hint Resolve R_failed R_begin : framed.
Lemma R_ended now id r x result : framed R (executor_ended now id r x result).
Proof. unfold executor_ended, advance_schedule. frame. Qed.
Lemma R_completed id r x e : framed R (run_completed id r x e).
Proof. unfold run_completed. frame. Qed.
Lemma R_lock b : framed R (_check_lifecycle_lock b).
Proof. unfold _check_lifecycle_lock. frame. Qed.
Lemma R_owned id p : framed R (own_task id p).
Proof. unfold own_task. frame. Qed.
Lemma R_try_persist now r op ty : framed R (try_persist now r op ty).
Proof. unfold try_persist. frame. Qed.
#[local] Hint Resolve R_lock R_owned R_try_persist : framed.
Lemma R_create now name prompt s d m p : framed R (create now name prompt s d m p).
Proof. unfold create. frame. Qed.
Lemma R_pause now id p : framed R (pause now id p).
Proof. unfold pause, control, halt. frame. Qed.
Lemma R_remove now id p : framed R (remove now id p).
Proof. unfold remove, control, halt. frame. Qed.
Lemma R_resume now id p : framed R (resume now id p).
Proof. unfold resume, control. frame. Qed.
Lemma R_classify id m : framed R (_classify_executor_marker id m).
Proof. unfold _classify_executor_marker, keep_marker. frame. Qed.
#[local] Hint Resolve R_classify : framed.
Lemma R_reconcile_one id m : framed R (reconcile_one id m).
Proof. unfold reconcile_one, _retry_control_marker, _retry_executor_marker, adopt_if_known. frame. Qed.
#[local] Hint Resolve R_reconcile_one : framed.
Lemma R_reconcile_all l : framed R (reconcile_all l).
Proof. induction l as [|[id m] l IH]; cbn [reconcile_all]; frame. Qed.
#[local] Hint Resolve R_reconcile_all : framed.
Lemma R_reconcile : framed R _reconcile_pending_persistence.
Proof. unfold _reconcile_pending_persistence. frame. Qed.
#[local] Hint Resolve R_reconcile : framed.
Lemma R_each {A} (f : A -> eng unit) l : (forall x, framed R (f x)) -> framed R (eng_each f l).
Proof. intros Hf. induction l as [|x l IH]; cbn [eng_each]; frame. Qed.
Lemma R_load : framed R _load_tasks.
Proof. unfold _load_tasks. frame. apply R_each. unfold load_row. frame. Qed.
Lemma R_adopt_row id row : framed R (adopt_row id row).
Proof. unfold adopt_row, load_row. frame. Qed.
#[local] Hint Resolve R_load R_adopt_row : framed.
Lemma R_reload id : framed R (_reload_one_task_from_db id).
Proof. unfold _reload_one_task_from_db. frame. Qed.
Lemma R_replay now : framed R (_replay_pending_journal_entries now).
Proof. unfold _replay_pending_journal_entries. frame. apply R_each. unfold replay_one. frame. Qed.
Lemma R_revoke now id : framed R (_revoke_and_recover_lease now id).
Proof. unfold _revoke_and_recover_lease, revoke_owner. frame. Qed.
#[local] Hint Resolve R_reload R_replay R_revoke : framed.
Lemma R_sweep_all now l : framed R (sweep now l).
Proof. induction l as [|id l IH]; cbn [sweep]; frame. Qed.
#[local] Hint Resolve R_sweep_all : framed.
Lemma R_periodic now mono : framed R (periodic_sweep now mono).
Proof. unfold periodic_sweep. frame. Qed.
Lemma R_drifted now l : framed R (quarantine_drifted now l).
Proof. induction l as [|[id r] l IH]; cbn [quarantine_drifted]; unfold _quarantine_drifted_task; frame. Qed.
Lemma R_recover now : framed R (recover_running now).
Proof. unfold recover_running. frame. apply R_each. frame. Qed.
#[local] Hint Resolve R_periodic R_drifted R_recover : framed.
Lemma R_drain l : framed R (drain l).
Proof. induction l as [|[id o] l IH]; cbn [drain]; frame. Qed.
Lemma R_retained_ends : framed R retained_ends.
Proof. unfold retained_ends. frame. Qed.
#[local] Hint Resolve R_drain R_retained_ends : framed.
Lemma R_drain_executions : framed R drain_executions.
Proof. unfold drain_executions, shutdown_error. frame. Qed.
Lemma R_drain_retained : framed R drain_retained.
Proof. unfold drain_retained, shutdown_error. frame. Qed.
Lemma R_reconcile_pending : framed R reconcile_pending.
Proof. unfold reconcile_pending, shutdown_error. frame. Qed.
Lemma R_startup now mono : framed R (startup now mono).
Proof. unfold startup. frame. Qed.
End Frames.

End Engine.

(** ** Examples *)
Module EngineExample.
Export CronExample.
#[export] Instance example_runtime : CronRuntime := { uuid_hex z := "u" +:+ Z_to_dec z; int_ge_float _ _ := false }.
#[export] Instance example_config : CronConfig := MkCronConfig "pj" "d" (600 * SECOND) true false.
Definition hourly : ScheduleConfig := MkSchedule PNone PNone (PInt 3600) PNone.
Definition quiet_world (waits : list bool) (accesses : list (Access sched_op)) : World :=
  MkWorld (new_cron waits) empty_sched accesses.
Definition run (events : list cron_event) (w : World) : World := foldl (fun w ev => (cron_step ev w).2) w events.
(** An hourly task [u0] is created; *)
Definition created : list cron_event := [EvStart noon 0; EvCreate (Naive noon) "n" "p" hourly "local" [] "alice"].
(** an hour later it is handed to the executor. *)
Definition running : list cron_event := created ++ [EvTick (noon + HOUR) SECOND; EvOwner (noon + HOUR) "u0" Starts].
Definition quiet (n : nat) : list (Access sched_op) := replicate n quiet_access.
Lemma run_reachable events w : reachable w -> reachable (run events w).
Proof. revert w. induction events as [|ev events IH]; intros w Hw; [done|]. apply IH. by constructor. Qed.
Lemma quiet_reachable events waits accesses : reachable (run events (quiet_world waits accesses)).
Proof. apply run_reachable. constructor. Qed.
End EngineExample.
