(* ===== verification/CronLifecycle.v ===== *)
(** * The life of the cron engine

    What holds in every history of [CronEngine]: a start spares live executions, a
    stop that succeeds leaves nothing behind, a stop that fails locks the engine. *)
From S2P Require Import Prelude Json Coroutine SchedulerStore CronSchedule CronEngine.
Open Scope Z_scope.

Section Lifecycle.
Context {platform : CronPlatform} {runtime : CronRuntime} {config : CronConfig}.
(** ** Lifecycle *)
(** The lifecycle state stays, and no coroutine appears where none was. *)
Definition calm (w w' : World) : Prop :=
  ce_state (w_engine w') = ce_state (w_engine w) /\ (ce_owners (w_engine w) = [] -> ce_owners (w_engine w') = []).
#[local] Instance calm_preorder : PreOrder calm.
Proof. split; [by intros w|]. intros w1 w2 w3 [E1 H1] [E2 H2]. split; [by rewrite E2 | auto]. Qed.
Lemma calm_access A (f : SchedDb -> res A * SchedDb) : framed calm (db_access f).
Proof. apply framed_access. by intros w db _. Qed.
Lemma calm_modify f : (forall e, ce_state (f e) = ce_state e /\ (ce_owners e = [] -> ce_owners (f e) = [])) -> framed calm (modify f).
Proof. intros Hf. apply framed_modify. intros w. apply Hf. Qed.
Lemma calm_owner id : framed calm (drop_owner id).
Proof. apply calm_modify. intros e. split; [done|]. cbn. by intros ->. Qed.
Ltac calm_parts :=
  first [ exact calm_access | exact calm_owner
        | by intros; apply calm_modify
        | by intros; unfold wait_ends, fresh_uuid, new_task, register; frame; apply calm_modify ].
(** An idle engine has no coroutines. *)
Definition idle_ok (e : Cron) : Prop := ce_state e = NEW \/ ce_state e = STOPPED -> ce_owners e = [].
Lemma calm_idle {A} (m : eng A) w : framed calm m -> idle_ok (w_engine w) -> idle_ok (w_engine (m w).2).
Proof. intros Hm Hw Hs. destruct (Hm w) as [E Ho]. apply Ho, Hw. by rewrite <- E. Qed.
Lemma calm_discard {A} (m : eng A) : framed calm m -> framed calm (discard m).
Proof. intros Hm. unfold discard. frame. Qed.
Lemma state_phase id r p w : ce_state (w_engine (set_phase id r p w).2) = ce_state (w_engine w).
Proof. done. Qed.
(** A step of a coroutine does nothing where there is none. *)
Definition same_state (w w' : World) : Prop := ce_state (w_engine w') = ce_state (w_engine w).
#[local] Instance same_state_preorder : PreOrder same_state.
Proof. split; [by intros w|]. intros w1 w2 w3 E1 E2. unfold same_state in *. congruence. Qed.
Lemma calm_same {A} (m : eng A) : framed calm m -> framed same_state m.
Proof. intros Hm w. apply Hm. Qed.
Lemma same_phase id r p : framed same_state (set_phase id r p).
Proof. by apply framed_modify. Qed.
#[local] Hint Resolve same_phase : framed.
Lemma same_after now id r x result : framed same_state (after_executor now id r x result).
Proof. unfold after_executor. frame; apply calm_same; [apply R_ended | apply calm_owner]; calm_parts. Qed.
#[local] Hint Resolve same_after : framed.
Lemma same_owner_step now id ev : framed same_state (owner_step now id ev).
Proof.
  unfold owner_step, run_begin. frame; apply calm_same; first [apply R_begin | apply calm_owner | apply R_at | apply R_completed]; calm_parts.
Qed.
Lemma owner_step_idle now id ev w : idle_ok (w_engine w) -> idle_ok (w_engine (owner_step now id ev w).2).
Proof.
  intros Hw Hs. rewrite (same_owner_step now id ev w) in Hs. specialize (Hw Hs).
  unfold owner_step, eng_bind. cbn. by rewrite Hw.
Qed.
Lemma same_tick now mono : framed same_state (tick now mono).
Proof.
  unfold tick. frame; [apply calm_same, R_periodic; calm_parts|]. apply R_each; [exact _|]. intros r. unfold publish. frame.
  all: apply calm_same; first [apply R_at | calm_parts]; calm_parts.
Qed.
(** A stop either fails and quarantines the engine or goes through its three parts. *)
Lemma stop_cases w r w' :
  stop w = (r, w') ->
  (ce_state (w_engine w) = STOPPED /\ w' = w)
  \/ ((exists err, r = Raise err) /\ ce_state (w_engine w') = QUARANTINED)
  \/ (r = Ok tt /\ ce_state (w_engine w') = STOPPED
      /\ exists w0 w1 w2 w3, drain_executions w0 = (Ok tt, w1) /\ drain_retained w1 = (Ok tt, w2) /\ reconcile_pending w2 = (Ok tt, w3)
           /\ w0 = MkWorld (with_state STOPPING (w_engine w)) (w_db w) (w_accesses w)
           /\ w' = MkWorld (with_state STOPPED (w_engine w3)) (w_db w3) (w_accesses w3)).
Proof.
  unfold stop, eng_bind at 1. cbn [get_engine]. case_bool_decide as Hs; [intros [= <- <-]; by left|].
  unfold eng_bind at 1, eng_bind at 1. cbn [modify put_engine]. unfold eng_try.
  destruct ((_ ;;+ _) _) as [[[]|err] w3] eqn:Em.
  - apply eng_bind_Ok in Em as ([] & w1 & E1 & Em). apply eng_bind_Ok in Em as ([] & w2 & E2 & E3).
    intros [= <- <-]. right. right. split_and!; [done..|]. by eexists _, w1, w2, w3.
  - intros [= <- <-]. right. left. split; [by eexists | done].
Qed.
Lemma drained w w' : drain_executions w = (Ok tt, w') -> ce_owners (w_engine w') = [].
Proof.
  unfold drain_executions. intros (e & w1 & [= <- <-] & E)%eng_bind_Ok. apply eng_bind_Ok in E as ([] & w2 & _ & E).
  apply eng_bind_Ok in E as (e & w3 & [= <- <-] & E). destruct (ce_owners (w_engine w2)) eqn:Eo; [by injection E as <- | done].
Qed.
Lemma calm_rest : framed calm (drain_retained ;;+ reconcile_pending).
Proof. frame; [apply R_drain_retained | apply R_reconcile_pending]; calm_parts. Qed.
Lemma stop_idle w : idle_ok (w_engine w) -> idle_ok (w_engine (stop w).2).
Proof.
  intros Hw. destruct (stop w) as [r w'] eqn:E. cbn. apply stop_cases in E as [[_ ->] | [[_ E] | (_ & _ & E)]]; [done| |].
  - intros Hs. rewrite E in Hs. by destruct Hs.
  - destruct E as (w0 & w1 & w2 & w3 & E1%drained & E2 & E3 & _ & ->). intros _. cbn.
    pose proof (calm_rest w1) as [_ Hc]. unfold eng_bind in Hc. rewrite E2, E3 in Hc. by apply Hc.
Qed.
Lemma calm_startup now mono : framed calm (startup now mono).
Proof. apply R_startup; calm_parts. Qed.
Lemma started_active now mono w :
  ce_state (w_engine w) = NEW \/ ce_state (w_engine w) = STOPPED -> ce_state (w_engine (start now mono w).2) = ACTIVE.
Proof.
  intros Hs. unfold start, eng_bind at 1. cbn [get_engine].
  destruct Hs as [-> | ->]; unfold eng_bind; cbn [modify put_engine]; match goal with |- context [startup _ _ ?w0] => exact (proj1 (calm_startup now mono w0)) end.
Qed.
Lemma step_idle ev w : idle_ok (w_engine w) -> idle_ok (w_engine (cron_step ev w).2).
Proof.
  intros Hw. destruct ev; cbn [cron_step].
  - apply calm_idle; [|done]. apply calm_discard, R_create; calm_parts.
  - apply calm_idle; [|done]. apply calm_discard, R_pause; calm_parts.
  - apply calm_idle; [|done]. apply calm_discard, R_resume; calm_parts.
  - apply calm_idle; [|done]. apply calm_discard, R_remove; calm_parts.
  - by apply owner_step_idle.
  - unfold eng_bind. cbn. case_bool_decide as Hs; [|done]. intros Ht. rewrite (same_tick _ _ w), Hs in Ht. by destruct Ht.
  - intros Hs. destruct (decide (ce_state (w_engine w) = NEW \/ ce_state (w_engine w) = STOPPED)) as [Hi|Hi].
    + rewrite started_active in Hs by done. by destruct Hs.
    + apply Decidable.not_or in Hi as [Hn Ht]. unfold start, eng_bind in *. cbn in *.
      destruct (ce_state (w_engine w)) eqn:E; try done; apply Hw; exact Hs.
  - by apply stop_idle.
  - apply calm_idle; [|done]. apply R_retained_ends; calm_parts.
Qed.
Lemma reachable_idle w : reachable w -> idle_ok (w_engine w).
Proof. induction 1; [done | by apply step_idle]. Qed.

(** A start never marks a live execution as crashed.  In every history of the
    engine, when executions of this process are still running, starting the engine
    leaves the database as it is; its recovery of running tasks only ever meets
    those of an earlier process. *)
Theorem start_spares_live_executions (w : World) (now mono : Z) (Hw : reachable w) (Hlive : ce_owners (w_engine w) ≠ []) :
  w_db (start now mono w).2 = w_db w.
Proof.
  assert (Hi : ce_state (w_engine w) ≠ NEW /\ ce_state (w_engine w) ≠ STOPPED).
  { split; intros Hs; apply Hlive, reachable_idle; auto. }
  unfold start, eng_bind at 1. cbn [get_engine]. by destruct (ce_state (w_engine w)), Hi.
Qed.

(** ** Well-formed engines *)
Definition heap_id (e : Cron) (r : nat) : option string := st_id <$> ce_heap e !! r.
(** Markers are unique, and a task is filed under its identity. *)
Record wf (e : Cron) : Prop := {
  wf_pending : NoDup (dict_keys (ce_pending e));
  wf_tasks k r : dict_get k (ce_tasks e) = Some r -> heap_id e r = Some k;
  wf_owners k o : dict_get k (ce_owners e) = Some o -> heap_id e (ow_task o) = Some k
}.
Definition sound (w w' : World) : Prop :=
  (wf (w_engine w) -> wf (w_engine w')) /\ (forall r k, heap_id (w_engine w) r = Some k -> heap_id (w_engine w') r = Some k).
#[local] Instance sound_preorder : PreOrder sound.
Proof. split; [by intros w; split|]. intros w1 w2 w3 [A1 B1] [A2 B2]. split; auto. Qed.
Lemma sound_access A (f : SchedDb -> res A * SchedDb) : framed sound (db_access f).
Proof. apply framed_access. by intros w db _. Qed.
Lemma sound_task r f : keeps_id f -> framed sound (set_task r f).
Proof.
  intros Hf. apply framed_modify. intros [e db l]. cbn.
  assert (Hh : forall j, heap_id (with_heap (alter f r) e) j = heap_id e j).
  { intros j. unfold heap_id. cbn. destruct (decide (j = r)) as [-> | Hj]; [|by rewrite list_lookup_alter_ne].
    rewrite list_lookup_alter_eq. destruct (ce_heap e !! r); [|done]. cbn. by rewrite Hf. }
  split; [|intros j k; by rewrite Hh]. intros [H1 H2 H3]. split; [done|..]; intros k j Hk; rewrite Hh; eauto.
Qed.
Lemma sound_pending f : (forall d, NoDup (dict_keys d) -> NoDup (dict_keys (f d))) -> framed sound (modify (with_pending f)).
Proof. intros Hf. apply framed_modify. intros [e db l]. split; [|done]. intros [H1 H2 H3]. split; [by apply Hf | done..]. Qed.
Lemma sound_owner id : framed sound (drop_owner id).
Proof.
  apply framed_modify. intros [e db l]. split; [|done]. intros [H1 H2 H3]. split; [done..|].
  intros k o. cbn. rewrite dict_get_pop. case_bool_decide; [done | apply H3].
Qed.
Lemma sound_drop id : framed sound (drop_task id).
Proof.
  apply framed_modify. intros [e db l]. split; [|done]. intros [H1 H2 H3]. split; [done| |done].
  intros k o. cbn. rewrite dict_get_pop. case_bool_decide; [done | apply H2].
Qed.
Lemma heap_id_app e t r k : heap_id e r = Some k -> heap_id (with_heap (fun h => h ++ [t]) e) r = Some k.
Proof. unfold heap_id. cbn. intros Hr. destruct (ce_heap e !! r) eqn:E; [|done]. by rewrite (lookup_app_l_Some _ _ _ _ E). Qed.
Lemma sound_new t : framed sound (new_task t).
Proof.
  intros [e db l]. unfold new_task. cbn. split; [|intros r k; apply heap_id_app].
  intros [H1 H2 H3]. split; [done|..]; intros k r Hk; apply heap_id_app; eauto.
Qed.
Lemma sound_register t : framed sound (register t).
Proof.
  intros [e db l]. unfold register, new_task. cbn. split; [|intros r k; apply (heap_id_app e t)].
  intros [H1 H2 H3]. split; [done|..]; intros k r Hk; cbn in Hk.
  - rewrite dict_get_set in Hk. case_bool_decide as E; [|apply (heap_id_app e t); eauto].
    injection Hk as <-. unfold heap_id. cbn. by rewrite list_lookup_middle, E.
  - apply (heap_id_app e t). eauto.
Qed.
Ltac sound_parts :=
  first [ exact sound_access | exact sound_task | exact sound_owner | exact sound_drop | exact sound_new | exact sound_register
        | intros; apply sound_pending; intros; first [by apply dict_set_nodup | by apply dict_pop_nodup]
        | intros; apply framed_modify; by intros []; split; [intros []; split|]
        | unfold wait_ends, fresh_uuid; frame; apply framed_modify; by intros []; split; [intros []; split|] ].
Lemma sound_phase id r p w : heap_id (w_engine w) r = Some id -> sound w (set_phase id r p w).2.
Proof.
  intros Hr. split; [|done]. intros [H1 H2 H3]. split; [done..|]. intros k o. cbn. rewrite dict_get_set.
  case_bool_decide as E; [|apply H3]. intros [= <-]. by subst.
Qed.
(** What a coroutine of [id] does is sound when its task has that identity. *)
Definition sound_for (id : string) (r : nat) {A} (m : eng A) : Prop :=
  forall w, heap_id (w_engine w) r = Some id -> sound w (m w).2.
Lemma sound_for_framed id r {A} (m : eng A) : framed sound m -> sound_for id r m.
Proof. intros Hm w _. apply Hm. Qed.
Lemma sound_for_bind id r {A B} (m : eng A) (f : A -> eng B) :
  framed sound m -> (forall a, sound_for id r (f a)) -> sound_for id r (eng_bind m f).
Proof.
  intros Hm Hf w Hw. specialize (Hm w). unfold eng_bind. destruct (m w) as [[a|e] w1]; [|done].
  etransitivity; [exact Hm|]. apply Hf, Hm, Hw.
Qed.
Lemma sound_for_phase id r p : sound_for id r (set_phase id r p).
Proof. intros w Hw. by apply sound_phase. Qed.
Lemma sound_after now id r x result : sound_for id r (after_executor now id r x result).
Proof.
  apply sound_for_bind; [apply R_ended; sound_parts|]. intros [x'|]; [apply sound_for_phase|].
  apply sound_for_framed, sound_owner.
Qed.
Lemma owner_step_wf now id ev w : wf (w_engine w) -> wf (w_engine (owner_step now id ev w).2).
Proof.
  intros Hw. unfold owner_step, eng_bind at 1. cbn [get_engine].
  destruct (dict_get id (ce_owners (w_engine w))) as [o|] eqn:Eo; [|done]. pose proof (wf_owners _ Hw _ _ Eo) as Hid.
  assert (Hs : forall (m : eng unit), sound_for id (ow_task o) m -> wf (w_engine (m w).2)) by (intros m Hm; by apply (Hm w Hid)).
  destruct (ow_phase o), ev; try done; apply Hs.
  - apply sound_for_bind; [apply R_begin; sound_parts|]. intros [x|]; [|apply sound_for_framed, sound_owner].
    destruct cc_executor; [apply sound_for_phase|]. apply sound_for_bind; [apply R_at; sound_parts|]. intros t. apply sound_after.
  - apply sound_after.
  - apply sound_for_framed, R_completed; sound_parts.
Qed.
Lemma publish_wf r k w : wf (w_engine w) -> heap_id (w_engine w) r = Some k -> sound w (publish r w).2.
Proof.
  intros Hw Hr. unfold publish. set (id := st_id (default no_task (ce_heap (w_engine w) !! r))).
  assert (Hid : heap_id (w_engine w) r = Some id).
  { unfold id, heap_id in *. by destruct (ce_heap (w_engine w) !! r). }
  unfold eng_bind at 1, task_at at 1, eng_bind at 1. cbn [get_engine eng_ret].
  assert (Hf : sound_for id r (let+ locked := wait_ends in let+ e := get_engine in
     if negb locked || negb (bool_decide (st_status (default no_task (ce_heap (w_engine w) !! r)) = PENDING))
        || negb (st_enabled (default no_task (ce_heap (w_engine w) !! r)))
        || bool_decide (is_Some (dict_get id (ce_owners e))) || ce_degraded e then eng_ret tt else set_phase id r Created)).
  { apply sound_for_bind; [sound_parts|]. intros locked. apply sound_for_bind; [by intros ?|]. intros e.
    destruct (_ || _); [apply sound_for_framed; frame | apply sound_for_phase]. }
  by apply Hf.
Qed.
Lemma publish_all_wf l w :
  wf (w_engine w) -> Forall (fun r => is_Some (heap_id (w_engine w) r)) l -> wf (w_engine (eng_each publish l w).2).
Proof.
  revert w. induction l as [|r l IH]; intros w Hw Hl; [done|]. apply Forall_cons in Hl as [[k Hk] Hl].
  cbn [eng_each]. destruct (publish_wf r k w Hw Hk) as [H1 H2]. unfold eng_bind. destruct (publish r w) as [[[]|e] w1]; cbn in *.
  - apply IH; [auto|]. eapply Forall_impl; [exact Hl|]. intros j [k' Hj]. exists k'. auto.
  - auto.
Qed.
Lemma due_known now e l : wf e -> due_refs now e = Ok l -> Forall (fun r => is_Some (heap_id e r)) l.
Proof.
  intros He. unfold due_refs. destruct (select _ _ _ _) as [due|]; [|done]. intros [= <-]. apply Forall_forall.
  intros r (t & _ & Ht)%list_elem_of_omap. eexists. by eapply wf_tasks.
Qed.
Lemma tick_wf now mono w : wf (w_engine w) -> wf (w_engine (tick now mono w).2).
Proof.
  intros Hw. unfold tick, eng_bind at 1. cbn [get_engine]. destruct (ce_degraded (w_engine w)); [done|].
  assert (Hs : framed sound (periodic_sweep now mono)) by (apply R_periodic; sound_parts). destruct (Hs w) as [Hs' _].
  unfold eng_bind at 1. destruct (periodic_sweep now mono w) as [[[]|e] w1]; cbn in Hs'; [|by apply Hs'].
  unfold eng_bind at 1. cbn [get_engine]. destruct (ce_degraded _); [by apply Hs'|].
  unfold eng_bind, eng_lift. destruct (due_refs _ _) as [l|e] eqn:El; [|by apply Hs']. apply publish_all_wf; [by apply Hs'|].
  by eapply due_known; [apply Hs'|].
Qed.
Lemma sound_wf {A} (m : eng A) w : framed sound m -> wf (w_engine w) -> wf (w_engine (m w).2).
Proof. intros Hm. apply (Hm w). Qed.
Lemma wf_state s e : wf e -> wf (with_state s e).
Proof. by intros []; split. Qed.
Lemma sound_state s : framed sound (modify (with_state s)).
Proof. apply framed_modify. intros [e db l]. split; [apply wf_state | done]. Qed.
Lemma sound_discard {A} (m : eng A) : framed sound m -> framed sound (discard m).
Proof. intros Hm. unfold discard. frame. Qed.
Lemma sound_start now mono : framed sound (start now mono).
Proof.
  unfold start. frame; first [apply R_startup; sound_parts | apply framed_modify; by intros []; split; [intros []; split|]].
Qed.
Lemma sound_stop : framed sound stop.
Proof.
  unfold stop. frame; first [apply sound_state | apply R_drain_executions | apply R_drain_retained | apply R_reconcile_pending]; sound_parts.
Qed.
Lemma step_wf ev w : wf (w_engine w) -> wf (w_engine (cron_step ev w).2).
Proof.
  intros Hw. destruct ev; cbn [cron_step].
  - apply sound_wf; [|done]. apply sound_discard, R_create; sound_parts.
  - apply sound_wf; [|done]. apply sound_discard, R_pause; sound_parts.
  - apply sound_wf; [|done]. apply sound_discard, R_resume; sound_parts.
  - apply sound_wf; [|done]. apply sound_discard, R_remove; sound_parts.
  - by apply owner_step_wf.
  - unfold eng_bind. cbn. case_bool_decide; [by apply tick_wf | done].
  - by apply sound_wf; [apply sound_start|].
  - by apply sound_wf; [apply sound_stop|].
  - apply sound_wf; [|done]. apply R_retained_ends; sound_parts.
Qed.
Lemma new_cron_wf waits : wf (new_cron waits).
Proof. split; [apply NoDup_nil_2 | done | done]. Qed.
Lemma reachable_wf w : reachable w -> wf (w_engine w).
Proof. induction 1; [apply new_cron_wf | by apply step_wf]. Qed.

(** ** A clean stop *)
Definition pend (w : World) : list (string * PendingPersistence) := ce_pending (w_engine w).
Definition same_pend (w w' : World) : Prop := pend w' = pend w.
#[local] Instance same_pend_preorder : PreOrder same_pend.
Proof. split; [by intros w|]. intros w1 w2 w3 E1 E2. unfold same_pend in *. congruence. Qed.
Lemma same_access A (f : SchedDb -> res A * SchedDb) : framed same_pend (db_access f).
Proof. apply framed_access. by intros w db _. Qed.
Lemma same_read {A} (f : SchedDb -> A) : framed same_pend (db_read f).
Proof. apply same_access. Qed.
Lemma same_get id : framed same_pend (repo_get id).
Proof. apply same_access. Qed.
Lemma same_control id v v' s n e : framed same_pend (repo_control_finalize id v v' s n e).
Proof. apply same_access. Qed.
Lemma same_task r f : framed same_pend (set_task r f).
Proof. by apply framed_modify. Qed.
Lemma same_epoch id v : framed same_pend (set_epoch id v).
Proof. by apply framed_modify. Qed.
#[local] Hint Resolve same_access same_read same_get same_control same_task same_epoch : framed.
Lemma same_known id v : framed same_pend (adopt_if_known id v).
Proof. unfold adopt_if_known, adopt_version, find_task. frame. Qed.
#[local] Hint Resolve same_known : framed.

(** When the marker of the operation is there, the answer [true] means that it was
    taken away. *)
Definition settles (id op : string) (m : eng bool) : Prop :=
  forall w w', owns_marker op (dict_get id (pend w)) = true -> m w = (Ok true, w') -> pend w' = dict_pop id (pend w).
Lemma settles_false id op : settles id op (eng_ret false).
Proof. by intros w w' _ [=]. Qed.
Lemma settles_bind id op {A} (m : eng A) (f : A -> eng bool) :
  framed same_pend m -> (forall a, settles id op (f a)) -> settles id op (eng_bind m f).
Proof.
  intros Hm Hf w w' Hw (a & w1 & E1 & E2)%eng_bind_Ok. specialize (Hm w). rewrite E1 in Hm. cbn in Hm.
  rewrite <- Hm. eapply Hf; [|done]. by rewrite Hm.
Qed.
Lemma same_Ok {A} (m : eng A) w a w' : framed same_pend m -> m w = (Ok a, w') -> pend w' = pend w.
Proof. intros Hm E. specialize (Hm w). by rewrite E in Hm. Qed.
Lemma pop_own_pend id op w : owns_marker op (dict_get id (pend w)) = true -> pend (pop_own_marker id op w).2 = dict_pop id (pend w).
Proof. intros Hw. unfold pop_own_marker, eng_bind. cbn. unfold pend in *. by rewrite Hw. Qed.
Lemma settles_own id op (k : eng bool) : framed same_pend k -> settles id op (pop_own_marker id op ;;+ k).
Proof.
  intros Hk w w' Hw ([] & w1 & E1 & E2)%eng_bind_Ok. rewrite (same_Ok _ _ _ _ Hk E2).
  pose proof (pop_own_pend id op w Hw) as Hp. by rewrite E1 in Hp.
Qed.
Lemma settles_pop id op (k : eng bool) : framed same_pend k -> settles id op (pop_marker id ;;+ k).
Proof. intros Hk w w' Hw ([] & w1 & [= <-] & E2)%eng_bind_Ok. by rewrite (same_Ok _ _ _ _ Hk E2). Qed.
Ltac settle_step :=
  match goal with
  | |- forall _, _ => intro
  | |- settles _ _ (if ?b then _ else _) => destruct b
  | |- settles _ _ (match ?x with _ => _ end) => destruct x
  | |- settles _ _ (eng_ret false) => apply settles_false
  | |- settles _ _ (pop_own_marker _ _ ;;+ _) => apply settles_own; solve [frame]
  | |- settles _ _ (pop_marker _ ;;+ _) => apply settles_pop; solve [frame]
  | |- settles _ _ (eng_bind _ _) => apply settles_bind; [solve [frame]|]
  end.
Lemma retry_control_settles id m : settles id (pp_operation_id m) (_retry_control_marker id m).
Proof. unfold _retry_control_marker. cbv zeta. repeat settle_step. Qed.
Lemma settles_then_false id op {A} (m : eng A) : settles id op (m ;;+ eng_ret false).
Proof. by intros w w' _ (a & w1 & _ & [=])%eng_bind_Ok. Qed.
Lemma classify_settles id m : settles id (pp_operation_id m) (_classify_executor_marker id m).
Proof. unfold _classify_executor_marker. repeat first [apply settles_then_false | settle_step]. Qed.
(** Without a marker there is nothing to take away. *)
Lemma classify_absent id m w w' :
  dict_get id (pend w) = None -> _classify_executor_marker id m w = (Ok true, w') -> pend w' = pend w.
Proof.
  intros Hw (row & w1 & E1 & E)%eng_bind_Ok. assert (E1' : pend w1 = pend w) by (eapply same_Ok; [|exact E1]; frame).
  assert (Hp : forall w2, (pop_own_marker id (pp_operation_id m) ;;+ eng_ret true) w1 = (Ok true, w2) -> pend w2 = pend w).
  { intros w2. unfold pop_own_marker, eng_bind. cbn. unfold pend in *. rewrite E1', Hw. by intros [= <-]. }
  destruct row as [[row|]|]; [destruct (_ || _)|..]; first [by apply Hp | by apply eng_bind_Ok in E as (? & ? & _ & [=])].
Qed.
Lemma finalize_pend id r v op w b w' :
  heap_id (w_engine w) r = Some id -> owns_marker op (dict_get id (pend w)) = true ->
  _finalize_task_state r v op w = (Ok b, w') -> pend w' = dict_pop id (pend w).
Proof.
  intros Hr Hw (t & w1 & [= <- <-] & E)%eng_bind_Ok. apply eng_bind_Ok in E as (e & w2 & [= <- <-] & E).
  assert (Hid : st_id (default no_task (ce_heap (w_engine w) !! r)) = id).
  { unfold heap_id in Hr. destruct (ce_heap (w_engine w) !! r); cbn in *; congruence. }
  rewrite Hid in E. fold (pend w) in E.
  assert (Hf : match dict_get id (pend w) with
               | Some m => pp_is_control_op m && negb (bool_decide (pp_operation_id m = op)) | None => false end = false).
  { unfold owns_marker in Hw. destruct (dict_get id (pend w)); [|done]. by rewrite Hw, andb_false_r. }
  rewrite Hf in E. apply eng_bind_Ok in E as ([] & w3 & [= <-] & E).
  apply eng_bind_Ok in E as (n & w4 & E4 & E). apply (same_Ok _ _ _ _ (same_access _ _)) in E4.
  apply eng_bind_Ok in E as ([] & w5 & E5 & E). apply same_Ok in E; [|by frame]. rewrite E.
  assert (Hown : owns_marker op (dict_get id (pend w4)) = true).
  { rewrite E4. unfold pend. cbn. rewrite dict_get_set, bool_decide_true by done. cbn. by apply bool_decide_true. }
  pose proof (pop_own_pend id op w4 Hown) as Hp. rewrite E5 in Hp. cbn in Hp. rewrite Hp, E4. apply dict_pop_set.
Qed.
Lemma eng_try_Ok {A} (m : eng A) h w a w' :
  eng_try m h w = (Ok a, w') <-> m w = (Ok a, w') \/ exists e w1, m w = (Raise e, w1) /\ h e w1 = (Ok a, w').
Proof.
  unfold eng_try. destruct (m w) as [[x|e] w1]; split.
  - by left.
  - by intros [| (? & ? & [=] & _)].
  - right. eauto.
  - by intros [[=] | (? & ? & [= <- <-] & E)].
Qed.
Lemma retry_executor_settles id m w w' :
  wf (w_engine w) -> owns_marker (pp_operation_id m) (dict_get id (pend w)) = true ->
  _retry_executor_marker id m w = (Ok true, w') -> pend w' = dict_pop id (pend w).
Proof.
  intros Hwf Hw (found & w1 & [= <- <-] & E)%eng_bind_Ok.
  destruct (dict_get id (ce_tasks (w_engine w))) as [r|] eqn:Er; [|by eapply classify_settles].
  pose proof (wf_tasks _ Hwf _ _ Er) as Hid. apply eng_bind_Ok in E as (ok & w2 & E2 & E).
  apply eng_try_Ok in E2 as [E2 | (e & w3 & _ & [= <- <-])]; [|done].
  apply eng_bind_Ok in E2 as (b & w3 & E3 & [= <- <-]). pose proof (finalize_pend _ _ _ _ _ _ _ Hid Hw E3) as Hp.
  destruct b; [by injection E as <-|]. rewrite <- Hp. eapply classify_absent; [|done]. by rewrite Hp, dict_get_pop, bool_decide_true.
Qed.
Lemma same_wait : framed same_pend wait_ends.
Proof. unfold wait_ends. frame. by apply framed_modify. Qed.
Lemma reconcile_one_settles id m w w' :
  wf (w_engine w) -> dict_get id (pend w) = Some m -> reconcile_one id m w = (Ok true, w') -> pend w' = dict_pop id (pend w).
Proof.
  intros Hwf Hm (locked & w1 & E1 & E)%eng_bind_Ok. pose proof (same_Ok _ _ _ _ same_wait E1) as Hp1.
  assert (Hwf1 : wf (w_engine w1)).
  { assert (Hs : framed sound wait_ends) by sound_parts. specialize (Hs w). rewrite E1 in Hs. by apply Hs. }
  destruct locked; [|done]. cbn [negb] in E. apply eng_bind_Ok in E as (e & w2 & [= <- <-] & E). fold (pend w1) in E.
  assert (Hown : owns_marker (pp_operation_id m) (dict_get id (pend w1)) = true).
  { rewrite Hp1, Hm. cbn. by apply bool_decide_true. }
  rewrite Hown in E. cbn [negb] in E. rewrite <- Hp1. apply eng_try_Ok in E as [E | (? & ? & _ & [=])].
  destruct (pp_is_control_op m); [by eapply retry_control_settles | by eapply retry_executor_settles].
Qed.
Lemma reconcile_all_empty l w w' :
  wf (w_engine w) -> pend w = l -> reconcile_all l w = (Ok [], w') -> pend w' = [].
Proof.
  revert w. induction l as [|[id m] l IH]; intros w Hwf Hl; [by intros [= <-]|]. cbn [reconcile_all].
  intros (ok & w1 & E1 & E)%eng_bind_Ok. apply eng_bind_Ok in E as (failures & w2 & E2 & [= Hf <-]).
  destruct ok; [subst failures | done].
  assert (Hs : framed sound (reconcile_one id m)) by (apply R_reconcile_one; sound_parts). specialize (Hs w). rewrite E1 in Hs.
  assert (Hp : pend w1 = dict_pop id (pend w)).
  { eapply reconcile_one_settles; [done| |done]. rewrite Hl. cbn. by rewrite bool_decide_true. }
  apply (IH w1); [by apply Hs| |done]. rewrite Hp, Hl. pose proof (wf_pending _ Hwf) as Hnd. fold (pend w) in Hnd. rewrite Hl in Hnd.
  apply NoDup_cons in Hnd as [Hid _]. unfold dict_pop. cbn. rewrite bool_decide_true by done. by apply dict_pop_fresh.
Qed.
Lemma reconcile_empty w w' : wf (w_engine w) -> _reconcile_pending_persistence w = (Ok tt, w') -> pend w' = [].
Proof.
  intros Hwf (e & w1 & [= <- <-] & E)%eng_bind_Ok. apply eng_bind_Ok in E as (failures & w2 & E2 & E).
  destruct failures; [injection E as <- | done]. by eapply reconcile_all_empty.
Qed.
Lemma reconcile_pending_empty w w' : wf (w_engine w) -> reconcile_pending w = (Ok tt, w') -> pend w' = [].
Proof.
  intros Hwf (e & w1 & [= <- <-] & E)%eng_bind_Ok. destruct (ce_pending (w_engine w)) eqn:Ep; [by injection E as <-|].
  apply eng_bind_Ok in E as (time_left & w2 & E2 & E). destruct time_left; [|done]. cbn [negb] in E.
  apply eng_bind_Ok in E as (ends & w3 & E3 & E). destruct ends; [|by apply eng_bind_Ok in E as (? & ? & _ & [=])].
  apply eng_bind_Ok in E as ([] & w4 & [= <-] & E). eapply reconcile_empty; [|exact E].
  assert (Hs : framed sound wait_ends) by sound_parts.
  pose proof (Hs w) as H2. rewrite E2 in H2. pose proof (Hs w2) as H3. rewrite E3 in H3.
  destruct H2 as [H2 _], H3 as [H3 _]. by destruct (H3 (H2 Hwf)); split.
Qed.

(** A stop that succeeds and that no control operation overlaps leaves nothing behind.
    In every history of steps that do not overlap, when [stop] of an engine that was
    not stopped returns, no coroutine is alive and no state waits to be written,
    whatever failed and was retried on the way. *)
Theorem clean_stop_leaves_nothing (w w' : World) (Hw : reachable w) (Hrun : ce_state (w_engine w) ≠ STOPPED)
  (Hstop : stop w = (Ok tt, w')) :
  ce_state (w_engine w') = STOPPED /\ ce_owners (w_engine w') = [] /\ ce_pending (w_engine w') = [].
Proof.
  apply stop_cases in Hstop as [[Hs _] | [[(err & [=]) _] | (_ & Hs & w0 & w1 & w2 & w3 & E1 & E2 & E3 & -> & ->)]]; [done|].
  split; [done|]. pose proof (drained _ _ E1) as Ho. split.
  - pose proof (calm_rest w1) as [_ Hc]. unfold eng_bind in Hc. rewrite E2, E3 in Hc. by apply Hc.
  - apply reconcile_pending_empty in E3; [done|].
    assert (H1 : framed sound drain_executions) by (apply R_drain_executions; sound_parts).
    assert (H2 : framed sound drain_retained) by (apply R_drain_retained; sound_parts).
    specialize (H2 w1). rewrite E2 in H2. apply H2. set (w0 := MkWorld _ _ _) in E1. specialize (H1 w0). rewrite E1 in H1. apply H1.
    by apply wf_state, reachable_wf.
Qed.

(** A failed stop locks the engine.  After it, until a stop succeeds, control
    operations answer that the engine is unavailable, creating a task and starting
    the engine raise, and none of them changes the memory or the database. *)
Theorem failed_stop_locks_engine (w w' : World) (err : exn) (Hstop : stop w = (Raise err, w')) (now mono : Z) (id p : string) :
  pause now id p w' = (Ok "engine_unavailable", w')
  /\ resume now id p w' = (Ok "engine_unavailable", w')
  /\ remove now id p w' = (Ok "engine_unavailable", w')
  /\ start now mono w' = (Raise (Exn RuntimeError "cron engine is QUARANTINED"), w')
  /\ (forall at_ name prompt schedule deliver_to meta,
        create at_ name prompt schedule deliver_to meta p w' = (Raise (Exn RuntimeError "engine_unavailable"), w')).
Proof.
  assert (Hs : ce_state (w_engine w') = QUARANTINED).
  { pose proof Hstop as E. apply stop_cases in E as [[Hs ->] | [[_ Hs] | ([=] & _)]]; [|done].
    unfold stop, eng_bind at 1 in Hstop. cbn [get_engine] in Hstop. by rewrite bool_decide_true in Hstop. }
  assert (Hl : forall b, _check_lifecycle_lock b w' = (Ok (Some "engine_unavailable"), w')).
  { intros b. unfold _check_lifecycle_lock, eng_bind. cbn [get_engine]. by rewrite Hs. }
  assert (Hc : forall body, control id p body w' = (Ok "engine_unavailable", w')).
  { intros body. unfold control, eng_bind at 1. by rewrite Hl. }
  split_and!; [apply Hc..| |].
  - unfold start, eng_bind. cbn. by rewrite Hs.
  - intros. unfold create, eng_bind at 1. by rewrite Hl.
Qed.

End Lifecycle.

(** ** Examples *)
Module LifecycleExample.
Export EngineExample.
(** The executor does not end: the stop fails. *)
Definition wedged : World := run running (quiet_world [true; false] []).
Definition quarantined : World := (stop wedged).2.
(** The database refuses to record a pause. *)
Definition pausing : World :=
  run (running ++ [EvPause (noon + HOUR) "u0" "alice"]) (quiet_world [] (quiet 10 ++ [MkAccess [] FailsBefore; MkAccess [] FailsBefore])).
End LifecycleExample.
Import LifecycleExample.
Lemma stop_reachable `{CronPlatform} `{CronRuntime} `{CronConfig} w : reachable w -> reachable (stop w).2.
Proof. exact (reach_step EvStop w). Qed.
Lemma start_spares_live_executions_witness :
  ce_owners (w_engine quarantined) ≠ [] /\ w_db (start noon 0 quarantined).2 = w_db quarantined.
Proof. split; [by vm_compute|]. apply start_spares_live_executions; [unfold quarantined; apply stop_reachable, quiet_reachable | by vm_compute]. Defined.
Lemma clean_stop_leaves_nothing_witness :
  length (ce_pending (w_engine pausing)) = 1%nat
  /\ ce_state (w_engine (stop pausing).2) = STOPPED /\ ce_owners (w_engine (stop pausing).2) = []
  /\ ce_pending (w_engine (stop pausing).2) = [].
Proof.
  split; [by vm_compute|]. apply (clean_stop_leaves_nothing pausing); [apply quiet_reachable | by vm_compute|].
  assert (E : (stop pausing).1 = Ok tt) by (by vm_compute). rewrite <- E. apply surjective_pairing.
Defined.
Lemma failed_stop_locks_engine_witness : pause noon "u0" "alice" quarantined = (Ok "engine_unavailable", quarantined).
Proof.
  assert (E : exists err, (stop wedged).1 = Raise err) by (eexists; vm_compute; reflexivity). destruct E as [err E].
  refine (proj1 (failed_stop_locks_engine wedged quarantined err _ noon 0 "u0" "alice")). rewrite <- E. apply surjective_pairing.
Defined.

(** ** Where the engine does not do what it should *)
(** A stopped engine still accepts control operations.  When the database does not
    record one, its marker stays: another [stop] returns at once, without the retry
    that the operation announces. *)
Theorem stopped_engine_never_retries :
  let w := run (created ++ [EvStop; EvPause noon "u0" "alice"])
             (quiet_world [] (quiet 9 ++ [MkAccess [] FailsBefore; MkAccess [] FailsBefore])) in
  length (ce_pending (w_engine w)) = 1%nat /\ stop w = (Ok tt, w).
Proof. split; vm_compute; reflexivity. Qed.
(** The replay of the journal at the start is not limited to the project: intents
    of another project count as applied, because their tasks are not visible. *)
Theorem start_discards_intents_of_other_projects :
  let other := sched_run empty_sched [SInsert "t" "n" "p" [] "local" [] "bob" None "other" "d"; SJournal 1 "op" "t" "pause" "paused" 0 1 "bob" "d" "other"] in
  let db := w_db (start noon 0 (MkWorld (new_cron []) other [])).2 in
  sd_tasks db = sd_tasks other /\ (sr_status <$> sd_tasks db) = ["pending"]
  /\ (je_applied_at <$> sd_journal other) = [None] /\ (je_applied_at <$> sd_journal db) = [Some noon].
Proof. split_and!; vm_compute; reflexivity. Qed.
