(* ===== verification/CronControl.v ===== *)
(** * Control operations of the cron engine

    What pausing, removing and running a task promise when the database is shared and
    may fail at any access: an "ok" is durable, a write that was committed before it
    raised counts as made, and no executor runs without a claim. *)
From S2P Require Import Prelude PyStr Json PyValue Coroutine SchedulerStore CronSchedule CronEngine CronLifecycle.
Open Scope Z_scope.

Section Control.
Context {platform : CronPlatform} {runtime : CronRuntime} {config : CronConfig}.

(** ** The database of a world *)
(** Rows have a lease exactly while they run, identities are unique, and others
    make a task running only by a claim. *)
Record fair (w : World) : Prop := {
  fair_lease : Forall lease_ok (sd_tasks (w_db w));
  fair_ids : ids_ok (w_db w);
  fair_ops : Forall (fun a => Forall op_ok (ac_before a)) (w_accesses w)
}.
Lemma run_lease ops db : Forall op_ok ops -> Forall lease_ok (sd_tasks db) -> Forall lease_ok (sd_tasks (sched_run db ops)).
Proof. intros Ho. revert db. induction Ho as [|op ops Hop Ho IH]; intros db Hdb; [done|]. by apply IH, step_lease. Qed.
Lemma sched_run_app db a b : sched_run db (a ++ b) = sched_run (sched_run db a) b.
Proof. apply foldl_app. Qed.
(** The database moves on by writes that are fair. *)
Definition fairly (w w' : World) : Prop :=
  exists ops n, w_db w' = sched_run (w_db w) ops /\ w_accesses w' = drop n (w_accesses w) /\ (fair w -> Forall op_ok ops).
Lemma fairly_fair w w' : fairly w w' -> fair w -> fair w'.
Proof.
  intros (ops & n & E & En & Ho) Hw. pose proof (Ho Hw) as Hops. destruct Hw as [H1 H2 H3]. split.
  - rewrite E. by apply run_lease.
  - rewrite E. by apply run_ids.
  - rewrite En. by apply Forall_drop.
Qed.
#[local] Instance fairly_preorder : PreOrder fairly.
Proof.
  split; [intros w; exists [], 0%nat; done|]. intros w1 w2 w3 H12 (o2 & n2 & E2 & F2 & G2).
  pose proof (fairly_fair _ _ H12) as Hf. destruct H12 as (o1 & n1 & E1 & F1 & G1). exists (o1 ++ o2), (n1 + n2)%nat. split_and!.
  - by rewrite sched_run_app, <- E1.
  - by rewrite F2, F1, drop_drop.
  - intros Hw. apply Forall_app. auto.
Qed.
Lemma fairly_modify f : framed fairly (modify f).
Proof. apply framed_modify. intros w. by exists [], 0%nat. Qed.
Lemma fairly_next w e : fairly w (MkWorld e (next_db w) (tl (w_accesses w))).
Proof.
  exists (ac_before (next_access w)), 1%nat. split_and!; [done | by destruct w as [? ? []]|].
  intros [_ _ Ho]. unfold next_access. destruct (w_accesses w) as [|a l]; [constructor|]. by apply Forall_cons in Ho as [Ho _].
Qed.
Lemma fairly_access {A} (f : SchedDb -> res A * SchedDb) :
  (forall db, (f db).2 = db \/ exists op, op_ok op /\ (f db).2 = sched_step db op) -> framed fairly (db_access f).
Proof.
  intros Hf. apply framed_access. intros w db [-> | ->]; [apply fairly_next|].
  destruct (Hf (next_db w)) as [-> | (op & Hop & ->)]; [apply fairly_next|].
  etransitivity; [apply (fairly_next w (w_engine w))|]. exists [op], 0%nat. split_and!; try done. intros _. by constructor.
Qed.
Lemma fairly_read {A} (f : SchedDb -> A) : framed fairly (db_read f).
Proof. apply fairly_access. by left. Qed.
Lemma fairly_write {A} (f : SchedDb -> A * SchedDb) op :
  op_ok op -> (forall db, (f db).2 = sched_step db op) -> framed fairly (db_write f).
Proof. intros Hop Hf. apply fairly_access. intros db. right. exists op. split; [done|]. rewrite <- Hf. by destruct (f db). Qed.
Lemma fairly_mark now op : framed fairly (_mark_journal_applied now op).
Proof. unfold _mark_journal_applied. frame. by apply (fairly_write _ (SMark now op)). Qed.
Lemma fairly_journal now op t ty d v v' : framed fairly (_write_journal_entry now op t ty d v v').
Proof. by eapply (fairly_write _ (SJournal _ _ _ _ _ _ _ _ _ _)). Qed.
Lemma fairly_control id v s n e : s ≠ "running" -> framed fairly (repo_control_finalize id v (v + 1) s n e).
Proof. intros Hs. by apply (fairly_write _ (SControl id v s n e)). Qed.
Lemma fairly_get id : framed fairly (repo_get id).
Proof. apply fairly_read. Qed.
#[local] Hint Resolve fairly_modify fairly_read fairly_mark fairly_journal fairly_get : framed.
Lemma fairly_uuid : framed fairly fresh_uuid.
Proof. unfold fresh_uuid. frame. Qed.
Lemma fairly_cas id v s n e : s ≠ "running" -> framed fairly (control_cas id v (v + 1) s n e).
Proof. intros Hs. pose proof (fairly_control id v s n e Hs). unfold control_cas. frame. Qed.
#[local] Hint Resolve fairly_uuid : framed.
Lemma status_running s : s ≠ RUNNING -> cron_status_value s ≠ "running".
Proof. by destruct s. Qed.

(** Programs that only use the database *)
Definition same_engine (w w' : World) : Prop := w_engine w' = w_engine w.
#[local] Instance same_engine_preorder : PreOrder same_engine.
Proof. split; [by intros w|]. intros w1 w2 w3 E1 E2. unfold same_engine in *. congruence. Qed.
Lemma keep_access A (f : SchedDb -> res A * SchedDb) : framed same_engine (db_access f).
Proof. apply framed_access. by intros w db _. Qed.
Lemma keep_read {A} (f : SchedDb -> A) : framed same_engine (db_read f).
Proof. apply keep_access. Qed.
Lemma keep_write {A} (f : SchedDb -> A * SchedDb) : framed same_engine (db_write f).
Proof. apply keep_access. Qed.
Lemma keep_get id : framed same_engine (repo_get id).
Proof. apply keep_access. Qed.
Lemma keep_control id v v' s n e : framed same_engine (repo_control_finalize id v v' s n e).
Proof. apply keep_access. Qed.
#[local] Hint Resolve keep_access keep_read keep_write keep_get keep_control : framed.
Lemma keep_cas id v v' s n e : framed same_engine (control_cas id v v' s n e).
Proof. unfold control_cas. frame. Qed.
Lemma keep_mark now op : framed same_engine (_mark_journal_applied now op).
Proof. unfold _mark_journal_applied. frame. Qed.
Lemma framed_eq (R : relation World) {A} (m : eng A) w r w' : framed R m -> m w = (r, w') -> R w w'.
Proof. intros Hm E. specialize (Hm w). by rewrite E in Hm. Qed.

(** ** The write of a control operation *)
Lemma visible_row id p project db row : get_scheduled_task id p project db = Some row -> row_of id db = Some row.
Proof. unfold get_scheduled_task. destruct (row_of id db); [|done]. by destruct (_ && _). Qed.
Lemma control_hits id v s n e db :
  ids_ok db -> (control_finalize_scheduled_task id v (v + 1) s n e db).1 ≠ 0 ->
  exists row, row_of id (control_finalize_scheduled_task id v (v + 1) s n e db).2 = Some row /\ sr_status row = s
    /\ sr_lifecycle_version row = v + 1.
Proof.
  intros Hdb Hn. apply (update_hits _ _ id) in Hn as (r & Hr & Hp); [|done|].
  - eexists. split; [exact (row_of_step (SControl id v s n e) _ _ _ Hr)|]. cbn [row_step]. unfold when. rewrite Hp. done.
  - intros r. rewrite andb_true_iff. unfold is_id. rewrite bool_decide_eq_true. tauto.
Qed.
Lemma confirmed_row id v s db :
  confirmed v s (get_scheduled_task id None (Some cc_project_id) db) = true ->
  exists row, row_of id db = Some row /\ sr_status row = s /\ sr_lifecycle_version row = v.
Proof.
  destruct (get_scheduled_task _ _ _ _) as [row|] eqn:E; [|done]. cbn. rewrite andb_true_iff, bool_decide_eq_true.
  intros [Hv Hs]. exists row. split; [by eapply visible_row | split; [done | lia]].
Qed.
Lemma readback_true id v s w w' :
  (let+ row := eng_try (repo_get id) (fun _ => eng_ret None) in eng_ret (confirmed v s row)) w = (Ok true, w') ->
  exists row, row_of id (w_db w') = Some row /\ sr_status row = s /\ sr_lifecycle_version row = v.
Proof.
  intros (row & w1 & E1 & [= Hc <-])%eng_bind_Ok. apply eng_try_Ok in E1 as [E1 | (e & w2 & _ & [= <- <-])]; [|done].
  apply read_Ok in E1 as (_ & -> & ->). by apply confirmed_row.
Qed.
Lemma cas_true id v s n e w w' :
  fair w -> control_cas id v (v + 1) s n e w = (Ok true, w') ->
  exists row, row_of id (w_db w') = Some row /\ sr_status row = s /\ sr_lifecycle_version row = v + 1.
Proof.
  intros Hw (count & w1 & E1 & E)%eng_bind_Ok. destruct (count =? 0) eqn:Ec; [by apply readback_true in E|]. injection E as <-.
  apply eng_try_Ok in E1 as [E1 | (err & w2 & _ & E1)].
  - apply write_Ok in E1 as (_ & E1 & _). assert (Hids : ids_ok (next_db w)) by exact (fair_ids _ (fairly_fair _ _ (fairly_next w (w_engine w)) Hw)).
    pose proof (control_hits id v s n e _ Hids) as Hh. rewrite E1 in Hh. apply Hh. cbn. lia.
  - apply eng_bind_Ok in E1 as (row & w3 & E1 & E2). apply read_Ok in E1 as (_ & -> & ->).
    destruct (confirmed _ _ _) eqn:Hc; [injection E2 as _ <- | done]. by apply confirmed_row.
Qed.

(** ** Writing the state of a task *)
(** The row of the task is in this state, at this version (or gone). *)
Definition recorded (id desired : string) (v : Z) (db : SchedDb) : Prop :=
  get_scheduled_task id None (Some cc_project_id) db = None
  \/ exists row, row_of id db = Some row /\ sr_status row = desired /\ sr_lifecycle_version row = v.
(** The task object and the coroutines stay. *)
Definition quietly (w w' : World) : Prop :=
  ce_heap (w_engine w') = ce_heap (w_engine w) /\ ce_owners (w_engine w') = ce_owners (w_engine w).
#[local] Instance quietly_preorder : PreOrder quietly.
Proof. split; [by intros w|]. intros w1 w2 w3 [A1 B1] [A2 B2]. split; congruence. Qed.
Lemma quietly_modify f : (forall e, ce_heap (f e) = ce_heap e /\ ce_owners (f e) = ce_owners e) -> framed quietly (modify f).
Proof. intros Hf. apply framed_modify. intros w. apply Hf. Qed.
Lemma keep_quietly {A} (m : eng A) : framed same_engine m -> framed quietly m.
Proof. intros Hm w. specialize (Hm w). unfold quietly. by rewrite Hm. Qed.
#[local] Hint Extern 3 (framed quietly (modify _)) => by apply quietly_modify : framed.
#[local] Hint Extern 3 (framed quietly (db_read _)) => apply keep_quietly, keep_read : framed.
#[local] Hint Extern 3 (framed quietly (db_write _)) => apply keep_quietly, keep_write : framed.
#[local] Hint Extern 3 (framed quietly (repo_get _)) => apply keep_quietly, keep_get : framed.
#[local] Hint Extern 3 (framed quietly (control_cas _ _ _ _ _ _)) => apply keep_quietly, keep_cas : framed.
#[local] Hint Extern 3 (framed quietly (_mark_journal_applied _ _)) => apply keep_quietly, keep_mark : framed.
Lemma quietly_own id op : framed quietly (pop_own_marker id op).
Proof. unfold pop_own_marker, pop_marker. frame. Qed.
Lemma fairly_own id op : framed fairly (pop_own_marker id op).
Proof. unfold pop_own_marker, pop_marker. frame. Qed.
Lemma adopt_task id r v w t : ce_heap (w_engine w) !! r = Some t ->
  ce_heap (w_engine (adopt_version id r v w).2) !! r = Some (set_version v t)
  /\ ce_owners (w_engine (adopt_version id r v w).2) = ce_owners (w_engine w) /\ w_db (adopt_version id r v w).2 = w_db w.
Proof. intros Hr. cbn. split; [|done]. by rewrite list_lookup_alter_eq, Hr. Qed.

(** What others write before the accesses of a world *)
Definition by_others (w : World) (op : sched_op) : Prop := exists a, a ∈ w_accesses w /\ op ∈ ac_before a.
(** The database moves on by writes of others and journal marks only. *)
Definition aside (w w' : World) : Prop :=
  exists ops n, w_db w' = sched_run (w_db w) ops /\ w_accesses w' = drop n (w_accesses w)
    /\ Forall (fun op => by_others w op \/ exists now o, op = SMark now o) ops.
Lemma by_others_drop w w' n op : w_accesses w' = drop n (w_accesses w) -> by_others w' op -> by_others w op.
Proof. intros E (a & Ha & Ho). exists a. split; [|done]. rewrite E in Ha. rewrite <-(take_drop n). apply elem_of_app. by right. Qed.
#[local] Instance aside_preorder : PreOrder aside.
Proof.
  split; [intros w; exists [], 0%nat; done|]. intros w1 w2 w3 (o1 & n1 & E1 & F1 & G1) (o2 & n2 & E2 & F2 & G2).
  exists (o1 ++ o2), (n1 + n2)%nat. split_and!; [by rewrite sched_run_app, <- E1 | by rewrite F2, F1, drop_drop|].
  apply Forall_app. split; [done|]. eapply Forall_impl; [exact G2|]. intros op [Ho|Ho]; [left; by eapply by_others_drop|by right].
Qed.
Lemma aside_same w w' : w_db w' = w_db w -> w_accesses w' = w_accesses w -> aside w w'.
Proof. intros Hd Ha. exists [], 0%nat. done. Qed.
Lemma aside_modify f : framed aside (modify f).
Proof. apply framed_modify. intros w. by apply aside_same. Qed.
Lemma aside_next w e : aside w (MkWorld e (next_db w) (tl (w_accesses w))).
Proof.
  exists (ac_before (next_access w)), 1%nat. split_and!; [done | by destruct w as [? ? []]|].
  apply Forall_forall. intros op Ho. left. exists (next_access w). split; [|done].
  unfold next_access in *. destruct (w_accesses w); [by apply not_elem_of_nil in Ho|left].
Qed.
Lemma aside_mark now op : framed aside (_mark_journal_applied now op).
Proof.
  assert (Hm : framed aside (db_write (mark_scheduler_journal_applied now op))).
  { apply framed_access. intros w db Hdb. etransitivity; [apply (aside_next w (w_engine w))|].
    destruct Hdb as [-> | ->]; [by apply aside_same|]. exists [SMark now op], 0%nat. split_and!; [|done|].
    - cbn. by destruct (mark_scheduler_journal_applied now op (next_db w)).
    - constructor; [right; eauto|done]. }
  unfold _mark_journal_applied. pose proof aside_modify. frame.
Qed.
Lemma aside_own id op : framed aside (pop_own_marker id op).
Proof. pose proof aside_modify. unfold pop_own_marker, pop_marker. frame. Qed.

(** What a write that succeeds leaves: [w1] is the world of the access that showed it;
    from then on the operation writes nothing but a journal mark. *)
Definition written (r : nat) (t : ScheduledTask) (w w' : World) : Prop :=
  exists w1 t', fairly w w1 /\ fair w1 /\ aside w1 w' /\ ce_heap (w_engine w') !! r = Some t' /\ st_status t' = st_status t
    /\ ce_owners (w_engine w') = ce_owners (w_engine w)
    /\ recorded (st_id t) (cron_status_value (st_status t)) (st_lifecycle_version t') (w_db w1).
Lemma persist_over_true now r is_new op ty t v w w' :
  fair w -> ce_heap (w_engine w) !! r = Some t -> st_status t ≠ RUNNING ->
  persist_over now r is_new op ty t v w = (Ok true, w') -> written r t w w'.
Proof.
  intros Hw Hr Hs%status_running. unfold persist_over. cbv zeta.
  intros ([] & w1 & E1 & E)%eng_bind_Ok. apply eng_bind_Ok in E as (n & w2 & E2 & E).
  apply eng_bind_Ok in E as (won & w3 & E3 & E). apply eng_bind_Ok in E as ([] & w4 & E4 & E).
  apply eng_bind_Ok in E as ([] & w5 & E5 & E). apply eng_bind_Ok in E as ([] & w6 & E6 & [= -> <-]).
  assert (F12 : fairly w w2).
  { transitivity w1; [by eapply framed_eq in E1; [|apply fairly_modify]|]. eapply framed_eq; [|exact E2]. frame. }
  assert (Q12 : quietly w w2).
  { transitivity w1; [by eapply framed_eq in E1; [|by apply quietly_modify]|]. eapply framed_eq; [|exact E2]. unfold _write_journal_entry. frame. }
  assert (F23 : fairly w2 w3) by (eapply framed_eq; [|exact E3]; by apply fairly_cas).
  assert (Q24 : quietly w2 w4).
  { transitivity w3; [eapply framed_eq; [|exact E3]; frame | eapply framed_eq; [|exact E4]; apply quietly_own]. }
  assert (A34 : aside w3 w4) by (eapply framed_eq; [|exact E4]; apply aside_own).
  pose proof (fairly_fair _ _ F12 Hw) as Hw2. destruct (cas_true _ _ _ _ _ _ _ Hw2 E3) as (row & Hrow & Hst & Hv).
  destruct Q12 as [Qh1 Qo1], Q24 as [Qh2 Qo2].
  assert (Hr4 : ce_heap (w_engine w4) !! r = Some t) by congruence.
  destruct (adopt_task (st_id t) r (v + 1) w4 t Hr4) as (Hr5 & Ho5 & Hd5). rewrite E5 in Hr5, Ho5, Hd5. cbn in Hr5, Ho5, Hd5.
  pose proof (framed_eq _ _ _ _ _ (keep_mark now op) E6) as Q6. unfold same_engine in Q6.
  exists w3, (set_version (v + 1) t). split_and!; [by etransitivity|by eapply fairly_fair| |by rewrite Q6|done|congruence|].
  - transitivity w4; [done|]. transitivity w5; [|by eapply framed_eq; [|exact E6]; apply aside_mark].
    apply aside_same; [done|]. by injection E5 as <-.
  - right. exists row. done.
Qed.
Lemma settled_written now r t (is_new : bool) op w w1 w' v :
  fair w -> w_db w = w_db w1 -> w_accesses w = w_accesses w1 -> ce_owners (w_engine w1) = ce_owners (w_engine w) ->
  ce_heap (w_engine w1) !! r = Some (set_version v t) ->
  recorded (st_id t) (cron_status_value (st_status t)) v (w_db w) ->
  ((if is_new then eng_ret tt else _mark_journal_applied now op) ;;+ eng_ret true) w1 = (Ok true, w') -> written r t w w'.
Proof.
  intros Hw Hd Ha Ho Hr Hrec ([] & w2 & E & [= <-])%eng_bind_Ok. exists w, (set_version v t).
  pose proof (aside_mark now op) as Hm.
  assert (F : aside w1 w2) by (eapply framed_eq; [|exact E]; destruct is_new; [apply framed_ret; exact _|exact Hm]).
  assert (Q : quietly w1 w2) by (eapply framed_eq; [|exact E]; frame). destruct Q as [Qh Qo].
  split_and!; [done|done| |by rewrite Qh|done|congruence|done].
  etransitivity; [|exact F]. by apply aside_same.
Qed.
Lemma set_version_same t : set_version (st_lifecycle_version t) t = t.
Proof. by destruct t. Qed.
Lemma persist_true now r operation ty t w w' :
  fair w -> ce_heap (w_engine w) !! r = Some t -> st_status t ≠ RUNNING ->
  _persist_task_state now r None operation ty w = (Ok true, w') -> written r t w w'.
Proof.
  intros Hw Hr Hs (op & w1 & E1 & E)%eng_bind_Ok.
  assert (F1 : fairly w w1) by (eapply framed_eq; [|exact E1]; frame).
  assert (Q1 : quietly w w1) by (eapply framed_eq; [|exact E1]; unfold fresh_uuid; frame). destruct Q1 as [Qh Qo].
  pose proof (fairly_fair _ _ F1 Hw) as Hw1.
  apply eng_bind_Ok in E as (t' & w2 & [= <- <-] & E). 
  assert (Ht : default no_task (ce_heap (w_engine w1) !! r) = t) by (by rewrite Qh, Hr). rewrite Ht in E. cbv zeta in E.
  apply eng_bind_Ok in E as (row & w3 & E3 & E).
  apply eng_try_Ok in E3 as [E3 | (err & w4 & _ & E3)]; [|by apply eng_bind_Ok in E3 as (? & ? & _ & [=])].
  apply read_Ok in E3 as (_ & Hrow & ->). set (w3 := MkWorld _ _ _) in *.
  assert (F3 : fairly w1 w3) by apply fairly_next. pose proof (fairly_fair _ _ F3 Hw1) as Hw3.
  assert (Hr3 : ce_heap (w_engine w3) !! r = Some t) by (unfold w3; cbn; by rewrite Qh).
  assert (Hback : written r t w3 w' -> written r t w w').
  { intros (wx & t' & X0 & X1 & X2 & X3 & X4 & X5 & X6). exists wx, t'. split_and!; try done; [|by rewrite X5].
    transitivity w1; [done|]. by transitivity w3. }
  apply Hback. destruct row as [row|].
  - case_bool_decide as Hd; [|by eapply persist_over_true].
    apply eng_bind_Ok in E as ([] & w4 & E4 & E). apply eng_bind_Ok in E as ([] & w5 & [= <-] & E).
    destruct (adopt_task (st_id t) r (sr_lifecycle_version row) w3 t Hr3) as (H4 & H5 & H6). rewrite E4 in H4, H5, H6. cbn in H4, H5, H6.
    refine (settled_written _ _ _ _ _ w3 _ _ (sr_lifecycle_version row) Hw3 _ _ _ _ _ E); [done|by injection E4 as <-|done|exact H4|].
    right. exists row. symmetry in Hrow. apply visible_row in Hrow. done.
  - apply eng_bind_Ok in E as ([] & w5 & [= <-] & E).
    refine (settled_written _ _ _ _ _ w3 _ _ (st_lifecycle_version t) Hw3 _ _ _ _ _ E); [done..| |by left].
    cbn. by rewrite set_version_same.
Qed.

(** ** Halting a task *)
(** The execution of a task that is alive carries an older epoch. *)
Definition epoch_is_new (id : string) (e : Cron) : Prop :=
  match dict_get id (ce_owners e) with
  | Some (MkOwner _ (Executing x)) | Some (MkOwner _ (Completing x)) => tk_epoch x <> epoch_in e id + 1
  | _ => True
  end.
Lemma bump_task id r t w : dict_get id (ce_tasks (w_engine w)) = Some r -> ce_heap (w_engine w) !! r = Some t ->
  exists v, let w1 := (_bump_epoch id w).2 in
    ce_heap (w_engine w1) !! r = Some (set_version v t) /\ ce_owners (w_engine w1) = ce_owners (w_engine w)
    /\ epoch_in (w_engine w1) id = epoch_in (w_engine w) id + 1 /\ w_db w1 = w_db w /\ w_accesses w1 = w_accesses w
    /\ (_bump_epoch id w).1 = Ok tt.
Proof.
  intros Hr Ht. exists (epoch_in (w_engine w) id + 1). unfold _bump_epoch, eng_bind. cbn. rewrite Hr. cbn.
  rewrite list_lookup_alter_eq, Ht. split_and!; try done. unfold epoch_in. cbn. by rewrite dict_get_set, bool_decide_true.
Qed.
Lemma cancel_true id w w' :
  match dict_get id (ce_owners (w_engine w)) with
  | Some (MkOwner _ (Executing x)) | Some (MkOwner _ (Completing x)) => tk_epoch x <> epoch_in (w_engine w) id
  | _ => True
  end ->
  _cancel_in_flight_execution id w = (Ok true, w') ->
  dict_get id (ce_owners (w_engine w')) = None /\ w_db w' = w_db w /\ w_accesses w' = w_accesses w
  /\ (forall r t, ce_heap (w_engine w) !! r = Some t ->
        exists t', ce_heap (w_engine w') !! r = Some t' /\ st_status t' = st_status t /\ st_id t' = st_id t).
Proof.
  intros He (e & w1 & [= <- <-] & E)%eng_bind_Ok.
  destruct (dict_get id (ce_owners (w_engine w))) as [[r phase]|] eqn:Eo; [|injection E as <-; split_and!; eauto].
  apply eng_bind_Ok in E as (ends & w2 & [= Eends <-] & E). destruct ends; [|done].
  apply eng_bind_Ok in E as ([] & w3 & E3 & E). apply eng_bind_Ok in E as ([] & w4 & [= <-] & [= <-]). cbn.
  rewrite dict_get_pop, bool_decide_true by done. destruct phase as [|x|x]; cbn [execution_cancelled ow_phase ow_task] in E3.
  - injection E3 as <-. split_and!; eauto.
  - apply eng_bind_Ok in E3 as (changed & w5 & [= Hc <-] & E3). unfold epoch_in in He, Hc. cbn in Hc.
    rewrite (proj2 (Z.eqb_neq _ _)) in Hc by congruence. subst changed. injection E3 as <-. cbn. split_and!; try done.
    intros j t Hj. destruct (decide (j = r)) as [-> | Hn]; [rewrite list_lookup_alter_eq, Hj | rewrite list_lookup_alter_ne by done]; eauto.
  - apply eng_bind_Ok in E3 as (changed & w5 & [= Hc <-] & E3). unfold epoch_in in He, Hc. cbn in Hc.
    rewrite (proj2 (Z.eqb_neq _ _)) in Hc by congruence. subst changed. injection E3 as <-. cbn. split_and!; try done.
    intros j t Hj. destruct (decide (j = r)) as [-> | Hn]; [rewrite list_lookup_alter_eq, Hj | rewrite list_lookup_alter_ne by done]; eauto.
Qed.
Lemma halt_true now id r status ty t w w' :
  fair w -> wf (w_engine w) -> dict_get id (ce_tasks (w_engine w)) = Some r -> ce_heap (w_engine w) !! r = Some t ->
  epoch_is_new id (w_engine w) -> status ≠ RUNNING -> halt now id r status ty w = (Ok (true, true), w') ->
  exists w1 t', fairly w w1 /\ fair w1 /\ aside w1 w' /\ ce_heap (w_engine w') !! r = Some t' /\ st_status t' = status
    /\ dict_get id (ce_owners (w_engine w')) = None /\ recorded id (cron_status_value status) (st_lifecycle_version t') (w_db w1).
Proof.
  intros Hw Hwf Hid Hr He Hs ([] & w1 & E1 & E)%eng_bind_Ok. apply eng_bind_Ok in E as ([] & w2 & [= <-] & E).
  apply eng_bind_Ok in E as (c & w3 & E3 & E). apply eng_bind_Ok in E as (b & w4 & E4 & [= -> -> <-]).
  destruct (bump_task id r t w Hid Hr) as (v & H1). rewrite E1 in H1. cbn in H1. destruct H1 as (Hr1 & Ho1 & He1 & Hd1 & Ha1 & _).
  apply cancel_true in E3 as (Ho3 & Hd3 & Ha3 & Hh3); cbn in *.
  2: { unfold epoch_in in *. cbn. rewrite Ho1, He1. exact He. }
  destruct (Hh3 r (set_status status (set_version v t))) as (t3 & Hr3 & Hs3 & Hi3); [by rewrite list_lookup_alter_eq, Hr1|].
  assert (Hw3 : fair w3) by (destruct Hw; split; rewrite ?Hd3, ?Ha3, ?Hd1, ?Ha1; done). cbn in Hs3, Hi3.
  apply eng_try_Ok in E4 as [E4 | (? & ? & _ & [=])].
  destruct (persist_true _ _ _ _ _ _ _ Hw3 Hr3 ltac:(congruence) E4) as (wx & t' & X0 & X1 & X2 & X3 & X4 & X5 & X6).
  pose proof (wf_tasks _ Hwf _ _ Hid) as Hi. unfold heap_id in Hi. rewrite Hr in Hi. injection Hi as Hi.
  assert (F03 : fairly w w3) by (exists [], 0%nat; split_and!; [by rewrite Hd3, Hd1|by rewrite Ha3, Ha1|done]).
  exists wx, t'. split_and!; [by transitivity w3|done..|congruence|congruence|]. by rewrite Hi3, Hi, Hs3 in X6.
Qed.
(** A control write on this version of the row *)
Definition controls (id : string) (v : Z) (op : sched_op) : bool :=
  match op with SControl i v' _ _ _ => bool_decide (i = id) && (v' =? v) | _ => false end.
Lemma row_step_halted op id r :
  sr_id r = id -> sr_status r ≠ "pending" -> sr_status r ≠ "running" -> sr_execution_id r = None ->
  controls id (sr_lifecycle_version r) op = false -> row_step op r = r.
Proof.
  intros Hid Hp Hr He Hc. destruct op; cbn [row_step controls] in *; unfold when; try done.
  - unfold has_status. by rewrite (bool_decide_false (sr_status r = "pending")), andb_false_r by done.
  - by rewrite He, andb_false_r.
  - rewrite Z.eqb_sym in Hc. unfold is_id, has_version. destruct (decide (sr_id r = task_id)).
    + rewrite bool_decide_true in Hc by congruence. by rewrite bool_decide_true, Hc by done.
    + by rewrite bool_decide_false by done.
  - unfold lease_expired, has_status. by rewrite bool_decide_false by done.
  - unfold has_status. by rewrite bool_decide_false by done.
  - unfold lease_expired, has_status. by rewrite (bool_decide_false (sr_status r = "running")), andb_false_r by done.
Qed.
Lemma row_run_halted id r ops :
  sr_id r = id -> sr_status r ≠ "pending" -> sr_status r ≠ "running" -> sr_execution_id r = None ->
  forallb (fun op => negb (controls id (sr_lifecycle_version r) op)) ops = true -> row_run ops r = r.
Proof.
  intros Hid Hp Hr He. induction ops as [|op ops IH]; [done|]. cbn. intros [Hc Ho]%andb_true_iff. apply negb_true_iff in Hc.
  rewrite (row_step_halted op id) by done. by apply IH.
Qed.
(** A control operation that does not refuse runs its body. *)
Lemma control_Ok id p body r t w answer w' :
  dict_get id (ce_tasks (w_engine w)) = Some r -> ce_heap (w_engine w) !! r = Some t ->
  answer ∉ ["engine_unavailable"; "engine_degraded"; "not_found"] -> control id p body w = (Ok answer, w') ->
  st_principal_id t = p /\ body r t w = (Ok answer, w').
Proof.
  intros Hid Ht Ha (locked & w1 & [= <- <-] & E)%eng_bind_Ok.
  destruct (_ || _); [injection E as <- _; set_solver|]. cbn in E.
  apply eng_bind_Ok in E as (found & w2 & E2 & E). unfold own_task, find_task, task_at, eng_bind in E2. cbn in E2.
  rewrite Hid in E2. cbn in E2. rewrite Ht in E2. cbn in E2. injection E2 as <- <-.
  case_bool_decide; [done|]. injection E as <- _. set_solver.
Qed.
Lemma recorded_stays id status v w :
  fair w -> status ≠ "pending" -> status ≠ "running" -> recorded id status v (w_db w) ->
  get_scheduled_task id None (Some cc_project_id) (w_db w) = None
  \/ exists row, row_of id (w_db w) = Some row /\ sr_status row = status /\ sr_lifecycle_version row = v
       /\ sr_execution_id row = None /\ sr_lease_until row = None
       /\ forall later, forallb (fun op => negb (controls id v op)) later = true -> row_of id (sched_run (w_db w) later) = Some row.
Proof.
  intros Hw Hp Hr [Hn | (row & Hrow & Hst & Hv)]; [by left|]. right. exists row.
  assert (Hl : lease_ok row).
  { pose proof (fair_lease _ Hw) as Hf. rewrite Forall_forall in Hf. apply Hf. apply List.find_some in Hrow as [Hin _].
    by apply list_elem_of_In. }
  assert (He : sr_execution_id row = None).
  { destruct (sr_execution_id row) eqn:E; [|done]. destruct Hl as [[_ H2] _]. rewrite E in H2. exfalso. apply Hr. rewrite <- Hst. by apply H2. }
  assert (Hle : sr_lease_until row = None).
  { destruct (sr_lease_until row) eqn:E; [|done]. destruct Hl as [_ [_ H2]]. rewrite E, He in H2. by destruct H2. }
  split_and!; [done..|]. intros later Hc. rewrite (row_of_run later _ _ _ Hrow).
  rewrite (row_run_halted id); [done|by eapply row_of_id|congruence|congruence|done|by rewrite Hv].
Qed.

Lemma visible_Some id project db row :
  get_scheduled_task id None (Some project) db = Some row <-> row_of id db = Some row /\ sr_project_id row = project.
Proof.
  unfold get_scheduled_task. destruct (row_of id db) as [r|]; [|naive_solver]. cbn. case_bool_decide; naive_solver.
Qed.
(** A row stays in its project. *)
Lemma row_run_project ops r : sr_project_id (row_run ops r) = sr_project_id r.
Proof.
  revert r. induction ops as [|op ops IH]; intros r; [done|]. cbn. etransitivity; [apply IH|].
  destruct op; cbn [row_step]; unfold when; try done; by case_match.
Qed.
Lemma run_visible id project ops db :
  get_scheduled_task id None (Some project) (sched_run db ops) = None -> get_scheduled_task id None (Some project) db = None.
Proof.
  destruct (get_scheduled_task id None (Some project) db) as [row|] eqn:E; [|done]. apply visible_Some in E as [Hr Hp].
  intros Hn. pose proof (row_of_run ops _ _ _ Hr) as Hr'.
  assert (Hs : get_scheduled_task id None (Some project) (sched_run db ops) = Some (row_run ops row))
    by (apply visible_Some; split; [done|by rewrite row_run_project]). congruence.
Qed.

(** C15. "ok" means halted, for good.  When pausing or removing a task answers "ok", in
    whatever way the database failed on the way and whatever other engines wrote to
    it, no coroutine of the task is alive, its object has the new state, and while the
    operation ran the database (reached from the one it started with by [ops1])
    showed the row of the task in the new state at the version in memory, without
    claim and lease.  From then on no claim, final write or recovery changes that row,
    only a control write that knows its version; the operation itself makes none, so
    the row is there when it returns unless another engine made such a write.  Only
    when the project had no row of the task in the first place is nothing said about
    a row.  The conditions: the engine state is reachable, in the database exactly the
    running rows have claims and leases and identities are unique and the other
    engines make a row running only by a claim ([fair]), the task is registered and
    not already in the new state (see [repeated_pause_claims_ok]), its owner is not
    the principal [legacy] of [SchedulerStore], and an execution
    that is alive carries an earlier epoch.  The operation holds the lock of the task,
    so no other operation of the engine works on the task meanwhile. *)
Theorem halted_task_stays_halted (operation : Z -> string -> string -> eng string) (status : CronStatus)
  (now : Z) (id p : string) (r : nat) (t : ScheduledTask) (w w' : World)
  (Hop : (operation, status) = (pause, PAUSED) \/ (operation, status) = (remove, CANCELLED))
  (Hw : reachable w) (Hfair : fair w) (Htask : dict_get id (ce_tasks (w_engine w)) = Some r) (Ht : ce_heap (w_engine w) !! r = Some t)
  (Hnew : st_status t ≠ status) (Hepoch : epoch_is_new id (w_engine w)) (Hok : operation now id p w = (Ok "ok", w')) :
  dict_get id (ce_owners (w_engine w')) = None
  /\ exists t' ops1 ops2, ce_heap (w_engine w') !! r = Some t' /\ st_status t' = status
    /\ let db := sched_run (w_db w) ops1 in w_db w' = sched_run db ops2
    /\ (get_scheduled_task id None (Some cc_project_id) (w_db w) = None
        \/ exists row, row_of id db = Some row /\ sr_status row = cron_status_value status
             /\ sr_lifecycle_version row = st_lifecycle_version t' /\ sr_execution_id row = None /\ sr_lease_until row = None
             /\ (forall later, forallb (fun op => negb (controls id (st_lifecycle_version t') op)) later = true ->
                  row_of id (sched_run db later) = Some row)
             /\ ((forall op, by_others w op -> controls id (st_lifecycle_version t') op = false) -> row_of id (w_db w') = Some row)).
Proof.
  pose proof (reachable_wf _ Hw) as Hwf.
  assert (Hend : exists ty w1, halt now id r status ty w = (Ok (true, true), w1) /\ status ≠ RUNNING /\ cron_status_value status ≠ "pending"
            /\ ce_heap (w_engine w') = ce_heap (w_engine w1) /\ ce_owners (w_engine w') = ce_owners (w_engine w1) /\ w_db w' = w_db w1).
  { destruct Hop as [[= -> ->] | [= -> ->]]; unfold pause, remove in Hok.
    - eapply control_Ok in Hok as (_ & Hok); [|done|done|set_solver]. exists "pause". destruct (st_status t); try done.
      all: apply eng_bind_Ok in Hok as ([[] []] & w1 & E1 & [= <-]); by exists w1.
    - eapply control_Ok in Hok as (_ & Hok); [|done|done|set_solver]. exists "remove". destruct (_ || _); [done|].
      apply eng_bind_Ok in Hok as ([c b] & w1 & E1 & E2). apply eng_bind_Ok in E2 as ([] & w2 & E2 & E3).
      destruct c, b; try done. injection E3 as <-. exists w1. by injection E2 as <-. }
  destruct Hend as (ty & w1 & Hh & Hs & Hp & -> & -> & ->).
  destruct (halt_true _ _ _ _ _ _ _ _ Hfair Hwf Htask Ht Hepoch Hs Hh)
    as (wx & t' & (ops1 & n1 & X0 & Xn & _) & X1 & (ops2 & _ & X2 & _ & Xo) & X3 & X4 & X5 & X6).
  split; [done|]. exists t', ops1, ops2. cbv zeta. rewrite <- X0. split_and!; [done..|].
  destruct (recorded_stays _ _ _ _ X1 Hp (status_running _ Hs) X6) as [Hn | (row & R1 & R2 & R3 & R4 & R5 & R6)].
  - left. rewrite X0 in Hn. by eapply run_visible.
  - right. exists row. split_and!; [done..|]. intros Hq. rewrite X2. apply R6, forallb_forall. intros op Hin%list_elem_of_In.
    apply negb_true_iff. rewrite Forall_forall in Xo. destruct (Xo op Hin) as [Ho | (? & ? & ->)]; [|done].
    by apply Hq, (by_others_drop w wx n1).
Qed.

(** ** Writes that were committed before they raised *)
Definition raised_after : Access sched_op := MkAccess [] FailsAfter.
Lemma one_row p f id db row :
  ids_ok db -> (forall r, p r = true -> sr_id r = id) -> row_of id db = Some row -> p row = true -> (update_where p f db).1 ≠ 0.
Proof. intros Hdb Hp Hrow Hpr. apply (update_hits p f id db Hdb Hp). eauto. Qed.
Lemma control_confirms id v s n e db row :
  ids_ok db -> get_scheduled_task id None (Some cc_project_id) db = Some row -> sr_lifecycle_version row = v ->
  (control_finalize_scheduled_task id v (v + 1) s n e db).1 ≠ 0
  /\ confirmed (v + 1) s (get_scheduled_task id None (Some cc_project_id) (control_finalize_scheduled_task id v (v + 1) s n e db).2) = true.
Proof.
  intros Hdb [Hrow Hproj]%visible_Some Hv. assert (Hp : is_id id row && has_version v row = true).
  { unfold is_id, has_version. rewrite (row_of_id _ _ _ Hrow), bool_decide_true by done. cbn. lia. }
  split.
  - eapply one_row; [done| |done|done]. intros r. rewrite andb_true_iff. unfold is_id. rewrite bool_decide_eq_true. tauto.
  - pose proof (row_of_step (SControl id v s n e) _ _ _ Hrow) as Hr. cbn [row_step] in Hr. unfold when in Hr. rewrite Hp in Hr.
    cbn [sched_step] in Hr. rewrite (proj2 (visible_Some _ _ _ _) (conj Hr Hproj)). cbn. by rewrite Z.eqb_refl, bool_decide_true.
Qed.
Lemma access_quiet {A} (f : SchedDb -> res A * SchedDb) (e : Cron) db rest :
  db_access f (MkWorld e db (quiet_access :: rest)) = ((f db).1, MkWorld e (f db).2 rest).
Proof. unfold db_access, next_db. cbn. by destruct (f db). Qed.
Lemma access_raised {A} (f : SchedDb -> res A * SchedDb) (e : Cron) db rest :
  db_access f (MkWorld e db (raised_after :: rest)) = (Raise (Exn SqliteError "database is locked"), MkWorld e (f db).2 rest).
Proof. done. Qed.
Lemma cas_raised id v s n e eng0 db rest row :
  ids_ok db -> get_scheduled_task id None (Some cc_project_id) db = Some row -> sr_lifecycle_version row = v ->
  control_cas id v (v + 1) s n e (MkWorld eng0 db (raised_after :: quiet_access :: rest))
  = control_cas id v (v + 1) s n e (MkWorld eng0 db (quiet_access :: rest)).
Proof.
  intros Hdb Hrow Hv. destruct (control_confirms id v s n e db row Hdb Hrow Hv) as [Hn Hc].
  unfold control_cas, repo_control_finalize, repo_get, db_write, db_read, eng_bind, eng_try.
  rewrite !access_quiet, access_raised. destruct (control_finalize_scheduled_task id v (v + 1) s n e db) as [k db'] eqn:E.
  cbn [fst snd] in Hn, Hc |- *. rewrite access_quiet. cbn [fst snd]. rewrite Hc. cbn. by rewrite (proj2 (Z.eqb_neq k 0)).
Qed.
(** The same answer, memory and database *)
Definition agrees {A} (x y : res A * World) : Prop := x.1 = y.1 /\ w_engine x.2 = w_engine y.2 /\ w_db x.2 = w_db y.2.
Lemma persist_over_raised e db rest now r op ty t row :
  ids_ok db -> get_scheduled_task (st_id t) None (Some cc_project_id) db = Some row ->
  persist_over now r true op ty t (sr_lifecycle_version row) (MkWorld e db (quiet_access :: raised_after :: quiet_access :: rest))
  = persist_over now r true op ty t (sr_lifecycle_version row) (MkWorld e db (quiet_access :: quiet_access :: rest)).
Proof.
  intros Hids Hrow. unfold persist_over. cbv zeta. unfold eng_bind at 1 6. cbn [set_marker modify put_engine w_engine w_db w_accesses].
  unfold eng_bind at 1 5, _write_journal_entry at 1 2, db_write at 1 2. rewrite !access_quiet. cbn [fst snd insert_scheduler_journal_entry].
  unfold eng_bind at 1 5. by rewrite (cas_raised _ _ _ _ _ _ _ _ row).
Qed.
Lemma persist_raised e db rest now r ty :
  ids_ok db ->
  agrees (_persist_task_state now r None None ty (MkWorld e db (quiet_access :: quiet_access :: raised_after :: quiet_access :: rest)))
         (_persist_task_state now r None None ty (MkWorld e db (quiet_access :: quiet_access :: quiet_access :: rest))).
Proof.
  intros Hids. set (t := default no_task (ce_heap e !! r)). set (op := uuid_hex (ce_uuids e)).
  set (e1 := with_oracle (ce_uuids e + 1) (ce_waits e) e).
  assert (Hread : forall acc, _persist_task_state now r None None ty (MkWorld e db (quiet_access :: acc)) =
    match get_scheduled_task (st_id t) None (Some cc_project_id) db with
    | None => pop_marker (st_id t) ;;+ (eng_ret tt ;;+ eng_ret true)
    | Some row =>
        if bool_decide (sr_status row = cron_status_value (st_status t)) then
          adopt_version (st_id t) r (sr_lifecycle_version row) ;;+ pop_marker (st_id t) ;;+ (eng_ret tt ;;+ eng_ret true)
        else persist_over now r true op ty t (sr_lifecycle_version row)
    end (MkWorld e1 db acc)) by reflexivity.
  rewrite !Hread. destruct (get_scheduled_task _ _ _ _) as [row|] eqn:Hrow; [case_bool_decide|]; [done| |done].
  by rewrite (persist_over_raised _ _ _ _ _ _ _ _ row).
Qed.
Lemma claim_raised e db rest now t execution_id :
  ids_ok db -> st_project_id t = cc_project_id -> Forall (fun row => sr_execution_id row ≠ Some execution_id) (sd_tasks db) ->
  claim now t execution_id (MkWorld e db (raised_after :: quiet_access :: rest))
  = claim now t execution_id (MkWorld e db (quiet_access :: rest)).
Proof.
  intros Hids Hproj Hfresh. unfold claim, repo_get, db_write, db_read, eng_bind, eng_try. cbv zeta.
  rewrite !access_quiet, access_raised. set (id := st_id t). set (v := st_lifecycle_version t).
  pose proof (claim_count id execution_id now (now + cc_lease) v (Some (st_principal_id t)) (Some (st_project_id t)) (Some (st_policy_digest t)) db Hids) as Hn.
  pose proof (claim_hits id execution_id now (now + cc_lease) v (Some (st_principal_id t)) (Some (st_project_id t)) (Some (st_policy_digest t)) db Hids) as Hh.
  pose proof (claim_misses id execution_id now (now + cc_lease) v (Some (st_principal_id t)) (Some (st_project_id t)) (Some (st_policy_digest t)) db) as Hm.
  unfold sched_step in Hh. destruct (claim_scheduled_task _ _ _ _ _ _ _ _ db) as [k db'] eqn:Ec. cbn [fst snd eng_ret] in *.
  rewrite access_quiet. cbn [fst snd]. do 2 f_equal. destruct Hn as [-> | ->].
  - specialize (Hm eq_refl). destruct (get_scheduled_task _ _ _ db') as [row|] eqn:Hrow; [|done]. apply visible_row in Hrow.
    apply List.find_some in Hrow as [Hin _]. rewrite <- list_elem_of_In in Hin. rewrite Forall_forall in Hfresh.
    rewrite bool_decide_false; [done|]. apply Hfresh. by rewrite <- Hm.
  - destruct Hh as (row & Hrow & Hs & He & Hv & Hmatch); [done|].
    assert (Hp : sr_project_id row = cc_project_id).
    { rewrite !andb_true_iff in Hmatch. destruct Hmatch as [[_ Hp] _]. cbn in Hp. apply bool_decide_eq_true in Hp. congruence. }
    rewrite (proj2 (visible_Some _ _ _ _) (conj Hrow Hp)), He, Hs, Hv. rewrite !bool_decide_true by done. by rewrite Z.eqb_refl.
Qed.
(** A write that was committed counts, also when it raised.  With the database
    otherwise quiet, writing the state of a task gives the same answer, the same
    memory and the same database when the decisive update is committed and then
    raises as when it succeeds; so does the claim of a task, for an execution whose
    identity is not in use. *)
Theorem raised_commit_counts (e : Cron) (db : SchedDb) (rest : list (Access sched_op)) (now : Z) (r : nat) (ty : string)
  (t : ScheduledTask) (execution_id : string) (Hids : ids_ok db) (Hproject : st_project_id t = cc_project_id)
  (Hfresh : Forall (fun row => sr_execution_id row ≠ Some execution_id) (sd_tasks db)) :
  agrees (_persist_task_state now r None None ty (MkWorld e db (quiet_access :: quiet_access :: raised_after :: quiet_access :: rest)))
         (_persist_task_state now r None None ty (MkWorld e db (quiet_access :: quiet_access :: quiet_access :: rest)))
  /\ claim now t execution_id (MkWorld e db (raised_after :: quiet_access :: rest))
     = claim now t execution_id (MkWorld e db (quiet_access :: rest)).
Proof.
  split; [by apply persist_raised | by apply claim_raised].
Qed.

(** ** Executions *)
Lemma claim_true started t execution_id w w' :
  fair w -> claim started t execution_id w = (Ok true, w') ->
  exists row, row_of (st_id t) (w_db w') = Some row /\ sr_status row = "running" /\ sr_execution_id row = Some execution_id
    /\ sr_lifecycle_version row = st_lifecycle_version t.
Proof.
  intros Hw E. apply eng_try_Ok in E as [E | (err & w1 & _ & E)].
  - apply eng_bind_Ok in E as (n & w1 & (_ & E1 & _)%write_Ok & [= Hn <-]).
    assert (Hids : ids_ok (next_db w)) by exact (fair_ids _ (fairly_fair _ _ (fairly_next w (w_engine w)) Hw)).
    pose proof (claim_hits (st_id t) execution_id started (started + cc_lease) (st_lifecycle_version t) (Some (st_principal_id t))
      (Some (st_project_id t)) (Some (st_policy_digest t)) (next_db w) Hids) as Hh.
    unfold sched_step in Hh. rewrite E1 in Hh. destruct Hh as (row & H1 & H2 & H3 & H4 & _); [cbn; lia|]. by exists row.
  - apply eng_bind_Ok in E as (row & w2 & E2 & [= Hc <-]).
    apply eng_try_Ok in E2 as [E2 | (? & ? & _ & [= <- <-])]; [|done]. apply read_Ok in E2 as (_ & -> & ->). cbn.
    destruct (get_scheduled_task _ _ _ _) as [row|] eqn:Er; [|done]. apply visible_row in Er.
    rewrite !andb_true_iff, !bool_decide_eq_true in Hc. exists row. destruct Hc as [[He Hs] Hv]. split_and!; try done. lia.
Qed.
(** C18. No executor runs without a claim.  When the engine hands a task to the executor,
    in whatever way the claim failed and was read back, the task has an authenticated
    principal; its row is running, claimed by this execution at the version the task
    had; the execution keeps that version and the epoch of its start.  When the engine
    has a non-empty policy digest, the task also has the policy and project of the
    engine; an engine with an empty digest does not compare them.  (In the database
    rows have claims and leases exactly while they run and identities are unique.) *)
Theorem executor_runs_only_claimed_tasks (started : Z) (id : string) (r : nat) (t : ScheduledTask) (x : Token) (w w' : World)
  (Hfair : fair w) (Ht : ce_heap (w_engine w) !! r = Some t) (Hbegin : begin_execution started id r w = (Ok (Some x), w')) :
  st_principal_id t ≠ EmptyString /\ st_principal_id t ≠ "legacy"
  /\ (cc_policy_digest ≠ EmptyString -> st_policy_digest t = cc_policy_digest /\ st_project_id t = cc_project_id)
  /\ tk_version x = st_lifecycle_version t /\ tk_epoch x = epoch_in (w_engine w) id
  /\ exists row, row_of (st_id t) (w_db w') = Some row /\ sr_status row = "running"
       /\ sr_execution_id row = Some (tk_execution_id x) /\ sr_lifecycle_version row = tk_version x.
Proof.
  apply eng_bind_Ok in Hbegin as (t' & w1 & [= <- <-] & E). rewrite Ht in E. cbn [default from_option] in E. cbn [Datatypes.id] in E.
  destruct (str_empty (st_principal_id t) || bool_decide (st_principal_id t = "legacy")) eqn:Hp.
  { by apply eng_bind_Ok in E as (? & ? & _ & [=]). }
  apply orb_false_iff in Hp as [Hp1 Hp2%bool_decide_eq_false].
  destruct (_check_snapshot_drift t) eqn:Hd; [by apply eng_bind_Ok in E as (? & ? & _ & [=])|].
  apply eng_bind_Ok in E as (e & w2 & [= <- <-] & E). apply eng_bind_Ok in E as (eid & w3 & [= <- <-] & E).
  apply eng_bind_Ok in E as (claimed & w4 & E4 & E). destruct claimed; [|done].
  apply eng_bind_Ok in E as ([] & w5 & [= <-] & [= <- <-]). cbn.
  split_and!; [by intros Hx; rewrite Hx in Hp1|done| |done|done|].
  - intros Hne. unfold _check_snapshot_drift in Hd. destruct (str_empty cc_policy_digest) eqn:Ee; [|].
    { by destruct cc_policy_digest. }
    case_bool_decide; [|done]. cbn in Hd. case_bool_decide; [done|]. done.
  - eapply claim_true; [|exact E4]. by destruct Hfair; split.
Qed.
End Control.

(** ** Examples *)
Module ControlExample.
Export EngineExample.
(** While the task runs it is paused; the update is committed and raises. *)
Definition before_pause : World := run running (quiet_world [] (quiet 10 ++ [raised_after])).
Definition task_ref : nat := 0.
Lemma before_pause_reachable : reachable before_pause.
Proof. apply quiet_reachable. Qed.
Lemma quiet_accesses a : a ∈ w_accesses before_pause -> ac_before a = [].
Proof.
  assert (H : Forall (fun a => ac_before a = []) (w_accesses before_pause)) by (vm_compute; by repeat constructor).
  rewrite Forall_forall in H. apply H.
Qed.
Lemma before_pause_fair : fair before_pause.
Proof.
  split.
  - vm_compute. constructor; [|constructor]. split; split; done || by eexists.
  - vm_compute. apply NoDup_singleton.
  - vm_compute. by repeat constructor.
Qed.
(** The coroutine of the task has been created. *)
Definition before_claim : World := run (created ++ [EvTick (noon + HOUR) SECOND]) (quiet_world [] (quiet 7 ++ [raised_after])).
Lemma before_claim_fair : fair before_claim.
Proof.
  split.
  - vm_compute. constructor; [|constructor]. split; split; try done; by intros [].
  - vm_compute. apply NoDup_singleton.
  - vm_compute. by repeat constructor.
Qed.
End ControlExample.
Import ControlExample.
Lemma halted_task_stays_halted_witness :
  let w' := (pause noon "u0" "alice" before_pause).2 in
  (pause noon "u0" "alice" before_pause).1 = Ok "ok" /\ dict_get "u0" (ce_owners (w_engine before_pause)) ≠ None
  /\ dict_get "u0" (ce_owners (w_engine w')) = None
  /\ exists row, row_of "u0" (w_db w') = Some row /\ sr_status row = "paused" /\ sr_execution_id row = None.
Proof.
  cbv zeta. split; [vm_compute; reflexivity|]. split; [by vm_compute|].
  assert (Ht : exists t, ce_heap (w_engine before_pause) !! task_ref = Some t /\ st_status t ≠ PAUSED).
  { eexists. split; [vm_compute; reflexivity | done]. }
  destruct Ht as (t & Ht & Hs).
  assert (Hd : dict_get "u0" (ce_tasks (w_engine before_pause)) = Some task_ref) by (vm_compute; reflexivity).
  assert (He : epoch_is_new "u0" (w_engine before_pause)) by (by vm_compute).
  assert (E : (pause noon "u0" "alice" before_pause).1 = Ok "ok") by (vm_compute; reflexivity).
  destruct (pause noon "u0" "alice" before_pause) as [answer w'] eqn:Ep. cbn [fst] in E. subst answer.
  destruct (halted_task_stays_halted pause PAUSED noon "u0" "alice" task_ref t before_pause w' (or_introl eq_refl)
    before_pause_reachable before_pause_fair Hd Ht Hs He Ep) as (H1 & t' & ops1 & ops2 & _ & _ & _ & Hrow).
  split; [exact H1|]. destruct Hrow as [Hn | (row & _ & R2 & _ & R4 & _ & _ & R7)]; [vm_compute in Hn; discriminate Hn|].
  exists row. split_and!; [|exact R2|exact R4]. apply R7. intros op (a & Ha & Ho). exfalso.
  apply (quiet_accesses a) in Ha. rewrite Ha in Ho. by apply not_elem_of_nil in Ho.
Defined.
Lemma raised_commit_counts_witness :
  let w := run running (quiet_world [] []) in
  agrees (_persist_task_state noon 0 None None "pause" (MkWorld (w_engine w) (w_db w) [quiet_access; quiet_access; raised_after; quiet_access]))
         (_persist_task_state noon 0 None None "pause" (MkWorld (w_engine w) (w_db w) [quiet_access; quiet_access; quiet_access])).
Proof.
  intros w. refine (proj1 (raised_commit_counts (w_engine w) (w_db w) [] noon 0 "pause" (task None) "fresh" _ eq_refl _)).
  - vm_compute. apply NoDup_singleton.
  - vm_compute. by repeat constructor.
Defined.
Lemma executor_runs_only_claimed_tasks_witness :
  exists x w', begin_execution noon "u0" 0 before_claim = (Ok (Some x), w') /\ tk_version x = 0
    /\ exists row, row_of "u0" (w_db w') = Some row /\ sr_status row = "running".
Proof.
  assert (Ht : exists t, ce_heap (w_engine before_claim) !! 0%nat = Some t /\ st_id t = "u0" /\ st_lifecycle_version t = 0).
  { eexists. split_and!; [vm_compute; reflexivity | reflexivity | reflexivity]. }
  destruct Ht as (t & Ht & Hid & Hv).
  assert (E : exists x, (begin_execution noon "u0" 0 before_claim).1 = Ok (Some x)) by (eexists; vm_compute; reflexivity).
  destruct E as [x E]. destruct (begin_execution noon "u0" 0 before_claim) as [answer w'] eqn:Hb. cbn [fst] in E. subst answer.
  exists x, w'.
  destruct (executor_runs_only_claimed_tasks noon "u0" 0 t x before_claim w' before_claim_fair Ht Hb) as (_ & _ & _ & H1 & _ & row & H2 & H3 & _).
  split; [reflexivity|]. split; [congruence|]. exists row. rewrite <- Hid. split; assumption.
Defined.

(** ** Where control operations do not do what they should *)
(** Others write the row between the look and the update, so a pause is not recorded
    and says so; the same pause, repeated, answers "ok", and the row is still pending. *)
Theorem repeated_pause_claims_ok :
  let w := run created (quiet_world [] (quiet 9 ++ [MkAccess [SControl "u0" 0 "pending" None None] Works])) in
  let '(first, w1) := pause noon "u0" "alice" w in
  let '(second, w2) := pause noon "u0" "alice" w1 in
  first = Ok "persistence_pending" /\ second = Ok "ok" /\ (sr_status <$> sd_tasks (w_db w2)) = ["pending"].
Proof. vm_compute. done. Qed.
(** A pause is committed but neither its update nor the look at the row returns.  The
    task can be resumed, and that is recorded, but the marker of the pause stays: no
    round of the loop runs the task again, although it is due. *)
Theorem resumed_task_never_runs :
  let w := run created (quiet_world [] (quiet 9 ++ [raised_after; MkAccess [] FailsBefore])) in
  let '(paused, w1) := pause noon "u0" "alice" w in
  let '(resumed, w2) := resume noon "u0" "alice" w1 in
  let w3 := (tick (noon + 2 * HOUR) SECOND w2).2 in
  paused = Ok "persistence_pending" /\ resumed = Ok "ok" /\ (sr_status <$> sd_tasks (w_db w2)) = ["pending"]
  /\ (st_status <$> ce_heap (w_engine w2)) = [PENDING] /\ (st_next_run <$> ce_heap (w_engine w2)) = [Some (Naive (noon + HOUR))]
  /\ ce_owners (w_engine w3) = [].
Proof. vm_compute. done. Qed.
(** When the database could not even be read for a pause, the version in memory is one
    ahead: however often the task is resumed, nothing is written. *)
Theorem failed_pause_cannot_be_resumed :
  let w := run created (quiet_world [] (quiet 7 ++ [MkAccess [] FailsBefore])) in
  let '(paused, w1) := pause noon "u0" "alice" w in
  let '(resumed, w2) := resume noon "u0" "alice" w1 in
  paused = Ok "persistence_pending" /\ resumed = Ok "persistence_pending"
  /\ ce_heap (w_engine w2) = ce_heap (w_engine w1) /\ sd_tasks (w_db w2) = sd_tasks (w_db w1).
Proof. vm_compute. done. Qed.
