(* ===== verification/AuditChain.v ===== *)
(** * The audit log's hash chain ([db/repositories/audit.py])

    The table [audit_log] with the operations of [AuditRepository]: inserts that link
    every row to the one before it, the recomputed chain head, the two replays of the
    chain, and the scoped reads.  The table is the list of its rows in the order of their ids
    ([INTEGER PRIMARY KEY AUTOINCREMENT]); the triggers of [db/database.py] that guard
    an insert are part of the insert. *)
From Stdlib Require Import Ascii.
From S2P Require Import Prelude PyStr Json PyValue Sha256.
Open Scope Z_scope.

(** ** The table *)
(** The columns a link covers ([_AUDIT_HASH_FIELDS]) *)
Record AuditFields := MkAuditFields {
  af_action : string; af_target : string; af_result : string; af_detail : option string;
  af_session_id : option string; af_principal_id : string; af_runtime_id : option string;
  af_task_id : option string; af_operation_id : option string; af_policy_digest : option string;
  af_authority_generation : option Z; af_source_transport : option string; af_project_id : string
}.
Record AuditRow := MkAuditRow {
  ar_id : Z; ar_fields : AuditFields; ar_created_at : string; ar_prev_hash : string
}.
(** [ad_seq] is the table's entry in [sqlite_sequence]; [ad_sessions] holds the identities
    [(id, principal_id, project_id)] of the table [sessions]. *)
Record AuditDb := MkAuditDb {
  ad_rows : list AuditRow; ad_seq : Z; ad_sessions : list (string * string * string)
}.
#[export] Instance audit_fields_eq_dec : EqDecision AuditFields.
Proof. solve_decision. Defined.
#[export] Instance audit_row_eq_dec : EqDecision AuditRow.
Proof. solve_decision. Defined.

(** ** Links *)
Definition NUL : string := String "000" EmptyString.
Definition opt_text (o : option string) : string := default EmptyString o.
(** [str(detail)] *)
Definition detail_text (o : option string) : string := default "None" o.
Definition generation_text (o : option Z) : string :=
  match o with None => EmptyString | Some g => Z_to_dec g end.
Definition field_parts (f : AuditFields) : list string :=
  [ af_action f; af_target f; af_result f; detail_text (af_detail f); opt_text (af_session_id f); af_principal_id f;
    opt_text (af_runtime_id f); opt_text (af_task_id f); opt_text (af_operation_id f); opt_text (af_policy_digest f);
    generation_text (af_authority_generation f); opt_text (af_source_transport f); af_project_id f ].
Definition link_text (prev_hash : string) (f : AuditFields) : string := join NUL (prev_hash :: field_parts f).
Definition _audit_row_hash (prev_hash : string) (f : AuditFields) : res string :=
  let* data := encode_utf8 (link_text prev_hash f) in Ok (sha256_hexdigest data).

(** [AuditRepository._row_hash]: the link of a stored row *)
Definition stored_fields (f : AuditFields) : AuditFields :=
  MkAuditFields (af_action f) (af_target f) (af_result f) (Some (opt_text (af_detail f))) (af_session_id f)
    (if str_empty (af_principal_id f) then "legacy" else af_principal_id f) (af_runtime_id f) (af_task_id f)
    (af_operation_id f) (af_policy_digest f) (af_authority_generation f) (af_source_transport f) (af_project_id f).
Definition _row_hash (row : AuditRow) (previous : string) : res string :=
  _audit_row_hash previous (stored_fields (ar_fields row)).

Definition _audit_previous_hash (db : AuditDb) : string :=
  match last (ad_rows db) with None => EmptyString | Some row => ar_prev_hash row end.

(** ** Inserting *)
Definition int64_ok (o : option Z) : bool :=
  match o with None => true | Some z => (- 2 ^ 63 <=? z) && (z <? 2 ^ 63) end.
Definition next_id (db : AuditDb) : Z :=
  Z.max (ad_seq db) (match last (ad_rows db) with None => 0 | Some row => ar_id row end) + 1.
(** [INSERT INTO audit_log ...] at the instant [now]: the bound integer has 64 bits, the triggers
    [trg_audit_log_session_identity_insert] and [trg_audit_log_genesis_guard] hold, and the
    next id exists. *)
Definition insert_audit_row (now : string) (f : AuditFields) (prev_hash : string) (db : AuditDb) : res Z * AuditDb :=
  if negb (int64_ok (af_authority_generation f))
  then (Raise (Exn OverflowError "Python int too large to convert to SQLite INTEGER"), db)
  else if match af_session_id f with
          | Some s => negb (bool_decide ((s, af_principal_id f, af_project_id f) ∈ ad_sessions db))
          | None => false end
  then (Raise (Exn SqliteIntegrityError "session identity mismatch"), db)
  else if str_empty prev_hash && match ad_rows db with [] => false | _ => true end
  then (Raise (Exn SqliteIntegrityError "audit_log prev_hash may be empty only on the genesis row"), db)
  else if 2 ^ 63 <=? next_id db then (Raise (Exn SqliteError "database or disk is full"), db)
  else (Ok (next_id db),
        MkAuditDb (ad_rows db ++ [MkAuditRow (next_id db) f now prev_hash]) (next_id db) (ad_sessions db)).

Definition insert_audit_log (now : string) (f : AuditFields) : AuditDb -> res Z * AuditDb :=
  transaction (fun db =>
    match _audit_row_hash (_audit_previous_hash db) f with
    | Raise e => (Raise e, db)
    | Ok row_hash => insert_audit_row now f row_hash db
    end).

(** ** Reading *)
Definition scope_matches (filter : option string) (value : string) : bool :=
  match filter with None => true | Some x => bool_decide (value = x) end.
Definition time_key (r : AuditRow) : string * Z := (ar_created_at r, ar_id r).
Definition list_audit_logs (principal_id project_id : option string) (db : AuditDb) : list AuditRow :=
  sorted_by time_key
    (List.filter (fun r => scope_matches principal_id (af_principal_id (ar_fields r))
                           && scope_matches project_id (af_project_id (ar_fields r))) (ad_rows db)).

Record AuditQuery := MkAuditQuery {
  q_action : option string; q_result : option string; q_since : option string; q_until : option string;
  q_limit : Z; q_principal_id : option string; q_project_id : option string
}.
Definition query_matches (q : AuditQuery) (r : AuditRow) : bool :=
  let f := ar_fields r in
  scope_matches (q_action q) (af_action f) && scope_matches (q_result q) (af_result f)
  && match q_since q with None => true | Some t => py_leb t (ar_created_at r) end
  && match q_until q with None => true | Some t => py_leb (ar_created_at r) t end
  && scope_matches (q_principal_id q) (af_principal_id f) && scope_matches (q_project_id q) (af_project_id f).
(** [LIMIT n] keeps everything when [n] is negative. *)
Definition sql_limit {A} (n : Z) (l : list A) : list A := if n <? 0 then l else take (Z.to_nat n) l.
(** [ORDER BY created_at DESC, id DESC]: ids are unique, so this is the ascending order reversed. *)
Definition query_audit_logs (q : AuditQuery) (db : AuditDb) : list AuditRow :=
  sql_limit (q_limit q) (rev (sorted_by time_key (List.filter (query_matches q) (ad_rows db)))).

Record ChainHead := MkChainHead { hd_id : Z; hd_hash : string; hd_prev_hash : string }.
Definition row_at (row_id : Z) (db : AuditDb) : option AuditRow :=
  List.find (fun r => ar_id r =? row_id) (ad_rows db).
Definition get_audit_chain_head (row_id : option Z) (db : AuditDb) : res (option ChainHead) :=
  match match row_id with None => last (ad_rows db) | Some k => row_at k db end with
  | None => Ok None
  | Some row =>
      let previous := ar_prev_hash row in
      let* h := _row_hash row previous in
      Ok (Some (MkChainHead (ar_id row) h previous))
  end.

(** ** Replaying *)
Record ChainBreak := MkBreak { br_id : Z; br_reason : string }.
Fixpoint verify_suffix (expected_prev : string) (rows : list AuditRow) : res (list ChainBreak) :=
  match rows with
  | [] => Ok []
  | row :: rows' =>
      let stored := ar_prev_hash row in
      let* expected := _row_hash row expected_prev in
      let* breaks := verify_suffix stored rows' in
      Ok (if str_empty stored || negb (bool_decide (stored = expected))
          then MkBreak (ar_id row) "hash chain suffix link does not match" :: breaks else breaks)
  end.
Definition verify_audit_chain_since (row_id : Z) (db : AuditDb) : res (list ChainBreak) :=
  let before := List.filter (fun r => ar_id r <? row_id) (ad_rows db) in
  let rows := List.filter (fun r => row_id <=? ar_id r) (ad_rows db) in
  verify_suffix (match last before with None => EmptyString | Some row => ar_prev_hash row end) rows.

Definition empty_link_reason : string :=
  "hash chain broken: non-genesis row carries an empty prev_hash (possible INSERT-reset forgery)".
Definition bad_link_reason : string :=
  "hash chain broken: stored prev_hash does not match the recomputed value from the previous link".
Fixpoint verify_rows (index : nat) (expected_prev : string) (rows : list AuditRow) : res (list ChainBreak) :=
  match rows with
  | [] => Ok []
  | row :: rows' =>
      let stored := ar_prev_hash row in
      if str_empty stored then
        match index with
        | O => verify_rows (S index) EmptyString rows'
        | S _ => let* breaks := verify_rows (S index) stored rows' in
                 Ok (MkBreak (ar_id row) empty_link_reason :: breaks)
        end
      else
        let* expected := _row_hash row expected_prev in
        let* breaks := verify_rows (S index) stored rows' in
        Ok (if bool_decide (stored = expected) then breaks else MkBreak (ar_id row) bad_link_reason :: breaks)
  end.
Definition verify_audit_chain (db : AuditDb) : res (list ChainBreak) := verify_rows O EmptyString (ad_rows db).

(** ** What a clean replay says

    [linked p rows]: every row's stored link is the hash of the link before it, [p] for the first, and of its own
    columns. *)
Definition row_text (previous : string) (r : AuditRow) : string := link_text previous (stored_fields (ar_fields r)).
Definition link_of (previous : string) (r : AuditRow) : string := sha256_hexdigest (row_text previous r).
Definition encodable (s : string) : Prop := has_surrogate s = false.
Fixpoint linked (p : string) (rows : list AuditRow) : Prop :=
  match rows with
  | [] => True
  | r :: rows' => encodable (row_text p r) /\ ar_prev_hash r = link_of p r /\ linked (ar_prev_hash r) rows'
  end.
Definition last_link (p : string) (rows : list AuditRow) : string :=
  match last rows with None => p | Some r => ar_prev_hash r end.
(** The rows after a leading row with an empty link, which the replay passes over *)
Definition chained (rows : list AuditRow) : list AuditRow :=
  match rows with [] => [] | r :: rows' => if str_empty (ar_prev_hash r) then rows' else rows end.

Lemma digest_nonempty data : str_empty (sha256_hexdigest data) = false.
Proof. apply sha256_hex_nonempty, sha256_hexdigest_form. Qed.
Lemma audit_row_hash_Ok p f h :
  _audit_row_hash p f = Ok h <-> encodable (link_text p f) /\ h = sha256_hexdigest (link_text p f).
Proof.
  unfold _audit_row_hash, encode_utf8, encodable, raise_if.
  destruct (has_surrogate _); simpl; split; [done|by intros []|by intros [= <-]|by intros [_ ->]].
Qed.
Lemma row_hash_Ok r p h : _row_hash r p = Ok h <-> encodable (row_text p r) /\ h = link_of p r.
Proof. apply audit_row_hash_Ok. Qed.

Lemma verify_suffix_clean rows : forall p, verify_suffix p rows = Ok [] <-> linked p rows.
Proof.
  induction rows as [|r rows IH]; intros p; cbn [verify_suffix linked]; [done|]. rewrite <- IH. split.
  - intros (h & [He ->]%row_hash_Ok & (b & Hb & [= H])%res_bind_Ok)%res_bind_Ok.
    destruct (str_empty (ar_prev_hash r) || _) eqn:E; [done|]. apply orb_false_iff in E as [_ E].
    apply negb_false_iff, bool_decide_eq_true in E. naive_solver.
  - intros (He & Hl & Hs). assert (_row_hash r p = Ok (link_of p r)) as -> by (by apply row_hash_Ok).
    cbn [res_bind]. rewrite Hs. cbn [res_bind]. rewrite Hl at 1. unfold link_of at 1. rewrite digest_nonempty.
    by rewrite bool_decide_eq_true_2.
Qed.
Lemma verify_rows_clean rows : forall n p, verify_rows (S n) p rows = Ok [] <-> linked p rows.
Proof.
  induction rows as [|r rows IH]; intros n p; cbn [verify_rows linked]; [done|].
  destruct (str_empty (ar_prev_hash r)) eqn:E.
  - split; [by intros H; inv_res|]. intros (_ & H & _). rewrite H in E. unfold link_of in E.
    by rewrite digest_nonempty in E.
  - rewrite <- (IH (S n)). split.
    + intros (h & [He ->]%row_hash_Ok & (b & Hb & [= H])%res_bind_Ok)%res_bind_Ok.
      destruct (bool_decide _) eqn:Eb; [|done]. apply bool_decide_eq_true in Eb. by subst b.
    + intros (He & Hl & Hs). assert (_row_hash r p = Ok (link_of p r)) as -> by (by apply row_hash_Ok).
      cbn [res_bind]. rewrite Hs. cbn [res_bind]. by rewrite bool_decide_eq_true_2.
Qed.
Lemma verify_rows_index rows : forall n m p, verify_rows (S n) p rows = verify_rows (S m) p rows.
Proof.
  induction rows as [|r rows IH]; intros n m p; [done|]. cbn [verify_rows].
  by rewrite !(IH (S n) (S m)).
Qed.
Lemma verify_audit_chain_clean db : verify_audit_chain db = Ok [] <-> linked EmptyString (chained (ad_rows db)).
Proof.
  unfold verify_audit_chain, chained. destruct (ad_rows db) as [|r rows]; [done|]. cbn [verify_rows].
  destruct (str_empty (ar_prev_hash r)) eqn:E; [apply verify_rows_clean|].
  rewrite <- (verify_rows_clean _ O). cbn [verify_rows]. by rewrite E, (verify_rows_index rows 0 1).
Qed.

Lemma last_link_cons p r rows : last_link p (r :: rows) = last_link (ar_prev_hash r) rows.
Proof. unfold last_link. rewrite last_cons. by destruct (last rows). Qed.
Lemma last_link_snoc p rows r : last_link p (rows ++ [r]) = ar_prev_hash r.
Proof. unfold last_link. by rewrite last_snoc. Qed.
Lemma linked_app p l1 l2 : linked p (l1 ++ l2) <-> linked p l1 /\ linked (last_link p l1) l2.
Proof.
  revert p. induction l1 as [|r l1 IH]; intros p; cbn [app linked]; [naive_solver|].
  rewrite IH, last_link_cons. naive_solver.
Qed.
Lemma linked_snoc p rows r :
  linked p (rows ++ [r]) <->
  linked p rows /\ encodable (row_text (last_link p rows) r) /\ ar_prev_hash r = link_of (last_link p rows) r.
Proof. rewrite linked_app. cbn [linked]. naive_solver. Qed.

(** ** The order of ids *)
Definition ids_sorted (rows : list AuditRow) : Prop := StronglySorted Z.lt (ar_id <$> rows).
Definition before (k : Z) (rows : list AuditRow) : list AuditRow := List.filter (fun r => ar_id r <? k) rows.
Definition since (k : Z) (rows : list AuditRow) : list AuditRow := List.filter (fun r => k <=? ar_id r) rows.
Lemma since_all k rows : Forall (fun r => k <= ar_id r) rows -> before k rows = [] /\ since k rows = rows.
Proof.
  unfold before, since. induction 1 as [|r rows Hr Hrs [IH1 IH2]]; [done|]. cbn [List.filter].
  destruct (Z.ltb_spec (ar_id r) k), (Z.leb_spec k (ar_id r)); try lia. by rewrite IH1, IH2.
Qed.
Lemma split_at_id k rows : ids_sorted rows -> rows = before k rows ++ since k rows.
Proof.
  unfold ids_sorted. induction rows as [|r rows IH]; [done|]. cbn [fmap list_fmap].
  intros [Hs Hf]%StronglySorted_inv. destruct (Z.lt_ge_cases (ar_id r) k) as [Hk|Hk].
  - unfold before, since in *. cbn [List.filter]. destruct (Z.ltb_spec (ar_id r) k), (Z.leb_spec k (ar_id r)); try lia.
    cbn [app]. by rewrite <- IH.
  - destruct (since_all k (r :: rows)) as [-> ->]; [|done]. constructor; [lia|].
    rewrite Forall_fmap in Hf. eapply Forall_impl; [exact Hf|]. cbn. lia.
Qed.
Lemma ids_sorted_snoc rows r :
  ids_sorted rows -> Forall (fun x => ar_id x < ar_id r) rows -> ids_sorted (rows ++ [r]).
Proof.
  unfold ids_sorted. rewrite fmap_app. intros Hs Hf. induction rows as [|x rows IH]; cbn in *.
  - repeat constructor.
  - apply StronglySorted_inv in Hs as [Hs Hx]. inversion Hf as [|? ? Hr Hrs]; subst. constructor; [by apply IH|].
    apply Forall_app. split; [done|]. by repeat constructor.
Qed.
Lemma ids_sorted_last rows r : ids_sorted rows -> last rows = Some r -> Forall (fun x => ar_id x <= ar_id r) rows.
Proof.
  unfold ids_sorted. induction rows as [|x rows IH]; [done|]. cbn [fmap list_fmap]. intros [Hs Hf]%StronglySorted_inv Hl.
  rewrite last_cons in Hl. destruct (last rows) as [z|] eqn:E; injection Hl as ->.
  2: { apply last_None in E as ->. repeat constructor. lia. }
  specialize (IH Hs eq_refl). constructor; [|done].
  rewrite Forall_fmap in Hf. rewrite Forall_forall in Hf.
  specialize (Hf r ltac:(by apply last_Some_elem_of)). cbn in Hf. lia.
Qed.
Lemma ids_below_next db r : ids_sorted (ad_rows db) -> r ∈ ad_rows db -> ar_id r < next_id db.
Proof.
  intros Hs Hr. unfold next_id. destruct (last (ad_rows db)) as [z|] eqn:E.
  - pose proof (ids_sorted_last _ _ Hs E) as Hf. rewrite Forall_forall in Hf. specialize (Hf r Hr). cbn in Hf. lia.
  - apply last_None in E. rewrite E in Hr. by apply not_elem_of_nil in Hr.
Qed.

(** ** Histories

    [AuditLogger] stamps every event with a non-empty principal and the JSON text of its detail. *)
Definition stamped (f : AuditFields) : Prop := str_empty (af_principal_id f) = false /\ is_Some (af_detail f).
Lemma stored_fields_stamped f : stamped f -> stored_fields f = f.
Proof. intros [H [d Hd]]. unfold stored_fields. rewrite H, Hd. destruct f; cbn in *. by subst. Qed.

(** The effect of an insert, success and failure *)
Lemma insert_audit_log_inv now f db o db' :
  insert_audit_log now f db = (o, db') ->
  (exists e, o = Raise e /\ db' = db) \/
  (o = Ok (next_id db) /\ encodable (link_text (_audit_previous_hash db) f)
   /\ db' = MkAuditDb (ad_rows db ++ [MkAuditRow (next_id db) f now (sha256_hexdigest (link_text (_audit_previous_hash db) f))])
              (next_id db) (ad_sessions db)).
Proof.
  unfold insert_audit_log, transaction. destruct (_audit_row_hash _ _) as [h|e] eqn:Eh; [|naive_solver].
  apply audit_row_hash_Ok in Eh as [He ->]. unfold insert_audit_row. repeat case_match; naive_solver.
Qed.

(** A log written by the repository: inserts, completed or failed, in any order, while sessions come and go *)
Inductive audit_history : AuditDb -> Prop :=
| ah_empty sessions : audit_history (MkAuditDb [] 0 sessions)
| ah_insert now f db : audit_history db -> stamped f -> audit_history (insert_audit_log now f db).2
| ah_sessions sessions db : audit_history db -> audit_history (MkAuditDb (ad_rows db) (ad_seq db) sessions).

Lemma chain_grows now f db :
  stamped f -> ids_sorted (ad_rows db) -> linked EmptyString (ad_rows db) ->
  ids_sorted (ad_rows (insert_audit_log now f db).2) /\ linked EmptyString (ad_rows (insert_audit_log now f db).2).
Proof.
  intros Hf Hs Hl. destruct (insert_audit_log now f db) as [o db'] eqn:E.
  apply insert_audit_log_inv in E as [(e & _ & ->)|(_ & He & ->)]; [done|]. cbn [snd ad_rows]. split.
  - apply ids_sorted_snoc; [done|]. apply Forall_forall. intros r Hr. by apply ids_below_next.
  - apply linked_snoc. unfold link_of, row_text. cbn [ar_fields ar_prev_hash]. by rewrite stored_fields_stamped.
Qed.
Lemma history_linked db : audit_history db -> ids_sorted (ad_rows db) /\ linked EmptyString (ad_rows db).
Proof.
  induction 1 as [s|now f db H [IH1 IH2] Hf|s db H IH]; [split; constructor|by apply chain_grows|done].
Qed.
Lemma linked_first p r rows : linked p (r :: rows) -> str_empty (ar_prev_hash r) = false.
Proof. intros (_ & -> & _). apply digest_nonempty. Qed.
Lemma linked_chained p rows : linked p rows -> chained rows = rows.
Proof. destruct rows as [|r rows]; [done|]. intros H%linked_first. cbn. by rewrite H. Qed.
Lemma since_linked k db :
  ids_sorted (ad_rows db) -> linked EmptyString (ad_rows db) -> verify_audit_chain_since k db = Ok [].
Proof.
  intros Hs Hl. unfold verify_audit_chain_since. apply verify_suffix_clean.
  rewrite (split_at_id k _ Hs) in Hl. by apply linked_app in Hl as [_ Hl].
Qed.

(** Whatever sequence of events the logger records, failed inserts included, the full replay reports no break and
    so does the replay of every suffix. *)
Theorem recorded_chain_verifies db (H : audit_history db) :
  verify_audit_chain db = Ok [] /\ forall k, verify_audit_chain_since k db = Ok [].
Proof.
  apply history_linked in H as [Hs Hl]. split; [|intros k; by apply since_linked].
  apply verify_audit_chain_clean. by rewrite (linked_chained _ _ Hl).
Qed.

(** ** Texts without the separator *)
Definition nul_free (s : string) : bool := string_forallb (fun c => negb (byte c =? 0)) s.
Lemma hex_nul_free s : is_sha256_hex s = true -> nul_free s = true.
Proof.
  unfold is_sha256_hex, nul_free. intros [_ H]%andb_true_iff. revert H. induction s as [|c s IH]; [done|].
  cbn [string_forallb]. intros [Hc Hs]%andb_true_iff. rewrite IH by done. rewrite andb_true_r.
  unfold is_hex_lower, between in Hc. destruct (byte c =? 0) eqn:E; [|done]. apply Z.eqb_eq in E. by rewrite E in Hc.
Qed.
Lemma nul_split p q t u :
  nul_free p = true -> nul_free q = true -> p +:+ NUL +:+ t = q +:+ NUL +:+ u -> p = q /\ t = u.
Proof.
  unfold nul_free. revert q. induction p as [|c p IH]; intros [|d q]; cbn; intros Hp Hq H.
  - by injection H.
  - injection H as <- H. done.
  - injection H as -> H. done.
  - injection H as -> H. apply andb_true_iff in Hp as [_ Hp], Hq as [_ Hq].
    destruct (IH q Hp Hq H) as [-> ->]. done.
Qed.
Lemma join_inj l k :
  length l = length k -> forallb nul_free l = true -> forallb nul_free k = true -> join NUL l = join NUL k -> l = k.
Proof.
  revert k. induction l as [|x [|x' l] IH]; intros [|y [|y' k]]; cbn [length]; try done.
  - cbn. by intros _ _ _ ->.
  - intros Hlen Hl Hk H. cbn [forallb] in Hl, Hk. apply andb_true_iff in Hl as [Hx Hl], Hk as [Hy Hk].
    change (join NUL (x :: x' :: l)) with (x +:+ NUL +:+ join NUL (x' :: l)) in H.
    change (join NUL (y :: y' :: k)) with (y +:+ NUL +:+ join NUL (y' :: k)) in H.
    apply nul_split in H as [-> H]; [|done..]. f_equal. apply IH; [cbn [length]; lia|done..].
Qed.
Definition fields_text (r : AuditRow) : string := join NUL (field_parts (stored_fields (ar_fields r))).
Lemma row_text_inj p q r r' :
  nul_free p = true -> nul_free q = true -> row_text p r = row_text q r' -> p = q /\ fields_text r = fields_text r'.
Proof. intros Hp Hq H. by apply nul_split in H. Qed.

(** ** Tamper evidence

    What two rows with the same link text have in common: the texts of their columns joined by NUL, and the columns
    themselves when none of them holds a NUL.  An absent column and an empty one have the same text; ids and times
    are not part of it. *)
Definition row_nul_free (r : AuditRow) : bool := forallb nul_free (field_parts (stored_fields (ar_fields r))).
Record fields_agree (f g : AuditFields) : Prop := {
  agree_action : af_action f = af_action g; agree_target : af_target f = af_target g;
  agree_result : af_result f = af_result g; agree_detail : opt_text (af_detail f) = opt_text (af_detail g);
  agree_session : opt_text (af_session_id f) = opt_text (af_session_id g);
  agree_principal : af_principal_id f = af_principal_id g;
  agree_runtime : opt_text (af_runtime_id f) = opt_text (af_runtime_id g);
  agree_task : opt_text (af_task_id f) = opt_text (af_task_id g);
  agree_operation : opt_text (af_operation_id f) = opt_text (af_operation_id g);
  agree_policy : opt_text (af_policy_digest f) = opt_text (af_policy_digest g);
  agree_generation : af_authority_generation f = af_authority_generation g;
  agree_transport : opt_text (af_source_transport f) = opt_text (af_source_transport g);
  agree_project : af_project_id f = af_project_id g
}.
(** Two rows the chain does not tell apart: same link and same hashed text, and the same hashed columns if no column
    contains a NUL character.  [id] and [created_at] are not part of it, and an absent text counts as an empty one. *)
Definition same_row (r r' : AuditRow) : Prop :=
  ar_prev_hash r = ar_prev_hash r' /\ fields_text r = fields_text r' /\
  (row_nul_free r = true -> row_nul_free r' = true -> fields_agree (stored_fields (ar_fields r)) (stored_fields (ar_fields r'))).

Lemma Z_to_dec_inj x y : Z_to_dec x = Z_to_dec y -> x = y.
Proof.
  intros H. pose proof (parse_number_dec x EmptyString I) as Hx. pose proof (parse_number_dec y EmptyString I) as Hy.
  rewrite H in Hx. rewrite Hx in Hy. congruence.
Qed.
Lemma Z_to_dec_nonempty z : Z_to_dec z ≠ EmptyString.
Proof.
  intros H. pose proof (parse_number_dec z EmptyString I) as Hp. rewrite H in Hp. discriminate Hp.
Qed.
Lemma generation_text_inj a b : generation_text a = generation_text b -> a = b.
Proof.
  destruct a as [a|], b as [b|]; cbn [generation_text]; [by intros ->%Z_to_dec_inj| | |done].
  - by intros H%Z_to_dec_nonempty.
  - intros H. symmetry in H. by apply Z_to_dec_nonempty in H.
Qed.
Lemma same_text_same_row r r' : ar_prev_hash r = ar_prev_hash r' -> fields_text r = fields_text r' -> same_row r r'.
Proof.
  intros Hp Ht. repeat split; try done; apply (join_inj _ _) in Ht; try done; unfold field_parts in Ht;
    injection Ht as ????????????; try done. by apply generation_text_inj.
Qed.

(** The texts whose hashes a replay up to row [k] and its head compare *)
Fixpoint row_texts (p : string) (rows : list AuditRow) : list string :=
  match rows with [] => [] | r :: rows' => row_text p r :: row_texts (ar_prev_hash r) rows' end.
Definition head_text (r : AuditRow) : string := row_text (ar_prev_hash r) r.
Definition preimages (k : Z) (db : AuditDb) : list string :=
  row_texts EmptyString (chained (before (k + 1) (ad_rows db)))
  ++ match row_at k db with Some r => [head_text r] | None => [] end.
Definition collision_free (l : list string) : Prop :=
  forall x y, x ∈ l -> y ∈ l -> sha256_hexdigest x = sha256_hexdigest y -> x = y.

Lemma row_texts_snoc p rows r : row_texts p (rows ++ [r]) = row_texts p rows ++ [row_text (last_link p rows) r].
Proof.
  revert p. induction rows as [|x rows IH]; intros p; [done|]. cbn [row_texts app]. by rewrite IH, last_link_cons.
Qed.
Lemma linked_nul_free rows : linked EmptyString rows -> nul_free (last_link EmptyString rows) = true.
Proof.
  destruct rows as [|r rows _] using rev_ind; [done|]. intros (_ & _ & Hl)%linked_snoc.
  rewrite last_link_snoc, Hl. apply hex_nul_free, sha256_hexdigest_form.
Qed.
Lemma linked_last_empty rows : linked EmptyString rows -> last_link EmptyString rows = EmptyString -> rows = [].
Proof.
  destruct rows as [|r rows _] using rev_ind; [done|]. intros (_ & _ & Hl)%linked_snoc.
  rewrite last_link_snoc, Hl. intros H. pose proof (digest_nonempty (row_text (last_link EmptyString rows) r)) as Hn.
  unfold link_of in H. by rewrite H in Hn.
Qed.
Lemma collision_free_sub l k : (forall x, x ∈ k -> x ∈ l) -> collision_free l -> collision_free k.
Proof. intros Hs Hc x y Hx Hy. by apply Hc; apply Hs. Qed.

Lemma linked_agree l : forall l',
  linked EmptyString l -> linked EmptyString l' -> last_link EmptyString l = last_link EmptyString l' ->
  collision_free (row_texts EmptyString l ++ row_texts EmptyString l') -> Forall2 same_row l l'.
Proof.
  induction l as [|r l IH] using rev_ind; intros l' Hl Hl' Hlast Hc.
  { symmetry in Hlast. by rewrite (linked_last_empty l' Hl' Hlast). }
  destruct l' as [|r' l' _] using rev_ind; [by apply linked_last_empty in Hlast; [destruct l|]|].
  rewrite !last_link_snoc in Hlast. rewrite !row_texts_snoc in Hc.
  apply linked_snoc in Hl as (Hl & _ & Hr), Hl' as (Hl' & _ & Hr').
  assert (row_text (last_link EmptyString l) r = row_text (last_link EmptyString l') r') as Ht.
  { apply Hc; [set_solver..|]. unfold link_of in *. congruence. }
  apply row_text_inj in Ht as [Hp Hf]; [|by apply linked_nul_free..].
  apply Forall2_app; [|repeat constructor; by apply same_text_same_row].
  apply IH; [done..|]. eapply collision_free_sub; [|exact Hc]. set_solver.
Qed.

Lemma row_at_last k rows r :
  ids_sorted rows -> List.find (fun x => ar_id x =? k) rows = Some r -> last (before (k + 1) rows) = Some r.
Proof.
  unfold ids_sorted. induction rows as [|x rows IH]; [done|]. cbn [fmap list_fmap List.find].
  intros [Hs Hf]%StronglySorted_inv. rewrite Forall_fmap in Hf. destruct (Z.eqb_spec (ar_id x) k) as [Hx|Hx].
  - intros [= <-]. destruct (since_all (k + 1) rows) as [Hb _].
    { eapply Forall_impl; [exact Hf|]. cbn. lia. }
    unfold before in *. cbn [List.filter]. destruct (Z.ltb_spec (ar_id x) (k + 1)); [|lia]. by rewrite Hb.
  - intros Hr. specialize (IH Hs Hr). apply List.find_some in Hr as [Hin Hk].
    apply Z.eqb_eq in Hk. rewrite Forall_forall in Hf. specialize (Hf r ltac:(by apply list_elem_of_In)). cbn in Hf.
    unfold before in *. cbn [List.filter]. destruct (Z.ltb_spec (ar_id x) (k + 1)); [|lia]. by rewrite last_cons, IH.
Qed.
Lemma chained_app l1 l2 : l1 ≠ [] -> chained (l1 ++ l2) = chained l1 ++ l2.
Proof. destruct l1 as [|r l1]; [done|]. intros _. cbn. by destruct (str_empty _). Qed.
Lemma last_link_chained rows r : last rows = Some r -> last_link EmptyString (chained rows) = ar_prev_hash r.
Proof.
  destruct rows as [|x rows]; [done|]. rewrite last_cons. unfold chained.
  destruct (str_empty (ar_prev_hash x)) eqn:E.
  - unfold last_link. destruct (last rows); intros [= <-]; [done|].
    destruct (ar_prev_hash x); [done|discriminate E].
  - rewrite last_link_cons. unfold last_link. by destruct (last rows); intros [= <-].
Qed.

Lemma row_texts_preimages k db x : 
  x ∈ row_texts EmptyString (chained (before (k + 1) (ad_rows db))) -> x ∈ preimages k db.
Proof. intros Hx. unfold preimages. set_solver. Qed.

Section prefix.
Context (k : Z) (db : AuditDb) (h : ChainHead).
Hypothesis Hs : ids_sorted (ad_rows db).
Hypothesis Hv : verify_audit_chain db = Ok [].
Hypothesis Hh : get_audit_chain_head (Some k) db = Ok (Some h).

Lemma head_row : exists r, row_at k db = Some r /\ hd_hash h = sha256_hexdigest (head_text r)
  /\ last_link EmptyString (chained (before (k + 1) (ad_rows db))) = ar_prev_hash r.
Proof.
  unfold get_audit_chain_head in Hh. destruct (row_at k db) as [r|] eqn:E; [|done].
  apply res_bind_Ok in Hh as (d & [_ ->]%row_hash_Ok & [= <-]). exists r. split; [done|]. split; [done|].
  apply last_link_chained. by apply row_at_last.
Qed.
Lemma prefix_linked : linked EmptyString (chained (before (k + 1) (ad_rows db))).
Proof.
  apply verify_audit_chain_clean in Hv. destruct head_row as (r & Hr & _ & _).
  apply row_at_last in Hr; [|done]. rewrite (split_at_id (k + 1) _ Hs), chained_app in Hv.
  - by apply linked_app in Hv as [Hv _].
  - intros H. by rewrite H in Hr.
Qed.
End prefix.

(** Two logs that replay clean and have the same head at row [k] have the same chain up to it. *)
Lemma same_head_same_chain k db db' h h' :
  ids_sorted (ad_rows db) -> ids_sorted (ad_rows db') ->
  verify_audit_chain db = Ok [] -> verify_audit_chain db' = Ok [] ->
  get_audit_chain_head (Some k) db = Ok (Some h) -> get_audit_chain_head (Some k) db' = Ok (Some h') ->
  hd_hash h = hd_hash h' -> collision_free (preimages k db ++ preimages k db') ->
  Forall2 same_row (chained (before (k + 1) (ad_rows db))) (chained (before (k + 1) (ad_rows db'))).
Proof.
  intros Hs Hs' Hv Hv' Hh Hh' Heq Hc.
  pose proof (prefix_linked k db h Hs Hv Hh) as Hl. pose proof (prefix_linked k db' h' Hs' Hv' Hh') as Hl'.
  destruct (head_row k db h Hs Hh) as (r & Hr & Hd & Hlr). destruct (head_row k db' h' Hs' Hh') as (r' & Hr' & Hd' & Hlr').
  assert (head_text r = head_text r') as Ht.
  { apply Hc; [unfold preimages; rewrite ?Hr, ?Hr'; set_solver..|congruence]. }
  apply linked_agree; [done..| |].
  - rewrite Hlr, Hlr'. apply row_text_inj in Ht as [Hp _]; [done|..].
    + rewrite <- Hlr. by apply linked_nul_free.
    + rewrite <- Hlr'. by apply linked_nul_free.
  - eapply collision_free_sub; [|exact Hc]. intros x. rewrite !elem_of_app.
    intros [Hx|Hx]; [left|right]; by apply row_texts_preimages.
Qed.
Lemma chained_split rows : exists forged, rows = forged ++ chained rows /\ (length forged <= 1)%nat
  /\ Forall (fun r => ar_prev_hash r = EmptyString) forged.
Proof.
  unfold chained. destruct rows as [|r rows]; [exists []; repeat constructor|]. destruct (str_empty (ar_prev_hash r)) eqn:E.
  - exists [r]. repeat constructor. destruct (ar_prev_hash r); [done|discriminate E].
  - exists []. repeat constructor.
Qed.

(** Tamper evidence: [db] is a log as the repository wrote it and [h] its head at row [k]; [db'] is any table that
    replays clean and has that head hash at row [k].  If SHA-256 does not collide on the texts involved, the rows of
    [db'] up to [k] are those of [db], row for row, after at most one forged first row with an empty link. *)
Lemma anchored_prefix_authentic k db db' h h'
  (Hdb : audit_history db) (Hs' : ids_sorted (ad_rows db')) (Hv' : verify_audit_chain db' = Ok [])
  (Hh : get_audit_chain_head (Some k) db = Ok (Some h)) (Hh' : get_audit_chain_head (Some k) db' = Ok (Some h'))
  (Heq : hd_hash h = hd_hash h') (Hc : collision_free (preimages k db ++ preimages k db')) :
  exists forged rows', before (k + 1) (ad_rows db') = forged ++ rows' /\ (length forged <= 1)%nat
    /\ Forall (fun r => ar_prev_hash r = EmptyString) forged /\ Forall2 same_row (before (k + 1) (ad_rows db)) rows'.
Proof.
  apply history_linked in Hdb as [Hs Hl].
  assert (verify_audit_chain db = Ok []) as Hv.
  { apply verify_audit_chain_clean. by rewrite (linked_chained _ _ Hl). }
  pose proof (same_head_same_chain k db db' h h' Hs Hs' Hv Hv' Hh Hh' Heq Hc) as Hf.
  rewrite (split_at_id (k + 1) _ Hs) in Hl. apply linked_app in Hl as [Hl _]. rewrite (linked_chained _ _ Hl) in Hf.
  destruct (chained_split (before (k + 1) (ad_rows db'))) as (forged & He & Hlen & Hall). by eexists forged, _.
Qed.

(** ** Heads of a recorded log *)
Lemma has_surrogate_nul s t : has_surrogate (s +:+ NUL +:+ t) = has_surrogate s || has_surrogate t.
Proof.
  unfold NUL. induction s as [|a s IH]; [by destruct t|].
  destruct s as [|b s]; cbn [String.append].
  - rewrite has_surrogate_cons2. change (between 160 191 (byte "000")) with false. rewrite andb_false_r. cbn [orb].
    by destruct t.
  - cbn [String.append] in IH. rewrite !has_surrogate_cons2, IH. apply orb_assoc.
Qed.
Lemma row_text_encodable p q r :
  has_surrogate q = false -> encodable (row_text p r) -> encodable (row_text q r).
Proof.
  unfold encodable, row_text, link_text. set (f := stored_fields _).
  change (join NUL (?x :: field_parts f)) with (x +:+ NUL +:+ join NUL (field_parts f)).
  rewrite !has_surrogate_nul. intros Hq [_ H]%orb_false_iff. by rewrite Hq, H.
Qed.
Lemma linked_heads p rows r : linked p rows -> r ∈ rows -> encodable (head_text r) /\ is_sha256_hex (ar_prev_hash r) = true.
Proof.
  revert p. induction rows as [|x rows IH]; intros p Hl Hr; [by apply not_elem_of_nil in Hr|].
  destruct Hl as (He & Hx & Hl). apply elem_of_cons in Hr as [->|Hr]; [|by apply (IH (ar_prev_hash x))].
  assert (is_sha256_hex (ar_prev_hash x) = true) as Hh by (rewrite Hx; apply sha256_hexdigest_form).
  split; [|done]. eapply row_text_encodable; [|exact He]. by apply sha256_hex_no_surrogate.
Qed.
Lemma history_positive db : audit_history db -> 0 <= ad_seq db /\ Forall (fun r => 0 < ar_id r) (ad_rows db).
Proof.
  induction 1 as [s|now f db H [IH1 IH2] Hf|s db H IH]; [done| |done].
  destruct (insert_audit_log now f db) as [o db'] eqn:E.
  apply insert_audit_log_inv in E as [(e & _ & ->)|(_ & He & ->)]; [done|]. cbn [snd ad_rows ad_seq].
  assert (0 < next_id db) as Hn by (unfold next_id; lia). split; [lia|]. apply Forall_app. split; [done|].
  by repeat constructor.
Qed.
Definition head_of (r : AuditRow) : ChainHead := MkChainHead (ar_id r) (sha256_hexdigest (head_text r)) (ar_prev_hash r).
Lemma row_at_elem k db r : row_at k db = Some r -> r ∈ ad_rows db /\ ar_id r = k.
Proof. intros [H1 H2]%List.find_some. split; [by apply list_elem_of_In|by apply Z.eqb_eq]. Qed.
Lemma history_head db k : audit_history db ->
  get_audit_chain_head k db
  = Ok (head_of <$> match k with None => last (ad_rows db) | Some i => row_at i db end).
Proof.
  intros [Hs Hl]%history_linked. unfold get_audit_chain_head.
  destruct (match k with None => _ | Some _ => _ end) as [r|] eqn:E; [|done].
  assert (r ∈ ad_rows db) as Hr by (destruct k; [apply row_at_elem in E as [E _]; exact E|by apply last_Some_elem_of]).
  destruct (linked_heads _ _ _ Hl Hr) as [He _].
  assert (_row_hash r (ar_prev_hash r) = Ok (link_of (ar_prev_hash r) r)) as -> by (by apply row_hash_Ok). done.
Qed.
Lemma row_at_in db r : ids_sorted (ad_rows db) -> r ∈ ad_rows db -> row_at (ar_id r) db = Some r.
Proof.
  unfold row_at, ids_sorted. induction (ad_rows db) as [|x rows IH]; intros Hs Hr; [by apply not_elem_of_nil in Hr|].
  cbn [fmap list_fmap] in Hs. apply StronglySorted_inv in Hs as [Hs Hf]. rewrite Forall_fmap, Forall_forall in Hf.
  cbn [List.find]. apply elem_of_cons in Hr as [<-|Hr]; [by rewrite Z.eqb_refl|].
  specialize (Hf r Hr). cbn in Hf. destruct (Z.eqb_spec (ar_id x) (ar_id r)); [lia|]. by apply IH.
Qed.

(** ** Examples *)
Definition digest_of (l : list string) : list (string * string) := (fun x => (x, sha256_hexdigest x)) <$> l.
Definition no_collision (l : list string) : bool :=
  let d := digest_of l in
  forallb (fun p => forallb (fun q => bool_decide (p.1 = q.1) || negb (bool_decide (p.2 = q.2))) d) d.
Lemma no_collision_spec l : no_collision l = true -> collision_free l.
Proof.
  unfold no_collision, collision_free. intros H x y Hx Hy Hxy.
  rewrite forallb_Forall_true, Forall_forall in H.
  specialize (H (x, sha256_hexdigest x)). cbn [fst snd] in H. rewrite forallb_Forall_true, Forall_forall in H.
  specialize (H ltac:(by apply (list_elem_of_fmap_2 (fun x => (x, sha256_hexdigest x)))) (y, sha256_hexdigest y)).
  specialize (H ltac:(by apply (list_elem_of_fmap_2 (fun x => (x, sha256_hexdigest x))))). cbn [fst snd] in H.
  rewrite (bool_decide_eq_true_2 _ Hxy) in H. cbn in H. rewrite orb_false_r in H. by apply bool_decide_eq_true in H.
Qed.

Definition event (action target principal : string) : AuditFields :=
  MkAuditFields action target "approved" (Some "{}") None principal None None None None (Some 3) (Some "cli") "p1".
Definition no_rows : AuditDb := MkAuditDb [] 0 [].
Definition two_events : AuditDb :=
  (insert_audit_log "t2" (event "write_file" "/b" "bob")
     (insert_audit_log "t1" (event "read_file" "/a" "alice") no_rows).2).2.
Definition forged_row : AuditRow := MkAuditRow 0 (event "rm" "/" "mallory") "t0" EmptyString.
Definition with_forged_genesis : AuditDb := MkAuditDb (forged_row :: ad_rows two_events) 2 [].

Lemma recorded_chain_verifies_witness : verify_audit_chain two_events = Ok [].
Proof.
  refine (proj1 (recorded_chain_verifies two_events _)). unfold two_events.
  apply ah_insert; [apply ah_insert; [apply ah_empty|]|]; (split; [reflexivity|by eexists]).
Defined.

(** An event with an empty principal is stored under a link its replay does not recompute: the chain is broken for good. *)
Example empty_principal_breaks_chain :
  let db := (insert_audit_log "t1" (event "read_file" "/a" "") no_rows).2 in
  length (ad_rows db) = 1%nat /\ verify_audit_chain db = Ok [MkBreak 1 bad_link_reason].
Proof. vm_compute. done. Qed.
(** Rows written before links existed have empty links: one of them replays clean, two do not. *)
Definition legacy_rows (n : nat) : list AuditRow :=
  (fun i => MkAuditRow (Z.of_nat i) (event "read_file" "/a" "legacy") "t0" EmptyString) <$> seq 1 n.
Example two_legacy_rows_break_chain :
  let after n := (insert_audit_log "t1" (event "read_file" "/a" "alice") (MkAuditDb (legacy_rows n) (Z.of_nat n) [])).2 in
  verify_audit_chain (after 1%nat) = Ok [] /\ verify_audit_chain (after 2%nat) = Ok [MkBreak 2 empty_link_reason].
Proof. vm_compute. done. Qed.
(** The suffix replay from the first row refuses the legacy row that the full replay passes over. *)
Example legacy_genesis_since :
  verify_audit_chain_since 1 (MkAuditDb (legacy_rows 1) 1 []) = Ok [MkBreak 1 "hash chain suffix link does not match"].
Proof. vm_compute. done. Qed.
(** Columns with a NUL, and absent against empty columns, can be exchanged under the same link. *)
Example nul_shifts_columns :
  let f := MkAuditFields "a" "b" ("c" +:+ NUL +:+ "d") (Some "e") None "x" None None None None None None "p" in
  let g := MkAuditFields ("a" +:+ NUL +:+ "b") "c" "d" (Some "e") (Some EmptyString) "x" None None None None None None "p" in
  f ≠ g /\ _audit_row_hash EmptyString f = _audit_row_hash EmptyString g.
Proof. split; [done|]. vm_compute. done. Qed.
