(* ===== verification/AuditAnchor.v ===== *)
(** * The audit chain's anchor ([audit/anchor.py])

    A file outside the database holds the chain head the logger last saw.  The file is replaced atomically: a write makes
    a new file and moves the name to it, so an anchor object keeps reading the file its descriptor has open.
    The directory, ownership and mode checks of opening are left to the operating system. *)
From Stdlib Require Import Ascii.
From S2P Require Import Prelude PyStr Json PyValue Sha256 AuditChain.
Open Scope Z_scope.

(** ** Bytes *)
(** [bytes.splitlines()]: a line ends at LF, CR or CR LF. *)
Fixpoint splitlines (s : string) : list string :=
  match s with
  | EmptyString => []
  | String c s' =>
      if bool_decide (c = LF) then EmptyString :: splitlines s'
      else if bool_decide (c = CR) then
        EmptyString :: match s' with
                       | String d s'' => if bool_decide (d = LF) then splitlines s'' else splitlines s'
                       | EmptyString => []
                       end
      else match splitlines s' with
           | [] => [String c EmptyString]
           | line :: lines => String c line :: lines
           end
  end.
(** [bytes.strip()] removes ASCII white space; is anything left? *)
Definition not_blank (line : string) : bool :=
  string_existsb (fun c => negb (between 9 13 (byte c) || (byte c =? 32))) line.
(** Strict UTF-8: the ranges of the bytes that follow a first byte *)
Definition continuations (b : Z) : option (list (Z * Z)) :=
  if between 0 127 b then Some []
  else if between 194 223 b then Some [(128, 191)]
  else if b =? 224 then Some [(160, 191); (128, 191)]
  else if b =? 237 then Some [(128, 159); (128, 191)]
  else if between 225 239 b then Some [(128, 191); (128, 191)]
  else if b =? 240 then Some [(144, 191); (128, 191); (128, 191)]
  else if between 241 243 b then Some [(128, 191); (128, 191); (128, 191)]
  else if b =? 244 then Some [(128, 143); (128, 191); (128, 191)]
  else None.
Fixpoint utf8_from (pending : list (Z * Z)) (s : string) : bool :=
  match s, pending with
  | EmptyString, [] => true
  | EmptyString, _ => false
  | String c s', (lo, hi) :: pending' => between lo hi (byte c) && utf8_from pending' s'
  | String c s', [] => match continuations (byte c) with Some p => utf8_from p s' | None => false end
  end.
Definition valid_utf8 (s : string) : bool := utf8_from [] s.
(** [raw.decode("utf-8")] *)
Definition decode_utf8 (s : string) : res string :=
  raise_if (negb (valid_utf8 s)) UnicodeDecodeError "invalid utf-8" ;;* Ok s.

(** ** Files

    The files of the audit directory by inode number; [fs_name] is the inode the anchor's name is bound to. *)
Record AnchorFs := MkAnchorFs { fs_inodes : list string; fs_name : option nat }.
Record Anchor := MkAnchor {
  an_fd : nat; an_project_id : string; an_database_id : string; an_verified : bool
}.
Definition set_fd (a : Anchor) (fd : nat) : Anchor := MkAnchor fd (an_project_id a) (an_database_id a) (an_verified a).
Definition set_verified (a : Anchor) : Anchor := MkAnchor (an_fd a) (an_project_id a) (an_database_id a) true.
Definition anchor_error {A} (msg : string) : res A := Raise (Exn AuditAnchorError msg).

Definition anchor_filename (project_id : string) : res string :=
  let* identity := encode_utf8 (if str_empty project_id then "legacy" else project_id) in
  Ok ("chain-head-" +:+ String.substring 0 32 (sha256_hexdigest identity) +:+ ".json").

(** [AuditChainAnchor.__init__]: the file is created empty when it does not exist; [database_path] is resolved. *)
Definition open_anchor (project_id database_path : string) (fs : AnchorFs) : res (Anchor * AnchorFs) :=
  let* identity := encode_utf8 database_path in
  let fd := match fs_name fs with Some i => i | None => length (fs_inodes fs) end in
  let inodes := match fs_name fs with Some _ => fs_inodes fs | None => fs_inodes fs ++ [EmptyString] end in
  Ok (MkAnchor fd project_id (sha256_hexdigest identity) false, MkAnchorFs inodes (Some fd)).

(** ** Reading *)
Definition size_limit : Z := 64 * 1024.
Definition byte_length (s : string) : Z := Z.of_nat (String.length s).
Definition _read_state (a : Anchor) (fs : AnchorFs) : res (option (list (string * pyval))) :=
  let raw := String.substring 0 (Z.to_nat size_limit) (default EmptyString (fs_inodes fs !! an_fd a)) in
  raise_if (size_limit <=? byte_length raw) AuditAnchorError "audit chain anchor exceeds its size limit" ;;*
  match last (List.filter not_blank (splitlines raw)) with
  | None => Ok None
  | Some line =>
      let* value := try_except (let* text := decode_utf8 line in loads default_object_hook default_constant_hook text)
                      [UnicodeDecodeError; JSONDecodeError] (fun _ => anchor_error "audit chain anchor is not valid JSON") in
      match value with
      | PDict d => Ok (Some d)
      | _ => anchor_error "audit chain anchor must contain a JSON object"
      end
  end.

(** ** Writing *)
(** How the system calls of a write end: all of them succeed, one fails before the name is moved, or one fails
    after it (the directory sync or opening the new file) *)
Inductive WriteOutcome := Written | WriteFailed | ReplacedNotReopened.
Definition anchor_state (a : Anchor) (head : option ChainHead) (now : string) : pyval :=
  PDict [ ("format", PInt 1); ("project_id", PStr (an_project_id a)); ("database_id", PStr (an_database_id a));
          ("head_id", PInt (match head with None => 0 | Some h => hd_id h end));
          ("head_hash", PStr (match head with None => EmptyString | Some h => hd_hash h end));
          ("updated_at", PStr now) ].
(** [json.dumps(value, ensure_ascii=False, sort_keys=True)] *)
Definition json_dumps_text : pyval -> string := dumps ", " ": ".
Definition _write_state (a : Anchor) (head : option ChainHead) (now : string) (outcome : WriteOutcome) (fs : AnchorFs)
    : res unit * Anchor * AnchorFs :=
  match encode_utf8 (json_dumps_text (anchor_state a head now) +:+ String LF EmptyString) with
  | Raise e => (Raise e, a, fs)
  | Ok raw =>
      let inode := length (fs_inodes fs) in
      let replaced := MkAnchorFs (fs_inodes fs ++ [raw]) (Some inode) in
      match outcome with
      | Written => (Ok tt, set_fd a inode, replaced)
      | WriteFailed => (anchor_error "cannot atomically replace audit chain anchor", a, fs)
      | ReplacedNotReopened => (anchor_error "cannot atomically replace audit chain anchor", a, replaced)
      end
  end.

Definition state_get (key : string) (state : list (string * pyval)) : pyval := default PNone (dict_get key state).
Definition equals_str (v : pyval) (s : string) : bool := match v with PStr t => bool_decide (t = s) | _ => false end.
Definition _validate_state (a : Anchor) (state : list (string * pyval)) : res (Z * string) :=
  raise_if (negb (equals_one (state_get "format" state))) AuditAnchorError "unsupported audit chain anchor format" ;;*
  raise_if (negb (equals_str (state_get "project_id" state) (an_project_id a))) AuditAnchorError
    "audit chain anchor project identity mismatch" ;;*
  raise_if (negb (equals_str (state_get "database_id" state) (an_database_id a))) AuditAnchorError
    "audit chain anchor database identity mismatch" ;;*
  match state_get "head_id" state with
  | PInt head_id =>
      raise_if (head_id <? 0) AuditAnchorError "audit chain anchor head_id is invalid" ;;*
      match state_get "head_hash" state with
      | PStr head_hash =>
          raise_if ((head_id =? 0) && negb (str_empty head_hash)) AuditAnchorError
            "empty audit chain anchor has a non-empty hash" ;;*
          raise_if ((0 <? head_id) && negb (py_len head_hash =? 64)) AuditAnchorError
            "audit chain anchor head_hash is malformed" ;;*
          Ok (head_id, head_hash)
      | _ => anchor_error "audit chain anchor head_hash is invalid"
      end
  | _ => anchor_error "audit chain anchor head_id is invalid"
  end.

(** ** Checking

    The database is read at up to four awaits; [Snapshots] holds its contents at each of them. *)
Record Snapshots := MkSnapshots {
  at_replay : AuditDb; at_head : AuditDb; at_anchor : AuditDb; at_suffix : AuditDb
}.
Definition quiet (db : AuditDb) : Snapshots := MkSnapshots db db db db.
Definition report (prefix : string) (breaks : list ChainBreak) : res unit :=
  match breaks with
  | [] => Ok tt
  | _ => anchor_error (prefix +:+ join ", " ((fun b => Z_to_dec (br_id b)) <$> breaks))
  end.
(** The checks of a stored state before a possible write; the answer says whether the head has moved. *)
Definition check_anchored (a : Anchor) (state : list (string * pyval)) (current : option ChainHead) (replay : bool)
    (s : Snapshots) : res bool :=
  let* ah := _validate_state a state in
  let '(anchor_id, anchor_hash) := ah in
  let* anchored_row := (if 0 <? anchor_id then get_audit_chain_head (Some anchor_id) (at_anchor s) else Ok None) in
  raise_if ((0 <? anchor_id)
            && negb (match anchored_row with None => false | Some r => bool_decide (hd_hash r = anchor_hash) end))
    AuditAnchorError "audit chain anchor does not match the persisted database prefix" ;;*
  (if (0 <? anchor_id) && negb replay
   then let* breaks := verify_audit_chain_since anchor_id (at_suffix s) in
        report "SQLite audit hash chain suffix is broken: " breaks
   else Ok tt) ;;*
  let current_id := match current with None => 0 | Some h => hd_id h end in
  raise_if (current_id <? anchor_id) AuditAnchorError
    "database audit chain rolled back behind the independent anchor" ;;*
  Ok (negb (current_id =? anchor_id)
      || match current with None => false | Some h => negb (bool_decide (hd_hash h = anchor_hash)) end).
Definition _check (a : Anchor) (replay : bool) (s : Snapshots) (now : string) (outcome : WriteOutcome) (fs : AnchorFs)
    : res unit * Anchor * AnchorFs :=
  match (if replay then let* breaks := verify_audit_chain (at_replay s) in
                        report "SQLite audit hash chain is broken: " breaks
         else Ok tt) with
  | Raise e => (Raise e, a, fs)
  | Ok _ =>
      match _read_state a fs, get_audit_chain_head None (at_head s) with
      | Raise e, _ => (Raise e, a, fs)
      | _, Raise e => (Raise e, a, fs)
      | Ok None, Ok current => _write_state a current now outcome fs
      | Ok (Some state), Ok current =>
          match check_anchored a state current replay s with
          | Raise e => (Raise e, a, fs)
          | Ok true => _write_state a current now outcome fs
          | Ok false => (Ok tt, a, fs)
          end
      end
  end.
Definition mark_verified (r : res unit * Anchor * AnchorFs) : res unit * Anchor * AnchorFs :=
  match r with (Ok _, a, fs) => (Ok tt, set_verified a, fs) | _ => r end.
Definition verify (a : Anchor) (s : Snapshots) (now : string) (outcome : WriteOutcome) (fs : AnchorFs)
    : res unit * Anchor * AnchorFs :=
  mark_verified (_check a (negb (an_verified a)) s now outcome fs).
Definition observe (a : Anchor) (s : Snapshots) (now : string) (outcome : WriteOutcome) (fs : AnchorFs)
    : res unit * Anchor * AnchorFs :=
  mark_verified (_check a false s now outcome fs).

(** ** One line of valid UTF-8 *)
Definition printable (s : string) : bool := string_forallb (fun c => 32 <=? byte c) s.
Lemma utf8_from_app s t : forall p, utf8_from p s = true -> utf8_from [] t = true -> utf8_from p (s +:+ t) = true.
Proof.
  induction s as [|c s IH]; intros p Hs Ht; destruct p as [|[lo hi] p]; cbn [String.append utf8_from] in *; try done.
  - destruct (continuations (byte c)) as [p|]; [by apply IH|done].
  - apply andb_true_iff in Hs as [-> Hs]. by apply IH.
Qed.
Lemma utf8_ascii c s : byte c < 128 -> utf8_from [] (String c s) = utf8_from [] s.
Proof.
  intros Hc. cbn [utf8_from]. unfold continuations, between. pose proof (byte_range c).
  by replace ((0 <=? byte c) && (byte c <=? 127)) with true by lia.
Qed.
Lemma escape_char_high c : 128 <= byte c -> escape_char c = String c EmptyString.
Proof.
  intros Hc. unfold escape_char. repeat case_match; first [lia|done].
Qed.
Lemma escape_char_line c : printable (escape_char c) = true /\ (byte c < 128 -> utf8_from [] (escape_char c) = true).
Proof. destruct c as [[] [] [] [] [] [] [] []]; vm_compute; (split; [reflexivity|intros H; first [reflexivity|discriminate H]]). Qed.
Lemma pending_high p c s : utf8_from p (String c s) = true -> (forall lo hi, (lo, hi) ∈ p -> 128 <= lo) ->
  p = [] \/ 128 <= byte c.
Proof.
  destruct p as [|[lo hi] p]; [by left|]. intros H Hp. right. specialize (Hp lo hi ltac:(left)).
  cbn [utf8_from] in H. apply andb_true_iff in H as [H _]. unfold between in H. lia.
Qed.
Lemma continuations_high b p : continuations b = Some p -> forall lo hi, (lo, hi) ∈ p -> 128 <= lo.
Proof.
  unfold continuations. intros H lo hi Hp. repeat case_match; simplify_eq;
    repeat (apply elem_of_cons in Hp as [Hp|Hp]; [injection Hp; lia|]); by apply not_elem_of_nil in Hp.
Qed.
Lemma escape_utf8 s : forall p, (forall lo hi, (lo, hi) ∈ p -> 128 <= lo) -> utf8_from p s = true -> utf8_from p (escape s) = true.
Proof.
  induction s as [|c s IH]; intros p Hp Hs; [done|]. cbn [escape]. destruct (Z.lt_ge_cases (byte c) 128) as [Hc|Hc].
  - destruct (pending_high p c s Hs Hp) as [->|?]; [|lia]. rewrite utf8_ascii in Hs by done.
    apply utf8_from_app; [by apply escape_char_line|]. by apply IH.
  - rewrite escape_char_high by done. cbn [String.append]. destruct p as [|[lo hi] p]; cbn [utf8_from] in *.
    + destruct (continuations (byte c)) as [p|] eqn:E; [|done]. apply IH; [by apply (continuations_high (byte c))|done].
    + apply andb_true_iff in Hs as [-> Hs]. apply IH; [|done]. intros l h H. apply (Hp l h). by right.
Qed.
Lemma escape_printable s : printable (escape s) = true.
Proof.
  induction s as [|c s IH]; [done|]. cbn [escape]. unfold printable in *. rewrite string_forallb_app, IH, andb_true_r.
  apply escape_char_line.
Qed.

(** Texts that are printable and valid *)
Definition line_text (s : string) : Prop := printable s = true /\ valid_utf8 s = true.
Lemma line_text_app s t : line_text s -> line_text t -> line_text (s +:+ t).
Proof.
  intros [H1 H2] [H3 H4]. split; [unfold printable in *; by rewrite string_forallb_app, H1, H3|by apply utf8_from_app].
Qed.
Lemma line_text_digits s : string_forallb is_digit s = true -> line_text s.
Proof.
  induction s as [|c s IH]; [done|]. cbn [string_forallb]. intros [Hc Hs]%andb_true_iff.
  destruct (IH Hs) as [H1 H2]. unfold is_digit, between in Hc. split.
  - unfold printable in *. cbn [string_forallb]. rewrite H1. lia.
  - unfold valid_utf8 in *. rewrite utf8_ascii by lia. done.
Qed.
Lemma line_text_dec z : line_text (Z_to_dec z).
Proof.
  unfold Z_to_dec. assert (forall n, 0 <= n -> line_text (nat_to_dec n)) as H.
  { intros n Hn. destruct (nat_to_dec_spec n Hn) as (c & t & -> & Hd & _). by apply line_text_digits. }
  destruct (Z.ltb_spec z 0); [|by apply H].
  change (String "-" (nat_to_dec (- z))) with ("-" +:+ nat_to_dec (- z)). apply line_text_app; [by split|apply H; lia].
Qed.
Lemma line_text_encode_str s : valid_utf8 s = true -> line_text (encode_str s).
Proof.
  intros Hs. unfold encode_str. change (String QUOTE ?t) with (String QUOTE EmptyString +:+ t) at 1.
  apply line_text_app; [by split|]. apply line_text_app; [|by split]. split; [apply escape_printable|].
  apply escape_utf8; [|done]. intros lo hi H. by apply not_elem_of_nil in H.
Qed.
Lemma line_text_join sep l : line_text sep -> Forall line_text l -> line_text (join sep l).
Proof.
  intros Hsep. induction 1 as [|x l Hx Hl IH]; [by split|]. destruct l as [|y l]; [done|].
  change (join sep (x :: y :: l)) with (x +:+ sep +:+ join sep (y :: l)). by repeat apply line_text_app.
Qed.
(** The keys and strings of a value are valid. *)
Fixpoint strings_valid (v : pyval) : bool :=
  match v with
  | PStr s => valid_utf8 s
  | PFloat _ => false
  | PList l => forallb strings_valid l
  | PDict d => forallb (fun kv => valid_utf8 kv.1 && strings_valid kv.2) d
  | _ => true
  end.
Lemma line_text_dumps v : strings_valid v = true -> line_text (json_dumps_text v).
Proof.
  induction v as [|[]|z|s|s|l IH|d IH] using pyval_ind; cbn [strings_valid]; intros H; try (by split).
  - apply line_text_dec.
  - by apply line_text_encode_str.
  - change (json_dumps_text (PList l)) with ("[" +:+ join ", " (json_dumps_text <$> l) +:+ "]").
    apply line_text_app; [by split|]. apply line_text_app; [|by split]. apply line_text_join; [by split|].
    rewrite forallb_Forall_true in H. apply Forall_fmap. eapply Forall_impl; [|intros x Hx; exact Hx].
    rewrite Forall_forall in *. naive_solver.
  - change (json_dumps_text (PDict d)) with (dumpsw " " " " (PDict d)). rewrite dumpsw_dict.
    apply line_text_app; [by split|]. apply line_text_app; [|by split]. apply line_text_join; [by split|].
    apply Forall_fmap, (Forall_sorted_by fst), Forall_forall. intros [k v] Hkv. cbn.
    rewrite forallb_Forall_true, Forall_forall in H. specialize (H _ Hkv). cbn in H. apply andb_true_iff in H as [Hk Hv].
    rewrite Forall_forall in IH. unfold member_textw. cbn [fst snd].
    apply line_text_app; [by apply line_text_encode_str|]. change (String ":" ?t) with (": " +:+ json_dumps_text v).
    apply line_text_app; [by split|]. by apply (IH (k, v)).
Qed.

(** ** What is written is what is read *)
Lemma splitlines_line t : printable t = true -> splitlines (t +:+ String LF EmptyString) = [t].
Proof.
  unfold printable. induction t as [|c t IH]; [done|]. cbn [string_forallb String.append]. intros [Hc Ht]%andb_true_iff.
  cbn [splitlines]. rewrite (IH Ht). rewrite !bool_decide_eq_false_2; [done|..]; by intros ->.
Qed.
Lemma substring_all s n : (String.length s <= n)%nat -> String.substring 0 n s = s.
Proof.
  revert n. induction s as [|c s IH]; intros [|n]; cbn [String.length String.substring]; intros H; try done; try lia.
  by rewrite IH by lia.
Qed.
Lemma utf8_no_surrogate s : forall p, (forall lo hi, (lo, hi) ∈ p -> hi <= 191) -> utf8_from p s = true -> has_surrogate s = false.
Proof.
  induction s as [|a s IH]; intros p Hp Hs; [done|].
  assert (exists q, (forall lo hi, (lo, hi) ∈ q -> hi <= 191) /\ utf8_from q s = true
    /\ (byte a = 237 -> q = [(128, 159); (128, 191)])) as (q & Hq & Hsq & Ha).
  { destruct p as [|[lo hi] p]; cbn [utf8_from] in Hs.
    - destruct (continuations (byte a)) as [q|] eqn:E; [|done]. exists q. split; [|split; [done|]].
      + unfold continuations in E. intros lo hi H. repeat case_match; simplify_eq;
          repeat (apply elem_of_cons in H as [H|H]; [injection H; lia|]); by apply not_elem_of_nil in H.
      + intros Ha. rewrite Ha in E. by injection E.
    - apply andb_true_iff in Hs as [Hb Hs]. exists p. split; [intros l h H; apply (Hp l h); by right|]. split; [done|].
      specialize (Hp lo hi ltac:(left)). unfold between in Hb. lia. }
  specialize (IH q Hq Hsq). destruct s as [|b s]; [done|]. rewrite has_surrogate_cons2, IH, orb_false_r.
  destruct (Z.eqb_spec (byte a) 237) as [E|_]; [|done]. rewrite (Ha E) in Hsq. cbn [utf8_from] in Hsq.
  apply andb_true_iff in Hsq as [Hb _]. unfold between in *. lia.
Qed.
Lemma encode_valid s : valid_utf8 s = true -> encode_utf8 s = Ok s.
Proof.
  intros H. unfold encode_utf8. rewrite (utf8_no_surrogate s [] ); [done| |done].
  intros lo hi Hp. by apply not_elem_of_nil in Hp.
Qed.

(** The texts of an anchor's state: identities and time are valid, a head is a row with a digest, and the file fits. *)
Definition state_text (a : Anchor) (head : option ChainHead) (now : string) : string :=
  json_dumps_text (anchor_state a head now).
Record anchor_fits (a : Anchor) (head : option ChainHead) (now : string) : Prop := {
  fits_project : valid_utf8 (an_project_id a) = true;
  fits_database : is_sha256_hex (an_database_id a) = true;
  fits_now : valid_utf8 now = true;
  fits_head : forall h, head = Some h -> 0 < hd_id h /\ is_sha256_hex (hd_hash h) = true;
  fits_size : byte_length (state_text a head now) + 1 < size_limit
}.
Lemma hex_valid s : string_forallb is_hex_lower s = true -> valid_utf8 s = true.
Proof.
  unfold valid_utf8. induction s as [|c s IH]; [done|]. cbn [string_forallb]. intros [Hc Hs]%andb_true_iff.
  rewrite utf8_ascii; [by apply IH|]. unfold is_hex_lower, between in Hc. lia.
Qed.
Lemma sha_hex_valid s : is_sha256_hex s = true -> valid_utf8 s = true.
Proof. intros [_ H]%andb_true_iff. by apply hex_valid. Qed.
Definition head_id_of (head : option ChainHead) : Z := match head with None => 0 | Some h => hd_id h end.
Definition head_hash_of (head : option ChainHead) : string := match head with None => EmptyString | Some h => hd_hash h end.
(** The anchor reads the state [(k, hash)]. *)
Definition anchored (a : Anchor) (fs : AnchorFs) (k : Z) (hash : string) : Prop :=
  exists st, _read_state a fs = Ok (Some st) /\ _validate_state a st = Ok (k, hash).

Lemma state_line a head now : anchor_fits a head now -> line_text (state_text a head now).
Proof.
  intros [Hp Hd Hn Hh _]. apply line_text_dumps. cbn. rewrite Hp, (sha_hex_valid _ Hd), Hn.
  destruct head as [h|]; cbn; [|done]. by rewrite (sha_hex_valid _ (proj2 (Hh h eq_refl))).
Qed.
Lemma state_not_blank a head now : not_blank (state_text a head now) = true.
Proof.
  unfold state_text, anchor_state. set (d := [_; _; _; _; _; _]).
  change (json_dumps_text (PDict d)) with (dumpsw " " " " (PDict d)). by rewrite dumpsw_dict.
Qed.
Lemma read_written a head now fs :
  anchor_fits a head now -> fs_inodes fs !! an_fd a = Some (state_text a head now +:+ String LF EmptyString) ->
  anchored a fs (head_id_of head) (head_hash_of head).
Proof.
  intros Hf Hraw. pose proof (state_line a head now Hf) as [Hprint Hutf]. destruct Hf as [Hp Hd Hn Hh Hsz].
  set (d := [("format", PInt 1); ("project_id", PStr (an_project_id a)); ("database_id", PStr (an_database_id a));
          ("head_id", PInt (head_id_of head)); ("head_hash", PStr (head_hash_of head)); ("updated_at", PStr now)]).
  assert (NoDup (dict_keys d)) as Hnd by (apply (bool_decide_unpack _); reflexivity).
  exists (sorted_by fst ((fun kv => (kv.1, canon kv.2)) <$> d)). split.
  - unfold _read_state. rewrite Hraw. cbn [default from_option id].
    assert (byte_length (state_text a head now +:+ String LF EmptyString) < size_limit) as Hlen.
    { unfold byte_length. rewrite str_length_app. cbn [String.length]. unfold byte_length in Hsz. lia. }
    rewrite substring_all by (apply Nat2Z.inj_le; rewrite Z2Nat.id by done; unfold byte_length in Hlen; lia).
    replace (size_limit <=? byte_length (state_text a head now +:+ String LF EmptyString)) with false by lia.
    cbn [raise_if res_bind]. rewrite (splitlines_line _ Hprint). cbn [List.filter]. rewrite state_not_blank. cbn [last].
    unfold decode_utf8. rewrite Hutf. cbn [negb raise_if res_bind]. unfold state_text.
    change (json_dumps_text (anchor_state a head now)) with (dumpsw " " " " (PDict d)).
    rewrite (loads_dumpsw " " " " one_space one_space); [done|apply default_object_hook_nodup|].
    cbn [plain]. rewrite (bool_decide_eq_true_2 _ Hnd). reflexivity.
  - set (st := sorted_by fst _).
    assert (forall key v, dict_get key d = Some v -> state_get key st = canon v) as Hg.
    { intros key v Hv. unfold state_get, st. by rewrite (dict_get_canon _ _ Hnd), Hv. }
    unfold _validate_state. rewrite (Hg "format" (PInt 1) eq_refl), (Hg "project_id" (PStr (an_project_id a)) eq_refl),
      (Hg "database_id" (PStr (an_database_id a)) eq_refl), (Hg "head_id" (PInt (head_id_of head)) eq_refl),
      (Hg "head_hash" (PStr (head_hash_of head)) eq_refl). cbn [canon equals_str].
    rewrite !bool_decide_eq_true_2 by done. cbn.
    destruct head as [h|]; cbn; [|done]. destruct (Hh h eq_refl) as [Hid Hhex].
    destruct (Z.ltb_spec (hd_id h) 0); [lia|]. destruct (Z.eqb_spec (hd_id h) 0); [lia|].
    destruct (Z.ltb_spec 0 (hd_id h)); [|lia]. by rewrite (sha256_hex_len _ Hhex).
Qed.

Lemma read_state_fd a b fs : an_fd a = an_fd b -> _read_state a fs = _read_state b fs.
Proof. unfold _read_state. by intros ->. Qed.
Lemma validate_state_ids a b st :
  an_project_id a = an_project_id b -> an_database_id a = an_database_id b -> _validate_state a st = _validate_state b st.
Proof. unfold _validate_state. by intros -> ->. Qed.
Lemma anchored_same a b fs k hash :
  an_fd a = an_fd b -> an_project_id a = an_project_id b -> an_database_id a = an_database_id b ->
  anchored a fs k hash -> anchored b fs k hash.
Proof.
  intros Hf Hp Hd (st & Hr & Hv). exists st. by rewrite <- (read_state_fd a b), <- (validate_state_ids a b).
Qed.
Lemma write_anchors a head now fs : anchor_fits a head now ->
  let a' := set_fd a (length (fs_inodes fs)) in
  let fs' := MkAnchorFs (fs_inodes fs ++ [state_text a head now +:+ String LF EmptyString]) (Some (an_fd a')) in
  _write_state a head now Written fs = (Ok tt, a', fs') /\ anchored a' fs' (head_id_of head) (head_hash_of head).
Proof.
  intros Hf a' fs'. assert (anchor_fits a' head now) as Hf' by (by destruct Hf). split.
  - unfold _write_state. rewrite encode_valid; [done|]. apply utf8_from_app; [|done]. by apply state_line.
  - apply (read_written a' head now); [done|]. cbn. by rewrite lookup_app_r, Nat.sub_diag.
Qed.

(** Anchor round trip: after a successful write, the writing anchor and every anchor opened later for the same project
    and database read back exactly the head that was written. *)
Theorem anchor_write_read a head now fs path b fs2
  (Hfits : anchor_fits a head now) (Hid : an_database_id a = sha256_hexdigest path)
  (Hopen : open_anchor (an_project_id a) path (_write_state a head now Written fs).2 = Ok (b, fs2)) :
  (_write_state a head now Written fs).1.1 = Ok tt
  /\ anchored (_write_state a head now Written fs).1.2 (_write_state a head now Written fs).2
       (head_id_of head) (head_hash_of head)
  /\ anchored b fs2 (head_id_of head) (head_hash_of head).
Proof.
  destruct (write_anchors a head now fs Hfits) as [Hw Ha]. rewrite Hw in *. cbn [fst snd] in *. split; [done|]. split; [done|].
  unfold open_anchor in Hopen. apply res_bind_Ok in Hopen as (i & Hi & [= <- <-]).
  unfold encode_utf8 in Hi. apply res_bind_Ok in Hi as (_ & _ & [= <-]). cbn [fs_name fs_inodes].
  by eapply anchored_same; [..|exact Ha].
Qed.

(** ** What a check guarantees *)
Section accepted.
Context (a : Anchor) (fs : AnchorFs) (k : Z) (hash : string).
Hypothesis Ha : anchored a fs k hash.
Hypothesis Hk : 0 < k.

Lemma check_stored replay s now o a' fs' : _check a replay s now o fs = (Ok tt, a', fs') ->
  (replay = true -> verify_audit_chain (at_replay s) = Ok []) /\
  exists h, get_audit_chain_head (Some k) (at_anchor s) = Ok (Some h) /\ hd_hash h = hash
    /\ (replay = false -> verify_audit_chain_since k (at_suffix s) = Ok [])
    /\ exists current, get_audit_chain_head None (at_head s) = Ok current /\ k <= head_id_of current.
Proof.
  destruct Ha as (st & Hr & Hv). unfold _check. intros H.
  destruct (if replay then _ else _) as [u|] eqn:Erep; [|done]. split.
  { intros ->. apply res_bind_Ok in Erep as (breaks & Hb & Hrep). rewrite Hb. by destruct breaks. }
  rewrite Hr in H. destruct (get_audit_chain_head None (at_head s)) as [current|e] eqn:Ec; [|done].
  destruct (check_anchored a st current replay s) as [moved|e] eqn:E; [|done]. clear H.
  unfold check_anchored in E. rewrite Hv in E. cbn [res_bind] in E.
  replace (0 <? k) with true in E by lia. cbn [andb] in E.
  apply res_bind_Ok in E as (row & Hrow & E). apply res_bind_Ok in E as (? & Hm%raise_if_Ok & E).
  apply res_bind_Ok in E as (? & Hsuf & E). apply res_bind_Ok in E as (? & Hroll%raise_if_Ok & _).
  destruct row as [h|]; [|done]. exists h. split; [done|]. split.
  { apply negb_false_iff in Hm. by apply bool_decide_eq_true in Hm. }
  split; [|exists current; split; [done|unfold head_id_of; lia]].
  intros ->. cbn [negb] in Hsuf. apply res_bind_Ok in Hsuf as (breaks & Hb & Hrep). rewrite Hb. by destruct breaks.
Qed.
Lemma verify_check s now o a' fs' : verify a s now o fs = (Ok tt, a', fs') ->
  exists b, _check a (negb (an_verified a)) s now o fs = (Ok tt, b, fs').
Proof.
  unfold verify, mark_verified. destruct (_check _ _ _ _ _ _) as [[[[]|e] b] fs1]; [|done]. intros [= _ <-]. by exists b.
Qed.
End accepted.

(** C19. Tampering with what the chain hashes is detected at startup.  The anchor recorded the head [h] of the log [db] at
    row [k]; later a process opens the anchor and its first verification accepts the table [db'].  If SHA-256 does not
    collide on the texts involved, the rows of [db'] up to [k] correspond one to one and in order to those of [db], after
    at most one forged first row with an empty link, and each has the same link and the same hashed text as its
    counterpart; where neither row contains a NUL character, the same value in every hashed column (an absent one counts
    as empty).  So no edit of that text, deletion, insertion, reordering or rollback behind [k] is accepted.  The columns
    [id] and [created_at] are not hashed, and a NUL character lets text move between columns ([nul_shifts_columns]). *)
Theorem restart_detects_tampering k db db' h a now fs path b fs2 now' outcome c fs3
  (Hdb : audit_history db) (Hh : get_audit_chain_head (Some k) db = Ok (Some h)) (Hid : hd_id h = k)
  (Hfits : anchor_fits a (Some h) now) (Hdbid : an_database_id a = sha256_hexdigest path)
  (Hopen : open_anchor (an_project_id a) path (_write_state a (Some h) now Written fs).2 = Ok (b, fs2))
  (Hs' : ids_sorted (ad_rows db')) (Hverify : verify b (quiet db') now' outcome fs2 = (Ok tt, c, fs3))
  (Hc : collision_free (preimages k db ++ preimages k db')) :
  exists forged rows', before (k + 1) (ad_rows db') = forged ++ rows' /\ (length forged <= 1)%nat
    /\ Forall (fun r => ar_prev_hash r = EmptyString) forged /\ Forall2 same_row (before (k + 1) (ad_rows db)) rows'.
Proof.
  destruct (write_anchors a (Some h) now fs Hfits) as [Hw Ha]. rewrite Hw in *. cbn [fst snd] in *.
  pose proof (fits_head _ _ _ Hfits h eq_refl) as [Hpos _].
  unfold open_anchor in Hopen. apply res_bind_Ok in Hopen as (i & Hi & [= <- <-]).
  unfold encode_utf8 in Hi. apply res_bind_Ok in Hi as (_ & _ & [= <-]). cbn [fs_name fs_inodes] in *.
  set (b := MkAnchor _ _ _ false) in *. apply verify_check in Hverify as (b' & Hcheck). cbn in Hcheck.
  eapply (check_stored b _ k (hd_hash h)) in Hcheck as (Hv & h' & Hh' & Heq & _); [|rewrite <- Hid; by eapply anchored_same; [..|exact Ha]|lia].
  eapply anchored_prefix_authentic; eauto.
Qed.

(** Rollback and truncation are refused at every check, of a new event as at startup: when the table no longer has the
    anchored row, or the row has another head, the check raises and changes neither the anchor nor its file. *)
Theorem rollback_refused a fs k hash replay db now outcome
  (Ha : anchored a fs k hash) (Hk : 0 < k)
  (Hgone : forall h, get_audit_chain_head (Some k) db = Ok (Some h) -> hd_hash h ≠ hash) :
  exists e, _check a replay (quiet db) now outcome fs = (Raise e, a, fs).
Proof.
  destruct Ha as (st & Hr & Hv). unfold _check. destruct (if replay then _ else _) as [u|e]; [|by exists e].
  rewrite Hr. destruct (get_audit_chain_head None _) as [current|e]; [|by exists e].
  destruct (check_anchored a st current replay (quiet db)) as [m|e] eqn:E; [|by exists e]. exfalso.
  unfold check_anchored in E. rewrite Hv in E. cbn [res_bind quiet at_anchor] in E.
  replace (0 <? k) with true in E by lia. cbn [andb] in E. apply res_bind_Ok in E as (row & Hrow & E).
  apply res_bind_Ok in E as (? & Hm%raise_if_Ok & _). destruct row as [h|]; [|done].
  apply negb_false_iff, bool_decide_eq_true in Hm. by apply (Hgone h).
Qed.

(** ** Recorded logs are accepted *)
Lemma last_id_le db r x : ids_sorted (ad_rows db) -> last (ad_rows db) = Some x -> r ∈ ad_rows db -> ar_id r <= ar_id x.
Proof. intros Hs Hl Hr. pose proof (ids_sorted_last _ _ Hs Hl) as H. rewrite Forall_forall in H. by apply (H r). Qed.
(** The anchor holds the head of a row of the log, or nothing was logged when it was written. *)
Definition anchored_in (a : Anchor) (fs : AnchorFs) (db : AuditDb) : Prop :=
  anchored a fs 0 EmptyString \/ exists r, r ∈ ad_rows db /\ anchored a fs (ar_id r) (hd_hash (head_of r)).
Definition current_head (db : AuditDb) : option ChainHead := head_of <$> last (ad_rows db).
Definition anchored_now (a : Anchor) (fs : AnchorFs) (db : AuditDb) : Prop :=
  anchored a fs (head_id_of (current_head db)) (head_hash_of (current_head db)).
Definition same_identity (a b : Anchor) : Prop :=
  an_project_id a = an_project_id b /\ an_database_id a = an_database_id b.

Lemma history_clean db : audit_history db ->
  verify_audit_chain db = Ok [] /\ forall k, verify_audit_chain_since k db = Ok [].
Proof.
  intros [Hs Hl]%history_linked. split; [|intros k; by apply since_linked].
  apply verify_audit_chain_clean. by rewrite (linked_chained _ _ Hl).
Qed.
Lemma check_anchored_accepts a st k hash replay db :
  audit_history db -> _validate_state a st = Ok (k, hash) ->
  (k = 0 /\ hash = EmptyString) \/ (exists r, r ∈ ad_rows db /\ k = ar_id r /\ hash = hd_hash (head_of r)) ->
  exists moved, check_anchored a st (current_head db) replay (quiet db) = Ok moved
    /\ (moved = false -> k = head_id_of (current_head db) /\ hash = head_hash_of (current_head db)).
Proof.
  intros Hdb Hv Hin. pose proof (history_clean db Hdb) as [_ Hsuf]. pose proof (history_linked db Hdb) as [Hs _].
  pose proof (history_positive db Hdb) as [_ Hpos]. rewrite Forall_forall in Hpos.
  assert (k <= head_id_of (current_head db)) as Hle.
  { unfold current_head. destruct (last (ad_rows db)) as [x|] eqn:El; cbn.
    - destruct Hin as [[-> _]|(r & Hr & -> & _)]; [|by eapply last_id_le].
      specialize (Hpos x ltac:(by apply last_Some_elem_of)). cbn in Hpos. lia.
    - destruct Hin as [[-> _]|(r & Hr & _)]; [done|]. apply last_None in El. rewrite El in Hr. by apply not_elem_of_nil in Hr. }
  assert (0 < k -> exists h, get_audit_chain_head (Some k) db = Ok (Some h) /\ hd_hash h = hash) as Hrow.
  { intros Hk. destruct Hin as [[-> _]|(r & Hr & -> & ->)]; [lia|]. rewrite (history_head db (Some (ar_id r)) Hdb).
    rewrite (row_at_in db r Hs Hr). by exists (head_of r). }
  exists (negb (head_id_of (current_head db) =? k)
      || match current_head db with None => false | Some h => negb (bool_decide (hd_hash h = hash)) end).
  split.
  - unfold check_anchored. rewrite Hv. cbn [res_bind quiet at_anchor at_suffix]. destruct (Z.ltb_spec 0 k) as [Hk|Hk].
    + destruct (Hrow Hk) as (h & -> & <-). cbn [res_bind andb]. rewrite bool_decide_eq_true_2 by done. cbn [negb raise_if res_bind].
      rewrite Hsuf. destruct replay; cbn [negb res_bind report]; fold (head_id_of (current_head db));
        (destruct (Z.ltb_spec (head_id_of (current_head db)) k); [lia|done]).
    + cbn [res_bind andb raise_if]. fold (head_id_of (current_head db)).
      destruct (Z.ltb_spec (head_id_of (current_head db)) k); [lia|done].
  - intros [H1%negb_false_iff%Z.eqb_eq H2]%orb_false_iff. split; [done|].
    destruct (current_head db) as [h|]; cbn in *; [apply negb_false_iff, bool_decide_eq_true in H2; done|].
    destruct Hin as [[_ ->]|(r & Hr & Hk & _)]; [done|]. specialize (Hpos r Hr). cbn in Hpos. lia.
Qed.
Lemma check_accepts a replay db now fs :
  audit_history db -> anchor_fits a (current_head db) now ->
  _read_state a fs = Ok None \/ anchored_in a fs db ->
  exists a' fs', _check a replay (quiet db) now Written fs = (Ok tt, a', fs')
    /\ anchored_now a' fs' db /\ same_identity a a' /\ an_verified a' = an_verified a.
Proof.
  intros Hdb Hfits Hread. pose proof (history_clean db Hdb) as [Hclean _].
  assert (forall st, _read_state a fs = Ok st ->
    _check a replay (quiet db) now Written fs
    = match st with
      | None => _write_state a (current_head db) now Written fs
      | Some d => match check_anchored a d (current_head db) replay (quiet db) with
                  | Raise e => (Raise e, a, fs)
                  | Ok true => _write_state a (current_head db) now Written fs
                  | Ok false => (Ok tt, a, fs) end
      end) as Hstep.
  { intros st Hst. unfold _check. cbn [quiet at_replay at_head]. rewrite Hclean. rewrite (history_head db None Hdb), Hst.
    fold (current_head db). by destruct replay, st. }
  destruct (write_anchors a (current_head db) now fs Hfits) as [Hw Hnow].
  destruct Hread as [Hnone|Hin].
  { rewrite (Hstep _ Hnone), Hw. eexists _, _. split; [done|]. split; [exact Hnow|]. done. }
  assert (exists k hash st, _read_state a fs = Ok (Some st) /\ _validate_state a st = Ok (k, hash)
    /\ ((k = 0 /\ hash = EmptyString) \/ (exists r, r ∈ ad_rows db /\ k = ar_id r /\ hash = hd_hash (head_of r))))
    as (k & hash & st & Hr & Hv & Hkin).
  { destruct Hin as [(st & Hr & Hv)|(r & Hrin & st & Hr & Hv)]; [by exists 0, EmptyString, st; eauto|].
    exists (ar_id r), (hd_hash (head_of r)), st. eauto 10. }
  rewrite (Hstep _ Hr). destruct (check_anchored_accepts a st k hash replay db Hdb Hv Hkin) as (moved & -> & Hm).
  destruct moved; [rewrite Hw; eexists _, _; split; [done|]; split; [exact Hnow|done]|].
  destruct (Hm eq_refl) as [-> ->]. eexists _, _. split; [done|]. split; [|done]. by exists st.
Qed.

(** ** Examples *)
Definition no_files : AnchorFs := MkAnchorFs [] None.
Definition some_anchor : Anchor := MkAnchor 0 "p1" (sha256_hexdigest "/db") false.
Definition instant : string := "2026-01-01T00:00:00+00:00".
Definition head_two : ChainHead := default (MkChainHead 0 EmptyString EmptyString) (current_head two_events).
Lemma two_events_recorded : audit_history two_events.
Proof. unfold two_events. apply ah_insert; [apply ah_insert; [apply ah_empty|]|]; (split; [reflexivity|by eexists]). Qed.
Lemma some_anchor_fits : anchor_fits some_anchor (Some head_two) instant.
Proof.
  split; [vm_compute; reflexivity..| |vm_compute; reflexivity]. intros h Hh.
  change (0 < hd_id (default h (Some h)) /\ is_sha256_hex (hd_hash (default h (Some h))) = true). rewrite <- Hh.
  split; vm_compute; reflexivity.
Qed.

Definition after_write : Anchor * AnchorFs :=
  let r := _write_state some_anchor (Some head_two) instant Written no_files in (r.1.2, r.2).
Lemma head_two_id : hd_id head_two = 2.
Proof. vm_compute. reflexivity. Qed.
Lemma head_two_head : get_audit_chain_head (Some 2) two_events = Ok (Some head_two).
Proof. vm_compute. reflexivity. Qed.
Lemma reopened : open_anchor "p1" "/db" (_write_state some_anchor (Some head_two) instant Written no_files).2
  = Ok (some_anchor, after_write.2).
Proof. vm_compute. reflexivity. Qed.
Lemma after_write_anchored : anchored after_write.1 after_write.2 2 (hd_hash head_two).
Proof.
  destruct (write_anchors some_anchor (Some head_two) instant no_files some_anchor_fits) as [Hw Ha].
  unfold after_write. rewrite Hw. cbn [fst snd]. rewrite <- head_two_id. exact Ha.
Qed.
Lemma forged_genesis_accepted :
  let v := verify some_anchor (quiet with_forged_genesis) instant Written after_write.2 in v = (Ok tt, v.1.2, v.2).
Proof. vm_compute. reflexivity. Qed.
Lemma forged_genesis_sorted : ids_sorted (ad_rows with_forged_genesis).
Proof.
  unfold ids_sorted. replace (ar_id <$> ad_rows with_forged_genesis) with [0; 1; 2] by (vm_compute; reflexivity).
  repeat constructor.
Qed.

Lemma anchor_write_read_witness :
  anchored some_anchor after_write.2 (head_id_of (Some head_two)) (head_hash_of (Some head_two)).
Proof.
  exact (proj2 (proj2 (anchor_write_read some_anchor (Some head_two) instant no_files "/db" some_anchor after_write.2
    some_anchor_fits eq_refl reopened))).
Defined.

(** The accepted table has a forged first row. *)
Lemma restart_detects_tampering_witness :
  exists forged rows', before (2 + 1) (ad_rows with_forged_genesis) = forged ++ rows' /\ (length forged <= 1)%nat
    /\ Forall (fun r => ar_prev_hash r = EmptyString) forged /\ Forall2 same_row (before (2 + 1) (ad_rows two_events)) rows'.
Proof.
  refine (restart_detects_tampering 2 two_events with_forged_genesis head_two some_anchor instant no_files "/db"
    some_anchor after_write.2 instant Written _ _ two_events_recorded head_two_head head_two_id some_anchor_fits eq_refl reopened
    forged_genesis_sorted forged_genesis_accepted _).
  apply no_collision_spec. vm_compute. reflexivity.
Defined.

Lemma rollback_refused_witness :
  exists e, _check after_write.1 false (quiet (MkAuditDb (take 1 (ad_rows two_events)) 2 [])) instant Written after_write.2
    = (Raise e, after_write.1, after_write.2).
Proof.
  apply (rollback_refused after_write.1 after_write.2 2 (hd_hash head_two)).
  - exact after_write_anchored.
  - reflexivity.
  - intros h H. assert (get_audit_chain_head (Some 2) (MkAuditDb (take 1 (ad_rows two_events)) 2 []) = Ok None) as Hn
      by (vm_compute; reflexivity). rewrite Hn in H. discriminate H.
Defined.

(** An edit of a row behind the anchored one passes every check of a process that has verified once; the replay of
    the next process refuses it. *)
Definition edit_target (target : string) (r : AuditRow) : AuditRow :=
  let f := ar_fields r in
  MkAuditRow (ar_id r)
    (MkAuditFields (af_action f) target (af_result f) (af_detail f) (af_session_id f) (af_principal_id f) (af_runtime_id f)
       (af_task_id f) (af_operation_id f) (af_policy_digest f) (af_authority_generation f) (af_source_transport f) (af_project_id f))
    (ar_created_at r) (ar_prev_hash r).
Definition edited : AuditDb :=
  MkAuditDb (match ad_rows two_events with r :: rows => edit_target "/edited" r :: rows | [] => [] end) 2 [].
Example prefix_edit_unnoticed :
  let '(o1, a1, fs1) := verify after_write.1 (quiet two_events) instant Written after_write.2 in
  o1 = Ok tt /\ (verify a1 (quiet edited) instant Written fs1).1.1 = Ok tt
  /\ (observe a1 (quiet edited) instant Written fs1).1.1 = Ok tt
  /\ (verify after_write.1 (quiet edited) instant Written after_write.2).1.1
     = anchor_error "SQLite audit hash chain is broken: 1".
Proof. vm_compute. done. Qed.

(** Two anchor objects on one file: a write of the first leaves the second on the replaced file, and the second then accepts
    a log rolled back behind the first one's head. *)
Definition one_event : AuditDb := MkAuditDb (take 1 (ad_rows two_events)) 1 [].
Example stale_anchor_accepts_rollback :
  let '(o1, first, fs1) := verify some_anchor (quiet one_event) instant Written (MkAnchorFs [EmptyString] (Some 0%nat)) in
  let second := MkAnchor 1 "p1" (sha256_hexdigest "/db") false in
  let '(o2, first', fs2) := observe first (quiet two_events) instant Written fs1 in
  o1 = Ok tt /\ o2 = Ok tt /\ fs_name fs1 = Some (an_fd second)
  /\ (verify first' (quiet one_event) instant Written fs2).1.1
     = anchor_error "audit chain anchor does not match the persisted database prefix"
  /\ (verify second (quiet one_event) instant Written fs2).1.1 = Ok tt.
Proof. vm_compute. done. Qed.

(** An anchor of an empty log has nothing to replay from: a forged row appended after startup becomes the trusted head. *)
Definition forged_log : AuditDb := MkAuditDb [MkAuditRow 1 (event "rm" "/" "mallory") "t1" "forged"] 1 [].
Example empty_anchor_trusts_forged_row :
  let '(o1, a1, fs1) := verify some_anchor (quiet no_rows) instant Written (MkAnchorFs [EmptyString] (Some 0%nat)) in
  let '(o2, a2, fs2) := observe a1 (quiet forged_log) instant Written fs1 in
  o1 = Ok tt /\ o2 = Ok tt
  /\ (let* st := _read_state a2 fs2 in _validate_state a2 (default [] st))
     = Ok (1, sha256_hexdigest (head_text (MkAuditRow 1 (event "rm" "/" "mallory") "t1" "forged"))).
Proof. vm_compute. done. Qed.
