(* ===== verification/SecretRedaction.v ===== *)
(** * Redaction of registered secrets ([security/secret_redaction.py])

    [SecretRedactor] replaces exact secret values and bearer headers in texts and, recursively, in
    JSON-like values.  A decoded value is a tree, so the traversal's set of active objects never matches.  Replacement
    works on the UTF-8 bytes, which agree with code points for texts that are valid. *)
From Stdlib Require Import Ascii.
From S2P Require Import Prelude PyStr Json.
Open Scope Z_scope.

(** ** Texts *)
Fixpoint str_prefix (p s : string) : bool :=
  match p, s with
  | EmptyString, _ => true
  | String a p', String b s' => bool_decide (a = b) && str_prefix p' s'
  | _, EmptyString => false
  end.
(** [sub in s] *)
Fixpoint str_contains (sub s : string) : bool :=
  str_prefix sub s || match s with EmptyString => false | String _ s' => str_contains sub s' end.
(** [s.replace(old, new)] for a non-empty [old]: [skip] characters of the last occurrence are still to be passed over. *)
Fixpoint replace_from (old new : string) (skip : nat) (s : string) : string :=
  match s with
  | EmptyString => EmptyString
  | String c s' =>
      match skip with
      | S k => replace_from old new k s'
      | O => if str_prefix old s then new +:+ replace_from old new (String.length old - 1) s'
             else String c (replace_from old new O s')
      end
  end.
Definition py_replace (old new s : string) : string := replace_from old new O s.
(** [len(s.encode("utf-8", errors="replace"))]: a lone surrogate becomes one question mark. *)
Fixpoint encoded_length (s : string) : Z :=
  match s with
  | EmptyString => 0
  | String a s' =>
      (match s' with String b _ => if (byte a =? 237) && between 160 191 (byte b) then -1 else 1 | EmptyString => 1 end)
      + encoded_length s'
  end.

(** ** Bearer headers

    [(?i)(authorization\s*:\s*bearer\s+)[^\s,;]+] *)
Definition lower_byte (a : ascii) : ascii := if between 65 90 (byte a) then chr (byte a + 32) else a.
(** One letter, ignoring case; a dotted capital and a dotless small [i] match [i]. *)
Definition drop_letter (c : ascii) (s : string) : option string :=
  match s with
  | String a s' =>
      if bool_decide (lower_byte a = c) then Some s' else
      match s' with
      | String b s'' => if bool_decide (c = "i"%char) && (byte a =? 196) && between 176 177 (byte b) then Some s'' else None
      | EmptyString => None
      end
  | EmptyString => None
  end.
Fixpoint drop_word (w : string) (s : string) : option string :=
  match w with EmptyString => Some s | String c w' => drop_letter c s ≫= drop_word w' end.
Definition starts_space (s : string) : bool :=
  match s with
  | String a r =>
      ws1 a || match r with
               | String b r' => ws2 a b || match r' with String c _ => ws3 a b c | EmptyString => false end
               | EmptyString => false end
  | EmptyString => false
  end.
Definition skip_spaces (s : string) : string := String.string_of_list_ascii (lstrip_bytes (String.list_ascii_of_string s)).
Fixpoint skip_token (s : string) : string :=
  match s with
  | EmptyString => EmptyString
  | String c s' => if starts_space s || (byte c =? 44) || (byte c =? 59) then s else skip_token s'
  end.
Definition consumed (s rest : string) : nat := String.length s - String.length rest.
(** The lengths of group 1 and of the whole match at the start of [s] *)
Definition bearer_match (s : string) : option (nat * nat) :=
  r1 ← drop_word "authorization" s;
  r2 ← drop_prefix ":" (skip_spaces r1);
  r3 ← drop_word "bearer" (skip_spaces r2);
  if negb (starts_space r3) then None else
  let r4 := skip_spaces r3 in
  let r5 := skip_token r4 in
  if (consumed r4 r5 =? 0)%nat then None else Some (consumed s r4, consumed s r5).
Fixpoint bearer_from (skip : nat) (s : string) : string :=
  match s with
  | EmptyString => EmptyString
  | String c s' =>
      match skip with
      | S k => bearer_from k s'
      | O => match bearer_match s with
             | Some (header, total) => String.substring 0 header s +:+ "[REDACTED]" +:+ bearer_from (total - 1) s'
             | None => String c (bearer_from O s')
             end
      end
  end.
Definition _BEARER_HEADER_sub (s : string) : string := bearer_from O s.

(** ** The redactor *)
Definition _MAX_REDACTION_BYTES : Z := 2 * 1024 * 1024.
Definition _MAX_REDACTION_DEPTH : nat := 32.
Definition _MAX_REDACTION_ITEMS : nat := 256.
Definition _REDACTED_SECRET : string := "[REDACTED_SECRET]".
Definition _REDACTED_UNSUPPORTED : string := "[REDACTED_UNSUPPORTED_OUTPUT]".
(** [SecretRedactor._values] *)
Definition Redactor : Type := list string.
Definition register (value : string) (values : Redactor) : Redactor :=
  if str_empty value || str_in value values then values else values ++ [value].
Definition longest_first (values : Redactor) : list string := sorted_by (fun s => - py_len s) values.
Definition replace_secret (result secret : string) : string := py_replace secret _REDACTED_SECRET result.
Definition redact_text (values : Redactor) (value : string) : string :=
  if _MAX_REDACTION_BYTES <? encoded_length value then "[REDACTED_OUTPUT_TOO_LARGE]"
  else foldl replace_secret (_BEARER_HEADER_sub value) (longest_first values).

Definition truncated_items (l : list pyval) : list pyval :=
  if (_MAX_REDACTION_ITEMS <? length l)%nat then [PStr "[REDACTED_TRUNCATED_ITEMS]"] else [].
Definition truncated_keys {V} (l : list (string * V)) (d : list (string * pyval)) : list (string * pyval) :=
  if (_MAX_REDACTION_ITEMS <? length l)%nat then dict_set "[REDACTED_TRUNCATED_KEYS]" (PBool true) d else d.
(** [_redact] and [_redact_sequence] *)
Fixpoint _redact (values : Redactor) (depth : nat) (v : pyval) {struct v} : pyval :=
  if (_MAX_REDACTION_DEPTH <? depth)%nat then PStr _REDACTED_UNSUPPORTED else
  match v with
  | PStr s => PStr (redact_text values s)
  | PList l => PList (take _MAX_REDACTION_ITEMS (_redact values (S depth) <$> l) ++ truncated_items l)
  | PDict d =>
      PDict (truncated_keys d
        (foldl (fun acc kv => dict_set (redact_text values kv.1) kv.2 acc) []
           (take _MAX_REDACTION_ITEMS ((fun kv => (kv.1, _redact values (S depth) kv.2)) <$> d))))
  | _ => v
  end.
Definition redact (values : Redactor) (v : pyval) : pyval := _redact values 0 v.
(** [redact_fail_closed]: the traversal of a decoded value raises nothing. *)
Definition redact_fail_closed : Redactor -> pyval -> pyval := redact.
Definition safe_error (values : Redactor) (class_name text : string) : string :=
  let message := redact_text values text in
  if str_empty message then class_name else py_take 512 message.
Definition contains_registered_secret (values : Redactor) (value : string) : bool :=
  existsb (fun secret => str_contains secret value) values.
Definition clear (values : Redactor) : Redactor := [].

Example redact_header :
  redact_text ["tok-9"] "Authorization : BEARER abc.def, tok-9x" = "Authorization : BEARER [REDACTED], [REDACTED_SECRET]x".
Proof. vm_compute. reflexivity. Qed.
Example redact_value :
  redact ["s3"] (PDict [("a-s3", PList [PStr "s3s3"; PInt 3]); ("b", PNone)])
  = PDict [("a-[REDACTED_SECRET]", PList [PStr "[REDACTED_SECRET][REDACTED_SECRET]"; PInt 3]); ("b", PNone)].
Proof. vm_compute. reflexivity. Qed.

(** ** Replacing leaves no occurrence *)
Lemma str_prefix_spec p s : str_prefix p s = true <-> exists t, s = p +:+ t.
Proof.
  revert s. induction p as [|a p IH]; intros s; cbn [str_prefix].
  - split; [by exists s|done].
  - destruct s as [|b s]; [split; [done|by intros [t Ht]]|]. rewrite andb_true_iff, bool_decide_eq_true, IH. split.
    + intros [-> [t ->]]. by exists t.
    + intros [t [= -> ->]]. split; [done|by exists t].
Qed.
Lemma str_contains_nil sub : sub ≠ EmptyString -> str_contains sub EmptyString = false.
Proof. by destruct sub. Qed.
Lemma str_contains_cons sub c s : str_contains sub (String c s) = str_prefix sub (String c s) || str_contains sub s.
Proof. done. Qed.
Lemma str_contains_suffix sub s t : str_contains sub t = true -> str_contains sub (s +:+ t) = true.
Proof. induction s as [|c s IH]; intros H; [done|]. cbn [String.append]. by rewrite str_contains_cons, (IH H), orb_true_r. Qed.

(** A text without brackets; a marker is a text in brackets. *)
Definition bracket (c : ascii) : bool := (byte c =? 91) || (byte c =? 93).
Definition bracket_free (s : string) : bool := string_forallb (fun c => negb (bracket c)) s.
Definition ends_bracket (s : string) : Prop := exists t, s = t +:+ "]".
(** An occurrence of a bracket-free text does not straddle the end of a marker. *)
Lemma prefix_marker sub m t :
  bracket_free sub = true -> str_prefix sub (m +:+ "]" +:+ t) = true -> str_prefix sub (m +:+ "]") = true.
Proof.
  unfold bracket_free. revert m. induction sub as [|a sub IH]; intros m; [done|]. cbn [string_forallb].
  intros [Ha Hs]%andb_true_iff. destruct m as [|b m]; cbn [String.append str_prefix].
  - intros [Hb _]%andb_true_iff. apply bool_decide_eq_true in Hb as ->. discriminate Ha.
  - intros [-> H]%andb_true_iff. by apply IH.
Qed.
Lemma contains_marker sub m t :
  sub ≠ EmptyString -> bracket_free sub = true -> ends_bracket m ->
  str_contains sub (m +:+ t) = true -> str_contains sub m = true \/ str_contains sub t = true.
Proof.
  intros Hne Hb [u ->]. rewrite str_app_assoc. induction u as [|c u IH]; cbn [String.append].
  - rewrite str_contains_cons. intros [H|H]%orb_true_iff; [|by right]. apply (prefix_marker sub EmptyString t Hb) in H.
    left. cbn [str_contains]. cbn [String.append] in H. by rewrite H.
  - rewrite !str_contains_cons. intros [H|H]%orb_true_iff.
    + apply (prefix_marker sub (String c u) t Hb) in H. left. cbn [String.append] in H. by rewrite H.
    + destruct (IH H) as [->| ->]; [left; apply orb_true_r|by right].
Qed.

Section replacing.
Context (old new : string).
Hypothesis Hopen : exists t, new = String "[" t.
Hypothesis Hclose : ends_bracket new.

Lemma prefix_replace sub s :
  bracket_free sub = true -> str_prefix sub (replace_from old new O s) = true -> str_prefix sub s = true.
Proof.
  unfold bracket_free. revert s. induction sub as [|a sub IH]; intros s; [done|]. cbn [string_forallb].
  intros [Ha Hs]%andb_true_iff. destruct s as [|c s]; [done|]. cbn [replace_from].
  destruct (str_prefix old (String c s)).
  - destruct Hopen as [t ->]. cbn [String.append str_prefix]. intros [H _]%andb_true_iff.
    apply bool_decide_eq_true in H as ->. discriminate Ha.
  - cbn [str_prefix]. intros [-> H]%andb_true_iff. by apply IH.
Qed.
Lemma contains_replace sub s : forall k,
  sub ≠ EmptyString -> bracket_free sub = true -> str_contains sub new = false ->
  str_contains sub (replace_from old new k s) = true -> str_contains sub s = true.
Proof.
  induction s as [|c s IH]; intros k Hne Hb Hn; [done|]. cbn [replace_from]. rewrite (str_contains_cons sub c s).
  destruct k as [|k]; [|intros H; apply orb_true_iff; right; by eapply IH].
  destruct (str_prefix old (String c s)) eqn:Ep.
  - intros H. apply contains_marker in H as [H|H]; [congruence| |done..]. apply orb_true_iff. right. by eapply IH.
  - intros H. rewrite str_contains_cons in H. apply orb_true_iff in H as [H|H]; [|apply orb_true_iff; right; by eapply IH].
    rewrite (prefix_replace sub (String c s) Hb); [done|]. cbn [replace_from]. by rewrite Ep.
Qed.
Lemma replaced_gone s : forall k,
  old ≠ EmptyString -> bracket_free old = true -> str_contains old new = false ->
  str_contains old (replace_from old new k s) = false.
Proof.
  induction s as [|c s IH]; intros k Hne Hb Hn; [by destruct old|]. cbn [replace_from].
  destruct k as [|k]; [|by apply IH]. destruct (str_prefix old (String c s)) eqn:Ep.
  - destruct (str_contains old (new +:+ _)) eqn:E; [|done]. apply contains_marker in E as [E|E]; [congruence| |done..].
    by rewrite IH in E.
  - rewrite str_contains_cons, IH by done. rewrite orb_false_r.
    apply not_true_iff_false. intros E.
    assert (str_prefix old (String c s) = true); [|congruence].
    apply (prefix_replace old (String c s) Hb). cbn [replace_from]. by rewrite Ep.
Qed.
End replacing.

(** ** Redacted texts hold no registered secret

    A secret is told apart from the markers when it has no bracket and some character that the markers, written in capitals
    and underscores, do not have. *)
Definition marker_char (c : ascii) : bool := between 65 90 (byte c) || (byte c =? 95) || bracket c.
Definition distinct_from_markers (secret : string) : bool :=
  bracket_free secret && string_existsb (fun c => negb (marker_char c)) secret.
Lemma marker_prefix sub s : str_prefix sub s = true -> string_forallb marker_char s = true ->
  string_forallb marker_char sub = true.
Proof. intros [t ->]%str_prefix_spec. rewrite string_forallb_app. by intros [H _]%andb_true_iff. Qed.
Lemma marker_contains sub s : str_contains sub s = true -> string_forallb marker_char s = true ->
  string_forallb marker_char sub = true.
Proof.
  induction s as [|c s IH].
  - intros H _. cbn in H. rewrite orb_false_r in H. by eapply marker_prefix.
  - rewrite str_contains_cons. intros [H|H]%orb_true_iff Hm; [by eapply marker_prefix|].
    apply IH; [done|]. cbn [string_forallb] in Hm. by apply andb_true_iff in Hm as [_ Hm].
Qed.
Lemma not_in_marker secret m :
  distinct_from_markers secret = true -> string_forallb marker_char m = true -> str_contains secret m = false.
Proof.
  intros [_ H]%andb_true_iff Hm. destruct (str_contains secret m) eqn:E; [|done].
  apply (marker_contains _ _ E) in Hm. unfold string_existsb in H. apply negb_true_iff in H.
  assert (forall s, string_forallb marker_char s = true -> string_forallb (fun c => negb (negb (marker_char c))) s = true) as Hn.
  { induction s as [|c s IH]; [done|]. cbn. intros [-> ?]%andb_true_iff. by rewrite IH. }
  by rewrite Hn in H.
Qed.
Lemma distinct_nonempty secret : distinct_from_markers secret = true -> secret ≠ EmptyString.
Proof. by intros H ->. Qed.

Lemma replace_keeps_out s t x :
  distinct_from_markers t = true -> str_contains t x = false -> str_contains t (replace_secret x s) = false.
Proof.
  intros Ht Hx. destruct (str_contains t (replace_secret x s)) eqn:E; [|done]. rewrite <- Hx. symmetry.
  apply (contains_replace s _REDACTED_SECRET) in E; [done|by eexists|by exists "[REDACTED_SECRET"|by apply distinct_nonempty| |].
  - by apply andb_true_iff in Ht as [Ht _].
  - by apply not_in_marker.
Qed.
Lemma redacted_gone values : forall x,
  Forall (fun s => distinct_from_markers s = true) values ->
  Forall (fun s => str_contains s (foldl replace_secret x values) = false) values.
Proof.
  assert (forall values t x, distinct_from_markers t = true -> str_contains t x = false ->
    str_contains t (foldl replace_secret x values) = false) as Hkeep.
  { induction values0 as [|s l IH]; intros t x Ht Hx; [done|]. cbn [foldl]. apply IH; [done|]. by apply replace_keeps_out. }
  induction values as [|s values IH]; intros x Hd; [constructor|]. inversion Hd as [|? ? Hs Hv]; subst. cbn [foldl].
  constructor; [|by apply IH]. apply Hkeep; [done|].
  apply replaced_gone; [by eexists|by exists "[REDACTED_SECRET"|by apply distinct_nonempty| |by apply not_in_marker].
  by apply andb_true_iff in Hs as [Hs _].
Qed.
Lemma redact_text_gone values v s :
  Forall (fun s => distinct_from_markers s = true) values -> s ∈ values -> str_contains s (redact_text values v) = false.
Proof.
  intros Hd Hs. unfold redact_text. destruct (_ <? _).
  - apply not_in_marker; [|done]. rewrite Forall_forall in Hd. by apply Hd.
  - pose proof (redacted_gone (longest_first values) (_BEARER_HEADER_sub v)) as H.
    rewrite !Forall_forall in H. rewrite Forall_forall in Hd. unfold longest_first in *.
    apply H; [|by apply elem_of_sorted_by]. intros x Hx. apply Hd. by apply elem_of_sorted_by in Hx.
Qed.

(** ** Redacted values *)
(** Every string of the value and every key satisfies [p]. *)
Fixpoint texts_all (p : string -> bool) (v : pyval) : bool :=
  match v with
  | PStr s => p s
  | PList l => forallb (texts_all p) l
  | PDict d => forallb (fun kv => p kv.1 && texts_all p kv.2) d
  | _ => true
  end.
(** Containers of at most [n] entries, nested at most [depth] deep *)
Fixpoint bounded (n depth : nat) (v : pyval) : bool :=
  match v, depth with
  | PList l, S d => (length l <=? n)%nat && forallb (bounded n d) l
  | PDict m, S d => (length m <=? n)%nat && forallb (fun kv => bounded n d kv.2) m
  | PList _, O | PDict _, O => false
  | _, _ => true
  end.

Lemma Forall_take_fmap {A B} (P : B -> Prop) (f : A -> B) n l : Forall (fun x => P (f x)) l -> Forall P (take n (f <$> l)).
Proof. intros H. apply Forall_take. by apply Forall_fmap. Qed.

Section redacting.
Context (values : Redactor).

Lemma redact_texts (p : string -> bool) v :
  (forall s, p (redact_text values s) = true) -> (forall m, string_forallb marker_char m = true -> p m = true) ->
  forall depth, texts_all p (_redact values depth v) = true.
Proof.
  intros Hp Hm. induction v as [|b|z|s|s|l IH|d IH] using pyval_ind; intros depth; cbn [_redact];
    (destruct (_ <? _)%nat; [by apply Hm|]); try done; cbn [texts_all].
  - apply Hp.
  - rewrite forallb_Forall_true. apply Forall_app. split.
    + apply Forall_take_fmap. eapply Forall_impl; [exact IH|]. intros x Hx. apply Hx.
    + unfold truncated_items. destruct (_ <? _)%nat; repeat constructor. by apply Hm.
  - rewrite forallb_Forall_true. unfold truncated_keys.
    assert (Forall (fun kv => p kv.1 && texts_all p kv.2 = true)
      (foldl (fun acc kv => dict_set (redact_text values kv.1) kv.2 acc) []
         (take _MAX_REDACTION_ITEMS ((fun kv => (kv.1, _redact values (S depth) kv.2)) <$> d)))) as Hf.
    { apply dict_fold_Forall; [|constructor]. apply Forall_take_fmap. eapply Forall_impl; [exact IH|].
      intros x Hx. cbn. by rewrite Hp, Hx. }
    destruct (_ <? _)%nat; [|done]. apply dict_set_Forall; [|done]. cbn. rewrite Hm by done. done.
Qed.
Lemma redact_bounded_from v : forall depth, (depth <= S _MAX_REDACTION_DEPTH)%nat ->
  bounded (S _MAX_REDACTION_ITEMS) (S _MAX_REDACTION_DEPTH - depth) (_redact values depth v) = true.
Proof.
  induction v as [|b|z|s|s|l IH|d IH] using pyval_ind; intros depth Hd; cbn [_redact];
    (destruct (Nat.ltb_spec _MAX_REDACTION_DEPTH depth); [by destruct (_ - _)%nat|]); try (by destruct (_ - _)%nat).
  all: replace (S _MAX_REDACTION_DEPTH - depth)%nat with (S (S _MAX_REDACTION_DEPTH - S depth)) by lia; cbn [bounded];
    apply andb_true_iff; split.
  - apply Nat.leb_le. rewrite length_app. unfold truncated_items. pose proof (firstn_le_length _MAX_REDACTION_ITEMS (_redact values (S depth) <$> l)).
    destruct (_ <? _)%nat; cbn [length] in *; lia.
  - rewrite forallb_Forall_true. apply Forall_app. split.
    + apply Forall_take_fmap. eapply Forall_impl; [exact IH|]. intros x Hx. apply Hx. lia.
    + unfold truncated_items. destruct (_ <? _)%nat; repeat constructor. by destruct (_ - _)%nat.
  - apply Nat.leb_le. set (fold := foldl _ _ _). assert (length fold <= _MAX_REDACTION_ITEMS)%nat as Hl.
    { etransitivity; [apply length_dict_fold|]. cbn [length]. apply firstn_le_length. }
    unfold truncated_keys. destruct (_ <? _)%nat; [|lia]. etransitivity; [apply length_dict_set|]. lia.
  - rewrite forallb_Forall_true. unfold truncated_keys. set (fold := foldl _ _ _).
    assert (Forall (fun kv => bounded (S _MAX_REDACTION_ITEMS) (S _MAX_REDACTION_DEPTH - S depth) kv.2 = true) fold) as Hf.
    { apply dict_fold_Forall; [|constructor]. apply Forall_take_fmap. eapply Forall_impl; [exact IH|]. intros x Hx. cbn [fst snd].
      apply Hx. lia. }
    destruct (_ <? _)%nat; [|done]. apply dict_set_Forall; [|done]. by destruct (_ - _)%nat.
Qed.
End redacting.

(** No registered secret survives redaction: for secrets that the markers cannot spell, no string and no key anywhere in the
    redacted value contains one, whatever the value; the result has at most 257 entries per container and 33
    levels. *)
Theorem redact_hides_secrets values v secret
  (Hd : Forall (fun s => distinct_from_markers s = true) values) (Hs : secret ∈ values) :
  texts_all (fun t => negb (str_contains secret t)) (redact_fail_closed values v) = true
  /\ bounded 257 33 (redact_fail_closed values v) = true.
Proof.
  split; [|apply (redact_bounded_from values v 0); lia]. apply redact_texts.
  - intros s. by rewrite (redact_text_gone values s secret Hd Hs).
  - intros m Hm. rewrite Forall_forall in Hd. by rewrite (not_in_marker secret m (Hd _ Hs) Hm).
Qed.
Lemma redact_hides_secrets_witness :
  texts_all (fun t => negb (str_contains "sk-9f" t)) (redact_fail_closed ["sk-9f"; "pw1"] (PList [PStr "xsk-9fpw1"])) = true.
Proof.
  refine (proj1 (redact_hides_secrets ["sk-9f"; "pw1"] (PList [PStr "xsk-9fpw1"]) "sk-9f" _ _)).
  - repeat constructor.
  - left.
Defined.

(** Secrets the markers can spell, or that meet a marker's bracket, survive; numbers are not looked at. *)
Example marker_secrets_survive :
  str_contains "RED" (redact_text ["RED"] "RED") = true
  /\ str_contains "a[" (redact_text ["a["; "b1"] "ab1") = true
  /\ redact ["1234"] (PInt 1234) = PInt 1234.
Proof. vm_compute. done. Qed.
