(* ===== verification/AuditLog.v ===== *)
(** * The audit logger ([audit/logger.py])

    [AuditLogger] writes events under an identity binding: it redacts them, verifies the anchor, inserts the row and
    moves the anchor.  Request-scoped loggers share it with a binding of their own.  The copy of an event that goes to the log file,
    whose failures are ignored, and the archives of that file are not modelled. *)
From Stdlib Require Import Ascii.
From S2P Require Import Prelude PyStr Json PyValue Sha256 AuditChain AuditAnchor SecretRedaction SchedulerStore.
Open Scope Z_scope.

Definition RESULT_SUCCESS : string := "success".
Definition RESULT_DENIED : string := "denied".
Definition RESULT_ERROR : string := "error".
Definition RESULT_APPROVED : string := "approved".

(** ** State *)
Record AuditBinding := MkBinding {
  bd_principal_id : string; bd_project_id : string; bd_policy_digest : option string; bd_runtime_id : option string;
  bd_source_transport : option string
}.
(** [AuditLogger]: its identity and its redactor; the database, the anchor and its file are the world. *)
Record AuditLogger := MkLogger {
  lg_principal_id : string; lg_runtime_id : option string; lg_policy_digest : option string; lg_project_id : string;
  lg_secret_redactor : option Redactor
}.
Record AuditWorld := MkWorld { w_db : AuditDb; w_anchor : option Anchor; w_fs : AnchorFs }.
(** What the environment contributes to one event: the row's time, and the time and outcome of the anchor's two possible writes *)
Record LogEnv := MkLogEnv {
  le_created_at : string; le_verify_now : string; le_verify_write : WriteOutcome; le_observe_now : string;
  le_observe_write : WriteOutcome
}.
(** The arguments of an event besides its identity *)
Record AuditEvent := MkEvent {
  ev_action : string; ev_target : string; ev_result : string; ev_detail : option (list (string * pyval));
  ev_session_id : option string; ev_task_id : option string; ev_operation_id : option string;
  ev_authority_generation : option Z; ev_source_transport : option string
}.

(** [_sanitize_event]: action, target, result, detail and transport *)
Definition _sanitize_event (lg : AuditLogger) (action target result : string) (detail : option (list (string * pyval)))
    (source_transport : option string) : string * string * string * pyval * option string :=
  let detail' := PDict (default [] detail) in
  match lg_secret_redactor lg with
  | None => (action, target, result, detail', source_transport)
  | Some r => (redact_text r action, redact_text r target, redact_text r result, redact_fail_closed r detail',
               redact_text r <$> source_transport)
  end.
(** The row of an event *)
Definition event_fields (lg : AuditLogger) (binding : AuditBinding) (e : AuditEvent) : AuditFields :=
  let transport := match ev_source_transport e with Some t => Some t | None => bd_source_transport binding end in
  let '(action, target, result, detail, safe_transport) :=
    _sanitize_event lg (ev_action e) (ev_target e) (ev_result e) (ev_detail e) transport in
  MkAuditFields action target result (Some (json_dumps_text detail)) (ev_session_id e) (bd_principal_id binding)
    (bd_runtime_id binding) (ev_task_id e) (ev_operation_id e) (bd_policy_digest binding) (ev_authority_generation e)
    safe_transport (bd_project_id binding).

Definition world_verify (env : LogEnv) (w : AuditWorld) : res unit * AuditWorld :=
  match w_anchor w with
  | None => (Ok tt, w)
  | Some a => let '(o, a', fs') := verify a (quiet (w_db w)) (le_verify_now env) (le_verify_write env) (w_fs w) in
              (o, MkWorld (w_db w) (Some a') fs')
  end.
Definition world_observe (env : LogEnv) (w : AuditWorld) : res unit * AuditWorld :=
  match w_anchor w with
  | None => (Ok tt, w)
  | Some a => let '(o, a', fs') := observe a (quiet (w_db w)) (le_observe_now env) (le_observe_write env) (w_fs w) in
              (o, MkWorld (w_db w) (Some a') fs')
  end.
(** [verify_anchor] *)
Definition verify_anchor (env : LogEnv) (w : AuditWorld) : res unit * AuditWorld := world_verify env w.
Definition _log_for_binding (lg : AuditLogger) (binding : AuditBinding) (e : AuditEvent) (env : LogEnv) (w : AuditWorld)
    : res Z * AuditWorld :=
  let f := event_fields lg binding e in
  match world_verify env w with
  | (Raise x, w1) => (if isinstance (exn_cls x) AuditAnchorError then Ok (-1) else Raise x, w1)
  | (Ok _, w1) =>
      match insert_audit_log (le_created_at env) f (w_db w1) with
      | (Raise _, db') => (Ok (-1), MkWorld db' (w_anchor w1) (w_fs w1))
      | (Ok row_id, db') =>
          match world_observe env (MkWorld db' (w_anchor w1) (w_fs w1)) with
          | (Raise _, w2) => (Ok (-1), w2)
          | (Ok _, w2) => (Ok row_id, w2)
          end
      end
  end.

(** ** Loggers *)
Definition root_binding (lg : AuditLogger) (source_transport : option string) : AuditBinding :=
  MkBinding (lg_principal_id lg) (lg_project_id lg) (lg_policy_digest lg) (lg_runtime_id lg) source_transport.
(** [AuditLogger.log] *)
Definition log (lg : AuditLogger) (e : AuditEvent) : LogEnv -> AuditWorld -> res Z * AuditWorld :=
  _log_for_binding lg (root_binding lg (ev_source_transport e)) e.
(** [AuditLogger.bind] *)
Definition bind (lg : AuditLogger) (principal_id project_id : string) (policy_digest runtime_id source_transport : option string)
    : res AuditBinding :=
  raise_if (str_empty (py_strip principal_id)) ValueError "audit binding requires a non-empty principal_id" ;;*
  raise_if (negb (bool_decide (project_id = lg_project_id lg))) ValueError
    "audit binding project_id does not match root logger" ;;*
  raise_if (match policy_digest, lg_policy_digest lg with Some p, Some q => negb (bool_decide (p = q)) | _, _ => false end)
    ValueError "audit binding policy_digest does not match root logger" ;;*
  Ok (MkBinding principal_id project_id (match policy_digest with None => lg_policy_digest lg | _ => policy_digest end)
        runtime_id source_transport).
(** [BoundAuditLogger.log] *)
Definition bound_log (lg : AuditLogger) (b : AuditBinding) (e : AuditEvent) : LogEnv -> AuditWorld -> res Z * AuditWorld :=
  _log_for_binding lg b
    (MkEvent (ev_action e) (ev_target e) (ev_result e) (ev_detail e) (ev_session_id e) (ev_task_id e) (ev_operation_id e)
       (ev_authority_generation e)
       (match ev_source_transport e with Some t => Some t | None => bd_source_transport b end)).

(** The context arguments of the typed helpers *)
Record EventContext := MkContext {
  cx_session_id : option string; cx_task_id : option string; cx_operation_id : option string;
  cx_authority_generation : option Z; cx_source_transport : option string
}.
Definition in_context (cx : EventContext) (action target result : string) (detail : option (list (string * pyval))) : AuditEvent :=
  MkEvent action target result detail (cx_session_id cx) (cx_task_id cx) (cx_operation_id cx)
    (cx_authority_generation cx) (cx_source_transport cx).
(** The events of [log_permission], [log_tool] and [log_security_event], of either logger *)
Definition permission_event (tool_name target : string) (approved : bool) (reason : string) (cx : EventContext) : AuditEvent :=
  in_context cx tool_name target (if approved then RESULT_APPROVED else RESULT_DENIED) (Some [("reason", PStr reason)]).
Definition tool_event (tool_name target : string) (success : bool) (duration_ms : Z) (error : string) (cx : EventContext) : AuditEvent :=
  in_context cx tool_name target (if success then RESULT_SUCCESS else RESULT_ERROR)
    (Some [("duration_ms", PInt duration_ms); ("error", PStr error)]).
Definition security_event (event_type tool_name reason : string) (detail : option (list (string * pyval))) (cx : EventContext)
    : AuditEvent :=
  in_context cx ("security:" +:+ event_type) (tool_name +:+ ":" +:+ reason) RESULT_DENIED detail.

(** ** Queries *)
Definition parse_detail (raw : option string) : list (string * pyval) :=
  match raw with
  | None => []
  | Some s =>
      if str_empty s then [] else
      match loads default_object_hook default_constant_hook s with
      | Ok (PDict d) => d
      | Ok v => [("value", v)]
      | Raise _ => [("raw", PStr s)]
      end
  end.
Record AuditEntry := MkEntry { en_id : Z; en_detail : list (string * pyval); en_created_at : string; en_fields : AuditFields }.
Definition from_row (r : AuditRow) : AuditEntry :=
  MkEntry (ar_id r) (parse_detail (af_detail (ar_fields r))) (ar_created_at r) (ar_fields r).
(** The bounds of a query are texts; a [datetime] is formatted by the parameter [strftime]. *)
Inductive TimeBound := TimeText (s : string) | TimeStamp (t : pydatetime).
Section query.
Context (strftime : pydatetime -> string).
Definition _normalize_time (t : option TimeBound) : option string :=
  match t with None => None | Some (TimeText s) => Some s | Some (TimeStamp d) => Some (strftime d) end.
Definition _query_for_binding (b : AuditBinding) (action result : option string) (since_ until_ : option TimeBound) (limit : Z)
    (principal_override : option (option string)) (db : AuditDb) : list AuditEntry :=
  from_row <$> query_audit_logs
    (MkAuditQuery action result (_normalize_time since_) (_normalize_time until_) limit
       (match principal_override with None => Some (bd_principal_id b) | Some p => p end) (Some (bd_project_id b))) db.
(** [AuditLogger.query] *)
Definition query (lg : AuditLogger) (action result : option string) (since_ until_ : option TimeBound) (limit : Z)
    (principal_id : option string) (db : AuditDb) : list AuditEntry :=
  let b := root_binding lg None in
  if bool_decide (principal_id = Some "__default__") || bool_decide (principal_id = Some (lg_principal_id lg))
  then _query_for_binding b action result since_ until_ limit None db
  else _query_for_binding b action result since_ until_ limit (Some principal_id) db.
(** [BoundAuditLogger.query] *)
Definition bound_query (b : AuditBinding) (action result : option string) (since_ until_ : option TimeBound) (limit : Z)
    : AuditDb -> list AuditEntry := _query_for_binding b action result since_ until_ limit None.
End query.

(** ** The anchor's state always fits *)
Lemma escape_length s : (String.length (escape s) <= 6 * String.length s)%nat.
Proof.
  induction s as [|c s IH]; [done|]. cbn [escape String.length]. rewrite str_length_app.
  assert (String.length (escape_char c) <= 6)%nat by (unfold escape_char; repeat case_match; cbn [String.length]; lia). lia.
Qed.
Lemma encode_str_length s : (String.length (encode_str s) <= 6 * String.length s + 2)%nat.
Proof.
  unfold encode_str. cbn [String.length]. rewrite str_length_app. cbn [String.length]. pose proof (escape_length s). lia.
Qed.
Lemma dec_digits_length fuel : forall n acc, (String.length (dec_digits fuel n acc) <= fuel + String.length acc)%nat.
Proof.
  induction fuel as [|f IH]; intros n acc; cbn [dec_digits]; [lia|].
  case_match; [cbn [String.length]; lia|]. etransitivity; [apply IH|]. cbn [String.length]. lia.
Qed.
Lemma dec_length z : 0 <= z < 2 ^ 63 -> (String.length (Z_to_dec z) <= 64)%nat.
Proof.
  intros Hz. unfold Z_to_dec. destruct (Z.ltb_spec z 0); [lia|]. unfold nat_to_dec.
  etransitivity; [apply dec_digits_length|]. cbn [String.length].
  assert (Z.log2 z < 63) by (destruct (Z.eq_dec z 0) as [->|]; [done|apply Z.log2_lt_pow2; lia]).
  pose proof (Z.log2_nonneg z). lia.
Qed.
Definition anchor_sane (a : Anchor) : Prop :=
  valid_utf8 (an_project_id a) = true /\ byte_length (an_project_id a) <= 8192 /\ is_sha256_hex (an_database_id a) = true.
Definition time_sane (now : string) : Prop := valid_utf8 now = true /\ (String.length now <= 64)%nat.
Lemma sha_hex_length s : is_sha256_hex s = true -> String.length s = 64%nat.
Proof. unfold is_sha256_hex. intros [H _]%andb_true_iff. by apply Nat.eqb_eq in H. Qed.
Lemma state_text_eq a head now :
  state_text a head now =
  "{" +:+ join ", " [ encode_str "database_id" +:+ ": " +:+ encode_str (an_database_id a);
                      encode_str "format" +:+ ": 1";
                      encode_str "head_hash" +:+ ": " +:+ encode_str (head_hash_of head);
                      encode_str "head_id" +:+ ": " +:+ Z_to_dec (head_id_of head);
                      encode_str "project_id" +:+ ": " +:+ encode_str (an_project_id a);
                      encode_str "updated_at" +:+ ": " +:+ encode_str now ] +:+ "}".
Proof. reflexivity. Qed.
Lemma small_anchor_fits a head now :
  anchor_sane a -> time_sane now ->
  (forall h, head = Some h -> 0 < hd_id h < 2 ^ 63 /\ is_sha256_hex (hd_hash h) = true) -> anchor_fits a head now.
Proof.
  intros (Hp & Hlen & Hd) (Hn & Hnlen) Hh. split; [done..| |].
  - intros h Hhd. destruct (Hh h Hhd) as [? ?]. split; [lia|done].
  - assert (String.length (head_hash_of head) <= 64)%nat as H1.
    { destruct head as [h|]; cbn; [|lia]. by rewrite (sha_hex_length _ (proj2 (Hh h eq_refl))). }
    assert (String.length (Z_to_dec (head_id_of head)) <= 64)%nat as H2.
    { apply dec_length. destruct head as [h|]; cbn; [|lia]. pose proof (proj1 (Hh h eq_refl)). lia. }
    pose proof (sha_hex_length _ Hd) as H3. rewrite state_text_eq. unfold byte_length, size_limit in *. cbn [join].
    rewrite !str_length_app.
    pose proof (encode_str_length (an_database_id a)). pose proof (encode_str_length (an_project_id a)).
    pose proof (encode_str_length (head_hash_of head)). pose proof (encode_str_length now).
    pose proof (encode_str_length "database_id") as K1. pose proof (encode_str_length "format") as K2.
    pose proof (encode_str_length "head_hash") as K3. pose proof (encode_str_length "head_id") as K4.
    pose proof (encode_str_length "project_id") as K5. pose proof (encode_str_length "updated_at") as K6.
    cbn [String.length] in *. lia.
Qed.

(** ** Recording *)
Lemma history_ids db : audit_history db -> Forall (fun r => ar_id r < 2 ^ 63) (ad_rows db).
Proof.
  induction 1 as [s|now f db H IH Hf|s db H IH]; [constructor| |done].
  unfold insert_audit_log, transaction. destruct (_audit_row_hash _ _) as [h|]; [|done].
  unfold insert_audit_row. destruct (negb _); [done|]. destruct (match _ with Some _ => _ | None => _ end); [done|].
  destruct (str_empty h && _); [done|]. destruct (Z.leb_spec (2 ^ 63) (next_id db)); [done|]. cbn [snd ad_rows].
  apply Forall_app. split; [done|]. repeat constructor. cbn. lia.
Qed.
Lemma history_fits a db now : audit_history db -> anchor_sane a -> time_sane now -> anchor_fits a (current_head db) now.
Proof.
  intros Hdb Ha Hn. apply small_anchor_fits; [done..|]. intros h Hh. unfold current_head in Hh.
  destruct (last (ad_rows db)) as [r|] eqn:El; [|done]. injection Hh as <-. cbn [hd_id hd_hash head_of].
  apply last_Some_elem_of in El. pose proof (history_ids db Hdb) as H1. destruct (history_positive db Hdb) as [_ H2].
  rewrite Forall_forall in H1, H2. specialize (H1 r El). specialize (H2 r El). split; [done|apply sha256_hexdigest_form].
Qed.

(** A world in order: the log is as its writers recorded it, and the anchor's file is empty or holds the head of one of its rows. *)
Definition anchor_ready (a : Anchor) (fs : AnchorFs) (db : AuditDb) : Prop :=
  anchor_sane a /\ (_read_state a fs = Ok None \/ anchored_in a fs db).
Definition audited (w : AuditWorld) : Prop :=
  audit_history (w_db w) /\ forall a, w_anchor w = Some a -> anchor_ready a (w_fs w) (w_db w).
(** The anchor holds the current head. *)
Definition anchored_head (w : AuditWorld) : Prop := forall a, w_anchor w = Some a -> anchored_now a (w_fs w) (w_db w).
Definition quiet_env (env : LogEnv) : Prop :=
  le_verify_write env = Written /\ le_observe_write env = Written
  /\ time_sane (le_verify_now env) /\ time_sane (le_observe_now env).

Lemma anchored_now_in a fs db : anchored_now a fs db -> anchored_in a fs db.
Proof.
  unfold anchored_now, anchored_in, current_head. destruct (last (ad_rows db)) as [r|] eqn:E; cbn; [|by left].
  intros H. right. exists r. split; [by apply last_Some_elem_of|done].
Qed.
Lemma anchored_in_extends a fs db db' :
  (forall r, r ∈ ad_rows db -> r ∈ ad_rows db') -> anchored_in a fs db -> anchored_in a fs db'.
Proof. intros Hsub [H|(r & Hr & H)]; [by left|right]. exists r. auto. Qed.
Lemma marked_check a replay db now fs :
  audit_history db -> anchor_ready a fs db -> time_sane now ->
  exists a' fs', mark_verified (_check a replay (quiet db) now Written fs) = (Ok tt, a', fs')
    /\ anchored_now a' fs' db /\ anchor_ready a' fs' db.
Proof.
  intros Hdb [Hs Hr] Hn. destruct (check_accepts a replay db now fs Hdb (history_fits a db now Hdb Hs Hn) Hr)
    as (a' & fs' & -> & Hnow & [Hp Hd] & _). cbn [mark_verified].
  assert (anchored_now (set_verified a') fs' db) as Hnow' by (by eapply anchored_same; [..|exact Hnow]).
  eexists _, _. split; [done|]. split; [done|]. split; [|right; by apply anchored_now_in].
  unfold anchor_sane in *. cbn. by rewrite <- Hp, <- Hd.
Qed.
Lemma world_check_accepts env w : audited w -> quiet_env env ->
  (exists w', world_verify env w = (Ok tt, w') /\ w_db w' = w_db w /\ audited w' /\ anchored_head w') /\
  (exists w', world_observe env w = (Ok tt, w') /\ w_db w' = w_db w /\ audited w' /\ anchored_head w').
Proof.
  destruct w as [db [a|] fs]; intros [Hdb Ha] (Hw1 & Hw2 & Hn1 & Hn2); cbn [w_db w_anchor w_fs] in *.
  - specialize (Ha a eq_refl). unfold world_verify, world_observe, verify, observe. cbn [w_db w_anchor w_fs].
    rewrite Hw1, Hw2. split.
    + destruct (marked_check a (negb (an_verified a)) db (le_verify_now env) fs Hdb Ha Hn1) as (a' & fs' & -> & Hnow & Hready).
      eexists. split; [done|]. split; [done|]. by split; [split; [done|]|]; intros ? [= <-].
    + destruct (marked_check a false db (le_observe_now env) fs Hdb Ha Hn2) as (a' & fs' & -> & Hnow & Hready).
      eexists. split; [done|]. split; [done|]. by split; [split; [done|]|]; intros ? [= <-].
  - split; eexists; (split; [done|]); (split; [done|]); (split; [by split|done]).
Qed.

Lemma event_fields_stamped lg b e : str_empty (bd_principal_id b) = false -> stamped (event_fields lg b e).
Proof. intros Hp. unfold event_fields. destruct (_sanitize_event _ _ _ _ _ _) as [[[[? ?] ?] ?] ?]. split; [done|by eexists]. Qed.

Lemma log_for_binding_records lg b e env w
  (Hw : audited w) (Henv : quiet_env env) (Hp : str_empty (bd_principal_id b) = false) :
  let f := event_fields lg b e in
  exists w', audited w' /\ anchored_head w' /\
    match insert_audit_log (le_created_at env) f (w_db w) with
    | (Ok row_id, db') =>
        _log_for_binding lg b e env w = (Ok row_id, w') /\ w_db w' = db' /\ row_id = next_id (w_db w)
        /\ exists link, ad_rows db' = ad_rows (w_db w) ++ [MkAuditRow row_id f (le_created_at env) link]
    | (Raise _, _) => _log_for_binding lg b e env w = (Ok (-1), w') /\ w_db w' = w_db w
    end.
Proof.
  intros f. destruct (world_check_accepts env w Hw Henv) as [(w1 & Hv & Hdb1 & Hw1 & Hh1) _].
  unfold _log_for_binding. fold f. rewrite Hv, Hdb1.
  destruct (insert_audit_log (le_created_at env) f (w_db w)) as [o db'] eqn:E. pose proof E as Einv.
  apply insert_audit_log_inv in Einv as [(x & -> & ->)|(-> & _ & Hdb')].
  { exists w1. rewrite <- Hdb1. by destruct w1. }
  assert (audited (MkWorld db' (w_anchor w1) (w_fs w1))) as Hw2.
  { destruct Hw as [Hh _], Hw1 as [Hh1' Ha1]. split; cbn [w_db w_anchor w_fs].
    - replace db' with (insert_audit_log (le_created_at env) f (w_db w)).2 by (by rewrite E).
      apply ah_insert; [done|]. by apply event_fields_stamped.
    - intros a Ha. destruct (Ha1 a Ha) as [Hs _]. split; [done|]. right.
      eapply anchored_in_extends; [|apply anchored_now_in; by apply Hh1]. rewrite Hdb1, Hdb'. cbn. set_solver. }
  destruct (world_check_accepts env _ Hw2 Henv) as [_ (w2 & Ho & Hdb2 & Hw3 & Hh2)]. rewrite Ho.
  exists w2. split; [done|]. split; [done|]. split; [done|]. split; [done|]. split; [done|].
  rewrite Hdb'. by eexists.
Qed.
(** C20. Recording, on every branch.  For a world in order ([audited]: a log with a recorded history, and an anchor that is
    ready for it), a binding with a non-empty principal, and an environment whose anchor writes succeed at sane times: an
    event whose row the table takes gets its new id, the log grows by exactly that row and the anchor holds the new head;
    an event whose row the table refuses yields -1 and leaves the log alone.  Either way the world stays in order.
    (With an empty principal it need not: [nameless_logger_locks_out].) *)
Theorem log_records lg b e env w
  (Hw : audited w) (Henv : quiet_env env) (Hp : str_empty (bd_principal_id b) = false) :
  let f := event_fields lg b e in
  exists w', audited w' /\ anchored_head w' /\
    match insert_audit_log (le_created_at env) f (w_db w) with
    | (Ok row_id, db') =>
        _log_for_binding lg b e env w = (Ok row_id, w') /\ w_db w' = db' /\ row_id = next_id (w_db w)
        /\ exists link, ad_rows db' = ad_rows (w_db w) ++ [MkAuditRow row_id f (le_created_at env) link]
    | (Raise _, _) => _log_for_binding lg b e env w = (Ok (-1), w') /\ w_db w' = w_db w
    end.
Proof. by apply log_for_binding_records. Qed.

(** ** An id is only returned for a chain that continues the anchored one *)
Lemma world_observe_stored env w w' a k hash :
  w_anchor w = Some a -> anchored a (w_fs w) k hash -> 0 < k -> world_observe env w = (Ok tt, w') ->
  w_db w' = w_db w /\ verify_audit_chain_since k (w_db w) = Ok []
  /\ exists h, get_audit_chain_head (Some k) (w_db w) = Ok (Some h) /\ hd_hash h = hash.
Proof.
  unfold world_observe, observe, mark_verified. intros -> Ha Hk.
  destruct (_check a false (quiet (w_db w)) _ _ _) as [[[[]|x] a'] fs'] eqn:E; [|done]. intros [= <-].
  destruct (check_stored a (w_fs w) k hash Ha Hk false _ _ _ _ _ E) as (_ & h & Hh & Heq & Hsuf & _).
  split; [done|]. split; [by apply Hsuf|]. by exists h.
Qed.
Lemma verify_keeps_anchor env w w1 : world_verify env w = (Ok tt, w1) -> w_db w1 = w_db w.
Proof.
  unfold world_verify. destruct (w_anchor w) as [a|]; [|by intros [= <-]].
  destruct (verify _ _ _ _ _) as [[o a'] fs']. by intros [= _ <-].
Qed.

(** Whatever happened to the table, the anchor file and the writes before: when an event gets a row id, the last row of the table
    is that event's, and the head the anchor held after verification is still a row's head, with every link from that
    row to the new one intact. *)
Theorem returned_id_is_chained lg b e env w row_id w'
  (Hlog : _log_for_binding lg b e env w = (Ok row_id, w')) (Hid : row_id ≠ -1) :
  (exists r, last (ad_rows (w_db w')) = Some r /\ ar_id r = row_id /\ ar_fields r = event_fields lg b e) /\
  forall a k hash, w_anchor (world_verify env w).2 = Some a -> anchored a (w_fs (world_verify env w).2) k hash -> 0 < k ->
    verify_audit_chain_since k (w_db w') = Ok []
    /\ exists h, get_audit_chain_head (Some k) (w_db w') = Ok (Some h) /\ hd_hash h = hash.
Proof.
  unfold _log_for_binding in Hlog. destruct (world_verify env w) as [[[]|x] w1] eqn:Hv.
  2: { destruct (isinstance _ _); [|done]. by injection Hlog as <- _. }
  cbn [snd]. destruct (insert_audit_log _ _ (w_db w1)) as [o db'] eqn:E.
  apply insert_audit_log_inv in E as [(x & -> & ->)|(-> & _ & Hdb')]; [by injection Hlog as <- _|].
  destruct (world_observe env (MkWorld db' (w_anchor w1) (w_fs w1))) as [[[]|x] w2] eqn:Ho; [|by injection Hlog as <- _].
  injection Hlog as <- <-. assert (w_db w2 = db') as Hw2.
  { unfold world_observe in Ho. cbn [w_anchor w_db w_fs] in Ho. destruct (w_anchor w1) as [a|]; [|by injection Ho as <-].
    destruct (observe _ _ _ _ _) as [[o a'] fs']. by injection Ho as _ <-. }
  split.
  - rewrite Hw2, Hdb'. cbn [ad_rows]. rewrite last_snoc. by eexists.
  - intros a k hash Ha Hanch Hk. rewrite Hw2.
    destruct (world_observe_stored env (MkWorld db' (w_anchor w1) (w_fs w1)) w2 a k hash Ha Hanch Hk Ho) as (_ & Hs & Hh). done.
Qed.

(** ** Scoped queries *)
Lemma elem_of_sql_limit {A} n (l : list A) x : x ∈ sql_limit n l -> x ∈ l.
Proof. unfold sql_limit. destruct (_ <? _); [done|]. intros (i & H & _)%elem_of_take. by apply list_elem_of_lookup_2 in H. Qed.
Lemma StronglySorted_rev {A} (R : A -> A -> Prop) l : StronglySorted R l -> StronglySorted (flip R) (rev l).
Proof.
  induction 1 as [|x l Hs IH Hf]; [constructor|]. cbn [rev]. clear Hs.
  assert (Forall (fun y => R x y) (rev l)) as Hr by (by apply Forall_rev). revert IH Hr. generalize (rev l). clear.
  induction l as [|y l IH]; intros Hs Hf; cbn [app]; [repeat constructor|].
  apply StronglySorted_inv in Hs as [Hs Hy]. inversion Hf as [|? ? Hxy Hl]; subst. constructor; [by apply IH|].
  apply Forall_app. split; [done|]. by repeat constructor.
Qed.
Lemma StronglySorted_take {A} (R : A -> A -> Prop) n l : StronglySorted R l -> StronglySorted R (take n l).
Proof.
  intros H. revert n. induction H as [|x l Hs IH Hf]; intros [|n]; cbn [take]; try constructor; [done|].
  by apply Forall_take.
Qed.
Lemma StronglySorted_sql_limit {A} (R : A -> A -> Prop) n l : StronglySorted R l -> StronglySorted R (sql_limit n l).
Proof. unfold sql_limit. destruct (_ <? _); [done|]. apply StronglySorted_take. Qed.
(** [x] is listed before [y]: it is not older. *)
Definition not_older (x y : AuditRow) : Prop := py_leb (time_key y) (time_key x) = true.
Lemma query_audit_logs_spec q db :
  Forall (fun r => r ∈ ad_rows db /\ query_matches q r = true) (query_audit_logs q db)
  /\ StronglySorted not_older (query_audit_logs q db)
  /\ (0 <= q_limit q -> Z.of_nat (length (query_audit_logs q db)) <= q_limit q)
  /\ (q_limit q < 0 -> forall r, r ∈ ad_rows db -> query_matches q r = true -> r ∈ query_audit_logs q db).
Proof.
  unfold query_audit_logs. set (l := List.filter _ _). split; [|split; [|split]].
  - apply Forall_forall. intros r Hr%elem_of_sql_limit. apply list_elem_of_In, in_rev, list_elem_of_In, elem_of_sorted_by in Hr.
    apply list_elem_of_In, List.filter_In in Hr as [Hr Hm]. split; [by apply list_elem_of_In|done].
  - apply StronglySorted_sql_limit. apply (StronglySorted_rev (flip not_older)). apply (sorted_by_sorted time_key).
  - intros Hn. unfold sql_limit. destruct (Z.ltb_spec (q_limit q) 0); [lia|]. rewrite length_take. lia.
  - intros Hn r Hr Hm. unfold sql_limit. destruct (Z.ltb_spec (q_limit q) 0); [|lia].
    apply list_elem_of_In, (proj1 (in_rev _ _)), list_elem_of_In, elem_of_sorted_by, list_elem_of_In, List.filter_In.
    split; [by apply list_elem_of_In|done].
Qed.

(** A request-scoped query returns rows of its own principal and project only, newest first and at most as many as asked
    for; without a limit it returns every row of that scope that the filters match. *)
Theorem bound_query_scoped strftime b action result since_ until_ limit db :
  exists rows, bound_query strftime b action result since_ until_ limit db = from_row <$> rows
  /\ Forall (fun r => r ∈ ad_rows db /\ af_principal_id (ar_fields r) = bd_principal_id b
                      /\ af_project_id (ar_fields r) = bd_project_id b) rows
  /\ StronglySorted not_older rows
  /\ (0 <= limit -> Z.of_nat (length rows) <= limit)
  /\ (limit < 0 -> forall r, r ∈ ad_rows db -> r ∈ rows <->
       query_matches (MkAuditQuery action result (_normalize_time strftime since_) (_normalize_time strftime until_) limit
                        (Some (bd_principal_id b)) (Some (bd_project_id b))) r = true).
Proof.
  eexists. split; [done|]. set (q := MkAuditQuery _ _ _ _ _ _ _).
  destruct (query_audit_logs_spec q db) as (Hall & Hs & Hl & Hc). split; [|split; [done|split; [done|]]].
  - eapply Forall_impl; [exact Hall|]. intros r [Hr Hm]. unfold query_matches in Hm. cbn [q_principal_id q_project_id q] in Hm.
    apply andb_true_iff in Hm as [[_ Hp]%andb_true_iff Hj]. cbn in Hp, Hj.
    apply bool_decide_eq_true in Hp, Hj. done.
  - intros Hn r Hr. split; [|by apply Hc]. rewrite Forall_forall in Hall. intros H. by apply Hall in H as [_ H].
Qed.

(** ** Details *)
Lemma redact_plain values v : plain v = true -> forall depth, plain (_redact values depth v) = true.
Proof.
  induction v as [|b|z|s|s|l IH|d IH] using pyval_ind; intros Hp depth; cbn [_redact];
    (destruct (_ <? _)%nat; [done|]); try done; cbn [plain] in *.
  - rewrite forallb_Forall_true in Hp. rewrite forallb_Forall_true. apply Forall_app. split.
    + apply Forall_take_fmap. rewrite Forall_forall in *. naive_solver.
    + unfold truncated_items. destruct (_ <? _)%nat; repeat constructor.
  - apply andb_true_iff in Hp as [_ Hp]. rewrite forallb_Forall_true in Hp. apply andb_true_iff. split.
    + apply bool_decide_eq_true. unfold truncated_keys.
      destruct (_ <? _)%nat; [apply dict_set_nodup|]; by apply dict_fold_nodup; constructor.
    + rewrite forallb_Forall_true. unfold truncated_keys. set (fold := foldl _ _ _).
      assert (Forall (fun kv => plain kv.2 = true) fold) as Hf.
      { apply dict_fold_Forall; [|constructor]. apply Forall_take_fmap. rewrite Forall_forall in *. naive_solver. }
      destruct (_ <? _)%nat; [|done]. by apply dict_set_Forall.
Qed.
Lemma redact_dict values d : exists d', redact_fail_closed values (PDict d) = PDict d'.
Proof. by eexists. Qed.
Lemma texts_all_canon p v : texts_all p v = true -> texts_all p (canon v) = true.
Proof.
  induction v as [|b|z|s|s|l IH|d IH] using pyval_ind; try done; cbn [texts_all canon]; rewrite !forallb_Forall_true; intros H.
  - apply Forall_fmap. rewrite Forall_forall in *. naive_solver.
  - apply (Forall_sorted_by fst), Forall_fmap, Forall_forall. intros [k v] Hkv. cbn.
    rewrite Forall_forall in H, IH. specialize (H _ Hkv). cbn in H. apply andb_true_iff in H as [-> H].
    exact (IH (k, v) Hkv H).
Qed.
(** The stored text of a detail parses back to the detail with its keys sorted. *)
Lemma parse_dumps d : plain (PDict d) = true ->
  PDict (parse_detail (Some (json_dumps_text (PDict d)))) = canon (PDict d).
Proof.
  intros Hp. unfold parse_detail. change (json_dumps_text (PDict d)) with (dumpsw " " " " (PDict d)).
  rewrite (loads_dumpsw " " " " one_space one_space _ _ default_object_hook_nodup _ Hp).
  by rewrite dumpsw_dict.
Qed.

(** C23. What a query shows of a redacted event.  For registered secrets that the markers cannot spell, and a detail without
    floating-point numbers and duplicate keys ([plain]): neither the action, target, result and transport columns of the
    row nor any string or key of the detail parsed back from it contains a registered secret; the parsed detail is the
    redacted one with its keys sorted.  The other columns (session, task and operation identity, principal, project,
    policy digest) are written as they are. *)
Theorem logged_event_hides_secrets lg b e values secret row_id now link
  (Hr : lg_secret_redactor lg = Some values) (Hd : Forall (fun s => distinct_from_markers s = true) values)
  (Hs : secret ∈ values) (Hp : plain (PDict (default [] (ev_detail e))) = true) :
  let entry := from_row (MkAuditRow row_id (event_fields lg b e) now link) in
  PDict (en_detail entry) = canon (redact values (PDict (default [] (ev_detail e))))
  /\ texts_all (fun t => negb (str_contains secret t)) (PDict (en_detail entry)) = true
  /\ Forall (fun t => str_contains secret t = false)
       [af_action (en_fields entry); af_target (en_fields entry); af_result (en_fields entry)]
  /\ forall t, af_source_transport (en_fields entry) = Some t -> str_contains secret t = false.
Proof.
  intros entry. set (d := PDict (default [] (ev_detail e))) in *.
  assert (PDict (en_detail entry) = canon (redact values d)) as Hdet.
  { unfold entry, from_row, event_fields, _sanitize_event. rewrite Hr. cbn [en_detail ar_fields af_detail].
    destruct (redact_dict values (default [] (ev_detail e))) as [d' Hd']. fold d in Hd'. fold d.
    unfold redact_fail_closed in *. rewrite Hd'. apply parse_dumps. rewrite <- Hd'. by apply redact_plain. }
  split; [done|]. rewrite Hdet. split; [|split].
  - apply texts_all_canon, redact_texts.
    + intros s. by rewrite (redact_text_gone values s secret Hd Hs).
    + intros m Hm. rewrite Forall_forall in Hd. by rewrite (not_in_marker secret m (Hd _ Hs) Hm).
  - unfold entry, from_row, event_fields, _sanitize_event. rewrite Hr. cbn.
    repeat constructor; by apply redact_text_gone.
  - unfold entry, from_row, event_fields, _sanitize_event. rewrite Hr. cbn. intros t.
    destruct (match ev_source_transport e with Some _ => _ | None => _ end) as [u|]; [|done].
    intros [= <-]. by apply redact_text_gone.
Qed.

(** ** Bindings

    A binding keeps the project of the root logger, never replaces its policy, and has a principal the chain can replay. *)
Lemma strip_nonempty s : str_empty (py_strip s) = false -> str_empty s = false.
Proof. by destruct s. Qed.
Lemma bind_Ok lg principal project policy runtime transport b :
  bind lg principal project policy runtime transport = Ok b ->
  bd_project_id b = lg_project_id lg /\ str_empty (bd_principal_id b) = false
  /\ (is_Some (lg_policy_digest lg) -> bd_policy_digest b = lg_policy_digest lg).
Proof.
  unfold bind. intros H. apply res_bind_Ok in H as (? & H1%raise_if_Ok & H). apply res_bind_Ok in H as (? & H2%raise_if_Ok & H).
  apply res_bind_Ok in H as (? & H3%raise_if_Ok & [= <-]). cbn.
  apply negb_false_iff, bool_decide_eq_true in H2. split; [done|]. split; [by apply strip_nonempty|].
  intros [p Hp]. rewrite Hp in *. destruct policy as [q|]; [|done].
  apply negb_false_iff, bool_decide_eq_true in H3. by subst.
Qed.

(** ** Examples *)
Definition some_logger : AuditLogger := MkLogger "alice" (Some "r1") None "p1" (Some ["sk-9f"]).
Definition some_context : EventContext := MkContext None (Some "t1") None (Some 2) (Some "cli").
Definition some_event : AuditEvent := permission_event "write_file" "/a/sk-9f" true "key sk-9f" some_context.
Definition some_env : LogEnv := MkLogEnv "2026-01-01 00:00:00" instant Written instant Written.
Definition new_world : AuditWorld := MkWorld no_rows (Some some_anchor) (MkAnchorFs [EmptyString] (Some 0%nat)).
Definition one_logged : res Z * AuditWorld := log some_logger some_event some_env new_world.

Lemma new_world_audited : audited new_world.
Proof.
  split; [apply ah_empty|]. intros a [= <-]. split.
  - split; [vm_compute; reflexivity|]. split; [vm_compute; discriminate|vm_compute; reflexivity].
  - left. vm_compute. reflexivity.
Qed.
Lemma some_env_quiet : quiet_env some_env.
Proof. repeat split; first [reflexivity|vm_compute; reflexivity|cbn; lia]. Qed.
Example one_logged_id : one_logged.1 = Ok 1.
Proof. vm_compute. reflexivity. Qed.

Lemma one_logged_eq : _log_for_binding some_logger (root_binding some_logger (Some "cli")) some_event some_env new_world
  = (Ok 1, one_logged.2).
Proof. vm_compute. reflexivity. Qed.
Lemma first_event_id :
  (_log_for_binding some_logger (root_binding some_logger (Some "cli")) some_event some_env new_world).1 = Ok 1.
Proof. vm_compute. reflexivity. Qed.
Lemma log_records_witness : exists w' link, audited w' /\ anchored_head w'
  /\ _log_for_binding some_logger (root_binding some_logger (Some "cli")) some_event some_env new_world = (Ok 1, w')
  /\ ad_rows (w_db w') = [MkAuditRow 1 (event_fields some_logger (root_binding some_logger (Some "cli")) some_event)
                            (le_created_at some_env) link].
Proof.
  pose proof (log_records some_logger (root_binding some_logger (Some "cli")) some_event some_env new_world new_world_audited
    some_env_quiet eq_refl) as H. destruct H as (w' & Ha & Hh & Hm).
  destruct (insert_audit_log _ _ _) as [[i|e] db'].
  - destruct Hm as (Hl & Hdb & _ & link & Hrows). assert (Hi := first_event_id). rewrite Hl in Hi. cbn [fst] in Hi. injection Hi as Hi.
    exists w', link. rewrite Hdb, Hrows, Hl, Hi. split; [exact Ha|]. split; [exact Hh|]. split; reflexivity.
  - destruct Hm as [Hl _]. assert (Hi := first_event_id). rewrite Hl in Hi. cbn [fst] in Hi. discriminate Hi.
Defined.
Lemma returned_id_is_chained_witness :
  exists r, last (ad_rows (w_db one_logged.2)) = Some r /\ ar_id r = 1
    /\ ar_fields r = event_fields some_logger (root_binding some_logger (Some "cli")) some_event.
Proof.
  refine (proj1 (returned_id_is_chained some_logger (root_binding some_logger (Some "cli")) some_event some_env new_world 1
    one_logged.2 one_logged_eq _)). discriminate.
Defined.
Lemma logged_event_hides_secrets_witness :
  let entry := from_row (MkAuditRow 1 (event_fields some_logger (root_binding some_logger None) some_event) "t" "h") in
  texts_all (fun t => negb (str_contains "sk-9f" t)) (PDict (en_detail entry)) = true.
Proof.
  refine (proj1 (proj2 (logged_event_hides_secrets some_logger (root_binding some_logger None) some_event ["sk-9f"] "sk-9f"
    1 "t" "h" eq_refl _ _ _))).
  - repeat constructor.
  - left.
  - reflexivity.
Defined.
(** A security event is recorded as denied. *)
Example security_event_result : ev_result (security_event "path_denied" "write_file" "/etc" None some_context) = "denied".
Proof. reflexivity. Qed.
(** The root logger takes an empty principal, under which the chain no longer replays: every later event is refused. *)
Definition nameless_logger : AuditLogger := MkLogger EmptyString None None "p1" None.
Example nameless_logger_locks_out :
  let '(o1, w1) := log nameless_logger some_event some_env new_world in
  (o1, length (ad_rows (w_db w1))) = (Ok 1, 1%nat)
  /\ (log some_logger some_event some_env w1).1 = Ok (-1).
Proof. vm_compute. done. Qed.
