(* ===== verification/ResourceScope.v ===== *)
(** * Typed resource scopes ([security/resource_scope.py])

    The resources an authority can be granted, as scopes of five kinds with a containment relation, and the
    content-addressed catalog in which a delegated scope is looked up and compared with its parent.  Sets of texts are
    [gset]s; paths are those of a POSIX host.  Opening the catalog file under its ownership checks is left to the operating
    system; its text is decoded here. *)
From Stdlib Require Import Ascii.
From stdpp Require Import gmap.
From S2P Require Import Prelude PyStr Json PyValue Sha256 ProtocolBoundary ShellSemantics PyText PermissionRules.
Open Scope Z_scope.

Definition scope_error {A} (msg : string) : res A := Raise (Exn ResourceScopeError msg).

(** Paths of the host, as texts: [str(Path(text).expanduser())] and [str(Path(text).resolve())] *)
Class HostPaths := { expanduser : string -> res string; path_resolve : string -> res string }.
Definition full_path `{HostPaths} (path : string) : res string :=
  let* path := expanduser path in path_resolve path.
(** A resolved path is absolute, without empty, ["."] and [".."] components, and resolves to itself; only a leading tilde is
    expanded. *)
Class HostPathsLaws `{HostPaths} := {
  resolve_plain p q : path_resolve p = Ok q -> plain_path q /\ ".." ∉ path_parts q;
  resolve_idem p q : path_resolve p = Ok q -> path_resolve q = Ok q;
  expanduser_plain p : plain_path p -> expanduser p = Ok p
}.

(** ** Fields *)
Inductive ResourceScopeKind := SK_FILESYSTEM | SK_NETWORK | SK_GIT_REF | SK_EXECUTION | SK_CREDENTIAL.
Definition scope_kind_value (k : ResourceScopeKind) : string :=
  match k with
  | SK_FILESYSTEM => "filesystem" | SK_NETWORK => "network" | SK_GIT_REF => "git-ref" | SK_EXECUTION => "execution"
  | SK_CREDENTIAL => "credential"
  end.
Definition scope_kinds : list ResourceScopeKind := [SK_FILESYSTEM; SK_NETWORK; SK_GIT_REF; SK_EXECUTION; SK_CREDENTIAL].
#[export] Instance scope_kind_eq_dec : EqDecision ResourceScopeKind.
Proof. solve_decision. Defined.

Definition has_char (p : ascii -> bool) (s : string) : bool := string_existsb p s.
Definition _require_text (value : string) : res string :=
  raise_if (str_empty value || has_char (fun c => byte c =? 0) value) ResourceScopeError "must be a non-empty string" ;;*
  raise_if (4096 <? py_len value) ResourceScopeError "is too long" ;;*
  Ok value.
Definition wildcard_char (c : ascii) : bool := (byte c =? 42) || (byte c =? 63) || (byte c =? 91) || (byte c =? 93).
Definition _require_concrete (value : string) : res string :=
  let* text := _require_text value in
  raise_if (has_char wildcard_char text) ResourceScopeError "must not contain wildcard syntax" ;;*
  Ok text.
(** Each member of a set, checked and transformed *)
Definition set_map (f : string -> res string) (values : gset string) : res (gset string) :=
  let* l := res_map f (elements values) in Ok (list_to_set l).
Definition _require_tokens (values : gset string) : res (gset string) :=
  let* normalized := set_map _require_concrete values in
  raise_if (bool_decide (normalized = ∅)) ResourceScopeError "must not be empty" ;;*
  Ok normalized.
Definition _require_actions (values : gset string) : res (gset string) :=
  let* actions := _require_tokens values in
  raise_if (existsb (has_char (fun c => byte c =? 46)) (elements actions)) ResourceScopeError
    "must contain action names, not family-qualified operations" ;;*
  Ok actions.
Definition _canonical_path (value : string) : res string :=
  let* raw := _require_concrete value in
  raise_if (negb (isabs raw)) ResourceScopeError "must be absolute" ;;*
  raise_if (str_in ".." (split_slash raw)) ResourceScopeError "must not contain parent traversal" ;;*
  let normalized := normpath raw in
  raise_if (negb (isabs normalized)) ResourceScopeError "is not canonical" ;;*
  Ok normalized.
(** [s.replace("\\", "/")] *)
Fixpoint slashes_of_backslashes (s : string) : string :=
  match s with
  | EmptyString => EmptyString
  | String c s' => String (if byte c =? 92 then "/"%char else c) (slashes_of_backslashes s')
  end.
Definition _canonical_filesystem_path (value : string) : res string :=
  let* raw := _require_concrete value in
  raise_if (negb (isabs raw)) ResourceScopeError "must be absolute" ;;*
  raise_if (str_in ".." (split_slash (slashes_of_backslashes raw))) ResourceScopeError "must not contain parent traversal" ;;*
  let normalized := slashes_of_backslashes (normpath raw) in
  raise_if (negb (isabs normalized)) ResourceScopeError "is not canonical" ;;*
  Ok normalized.
(** [s.rstrip(c)] *)
Fixpoint rstrip_char (c : ascii) (s : string) : string :=
  match s with
  | EmptyString => EmptyString
  | String a s' => match rstrip_char c s' with
                   | EmptyString => if bool_decide (a = c) then EmptyString else String a EmptyString
                   | r => String a r end
  end.
Definition SLASH : ascii := "/"%char.
Definition scope_path_contains (parent child : string) : bool :=
  if bool_decide (parent = "/") then isabs child
  else bool_decide (child = parent) || has_prefix (rstrip_char SLASH parent +:+ "/") child.

(** ** Scopes *)
Inductive ResourceScope :=
| FilesystemScope (workspace_id root : string) (operations : gset string)
| NetworkScope (schemes hosts : gset string) (ports : gset Z) (path_prefixes operations blocked_hosts : gset string)
| GitRefScope (repository : string) (refs operations ref_namespaces : gset string) (worktree_root : option string)
| ExecutionScope (workspace_id executable : string) (argv_prefix : list string) (cwd : string) (operations : gset string)
    (argv_exact : bool)
| CredentialScope (provider : string) (names operations : gset string).
#[export] Instance resource_scope_eq_dec : EqDecision ResourceScope.
Proof. solve_decision. Defined.
Definition scope_kind (s : ResourceScope) : ResourceScopeKind :=
  match s with
  | FilesystemScope _ _ _ => SK_FILESYSTEM | NetworkScope _ _ _ _ _ _ => SK_NETWORK | GitRefScope _ _ _ _ _ => SK_GIT_REF
  | ExecutionScope _ _ _ _ _ _ => SK_EXECUTION | CredentialScope _ _ _ => SK_CREDENTIAL
  end.
Definition scope_operations (s : ResourceScope) : gset string :=
  match s with
  | FilesystemScope _ _ o => o | NetworkScope _ _ _ _ o _ => o | GitRefScope _ _ o _ _ => o
  | ExecutionScope _ _ _ _ o _ => o | CredentialScope _ _ o => o
  end.
Definition set_all (p : string -> bool) (s : gset string) : bool := forallb p (elements s).
Definition set_any (p : string -> bool) (s : gset string) : bool := existsb p (elements s).
Definition subset (a b : gset string) : bool := bool_decide (a ⊆ b).

Section scopes.
Context `{Platform}.

Definition _canonical_scheme_set (values : gset string) : res (gset string) :=
  let* result := _require_tokens values in Ok (list_to_set (str_lower <$> elements result)).
Definition _canonical_host (value : string) : res string :=
  let* text := _require_concrete value in
  let host := str_lower (rstrip_char "."%char text) in
  raise_if (str_empty host) ResourceScopeError "contains an empty host" ;;*
  match idna host with Ok h => Ok h | Raise _ => scope_error "contains an invalid host" end.
Definition _canonical_host_set (values : gset string) : res (gset string) :=
  let* hosts := set_map _canonical_host values in
  raise_if (bool_decide (hosts = ∅)) ResourceScopeError "must not be empty" ;;*
  Ok hosts.
Definition valid_port (p : Z) : bool := between 1 65535 p.

(** The constructors' [__post_init__] *)
Definition make_filesystem (ws root : string) (ops : gset string) : res ResourceScope :=
  let* ws := _require_text ws in
  let* root := _canonical_filesystem_path root in
  let* ops := _require_actions ops in
  Ok (FilesystemScope ws root ops).
Definition make_network (schemes hosts : gset string) (ports : gset Z) (prefixes ops blocked : gset string) : res ResourceScope :=
  let* schemes := _canonical_scheme_set schemes in
  let* hosts := _canonical_host_set hosts in
  let* blocked := (if bool_decide (blocked = ∅) then Ok ∅ else _canonical_host_set blocked) in
  raise_if (bool_decide (ports = ∅) || negb (forallb valid_port (elements ports))) ResourceScopeError
    "ports must contain explicit values from 1 to 65535" ;;*
  let* prefixes := set_map _canonical_path prefixes in
  raise_if (bool_decide (prefixes = ∅)) ResourceScopeError "path_prefixes must not be empty" ;;*
  let* ops := _require_actions ops in
  Ok (NetworkScope schemes hosts ports prefixes ops blocked).
Definition make_git_ref (repository : string) (refs ops namespaces : gset string) (worktree : option string) : res ResourceScope :=
  let* repository := _require_concrete repository in
  let* refs := set_map _require_concrete refs in
  let* namespaces := set_map _require_concrete namespaces in
  raise_if (bool_decide (refs = ∅) && bool_decide (namespaces = ∅)) ResourceScopeError
    "refs or ref_namespaces must not be empty" ;;*
  raise_if (set_any (fun n => negb (has_prefix "refs/" n) || bool_decide (rstrip_char SLASH n = n)) namespaces)
    ResourceScopeError "ref_namespaces must be slash-terminated refs namespaces" ;;*
  let* worktree := match worktree with
                   | None => Ok None | Some w => let* w := _canonical_filesystem_path w in Ok (Some w) end in
  let* ops := _require_actions ops in
  Ok (GitRefScope repository refs ops namespaces worktree).
Definition make_execution (ws executable : string) (argv : list string) (cwd : string) (ops : gset string) (exact : bool) : res ResourceScope :=
  let* ws := _require_text ws in
  let* executable := _require_concrete executable in
  let* argv := res_map _require_concrete argv in
  let* cwd := _canonical_path cwd in
  let* ops := _require_actions ops in
  Ok (ExecutionScope ws executable argv cwd ops exact).
Definition make_credential (provider : string) (names ops : gset string) : res ResourceScope :=
  let* provider := _require_concrete provider in
  let* names := _require_tokens names in
  let* ops := _require_actions ops in
  Ok (CredentialScope provider names ops).
Definition make_scope (s : ResourceScope) : res ResourceScope :=
  match s with
  | FilesystemScope ws root ops => make_filesystem ws root ops
  | NetworkScope schemes hosts ports prefixes ops blocked => make_network schemes hosts ports prefixes ops blocked
  | GitRefScope repository refs ops namespaces worktree => make_git_ref repository refs ops namespaces worktree
  | ExecutionScope ws executable argv cwd ops exact => make_execution ws executable argv cwd ops exact
  | CredentialScope provider names ops => make_credential provider names ops
  end.
End scopes.

(** ** Containment *)
Definition git_contains_ref (refs namespaces : gset string) (ref : string) : bool :=
  bool_decide (ref ∈ refs) || set_any (fun n => has_prefix n ref) namespaces.
Definition git_contains_namespace (namespaces : gset string) (namespace : string) : bool :=
  set_any (fun parent => has_prefix parent namespace) namespaces.
(** [child[:len(parent)] == parent] *)
Definition argv_extends (parent child : list string) : bool := bool_decide (take (length parent) child = parent).
Definition filesystem_contains (ws root : string) (ops : gset string) (child : ResourceScope) : bool :=
  match child with
  | FilesystemScope ws' root' ops' =>
      bool_decide (ws = ws') && scope_path_contains root root' && subset ops' ops
  | _ => false
  end.
Definition network_contains (schemes hosts : gset string) (ports : gset Z) (prefixes ops blocked : gset string) (child : ResourceScope) : bool :=
  match child with
  | NetworkScope schemes' hosts' ports' prefixes' ops' blocked' =>
      subset schemes' schemes && subset hosts' hosts && bool_decide (ports' ⊆ ports) && subset ops' ops && subset blocked blocked'
      && set_all (fun requested => set_any (fun p => scope_path_contains p requested) prefixes) prefixes'
  | _ => false
  end.
Definition git_ref_contains (repository : string) (refs ops namespaces : gset string) (worktree : option string) (child : ResourceScope) : bool :=
  match child with
  | GitRefScope repository' refs' ops' namespaces' worktree' =>
      bool_decide (repository = repository') && set_all (git_contains_ref refs namespaces) refs'
      && set_all (git_contains_namespace namespaces) namespaces' && subset ops' ops
      && match worktree, worktree' with
         | None, None => true
         | None, Some _ | Some _, None => false
         | Some w, Some w' => scope_path_contains w w'
         end
  | _ => false
  end.
Definition execution_contains (ws executable : string) (argv : list string) (cwd : string) (ops : gset string) (exact : bool) (child : ResourceScope) : bool :=
  match child with
  | ExecutionScope ws' executable' argv' cwd' ops' exact' =>
      bool_decide (ws = ws') && bool_decide (executable = executable') && bool_decide (cwd = cwd') && subset ops' ops
      && (if exact then exact' && bool_decide (argv = argv') else argv_extends argv argv')
  | _ => false
  end.
Definition credential_contains (provider : string) (names ops : gset string) (child : ResourceScope) : bool :=
  match child with
  | CredentialScope provider' names' ops' =>
      bool_decide (provider = provider') && subset names' names && subset ops' ops
  | _ => false
  end.
Definition scope_contains (parent : ResourceScope) : ResourceScope -> bool :=
  match parent with
  | FilesystemScope ws root ops => filesystem_contains ws root ops
  | NetworkScope schemes hosts ports prefixes ops blocked => network_contains schemes hosts ports prefixes ops blocked
  | GitRefScope repository refs ops namespaces worktree => git_ref_contains repository refs ops namespaces worktree
  | ExecutionScope ws executable argv cwd ops exact => execution_contains ws executable argv cwd ops exact
  | CredentialScope provider names ops => credential_contains provider names ops
  end.
(** [GitRefScope.allows_ref] and [allows_worktree_path] *)
Definition allows_ref (refs namespaces : gset string) (ref : string) : res bool :=
  let* ref := _require_concrete ref in Ok (git_contains_ref refs namespaces ref).
Definition allows_worktree_path (worktree : option string) (path : string) : res bool :=
  match worktree with
  | None => Ok false
  | Some w =>
      let* candidate := _canonical_filesystem_path path in
      Ok (negb (bool_decide (candidate = w)) && scope_path_contains w candidate)
  end.

(** ** Canonical form and digest *)
Definition sorted_texts (s : gset string) : pyval := str_list (py_sorted (elements s)).
Definition filesystem_canonical (ws root : string) (ops : gset string) : pyval :=
  PDict [("workspace_id", PStr ws); ("root", PStr root); ("operations", sorted_texts ops)].
Definition network_canonical (schemes hosts : gset string) (ports : gset Z) (prefixes ops blocked : gset string) : pyval :=
  PDict [("schemes", sorted_texts schemes); ("hosts", sorted_texts hosts);
         ("ports", PList (PInt <$> py_sorted (elements ports))); ("path_prefixes", sorted_texts prefixes);
         ("operations", sorted_texts ops); ("blocked_hosts", sorted_texts blocked)].
Definition git_ref_canonical (repository : string) (refs ops namespaces : gset string) (worktree : option string) : pyval :=
  PDict [("repository", PStr repository); ("refs", sorted_texts refs); ("ref_namespaces", sorted_texts namespaces);
         ("operations", sorted_texts ops); ("worktree_root", opt_str worktree)].
Definition execution_canonical (ws executable : string) (argv : list string) (cwd : string) (ops : gset string) (exact : bool) : pyval :=
  PDict [("workspace_id", PStr ws); ("executable", PStr executable); ("argv_prefix", str_list argv);
         ("argv_exact", PBool exact); ("cwd", PStr cwd); ("operations", sorted_texts ops)].
Definition credential_canonical (provider : string) (names ops : gset string) : pyval :=
  PDict [("provider", PStr provider); ("names", sorted_texts names); ("operations", sorted_texts ops)].
Definition scope_canonical (s : ResourceScope) : pyval :=
  match s with
  | FilesystemScope ws root ops => filesystem_canonical ws root ops
  | NetworkScope schemes hosts ports prefixes ops blocked => network_canonical schemes hosts ports prefixes ops blocked
  | GitRefScope repository refs ops namespaces worktree => git_ref_canonical repository refs ops namespaces worktree
  | ExecutionScope ws executable argv cwd ops exact => execution_canonical ws executable argv cwd ops exact
  | CredentialScope provider names ops => credential_canonical provider names ops
  end.
Definition scope_manifest (s : ResourceScope) : list (string * pyval) :=
  [("kind", PStr (scope_kind_value (scope_kind s))); ("scope", scope_canonical s)].
Definition scope_digest (s : ResourceScope) : res string :=
  canonical_digest (PDict (("schema_version", PInt 1) :: scope_manifest s)).

(** ** The catalog *)
Record Catalog := MkCatalog {
  cat_scopes : list (string * ResourceScope); cat_policy_digest : option string; cat_digest : string
}.
Definition is_hex_digest (s : string) : bool := (py_len s =? 64) && string_forallb is_hex_lower s.
Definition catalog_entries (scopes : list (string * ResourceScope)) : pyval :=
  PList ((fun ds => PDict (("digest", PStr ds.1) :: scope_manifest ds.2)) <$> sorted_by fst scopes).
Definition _catalog_digest (scopes : list (string * ResourceScope)) (policy_digest : option string) : res string :=
  canonical_digest (PDict [("schema_version", PInt 1); ("policy_digest", opt_str policy_digest); ("scopes", catalog_entries scopes)]).
Section catalog.
Context `{Platform}.
(** [TypedResourcePartialOrder.__init__] *)
Fixpoint validated_scopes (scopes validated : list (string * ResourceScope)) : res (list (string * ResourceScope)) :=
  match scopes with
  | [] => Ok validated
  | (digest, scope) :: rest =>
      raise_if (negb (py_len digest =? 64)) ResourceScopeError "resource catalog digest is invalid" ;;*
      raise_if (negb (string_forallb is_hex_lower (str_lower digest))) ResourceScopeError
        "resource catalog digest is not hexadecimal" ;;*
      let* canonical := scope_digest scope in
      raise_if (negb (bool_decide (str_lower digest = canonical))) ResourceScopeError
        "resource catalog digest does not match scope" ;;*
      validated_scopes rest (dict_set (str_lower digest) scope validated)
  end.
Definition make_catalog (scopes : list (string * ResourceScope)) (policy_digest : option string) : res Catalog :=
  match policy_digest with Some p => let* _ := _require_text p in Ok tt | None => Ok tt end ;;*
  let* validated := validated_scopes scopes [] in
  let* digest := _catalog_digest validated policy_digest in
  Ok (MkCatalog validated policy_digest digest).
Definition catalog_manifest (c : Catalog) : pyval :=
  PDict [("schema_version", PInt 1); ("policy_digest", opt_str (cat_policy_digest c)); ("catalog_digest", PStr (cat_digest c));
         ("scopes", catalog_entries (cat_scopes c))].

Definition catalog_resolve (c : Catalog) (digest : string) : res ResourceScope :=
  match dict_get (str_lower digest) (cat_scopes c) with
  | Some s => Ok s
  | None => scope_error "resource digest is not in the typed catalog"
  end.
Definition catalog_contains (c : Catalog) (parent_digest child_digest : string) : bool :=
  match catalog_resolve c parent_digest, catalog_resolve c child_digest with
  | Ok parent, Ok child => scope_contains parent child
  | _, _ => false
  end.
Definition require_subset (c : Catalog) (parent_digest child_digest : string) : res unit :=
  let* parent := catalog_resolve c parent_digest in
  let* child := catalog_resolve c child_digest in
  raise_if (negb (scope_contains parent child)) ResourceScopeError "requested resource is not a typed subset".
Definition require_scope (c : Catalog) (scope : ResourceScope) : res string :=
  let* digest := scope_digest scope in
  let* registered := catalog_resolve c digest in
  raise_if (negb (bool_decide (registered = scope))) ResourceScopeError "resource scope does not match catalog entry" ;;*
  Ok digest.
Definition _scope_family (s : ResourceScope) : string :=
  match scope_kind s with
  | SK_FILESYSTEM => "workspace" | SK_NETWORK => "network" | SK_GIT_REF => "git" | SK_EXECUTION => "exec"
  | SK_CREDENTIAL => "credential"
  end.
(** [operation.split(".", 1)] *)
Fixpoint split_dot (s : string) : option (string * string) :=
  match s with
  | EmptyString => None
  | String c s' => if byte c =? 46 then Some (EmptyString, s')
                   else match split_dot s' with Some (a, b) => Some (String c a, b) | None => None end
  end.
Definition _operation_parts (operation : string) : res (string * string) :=
  match split_dot operation with
  | None => scope_error "operation must contain a family separator"
  | Some (family, action) =>
      raise_if (str_empty family || str_empty action) ResourceScopeError "operation family is invalid" ;;*
      Ok (family, action)
  end.
Definition require_operation (c : Catalog) (resource_digest operation : string) : res unit :=
  let* scope := catalog_resolve c resource_digest in
  let* parts := _operation_parts operation in
  raise_if (negb (bool_decide (parts.1 = _scope_family scope))) ResourceScopeError
    "operation family does not match typed resource kind" ;;*
  raise_if (negb (bool_decide (parts.2 ∈ scope_operations scope))) ResourceScopeError
    "operation action is not allowed by the typed resource scope".
Definition require_transition (c : Catalog) (parent_digest requested_scope source_operation target_operation : string) : res unit :=
  let* source := _operation_parts source_operation in
  let* target := _operation_parts target_operation in
  raise_if (negb (bool_decide (source.1 = target.1))) ResourceScopeError
    "typed resource transition crosses operation families" ;;*
  require_operation c parent_digest source_operation ;;*
  require_subset c parent_digest requested_scope ;;*
  require_operation c requested_scope target_operation.

(** ** Decoding a manifest *)
Definition field (key : string) (body : list (string * pyval)) : pyval := default PNone (dict_get key body).
Definition _reject_unknown_fields (value : list (string * pyval)) (allowed : list string) : res unit :=
  raise_if (negb (forallb (fun k => str_in k allowed) (dict_keys value))) ResourceScopeError "contains unknown fields".
Definition as_text (v : pyval) : res string :=
  match v with PStr s => Ok s | _ => scope_error "must be a non-empty string" end.
Definition _manifest_text_list (body : list (string * pyval)) (key : string) : res (list string) :=
  match field key body with PList l => res_map as_text l | _ => scope_error "must be a list" end.
Definition as_int (v : pyval) : res Z := match v with PInt z => Ok z | _ => scope_error "must contain integers" end.
Definition _manifest_int_list (body : list (string * pyval)) (key : string) : res (list Z) :=
  match field key body with PList l => res_map as_int l | _ => scope_error "must be a list" end.
Definition text_set (body : list (string * pyval)) (key : string) : res (gset string) :=
  let* l := _manifest_text_list body key in Ok (list_to_set l).
(** [body[key]] of a text: absent keys raise [KeyError], other types are refused by the constructor *)
Definition text_field (body : list (string * pyval)) (key : string) : res string :=
  match dict_get key body with None => Raise (Exn KeyError key) | Some v => as_text v end.
Definition decode_scope (kind : ResourceScopeKind) (body : list (string * pyval)) : res ResourceScope :=
  match kind with
  | SK_FILESYSTEM =>
      _reject_unknown_fields body ["workspace_id"; "root"; "operations"] ;;*
      let* ws := text_field body "workspace_id" in
      let* root := text_field body "root" in
      let* ops := text_set body "operations" in
      make_scope (FilesystemScope ws root ops)
  | SK_NETWORK =>
      _reject_unknown_fields body ["schemes"; "hosts"; "ports"; "path_prefixes"; "operations"; "blocked_hosts"] ;;*
      let* schemes := text_set body "schemes" in
      let* hosts := text_set body "hosts" in
      let* ports := _manifest_int_list body "ports" in
      let* prefixes := text_set body "path_prefixes" in
      let* ops := text_set body "operations" in
      let* blocked := text_set body "blocked_hosts" in
      make_scope (NetworkScope schemes hosts (list_to_set ports) prefixes ops blocked)
  | SK_GIT_REF =>
      _reject_unknown_fields body ["repository"; "refs"; "ref_namespaces"; "operations"; "worktree_root"] ;;*
      let* repository := text_field body "repository" in
      let* refs := text_set body "refs" in
      let* ops := text_set body "operations" in
      let* namespaces := match dict_get "ref_namespaces" body with None => Ok ∅ | Some _ => text_set body "ref_namespaces" end in
      let* worktree := match field "worktree_root" body with
                       | PNone => Ok None | v => let* w := as_text v in Ok (Some w) end in
      make_scope (GitRefScope repository refs ops namespaces worktree)
  | SK_EXECUTION =>
      _reject_unknown_fields body ["workspace_id"; "executable"; "argv_prefix"; "argv_exact"; "cwd"; "operations"] ;;*
      let* exact := match dict_get "argv_exact" body with
                    | None => Raise (Exn KeyError "argv_exact")
                    | Some (PBool b) => Ok b
                    | Some _ => scope_error "resource catalog argv_exact is invalid" end in
      let* ws := text_field body "workspace_id" in
      let* executable := text_field body "executable" in
      let* argv := _manifest_text_list body "argv_prefix" in
      let* cwd := text_field body "cwd" in
      let* ops := text_set body "operations" in
      make_scope (ExecutionScope ws executable argv cwd ops exact)
  | SK_CREDENTIAL =>
      _reject_unknown_fields body ["provider"; "names"; "operations"] ;;*
      let* provider := text_field body "provider" in
      let* names := text_set body "names" in
      let* ops := text_set body "operations" in
      make_scope (CredentialScope provider names ops)
  end.
Definition _scope_from_manifest (kind : string) (body : pyval) : res ResourceScope :=
  match body with
  | PDict d =>
      match List.find (fun k => bool_decide (scope_kind_value k = kind)) scope_kinds with
      | None => scope_error "resource catalog scope kind is invalid"
      | Some k => try_except (decode_scope k d) [KeyError; TypeError; ValueError]
                    (fun _ => scope_error "resource catalog scope body is malformed")
      end
  | _ => scope_error "resource catalog scope body is invalid"
  end.
Fixpoint manifest_scopes (entries : list pyval) (scopes : list (string * ResourceScope)) : res (list (string * ResourceScope)) :=
  match entries with
  | [] => Ok scopes
  | PDict entry :: rest =>
      match field "digest" entry, field "kind" entry with
      | PStr digest, PStr kind =>
          raise_if (negb (bool_decide (str_lower digest = digest)) || negb (is_hex_digest digest)) ResourceScopeError
            "resource catalog entry digest is invalid" ;;*
          raise_if (bool_decide (digest ∈ dict_keys scopes)) ResourceScopeError "resource catalog contains a duplicate digest" ;;*
          let* scope := _scope_from_manifest kind (field "scope" entry) in
          manifest_scopes rest (dict_set digest scope scopes)
      | _, _ => scope_error "resource catalog entry identity is invalid"
      end
  | _ :: _ => scope_error "resource catalog entry is invalid"
  end.
Definition opt_text_field (key : string) (body : list (string * pyval)) : res (option string) :=
  match field key body with
  | PNone => Ok None | PStr s => Ok (Some s) | _ => scope_error "resource catalog policy digest is invalid" end.
Definition from_manifest (value : pyval) (expected_policy_digest : option string) : res Catalog :=
  match value with
  | PDict d =>
      _reject_unknown_fields d ["schema_version"; "policy_digest"; "catalog_digest"; "scopes"] ;;*
      raise_if (negb (equals_one (field "schema_version" d))) ResourceScopeError "unsupported resource catalog schema" ;;*
      let* policy := opt_text_field "policy_digest" d in
      raise_if (match expected_policy_digest with Some e => negb (bool_decide (policy = Some e)) | None => false end)
        ResourceScopeError "resource catalog is not bound to the effective policy" ;;*
      match field "scopes" d with
      | PList entries =>
          let* scopes := manifest_scopes entries [] in
          let* order := make_catalog scopes policy in
          raise_if (negb (match field "catalog_digest" d with PStr s => bool_decide (s = cat_digest order) | _ => false end))
            ResourceScopeError "resource catalog digest does not match manifest" ;;*
          Ok order
      | _ => scope_error "resource catalog scopes must be a list"
      end
  | _ => scope_error "resource catalog manifest is not a mapping"
  end.
(** The text of [from_json_file] once it is read *)
Definition MAX_TYPED_RESOURCE_CATALOG_BYTES : Z := 4 * 1024 * 1024.
Definition from_json_text (raw : string) (expected_policy_digest : option string) : res Catalog :=
  let* payload := try_except (strict_json_loads (PayloadBytes raw) (Some MAX_TYPED_RESOURCE_CATALOG_BYTES)) [ValueError]
                    (fun _ => scope_error "resource catalog contains malformed JSON") in
  from_manifest payload expected_policy_digest.

(** [configured_git_worktree_authority_root]; [raw] is the environment variable. *)
Context `{HostPaths}.
Definition configured_git_worktree_authority_root (raw : string) : res (option string) :=
  let raw := py_strip raw in
  if str_empty raw then Ok None
  else
    let* candidate := expanduser raw in
    raise_if (negb (isabs candidate)) ResourceScopeError "must be an absolute path" ;;*
    let* root := path_resolve candidate in
    Ok (Some root).
(** [compile_typed_resource_catalog]; [has_git] says whether the workspace has a [.git] entry. *)
Definition GIT_SCOPE_OPERATIONS : gset string := list_to_set
  ["apply"; "blob"; "bootstrap"; "cleanup"; "cleanup-ref"; "host"; "index"; "materialize"; "object-format"; "recovery";
   "status"; "tree"; "workspace"].
(** [candidate.relative_to(root)] succeeds *)
Definition path_under (root candidate : string) : bool :=
  bool_decide (isabs root = isabs candidate) && bool_decide (take (length (path_parts root)) (path_parts candidate) = path_parts root).
Definition add_scope (s : ResourceScope) (scopes : list (string * ResourceScope)) : res (list (string * ResourceScope)) :=
  let* scope := make_scope s in
  let* digest := scope_digest scope in
  Ok (dict_set digest scope scopes).
Fixpoint add_filesystem_scopes (root : string) (operations : gset string) (roots : list string)
    (scopes : list (string * ResourceScope)) : res (list (string * ResourceScope)) :=
  match roots with
  | [] => Ok scopes
  | filesystem_root :: rest =>
      let* candidate := full_path filesystem_root in
      raise_if (negb (path_under root candidate)) ResourceScopeError
        "filesystem resource catalog root escapes the workspace" ;;*
      let* scopes := add_scope (FilesystemScope root candidate operations) scopes in
      add_filesystem_scopes root operations rest scopes
  end.
Definition compile_typed_resource_catalog (workspace_root policy_digest : string) (roots : list string) (operations : gset string)
    (allowed : option (gset string)) (blocked : gset string) (has_git : bool) (git_worktree_root : option string) : res Catalog :=
  let* root := full_path workspace_root in
  let* scopes := add_filesystem_scopes root operations roots [] in
  let* scopes := (if has_git
                  then
                    let* worktree_root := match git_worktree_root with
                                          | Some w => let* w := full_path w in Ok (Some w) | None => Ok None end in
                    add_scope (GitRefScope root {["HEAD"]} GIT_SCOPE_OPERATIONS {["refs/heads/khaos/task/"]} worktree_root) scopes
                  else Ok scopes) in
  let* scopes := match allowed with
                 | Some hosts => if bool_decide (hosts = ∅) then Ok scopes
                                 else add_scope (NetworkScope {["http"; "https"]} hosts {[80; 443]} {["/"]} {["connect"]} blocked) scopes
                 | None => Ok scopes end in
  make_catalog scopes (Some policy_digest).
End catalog.

(** ** Containment of paths is a preorder *)
Lemma has_prefix_spec p s : has_prefix p s = true <-> exists t, s = p +:+ t.
Proof.
  unfold has_prefix. revert s. induction p as [|a p IH]; intros s; cbn [drop_prefix].
  - split; [by exists s|done].
  - destruct s as [|b s]; [split; [done|by intros [t Ht]]|]. destruct (Ascii.eqb_spec a b) as [->|Hab].
    + rewrite IH. split; intros [t Ht]; exists t; [by rewrite Ht|by injection Ht].
    + split; [done|]. intros [t [= -> _]]. done.
Qed.
Lemma rstrip_char_app c s t :
  rstrip_char c (s +:+ t) = match rstrip_char c t with EmptyString => rstrip_char c s | r => s +:+ r end.
Proof.
  induction s as [|a s IH]; cbn [String.append rstrip_char]; [by destruct (rstrip_char c t)|].
  rewrite IH. destruct (rstrip_char c t) eqn:E; [done|]. by destruct s.
Qed.
Lemma rstrip_char_idem c s : rstrip_char c (rstrip_char c s) = rstrip_char c s.
Proof.
  induction s as [|a s IH]; [done|]. cbn [rstrip_char]. destruct (rstrip_char c s) as [|b r] eqn:E.
  - destruct (bool_decide (a = c)) eqn:Ea; [done|]. cbn. by rewrite Ea.
  - cbn [rstrip_char] in *. by rewrite IH.
Qed.
Lemma isabs_spec s : isabs s = true <-> exists t, s = String SLASH t.
Proof. unfold isabs. rewrite has_prefix_spec. split; intros [t ->]; by exists t. Qed.
Lemma has_prefix_trans p q s : has_prefix p q = true -> has_prefix q s = true -> has_prefix p s = true.
Proof.
  rewrite !has_prefix_spec. intros [t ->] [u ->]. exists (t +:+ u). by rewrite str_app_assoc.
Qed.
Lemma path_contains_refl p : scope_path_contains p p = true.
Proof.
  unfold scope_path_contains. destruct (bool_decide (p = "/")) eqn:E; [|by rewrite bool_decide_eq_true_2].
  by apply bool_decide_eq_true in E as ->.
Qed.
(** What a contained path starts with *)
Lemma path_contains_prefix p c : scope_path_contains p c = true -> c = p \/ has_prefix (rstrip_char SLASH p +:+ "/") c = true.
Proof.
  unfold scope_path_contains. destruct (bool_decide (p = "/")) eqn:E.
  - apply bool_decide_eq_true in E as ->. intros H. by right.
  - intros [H|H]%orb_true_iff; [left; by apply bool_decide_eq_true in H|by right].
Qed.
Lemma prefix_path_contains p c : has_prefix (rstrip_char SLASH p +:+ "/") c = true -> scope_path_contains p c = true.
Proof.
  unfold scope_path_contains. destruct (bool_decide (p = "/")) eqn:E; [|intros ->; apply orb_true_r].
  by apply bool_decide_eq_true in E as ->.
Qed.
Lemma prefix_of_stripped p c :
  has_prefix (rstrip_char SLASH p +:+ "/") c = true ->
  has_prefix (rstrip_char SLASH p +:+ "/") (rstrip_char SLASH c +:+ "/") = true.
Proof.
  intros [t ->]%has_prefix_spec. rewrite str_app_assoc, rstrip_char_app. apply has_prefix_spec.
  destruct (rstrip_char SLASH ("/" +:+ t)) as [|b r] eqn:E; [exists EmptyString; by rewrite rstrip_char_idem, str_app_nil_r|].
  assert (b = SLASH) as ->.
  { cbn [String.append rstrip_char] in E. destruct (rstrip_char SLASH t); [|by injection E].
    destruct (bool_decide _); [done|by injection E]. }
  exists (r +:+ "/"). by rewrite !str_app_assoc.
Qed.
Lemma path_contains_trans p c d :
  scope_path_contains p c = true -> scope_path_contains c d = true -> scope_path_contains p d = true.
Proof.
  intros [->|Hpc]%path_contains_prefix Hcd; [done|]. apply path_contains_prefix in Hcd as [->|Hcd]; [by apply prefix_path_contains|].
  apply prefix_path_contains. eapply has_prefix_trans; [|exact Hcd]. by apply prefix_of_stripped.
Qed.

(** ** Containment of scopes is a preorder *)
Lemma set_all_spec p s : set_all p s = true <-> forall x, x ∈ s -> p x = true.
Proof.
  unfold set_all. rewrite forallb_Forall_true, Forall_forall. split; intros H x Hx; apply H; by apply elem_of_elements.
Qed.
Lemma set_any_spec p s : set_any p s = true <-> exists x, x ∈ s /\ p x = true.
Proof.
  unfold set_any. rewrite existsb_exists. split; intros (x & Hx & Hp); exists x; (split; [|done]).
  - by apply elem_of_elements, list_elem_of_In.
  - by apply list_elem_of_In, elem_of_elements.
Qed.
Lemma subset_spec a b : subset a b = true <-> a ⊆ b.
Proof. apply bool_decide_eq_true. Qed.
Lemma argv_extends_spec p c : argv_extends p c = true <-> p `prefix_of` c.
Proof.
  unfold argv_extends. rewrite bool_decide_eq_true. split.
  - intros H. exists (drop (length p) c). by rewrite <- H at 1; rewrite take_drop.
  - intros [t ->]. by rewrite take_app_length.
Qed.

Lemma scope_contains_refl s : scope_contains s s = true.
Proof.
  destruct s as [ws root ops|sch ho po pre ops bl|rep refs ops ns wt|ws ex argv cwd ops exact|pr names ops]; cbn [scope_contains filesystem_contains network_contains git_ref_contains execution_contains credential_contains];
    rewrite !andb_true_iff, ?bool_decide_eq_true, ?subset_spec, ?set_all_spec; repeat split; try done.
  - apply path_contains_refl.
  - intros x Hx. apply set_any_spec. exists x. split; [done|apply path_contains_refl].
  - intros x Hx. unfold git_contains_ref. by rewrite bool_decide_eq_true_2.
  - intros x Hx. apply set_any_spec. exists x. split; [done|]. apply has_prefix_spec. exists EmptyString. by rewrite str_app_nil_r.
  - destruct wt; [apply path_contains_refl|done].
  - destruct exact; cbn; [by rewrite bool_decide_eq_true_2|]. by apply argv_extends_spec.
Qed.
Lemma git_ref_trans refs ns refs' ns' ref :
  (forall x, x ∈ refs' -> git_contains_ref refs ns x = true) -> (forall x, x ∈ ns' -> git_contains_namespace ns x = true) ->
  git_contains_ref refs' ns' ref = true -> git_contains_ref refs ns ref = true.
Proof.
  intros Hr Hn [H|H]%orb_true_iff; [apply bool_decide_eq_true in H; by apply Hr|].
  apply set_any_spec in H as (n & Hn' & Hp). apply Hn, set_any_spec in Hn' as (m & Hm & Hmp).
  apply orb_true_iff. right. apply set_any_spec. exists m. split; [done|]. by eapply has_prefix_trans.
Qed.
Lemma scope_contains_trans a b c : scope_contains a b = true -> scope_contains b c = true -> scope_contains a c = true.
Proof.
  destruct a as [ws root ops|sch ho po pre ops bl|rep refs ops ns wt|ws ex argv cwd ops exact|pr names ops],
    b as [ws' root' ops'|sch' ho' po' pre' ops' bl'|rep' refs' ops' ns' wt'|ws' ex' argv' cwd' ops' exact'|pr' names' ops']; try done;
    destruct c as [ws2 root2 ops2|sch2 ho2 po2 pre2 ops2 bl2|rep2 refs2 ops2 ns2 wt2|ws2 ex2 argv2 cwd2 ops2 exact2|pr2 names2 ops2]; try done;
    cbn [scope_contains filesystem_contains network_contains git_ref_contains execution_contains credential_contains]; rewrite !andb_true_iff, ?bool_decide_eq_true, ?subset_spec, ?set_all_spec.
  - intros [[-> H1] H2] [[-> H3] H4]. repeat split; [by eapply path_contains_trans|set_solver].
  - intros (((((H1 & H2) & H3) & H4) & H5) & H6) (((((K1 & K2) & K3) & K4) & K5) & K6). repeat split; [set_solver..|].
    intros x Hx. apply K6, set_any_spec in Hx as (y & Hy & Hyx). apply H6, set_any_spec in Hy as (z & Hz & Hzy).
    apply set_any_spec. exists z. split; [done|]. by eapply path_contains_trans.
  - intros ((((-> & H2) & H3) & H4) & H5) ((((-> & K2) & K3) & K4) & K5). repeat split; [..|set_solver|].
    + intros x Hx. eapply git_ref_trans; [exact H2|exact H3|by apply K2].
    + intros x Hx. apply K3, set_any_spec in Hx as (y & Hy & Hyx). apply H3, set_any_spec in Hy as (z & Hz & Hzy).
      apply set_any_spec. exists z. split; [done|]. by eapply has_prefix_trans.
    + destruct wt, wt', wt2; try done. by eapply path_contains_trans.
  - intros ((((-> & ->) & ->) & H4) & H5) ((((-> & ->) & ->) & K4) & K5). repeat split; [set_solver|].
    destruct exact, exact'; cbn in *; try done.
    + apply bool_decide_eq_true in H5 as ->. done.
    + apply argv_extends_spec. apply argv_extends_spec in H5. apply andb_true_iff in K5 as [_ K5].
      by apply bool_decide_eq_true in K5 as <-.
    + apply argv_extends_spec. apply argv_extends_spec in H5, K5. by etransitivity.
  - intros [[-> H1] H2] [[-> H3] H4]. repeat split; set_solver.
Qed.
#[export] Instance scope_contains_preorder : PreOrder (fun a b => scope_contains a b = true).
Proof. split; [exact scope_contains_refl|exact scope_contains_trans]. Qed.

(** ** What a scope permits

    An access is one concrete use of a resource; [permits] is the meaning of a scope. *)
Inductive Access :=
| AccessPath (workspace_id path operation : string)
| AccessUrl (scheme host : string) (port : Z) (path operation : string)
| AccessRef (repository ref operation : string)
| AccessWorktree (repository path operation : string)
| AccessExec (workspace_id executable : string) (argv : list string) (cwd operation : string)
| AccessCredential (provider name operation : string).
Definition permits (s : ResourceScope) (x : Access) : Prop :=
  match s, x with
  | FilesystemScope ws root ops, AccessPath ws' path op => ws = ws' /\ scope_path_contains root path = true /\ op ∈ ops
  | NetworkScope schemes hosts ports prefixes ops blocked, AccessUrl scheme host port path op =>
      scheme ∈ schemes /\ host ∈ hosts /\ (host ∉ blocked) /\ port ∈ ports /\ op ∈ ops
      /\ exists p, p ∈ prefixes /\ scope_path_contains p path = true
  | GitRefScope repository refs ops namespaces _, AccessRef repository' ref op =>
      repository = repository' /\ git_contains_ref refs namespaces ref = true /\ op ∈ ops
  | GitRefScope repository _ ops _ worktree, AccessWorktree repository' path op =>
      repository = repository' /\ op ∈ ops /\ exists w, worktree = Some w /\ scope_path_contains w path = true
  | ExecutionScope ws executable argv cwd ops exact, AccessExec ws' executable' argv' cwd' op =>
      ws = ws' /\ executable = executable' /\ cwd = cwd' /\ op ∈ ops /\ (if exact then argv' = argv else argv `prefix_of` argv')
  | CredentialScope provider names ops, AccessCredential provider' name op => provider = provider' /\ name ∈ names /\ op ∈ ops
  | _, _ => False
  end.
Lemma contains_permits parent child x : scope_contains parent child = true -> permits child x -> permits parent x.
Proof.
  destruct parent as [ws root ops|sch ho po pre ops bl|rep refs ops ns wt|ws ex argv cwd ops exact|pr names ops],
    child as [ws' root' ops'|sch' ho' po' pre' ops' bl'|rep' refs' ops' ns' wt'|ws' ex' argv' cwd' ops' exact'|pr' names' ops']; try done;
    cbn [scope_contains filesystem_contains network_contains git_ref_contains execution_contains credential_contains]; rewrite !andb_true_iff, ?bool_decide_eq_true, ?subset_spec, ?set_all_spec; destruct x; try done; cbn [permits].
  - intros [[-> H1] H2] (-> & H3 & H4). repeat split; [by eapply path_contains_trans|set_solver].
  - intros (((((H1 & H2) & H3) & H4) & H5) & H6) (K1 & K2 & K3 & K4 & K5 & p & Hp & Hpath). repeat split; [set_solver..|].
    apply H6, set_any_spec in Hp as (q & Hq & Hqp). exists q. split; [done|]. by eapply path_contains_trans.
  - intros ((((-> & H2) & H3) & H4) & H5) (-> & K2 & K3). repeat split; [by eapply git_ref_trans|set_solver].
  - intros ((((-> & H2) & H3) & H4) & H5). intros (-> & K2 & w' & -> & K3).
    destruct wt as [w|]; [|done]. repeat split; [set_solver|]. exists w. split; [done|]. by eapply path_contains_trans.
  - intros ((((-> & ->) & ->) & H4) & H5) (-> & -> & -> & K4 & K5). repeat split; [set_solver|].
    destruct exact, exact'; cbn in *; try done.
    + apply bool_decide_eq_true in H5 as ->. done.
    + subst. by apply argv_extends_spec.
    + apply argv_extends_spec in H5. by etransitivity.
  - intros [[-> H1] H2] (-> & H3 & H4). repeat split; set_solver.
Qed.

(** *** Paths in normal form *)
Lemma norm_step_rooted acc c : ".." ∉ acc -> norm_step true acc c = if bool_decide (c = "..") then tail acc else c :: acc.
Proof.
  intros Hd. unfold norm_step. cbn [negb andb]. rewrite orb_false_r. case_bool_decide; [|done]. cbn [negb orb].
  rewrite bool_decide_eq_false_2; [done|]. destruct acc as [|x acc]; [done|]. cbn. intros [= ->]. apply Hd. by left.
Qed.
Lemma norm_rooted l : forall acc, Forall component l -> Forall component acc -> ".." ∉ acc ->
  Forall component (foldl (norm_step true) acc l) /\ ".." ∉ foldl (norm_step true) acc l.
Proof.
  induction l as [|c l IH]; intros acc Hl Ha Hd; [done|]. apply Forall_cons in Hl as [Hc Hl]. cbn [foldl].
  rewrite norm_step_rooted by done. case_bool_decide; (apply IH; [done|..]).
  - destruct acc; [done|]. by apply Forall_cons in Ha as [].
  - destruct acc; [done|]. by apply not_elem_of_cons in Hd as [].
  - by constructor.
  - by apply not_elem_of_cons.
Qed.
Lemma norm_no_dots l : forall acc, ".." ∉ l -> foldl (norm_step true) acc l = rev l ++ acc.
Proof.
  induction l as [|c l IH]; intros acc Hl; [done|]. apply not_elem_of_cons in Hl as [Hc Hl]. cbn [foldl rev].
  rewrite IH by done. unfold norm_step at 1. rewrite bool_decide_eq_false_2 by done. cbn [negb orb]. by rewrite <- app_assoc.
Qed.
Lemma plain_initial_slashes p : plain_path p -> initial_slashes p = "/".
Proof.
  intros Hp.
  pose proof (path_parts_components p) as Hc. unfold initial_slashes. rewrite Hp; clear Hp. destruct (path_parts p) as [|c l]; [done|].
  apply Forall_cons in Hc as [(Hs & Hn & _) _]. destruct c as [|a c]; [done|]. apply andb_true_iff in Hs as [Ha _].
  replace (has_prefix "//" (String "/" (join "/" (String a c :: l)))) with false; [done|].
  destruct l; destruct a as [[] [] [] [] [] [] [] []]; first [discriminate Ha|reflexivity].
Qed.
Lemma normpath_plain p : plain_path p -> ".." ∉ path_parts p -> normpath p = p.
Proof.
  intros Hp Hd. unfold normpath. rewrite plain_initial_slashes by done.
  replace (str_empty p) with false by (by rewrite Hp). cbn [str_empty negb].
  rewrite norm_no_dots by done. rewrite app_nil_r, rev_involutive. exact (eq_sym Hp).
Qed.
Lemma split_slash_slash a b : split_slash (a +:+ String SLASH b) = split_slash a ++ split_slash b.
Proof.
  induction a as [|c a IH]; [done|]. cbn [String.append split_slash]. rewrite IH. destruct (byte c =? 47); [done|].
  pose proof (split_slash_nonempty a). by destruct (split_slash a).
Qed.
Lemma path_parts_slash a b : path_parts (a +:+ String SLASH b) = path_parts a ++ path_parts b.
Proof. unfold path_parts. by rewrite split_slash_slash, List.filter_app. Qed.
Lemma rstrip_slash_parts s : path_parts (rstrip_char SLASH s) = path_parts s.
Proof.
  assert (forall t, string_forallb (fun a => bool_decide (a = SLASH)) t = true -> forall r, path_parts (r +:+ t) = path_parts r) as Ht.
  { induction t as [|a t IH]; intros Ha r; [by rewrite str_app_nil_r|]. apply andb_true_iff in Ha as [->%bool_decide_eq_true Ha].
    rewrite path_parts_slash. pose proof (IH Ha EmptyString) as E. change (EmptyString +:+ t) with t in E. rewrite E. by rewrite app_nil_r. }
  assert (exists t, s = rstrip_char SLASH s +:+ t /\ string_forallb (fun a => bool_decide (a = SLASH)) t = true) as (t & E & Hs).
  { induction s as [|a s (t & IH & Hs)]; [by exists EmptyString|]. cbn [rstrip_char]. destruct (rstrip_char SLASH s) as [|b r].
    - cbn [String.append] in IH. subst t. case_bool_decide; [exists (String a s); split; [done|]; cbn; rewrite Hs, andb_true_r; by apply bool_decide_eq_true|].
      by exists s.
    - exists t. split; [|done]. rewrite IH at 1. done. }
  rewrite E at 2. by rewrite Ht.
Qed.
Lemma path_under_spec root p : path_under root p = true <-> isabs root = isabs p /\ path_parts root `prefix_of` path_parts p.
Proof.
  unfold path_under. rewrite andb_true_iff, !bool_decide_eq_true. split; (intros [? Hp]; split; [done|]).
  - exists (drop (length (path_parts root)) (path_parts p)). rewrite <- Hp at 1. by rewrite take_drop.
  - destruct Hp as [k ->]. by rewrite take_app_length.
Qed.
(** Containment in a scope is containment of whole components. *)
Lemma scope_contains_path root p : isabs root = true -> scope_path_contains root p = true -> isabs p = true -> path_under root p = true.
Proof.
  intros Ha Hc Hp. apply path_under_spec. split; [by rewrite Ha, Hp|]. unfold scope_path_contains in Hc.
  case_bool_decide as E; [subst; apply prefix_nil|]. apply orb_true_iff in Hc as [->%bool_decide_eq_true|Hc]; [done|].
  apply has_prefix_spec in Hc as [t ->]. rewrite str_app_assoc. cbn [String.append]. rewrite path_parts_slash, rstrip_slash_parts.
  by exists (path_parts t).
Qed.

(** ** Delegation *)
Section delegation.
Context `{Platform}.

Lemma require_operation_Ok c d op : require_operation c d op = Ok tt <->
  exists s family action, catalog_resolve c d = Ok s /\ _operation_parts op = Ok (family, action)
    /\ family = _scope_family s /\ action ∈ scope_operations s.
Proof.
  unfold require_operation. split.
  - intros (s & Hs & ([f a] & Hp & (? & Hf%raise_if_Ok & Ha%raise_if_Ok)%res_bind_Ok)%res_bind_Ok)%res_bind_Ok.
    apply negb_false_iff, bool_decide_eq_true in Hf, Ha. by exists s, f, a.
  - intros (s & f & a & -> & -> & Hf & Ha). cbn. by rewrite !bool_decide_eq_true_2.
Qed.
Lemma require_transition_Ok c p r source target : require_transition c p r source target = Ok tt ->
  require_operation c p source = Ok tt /\ require_operation c r target = Ok tt
  /\ exists s s', catalog_resolve c p = Ok s /\ catalog_resolve c r = Ok s' /\ scope_contains s s' = true.
Proof.
  unfold require_transition, require_subset.
  intros (? & _ & (? & _ & (? & _ & (u & Hs & (? & Hsub & Ht)%res_bind_Ok)%res_bind_Ok)%res_bind_Ok)%res_bind_Ok)%res_bind_Ok.
  destruct u. split; [done|]. split; [done|].
  apply res_bind_Ok in Hsub as (s & Hs1 & (s' & Hs2 & Hc%raise_if_Ok)%res_bind_Ok). apply negb_false_iff in Hc. by exists s, s'.
Qed.
(** A chain of delegations within one catalog, from a held scope and operation *)
Inductive delegated (c : Catalog) : string -> string -> string -> string -> Prop :=
| dl_held d op : require_operation c d op = Ok tt -> delegated c d op d op
| dl_step d op d1 op1 d2 op2 :
    delegated c d op d1 op1 -> require_transition c d1 d2 op1 op2 = Ok tt -> delegated c d op d2 op2.

Lemma contains_operations s s' : scope_contains s s' = true ->
  scope_operations s' ⊆ scope_operations s /\ _scope_family s' = _scope_family s.
Proof.
  destruct s, s'; try done; cbn [scope_contains scope_operations filesystem_contains network_contains git_ref_contains execution_contains credential_contains]; rewrite !andb_true_iff, ?subset_spec; intros Hc;
    (split; [|done]); naive_solver.
Qed.

(** C38. Delegation only narrows: along any chain of accepted transitions, the scope reached is contained in the scope the chain
    started from, every concrete access it permits the first scope permits, and the operation reached is one of the
    first scope's operations. *)
Theorem delegation_attenuates c d op d' op' (Hd : delegated c d op d' op') :
  exists s s' action, catalog_resolve c d = Ok s /\ catalog_resolve c d' = Ok s' /\ scope_contains s s' = true
    /\ _operation_parts op' = Ok (_scope_family s, action) /\ action ∈ scope_operations s' /\ action ∈ scope_operations s
    /\ forall x, permits s' x -> permits s x.
Proof.
  assert (exists s s' action, catalog_resolve c d = Ok s /\ catalog_resolve c d' = Ok s' /\ scope_contains s s' = true
    /\ _operation_parts op' = Ok (_scope_family s', action) /\ action ∈ scope_operations s') as (s & s' & a & Hs & Hs' & Hc & Hp & Ha).
  { induction Hd as [d op Hr|d op d1 op1 d2 op2 Hd IH Ht].
    - apply require_operation_Ok in Hr as (s & f & a & Hs & Hp & -> & Ha). exists s, s, a.
      repeat split; try done. apply scope_contains_refl.
    - destruct IH as (s & s1 & a1 & Hs & Hs1 & Hc & _ & _).
      apply require_transition_Ok in Ht as (_ & Ht & t & s2 & Hs1' & Hs2 & Hc2).
      apply require_operation_Ok in Ht as (s2' & f & a & Hs2' & Hp & -> & Ha).
      assert (t = s1) as -> by congruence. assert (s2' = s2) as -> by congruence.
      exists s, s2, a. repeat split; try done. by eapply scope_contains_trans. }
  destruct (contains_operations s s' Hc) as [Hops Hfam]. exists s, s', a. rewrite Hfam in Hp.
  repeat split; try done; [by apply Hops|]. intros x. by apply contains_permits.
Qed.
End delegation.

(** ** A digest stands for one scope *)
Definition scope_value (s : ResourceScope) : pyval := PDict (("schema_version", PInt 1) :: scope_manifest s).
Definition scope_text (s : ResourceScope) : string := dumpsc (scope_value s).
Lemma plain_texts l : plain (str_list l) = true.
Proof. unfold str_list. cbn [plain]. apply forallb_Forall_true, Forall_fmap, Forall_true. done. Qed.
Lemma plain_sorted_texts a : plain (sorted_texts a) = true.
Proof. apply plain_texts. Qed.
Lemma plain_ports l : plain (PList (PInt <$> l)) = true.
Proof. cbn [plain]. apply forallb_Forall_true, Forall_fmap, Forall_true. done. Qed.
Lemma plain_dict d : bool_decide (NoDup (dict_keys d)) = true -> Forall (fun kv => plain kv.2 = true) d -> plain (PDict d) = true.
Proof. intros H1 H2. cbn [plain]. rewrite H1. by apply forallb_Forall_true. Qed.
Create HintDb plain.
#[local] Hint Resolve plain_sorted_texts plain_ports plain_texts : plain.
Lemma plain_canonical s : plain (scope_canonical s) = true.
Proof.
  destruct s as [| |? ? ? ? wt| |]; cbn [scope_canonical filesystem_canonical network_canonical git_ref_canonical execution_canonical credential_canonical]; (apply plain_dict; [reflexivity|]);
    repeat (constructor; [cbn [snd]; auto with plain|]); try constructor. by destruct wt.
Qed.
Lemma plain_scope_value s : plain (scope_value s) = true.
Proof. apply plain_dict; [reflexivity|]. repeat constructor. apply plain_canonical. Qed.
Lemma scope_digest_Ok s d : scope_digest s = Ok d -> d = sha256_hexdigest (scope_text s).
Proof.
  unfold scope_digest, canonical_digest. fold (scope_value s). intros (b & Hb & [= <-])%res_bind_Ok.
  apply canonical_json_bytes_Ok in Hb as [-> _]; [done|apply plain_scope_value].
Qed.
Lemma dumpsc_inj v w : plain v = true -> plain w = true -> dumpsc v = dumpsc w -> canon v = canon w.
Proof.
  intros Hv Hw E. pose proof (loads_dumpsc _ _reject_nonstandard_json_constant reject_duplicates_nodup _ Hv) as H1.
  rewrite E, (loads_dumpsc _ _ reject_duplicates_nodup _ Hw) in H1. congruence.
Qed.
Lemma canon_dict_get d d' : NoDup (dict_keys d) -> NoDup (dict_keys d') -> canon (PDict d) = canon (PDict d') ->
  forall k, canon <$> dict_get k d = canon <$> dict_get k d'.
Proof.
  intros Hd Hd' [= E] k. rewrite <- (dict_get_canon k d Hd), <- (dict_get_canon k d' Hd'). by rewrite E.
Qed.
Lemma str_list_inj l k : str_list l = str_list k -> l = k.
Proof. unfold str_list. intros [= H]. revert H. apply list_fmap_eq_inj. by intros ?? [= ->]. Qed.
Lemma sorted_elements_inj {A} `{Countable A, PyOrd A, !PyOrdLaws A} (a b : gset A) :
  py_sorted (elements a) = py_sorted (elements b) -> a = b.
Proof.
  intros E. apply set_eq. intros x. rewrite <- !elem_of_elements. unfold py_sorted in E.
  rewrite <- (elem_of_sorted_by id x (elements a)), E. by rewrite elem_of_sorted_by.
Qed.
Lemma sorted_texts_inj a b : canon (sorted_texts a) = canon (sorted_texts b) -> a = b.
Proof. unfold sorted_texts. rewrite !canon_strs. intros H%str_list_inj. by apply sorted_elements_inj. Qed.
Lemma sorted_ports_inj (a b : gset Z) :
  canon (PList (PInt <$> py_sorted (elements a))) = canon (PList (PInt <$> py_sorted (elements b))) -> a = b.
Proof.
  cbn [canon]. intros [= E]. apply sorted_elements_inj. rewrite <- !list_fmap_compose in E.
  revert E. apply list_fmap_eq_inj. intros ?? E. by injection E.
Qed.
Lemma opt_str_inj a b : canon (opt_str a) = canon (opt_str b) -> a = b.
Proof. destruct a, b; cbn; congruence. Qed.
(** From equal sorted objects to equal values of each key *)
Ltac by_fields E :=
  let G := fresh "G" in pose proof (fun h1 h2 => canon_dict_get _ _ h1 h2 E) as G;
  specialize (G ltac:(apply (bool_decide_unpack _); reflexivity)); specialize (G ltac:(apply (bool_decide_unpack _); reflexivity));
  clear E; rename G into E.
Ltac field_eq E key K :=
  pose proof (E key) as K; cbn [dict_get] in K;
  repeat first [rewrite bool_decide_eq_true_2 in K by reflexivity | rewrite bool_decide_eq_false_2 in K by discriminate];
  cbn [fmap option_fmap option_map] in K; apply (inj Some) in K.
Lemma scope_canonical_inj s s' :
  scope_kind s = scope_kind s' -> canon (scope_canonical s) = canon (scope_canonical s') -> s = s'.
Proof.
  destruct s, s'; try done; intros _ E; cbn [scope_canonical filesystem_canonical network_canonical git_ref_canonical execution_canonical credential_canonical] in E; by_fields E.
  - field_eq E "workspace_id" K1. field_eq E "root" K2. field_eq E "operations" K3.
    injection K1 as ->. injection K2 as ->. apply sorted_texts_inj in K3. by subst.
  - field_eq E "schemes" K1. field_eq E "hosts" K2. field_eq E "ports" K3. field_eq E "path_prefixes" K4.
    field_eq E "operations" K5. field_eq E "blocked_hosts" K6.
    apply sorted_texts_inj in K1, K2, K4, K5, K6. apply sorted_ports_inj in K3. by subst.
  - field_eq E "repository" K1. field_eq E "refs" K2. field_eq E "ref_namespaces" K3. field_eq E "operations" K4.
    field_eq E "worktree_root" K5. injection K1 as ->. apply sorted_texts_inj in K2, K3, K4. apply opt_str_inj in K5. by subst.
  - field_eq E "workspace_id" K1. field_eq E "executable" K2. field_eq E "argv_prefix" K3. field_eq E "argv_exact" K4.
    field_eq E "cwd" K5. field_eq E "operations" K6. injection K1 as ->. injection K2 as ->. rewrite !canon_strs in K3.
    apply str_list_inj in K3. injection K4 as ->. injection K5 as ->. apply sorted_texts_inj in K6. by subst.
  - field_eq E "provider" K1. field_eq E "names" K2. field_eq E "operations" K3. injection K1 as ->.
    apply sorted_texts_inj in K2, K3. by subst.
Qed.
Lemma scope_kind_value_inj k k' : scope_kind_value k = scope_kind_value k' -> k = k'.
Proof. by destruct k, k'. Qed.
Lemma scope_text_inj s s' : scope_text s = scope_text s' -> s = s'.
Proof.
  intros E%dumpsc_inj; [|apply plain_scope_value..]. unfold scope_value, scope_manifest in E. by_fields E.
  field_eq E "kind" K1. field_eq E "scope" K2. injection K1 as K1%scope_kind_value_inj. by apply scope_canonical_inj.
Qed.

(** ** Catalogs *)
Section catalogs.
Context `{PlatformLaws}.
(** Every entry is filed under its own digest. *)
Definition well_filed (scopes : list (string * ResourceScope)) : Prop :=
  NoDup (dict_keys scopes) /\ Forall (fun ds => scope_digest ds.2 = Ok ds.1) scopes.
Lemma validated_well_filed scopes : forall acc v, well_filed acc -> validated_scopes scopes acc = Ok v -> well_filed v.
Proof.
  induction scopes as [|[d s] scopes IH]; intros acc v [Hn Hf]; cbn [validated_scopes]; [by intros [= <-]|].
  intros (? & _ & (? & _ & (x & Hx & (? & He%raise_if_Ok & Hv)%res_bind_Ok)%res_bind_Ok)%res_bind_Ok)%res_bind_Ok.
  apply negb_false_iff, bool_decide_eq_true in He. subst x. eapply IH; [|exact Hv].
  split; [by apply dict_set_nodup|]. by apply dict_set_Forall.
Qed.
Lemma make_catalog_well_filed scopes policy c : make_catalog scopes policy = Ok c ->
  well_filed (cat_scopes c) /\ cat_policy_digest c = policy /\ _catalog_digest (cat_scopes c) policy = Ok (cat_digest c).
Proof.
  unfold make_catalog. intros (? & _ & (v & Hv & (d & Hd & [= <-])%res_bind_Ok)%res_bind_Ok)%res_bind_Ok.
  split; [|done]. eapply validated_well_filed; [|exact Hv]. split; constructor.
Qed.
Lemma from_manifest_Ok value expected c : from_manifest value expected = Ok c ->
  well_filed (cat_scopes c) /\ (forall e, expected = Some e -> cat_policy_digest c = Some e).
Proof.
  unfold from_manifest. destruct value as [| | | | | |d]; try done.
  intros (? & _ & (? & _ & (policy & _ & (? & He%raise_if_Ok & Hm)%res_bind_Ok)%res_bind_Ok)%res_bind_Ok)%res_bind_Ok.
  destruct (field "scopes" d) as [| | | | |entries|]; try done.
  apply res_bind_Ok in Hm as (scopes & _ & (order & Ho & (? & _ & [= <-])%res_bind_Ok)%res_bind_Ok).
  apply make_catalog_well_filed in Ho as (Hw & Hp & _). split; [done|]. intros e ->.
  apply negb_false_iff, bool_decide_eq_true in He. congruence.
Qed.
Lemma resolve_filed c d s : well_filed (cat_scopes c) -> catalog_resolve c d = Ok s -> scope_digest s = Ok (str_lower d).
Proof.
  intros [_ Hf] Hr. unfold catalog_resolve in Hr. destruct (dict_get _ _) as [t|] eqn:E; [|done]. injection Hr as ->.
  apply dict_get_Some in E. rewrite Forall_forall in Hf. exact (Hf _ E).
Qed.

(** What a digest means does not depend on the catalog it is looked up in: a decoded catalog is bound to the expected policy and
    every scope it resolves hashes to its digest; two decoded catalogs that both resolve a digest resolve it to the
    same scope, unless the texts of two different scopes collide under SHA-256. *)
Theorem resolved_scope_is_bound value value' policy c c' d s s'
  (Hc : from_manifest value (Some policy) = Ok c) (Hc' : from_manifest value' (Some policy) = Ok c')
  (Hs : catalog_resolve c d = Ok s) (Hs' : catalog_resolve c' d = Ok s')
  (Hcol : sha256_hexdigest (scope_text s) = sha256_hexdigest (scope_text s') -> scope_text s = scope_text s') :
  cat_policy_digest c = Some policy /\ scope_digest s = Ok (str_lower d) /\ s = s'.
Proof.
  apply from_manifest_Ok in Hc as [Hw Hp], Hc' as [Hw' _].
  pose proof (resolve_filed c d s Hw Hs) as Hd. pose proof (resolve_filed c' d s' Hw' Hs') as Hd'.
  split; [by apply Hp|]. split; [done|]. apply scope_text_inj, Hcol.
  apply scope_digest_Ok in Hd, Hd'. congruence.
Qed.

(** ** A catalog survives its manifest *)
(** A scope its own constructor leaves alone *)
Definition stable (s : ResourceScope) : Prop := make_scope s = Ok s.
Lemma as_text_list l : res_map as_text (PStr <$> l) = Ok l.
Proof. induction l as [|x l IH]; [done|]. cbn. by rewrite IH. Qed.
Lemma as_int_list l : res_map as_int (PInt <$> l) = Ok l.
Proof. induction l as [|x l IH]; [done|]. cbn. by rewrite IH. Qed.
Lemma sorted_elements_set {A} `{Countable A, PyOrd A, !PyOrdLaws A} (a : gset A) : list_to_set (py_sorted (elements a)) = a.
Proof. apply set_eq. intros x. rewrite elem_of_list_to_set. unfold py_sorted. by rewrite elem_of_sorted_by, elem_of_elements. Qed.
Lemma text_set_sorted body key a : field key body = sorted_texts a -> text_set body key = Ok a.
Proof.
  intros Hf. unfold text_set, _manifest_text_list. rewrite Hf. unfold sorted_texts, str_list. rewrite as_text_list. cbn.
  by rewrite sorted_elements_set.
Qed.
Lemma int_list_field body key l : field key body = PList (PInt <$> l) -> _manifest_int_list body key = Ok l.
Proof. intros Hf. unfold _manifest_int_list. rewrite Hf. apply as_int_list. Qed.
Lemma text_list_field body key l : field key body = str_list l -> _manifest_text_list body key = Ok l.
Proof. intros Hf. unfold _manifest_text_list. rewrite Hf. apply as_text_list. Qed.
(** A body with the fields of [d], in any order *)
Definition same_fields (d body : list (string * pyval)) : Prop :=
  (forall k, dict_get k body = dict_get k d) /\ (forall k, k ∈ dict_keys body -> k ∈ dict_keys d).
Lemma known_keys body allowed : (forall k, k ∈ dict_keys body -> str_in k allowed = true) -> _reject_unknown_fields body allowed = Ok tt.
Proof.
  intros Hk. unfold _reject_unknown_fields. apply raise_if_false, negb_false_iff, forallb_Forall_true, Forall_forall. exact Hk.
Qed.
Lemma known_fields d body allowed : same_fields d body -> forallb (fun k => str_in k allowed) (dict_keys d) = true ->
  _reject_unknown_fields body allowed = Ok tt.
Proof.
  intros [_ Hk] Hd. rewrite forallb_Forall_true, Forall_forall in Hd. apply known_keys. auto.
Qed.
Lemma decode_canonical s d body : scope_canonical s = PDict d -> same_fields d body -> decode_scope (scope_kind s) body = make_scope s.
Proof.
  destruct s as [ws root ops|sch ho po pre ops bl|rep refs ops ns wt|ws ex argv cwd ops exact|pr names ops];
    cbn [scope_canonical filesystem_canonical network_canonical git_ref_canonical execution_canonical credential_canonical]; intros [= <-] Hsame; cbn [scope_kind decode_scope];
    (erewrite known_fields; [|exact Hsame|reflexivity]); cbn [res_bind]; destruct Hsame as [Hg _];
    unfold text_field; rewrite ?Hg; cbn -[make_scope text_set _manifest_text_list _manifest_int_list field].
  - erewrite !text_set_sorted; [done|unfold field; by rewrite Hg].
  - erewrite !text_set_sorted, int_list_field; [|unfold field; by rewrite Hg..]. cbn [res_bind]. by rewrite sorted_elements_set.
  - erewrite !text_set_sorted; [|unfold field; by rewrite Hg..]. unfold field. rewrite Hg. by destruct wt.
  - erewrite text_list_field, text_set_sorted; [done|unfold field; by rewrite Hg..].
  - erewrite !text_set_sorted; [done|unfold field; by rewrite Hg..].
Qed.

Lemma dict_get_canon_stable d : NoDup (dict_keys d) -> Forall (fun kv => canon kv.2 = kv.2) d ->
  same_fields d (sorted_by fst ((fun kv => (kv.1, canon kv.2)) <$> d)).
Proof.
  intros Hn Hs. split.
  - intros k. rewrite (dict_get_canon k d Hn). destruct (dict_get k d) as [v|] eqn:E; [|done].
    apply dict_get_Some in E. rewrite Forall_forall in Hs. exact (f_equal Some (Hs _ E)).
  - intros k Hk. by rewrite elem_of_keys_canon in Hk.
Qed.
Lemma canonical_fields_stable s d : scope_canonical s = PDict d ->
  NoDup (dict_keys d) /\ Forall (fun kv => canon kv.2 = kv.2) d.
Proof.
  assert (forall a, canon (sorted_texts a) = sorted_texts a) as Ht by (intros a; apply canon_strs).
  assert (forall l, canon (PList (PInt <$> l)) = PList (PInt <$> l)) as Hi.
  { intros l. cbn [canon]. f_equal. rewrite <- list_fmap_compose. done. }
  destruct s as [| |? ? ? ? wt| |]; cbn [scope_canonical filesystem_canonical network_canonical git_ref_canonical execution_canonical credential_canonical]; intros [= <-]; (split; [apply (bool_decide_unpack _); reflexivity|]);
    repeat (constructor; [cbn [snd]; auto using canon_strs|]); try constructor. by destruct wt.
Qed.
Lemma scope_from_canon s : stable s -> _scope_from_manifest (scope_kind_value (scope_kind s)) (canon (scope_canonical s)) = Ok s.
Proof.
  intros Hs. destruct (scope_canonical s) as [| | | | | |d] eqn:E; [by destruct s..|].
  cbn [canon _scope_from_manifest]. destruct (canonical_fields_stable s d E) as [Hn Hf].
  replace (List.find _ scope_kinds) with (Some (scope_kind s)) by (by destruct s).
  rewrite (decode_canonical s d _ E (dict_get_canon_stable d Hn Hf)), Hs. done.
Qed.
Lemma hex_digest_lower d : is_sha256_hex d = true ->
  str_lower d = d /\ py_len d = 64 /\ string_forallb is_hex_lower d = true.
Proof.
  intros Hd. split; [|split; [by apply sha256_hex_len|by apply andb_true_iff in Hd as [_ Hd]]].
  apply str_lower_id. apply andb_true_iff in Hd as [_ Hd]. eapply string_forallb_impl, Hd.
  intros c Hc. unfold is_hex_lower, between in *. lia.
Qed.
Lemma filed_digest ds : scope_digest ds.2 = Ok ds.1 -> is_sha256_hex ds.1 = true.
Proof. apply canonical_digest_form. Qed.
Definition entry_value (ds : string * ResourceScope) : pyval := PDict (("digest", PStr ds.1) :: scope_manifest ds.2).
Lemma entry_fields ds d : canon (entry_value ds) = PDict d ->
  field "digest" d = PStr ds.1 /\ field "kind" d = PStr (scope_kind_value (scope_kind ds.2))
  /\ field "scope" d = canon (scope_canonical ds.2).
Proof.
  unfold entry_value. set (fields := ("digest", _) :: _). intros [= <-].
  assert (NoDup (dict_keys fields)) as Hn by (apply (bool_decide_unpack _); reflexivity).
  unfold field. by rewrite !(dict_get_canon _ _ Hn).
Qed.
Lemma manifest_scopes_canon l : forall acc,
  NoDup (dict_keys (acc ++ l)) -> Forall (fun ds => scope_digest ds.2 = Ok ds.1 /\ stable ds.2) l ->
  manifest_scopes (canon <$> (entry_value <$> l)) acc = Ok (acc ++ l).
Proof.
  induction l as [|[d s] l IH]; intros acc Hn Hf; [by rewrite app_nil_r|]. inversion Hf as [|? ? [Hd Hs] Hl]; subst.
  destruct (canon (entry_value (d, s))) as [| | | | | |e] eqn:E; try (by unfold entry_value in E).
  rewrite !fmap_cons, E. cbn [manifest_scopes]. destruct (entry_fields _ _ E) as (-> & -> & ->). cbn [fst snd] in *.
  destruct (hex_digest_lower d (filed_digest (d, s) Hd)) as (Hlow & Hlen & Hhex).
  unfold is_hex_digest. rewrite Hlow, Hlen, Hhex, bool_decide_eq_true_2 by done. cbn [andb negb orb Z.eqb Pos.eqb raise_if res_bind].
  assert (d ∉ dict_keys acc) as Hfresh.
  { unfold dict_keys in Hn. rewrite fmap_app, fmap_cons in Hn. apply NoDup_app in Hn as (_ & Hdis & _).
    intros Hin. apply (Hdis _ Hin). left. }
  rewrite bool_decide_eq_false_2 by done. cbn [raise_if res_bind]. rewrite (scope_from_canon s Hs). cbn [res_bind].
  rewrite dict_set_fresh, IH; [by rewrite <- (assoc_L (++))|by rewrite <- (assoc_L (++))|done|done].
Qed.
Lemma validated_scopes_filed l : forall acc,
  NoDup (dict_keys (acc ++ l)) -> Forall (fun ds => scope_digest ds.2 = Ok ds.1) l -> validated_scopes l acc = Ok (acc ++ l).
Proof.
  induction l as [|[d s] l IH]; intros acc Hn Hf; [by rewrite app_nil_r|]. inversion Hf as [|? ? Hd Hl]; subst.
  cbn [validated_scopes]. destruct (hex_digest_lower d (filed_digest (d, s) Hd)) as (Hlow & Hlen & Hhex). cbn [fst snd] in *.
  rewrite Hlow, Hlen, Hhex, Hd. cbn [negb raise_if res_bind Z.eqb Pos.eqb]. rewrite bool_decide_eq_true_2 by done.
  cbn [negb raise_if res_bind]. assert (d ∉ dict_keys acc) as Hfresh.
  { unfold dict_keys in Hn. rewrite fmap_app, fmap_cons in Hn. apply NoDup_app in Hn as (_ & Hdis & _).
    intros Hin. apply (Hdis _ Hin). left. }
  rewrite dict_set_fresh, IH; [by rewrite <- (assoc_L (++))|by rewrite <- (assoc_L (++))|done|done].
Qed.

Lemma well_filed_sorted scopes : well_filed scopes -> well_filed (sorted_by fst scopes).
Proof.
  intros [Hn Hf]. split; [by apply (sorted_by_nodup fst)|by apply (Forall_sorted_by fst)].
Qed.
Lemma catalog_digest_sorted scopes policy : _catalog_digest (sorted_by fst scopes) policy = _catalog_digest scopes policy.
Proof. unfold _catalog_digest, catalog_entries. by rewrite sorted_by_idemp. Qed.
(** The fields of a decoded manifest *)
Lemma manifest_fields c d : canon (catalog_manifest c) = PDict d ->
  field "schema_version" d = PInt 1 /\ field "policy_digest" d = opt_str (cat_policy_digest c)
  /\ field "catalog_digest" d = PStr (cat_digest c)
  /\ field "scopes" d = PList (canon <$> (entry_value <$> sorted_by fst (cat_scopes c)))
  /\ _reject_unknown_fields d ["schema_version"; "policy_digest"; "catalog_digest"; "scopes"] = Ok tt.
Proof.
  unfold catalog_manifest. set (fields := ("schema_version", _) :: _). intros [= <-].
  assert (NoDup (dict_keys fields)) as Hn by (apply (bool_decide_unpack _); reflexivity).
  unfold field. rewrite !(dict_get_canon _ _ Hn).
  split; [done|]. split; [by cbn; destruct (cat_policy_digest c)|]. split; [done|]. split; [done|].
  apply known_keys. intros k Hk. unfold dict_keys in Hk. cbn [fmap list_fmap fst] in Hk.
  repeat (apply elem_of_cons in Hk as [->|Hk]; [reflexivity|]). by apply not_elem_of_nil in Hk.
Qed.
Lemma from_canon_manifest scopes policy c expected : make_catalog scopes policy = Ok c ->
  Forall (fun ds => stable ds.2) (cat_scopes c) -> (forall e, expected = Some e -> policy = Some e) ->
  from_manifest (canon (catalog_manifest c)) expected = Ok (MkCatalog (sorted_by fst (cat_scopes c)) policy (cat_digest c)).
Proof.
  intros Hc Hst He. pose proof (make_catalog_well_filed _ _ _ Hc) as (Hw & Hp & Hdig).
  assert (match policy with Some p => let* _ := _require_text p in Ok tt | None => Ok tt end = Ok tt) as Hpol.
  { unfold make_catalog in Hc. apply res_bind_Ok in Hc as ([] & Hpol & _). done. }
  destruct (canon (catalog_manifest c)) as [| | | | | |d] eqn:E; try (by unfold catalog_manifest in E).
  destruct (manifest_fields c d E) as (H1' & H2' & H3' & H4' & H5'). unfold from_manifest, opt_text_field.
  rewrite H5', H1', H2', H4', Hp. cbn [res_bind negb raise_if equals_one Z.eqb Pos.eqb].
  replace (match opt_str policy with PNone => Ok None | PStr s => Ok (Some s) | _ => _ end) with (Ok policy)
    by (by destruct policy). cbn [res_bind].
  replace (match expected with Some e => negb (bool_decide (policy = Some e)) | None => false end) with false.
  2: { destruct expected as [e|]; [|done]. by rewrite bool_decide_eq_true_2 by (by apply He). }
  cbn [raise_if res_bind]. pose proof (well_filed_sorted _ Hw) as [Hn Hf].
  rewrite manifest_scopes_canon; [|done|].
  2: { apply (Forall_sorted_by fst) in Hst. rewrite Forall_forall in *. naive_solver. }
  cbn [res_bind app]. unfold make_catalog. rewrite Hpol. cbn [res_bind].
  rewrite (validated_scopes_filed _ [] Hn Hf). cbn [res_bind app]. rewrite catalog_digest_sorted, Hdig. cbn [res_bind cat_digest].
  rewrite H3', bool_decide_eq_true_2 by done. done.
Qed.
Lemma plain_manifest c : plain (catalog_manifest c) = true.
Proof.
  apply plain_dict; [reflexivity|]. repeat constructor; [by destruct (cat_policy_digest c)|]. cbn [snd]. unfold catalog_entries.
  cbn [plain]. apply forallb_Forall_true, Forall_fmap, Forall_forall. intros ds _. cbn [compose].
  apply plain_dict; [reflexivity|]. repeat constructor. apply plain_canonical.
Qed.

(** A catalog survives its file: the canonical text of the manifest of any catalog of stable scopes is decoded, under its own
    policy digest, to the same catalog, in which every digest resolves to the same scope. *)
Theorem catalog_text_round_trip scopes policy c raw expected
  (Hc : make_catalog scopes policy = Ok c) (Hst : Forall (fun ds => stable ds.2) (cat_scopes c))
  (Hraw : canonical_json_bytes (catalog_manifest c) = Ok raw) (Hutf : valid_utf8 raw = true)
  (Hsize : Z.of_nat (String.length raw) <= MAX_TYPED_RESOURCE_CATALOG_BYTES)
  (He : forall e, expected = Some e -> policy = Some e) :
  exists c', from_json_text raw expected = Ok c' /\ cat_digest c' = cat_digest c /\ cat_policy_digest c' = policy
    /\ forall d, catalog_resolve c' d = catalog_resolve c d.
Proof.
  exists (MkCatalog (sorted_by fst (cat_scopes c)) policy (cat_digest c)). split; [|split; [done|split; [done|]]].
  - unfold from_json_text, strict_json_loads, check_json_bound. cbn [res_bind].
    replace (MAX_TYPED_RESOURCE_CATALOG_BYTES <=? 0) with false by done.
    assert ((MAX_TYPED_RESOURCE_CATALOG_BYTES <? Z.of_nat (String.length raw)) = false) as Hb by lia.
    rewrite Hb, Hutf. cbn [negb raise_if res_bind]. rewrite Hb. cbn [raise_if res_bind]. clear Hb. apply canonical_json_bytes_Ok in Hraw as [-> _]; [|apply plain_manifest].
    rewrite (loads_dumpsc _ _ reject_duplicates_nodup _ (plain_manifest c)). cbn [try_except res_bind].
    by eapply from_canon_manifest.
  - intros d. unfold catalog_resolve. cbn [cat_scopes]. rewrite dict_get_sorted; [done|].
    by destruct (make_catalog_well_filed _ _ _ Hc) as ([Hn _] & _).
Qed.
End catalogs.

(** ** Examples *)
Import PermissionRules.Example.
Definition digest_or_empty (s : ResourceScope) : string := match scope_digest s with Ok d => d | Raise _ => EmptyString end.
Definition whole_tree : ResourceScope := FilesystemScope "/w" "/w" {["read"; "write"]}.
Definition source_tree : ResourceScope := FilesystemScope "/w" "/w/src" {["read"]}.
Definition no_catalog : Catalog := MkCatalog [] None EmptyString.
Definition catalog_or_none (m : res Catalog) : Catalog := match m with Ok c => c | Raise _ => no_catalog end.
Definition some_entries : list (string * ResourceScope) :=
  [(digest_or_empty whole_tree, whole_tree); (digest_or_empty source_tree, source_tree)].
Definition some_catalog : Catalog := catalog_or_none (make_catalog some_entries (Some "policy")).
Lemma some_catalog_made : make_catalog some_entries (Some "policy") = Ok some_catalog.
Proof. vm_compute. reflexivity. Qed.

Lemma delegation_attenuates_witness :
  exists s s' action, catalog_resolve some_catalog (digest_or_empty whole_tree) = Ok s
    /\ catalog_resolve some_catalog (digest_or_empty source_tree) = Ok s' /\ scope_contains s s' = true
    /\ _operation_parts "workspace.read" = Ok (_scope_family s, action) /\ action ∈ scope_operations s'
    /\ action ∈ scope_operations s /\ forall x, permits s' x -> permits s x.
Proof.
  apply (delegation_attenuates some_catalog (digest_or_empty whole_tree) "workspace.write"
    (digest_or_empty source_tree) "workspace.read").
  apply (dl_step some_catalog _ _ (digest_or_empty whole_tree) "workspace.write").
  - apply dl_held. vm_compute. reflexivity.
  - vm_compute. reflexivity.
Defined.

Definition some_text : string := dumpsc (catalog_manifest some_catalog).
Lemma some_stable : Forall (fun ds => stable ds.2) (cat_scopes some_catalog).
Proof.
  replace (cat_scopes some_catalog) with some_entries by (vm_compute; reflexivity).
  repeat constructor; vm_compute; reflexivity.
Qed.
Lemma catalog_text_round_trip_witness :
  exists c', from_json_text some_text (Some "policy") = Ok c' /\ cat_digest c' = cat_digest some_catalog
    /\ cat_policy_digest c' = Some "policy" /\ forall d, catalog_resolve c' d = catalog_resolve some_catalog d.
Proof.
  apply (catalog_text_round_trip some_entries (Some "policy") some_catalog some_text (Some "policy") some_catalog_made some_stable).
  - vm_compute. reflexivity.
  - vm_compute. reflexivity.
  - vm_compute. discriminate.
  - intros e He. exact He.
Defined.

Definition some_manifest : pyval := canon (catalog_manifest some_catalog).
Lemma some_manifest_read : from_manifest some_manifest (Some "policy") = Ok (catalog_or_none (from_manifest some_manifest (Some "policy"))).
Proof. vm_compute. reflexivity. Qed.
Lemma resolved_scope_is_bound_witness : scope_digest source_tree = Ok (str_lower (digest_or_empty source_tree)).
Proof.
  refine (proj1 (proj2 (resolved_scope_is_bound some_manifest some_manifest "policy" _ _ (digest_or_empty source_tree)
    source_tree source_tree some_manifest_read some_manifest_read _ _ (fun _ => eq_refl)))); vm_compute; reflexivity.
Defined.

(** A host without symbolic links and home directories *)
#[export] Instance example_paths : HostPaths := {
  expanduser p := Ok (pure_posix_path p);
  path_resolve p := Ok (String "/" (join "/" (rev (foldl (norm_step true) [] (path_parts p)))))
}.

#[export] Instance example_paths_laws : HostPathsLaws.
Proof.
  assert (forall p, let comps := rev (foldl (norm_step true) [] (path_parts p)) in
    path_parts (String "/" (join "/" comps)) = comps /\ ".." ∉ comps) as Hr.
  { intros p. destruct (norm_rooted (path_parts p) []) as [H1 H2]; [apply path_parts_components|done|set_solver|].
    cbn zeta. rewrite rev_alt.
    split; [apply path_parts_root; by apply (Forall_reverse _ _)|]. by apply (not_iff_compat (elem_of_reverse _ _)). }
  split.
  - intros p q [= <-]. destruct (Hr p) as [H1 H2]. cbn zeta in *. unfold plain_path. by rewrite H1.
  - intros p q [= <-]. destruct (Hr p) as [H1 H2]. cbn zeta in *. cbn [path_resolve example_paths]. do 2 f_equal. f_equal.
    rewrite H1, norm_no_dots by done. by rewrite app_nil_r, rev_involutive.
  - intros p Hp. cbn [expanduser example_paths]. f_equal. unfold pure_posix_path.
    assert (initial_slashes p = "/") as ->; [|exact (eq_sym Hp)].
    by apply plain_initial_slashes.
Qed.

(** Containment is not antisymmetric: a prefix below another one adds nothing. *)
Example containment_not_antisymmetric :
  let net prefixes := NetworkScope {["https"]} {["example.org"]} {[443]} prefixes {["connect"]} ∅ in
  let a := net {["/a"]} in let b := net {["/a"; "/a/b"]} in
  a ≠ b /\ scope_contains a b = true /\ scope_contains b a = true.
Proof. split; [by vm_compute|]. vm_compute. done. Qed.
(** A root with backslashes is normalised before they become slashes, so the constructor changes its own result, and a catalog with
    such a scope is refused when it is read back. *)
Definition backslash_root : string := "/w/a" +:+ String "\" ("." +:+ String "\" "b").
Example backslash_root_is_not_stable :
  let c := catalog_or_none (compile_typed_resource_catalog "/w" "policy" [backslash_root] {["read"]} None ∅ false None) in
  (ds ← head (cat_scopes c); Some ds.2) = Some (FilesystemScope "/w" "/w/a/./b" {["read"]})
  /\ from_manifest (canon (catalog_manifest c)) (Some "policy") = scope_error "resource catalog digest does not match scope".
Proof. vm_compute. done. Qed.
