(* ===== verification/EffectivePolicy.v ===== *)
(** * The layered security policy ([security/policy.py], [security/effective_policy.py], [security/sandbox.py])

    A policy document of the project and one of the user are validated, decoded and compiled with the platform's upper bound
    into one immutable policy with a digest and a catalog of typed resources; the sandbox enforces its mode and its path
    capabilities.

    A document is the value the YAML parser returns, with text keys.  The fields of a decoded layer are untyped, as in the
    source: [from_dict] stores what the document has.  Paths are texts, resolved by the host ([HostPaths]). *)
From Stdlib Require Import Ascii.
From stdpp Require Import gmap.
From S2P Require Import Prelude PyStr Json PyValue Sha256 ProtocolBoundary ShellSemantics PyText PermissionRules ResourceScope.
Open Scope Z_scope.

(** ** Layers ([SandboxPolicy]) *)
Record SandboxPolicy := MkPolicy {
  sp_mode : pyval; sp_network_enabled : pyval; sp_network_allowed_domains : pyval; sp_network_blocked_domains : pyval;
  sp_allowed_paths : pyval; sp_denied_paths : pyval; sp_commands_allowed : pyval; sp_commands_require_approval : pyval;
  sp_commands_blocked : pyval; sp_secrets_scan_on_output : pyval; sp_secrets_scan_before_tool_result : pyval;
  sp_secrets_block_env_dump : pyval; sp_audit_enabled : pyval; sp_audit_log_path : pyval; sp_channel_admins : pyval
}.
Definition _DEFAULT_DENIED_PATHS : list string :=
  ["~/.ssh"; "~/.aws"; "~/.gnupg"; "~/.config/gcloud"; "/etc/shadow"; "/etc/passwd"; "/etc/sudoers"].
Definition _DEFAULT_REQUIRE_APPROVAL : list string :=
  ["git push"; "rm"; "curl"; "wget"; "docker"; "npm publish"; "pip install"; "cargo publish"].
Definition default_policy : SandboxPolicy :=
  MkPolicy (PStr "workspace-write") (PBool false) PNone (PList []) (str_list ["."]) (str_list _DEFAULT_DENIED_PATHS) PNone
    (str_list _DEFAULT_REQUIRE_APPROVAL) (PList []) (PBool true) (PBool true) (PBool true) (PBool true) PNone PNone.

Definition _ALLOWED_TOP_LEVEL : list string := ["sandbox"; "commands"; "secrets"; "audit"; "channels"].
Definition _ALLOWED_SANDBOX_KEYS : list string :=
  ["mode"; "network"; "allowed_domains"; "blocked_domains"; "allowed_paths"; "denied_paths"].
Definition _ALLOWED_COMMANDS_KEYS : list string := ["allow"; "require_approval"; "block"].
Definition _ALLOWED_SECRETS_KEYS : list string := ["scan_on_output"; "scan_before_tool_result"; "block_env_dump"].
Definition _ALLOWED_AUDIT_KEYS : list string := ["enabled"; "log_path"].
Definition _ALLOWED_CHANNELS_KEYS : list string := ["admin_principals"].
Definition known_keys_only (allowed : list string) (d : list (string * pyval)) : bool :=
  forallb (fun k => str_in k allowed) (dict_keys d).

(** [data.get(name) or {}] *)
Definition section_or_empty (name : string) (data : list (string * pyval)) : pyval :=
  let v := get name data in if truthy v then v else PDict [].
Definition _check_section (mapping : pyval) (allowed : list string) : res unit :=
  match mapping with
  | PDict d => raise_if (negb (known_keys_only allowed d)) ValueError "unknown key(s)"
  | _ => Ok tt
  end.
Definition _reject_unknown_keys (data : list (string * pyval)) : res unit :=
  _check_section (PDict data) _ALLOWED_TOP_LEVEL ;;*
  _check_section (section_or_empty "sandbox" data) _ALLOWED_SANDBOX_KEYS ;;*
  _check_section (section_or_empty "commands" data) _ALLOWED_COMMANDS_KEYS ;;*
  _check_section (section_or_empty "secrets" data) _ALLOWED_SECRETS_KEYS ;;*
  _check_section (section_or_empty "audit" data) _ALLOWED_AUDIT_KEYS ;;*
  _check_section (section_or_empty "channels" data) _ALLOWED_CHANNELS_KEYS.
(** The [get] method of a section *)
Definition as_section (v : pyval) : res (list (string * pyval)) :=
  match v with PDict d => Ok d | _ => Raise (Exn AttributeError "object has no attribute 'get'") end.
Definition from_dict (data : pyval) : res SandboxPolicy :=
  match data with
  | PDict d =>
      _reject_unknown_keys d ;;*
      let* sandbox := as_section (section_or_empty "sandbox" d) in
      let* commands := as_section (section_or_empty "commands" d) in
      let* secrets := as_section (section_or_empty "secrets" d) in
      let* audit := as_section (section_or_empty "audit" d) in
      let* channels := as_section (section_or_empty "channels" d) in
      Ok {| sp_mode := get_or "mode" (PStr "workspace-write") sandbox;
            sp_network_enabled := get_or "network" (PBool false) sandbox;
            sp_network_allowed_domains := get "allowed_domains" sandbox;
            sp_network_blocked_domains := get_or "blocked_domains" (PList []) sandbox;
            sp_allowed_paths := get_or "allowed_paths" (str_list ["."]) sandbox;
            sp_denied_paths := get_or "denied_paths" (str_list _DEFAULT_DENIED_PATHS) sandbox;
            sp_commands_allowed := get "allow" commands;
            sp_commands_require_approval := get_or "require_approval" (str_list _DEFAULT_REQUIRE_APPROVAL) commands;
            sp_commands_blocked := get_or "block" (PList []) commands;
            sp_secrets_scan_on_output := get_or "scan_on_output" (PBool true) secrets;
            sp_secrets_scan_before_tool_result := get_or "scan_before_tool_result" (PBool true) secrets;
            sp_secrets_block_env_dump := get_or "block_env_dump" (PBool true) secrets;
            sp_audit_enabled := get_or "enabled" (PBool true) audit;
            sp_audit_log_path := get "log_path" audit;
            sp_channel_admins := get "admin_principals" channels |}
  | _ => value_error "policy must be a mapping at the top level"
  end.

(** ** Validation of a document *)
Definition policy_error {A} (msg : string) : res A := Raise (Exn PolicyCompilationError msg).
Definition _check_keys (mapping : pyval) (allowed : list string) : res (list (string * pyval)) :=
  match mapping with
  | PDict d => raise_if (negb (known_keys_only allowed d)) PolicyCompilationError "has unknown keys" ;;* Ok d
  | _ => policy_error "must be a mapping"
  end.
Definition _check_list_of_str (value : pyval) : res unit :=
  match value with
  | PNone => Ok tt
  | PList l => raise_if (negb (forallb is_str l)) PolicyCompilationError "must be a list of strings"
  | _ => policy_error "must be a list of strings"
  end.
Definition _check_bool (value : pyval) : res unit :=
  match value with PNone | PBool _ => Ok tt | _ => policy_error "must be a boolean (true/false)" end.
Definition _check_str (value : pyval) : res unit :=
  match value with PNone | PStr _ => Ok tt | _ => policy_error "must be a string" end.
(** [data.get(name, {})], with [None] replaced *)
Definition raw_section (name : string) (data : list (string * pyval)) : pyval :=
  match get_or name (PDict []) data with PNone => PDict [] | v => v end.
Definition validate_policy_dict (data : pyval) : res unit :=
  match data with
  | PDict d =>
      raise_if (negb (known_keys_only _ALLOWED_TOP_LEVEL d)) PolicyCompilationError "has unknown top-level keys" ;;*
      let* sandbox := _check_keys (raw_section "sandbox" d) _ALLOWED_SANDBOX_KEYS in
      _check_str (get "mode" sandbox) ;;*
      _check_bool (get "network" sandbox) ;;*
      _check_list_of_str (get "allowed_paths" sandbox) ;;*
      _check_list_of_str (get "denied_paths" sandbox) ;;*
      _check_list_of_str (get "allowed_domains" sandbox) ;;*
      _check_list_of_str (get "blocked_domains" sandbox) ;;*
      let* commands := _check_keys (raw_section "commands" d) _ALLOWED_COMMANDS_KEYS in
      _check_list_of_str (get "allow" commands) ;;*
      _check_list_of_str (get "require_approval" commands) ;;*
      _check_list_of_str (get "block" commands) ;;*
      let* secrets := _check_keys (raw_section "secrets" d) _ALLOWED_SECRETS_KEYS in
      _check_bool (get "scan_on_output" secrets) ;;*
      _check_bool (get "scan_before_tool_result" secrets) ;;*
      _check_bool (get "block_env_dump" secrets) ;;*
      let* audit := _check_keys (raw_section "audit" d) _ALLOWED_AUDIT_KEYS in
      _check_bool (get "enabled" audit) ;;*
      _check_str (get "log_path" audit) ;;*
      let* channels := _check_keys (raw_section "channels" d) _ALLOWED_CHANNELS_KEYS in
      _check_list_of_str (get "admin_principals" channels)
  | _ => policy_error "must be a mapping at the top level"
  end.
(** [load_policy] of one path: [None] when there is no such file, otherwise the parsed document *)
Definition load_policy (file : option pyval) : res SandboxPolicy :=
  match file with
  | None => Ok default_policy
  | Some data =>
      let data := match data with PNone => PDict [] | _ => data end in
      validate_policy_dict data ;;*
      from_dict data
  end.

(** ** The sandbox *)
Inductive SandboxMode := READ_ONLY | WORKSPACE_WRITE | FULL_ACCESS | YOLO.
#[export] Instance SandboxMode_eq_dec : EqDecision SandboxMode.
Proof. solve_decision. Defined.
Definition mode_value (m : SandboxMode) : string :=
  match m with READ_ONLY => "read-only" | WORKSPACE_WRITE => "workspace-write" | FULL_ACCESS => "full-access" | YOLO => "yolo" end.
Definition sandbox_modes : list SandboxMode := [READ_ONLY; WORKSPACE_WRITE; FULL_ACCESS; YOLO].
Definition mode_of (value : string) : option SandboxMode := List.find (fun m => bool_decide (mode_value m = value)) sandbox_modes.
Definition CAPABILITIES (m : SandboxMode) : list string :=
  match m with
  | READ_ONLY =>
      ["read_file"; "search_files"; "file_search_content"; "code_search"; "code_symbols"; "list_directory"; "tree_view";
       "file_info"; "git_status"; "git_log"; "git_diff"; "git_branch"; "test_run"; "browser_observe"; "preview_edit_transaction"]
  | WORKSPACE_WRITE =>
      ["read_file"; "search_files"; "file_search_content"; "code_search"; "code_symbols"; "list_directory"; "tree_view";
       "file_info"; "git_status"; "git_log"; "git_diff"; "git_branch"; "test_run"; "terminal_argv"; "terminal_shell"; "process";
       "write_file"; "patch"; "multi_edit"; "preview_edit_transaction"; "apply_edit_transaction"; "copy_file"; "move_file";
       "git_commit"; "git_smart_commit"; "git_undo"; "git_create_branch"; "git_push"; "git_pr_body"; "github_create_pr";
       "github_read_issue"; "github_comment_issue"; "github_request_review"; "spawn_subagent"; "collect_results"; "execute_plan";
       "subagent_status"; "browser_navigate"; "browser_snapshot"; "browser_click"; "browser_type"; "browser_press";
       "browser_app_open"; "browser_observe"; "browser_action"; "browser_session_close"]
  | FULL_ACCESS | YOLO => []
  end.
Record Sandbox := MkSandbox { sb_mode : SandboxMode; sb_workspace_root : string; sb_root_capabilities : option (gset string) }.
Record SandboxCheckResult := MkCheck { cr_allowed : bool; cr_reason : string; cr_mode : string }.
Definition granted (s : Sandbox) : SandboxCheckResult := MkCheck true "" (mode_value (sb_mode s)).
Definition refused (s : Sandbox) (why : string) : SandboxCheckResult := MkCheck false why (mode_value (sb_mode s)).
Definition check_tool (s : Sandbox) (tool_name : string) : SandboxCheckResult :=
  if bool_decide (sb_mode s = YOLO) then granted s
  else if match CAPABILITIES (sb_mode s) with [] => true | tools => str_in tool_name tools end then granted s
  else refused s ("tool '" +:+ tool_name +:+ "' not allowed in " +:+ mode_value (sb_mode s) +:+ " mode").
Definition _capability_denial_reason (caps : gset string) (resolved op : string) : option string :=
  if existsb (fun cap => path_under cap resolved) (elements caps) then None
  else Some (op +:+ " path '" +:+ resolved +:+ "' outside allowed_paths capabilities ("
             +:+ join ", " (py_sorted (elements caps)) +:+ ")").
Section checks.
Context `{HostPaths}.
(** [Sandbox(mode, workspace_root, root_capabilities=...)] *)
Definition make_sandbox (m : SandboxMode) (workspace_root : string) (caps : option (gset string)) : res Sandbox :=
  let* root := full_path workspace_root in Ok (MkSandbox m root caps).
Definition from_policy_mode (mode_str workspace_root : string) : res Sandbox :=
  match mode_of mode_str with
  | Some m => make_sandbox m workspace_root None
  | None => value_error ("Unknown sandbox mode '" +:+ mode_str +:+ "'")
  end.
(** A relative path is one of the workspace. *)
Definition resolved_in (root path : string) : res string :=
  let* candidate := expanduser path in
  path_resolve (if isabs candidate then candidate else root +:+ "/" +:+ candidate).
Definition check_confined (s : Sandbox) (resolved op prefix : string) : SandboxCheckResult :=
  if negb (path_under (sb_workspace_root s) resolved)
  then refused s (prefix +:+ "path '" +:+ resolved +:+ "' outside workspace '" +:+ sb_workspace_root s +:+ "'")
  else match sb_root_capabilities s with
       | None => granted s
       | Some caps => match _capability_denial_reason caps resolved op with Some why => refused s why | None => granted s end
       end.
Definition check_write_path (s : Sandbox) (path : string) : res SandboxCheckResult :=
  match sb_mode s with
  | FULL_ACCESS | YOLO => Ok (granted s)
  | READ_ONLY => Ok (refused s ("write not allowed in " +:+ mode_value (sb_mode s) +:+ " mode"))
  | WORKSPACE_WRITE => let* resolved := resolved_in (sb_workspace_root s) path in Ok (check_confined s resolved "write" "")
  end.
Definition check_read_path (s : Sandbox) (path : string) : res SandboxCheckResult :=
  match sb_mode s with
  | FULL_ACCESS | YOLO => Ok (granted s)
  | _ => let* resolved := resolved_in (sb_workspace_root s) path in Ok (check_confined s resolved "read" "read ")
  end.
End checks.

(** ** The effective policy *)
Definition strictness (m : SandboxMode) : Z :=
  match m with YOLO => 0 | FULL_ACCESS => 1 | WORKSPACE_WRITE => 2 | READ_ONLY => 3 end.
Definition _stricter_mode (a b : SandboxMode) : SandboxMode := if strictness b <=? strictness a then a else b.
Definition _resolve_mode (mode : pyval) : res SandboxMode :=
  match mode with
  | PStr s => match mode_of s with Some m => Ok m | None => policy_error "sandbox.mode is not one of the modes" end
  | _ => policy_error "sandbox.mode is not one of the modes"
  end.
(** [child.relative_to(parent)] succeeds, or the two are equal *)
Definition _is_under_or_equal (child parent : string) : bool := bool_decide (child = parent) || path_under parent child.
Definition meet_with (p : string) (user_caps : list string) (result : gset string) : gset string :=
  foldl (fun result u => if _is_under_or_equal p u then {[p]} ∪ result else if _is_under_or_equal u p then {[u]} ∪ result else result)
    result user_caps.
Definition _intersect_path_capabilities (project_caps user_caps : gset string) : gset string :=
  if bool_decide (project_caps = ∅) || bool_decide (user_caps = ∅) then ∅
  else foldl (fun result p => meet_with p (elements user_caps) result) ∅ (elements project_caps).

Record EffectiveSecurityPolicy := MkEffective {
  ep_mode : SandboxMode; ep_network_enabled : bool; ep_network_allowed_domains : option (gset string);
  ep_network_blocked_domains : gset string; ep_root_capabilities : gset string; ep_denied_paths : gset string;
  ep_commands_allowed : option (gset string); ep_commands_require_approval : gset string; ep_commands_blocked : gset string;
  ep_secrets_scan_on_output : bool; ep_audit_enabled : bool; ep_audit_log_path : pyval;
  ep_secrets_scan_before_tool_result : bool; ep_secrets_block_env_dump : bool; ep_channel_admins : gset string;
  ep_workspace_root : string
}.
(** A compiled policy: the fields, the digest and the catalog *)
Record CompiledPolicy := MkCompiled { cp_policy : EffectiveSecurityPolicy; cp_digest : string; cp_resource_order : Catalog }.

Section effective.
Context `{Platform} `{HostPaths}.
(** [str(v) for v in values] *)
Definition iter_texts (values : pyval) : res (list string) :=
  match values with
  | PList l => Ok (str_of <$> l)
  | PStr s => Ok (chars s)
  | PDict d => Ok (dict_keys d)
  | _ => Raise (Exn TypeError "object is not iterable")
  end.
Definition _frozen (values : pyval) : res (gset string) :=
  if negb (truthy values) then Ok ∅ else let* l := iter_texts values in Ok (list_to_set l).
Definition opt_frozen (values : pyval) : res (option (gset string)) :=
  match values with PNone => Ok None | _ => let* s := _frozen values in Ok (Some s) end.
(** The intersection of two lists of which each may be unset *)
Definition meet_optional (project user : pyval) : res (option (gset string)) :=
  match project, user with
  | PNone, _ => opt_frozen user
  | _, PNone => opt_frozen project
  | _, _ => let* a := _frozen project in let* b := _frozen user in Ok (Some (a ∩ b))
  end.
Fixpoint root_capabilities_of (root : string) (raws : list string) (caps : gset string) : res (gset string) :=
  match raws with
  | [] => Ok caps
  | raw :: rest =>
      let* candidate := expanduser raw in
      match path_resolve (if isabs candidate then candidate else root +:+ "/" +:+ candidate) with
      | Ok resolved => root_capabilities_of root rest (if path_under root resolved then {[resolved]} ∪ caps else caps)
      | Raise e => if existsb (isinstance (exn_cls e)) [OSError; RuntimeError] then root_capabilities_of root rest caps else Raise e
      end
  end.
Definition _compile_root_capabilities (allowed_paths : pyval) (workspace_root : string) : res (gset string) :=
  if negb (truthy allowed_paths) then Ok ∅
  else
    let* root := full_path workspace_root in
    let* raws := iter_texts allowed_paths in
    root_capabilities_of root raws ∅.

(** [relative.as_posix()] of a path below the root *)
Definition relative_posix (root path : string) : string :=
  match drop (length (path_parts root)) (path_parts path) with [] => "." | l => join "/" l end.
Definition canonical_capability (root capability : string) : res string :=
  let* resolved := full_path capability in
  Ok (if path_under root resolved then "workspace:" +:+ relative_posix root resolved else "absolute:" +:+ resolved).
Definition opt_texts (o : option (gset string)) : pyval := match o with Some s => sorted_texts s | None => PNone end.
Definition _canonical_dict (e : EffectiveSecurityPolicy) : res pyval :=
  let* root := full_path (ep_workspace_root e) in
  let* caps := res_map (canonical_capability root) (elements (ep_root_capabilities e)) in
  Ok (PDict
    [("mode", PStr (mode_value (ep_mode e))); ("network_enabled", PBool (ep_network_enabled e));
     ("network_allowed_domains", opt_texts (ep_network_allowed_domains e));
     ("network_blocked_domains", sorted_texts (ep_network_blocked_domains e)); ("root_capabilities", str_list (py_sorted caps));
     ("denied_paths", sorted_texts (ep_denied_paths e)); ("commands_allowed", opt_texts (ep_commands_allowed e));
     ("commands_require_approval", sorted_texts (ep_commands_require_approval e));
     ("commands_blocked", sorted_texts (ep_commands_blocked e)); ("secrets_scan_on_output", PBool (ep_secrets_scan_on_output e));
     ("audit_enabled", PBool (ep_audit_enabled e)); ("audit_log_path", ep_audit_log_path e);
     ("secrets_scan_before_tool_result", PBool (ep_secrets_scan_before_tool_result e));
     ("secrets_block_env_dump", PBool (ep_secrets_block_env_dump e)); ("channel_admins", sorted_texts (ep_channel_admins e))]).
Definition _compute_digest (e : EffectiveSecurityPolicy) : res string :=
  let* v := _canonical_dict e in Ok (sha256_hexdigest (json_dumps_sorted v)).
Definition to_binding (c : CompiledPolicy) : string := "policy:" +:+ cp_digest c.
(** A set of the project layer and, when there is one, of the user layer *)
Definition join_layers (f : SandboxPolicy -> pyval) (project : gset string) (user : option SandboxPolicy) : res (gset string) :=
  match user with Some u => let* b := _frozen (f u) in Ok (project ∪ b) | None => Ok project end.
(** [bool(project.flag) or (user is None or bool(user.flag))] *)
Definition either_layer (f : SandboxPolicy -> pyval) (project : SandboxPolicy) (user : option SandboxPolicy) : bool :=
  truthy (f project) || match user with Some u => truthy (f u) | None => true end.
Definition compile_mode (project : SandboxPolicy) (user : option SandboxPolicy) (max_mode : SandboxMode) : res SandboxMode :=
  let* project_mode := _resolve_mode (sp_mode project) in
  let* m := match user with
            | Some u => let* user_mode := _resolve_mode (sp_mode u) in Ok (_stricter_mode user_mode project_mode)
            | None => Ok project_mode end in
  Ok (_stricter_mode m max_mode).
Definition compile_fields (project : SandboxPolicy) (workspace_root : string) (user : option SandboxPolicy) (max_mode : SandboxMode)
    : res EffectiveSecurityPolicy :=
  let* root := full_path workspace_root in
  let* m := compile_mode project user max_mode in
  let* denied := _frozen (sp_denied_paths project) in
  let* blocked := _frozen (sp_commands_blocked project) in
  let* approval := _frozen (sp_commands_require_approval project) in
  let of_user f := match user with Some u => f u | None => PNone end in
  let* commands := meet_optional (sp_commands_allowed project) (of_user sp_commands_allowed) in
  let* denied := join_layers sp_denied_paths denied user in
  let* blocked := join_layers sp_commands_blocked blocked user in
  let* approval := join_layers sp_commands_require_approval approval user in
  let network := truthy (sp_network_enabled project) && match user with Some u => truthy (sp_network_enabled u) | None => true end in
  let* domains := meet_optional (sp_network_allowed_domains project) (of_user sp_network_allowed_domains) in
  let* blocked_domains := _frozen (sp_network_blocked_domains project) in
  let* blocked_domains := join_layers sp_network_blocked_domains blocked_domains user in
  let* project_caps := _compile_root_capabilities (sp_allowed_paths project) root in
  let* caps := match user with
               | Some u => let* user_caps := _compile_root_capabilities (sp_allowed_paths u) root in
                           Ok (_intersect_path_capabilities project_caps user_caps)
               | None => Ok project_caps end in
  let log_path := of_user sp_audit_log_path in
  raise_if (truthy (sp_channel_admins project)) PolicyCompilationError "project channels.admin_principals is a trusted-only grant" ;;*
  let* admins := match user with Some u => _frozen (sp_channel_admins u) | None => Ok ∅ end in
  Ok {| ep_mode := m; ep_network_enabled := network; ep_network_allowed_domains := domains;
        ep_network_blocked_domains := blocked_domains; ep_root_capabilities := caps; ep_denied_paths := denied;
        ep_commands_allowed := commands; ep_commands_require_approval := approval; ep_commands_blocked := blocked;
        ep_secrets_scan_on_output := either_layer sp_secrets_scan_on_output project user;
        ep_audit_enabled := either_layer sp_audit_enabled project user;
        ep_audit_log_path := if truthy log_path then log_path else PNone;
        ep_secrets_scan_before_tool_result := either_layer sp_secrets_scan_before_tool_result project user;
        ep_secrets_block_env_dump := either_layer sp_secrets_block_env_dump project user;
        ep_channel_admins := admins; ep_workspace_root := root |}.
Definition filesystem_operations (m : SandboxMode) : gset string := if bool_decide (m = READ_ONLY) then {["read"]} else {["read"; "write"]}.
(** The catalog of a policy; [worktree_variable] and [has_git] are of the host *)
Definition policy_catalog (e : EffectiveSecurityPolicy) (digest worktree_variable : string) (has_git : bool) : res Catalog :=
  try_except
    (let* worktree := configured_git_worktree_authority_root worktree_variable in
     compile_typed_resource_catalog (ep_workspace_root e) digest (elements (ep_root_capabilities e)) (filesystem_operations (ep_mode e))
       (ep_network_allowed_domains e) (ep_network_blocked_domains e) has_git worktree)
    [ResourceScopeError] (fun _ => policy_error "effective typed resource catalog is invalid").
Definition compile_effective_policy (project : SandboxPolicy) (workspace_root : string) (user : option SandboxPolicy)
    (max_mode : option SandboxMode) (worktree_variable : string) (has_git : bool) : res CompiledPolicy :=
  let* e := compile_fields project workspace_root user (default WORKSPACE_WRITE max_mode) in
  let* digest := _compute_digest e in
  let* order := policy_catalog e digest worktree_variable has_git in
  Ok (MkCompiled e digest order).
Definition default_user_policy : SandboxPolicy := default_policy.
(** [load_effective_policy] with the two files, [None] when there is none *)
Definition load_effective_policy (workspace_root : string) (project_file user_file : option pyval) (max_mode : option SandboxMode)
    (worktree_variable : string) (has_git : bool) : res CompiledPolicy :=
  let* project := load_policy project_file in
  let* user := match user_file with Some _ => load_policy user_file | None => Ok default_user_policy end in
  compile_effective_policy project workspace_root (Some user) max_mode worktree_variable has_git.
(** The sandbox of a compiled policy, as the runtime builds it *)
Definition policy_sandbox (c : CompiledPolicy) (workspace_root : string) : res Sandbox :=
  make_sandbox (ep_mode (cp_policy c)) workspace_root (Some (ep_root_capabilities (cp_policy c))).
End effective.

(** ** Types of a loaded layer *)
Definition maybe_bool (v : pyval) : Prop := v = PNone \/ exists b, v = PBool b.
Definition maybe_str (v : pyval) : Prop := v = PNone \/ exists s, v = PStr s.
Definition maybe_strs (v : pyval) : Prop := v = PNone \/ exists l, v = str_list l.
Record well_typed (p : SandboxPolicy) : Prop := {
  wt_mode : maybe_str (sp_mode p);
  wt_network : maybe_bool (sp_network_enabled p);
  wt_domains : maybe_strs (sp_network_allowed_domains p) /\ maybe_strs (sp_network_blocked_domains p);
  wt_paths : maybe_strs (sp_allowed_paths p) /\ maybe_strs (sp_denied_paths p);
  wt_commands : maybe_strs (sp_commands_allowed p) /\ maybe_strs (sp_commands_require_approval p) /\ maybe_strs (sp_commands_blocked p);
  wt_secrets : maybe_bool (sp_secrets_scan_on_output p) /\ maybe_bool (sp_secrets_scan_before_tool_result p)
    /\ maybe_bool (sp_secrets_block_env_dump p);
  wt_audit : maybe_bool (sp_audit_enabled p) /\ maybe_str (sp_audit_log_path p);
  wt_admins : maybe_strs (sp_channel_admins p)
}.
Lemma maybe_strs_list l : maybe_strs (str_list l).
Proof. right. by exists l. Qed.
Lemma check_str_Ok v u : _check_str v = Ok u -> maybe_str v.
Proof. unfold maybe_str. destruct v; try done; eauto. Qed.
Lemma check_bool_Ok v u : _check_bool v = Ok u -> maybe_bool v.
Proof. unfold maybe_bool. destruct v; try done; eauto. Qed.
Lemma check_strs_Ok v u : _check_list_of_str v = Ok u -> maybe_strs v.
Proof.
  destruct v as [| | | | |l|]; try done; [by left|]. cbn [_check_list_of_str]. intros Hl%raise_if_Ok. apply negb_false_iff in Hl.
  assert (exists k, l = PStr <$> k) as [k ->]; [|apply maybe_strs_list].
  induction l as [|x l IH]; [by exists []|]. apply andb_true_iff in Hl as [Hx Hl]. destruct x as [| | | |s| |]; try done.
  destruct (IH Hl) as [k ->]. by exists (s :: k).
Qed.
Lemma get_or_typed (P : pyval -> Prop) key def d : P def -> P (get key d) -> P (get_or key def d).
Proof. unfold get, get_or. destruct (dict_get key d); done. Qed.
Create HintDb policy.
#[export] Hint Resolve maybe_strs_list check_str_Ok check_bool_Ok check_strs_Ok : policy.
(** The section that was validated is the one that is read. *)
Lemma section_read name d allowed s : _check_keys (raw_section name d) allowed = Ok s ->
  as_section (section_or_empty name d) = Ok s /\ known_keys_only allowed s = true.
Proof.
  unfold raw_section, section_or_empty, get_or, get. destruct (dict_get name d) as [v|]; cbn [default].
  - destruct v as [| | | | | |x]; try done; cbn [_check_keys truthy].
    + by intros (? & Hk%raise_if_Ok & [= <-])%res_bind_Ok.
    + intros (? & Hk%raise_if_Ok & [= <-])%res_bind_Ok. apply negb_false_iff in Hk. by destruct x.
  - cbn [_check_keys truthy]. by intros (? & Hk%raise_if_Ok & [= <-])%res_bind_Ok.
Qed.
Lemma default_typed : well_typed default_policy.
Proof. split; repeat split; first [by left|exact (maybe_strs_list [])|apply maybe_strs_list|right; eexists; reflexivity]. Qed.
(** A layer that is loaded has fields of their declared types, or null where the document says so. *)
Lemma loaded_typed file p : load_policy file = Ok p -> well_typed p.
Proof.
  intros Hp.
  destruct file as [data|]; cbn [load_policy] in Hp.
  2: { injection Hp as <-. apply default_typed. }
  apply res_bind_Ok in Hp as (? & Hv & Hf). destruct (match data with PNone => PDict [] | _ => data end) as [| | | | | |d]; try done.
  cbn [validate_policy_dict] in Hv. inv_res.
  repeat match goal with H : _check_keys _ _ = Ok _ |- _ => apply section_read in H as [? _] end.
  cbn [from_dict] in Hf. inv_res.
  repeat match goal with H : ?m = Ok ?a, H' : ?m = Ok ?b |- _ => rewrite H in H'; injection H' as <- end.
  pose proof default_typed as [? ? [] [] (? & ? & ?) (? & ? & ?) [] ?].
  split; cbn [sp_mode sp_network_enabled sp_network_allowed_domains sp_network_blocked_domains sp_allowed_paths sp_denied_paths sp_commands_allowed sp_commands_require_approval sp_commands_blocked sp_secrets_scan_on_output sp_secrets_scan_before_tool_result sp_secrets_block_env_dump sp_audit_enabled sp_audit_log_path sp_channel_admins]; repeat split; eauto with policy; apply get_or_typed; eauto with policy.
Qed.

(** ** What a policy permits *)
Inductive Action :=
| UseTool (tool : string) | ReadPath (path : string) | WritePath (path : string) | RunCommand (command : string)
| RunUnasked (command : string) | Connect (domain : string) | NamePath (path : string) | SkipOutputScan | SkipResultScan
| DumpEnvironment | SkipAudit.
Definition in_list (o : option (gset string)) (x : string) : Prop := match o with Some s => x ∈ s | None => True end.
Definition grants (m : res SandboxCheckResult) : Prop := exists r, m = Ok r /\ cr_allowed r = true.
Definition box (e : EffectiveSecurityPolicy) : Sandbox := MkSandbox (ep_mode e) (ep_workspace_root e) (Some (ep_root_capabilities e)).
Definition policy_permits `{HostPaths} (e : EffectiveSecurityPolicy) (a : Action) : Prop :=
  match a with
  | UseTool tool => cr_allowed (check_tool (box e) tool) = true
  | ReadPath path => grants (check_read_path (box e) path)
  | WritePath path => grants (check_write_path (box e) path)
  | RunCommand c => in_list (ep_commands_allowed e) c /\ c ∉ ep_commands_blocked e
  | RunUnasked c => c ∉ ep_commands_require_approval e
  | Connect d => ep_network_enabled e = true /\ in_list (ep_network_allowed_domains e) d /\ d ∉ ep_network_blocked_domains e
  | NamePath p => p ∉ ep_denied_paths e
  | SkipOutputScan => ep_secrets_scan_on_output e = false
  | SkipResultScan => ep_secrets_scan_before_tool_result e = false
  | DumpEnvironment => ep_secrets_block_env_dump e = false
  | SkipAudit => ep_audit_enabled e = false
  end.
(** What the mode alone permits, as the platform bounds it *)
Definition mode_permits (m : SandboxMode) (a : Action) : Prop :=
  match a with
  | UseTool tool => cr_allowed (check_tool (MkSandbox m "" None) tool) = true
  | WritePath _ => m ≠ READ_ONLY
  | _ => True
  end.
Definition confining (m : SandboxMode) : bool := match m with READ_ONLY | WORKSPACE_WRITE => true | _ => false end.

(** Modes are ordered by what they permit. *)
Lemma stricter_meet (P : SandboxMode -> Prop) a b :
  (P READ_ONLY -> P WORKSPACE_WRITE) -> (P WORKSPACE_WRITE -> P FULL_ACCESS) -> (P FULL_ACCESS <-> P YOLO) ->
  P (_stricter_mode a b) <-> P a /\ P b.
Proof. destruct a, b; cbn; tauto. Qed.
Lemma tool_mode s tool : cr_allowed (check_tool s tool) = true <-> mode_permits (sb_mode s) (UseTool tool).
Proof. unfold mode_permits, check_tool. cbn [sb_mode]. destruct (bool_decide _); [done|]. by destruct (match CAPABILITIES _ with [] => _ | _ => _ end). Qed.
Lemma mode_tools m tool : mode_permits m (UseTool tool) <-> (confining m = true -> tool ∈ CAPABILITIES m).
Proof.
  rewrite <- str_in_true. unfold mode_permits, check_tool, granted, refused. cbn [sb_mode].
  destruct m; rewrite ?bool_decide_eq_false_2, ?bool_decide_eq_true_2 by done; cbn [confining]; try done.
  all: set (l := CAPABILITIES _); destruct l eqn:E; [done|]; rewrite <- E; destruct (str_in tool l); naive_solver.
Qed.
Lemma read_only_tools : Forall (fun t => t ∈ CAPABILITIES WORKSPACE_WRITE) (CAPABILITIES READ_ONLY).
Proof. apply (bool_decide_unpack _). vm_compute. exact I. Qed.
Lemma mode_permits_meet a b x : mode_permits (_stricter_mode a b) x <-> mode_permits a x /\ mode_permits b x.
Proof.
  apply (stricter_meet (fun m => mode_permits m x)); destruct x; try done; rewrite !mode_tools; cbn [confining]; try done.
  intros Ht _; eapply (proj1 (Forall_forall _ _) read_only_tools), Ht. done.
Qed.
Lemma confining_meet a b : confining (_stricter_mode a b) = false <-> confining a = false /\ confining b = false.
Proof. by apply (stricter_meet (fun m => confining m = false)). Qed.

(** *** Containment of paths *)
Lemma path_under_trans a b c : path_under a b = true -> path_under b c = true -> path_under a c = true.
Proof. rewrite !path_under_spec. intros [-> H1] [-> H2]. split; [done|]. by etransitivity. Qed.
Lemma path_under_comparable a b c : path_under a c = true -> path_under b c = true -> path_under a b = true \/ path_under b a = true.
Proof.
  rewrite !path_under_spec. intros [Ha Hp] [Hb Hq]. rewrite Ha, Hb. destruct (prefix_weak_total _ _ _ Hp Hq); auto.
Qed.
Lemma under_or_equal child parent : _is_under_or_equal child parent = true <-> path_under parent child = true.
Proof.
  unfold _is_under_or_equal. rewrite orb_true_iff, bool_decide_eq_true. split; [|by right]. intros [->|?]; [|done].
  by apply path_under_spec.
Qed.
(** The path lies in one of the capabilities. *)
Definition covered (caps : gset string) (path : string) : Prop := exists cap, cap ∈ caps /\ path_under cap path = true.
Definition stricter_cap (p u : string) : option string :=
  if _is_under_or_equal p u then Some p else if _is_under_or_equal u p then Some u else None.
Lemma elem_of_meet_with p us : forall acc c, c ∈ meet_with p us acc <-> c ∈ acc \/ exists u, u ∈ us /\ stricter_cap p u = Some c.
Proof.
  induction us as [|u us IH]; intros acc c; cbn [meet_with foldl].
  { split; [by left|]. intros [?|(u & Hu & _)]; [done|]. by apply not_elem_of_nil in Hu. }
  assert (c ∈ (if _is_under_or_equal p u then {[p]} ∪ acc else if _is_under_or_equal u p then {[u]} ∪ acc else acc)
    <-> c ∈ acc \/ stricter_cap p u = Some c) as Hstep.
  { unfold stricter_cap. repeat case_match; rewrite ?elem_of_union, ?elem_of_singleton; naive_solver. }
  etransitivity; [apply (IH _ c)|]. rewrite Hstep. setoid_rewrite elem_of_cons. naive_solver.
Qed.
Lemma elem_of_meet_all us ps : forall acc c,
  c ∈ foldl (fun result p => meet_with p us result) acc ps <-> c ∈ acc \/ exists p u, p ∈ ps /\ u ∈ us /\ stricter_cap p u = Some c.
Proof.
  induction ps as [|p ps IH]; intros acc c; cbn [foldl].
  { split; [by left|]. intros [?|(p & u & Hp & _)]; [done|]. by apply not_elem_of_nil in Hp. }
  rewrite IH, elem_of_meet_with. setoid_rewrite elem_of_cons. naive_solver.
Qed.
Lemma elem_of_intersect ps us c : c ∈ _intersect_path_capabilities ps us <-> exists p u, p ∈ ps /\ u ∈ us /\ stricter_cap p u = Some c.
Proof.
  unfold _intersect_path_capabilities. destruct (bool_decide (ps = ∅) || bool_decide (us = ∅)) eqn:E.
  - apply orb_true_iff in E. rewrite !bool_decide_eq_true in E. split; [intros []%elem_of_empty|].
    intros (p & u & Hp & Hu & _). destruct E as [-> | ->]; [by apply elem_of_empty in Hp|by apply elem_of_empty in Hu].
  - rewrite elem_of_meet_all. setoid_rewrite elem_of_elements. split; [|by right]. by intros [[]%elem_of_empty|?].
Qed.
(** The intersection covers exactly the paths that both sides cover. *)
Lemma intersect_covers ps us path : covered (_intersect_path_capabilities ps us) path <-> covered ps path /\ covered us path.
Proof.
  unfold covered. setoid_rewrite elem_of_intersect. unfold stricter_cap. split.
  - intros (c & (p & u & Hp & Hu & Hc) & Hpath). destruct (_is_under_or_equal p u) eqn:E1.
    + injection Hc as <-. apply under_or_equal in E1. split; [by exists p|]. exists u. split; [done|]. by eapply path_under_trans.
    + destruct (_is_under_or_equal u p) eqn:E2; [|done]. injection Hc as <-. apply under_or_equal in E2.
      split; [|by exists u]. exists p. split; [done|]. by eapply path_under_trans.
  - intros [(p & Hp & Hpp) (u & Hu & Hup)]. destruct (_is_under_or_equal p u) eqn:E1.
    { exists p. split; [|done]. exists p, u. by rewrite E1. }
    exists u. split; [|done]. exists p, u. rewrite E1. destruct (path_under_comparable p u path Hpp Hup) as [E|E];
      apply under_or_equal in E; rewrite E in *; done.
Qed.
Lemma denial_reason_None caps resolved op : _capability_denial_reason caps resolved op = None <-> covered caps resolved.
Proof.
  unfold _capability_denial_reason, covered. setoid_rewrite <- elem_of_elements.
  destruct (existsb _ _) eqn:E; split; try done; intros H'.
  - apply existsb_exists in E as (c & Hc & Hp). exists c. split; [by apply list_elem_of_In|done].
  - exfalso. destruct H' as (c & Hc & Hp). enough (false = true) by done. rewrite <- E. apply existsb_exists.
    exists c. split; [by apply list_elem_of_In|done].
Qed.

(** ** The effective policy is the meet of its layers *)
Section meet.
Context `{Platform} `{HostPaths}.
Lemma confined_granted e r op prefix : cr_allowed (check_confined (box e) r op prefix) = true <->
  path_under (ep_workspace_root e) r = true /\ covered (ep_root_capabilities e) r.
Proof.
  unfold check_confined, box. cbn [sb_workspace_root sb_root_capabilities]. rewrite <- (denial_reason_None _ _ op).
  destruct (path_under _ r); cbn [negb]; [|split; [done|by intros []]]. destruct (_capability_denial_reason _ _ _); naive_solver.
Qed.
Lemma grants_Ok r : grants (Ok r) <-> cr_allowed r = true.
Proof. unfold grants. split; [by intros (? & [= <-] & ?)|]. intros Hr. by exists r. Qed.
Lemma grants_bind (m : res string) f : grants (let* r := m in Ok (f r)) <-> exists r, m = Ok r /\ cr_allowed (f r) = true.
Proof.
  destruct m as [r|x]; cbn [res_bind]; [rewrite grants_Ok|].
  - split; [intros Hr; by exists r|by intros (? & [= <-] & ?)].
  - split; [by intros (? & ? & _)|by intros (? & ? & _)].
Qed.
Lemma reads_spec e path : policy_permits e (ReadPath path) <->
  confining (ep_mode e) = false \/
  exists r, resolved_in (ep_workspace_root e) path = Ok r /\ path_under (ep_workspace_root e) r = true /\ covered (ep_root_capabilities e) r.
Proof.
  setoid_rewrite <- (fun r => confined_granted e r "read" "read "). cbn [policy_permits]. unfold check_read_path.
  change (sb_mode (box e)) with (ep_mode e). destruct (ep_mode e); cbn [confining]; rewrite ?grants_Ok, ?grants_bind; naive_solver.
Qed.
Lemma writes_spec e path : policy_permits e (WritePath path) <-> ep_mode e ≠ READ_ONLY /\ policy_permits e (ReadPath path).
Proof.
  rewrite reads_spec. setoid_rewrite <- (fun r => confined_granted e r "write" ""). cbn [policy_permits]. unfold check_write_path.
  change (sb_mode (box e)) with (ep_mode e). destruct (ep_mode e); cbn [confining]; rewrite ?grants_Ok, ?grants_bind; naive_solver.
Qed.

Lemma frozen_strs l : _frozen (str_list l) = Ok (list_to_set l).
Proof.
  unfold _frozen, str_list. destruct l as [|x l]; [done|]. cbn [truthy fmap list_fmap negb iter_texts res_bind]. do 2 f_equal.
  change (str_of (PStr x) :: (str_of <$> (PStr <$> l)) = x :: l). f_equal. rewrite <- list_fmap_compose. by apply list_fmap_id.
Qed.
(** One layer as a policy of its own *)
Definition layer_alone (workspace_root : string) (p : SandboxPolicy) : res EffectiveSecurityPolicy :=
  let* root := full_path workspace_root in
  let* m := _resolve_mode (sp_mode p) in
  let* domains := opt_frozen (sp_network_allowed_domains p) in
  let* blocked_domains := _frozen (sp_network_blocked_domains p) in
  let* caps := _compile_root_capabilities (sp_allowed_paths p) root in
  let* denied := _frozen (sp_denied_paths p) in
  let* commands := opt_frozen (sp_commands_allowed p) in
  let* approval := _frozen (sp_commands_require_approval p) in
  let* blocked := _frozen (sp_commands_blocked p) in
  let* admins := _frozen (sp_channel_admins p) in
  Ok {| ep_mode := m; ep_network_enabled := truthy (sp_network_enabled p); ep_network_allowed_domains := domains;
        ep_network_blocked_domains := blocked_domains; ep_root_capabilities := caps; ep_denied_paths := denied;
        ep_commands_allowed := commands; ep_commands_require_approval := approval; ep_commands_blocked := blocked;
        ep_secrets_scan_on_output := truthy (sp_secrets_scan_on_output p); ep_audit_enabled := truthy (sp_audit_enabled p);
        ep_audit_log_path := sp_audit_log_path p;
        ep_secrets_scan_before_tool_result := truthy (sp_secrets_scan_before_tool_result p);
        ep_secrets_block_env_dump := truthy (sp_secrets_block_env_dump p);
        ep_channel_admins := admins; ep_workspace_root := root |}.
Definition meet_lists (a b : option (gset string)) : option (gset string) :=
  match a, b with Some a, Some b => Some (a ∩ b) | Some a, None | None, Some a => Some a | None, None => None end.
Lemma meet_optional_Ok project user o : meet_optional project user = Ok o ->
  exists a b, opt_frozen project = Ok a /\ opt_frozen user = Ok b /\ o = meet_lists a b.
Proof.
  assert (forall v, v = PNone \/ opt_frozen v = (let* s := _frozen v in Ok (Some s)) /\ v ≠ PNone) as Ho by (intros []; auto).
  unfold meet_optional. destruct (Ho project) as [->|[Hp Hp']]; [intros E; exists None, o; by destruct o|].
  destruct (Ho user) as [->|[Hu Hu']].
  - intros E. exists o, None. destruct project; try done; by destruct o.
  - intros E. assert ((let* a := _frozen project in let* b := _frozen user in Ok (Some (a ∩ b))) = Ok o) as E' by (by destruct project, user).
    apply res_bind_Ok in E' as (a & Ha & E'). apply res_bind_Ok in E' as (b & Hb & [= <-]).
    exists (Some a), (Some b). by rewrite Hp, Hu, Ha, Hb.
Qed.
Lemma meet_lists_spec a b x : in_list (meet_lists a b) x <-> in_list a x /\ in_list b x.
Proof. destruct a, b; cbn; rewrite ?elem_of_intersection; tauto. Qed.

Lemma compile_fields_layers project root user max_mode e : compile_fields project root (Some user) max_mode = Ok e ->
  exists p u, layer_alone root project = Ok p /\ layer_alone root user = Ok u
    /\ ep_mode e = _stricter_mode (_stricter_mode (ep_mode u) (ep_mode p)) max_mode
    /\ ep_workspace_root e = ep_workspace_root p /\ ep_workspace_root e = ep_workspace_root u
    /\ ep_root_capabilities e = _intersect_path_capabilities (ep_root_capabilities p) (ep_root_capabilities u)
    /\ ep_network_enabled e = ep_network_enabled p && ep_network_enabled u
    /\ ep_network_allowed_domains e = meet_lists (ep_network_allowed_domains p) (ep_network_allowed_domains u)
    /\ ep_network_blocked_domains e = ep_network_blocked_domains p ∪ ep_network_blocked_domains u
    /\ ep_commands_allowed e = meet_lists (ep_commands_allowed p) (ep_commands_allowed u)
    /\ ep_commands_blocked e = ep_commands_blocked p ∪ ep_commands_blocked u
    /\ ep_commands_require_approval e = ep_commands_require_approval p ∪ ep_commands_require_approval u
    /\ ep_denied_paths e = ep_denied_paths p ∪ ep_denied_paths u
    /\ ep_secrets_scan_on_output e = ep_secrets_scan_on_output p || ep_secrets_scan_on_output u
    /\ ep_secrets_scan_before_tool_result e = ep_secrets_scan_before_tool_result p || ep_secrets_scan_before_tool_result u
    /\ ep_secrets_block_env_dump e = ep_secrets_block_env_dump p || ep_secrets_block_env_dump u
    /\ ep_audit_enabled e = ep_audit_enabled p || ep_audit_enabled u
    /\ ep_channel_admins e = ep_channel_admins u /\ truthy (sp_channel_admins project) = false
    /\ ep_audit_log_path e = (if truthy (sp_audit_log_path user) then sp_audit_log_path user else PNone).
Proof.
  unfold compile_fields, compile_mode, join_layers, either_layer. intros E. inv_res.
  repeat match goal with Hm : meet_optional _ _ = Ok _ |- _ => apply meet_optional_Ok in Hm as (? & ? & ? & ? & ->) end.
  unfold layer_alone.
  repeat match goal with Hm : ?m = Ok _ |- context [let* _ := ?m in _] => rewrite Hm; cbn [res_bind] end.
  assert (_frozen (sp_channel_admins project) = Ok ∅) as ->.
  { unfold _frozen. match goal with Hm : truthy (sp_channel_admins project) = false |- _ => rewrite Hm end. done. }
  cbn [res_bind]. do 2 eexists. do 2 (split; [reflexivity|]). cbn [ep_mode]. repeat split; done.
Qed.
Definition names_a_path (a : Action) : bool := match a with ReadPath _ | WritePath _ => true | _ => false end.
Lemma reads_meet project root user max_mode e p u path :
  compile_fields project root (Some user) max_mode = Ok e -> layer_alone root project = Ok p -> layer_alone root user = Ok u ->
  (policy_permits e (ReadPath path) -> policy_permits p (ReadPath path) /\ policy_permits u (ReadPath path)) /\
  (confining (ep_mode p) = true -> confining (ep_mode u) = true ->
   policy_permits p (ReadPath path) -> policy_permits u (ReadPath path) -> policy_permits e (ReadPath path)).
Proof.
  intros He Hp Hu. apply compile_fields_layers in He as (p' & u' & Hp' & Hu' & Hm & Hr1 & Hr2 & Hcaps & _).
  rewrite Hp in Hp'. rewrite Hu in Hu'. injection Hp' as <-. injection Hu' as <-. rewrite !reads_spec, Hcaps, <- Hr1, <- Hr2.
  setoid_rewrite intersect_covers. split.
  - intros [Hn|(r & ? & ? & ? & ?)]; [|split; right; by exists r]. rewrite Hm, !confining_meet in Hn. naive_solver.
  - intros Cp Cu [?|(r & Hr & ? & ?)] [?|(r' & Hr' & ? & ?)]; try congruence. right. exists r. rewrite Hr in Hr'. injection Hr' as <-. done.
Qed.
Lemma fields_meet project root user max_mode e : compile_fields project root (Some user) max_mode = Ok e ->
  exists p u, layer_alone root project = Ok p /\ layer_alone root user = Ok u /\ forall a,
    (policy_permits e a -> policy_permits p a /\ policy_permits u a /\ mode_permits max_mode a) /\
    (policy_permits p a -> policy_permits u a -> mode_permits max_mode a ->
     (names_a_path a = true -> confining (ep_mode p) = true /\ confining (ep_mode u) = true) -> policy_permits e a).
Proof.
  intros He.
  pose proof (compile_fields_layers _ _ _ _ _ He) as (p & u & Hp & Hu & Hm & _ & _ & _ & Hn & Hd & Hbd & Hca & Hcb & Har & Hde & H1' & H2' & H3' & H4' & _).
  exists p, u. split; [done|]. split; [done|]. intros a.
  pose proof (fun path => reads_meet _ _ _ _ _ _ _ path He Hp Hu) as Hread.
  destruct a; cbn [policy_permits names_a_path].
  - rewrite !tool_mode. cbn [box sb_mode]. rewrite Hm, !mode_permits_meet. tauto.
  - specialize (Hread path). cbn [policy_permits mode_permits] in *. naive_solver.
  - change (grants (check_write_path (box ?x) path)) with (policy_permits x (WritePath path)). rewrite !writes_spec.
    pose proof (mode_permits_meet (_stricter_mode (ep_mode u) (ep_mode p)) max_mode (WritePath path)) as Hw.
    rewrite (mode_permits_meet (ep_mode u)), <- Hm in Hw. cbn [mode_permits] in *. specialize (Hread path). naive_solver.
  - rewrite Hca, Hcb, meet_lists_spec, not_elem_of_union. cbn. tauto.
  - rewrite Har, not_elem_of_union. cbn. tauto.
  - rewrite Hn, Hd, Hbd, meet_lists_spec, not_elem_of_union, andb_true_iff. cbn. tauto.
  - rewrite Hde, not_elem_of_union. cbn. tauto.
  - rewrite H1', orb_false_iff. cbn. tauto.
  - rewrite H2', orb_false_iff. cbn. tauto.
  - rewrite H3', orb_false_iff. cbn. tauto.
  - rewrite H4', orb_false_iff. cbn. tauto.
Qed.
(** C22. The compiled policy permits only what the project layer, the user layer and the platform's mode all permit, and it permits
    everything they all permit, except that path capabilities are enforced even for a layer whose own mode ignores them. *)
Theorem effective_is_meet project root user max_mode worktree has_git c
  (Hc : compile_effective_policy project root (Some user) max_mode worktree has_git = Ok c) :
  exists p u, layer_alone root project = Ok p /\ layer_alone root user = Ok u /\ forall a,
    (policy_permits (cp_policy c) a -> policy_permits p a /\ policy_permits u a /\ mode_permits (default WORKSPACE_WRITE max_mode) a) /\
    (policy_permits p a -> policy_permits u a -> mode_permits (default WORKSPACE_WRITE max_mode) a ->
     (names_a_path a = true -> confining (ep_mode p) = true /\ confining (ep_mode u) = true) -> policy_permits (cp_policy c) a).
Proof.
  unfold compile_effective_policy in Hc. apply res_bind_Ok in Hc as (e & He & Hc). inv_res. exact (fields_meet _ _ _ _ _ He).
Qed.
End meet.

(** ** Capabilities stay in the workspace *)
Section confinement.
Context `{Platform} `{HostPathsLaws}.
Lemma full_path_plain p q : full_path p = Ok q -> plain_path q /\ (".." ∉ path_parts q) /\ path_resolve q = Ok q.
Proof.
  unfold full_path. intros (p' & _ & Hq)%res_bind_Ok. destruct (resolve_plain _ _ Hq) as [? ?].
  split; [done|]. split; [done|]. by eapply resolve_idem.
Qed.
Lemma full_path_resolved q : plain_path q -> path_resolve q = Ok q -> full_path q = Ok q.
Proof. intros Hp Hq. unfold full_path. by rewrite expanduser_plain. Qed.
Lemma full_path_idem p q : full_path p = Ok q -> full_path q = Ok q.
Proof. intros (? & _ & ?)%full_path_plain. by apply full_path_resolved. Qed.

(** A capability is a resolved path at or below the workspace. *)
Definition capability_of (root cap : string) : Prop := path_under root cap = true /\ plain_path cap /\ (".." ∉ path_parts cap) /\ path_resolve cap = Ok cap.
Lemma root_capabilities_confined root raws : forall caps caps',
  root_capabilities_of root raws caps = Ok caps' -> (forall c, c ∈ caps -> capability_of root c) -> forall c, c ∈ caps' -> capability_of root c.
Proof.
  induction raws as [|raw raws IH]; intros caps caps'; cbn [root_capabilities_of]; [by intros [= <-]|].
  intros (cand & _ & E)%res_bind_Ok Hcaps. destruct (path_resolve _) as [r|x] eqn:Hr.
  - eapply IH; [exact E|]. destruct (path_under root r) eqn:Hu; [|done]. intros c [->%elem_of_singleton|?]%elem_of_union; [|auto].
    destruct (resolve_plain _ _ Hr). split; [done|]. split; [done|]. split; [done|]. by eapply resolve_idem.
  - destruct (existsb _ _); [|done]. by eapply IH.
Qed.
Lemma compiled_capability paths root caps c : full_path root = Ok root -> _compile_root_capabilities paths root = Ok caps ->
  c ∈ caps -> capability_of root c.
Proof.
  intros Hroot. unfold _compile_root_capabilities. destruct (truthy paths); cbn [negb]; [|by intros [= <-] ?%not_elem_of_empty].
  rewrite Hroot. cbn [res_bind]. intros E Hin. apply res_bind_Ok in E as (raws & _ & E).
  eapply root_capabilities_confined; [exact E| |exact Hin]. by intros ? ?%not_elem_of_empty.
Qed.
Lemma stricter_cap_either p u c : stricter_cap p u = Some c -> c = p \/ c = u.
Proof. unfold stricter_cap. repeat case_match; naive_solver. Qed.
Lemma policy_capability project root user max_mode e c : compile_fields project root user max_mode = Ok e ->
  c ∈ ep_root_capabilities e -> capability_of (ep_workspace_root e) c /\ full_path (ep_workspace_root e) = Ok (ep_workspace_root e).
Proof.
  unfold compile_fields. intros E Hc. apply res_bind_Ok in E as (r & Hroot & E). apply full_path_idem in Hroot. inv_res.
  cbn [ep_root_capabilities ep_workspace_root] in *. split; [|done].
  destruct user as [u|]; inv_res; [|by eapply compiled_capability; [done| |exact Hc]].
  apply elem_of_intersect in Hc as (p & q & Hp & Hq & [-> | ->]%stricter_cap_either).
  - by eapply compiled_capability; [done| |exact Hp].
  - by eapply compiled_capability; [done| |exact Hq].
Qed.
(** C31. Whatever the project's policy file says, when the user has no policy file: the mode is confining, the network is off, the
    default denials and approvals hold, scanning and audit stay on, no file and no administrator comes from the project, and every
    capability is a resolved path of the workspace. *)
Theorem untrusted_project_confined root project_file worktree has_git c
  (Hc : load_effective_policy root project_file None None worktree has_git = Ok c) :
  let e := cp_policy c in
  confining (ep_mode e) = true /\ ep_network_enabled e = false
  /\ list_to_set _DEFAULT_DENIED_PATHS ⊆ ep_denied_paths e /\ list_to_set _DEFAULT_REQUIRE_APPROVAL ⊆ ep_commands_require_approval e
  /\ ep_secrets_scan_on_output e = true /\ ep_secrets_scan_before_tool_result e = true /\ ep_secrets_block_env_dump e = true
  /\ ep_audit_enabled e = true /\ ep_audit_log_path e = PNone /\ ep_channel_admins e = ∅
  /\ forall cap, cap ∈ ep_root_capabilities e -> capability_of (ep_workspace_root e) cap.
Proof.
  cbn zeta. unfold load_effective_policy, compile_effective_policy in Hc. apply res_bind_Ok in Hc as (project & _ & Hc). cbn [res_bind] in Hc.
  apply res_bind_Ok in Hc as (e & He & Hc). inv_res. cbn [cp_policy].
  pose proof (fun cap Hcap => proj1 (policy_capability _ _ _ _ _ cap He Hcap)) as Hcap.
  apply compile_fields_layers in He as (p & u & Hp & Hu & Hm & _ & _ & _ & Hn & _ & _ & _ & _ & Har & Hde & H1' & H2' & H3' & H4' & Had & _ & Hl).
  unfold layer_alone in Hu. cbn [default_user_policy default_policy sp_mode sp_denied_paths sp_commands_require_approval sp_channel_admins] in Hu.
  rewrite !frozen_strs in Hu. inv_res.
  cbn [ep_mode ep_network_enabled ep_secrets_scan_on_output ep_secrets_scan_before_tool_result ep_secrets_block_env_dump
    ep_audit_enabled ep_channel_admins] in *.
  match goal with Hw : _resolve_mode _ = Ok _ |- _ => vm_compute in Hw; injection Hw as <- end.
  match goal with Hf : _frozen PNone = Ok _ |- _ => injection Hf as <- end.
  rewrite Hm, Hn, Hde, Har, H1', H2', H3', H4', Had, Hl, !orb_true_r, andb_false_r.
  split_and!; try done; [by destruct (ep_mode p)|apply union_subseteq_r..].
Qed.

(** *** The catalog of a policy *)
Definition backslash_free (s : string) : bool := string_forallb (fun c => negb (byte c =? 92)) s.
Lemma slashes_id s : backslash_free s = true -> slashes_of_backslashes s = s.
Proof.
  induction s as [|c s IH]; [done|]. intros [Hc Hs]%andb_true_iff. cbn [slashes_of_backslashes].
  apply negb_true_iff in Hc. by rewrite Hc, IH.
Qed.
Lemma concrete_id v w : _require_concrete v = Ok w -> w = v.
Proof. unfold _require_concrete, _require_text. intros E. by inv_res. Qed.
Lemma set_map_id (f : string -> res string) a b : (forall v w, f v = Ok w -> w = v) -> set_map f a = Ok b -> b = a.
Proof.
  unfold set_map. intros Hf (l & Hl & [= <-])%res_bind_Ok. apply res_map_Ok in Hl.
  enough (l = elements a) as -> by apply list_to_set_elements_L. induction Hl; [done|]. f_equal; [by apply Hf|done].
Qed.
Lemma actions_id a b : _require_actions a = Ok b -> b = a.
Proof.
  unfold _require_actions, _require_tokens. intros E. inv_res. by eapply set_map_id; [exact concrete_id|].
Qed.
(** A scope of the catalog was made for one of the roots. *)
Definition compiled_from (root : string) (roots : list string) (operations : gset string) (s : ResourceScope) : Prop :=
  match s with
  | FilesystemScope ws path ops => exists r candidate, r ∈ roots /\ full_path r = Ok candidate /\ path_under root candidate = true
      /\ make_filesystem root candidate operations = Ok s
  | GitRefScope _ _ _ _ _ | NetworkScope _ _ _ _ _ _ => True
  | _ => False
  end.
Lemma add_scope_Forall (P : ResourceScope -> Prop) s scopes scopes' :
  (forall s', make_scope s = Ok s' -> P s') -> add_scope s scopes = Ok scopes' ->
  Forall (fun ds => P ds.2) scopes -> Forall (fun ds => P ds.2) scopes'.
Proof.
  unfold add_scope. intros Hs E Hf. apply res_bind_Ok in E as (s' & Hs' & E). apply res_bind_Ok in E as (d & _ & [= <-]).
  apply dict_set_Forall; [by apply Hs|done].
Qed.
Lemma add_filesystem_Forall root ops all roots : forall scopes scopes', (forall r, r ∈ roots -> r ∈ all) ->
  add_filesystem_scopes root ops roots scopes = Ok scopes' ->
  Forall (fun ds => compiled_from root all ops ds.2) scopes -> Forall (fun ds => compiled_from root all ops ds.2) scopes'.
Proof.
  induction roots as [|r roots IH]; intros scopes scopes' Hall; cbn [add_filesystem_scopes]; [by intros [= <-]|].
  intros E Hf. apply res_bind_Ok in E as (candidate & Hc & E). apply res_bind_Ok in E as ([] & Hu%raise_if_Ok & E).
  apply res_bind_Ok in E as (mid & Hm & E). eapply IH; [|exact E|].
  - intros x Hx. apply Hall. by right.
  - eapply add_scope_Forall; [|exact Hm|exact Hf]. intros s' Hs'. cbn [make_scope] in Hs'. pose proof Hs' as Hs.
    unfold make_filesystem in Hs'. inv_res. exists r, candidate. apply negb_false_iff in Hu. split_and!; try done. apply Hall. by left.
Qed.
Lemma validated_Forall (P : ResourceScope -> Prop) scopes : forall acc v, validated_scopes scopes acc = Ok v ->
  Forall (fun ds => P ds.2) scopes -> Forall (fun ds => P ds.2) acc -> Forall (fun ds => P ds.2) v.
Proof.
  induction scopes as [|[d s] scopes IH]; intros acc v; cbn [validated_scopes]; [by intros [= <-]|].
  intros E [Hs Hrest]%Forall_cons Hacc. inv_res. eapply IH; [done..|]. by apply dict_set_Forall.
Qed.
Lemma catalog_compiled root digest roots ops allowed blocked has_git worktree c :
  compile_typed_resource_catalog root digest roots ops allowed blocked has_git worktree = Ok c ->
  exists full, full_path root = Ok full /\ cat_policy_digest c = Some digest
    /\ Forall (fun ds => compiled_from full roots ops ds.2) (cat_scopes c).
Proof.
  unfold compile_typed_resource_catalog. intros E. apply res_bind_Ok in E as (full & Hfull & E).
  apply res_bind_Ok in E as (s1 & H1' & E). apply res_bind_Ok in E as (s2 & H2' & E). apply res_bind_Ok in E as (s3 & H3' & E).
  exists full. split; [done|]. unfold make_catalog in E. inv_res. split; [done|]. cbn [cat_scopes].
  eapply validated_Forall; [eassumption| |done].
  assert (Forall (fun ds => compiled_from full roots ops ds.2) s2) as Hs2.
  { apply add_filesystem_Forall with (all := roots) in H1'; [|done..]. destruct has_git; [|by inv_res].
    apply res_bind_Ok in H2' as (w & _ & H2'). eapply add_scope_Forall; [|exact H2'|done].
    intros s'. cbn [make_scope]. unfold make_git_ref. intros Hs. by inv_res. }
  destruct allowed as [hosts|]; [|by inv_res]. case_bool_decide; [by inv_res|].
  eapply add_scope_Forall; [|exact H3'|done]. intros s'. cbn [make_scope]. unfold make_network. intros Hs. by inv_res.
Qed.
Lemma resolve_in_catalog (P : ResourceScope -> Prop) c d s :
  Forall (fun ds => P ds.2) (cat_scopes c) -> catalog_resolve c d = Ok s -> P s.
Proof.
  unfold catalog_resolve. destruct (dict_get _ _) as [s'|] eqn:E; [|done]. intros Hf [= <-].
  apply dict_get_Some in E. rewrite Forall_forall in Hf. by apply (Hf _ E).
Qed.
(** The file scopes of the catalog are the capabilities of the policy. *)
Lemma file_scope_capability project root user max_mode worktree has_git c d ws path ops :
  compile_effective_policy project root user max_mode worktree has_git = Ok c ->
  (forall cap, cap ∈ ep_root_capabilities (cp_policy c) -> backslash_free cap = true) ->
  catalog_resolve (cp_resource_order c) d = Ok (FilesystemScope ws path ops) ->
  ws = ep_workspace_root (cp_policy c) /\ path ∈ ep_root_capabilities (cp_policy c)
    /\ capability_of (ep_workspace_root (cp_policy c)) path /\ ops = filesystem_operations (ep_mode (cp_policy c)).
Proof.
  unfold compile_effective_policy. intros E Hb Hd. apply res_bind_Ok in E as (e & He & E). apply res_bind_Ok in E as (digest & _ & E).
  apply res_bind_Ok in E as (order & Ho & [= <-]). cbn [cp_policy cp_resource_order] in *.
  unfold policy_catalog in Ho. apply try_except_reraise in Ho; [|done]. apply res_bind_Ok in Ho as (w & _ & Ho).
  apply catalog_compiled in Ho as (full & Hfull & _ & Hf). apply (resolve_in_catalog _ _ _ _ Hf) in Hd as (r & cand & Hr & Hc & Hu & Hs).
  apply elem_of_elements in Hr. destruct (policy_capability _ _ _ _ _ r He Hr) as [Hcap Hroot].
  rewrite Hroot in Hfull. injection Hfull as <-. pose proof Hcap as (_ & Hplain & Hdots & Hres).
  rewrite (full_path_resolved r Hplain Hres) in Hc. injection Hc as <-.
  unfold make_filesystem, _require_text, _canonical_filesystem_path in Hs. inv_res. subst.
  repeat match goal with Ha : _require_actions _ = Ok _ |- _ => apply actions_id in Ha as -> end.
  repeat match goal with Ha : _require_concrete _ = Ok _ |- _ => apply concrete_id in Ha as -> end.
  rewrite normpath_plain, slashes_id by auto. done.
Qed.
(** C34. The catalog and the sandbox agree: a resolved path to which a scope of the catalog gives read or write access is one that
    the sandbox of the same policy lets be read or written, when no capability has a backslash in its name. *)
Theorem catalog_within_sandbox project root user max_mode worktree has_git c d s ws path op
  (Hc : compile_effective_policy project root user max_mode worktree has_git = Ok c)
  (Hb : forall cap, cap ∈ ep_root_capabilities (cp_policy c) -> backslash_free cap = true)
  (Hd : catalog_resolve (cp_resource_order c) d = Ok s) (Hs : permits s (AccessPath ws path op)) (Hp : path_resolve path = Ok path) :
  policy_permits (cp_policy c) (ReadPath path) /\ (op = "write" -> policy_permits (cp_policy c) (WritePath path)).
Proof.
  destruct s as [ws' root' ops'| | | |]; try done. destruct Hs as (_ & Hin & Hop).
  destruct (file_scope_capability _ _ _ _ _ _ _ _ _ _ _ Hc Hb Hd) as (_ & Hcap & (Hu & Hplain & _) & ->).
  destruct (resolve_plain _ _ Hp) as [Hpath _]. assert (isabs path = true) as Habs by (rewrite Hpath; done).
  assert (policy_permits (cp_policy c) (ReadPath path)) as Hread.
  { apply reads_spec. right. exists path. unfold resolved_in. rewrite expanduser_plain by done. cbn [res_bind]. rewrite Habs.
    split; [done|]. assert (path_under root' path = true) as Hsub.
    { apply scope_contains_path; [|done..]. rewrite Hplain. done. }
    split; [by eapply path_under_trans|by exists root']. }
  split; [done|]. intros ->. apply writes_spec. split; [|done]. intros Hm. unfold filesystem_operations in Hop.
  rewrite bool_decide_eq_true_2 in Hop by done. by apply elem_of_singleton in Hop.
Qed.
End confinement.

(** ** The digest of a policy *)
Definition printable (s : string) : bool := string_forallb (fun a => byte a <? 127) s.
Lemma ascii_text_id s : printable s = true -> ascii_text s = s.
Proof. induction s as [|a s IH]; [done|]. intros [Ha Hs]%andb_true_iff. cbn [ascii_text]. by rewrite Ha, IH. Qed.
Lemma dumps_spaced_inj v w : plain v = true -> plain w = true -> dumps ", " ": " v = dumps ", " ": " w -> canon v = canon w.
Proof.
  intros Hv Hw E. pose proof (loads_dumpsw " " " " one_space one_space _ default_constant_hook default_object_hook_nodup _ Hv) as Hl.
  unfold dumpsw in Hl. rewrite E in Hl.
  pose proof (loads_dumpsw " " " " one_space one_space _ default_constant_hook default_object_hook_nodup _ Hw) as Hr.
  unfold dumpsw in Hr. rewrite Hl in Hr. congruence.
Qed.
Section digest.
Context `{Platform} `{HostPathsLaws}.
(** The components of a capability below the workspace *)
Definition relative_parts (root cap : string) : list string := drop (length (path_parts root)) (path_parts cap).
Lemma relative_posix_inj root cap root' cap' : relative_posix root cap = relative_posix root' cap' ->
  relative_parts root cap = relative_parts root' cap'.
Proof.
  unfold relative_posix, relative_parts.
  pose proof (Forall_drop _ (length (path_parts root)) _ (path_parts_components cap)) as Hc.
  pose proof (Forall_drop _ (length (path_parts root')) _ (path_parts_components cap')) as Hc'.
  assert (forall l, l ≠ [] -> Forall component l -> split_slash (join "/" l) = l) as Hj.
  { intros l Hl Hf. apply split_join; [done|]. eapply Forall_impl; [exact Hf|]. by intros ? []. }
  destruct (drop _ (path_parts cap)) as [|a l] eqn:E, (drop _ (path_parts cap')) as [|b k] eqn:E'; [done|..].
  - intros Heq. apply (f_equal split_slash) in Heq. rewrite Hj in Heq by done. injection Heq as <- <-.
    apply Forall_cons in Hc' as [(_ & _ & ?) _]. done.
  - intros Heq. apply (f_equal split_slash) in Heq. rewrite Hj in Heq by done. injection Heq as -> ->.
    apply Forall_cons in Hc as [(_ & _ & ?) _]. done.
  - intros Heq. apply (f_equal split_slash) in Heq. by rewrite !Hj in Heq.
Qed.
(** Two policies that differ at most in where the workspace is *)
Definition same_policy (e e' : EffectiveSecurityPolicy) : Prop :=
  ep_mode e = ep_mode e' /\ ep_network_enabled e = ep_network_enabled e'
  /\ ep_network_allowed_domains e = ep_network_allowed_domains e' /\ ep_network_blocked_domains e = ep_network_blocked_domains e'
  /\ ep_denied_paths e = ep_denied_paths e' /\ ep_commands_allowed e = ep_commands_allowed e'
  /\ ep_commands_require_approval e = ep_commands_require_approval e' /\ ep_commands_blocked e = ep_commands_blocked e'
  /\ ep_secrets_scan_on_output e = ep_secrets_scan_on_output e' /\ ep_audit_enabled e = ep_audit_enabled e'
  /\ ep_audit_log_path e = ep_audit_log_path e'
  /\ ep_secrets_scan_before_tool_result e = ep_secrets_scan_before_tool_result e'
  /\ ep_secrets_block_env_dump e = ep_secrets_block_env_dump e' /\ ep_channel_admins e = ep_channel_admins e'
  /\ forall parts, (exists cap, cap ∈ ep_root_capabilities e /\ relative_parts (ep_workspace_root e) cap = parts)
               <-> (exists cap, cap ∈ ep_root_capabilities e' /\ relative_parts (ep_workspace_root e') cap = parts).
Lemma opt_texts_inj a b : canon (opt_texts a) = canon (opt_texts b) -> a = b.
Proof.
  destruct a, b; cbn [opt_texts]; try done. by intros ->%sorted_texts_inj.
Qed.
(** The canonical capabilities of a compiled policy are its relative paths. *)
Definition confined_policy (e : EffectiveSecurityPolicy) : Prop :=
  forall cap, cap ∈ ep_root_capabilities e -> capability_of (ep_workspace_root e) cap.
Lemma canonical_capabilities e caps : confined_policy e ->
  res_map (canonical_capability (ep_workspace_root e)) (elements (ep_root_capabilities e)) = Ok caps ->
  forall x, x ∈ caps <-> exists cap, cap ∈ ep_root_capabilities e /\ x = "workspace:" +:+ relative_posix (ep_workspace_root e) cap.
Proof.
  intros Hc Hm x. apply res_map_Ok in Hm. setoid_rewrite <- elem_of_elements.
  assert (Forall (capability_of (ep_workspace_root e)) (elements (ep_root_capabilities e))) as Hf.
  { apply Forall_forall. intros cap Hcap%elem_of_elements. by apply Hc. }
  induction Hm as [|cap y l k Hy Hm IH]; [split; [by intros ?%not_elem_of_nil|by intros (? & ?%not_elem_of_nil & _)]|].
  apply Forall_cons in Hf as [(Hu & Hp & _ & Hr) Hf]. unfold canonical_capability in Hy.
  rewrite (full_path_resolved cap Hp Hr) in Hy. cbn [res_bind] in Hy. rewrite Hu in Hy. injection Hy as <-.
  setoid_rewrite elem_of_cons. rewrite (IH Hf). naive_solver.
Qed.
Lemma policy_root project root user max_mode e : compile_fields project root user max_mode = Ok e ->
  full_path (ep_workspace_root e) = Ok (ep_workspace_root e).
Proof. unfold compile_fields. intros E. apply res_bind_Ok in E as (r & Hroot & E). apply full_path_idem in Hroot. by inv_res. Qed.
Lemma canonical_dict_inj e e' v v' : confined_policy e -> confined_policy e' ->
  full_path (ep_workspace_root e) = Ok (ep_workspace_root e) -> full_path (ep_workspace_root e') = Ok (ep_workspace_root e') ->
  maybe_str (ep_audit_log_path e) -> maybe_str (ep_audit_log_path e') ->
  _canonical_dict e = Ok v -> _canonical_dict e' = Ok v' -> canon v = canon v' -> same_policy e e'.
Proof.
  intros Hc Hc' Hr Hr' Hl Hl'. unfold _canonical_dict. rewrite Hr, Hr'. cbn [res_bind].
  intros (caps & Hm & [= <-])%res_bind_Ok (caps' & Hm' & [= <-])%res_bind_Ok E. by_fields E.
  field_eq E "mode" K1. field_eq E "network_enabled" K2. field_eq E "network_allowed_domains" K3.
  field_eq E "network_blocked_domains" K4. field_eq E "root_capabilities" K5. field_eq E "denied_paths" K6.
  field_eq E "commands_allowed" K7. field_eq E "commands_require_approval" K8. field_eq E "commands_blocked" K9.
  field_eq E "secrets_scan_on_output" K10. field_eq E "audit_enabled" K11. field_eq E "audit_log_path" K12.
  field_eq E "secrets_scan_before_tool_result" K13. field_eq E "secrets_block_env_dump" K14. field_eq E "channel_admins" K15.
  apply sorted_texts_inj in K4, K6, K8, K9, K15. apply opt_texts_inj in K3, K7. injection K1 as K1.
  injection K2 as K2. injection K10 as K10. injection K11 as K11. injection K13 as K13. injection K14 as K14.
  assert (ep_mode e = ep_mode e') as Hmode by (destruct (ep_mode e), (ep_mode e'); done).
  assert (ep_audit_log_path e = ep_audit_log_path e') as Hlog.
  { destruct Hl as [E1|[s1 E1]], Hl' as [E2|[s2 E2]]; rewrite E1, E2 in *; cbn in K12; congruence. }
  rewrite !canon_strs in K5. apply str_list_inj in K5. split_and!; try done.
  intros parts. assert (forall x, x ∈ caps <-> x ∈ caps') as Hcaps.
  { intros x. rewrite <- (sorted_by_perm id caps), <- (sorted_by_perm id caps'). by setoid_rewrite K5. }
  setoid_rewrite (canonical_capabilities e caps Hc Hm) in Hcaps. setoid_rewrite (canonical_capabilities e' caps' Hc' Hm') in Hcaps.
  split; intros (cap & Hcap & <-).
  - destruct (proj1 (Hcaps _) (ex_intro _ cap (conj Hcap eq_refl))) as (cap' & ? & Heq). exists cap'. split; [done|].
    cbn [String.append] in Heq. simplify_eq. by apply relative_posix_inj.
  - destruct (proj2 (Hcaps _) (ex_intro _ cap (conj Hcap eq_refl))) as (cap' & ? & Heq). exists cap'. split; [done|].
    cbn [String.append] in Heq. simplify_eq. by apply relative_posix_inj.
Qed.
Definition policy_text (e : EffectiveSecurityPolicy) : res string := let* v := _canonical_dict e in Ok (dumps ", " ": " v).
Lemma loaded_policy_canonical root project_file user_file max_mode worktree has_git c :
  load_effective_policy root project_file user_file max_mode worktree has_git = Ok c ->
  confined_policy (cp_policy c) /\ full_path (ep_workspace_root (cp_policy c)) = Ok (ep_workspace_root (cp_policy c))
    /\ maybe_str (ep_audit_log_path (cp_policy c)) /\ _compute_digest (cp_policy c) = Ok (cp_digest c).
Proof.
  unfold load_effective_policy, compile_effective_policy. intros E. apply res_bind_Ok in E as (project & _ & E).
  apply res_bind_Ok in E as (user & Hu & E). apply res_bind_Ok in E as (e & He & E). apply res_bind_Ok in E as (digest & Hd & E).
  apply res_bind_Ok in E as (order & _ & [= <-]). cbn [cp_policy cp_digest].
  assert (well_typed user) as Ht.
  { destruct user_file; [by eapply loaded_typed|]. injection Hu as <-. apply default_typed. }
  split_and!; try done; [|by eapply policy_root|].
  - intros cap Hcap. by eapply policy_capability.
  - apply compile_fields_layers in He as (? & ? & _ & _ & _ & _ & _ & _ & _ & _ & _ & _ & _ & _ & _ & _ & _ & _ & _ & _ & _ & ->).
    destruct (truthy _); [apply Ht|by left].
Qed.
Lemma plain_canonical_dict e v : maybe_str (ep_audit_log_path e) -> _canonical_dict e = Ok v -> plain v = true.
Proof.
  intros Hl E. unfold _canonical_dict in E. apply res_bind_Ok in E as (root & _ & E). apply res_bind_Ok in E as (caps & _ & [= <-]).
  assert (forall o, plain (opt_texts o) = true) as Ho by (intros []; [apply plain_sorted_texts|done]).
  apply plain_dict; [reflexivity|]. repeat (constructor; [cbn [snd]; auto using plain_sorted_texts, plain_texts|]); [|constructor].
  by destruct Hl as [->|[? ->]].
Qed.
(** The digest that an approval carries binds the policy: two loaded policies with one digest agree in every field and have the
    same capabilities relative to their workspaces, unless SHA-256 collides on their two texts, which are assumed to be ASCII. *)
Theorem policy_digest_binds root project_file user_file max_mode worktree has_git c root' project_file' user_file' max_mode' worktree' has_git' c' t t'
  (Hc : load_effective_policy root project_file user_file max_mode worktree has_git = Ok c)
  (Hc' : load_effective_policy root' project_file' user_file' max_mode' worktree' has_git' = Ok c')
  (Ht : policy_text (cp_policy c) = Ok t) (Ht' : policy_text (cp_policy c') = Ok t')
  (Hp : printable t = true) (Hp' : printable t' = true) (Hd : to_binding c = to_binding c') :
  same_policy (cp_policy c) (cp_policy c') \/ (t ≠ t' /\ sha256_hexdigest t = sha256_hexdigest t').
Proof.
  apply loaded_policy_canonical in Hc as (Hcap & Hroot & Hlog & Hdig). apply loaded_policy_canonical in Hc' as (Hcap' & Hroot' & Hlog' & Hdig').
  unfold policy_text in Ht, Ht'. apply res_bind_Ok in Ht as (v & Hv & [= <-]). apply res_bind_Ok in Ht' as (v' & Hv' & [= <-]).
  unfold _compute_digest, json_dumps_sorted in Hdig, Hdig'. rewrite Hv in Hdig. rewrite Hv' in Hdig'. cbn [res_bind] in Hdig, Hdig'.
  rewrite ascii_text_id in Hdig, Hdig' by done. injection Hdig as Hdig. injection Hdig' as Hdig'.
  unfold to_binding in Hd. cbn [String.append] in Hd. simplify_eq.
  destruct (decide (dumps ", " ": " v = dumps ", " ": " v')) as [E|E]; [left|right; split; [done|congruence]].
  eapply canonical_dict_inj; try done. apply dumps_spaced_inj; [exact (plain_canonical_dict _ _ Hlog Hv)|exact (plain_canonical_dict _ _ Hlog' Hv')|done].
Qed.
End digest.

(** ** Compilation fails closed and only for a reason *)
Section total.
Context `{Platform} `{HostPaths}.
Hypothesis host_total : forall p, is_ok (expanduser p) = true /\ is_ok (path_resolve p) = true.
Lemma full_path_total p : exists q, full_path p = Ok q.
Proof.
  unfold full_path. destruct (host_total p) as [H1' _]. destruct (expanduser p) as [q|]; [|done]. cbn [res_bind].
  destruct (host_total q) as [_ H2']. destruct (path_resolve q) as [r|]; [|done]. by exists r.
Qed.
Lemma frozen_total v : maybe_strs v -> exists s, _frozen v = Ok s.
Proof. intros [->|[l ->]]; [by eexists|]. eexists. apply frozen_strs. Qed.
Lemma opt_frozen_total v : maybe_strs v -> exists o, opt_frozen v = Ok o.
Proof. intros Hv. destruct (frozen_total v Hv) as [s Hs]. destruct v; cbn [opt_frozen]; rewrite ?Hs; by eexists. Qed.
Lemma meet_optional_total a b : maybe_strs a -> maybe_strs b -> exists o, meet_optional a b = Ok o.
Proof.
  intros Ha Hb. destruct (opt_frozen_total a Ha) as [oa Hoa], (opt_frozen_total b Hb) as [ob Hob].
  destruct (frozen_total a Ha) as [sa Hsa], (frozen_total b Hb) as [sb Hsb].
  destruct a, b; cbn [meet_optional]; rewrite ?Hoa, ?Hob, ?Hsa, ?Hsb; by eexists.
Qed.
Lemma capabilities_total v root : maybe_strs v -> exists caps, _compile_root_capabilities v root = Ok caps.
Proof.
  intros Hv. unfold _compile_root_capabilities. destruct Hv as [->|[l ->]]; [by eexists|]. destruct (truthy _); cbn [negb]; [|by eexists].
  destruct (full_path_total root) as [r ->]. cbn [res_bind iter_texts str_list]. generalize (∅ : gset string).
  induction (str_of <$> (PStr <$> l)) as [|raw raws IH]; intros caps; cbn [root_capabilities_of]; [by eexists|].
  destruct (host_total raw) as [H1' _]. destruct (expanduser raw) as [q|]; [|done]. cbn [res_bind].
  destruct (host_total (if isabs q then q else r +:+ "/" +:+ q)) as [_ H2']. destruct (path_resolve _) as [x|]; [|done]. apply IH.
Qed.
Lemma join_layers_total f project user : maybe_strs (f user) -> exists s, join_layers f project (Some user) = Ok s.
Proof. intros Hf. unfold join_layers. destruct (frozen_total _ Hf) as [s ->]. by eexists. Qed.
Definition known_mode (p : SandboxPolicy) : bool := match sp_mode p with PStr s => bool_decide (s ∈ mode_value <$> sandbox_modes) | _ => false end.
Lemma resolve_mode_known p : match _resolve_mode (sp_mode p) with
  | Ok _ => known_mode p = true | Raise e => exn_cls e = PolicyCompilationError /\ known_mode p = false end.
Proof.
  unfold known_mode, _resolve_mode. destruct (sp_mode p) as [| | | |s| |]; try done. unfold mode_of.
  destruct (List.find _ _) as [m|] eqn:E.
  - apply List.find_some in E as [_ <-%bool_decide_eq_true]. by destruct m.
  - split; [done|]. apply bool_decide_eq_false. rewrite list_elem_of_fmap. intros (m & -> & Hm).
    apply list_elem_of_In, (List.find_none _ _ E) in Hm. by rewrite bool_decide_eq_true_2 in Hm.
Qed.
(** On a host that resolves every path, the layers of two documents compile exactly when both modes are known and the project
    claims no channel administrators; otherwise compilation raises [PolicyCompilationError]. *)
Theorem compilation_fails_closed project root user max_mode (Hp : well_typed project) (Hu : well_typed user) :
  match compile_fields project root (Some user) max_mode with
  | Ok _ => known_mode project = true /\ known_mode user = true /\ truthy (sp_channel_admins project) = false
  | Raise e => exn_cls e = PolicyCompilationError
      /\ (known_mode project = false \/ known_mode user = false \/ truthy (sp_channel_admins project) = true)
  end.
Proof.
  destruct Hp as [? ? [] [] (? & ? & ?) (? & ? & ?) [] ?], Hu as [? ? [] [] (? & ? & ?) (? & ? & ?) [] ?].
  unfold compile_fields, compile_mode. destruct (full_path_total root) as [r ->]. cbn [res_bind].
  pose proof (resolve_mode_known project) as Hm. destruct (_resolve_mode (sp_mode project)); cbn [res_bind]; [|naive_solver].
  pose proof (resolve_mode_known user) as Hm'. destruct (_resolve_mode (sp_mode user)); cbn [res_bind]; [|naive_solver].
  repeat match goal with
  | |- context [let* _ := _frozen ?v in _] => let E := fresh in destruct (frozen_total v) as [? E]; [done|rewrite E; clear E; cbn [res_bind]]
  | |- context [let* _ := meet_optional ?a ?b in _] => let E := fresh in destruct (meet_optional_total a b) as [? E]; [done..|rewrite E; clear E; cbn [res_bind]]
  | |- context [let* _ := join_layers ?f ?s (Some ?u) in _] => let E := fresh in destruct (join_layers_total f s u) as [? E]; [done|rewrite E; clear E; cbn [res_bind]]
  | |- context [let* _ := _compile_root_capabilities ?v ?r in _] => let E := fresh in destruct (capabilities_total v r) as [? E]; [done|rewrite E; clear E; cbn [res_bind]]
  | |- context [raise_if ?c _ _] => let E := fresh in destruct c eqn:E; cbn [raise_if res_bind]
  end; naive_solver.
Qed.
End total.

(** ** Examples *)
Import PermissionRules.Example.
Definition no_effective : EffectiveSecurityPolicy := MkEffective READ_ONLY false None ∅ ∅ ∅ None ∅ ∅ true true PNone true true ∅ "".
Definition compiled_or_none (m : res CompiledPolicy) : CompiledPolicy :=
  match m with Ok c => c | Raise _ => MkCompiled no_effective "" no_catalog end.
(** A project that asks for everything, in one directory *)
Definition greedy : pyval :=
  PDict [("sandbox", PDict [("mode", PStr "yolo"); ("network", PBool true); ("allowed_paths", str_list ["src"; "../outside"]);
                            ("denied_paths", PList [])]); ("audit", PDict [("enabled", PBool false)])].
Definition loaded_or_default (file : option pyval) : SandboxPolicy := match load_policy file with Ok p => p | Raise _ => default_policy end.
Definition some_compiled (root : string) : CompiledPolicy := compiled_or_none (load_effective_policy root (Some greedy) None None "" true).
Lemma some_loaded : load_effective_policy "/w" (Some greedy) None None "" true = Ok (some_compiled "/w").
Proof. vm_compute. reflexivity. Qed.
Lemma some_moved : load_effective_policy "/home/u/w" (Some greedy) None None "" true = Ok (some_compiled "/home/u/w").
Proof. vm_compute. reflexivity. Qed.
Lemma some_capabilities : ep_root_capabilities (cp_policy (some_compiled "/w")) = {["/w/src"]}.
Proof. vm_compute. reflexivity. Qed.
Lemma some_effective :
  compile_effective_policy (loaded_or_default (Some greedy)) "/w" (Some default_user_policy) None "" true = Ok (some_compiled "/w").
Proof. vm_compute. reflexivity. Qed.
Lemma effective_is_meet_witness :
  exists p u, layer_alone "/w" (loaded_or_default (Some greedy)) = Ok p /\ layer_alone "/w" default_user_policy = Ok u /\ forall a,
    (policy_permits (cp_policy (some_compiled "/w")) a -> policy_permits p a /\ policy_permits u a /\ mode_permits WORKSPACE_WRITE a) /\
    (policy_permits p a -> policy_permits u a -> mode_permits WORKSPACE_WRITE a ->
     (names_a_path a = true -> confining (ep_mode p) = true /\ confining (ep_mode u) = true) ->
     policy_permits (cp_policy (some_compiled "/w")) a).
Proof. exact (effective_is_meet _ _ _ None _ _ _ some_effective). Defined.
Lemma src_is_capability : "/w/src" ∈ ep_root_capabilities (cp_policy (some_compiled "/w")).
Proof. rewrite some_capabilities. by apply elem_of_singleton. Qed.
Lemma untrusted_project_confined_witness : capability_of (ep_workspace_root (cp_policy (some_compiled "/w"))) "/w/src".
Proof.
  refine (proj2 (proj2 (proj2 (proj2 (proj2 (proj2 (proj2 (proj2 (proj2 (proj2 (untrusted_project_confined "/w" (Some greedy) "" true
    (some_compiled "/w") some_loaded)))))))))) "/w/src" src_is_capability).
Defined.
Definition src_scope : ResourceScope := FilesystemScope "/w" "/w/src" {["read"; "write"]}.
Lemma src_resolved : catalog_resolve (cp_resource_order (some_compiled "/w")) (digest_or_empty src_scope) = Ok src_scope.
Proof. vm_compute. reflexivity. Qed.
Lemma src_permits : permits src_scope (AccessPath "/w" "/w/src/a" "write").
Proof. split; [done|]. split; [vm_compute; reflexivity|set_solver]. Qed.
Lemma some_plain_capabilities cap : cap ∈ ep_root_capabilities (cp_policy (some_compiled "/w")) -> backslash_free cap = true.
Proof. rewrite some_capabilities. intros ->%elem_of_singleton. reflexivity. Qed.
Lemma catalog_within_sandbox_witness : policy_permits (cp_policy (some_compiled "/w")) (WritePath "/w/src/a").
Proof.
  refine (proj2 (catalog_within_sandbox _ _ _ _ _ _ _ _ _ _ _ _ some_effective some_plain_capabilities src_resolved src_permits _) eq_refl).
  vm_compute. reflexivity.
Defined.
Definition text_or_empty (c : CompiledPolicy) : string := match policy_text (cp_policy c) with Ok t => t | Raise _ => "" end.
Lemma some_texts : policy_text (cp_policy (some_compiled "/w")) = Ok (text_or_empty (some_compiled "/w"))
  /\ policy_text (cp_policy (some_compiled "/home/u/w")) = Ok (text_or_empty (some_compiled "/home/u/w"))
  /\ printable (text_or_empty (some_compiled "/w")) = true /\ printable (text_or_empty (some_compiled "/home/u/w")) = true
  /\ to_binding (some_compiled "/w") = to_binding (some_compiled "/home/u/w").
Proof. vm_compute. done. Qed.
(** The same document in two places has one digest. *)
Lemma policy_digest_binds_witness :
  same_policy (cp_policy (some_compiled "/w")) (cp_policy (some_compiled "/home/u/w")) \/
  (text_or_empty (some_compiled "/w") ≠ text_or_empty (some_compiled "/home/u/w")
   /\ sha256_hexdigest (text_or_empty (some_compiled "/w")) = sha256_hexdigest (text_or_empty (some_compiled "/home/u/w"))).
Proof.
  pose proof some_texts as (H1 & H2 & H3 & H4 & H5).
  exact (policy_digest_binds _ _ _ _ _ _ _ _ _ _ _ _ _ _ _ _ some_loaded some_moved H1 H2 H3 H4 H5).
Defined.
Lemma example_total p : is_ok (expanduser p) = true /\ is_ok (path_resolve p) = true.
Proof. done. Qed.
Lemma compilation_fails_closed_witness :
  match compile_fields default_policy "/w" (Some default_policy) WORKSPACE_WRITE with
  | Ok _ => known_mode default_policy = true /\ known_mode default_policy = true /\ truthy (sp_channel_admins default_policy) = false
  | Raise e => exn_cls e = PolicyCompilationError
      /\ (known_mode default_policy = false \/ known_mode default_policy = false \/ truthy (sp_channel_admins default_policy) = true)
  end.
Proof. exact (compilation_fails_closed example_total default_policy "/w" default_policy WORKSPACE_WRITE default_typed default_typed). Defined.

(** *** Where the documents and the code differ *)
(** An explicit null is not an omitted key: auditing and scanning are off when both layers say null. *)
Definition nulls : pyval := PDict [("audit", PDict [("enabled", PNone)]); ("secrets", PDict [("scan_on_output", PNone)])].
Example null_is_not_default :
  let e := cp_policy (compiled_or_none (load_effective_policy "/w" (Some nulls) (Some nulls) None "" false)) in
  is_ok (load_effective_policy "/w" (Some nulls) (Some nulls) None "" false) = true
  /\ ep_audit_enabled e = false /\ ep_secrets_scan_on_output e = false.
Proof. vm_compute. done. Qed.
(** A directory whose name has a backslash is filed in the catalog as another directory, which the sandbox does not allow. *)
Definition odd_directory : string := "a" +:+ String "\" "b".
Definition odd : CompiledPolicy :=
  compiled_or_none (load_effective_policy "/w" (Some (PDict [("sandbox", PDict [("allowed_paths", str_list [odd_directory])])])) None None "" false).
Example backslash_widens_catalog :
  (snd <$> cat_scopes (cp_resource_order odd)) = [FilesystemScope "/w" "/w/a/b" {["read"; "write"]}]
  /\ scope_path_contains "/w/a/b" "/w/a/b/x" = true
  /\ (cr_allowed <$> match check_read_path (box (cp_policy odd)) "/w/a/b/x" with Ok r => Some r | Raise _ => None end) = Some false.
Proof. vm_compute. done. Qed.
(** The catalog has a network scope although the policy has the network off. *)
Definition offline : CompiledPolicy :=
  compiled_or_none (load_effective_policy "/w" None (Some (PDict [("sandbox", PDict [("allowed_domains", str_list ["example.org"])])])) None "" false).
Example network_off_is_catalogued :
  ep_network_enabled (cp_policy offline) = false
  /\ List.filter (fun s => bool_decide (scope_kind s = SK_NETWORK)) (snd <$> cat_scopes (cp_resource_order offline))
     = [NetworkScope {["http"; "https"]} {["example.org"]} {[80; 443]} {["/"]} {["connect"]} ∅].
Proof. vm_compute. done. Qed.
(** Without a platform capability the bound is [workspace-write], not the most permissive mode. *)
Definition yolo : SandboxPolicy := loaded_or_default (Some (PDict [("sandbox", PDict [("mode", PStr "yolo")])])).
Example missing_platform_bounds_mode :
  ep_mode (cp_policy (compiled_or_none (compile_effective_policy yolo "/w" (Some yolo) None "" false))) = WORKSPACE_WRITE
  /\ ep_mode (cp_policy (compiled_or_none (compile_effective_policy yolo "/w" (Some yolo) (Some YOLO) "" false))) = YOLO.
Proof. vm_compute. done. Qed.
(** A file that is no mapping stops the start. *)
Example bad_file_blocks_start : load_policy (Some (PStr "read-only")) = policy_error "must be a mapping at the top level".
Proof. done. Qed.
