(* ===== verification/PyRegex.v ===== *)
(** * Regular expressions

    The fragment of [re] that the guards and the scanner use: an expression is a list of alternatives, tried in order, and an
    alternative is a sequence of repeated character classes, each greedy or lazy, tried by backtracking.  An alternation inside
    an expression is written out as alternatives with the same rest.  Texts are the characters of [chars]. *)
From Stdlib Require Import Ascii.
From S2P Require Import Prelude PyStr ShellSemantics PermissionRules.
Open Scope Z_scope.

(** One repeated class: [rx_lo] to [rx_hi] characters that satisfy [rx_class]; [rx_group] marks the captured one *)
Record rx := Rx { rx_class : string -> bool; rx_lo : nat; rx_hi : option nat; rx_lazy : bool; rx_group : bool }.
Definition room (hi : option nat) : bool := match hi with Some O => false | _ => true end.
Definition used (hi : option nat) : option nat := Nat.pred <$> hi.

(** One repeated class and what follows it: [stop] ends the repetition here, [more] takes one character of [l] first. *)
Fixpoint run (i : rx) (k : list string -> option (list (list string))) (lo : nat) (hi : option nat) (l : list string)
    : option (list (list string)) :=
  let stop := match lo with O => cons [] <$> k l | S _ => None end in
  let more := match l with
              | c :: r => if room hi && rx_class i c
                          then (fun m => match m with x :: m' => (c :: x) :: m' | [] => [] end) <$> run i k (Nat.pred lo) (used hi) r
                          else None
              | [] => None
              end in
  if rx_lazy i then match stop with Some m => Some m | None => more end
  else match more with Some m => Some m | None => stop end.
(** The texts of the classes in the first match at the start of [l] *)
Fixpoint rx_match (items : list rx) (l : list string) : option (list (list string)) :=
  match items with
  | [] => Some []
  | i :: rest => run i (rx_match rest) (rx_lo i) (rx_hi i) l
  end.
(** The first alternative that matches at the start of [l]: its classes and their texts *)
Fixpoint rx_first (alternatives : list (list rx)) (l : list string) : option (list rx * list (list string)) :=
  match alternatives with
  | [] => None
  | items :: rest => match rx_match items l with Some m => Some (items, m) | None => rx_first rest l end
  end.
(** [match.group(0)], and [match.group(1)] where there is one *)
Definition group0 (m : list rx * list (list string)) : list string := concat m.2.
Definition group1 (m : list rx * list (list string)) : option (list string) :=
  match List.find (fun p => rx_group p.1) (combine m.1 m.2) with Some p => Some p.2 | None => None end.
Fixpoint search {A} (f : list string -> option A) (l : list string) : option A :=
  match f l with
  | Some a => Some a
  | None => match l with [] => None | _ :: r => search f r end
  end.
(** [pattern.finditer(text)] for an expression without empty matches: [skip] characters belong to the last match. *)
Fixpoint finditer (alternatives : list (list rx)) (skip : nat) (l : list string) : list (list rx * list (list string)) :=
  match l with
  | [] => []
  | _ :: r =>
      match skip with
      | S k => finditer alternatives k r
      | O => match rx_first alternatives l with
             | Some m => m :: finditer alternatives (Nat.pred (length (group0 m))) r
             | None => finditer alternatives O r
             end
      end
  end.

(** ** Classes and literals *)
Definition lower_letter (a : ascii) : ascii := if between 65 90 (byte a) then chr (byte a + 32) else a.
Definition LONG_S : string := "ſ".
Definition KELVIN : string := String (chr 226) (String (chr 132) (String (chr 170) EmptyString)).
Definition DOTLESS_I : string := "ı".
Definition DOTTED_I : string := "İ".
(** The code points that the engine takes for a letter, whatever its case *)
Definition same_letter (x : ascii) (c : string) : bool :=
  match c with
  | String a EmptyString => bool_decide (lower_letter a = lower_letter x)
  | _ => match lower_letter x with
         | "s"%char => bool_decide (c = LONG_S) | "k"%char => bool_decide (c = KELVIN) | "i"%char => str_in c [DOTLESS_I; DOTTED_I]
         | _ => false end
  end.
Definition one (f : string -> bool) : rx := Rx f 1 (Some 1%nat) false false.
Definition opt (f : string -> bool) : rx := Rx f 0 (Some 1%nat) false false.
Definition many (f : string -> bool) : rx := Rx f 0 None false false.
Definition some (f : string -> bool) : rx := Rx f 1 None false false.
Definition at_least (n : nat) (f : string -> bool) : rx := Rx f n None false false.
Definition exactly (n : nat) (f : string -> bool) : rx := Rx f n (Some n) false false.
Definition captured (i : rx) : rx := Rx (rx_class i) (rx_lo i) (rx_hi i) (rx_lazy i) true.
Fixpoint literal (s : string) : list rx :=
  match s with EmptyString => [] | String a r => one (fun c => bool_decide (c = String a EmptyString)) :: literal r end.
(** The same letters in either case *)
Fixpoint any_case (s : string) : list rx :=
  match s with EmptyString => [] | String a r => one (same_letter a) :: any_case r end.
Definition alnum (a : ascii) : bool := between 97 122 (byte a) || between 65 90 (byte a) || between 48 57 (byte a).
(** [[A-Za-z0-9]] and the characters of [extra]; in either case, the four letters outside ASCII too *)
Definition word_char (extra : string) (c : string) : bool := char_test alnum c || char_in extra c.
Definition word_char_any_case (extra : string) (c : string) : bool :=
  word_char extra c || str_in c [LONG_S; KELVIN; DOTLESS_I; DOTTED_I].

(** ** What the matcher finds *)
Definition class_text (i : rx) (x : list string) : Prop :=
  Forall (fun c => rx_class i c = true) x /\ (rx_lo i <= length x)%nat /\ (forall n, rx_hi i = Some n -> (length x <= n)%nat).
(** [x] is a text that the sequence describes *)
Inductive describes : list rx -> list (list string) -> Prop :=
| describes_nil : describes [] []
| describes_cons i items x m : class_text i x -> describes items m -> describes (i :: items) (x :: m).
Definition between_bounds (lo : nat) (hi : option nat) (x : list string) : Prop :=
  (lo <= length x)%nat /\ forall n, hi = Some n -> (length x <= n)%nat.
Lemma bounds_cons lo hi c x : room hi = true -> between_bounds (Nat.pred lo) (used hi) x -> between_bounds lo hi (c :: x).
Proof.
  unfold between_bounds, used. intros Hr [Hlo Hhi]. cbn [length]. split; [lia|]. intros n ->. destruct n; [done|].
  specialize (Hhi _ eq_refl). cbn in Hhi. lia.
Qed.
Lemma bounds_uncons lo hi c x : between_bounds lo hi (c :: x) -> room hi = true /\ between_bounds (Nat.pred lo) (used hi) x.
Proof.
  unfold between_bounds, used. cbn [length]. intros [Hlo Hhi]. split.
  - destruct hi as [[|n]|]; [|done..]. specialize (Hhi O eq_refl). lia.
  - split; [lia|]. intros n. destruct hi as [k|]; [|done]. intros [= <-]. specialize (Hhi k eq_refl). lia.
Qed.
Lemma run_sound i k lo hi l m : run i k lo hi l = Some m ->
  exists x m' r, m = x :: m' /\ l = x ++ r /\ k r = Some m' /\ Forall (fun c => rx_class i c = true) x /\ between_bounds lo hi x.
Proof.
  assert (forall lo hi l m, match lo with O => cons [] <$> k l | S _ => None end = Some m ->
    exists x m' r, m = x :: m' /\ l = x ++ r /\ k r = Some m' /\ Forall (fun c => rx_class i c = true) x /\ between_bounds lo hi x) as Hstop.
  { intros [|] hi' l' m' E; [|done]. apply fmap_Some in E as (m1 & E & ->). exists [], m1, l'. split_and!; [done..|].
    split; [cbn; lia|]. intros. cbn. lia. }
  revert lo hi m. induction l as [|c r IH]; intros lo hi m E; cbn [run] in E.
  { destruct (rx_lazy i); [|by apply Hstop]. apply Hstop. by destruct (match lo with O => _ | S _ => _ end). }
  assert (forall m, (if room hi && rx_class i c
      then (fun m => match m with x :: m' => (c :: x) :: m' | [] => [] end) <$> run i k (Nat.pred lo) (used hi) r else None) = Some m ->
    exists x m' r', m = x :: m' /\ c :: r = x ++ r' /\ k r' = Some m' /\ Forall (fun c => rx_class i c = true) x /\ between_bounds lo hi x) as Hmore.
  { intros m0 E0. destruct (room hi && rx_class i c) eqn:Ec; [|done]. apply andb_true_iff in Ec as [Hroom Hc].
    apply fmap_Some in E0 as (m1 & E1 & ->). apply IH in E1 as (x & m' & r' & -> & -> & Hk & Hx & Hb).
    exists (c :: x), m', r'. split_and!; [done..|by constructor|by apply bounds_cons]. }
  destruct (rx_lazy i).
  - destruct (match lo with O => _ | S _ => _ end) eqn:Es; [injection E as <-; by apply Hstop|by apply Hmore].
  - destruct (if room hi && _ then _ else _) eqn:Em; [injection E as <-; by apply Hmore|by apply Hstop].
Qed.
Lemma run_complete i k lo hi x r : Forall (fun c => rx_class i c = true) x -> between_bounds lo hi x -> k r ≠ None ->
  run i k lo hi (x ++ r) ≠ None.
Proof.
  intros Hx Hb Hk. revert lo hi Hb. induction Hx as [|c x Hc Hx IH]; intros lo hi Hb.
  - assert (lo = O) as -> by (destruct Hb; cbn in *; lia). cbn [app]. destruct r; cbn [run]; destruct (k _); try done; cbn;
      destruct (rx_lazy i); try done; by destruct (if room hi && _ then _ else _).
  - apply bounds_uncons in Hb as [Hroom Hb]. cbn [app run]. rewrite Hroom, Hc. cbn [andb]. specialize (IH _ _ Hb).
    destruct (run i k (Nat.pred lo) (used hi) (x ++ r)); [|done]. cbn. destruct (rx_lazy i); [|done].
    by destruct (match lo with O => _ | S _ => _ end).
Qed.
Lemma rx_match_sound items l m : rx_match items l = Some m -> describes items m /\ concat m `prefix_of` l.
Proof.
  revert l m. induction items as [|i items IH]; intros l m E; cbn [rx_match] in E.
  { injection E as <-. split; [constructor|apply prefix_nil]. }
  apply run_sound in E as (x & m' & r & -> & -> & Hk & Hx & Hb). apply IH in Hk as [Hd [post ->]].
  split; [by constructor|]. exists post. cbn [concat]. by rewrite (assoc_L (++)).
Qed.
Lemma rx_match_complete items l m : describes items m -> concat m `prefix_of` l -> rx_match items l ≠ None.
Proof.
  intros Hd. revert l. induction Hd as [|i items x m [Hx Hb] Hd IH]; intros l [post ->]; cbn [rx_match]; [done|].
  cbn [concat]. rewrite <- (assoc_L (++)). apply run_complete; [done..|]. apply IH. by exists post.
Qed.
(** Somewhere in [l] there is a text that one of the alternatives describes. *)
Definition occurs (alternatives : list (list rx)) (l : list string) : Prop :=
  exists before items m, items ∈ alternatives /\ describes items m /\ before ++ concat m `prefix_of` l.
Lemma rx_first_sound alternatives l p : rx_first alternatives l = Some p ->
  p.1 ∈ alternatives /\ describes p.1 p.2 /\ group0 p `prefix_of` l.
Proof.
  induction alternatives as [|items rest IH]; cbn [rx_first]; [done|]. destruct (rx_match items l) as [m|] eqn:E.
  - intros [= <-]. apply rx_match_sound in E as [? ?]. split; [left|done].
  - intros Hp. destruct (IH Hp) as (? & ? & ?). split; [by right|done].
Qed.
Lemma rx_first_None alternatives l : rx_first alternatives l = None <-> forall items, items ∈ alternatives -> rx_match items l = None.
Proof.
  induction alternatives as [|items rest IH]; cbn [rx_first].
  { split; [|done]. by intros _ ? ?%not_elem_of_nil. }
  destruct (rx_match items l) eqn:E; setoid_rewrite elem_of_cons.
  - split; [done|]. intros Hall. rewrite (Hall items) in E; [done|by left].
  - rewrite IH. naive_solver.
Qed.
(** An alternative that takes at least one character *)
Definition consuming (items : list rx) : bool := existsb (fun i => negb (rx_lo i =? 0)%nat) items.
Lemma consuming_nonempty items m : consuming items = true -> describes items m -> concat m ≠ [].
Proof.
  intros Hc Hd. induction Hd as [|i items x m [_ [Hlo _]] Hd IH]; [done|]. cbn [consuming existsb] in Hc. cbn [concat].
  destruct x as [|c x]; [|done]. cbn [length app] in *. apply orb_true_iff in Hc as [Hc|Hc]; [|by apply IH].
  destruct (Nat.eqb_spec (rx_lo i) 0); [done|lia].
Qed.
Lemma occurs_cons alternatives c r : rx_first alternatives (c :: r) = None -> occurs alternatives (c :: r) <-> occurs alternatives r.
Proof.
  intros Hn. rewrite rx_first_None in Hn. split.
  - intros ([|b before] & items & m & Hi & Hd & Hp); [by destruct (rx_match_complete _ _ _ Hd Hp); apply Hn|].
    exists before, items, m. split_and!; [done..|]. by apply prefix_cons_inv_2 in Hp.
  - intros (before & items & m & Hi & Hd & Hp). exists (c :: before), items, m. split_and!; [done..|]. by apply prefix_cons.
Qed.
(** The iteration finds something exactly when there is something to find. *)
Lemma finditer_found alternatives l : forallb consuming alternatives = true -> finditer alternatives O l ≠ [] <-> occurs alternatives l.
Proof.
  intros Hc. rewrite forallb_forall in Hc. induction l as [|c r IH]; cbn [finditer].
  - split; [done|]. intros (before & items & m & Hi & Hd & Hp). apply prefix_nil_inv, app_nil in Hp as [_ Hp].
    apply list_elem_of_In, Hc in Hi. by destruct (consuming_nonempty _ _ Hi Hd).
  - destruct (rx_first alternatives (c :: r)) as [[items m]|] eqn:E.
    + apply rx_first_sound in E as (Hi & Hd & Hp). split; [intros _|done]. by exists [], items, m.
    + by rewrite occurs_cons.
Qed.
