(* ===== verification/NetworkGuard.v ===== *)
(** * The network guard ([security/network_guard.py])

    The check on tool calls that would reach the network: the domain of a URL or of a command is put in canonical form and
    compared with the blocked and the allowed domains of the policy.  Resolving a name and opening the connection belong to the
    host; the local endpoints a service has bound are kept here. *)
From Stdlib Require Import Ascii.
From stdpp Require Import gmap.
From S2P Require Import Prelude PyStr Json PyValue ShellSemantics PyText PermissionRules PermissionEvaluator ResourceScope EffectivePolicy PyRegex.
Open Scope Z_scope.

(** ** Text *)
(** [s.split(sep)] *)
Fixpoint split_char (sep : ascii) (s : string) : list string :=
  match s with
  | EmptyString => [EmptyString]
  | String c r => if bool_decide (c = sep) then EmptyString :: split_char sep r
                  else match split_char sep r with x :: l => String c x :: l | [] => [] end
  end.
Definition DOT : ascii := "."%char.
Definition labels (domain : string) : list string := split_char DOT domain.
(** [s.endswith(suffix)] *)
Fixpoint has_suffix (suffix s : string) : bool :=
  bool_decide (s = suffix) || match s with String _ r => has_suffix suffix r | EmptyString => false end.
(** [s.split()] *)
Fixpoint split_words (current : list string) (l : list string) : list string :=
  match l with
  | [] => match current with [] => [] | _ => [text_of current] end
  | c :: r => if is_space c then match current with [] => split_words [] r | _ => text_of current :: split_words [] r end
              else split_words (current ++ [c]) r
  end.
Definition py_split (s : string) : list string := split_words [] (chars s).

(** ** Canonical domains *)
Definition _MAX_DOMAIN_LEN : Z := 253.
Definition _MAX_LABEL_LEN : Z := 63.
Fixpoint check_labels (l : list string) : res unit :=
  match l with
  | [] => Ok tt
  | label :: rest =>
      raise_if (str_empty label) ValueError "domain has empty label" ;;*
      raise_if (_MAX_LABEL_LEN <? py_len label) ValueError "domain label exceeds 63 chars" ;;*
      check_labels rest
  end.
Definition drop_root_dot (cleaned : string) : res string :=
  if has_suffix "." cleaned then
    raise_if (has_suffix ".." cleaned) ValueError "domain has multiple trailing dots" ;;*
    Ok (String.substring 0 (String.length cleaned - 1) cleaned)
  else Ok cleaned.
Section guard.
Context `{Platform}.
Definition canonicalize_domain (domain : string) : res string :=
  let cleaned := py_strip domain in
  if str_empty cleaned then Ok EmptyString
  else
    let* cleaned := drop_root_dot cleaned in
    raise_if (str_empty cleaned) ValueError "domain is empty after stripping dot" ;;*
    raise_if (has_char (fun c => byte c =? 42) cleaned) ValueError "wildcard domains are not allowed" ;;*
    check_labels (labels cleaned) ;;*
    match idna cleaned with
    | Raise _ => value_error "domain is not IDNA-encodable"
    | Ok encoded =>
        let encoded := str_lower encoded in
        raise_if (_MAX_DOMAIN_LEN <? py_len encoded) ValueError "domain exceeds 253 chars" ;;*
        raise_if (existsb (fun label => _MAX_LABEL_LEN <? py_len label) (labels encoded)) ValueError
          "domain label exceeds 63 chars" ;;*
        Ok encoded
    end.

(** ** The guard *)
Record NetworkGuard := MkGuard {
  ng_network_enabled : bool; ng_allowed : option (gset string); ng_blocked : gset string; ng_isolation_proven : bool;
  ng_local_endpoints : gset (string * Z)
}.
Record NetworkCheckResult := MkNetCheck { nc_allowed : bool; nc_reason : string; nc_domain : string }.
(** The canonical forms of the domains that are not blank *)
Definition canonical_domains (domains : list string) : res (gset string) :=
  let* l := res_map canonicalize_domain (List.filter (fun d => negb (str_empty (py_strip d))) domains) in
  Ok (list_to_set l).
Definition make_guard (network_enabled : bool) (allowed_domains : option (list string)) (blocked_domains : list string)
    (isolation_proven : bool) : res NetworkGuard :=
  let* allowed := match allowed_domains with
                  | None => Ok None | Some l => let* s := canonical_domains l in Ok (Some s) end in
  let* blocked := canonical_domains blocked_domains in
  Ok (MkGuard network_enabled allowed blocked isolation_proven ∅).
Definition valid_endpoint (host : string) (port : Z) : bool := bool_decide (host = "127.0.0.1") && between 1 65535 port.
Definition with_endpoints (g : NetworkGuard) (e : gset (string * Z)) : NetworkGuard :=
  MkGuard (ng_network_enabled g) (ng_allowed g) (ng_blocked g) (ng_isolation_proven g) e.
Definition bind_local_service_endpoint (g : NetworkGuard) (host : string) (port : Z) : res NetworkGuard :=
  raise_if (negb (valid_endpoint host port)) ValueError "local service endpoint must be 127.0.0.1:<port>" ;;*
  Ok (with_endpoints g (ng_local_endpoints g ∪ {[(host, port)]})).
Definition unbind_local_service_endpoint (g : NetworkGuard) (host : string) (port : Z) : res NetworkGuard :=
  raise_if (negb (valid_endpoint host port)) ValueError "local service endpoint must be 127.0.0.1:<port>" ;;*
  Ok (with_endpoints g (ng_local_endpoints g ∖ {[(host, port)]})).

(** [canonical == domain or canonical.endswith("." + domain)] *)
Definition within (canonical domain : string) : bool := bool_decide (canonical = domain) || has_suffix ("." +:+ domain) canonical.
Definition plain_check (ok : bool) (reason : string) : NetworkCheckResult := MkNetCheck ok reason EmptyString.
Definition _check_domain (g : NetworkGuard) (domain : string) : NetworkCheckResult :=
  if str_empty domain then plain_check true "empty domain"
  else
    match canonicalize_domain domain with
    | Raise _ => MkNetCheck false "domain rejected" domain
    | Ok canonical =>
        if str_empty canonical then plain_check true "empty domain"
        else if existsb (within canonical) (elements (ng_blocked g))
        then MkNetCheck false ("domain " +:+ canonical +:+ " is blocked by policy") canonical
        else
          match ng_allowed g with
          | Some allowed =>
              if bool_decide (allowed = ∅)
              then MkNetCheck false ("domain " +:+ canonical +:+ " blocked by empty allowlist (deny all)") canonical
              else if existsb (within canonical) (elements allowed)
              then MkNetCheck true ("domain " +:+ canonical +:+ " in allowlist") canonical
              else MkNetCheck false ("domain " +:+ canonical +:+ " not in allowlist") canonical
          | None =>
              if ng_network_enabled g
              then MkNetCheck true ("domain " +:+ canonical +:+ " allowed (network enabled, no allowlist)") canonical
              else MkNetCheck false ("network access blocked to " +:+ canonical) canonical
          end
    end.

(** ** The domain of a text *)
Fixpoint strip_chars (p l : list string) : option (list string) :=
  match p, l with
  | [], _ => Some l
  | x :: p', y :: l' => if bool_decide (x = y) then strip_chars p' l' else None
  | _, _ => None
  end.
Fixpoint take_while (f : string -> bool) (l : list string) : list string :=
  match l with x :: r => if f x then x :: take_while f r else [] | [] => [] end.
Definition nonempty_text (l : list string) : option string := match l with [] => None | _ => Some (text_of l) end.
(** [(?:https?|wss?)://([^\s/:'`]+)], where double quotes are excluded too *)
Definition host_char (c : string) : bool := negb (is_space c) && negb (str_in c ["/"; ":"; DQUOTE; SQUOTE; "`"]).
Definition match_url (l : list string) : option string :=
  match omap (fun scheme => strip_chars (chars scheme) l) ["https://"; "http://"; "wss://"; "ws://"] with
  | rest :: _ => nonempty_text (take_while host_char rest)
  | [] => None
  end.
(** [@([a-zA-Z0-9.\-]+)] *)
Definition ssh_char (c : string) : bool :=
  match c with
  | String a EmptyString => let x := byte a in between 97 122 x || between 65 90 x || between 48 57 x || (x =? 46) || (x =? 45)
  | _ => false
  end.
Definition match_ssh (l : list string) : option string :=
  match l with "@"%string :: r => nonempty_text (take_while ssh_char r) | _ => None end.
Definition _extract_domain (text : string) : res string :=
  let fallback :=
    match search match_url (chars text) with
    | Some host => host
    | None => default EmptyString (search match_ssh (chars text))
    end in
  match urlsplit text with
  | Ok parts => match sr_hostname parts with
                | Some host => if str_empty host then Ok fallback else Ok host
                | None => Ok fallback end
  | Raise e => if isinstance (exn_cls e) ValueError then Ok fallback else Raise e
  end.

(** ** Tool calls *)
Definition _check_url (g : NetworkGuard) (url : pyval) : res NetworkCheckResult :=
  if negb (truthy url) then Ok (plain_check true "empty url")
  else
    match url with
    | PStr text =>
        let* domain := _extract_domain text in
        Ok (if str_empty domain then plain_check false "network access blocked" else _check_domain g domain)
    | _ => Raise (Exn AttributeError "object has no attribute 'decode'")
    end.
Definition NETWORK_COMMAND_KEYWORDS : list string :=
  ["curl"; "wget"; "nc"; "ncat"; "telnet"; "ssh"; "scp"; "rsync"; "ping"; "traceroute"; "nslookup"; "dig"; "ftp"; "python";
   "python3"; "node"; "npm"; "pip"; "cargo"; "docker"; "podman"; "kubectl"; "git"].
Definition ISOLATED_LOCAL_RUNTIME_COMMANDS : list string := ["python"; "python3"; "python3.11"; "node"; "npm"; "pip"; "cargo"].
Definition NETWORK_GIT_SUBCOMMANDS : list string := ["push"; "pull"; "fetch"; "clone"; "remote"; "ls-remote"].
Definition NOT_A_NETWORK_COMMAND : string := "not a network command".
Definition _base_command (command : string) : string :=
  match py_split (py_strip command) with first :: _ => first | [] => EmptyString end.
(** The domain of the command, or what is decided when it has none *)
Definition by_domain (g : NetworkGuard) (command : string) (unknown : NetworkCheckResult) : res NetworkCheckResult :=
  let* domain := _extract_domain command in
  Ok (if str_empty domain then unknown else _check_domain g domain).
Definition unverified (g : NetworkGuard) (refused admitted : string) : NetworkCheckResult :=
  match ng_allowed g with
  | Some _ => plain_check false (refused +:+ " destination cannot be verified against the configured allowlist")
  | None => plain_check true (admitted +:+ " (no allowlist configured)")
  end.
Definition check_git (g : NetworkGuard) (command : string) : res NetworkCheckResult :=
  match py_split command with
  | _ :: sub :: _ =>
      if str_in sub NETWORK_GIT_SUBCOMMANDS then
        if negb (ng_network_enabled g) then Ok (plain_check false ("network git command: git " +:+ sub))
        else by_domain g command (unverified g "git network command" "network git command")
      else Ok (plain_check true "local git command")
  | _ => Ok (plain_check true "local git command")
  end.
Definition _check_terminal_command (g : NetworkGuard) (command : string) : res NetworkCheckResult :=
  let base := _base_command command in
  if str_in base ISOLATED_LOCAL_RUNTIME_COMMANDS && negb (ng_network_enabled g) && ng_isolation_proven g
  then Ok (plain_check true "local runtime admitted; network denial is enforced by the kernel sandbox")
  else if negb (str_in base NETWORK_COMMAND_KEYWORDS) then Ok (plain_check true NOT_A_NETWORK_COMMAND)
  else if bool_decide (base = "git") then check_git g command
  else if negb (ng_network_enabled g) then
    let* domain := _extract_domain command in
    Ok (if str_empty domain then plain_check false ("network command blocked: " +:+ base)
        else MkNetCheck false ("network access blocked: " +:+ base +:+ " to " +:+ domain) domain)
  else by_domain g command (unverified g ("network command " +:+ base) ("network command " +:+ base)).
Fixpoint check_segments (g : NetworkGuard) (segments : list string) : res NetworkCheckResult :=
  match segments with
  | [] => Ok (plain_check true NOT_A_NETWORK_COMMAND)
  | segment :: rest =>
      let* result := _check_terminal_command g segment in
      if negb (nc_allowed result) || negb (bool_decide (nc_reason result = NOT_A_NETWORK_COMMAND)) then Ok result
      else check_segments g rest
  end.
(** The text of a terminal call *)
Definition terminal_command (arguments : list (string * pyval)) : string :=
  let text := str_of (or_else (get "script" arguments) (or_else (get "command" arguments) (PStr ""))) in
  match get "argv" arguments with
  | PList l => if forallb is_str l then text_of (shlex_join ((fun v => match v with PStr s => chars s | _ => [] end) <$> l)) else text
  | _ => text
  end.
Definition check_network_tool (g : NetworkGuard) (tool_name : string) (arguments : list (string * pyval)) : res NetworkCheckResult :=
  if has_prefix "github_" tool_name then
    Ok (if negb (ng_network_enabled g) then MkNetCheck false "GitHub network access disabled by policy" "github.com"
        else _check_domain g "github.com")
  else if str_in tool_name ["terminal"; "terminal_argv"; "terminal_shell"] then
    check_segments g (split_command_segments (terminal_command arguments))
  else if bool_decide (tool_name = "browser_navigate") then _check_url g (get_or "url" (PStr "") arguments)
  else match dict_get "url" arguments with
       | Some url => _check_url g (PStr (str_of url))
       | None => Ok (plain_check true "not a network tool")
       end.
End guard.
(** The guard of a compiled policy, as the runtime builds it *)
Definition policy_guard `{Platform} (e : EffectiveSecurityPolicy) (isolation_proven : bool) : res NetworkGuard :=
  make_guard (ep_network_enabled e) (elements <$> ep_network_allowed_domains e) (elements (ep_network_blocked_domains e)) isolation_proven.

(** ** Domains by their labels *)
Lemma has_suffix_spec suf s : has_suffix suf s = true <-> exists p, s = p +:+ suf.
Proof.
  induction s as [|c s IH]; cbn [has_suffix]; rewrite orb_true_iff, bool_decide_eq_true.
  - split; [intros [->|?]; [by exists EmptyString|done]|]. intros [[|] Hp]; [by left|done].
  - rewrite IH. split.
    + intros [<-|[p ->]]; [by exists EmptyString|by exists (String c p)].
    + intros [[|a p] Hp]; [by left|right]. injection Hp as -> ->. by exists p.
Qed.
Lemma split_char_nonempty sep s : split_char sep s ≠ [].
Proof. induction s as [|c s IH]; cbn; [done|]. case_bool_decide; [done|]. by destruct (split_char sep s). Qed.
Lemma split_char_app sep a b : split_char sep (a +:+ String sep b) = split_char sep a ++ split_char sep b.
Proof.
  induction a as [|c a IH]; cbn [String.append split_char]; [by rewrite bool_decide_eq_true_2|]. rewrite IH.
  case_bool_decide; [done|]. pose proof (split_char_nonempty sep a). by destruct (split_char sep a).
Qed.
Lemma join_split_char sep s : join (String sep EmptyString) (split_char sep s) = s.
Proof.
  induction s as [|c s IH]; [done|]. cbn [split_char]. pose proof (split_char_nonempty sep s).
  destruct (split_char sep s) as [|x l]; [done|]. case_bool_decide; subst.
  - cbn [join]. by destruct l.
  - by destruct l.
Qed.
Lemma join_app sep k l : k ≠ [] -> l ≠ [] -> join sep (k ++ l) = join sep k +:+ sep +:+ join sep l.
Proof.
  intros Hk Hl. induction k as [|x k IH]; [done|]. destruct k as [|y k].
  - cbn [app]. by destruct l.
  - cbn [app] in *. change (join sep (x :: y :: k ++ l)) with (x +:+ sep +:+ join sep (y :: k ++ l)).
    rewrite IH by done. change (join sep (x :: y :: k)) with (x +:+ sep +:+ join sep (y :: k)). by rewrite !str_app_assoc.
Qed.
(** [c] is [d] or one of its subdomains *)
Definition subdomain (c d : string) : Prop := labels d `suffix_of` labels c.
Lemma within_spec c d : within c d = true <-> subdomain c d.
Proof.
  unfold within, subdomain. rewrite orb_true_iff, bool_decide_eq_true, has_suffix_spec. split.
  - intros [->|[p ->]]; [done|]. exists (labels p). apply (split_char_app DOT).
  - intros [k Hk]. apply (f_equal (join (String DOT EmptyString))) in Hk. unfold labels in Hk. destruct k as [|x k].
    + cbn [app] in Hk. rewrite !join_split_char in Hk. by left.
    + right. rewrite join_app in Hk by (done || apply split_char_nonempty). rewrite !join_split_char in Hk.
      exists (join (String DOT EmptyString) (x :: k)). exact Hk.
Qed.
Lemma existsb_within c (s : gset string) : existsb (within c) (elements s) = true <-> exists d, d ∈ s /\ subdomain c d.
Proof.
  rewrite existsb_exists. setoid_rewrite <- list_elem_of_In. setoid_rewrite elem_of_elements. by setoid_rewrite within_spec.
Qed.

(** ** Decisions *)
Section decisions.
Context `{Platform}.
(** What the lists of the guard say of a canonical domain *)
Definition domain_permitted (g : NetworkGuard) (c : string) : Prop :=
  (forall b, b ∈ ng_blocked g -> ~ subdomain c b) /\
  match ng_allowed g with Some allowed => exists a, a ∈ allowed /\ subdomain c a | None => ng_network_enabled g = true end.
Lemma check_domain_spec g domain c : canonicalize_domain domain = Ok c -> c ≠ EmptyString -> domain ≠ EmptyString ->
  nc_allowed (_check_domain g domain) = true <-> domain_permitted g c.
Proof.
  intros Hc Hn Hd. unfold _check_domain, domain_permitted. replace (str_empty domain) with false by (by destruct domain).
  rewrite Hc. replace (str_empty c) with false by (by destruct c).
  destruct (existsb (within c) (elements (ng_blocked g))) eqn:E1.
  { apply existsb_within in E1 as (b & Hb & Hs). split; [done|]. intros [Hx _]. by destruct (Hx b Hb). }
  assert (forall b, b ∈ ng_blocked g -> ~ subdomain c b) as Hb.
  { intros b Hb Hs. enough (false = true) by done. rewrite <- E1. apply existsb_within. by exists b. }
  destruct (ng_allowed g) as [allowed|].
  - case_bool_decide as E2; [subst; split; [done|]; by intros (_ & a & ?%not_elem_of_empty & _)|].
    destruct (existsb (within c) (elements allowed)) eqn:E3.
    + apply existsb_within in E3. split; [by split|done].
    + split; [done|]. intros (_ & Ha). enough (false = true) by done. rewrite <- E3. by apply existsb_within.
  - destruct (ng_network_enabled g); split; [by split|done..|by intros [_ ?]].
Qed.
(** A canonical domain is never refused as malformed, and an uncanonical one never passes. *)
Lemma check_domain_malformed g domain e : domain ≠ EmptyString -> canonicalize_domain domain = Raise e ->
  nc_allowed (_check_domain g domain) = false.
Proof. intros Hd E. unfold _check_domain. replace (str_empty domain) with false by (by destruct domain). by rewrite E. Qed.
Lemma canonical_domains_spec l s : canonical_domains l = Ok s -> forall x,
  x ∈ s <-> exists d, d ∈ l /\ str_empty (py_strip d) = false /\ canonicalize_domain d = Ok x.
Proof.
  unfold canonical_domains. intros (k & Hk & [= <-])%res_bind_Ok x. rewrite elem_of_list_to_set. apply res_map_Ok in Hk.
  revert k Hk. induction l as [|d l IH]; intros k Hk; cbn [List.filter] in Hk.
  { inversion Hk. split; [by intros ?%not_elem_of_nil|]. by intros (? & ?%not_elem_of_nil & _). }
  setoid_rewrite elem_of_cons. destruct (str_empty (py_strip d)) eqn:E; cbn [negb] in Hk.
  - rewrite (IH k Hk). split; [naive_solver|]. intros (d' & [->|?] & ? & ?); [congruence|naive_solver].
  - inversion Hk as [|? y ? k' Hy Hk']; subst. rewrite elem_of_cons, (IH k' Hk'). split; [naive_solver|].
    intros (d' & [->|?] & ? & ?); [left; congruence|naive_solver].
Qed.
(** What one layer says of a canonical domain *)
Definition layer_permits_domain (e : EffectiveSecurityPolicy) (c : string) : Prop :=
  (forall b b', b ∈ ep_network_blocked_domains e -> canonicalize_domain b = Ok b' -> b' ≠ EmptyString -> ~ subdomain c b') /\
  (forall allowed, ep_network_allowed_domains e = Some allowed ->
     exists a a', a ∈ allowed /\ canonicalize_domain a = Ok a' /\ subdomain c a').
Lemma canonical_nonblank d c : canonicalize_domain d = Ok c -> c ≠ EmptyString -> str_empty (py_strip d) = false.
Proof. unfold canonicalize_domain. destruct (str_empty (py_strip d)); [|done]. by intros [= <-]. Qed.
Lemma guard_of_policy e iso g c : policy_guard e iso = Ok g -> domain_permitted g c ->
  layer_permits_domain e c /\ (ep_network_allowed_domains e = None -> ep_network_enabled e = true).
Proof.
  unfold policy_guard, make_guard. intros E [Hb Ha]. apply res_bind_Ok in E as (oa & Hoa & E).
  apply res_bind_Ok in E as (sb & Hsb & [= <-]). cbn [ng_blocked ng_allowed ng_network_enabled] in *. split; [split|].
  - intros b b' Hin Hcan Hn. apply Hb. apply (canonical_domains_spec _ _ Hsb). exists b. rewrite elem_of_elements.
    split; [done|]. split; [by eapply canonical_nonblank|done].
  - intros allowed Hal. rewrite Hal in Hoa. cbn [fmap option_fmap option_map] in Hoa. apply res_bind_Ok in Hoa as (s & Hs & [= <-]).
    destruct Ha as (a' & Ha' & Hsub). apply (canonical_domains_spec _ _ Hs) in Ha' as (a & Hin & _ & Hcan).
    apply elem_of_elements in Hin. by exists a, a'.
  - intros Hal. rewrite Hal in Hoa. cbn in Hoa. injection Hoa as <-. done.
Qed.
(** The check of a tool that carries a URL *)
Lemma url_tool_checks g tool arguments text : has_prefix "github_" tool = false ->
  str_in tool ["terminal"; "terminal_argv"; "terminal_shell"] = false -> dict_get "url" arguments = Some (PStr text) ->
  check_network_tool g tool arguments = _check_url g (PStr text).
Proof.
  intros H1 H2 H3. unfold check_network_tool. rewrite H1, H2, H3. case_bool_decide; [|done]. unfold get_or. by rewrite H3.
Qed.
Lemma url_tool_permitted g tool arguments text host c r :
  has_prefix "github_" tool = false -> str_in tool ["terminal"; "terminal_argv"; "terminal_shell"] = false ->
  dict_get "url" arguments = Some (PStr text) -> text ≠ EmptyString -> _extract_domain text = Ok host -> host ≠ EmptyString ->
  canonicalize_domain host = Ok c -> c ≠ EmptyString -> check_network_tool g tool arguments = Ok r -> nc_allowed r = true -> domain_permitted g c.
Proof.
  intros Ht1 Ht2 Hurl Hne0 Hhost Hne1 Hcan Hne2 Hr Hok. rewrite (url_tool_checks g tool arguments text Ht1 Ht2 Hurl) in Hr.
  unfold _check_url in Hr. replace (truthy (PStr text)) with true in Hr by (by destruct text). cbn [negb] in Hr.
  rewrite Hhost in Hr. cbn [res_bind] in Hr. injection Hr as <-. replace (str_empty host) with false in Hok by (by destruct host).
  by apply (check_domain_spec g host c Hcan Hne2 Hne1) in Hok.
Qed.
(** A policy that joins the blocked domains and meets the allowed ones permits no more than either layer. *)
Lemma layer_domain_meet e p u c :
  ep_network_allowed_domains e = meet_lists (ep_network_allowed_domains p) (ep_network_allowed_domains u) ->
  ep_network_blocked_domains e = ep_network_blocked_domains p ∪ ep_network_blocked_domains u ->
  layer_permits_domain e c -> layer_permits_domain p c /\ layer_permits_domain u c.
Proof.
  intros Hd Hb [Hblk Hall]. rewrite Hd in Hall. split; split.
  1,3: intros b b' Hin; apply Hblk; rewrite Hb; set_solver.
  all: intros allowed Hal; rewrite Hal in Hall.
  - destruct (ep_network_allowed_domains u); cbn [meet_lists] in Hall; [|by apply Hall].
    destruct (Hall _ eq_refl) as (a & a' & Hin & ? & ?). exists a, a'. set_solver.
  - destruct (ep_network_allowed_domains p); cbn [meet_lists] in Hall; [|by apply Hall].
    destruct (Hall _ eq_refl) as (a & a' & Hin & ? & ?). exists a, a'. set_solver.
Qed.
(** A tool call that carries a URL passes the guard of a compiled policy only if the canonical domain of the URL is below no
    domain that a layer blocks, below a domain of every allow-list a layer has, and, when no layer has an allow-list, the network
    is on in both. *)
Theorem url_call_within_policy project root user max_mode worktree has_git compiled iso g tool arguments text host c r
  `{HostPaths} (Hc : compile_effective_policy project root (Some user) max_mode worktree has_git = Ok compiled)
  (Hg : policy_guard (cp_policy compiled) iso = Ok g)
  (Htool : has_prefix "github_" tool = false /\ str_in tool ["terminal"; "terminal_argv"; "terminal_shell"] = false)
  (Hurl : dict_get "url" arguments = Some (PStr text)) (Hhost : _extract_domain text = Ok host)
  (Hcan : canonicalize_domain host = Ok c) (Hne : text ≠ EmptyString /\ host ≠ EmptyString /\ c ≠ EmptyString)
  (Hr : check_network_tool g tool arguments = Ok r) (Hok : nc_allowed r = true) :
  exists p u, layer_alone root project = Ok p /\ layer_alone root user = Ok u
    /\ layer_permits_domain p c /\ layer_permits_domain u c
    /\ (ep_network_allowed_domains p = None -> ep_network_allowed_domains u = None ->
        ep_network_enabled p = true /\ ep_network_enabled u = true).
Proof.
  unfold compile_effective_policy in Hc. apply res_bind_Ok in Hc as (e & He & Hc). inv_res. cbn [cp_policy] in Hg.
  apply compile_fields_layers in He as (p & u & Hp & Hu & _ & _ & _ & _ & Hn & Hd & Hb & _).
  exists p, u. split; [done|]. split; [done|]. destruct Htool as [Ht1 Ht2], Hne as (Hne0 & Hne1 & Hne2).
  pose proof (url_tool_permitted g tool arguments text host c r Ht1 Ht2 Hurl Hne0 Hhost Hne1 Hcan Hne2 Hr Hok) as Hperm.
  destruct (guard_of_policy _ _ _ _ Hg Hperm) as [Hlayer Hon]. destruct (layer_domain_meet _ p u c Hd Hb Hlayer) as [? ?].
  split; [done|]. split; [done|]. intros Ep Eu. rewrite Hn, andb_true_iff in Hon. apply Hon. by rewrite Hd, Ep, Eu.
Qed.
(** ** Scripts while the network is off *)
Definition network_segment (segment : string) : bool := str_in (_base_command segment) NETWORK_COMMAND_KEYWORDS.
Definition local_git (command : string) : bool :=
  bool_decide (_base_command command = "git") &&
  match py_split command with _ :: sub :: _ => negb (str_in sub NETWORK_GIT_SUBCOMMANDS) | _ => true end.
Lemma offline_segment g s r : ng_network_enabled g = false -> ng_isolation_proven g = false -> _check_terminal_command g s = Ok r ->
  if network_segment s then nc_allowed r = local_git s /\ nc_reason r ≠ NOT_A_NETWORK_COMMAND
  else r = plain_check true NOT_A_NETWORK_COMMAND.
Proof.
  intros Hoff Hiso. unfold _check_terminal_command, network_segment, local_git. rewrite Hiso, Hoff, andb_false_r. cbn [negb].
  destruct (str_in (_base_command s) NETWORK_COMMAND_KEYWORDS); cbn [negb]; [|by intros [= <-]]. case_bool_decide as Eg.
  - unfold check_git. rewrite Hoff. cbn [negb andb]. destruct (py_split s) as [|? [|sub ?]]; [by intros [= <-]..|].
    destruct (str_in sub NETWORK_GIT_SUBCOMMANDS); by intros [= <-].
  - intros (domain & _ & [= <-])%res_bind_Ok. by destruct (str_empty domain).
Qed.
Lemma offline_segments g segments : ng_network_enabled g = false -> ng_isolation_proven g = false ->
  forall r, check_segments g segments = Ok r ->
  nc_allowed r = match List.find network_segment segments with Some s => local_git s | None => true end.
Proof.
  intros Hoff Hiso. induction segments as [|s segments IH]; intros r; cbn [check_segments List.find]; [by intros [= <-]|].
  intros (x & Hx & E)%res_bind_Ok. pose proof (offline_segment g s x Hoff Hiso Hx) as Hs. destruct (network_segment s).
  - destruct Hs as [Ha Hn]. rewrite (bool_decide_eq_false_2 _ Hn), orb_true_r in E. by injection E as <-.
  - subst x. cbn [plain_check nc_allowed nc_reason negb orb] in E. rewrite bool_decide_eq_true_2 in E by done. by apply IH.
Qed.
(** While the network is off and no kernel isolation is proven, a terminal call passes exactly when its first segment that
    starts with a network command is a local git command, or there is none. *)
Theorem offline_terminal_decision g tool arguments r
  (Hoff : ng_network_enabled g = false /\ ng_isolation_proven g = false)
  (Htool : tool ∈ ["terminal"; "terminal_argv"; "terminal_shell"]) (Hr : check_network_tool g tool arguments = Ok r) :
  nc_allowed r = match List.find network_segment (split_command_segments (terminal_command arguments)) with
                 | Some s => local_git s | None => true end.
Proof.
  destruct Hoff as [Hoff Hiso]. apply (offline_segments g _ Hoff Hiso). unfold check_network_tool in Hr.
  rewrite (proj2 (str_in_true _ _) Htool) in Hr.
  replace (has_prefix "github_" tool) with false in Hr; [done|].
  repeat (apply elem_of_cons in Htool as [->|Htool]; [reflexivity|]). by apply not_elem_of_nil in Htool.
Qed.
(** *** Local endpoints *)
Definition endpoints_valid (g : NetworkGuard) : Prop := forall e, e ∈ ng_local_endpoints g -> valid_endpoint e.1 e.2 = true.
Lemma endpoints_stay_valid g g' host port : endpoints_valid g ->
  bind_local_service_endpoint g host port = Ok g' \/ unbind_local_service_endpoint g host port = Ok g' -> endpoints_valid g'.
Proof.
  unfold endpoints_valid, bind_local_service_endpoint, unbind_local_service_endpoint. intros Hv [E|E];
    apply res_bind_Ok in E as (? & Hp%raise_if_Ok & [= <-]); apply negb_false_iff in Hp; cbn [with_endpoints ng_local_endpoints]; intros e He.
  - apply elem_of_union in He as [He| ->%elem_of_singleton]; [by apply Hv|done].
  - apply elem_of_difference in He as [He _]. by apply Hv.
Qed.
Lemma bind_unbind g g' host port : (host, port) ∉ ng_local_endpoints g -> bind_local_service_endpoint g host port = Ok g' ->
  unbind_local_service_endpoint g' host port = Ok g.
Proof.
  unfold bind_local_service_endpoint, unbind_local_service_endpoint. intros Hn (? & Hp & [= <-])%res_bind_Ok. rewrite Hp. cbn [res_bind].
  destruct g. unfold with_endpoints. cbn in *. do 2 f_equal. set_solver.
Qed.
End decisions.

(** ** Examples *)
Import PermissionRules.Example.
Definition online_user : pyval :=
  PDict [("sandbox", PDict [("network", PBool true); ("allowed_domains", str_list ["Example.org."]); ("blocked_domains", str_list ["bad.example.org"])])].
Definition online_project : pyval := PDict [("sandbox", PDict [("network", PBool true)])].
Definition online : CompiledPolicy :=
  compiled_or_none (compile_effective_policy (loaded_or_default (Some online_project)) "/w" (Some (loaded_or_default (Some online_user))) None "" false).
Lemma online_compiled :
  compile_effective_policy (loaded_or_default (Some online_project)) "/w" (Some (loaded_or_default (Some online_user))) None "" false = Ok online.
Proof. vm_compute. reflexivity. Qed.
Definition no_guard : NetworkGuard := MkGuard false None ∅ false ∅.
Definition guard_or_none (m : res NetworkGuard) : NetworkGuard := match m with Ok g => g | Raise _ => no_guard end.
Definition online_guard : NetworkGuard := guard_or_none (policy_guard (cp_policy online) false).
Lemma online_guarded : policy_guard (cp_policy online) false = Ok online_guard.
Proof. vm_compute. reflexivity. Qed.
Definition visit : list (string * pyval) := [("url", PStr "https://example.org/")].
Definition check_or_none (m : res NetworkCheckResult) : NetworkCheckResult := match m with Ok r => r | Raise _ => plain_check false "" end.
Lemma visit_checked : check_network_tool online_guard "browser_navigate" visit
  = Ok (check_or_none (check_network_tool online_guard "browser_navigate" visit)).
Proof. vm_compute. reflexivity. Qed.
Lemma url_call_within_policy_witness :
  exists p u, layer_alone "/w" (loaded_or_default (Some online_project)) = Ok p
    /\ layer_alone "/w" (loaded_or_default (Some online_user)) = Ok u
    /\ layer_permits_domain p "example.org" /\ layer_permits_domain u "example.org"
    /\ (ep_network_allowed_domains p = None -> ep_network_allowed_domains u = None ->
        ep_network_enabled p = true /\ ep_network_enabled u = true).
Proof.
  refine (url_call_within_policy _ _ _ _ _ _ _ _ _ "browser_navigate" visit "https://example.org/" "example.org" "example.org" _
    online_compiled online_guarded _ _ _ _ _ visit_checked _);
    [split; reflexivity|reflexivity|vm_compute; reflexivity|vm_compute; reflexivity|done|vm_compute; reflexivity].
Defined.
Definition script (text : string) : list (string * pyval) := [("script", PStr text)].
Lemma offline_terminal_decision_witness :
  nc_allowed (check_or_none (check_network_tool no_guard "terminal_shell" (script "ls; curl https://evil.example/"))) = false.
Proof.
  refine (eq_trans (offline_terminal_decision no_guard "terminal_shell" (script "ls; curl https://evil.example/") _ _ _ _) _);
    [by split|set_solver|vm_compute; reflexivity|vm_compute; reflexivity].
Defined.

(** *** Where the documents and the code differ *)
(** A domain of the allow-list is reached although the network is off. *)
Example allowlist_opens_disabled_network :
  let g := guard_or_none (make_guard false (Some ["example.org"]) [] false) in
  ng_network_enabled g = false /\ nc_allowed (check_or_none (check_network_tool g "browser_navigate" visit)) = true.
Proof. vm_compute. done. Qed.
(** A local git command before it lets any network command pass. *)
Example local_git_hides_network_command :
  nc_allowed (check_or_none (check_network_tool no_guard "terminal_shell" (script "curl https://evil.example/"))) = false
  /\ nc_allowed (check_or_none (check_network_tool no_guard "terminal_shell" (script "git status && curl https://evil.example/"))) = true.
Proof. vm_compute. done. Qed.
(** A network command named by its path is taken for a local one. *)
Example path_hides_network_command :
  nc_allowed (check_or_none (check_network_tool no_guard "terminal_shell" (script "/usr/bin/curl https://evil.example/"))) = true.
Proof. vm_compute. done. Qed.
