(* ===== verification/CommandGuard.v ===== *)
(** * The command guard ([security/command_guard.py])

    The check of a terminal command: the semantic analysis of the shell script, the allow-list and the block-list of the policy,
    dangerous patterns, and patterns that only ask for confirmation.  The order in which Python iterates the set of dangerous
    patterns is not specified: the guard reports the first of the list it is given. *)
From Stdlib Require Import Ascii.
From stdpp Require Import gmap.
From S2P Require Import Prelude PyStr Json PyValue ShellSemantics PyText PermissionRules PermissionEvaluator ResourceScope EffectivePolicy PyRegex NetworkGuard.
Open Scope Z_scope.

Definition DANGEROUS_COMMANDS : list string :=
  ["rm -rf /"; "rm -rf /*"; "mkfs"; "dd if="; ":(){ :|:& };:"; "chmod 777"; "chown root"; "> /dev/sd"; "> /dev/null"; "wget ";
   "curl -o /etc/"; "nc -l"; "ncat -l"].
Definition BLOCKED_COMMANDS : list string :=
  ["sudo"; "su "; "passwd"; "visudo"; "chroot"; "iptables"; "nft"; "ufw"; "mkfs."; "fdisk"; "parted"; "mount"; "shutdown"; "reboot";
   "halt"; "poweroff"; "systemctl"; "service"; "crontab"; "at "; "useradd"; "userdel"; "usermod"; "groupadd"; "groupdel"; "insmod";
   "modprobe"; "env"; "printenv"].
Definition ALLOWED_SUDO_PREFIXES : list string :=
  ["apt-get"; "apt"; "pip"; "pip3"; "npm"; "yarn"; "cargo"; "docker"; "podman"; "kubectl"; "brew"; "port"; "gem"].

(** ** Patterns that ask for confirmation *)
(** Words in either case with white space between them *)
Fixpoint spaced (words : list string) : list rx :=
  match words with [] => [] | [w] => any_case w | w :: r => any_case w ++ some is_space :: spaced r end.
(** [.*] *)
Definition anything : rx := many (fun c => negb (bool_decide (c = NEWLINE))).
Definition RISKY_PATTERNS : list (list rx) :=
  [spaced ["rm"; "-"]; spaced ["DROP"; "TABLE"]; spaced ["DROP"; "DATABASE"]; spaced ["DELETE"; "FROM"]; spaced ["TRUNCATE"; "TABLE"];
   spaced ["git"; "push"; "--force"]; spaced ["git"; "reset"; "--hard"]; spaced ["DROP"; "SCHEMA"];
   spaced ["ALTER"; "TABLE"] ++ anything :: any_case "DROP"; spaced ["INSERT"; "INTO"] ++ anything :: any_case "SELECT";
   any_case "os.environ"; any_case "getenv"; any_case "ENV["].

(** ** Words and segments *)
Definition _split_words (command : string) : list string :=
  match shlex_split command with Ok parts => parts | Raise _ => py_split (py_strip command) end.
Definition _base_command (command : string) : string :=
  match _split_words command with [] => EmptyString | first :: _ => path_name first end.
Definition _unsafe_python_entry (command : string) : string :=
  match _split_words command with
  | [] => EmptyString
  | first :: args =>
      if negb (str_in (path_name first) ["python"; "python3"; "python3.11"]) then EmptyString
      else
        match args with
        | [] => "interactive Python is not allowed"
        | option :: rest =>
            if str_in option ["-c"; "-"; "-i"] then "inline or interactive Python is not allowed"
            else if bool_decide (option = "-m")
                    && negb (match rest with m :: _ => str_in m ["pytest"; "unittest"; "compileall"; "py_compile"] | [] => false end)
            then "only test and compile Python modules are allowed"
            else EmptyString
        end
  end.
Fixpoint shell_segments (in_single in_double : bool) (current : list string) (segments : list string) (l : list string) : list string :=
  match l with
  | [] => _append_segment segments current
  | c :: r =>
      let in_single' := if bool_decide (c = SQUOTE) && negb in_double then negb in_single else in_single in
      let in_double' := if bool_decide (c = SQUOTE) && negb in_double then in_double
                        else if bool_decide (c = DQUOTE) && negb in_single then negb in_double else in_double in
      if negb in_single' && negb in_double' then
        match r with
        | n :: r' =>
            if str_in (c +:+ n) ["&&"; "||"; "$("]
            then shell_segments in_single' in_double' [] (_append_segment segments current) r'
            else if str_in c ["|"; ";"; "`"; ")"] then shell_segments in_single' in_double' [] (_append_segment segments current) r
            else shell_segments in_single' in_double' (current ++ [c]) segments r
        | [] =>
            if str_in c ["|"; ";"; "`"; ")"] then shell_segments in_single' in_double' [] (_append_segment segments current) r
            else shell_segments in_single' in_double' (current ++ [c]) segments r
        end
      else shell_segments in_single' in_double' (current ++ [c]) segments r
  end.
Definition _split_shell_segments (command : string) : list string := shell_segments false false [] [] (chars command).
Definition blocked_by (base pattern : string) : bool :=
  let normalized := py_strip pattern in
  if has_suffix "." normalized then has_prefix normalized base else bool_decide (base = normalized).
Definition _blocked_command_match (command : string) (extra_blocked : gset string) : option string :=
  let base := _base_command command in
  if str_empty base then None
  else if bool_decide (base = "sudo") then
    match _split_words command with
    | _ :: target :: _ => if str_in (path_name target) ALLOWED_SUDO_PREFIXES then None else Some "sudo"
    | _ => Some "sudo"
    end
  else if bool_decide (base = "su") then Some "su"
  else if bool_decide (base = "at") then Some "at"
  else List.find (blocked_by base) (BLOCKED_COMMANDS ++ elements extra_blocked).

(** ** The guard *)
Record CommandGuard := MkCommandGuard {
  cg_block_dangerous : bool; cg_confirm_risky : bool; cg_allowed_commands : option (gset string); cg_extra_blocked : gset string
}.
Record CommandCheckResult := MkCommandCheck { cc_safe : bool; cc_risk_level : string; cc_reason : string; cc_matched_pattern : string }.
Definition dangerous_in (dangerous : list string) (command : string) : option string :=
  let lowered := lower_chars (chars command) in
  List.find (fun pattern => contains (lower_chars (chars pattern)) lowered) dangerous.
Fixpoint check_injection (g : CommandGuard) (dangerous : list string) (segments : list string) : option CommandCheckResult :=
  match segments with
  | [] => None
  | segment :: rest =>
      if str_empty (py_strip segment) then check_injection g dangerous rest
      else
        match _blocked_command_match segment (cg_extra_blocked g) with
        | Some blocked => Some (MkCommandCheck false "blocked" ("possible shell injection via blocked command: " +:+ blocked) blocked)
        | None =>
            match dangerous_in dangerous segment with
            | Some pattern => Some (MkCommandCheck false "dangerous" ("possible shell injection via dangerous pattern: " +:+ pattern) pattern)
            | None => check_injection g dangerous rest
            end
        end
  end.
Definition literal_command (c : ShellCommandNode) : bool :=
  negb (sc_redirection c || sc_callback c || existsb (fun w => negb (sw_literal w) || sw_assignment w) (sc_words c)).
Definition _is_base_command_allowed (g : CommandGuard) (command : string) : res bool :=
  let* semantic := analyze_shell_script command in
  if bool_decide (an_status semantic = SHELL_BLOCKED) then Ok false
  else if existsb (fun f => negb (bool_decide (f = "comment"))) (sh_features (an_ast semantic)) then Ok false
  else if negb (forallb literal_command (sh_commands (an_ast semantic))) then Ok false
  else
    let executables := List.filter (fun e => negb (str_empty e)) (executable <$> sh_commands (an_ast semantic)) in
    Ok (match executables with [] => false | _ => true end
        && forallb (fun e => match cg_allowed_commands g with Some allowed => bool_decide (e ∈ allowed) | None => false end) executables).
Definition check_command (g : CommandGuard) (dangerous : list string) (command : string) : res CommandCheckResult :=
  let stripped := py_strip command in
  if str_empty stripped then Ok (MkCommandCheck true "safe" "empty command" "")
  else
    let* semantic := analyze_shell_script stripped in
    if bool_decide (an_status semantic = SHELL_BLOCKED)
    then Ok (MkCommandCheck false "blocked" (an_reason semantic) (an_blocked_executable semantic))
    else
      let python_entry := _unsafe_python_entry stripped in
      if negb (str_empty python_entry) then Ok (MkCommandCheck false "blocked" python_entry "python")
      else
        let* admitted := match cg_allowed_commands g with Some _ => _is_base_command_allowed g stripped | None => Ok true end in
        if negb admitted then Ok (MkCommandCheck false "blocked" "base command is not in the allowlist" (_base_command stripped))
        else
          match _blocked_command_match stripped (cg_extra_blocked g) with
          | Some blocked => Ok (MkCommandCheck false "blocked" ("blocked command: " +:+ blocked) blocked)
          | None =>
              match dangerous_in dangerous stripped with
              | Some pattern => Ok (MkCommandCheck (negb (cg_block_dangerous g)) "dangerous" ("dangerous command pattern: " +:+ pattern) pattern)
              | None =>
                  match check_injection g dangerous (_split_shell_segments stripped) with
                  | Some injection => Ok injection
                  | None =>
                      match search (rx_first RISKY_PATTERNS) (chars stripped) with
                      | Some m => Ok (MkCommandCheck true "risky" "risky command requires confirmation" (text_of (group0 m)))
                      | None =>
                          if bool_decide (an_status semantic = SEMANTIC_UNKNOWN)
                          then Ok (MkCommandCheck true (shell_status_value SEMANTIC_UNKNOWN) (an_reason semantic)
                                     (join "," (sh_features (an_ast semantic))))
                          else Ok (MkCommandCheck true "safe" "no risk detected" "")
                      end
                  end
              end
          end.

(** The command part of [_apply_policy]: empty entries are dropped, and a policy without lists leaves the guard as it is. *)
Definition apply_command_lists (g : CommandGuard) (allowed : option (gset string)) (blocked : gset string) : CommandGuard :=
  let blocked_list := filter (fun c => c ≠ EmptyString) blocked in
  match allowed with
  | None => if bool_decide (blocked_list = ∅) then g
            else MkCommandGuard (cg_block_dangerous g) (cg_confirm_risky g) (cg_allowed_commands g) blocked_list
  | Some l => MkCommandGuard (cg_block_dangerous g) (cg_confirm_risky g) (Some (filter (fun c => c ≠ EmptyString) l)) blocked_list
  end.

(** ** What the lists of a policy enforce *)
Lemma find_Some {A} (f : A -> bool) l x : x ∈ l -> f x = true -> exists y, List.find f l = Some y.
Proof.
  intros Hx Hf. destruct (List.find f l) as [y|] eqn:E; [by exists y|]. apply list_elem_of_In in Hx.
  pose proof (List.find_none _ _ E _ Hx). congruence.
Qed.
Lemma has_prefix_refl s : has_prefix s s = true.
Proof. apply has_prefix_spec. exists EmptyString. by rewrite str_app_nil_r. Qed.
Lemma blocked_match_extra command extra base : _base_command command = base -> base ∈ extra -> py_strip base = base ->
  base ≠ EmptyString -> base ≠ "sudo" -> exists b, _blocked_command_match command extra = Some b.
Proof.
  intros Hbase Hin Hs Hn Hsudo. unfold _blocked_command_match. rewrite Hbase. replace (str_empty base) with false by (by destruct base).
  rewrite (bool_decide_eq_false_2 _ Hsudo). case_bool_decide; [by eexists|]. case_bool_decide; [by eexists|].
  apply (find_Some _ _ base); [apply elem_of_app; right; by apply elem_of_elements|].
  unfold blocked_by. rewrite Hs. destruct (has_suffix "." base); [apply has_prefix_refl|by apply bool_decide_eq_true].
Qed.
(** The levels at which the middleware refuses a command *)
Definition refusing (level : string) : bool := str_in level ["dangerous"; "blocked"].
Lemma injection_refuses g dangerous segments r : check_injection g dangerous segments = Some r -> refusing (cc_risk_level r) = true.
Proof.
  induction segments as [|s segments IH]; cbn [check_injection]; [done|]. destruct (str_empty (py_strip s)); [done|].
  destruct (_blocked_command_match _ _); [by intros [= <-]|]. destruct (dangerous_in _ _); [by intros [= <-]|done].
Qed.
Lemma injection_found g dangerous segments s b : s ∈ segments -> str_empty (py_strip s) = false ->
  _blocked_command_match s (cg_extra_blocked g) = Some b -> exists r, check_injection g dangerous segments = Some r.
Proof.
  intros Hin Hs Hb. induction segments as [|x segments IH]; [by apply not_elem_of_nil in Hin|]. cbn [check_injection].
  apply elem_of_cons in Hin as [<-|Hin].
  - rewrite Hs, Hb. by eexists.
  - destruct (str_empty (py_strip x)); [by apply IH|]. destruct (_blocked_command_match x _); [by eexists|].
    destruct (dangerous_in _ x); [by eexists|by apply IH].
Qed.
(** A command that the policy blocks is refused wherever the guard sees a segment begin with it, unless it is [sudo]. *)
Theorem blocked_segment_refused g dangerous command segment r
  (Hseg : segment ∈ _split_shell_segments (py_strip command)) (Hblank : str_empty (py_strip segment) = false)
  (Hblocked : _base_command segment ∈ cg_extra_blocked g)
  (Hbase : py_strip (_base_command segment) = _base_command segment /\ _base_command segment ≠ EmptyString /\ _base_command segment ≠ "sudo")
  (Hr : check_command g dangerous command = Ok r) : refusing (cc_risk_level r) = true.
Proof.
  destruct Hbase as (Hs & Hn & Hsudo). destruct (blocked_match_extra segment _ _ eq_refl Hblocked Hs Hn Hsudo) as [b Hb].
  destruct (injection_found g dangerous _ _ _ Hseg Hblank Hb) as [inj Hinj]. unfold check_command in Hr.
  destruct (str_empty (py_strip command)) eqn:E.
  { destruct (py_strip command); [|done]. by apply not_elem_of_nil in Hseg. }
  apply res_bind_Ok in Hr as (sem & _ & Hr). case_bool_decide; [by injection Hr as <-|].
  destruct (negb (str_empty (_unsafe_python_entry _))); [by injection Hr as <-|]. apply res_bind_Ok in Hr as (ok & _ & Hr).
  destruct ok; cbn [negb] in Hr; [|by injection Hr as <-]. destruct (_blocked_command_match (py_strip command) _); [by injection Hr as <-|].
  destruct (dangerous_in _ (py_strip command)); [by injection Hr as <-|]. rewrite Hinj in Hr. injection Hr as <-.
  by eapply injection_refuses.
Qed.
(** With an allow-list, a command that is not refused as blocked is a literal script: it has no expansion, redirection, callback
    or assignment, it runs something, and everything it runs is on the list. *)
Theorem allowlist_is_exhaustive g dangerous command allowed r
  (Ha : cg_allowed_commands g = Some allowed) (Hn : py_strip command ≠ EmptyString) (Hr : check_command g dangerous command = Ok r)
  (Hlevel : cc_risk_level r ≠ "blocked") :
  exists semantic, analyze_shell_script (py_strip command) = Ok semantic
    /\ Forall (fun f => f = "comment") (sh_features (an_ast semantic))
    /\ Forall (fun c => literal_command c = true /\ (executable c = EmptyString \/ executable c ∈ allowed)) (sh_commands (an_ast semantic))
    /\ exists c, c ∈ sh_commands (an_ast semantic) /\ executable c ∈ allowed.
Proof.
  unfold check_command in Hr. replace (str_empty (py_strip command)) with false in Hr by (by destruct (py_strip command)).
  apply res_bind_Ok in Hr as (sem & Hsem & Hr). exists sem. split; [done|]. case_bool_decide; [by injection Hr as <-|].
  destruct (negb (str_empty (_unsafe_python_entry _))); [by injection Hr as <-|]. apply res_bind_Ok in Hr as (ok & Hok & Hr).
  destruct ok; cbn [negb] in Hr; [|by injection Hr as <-]. clear Hr. rewrite Ha in Hok. unfold _is_base_command_allowed in Hok.
  rewrite Hsem in Hok. cbn [res_bind] in Hok. rewrite bool_decide_eq_false_2 in Hok by done.
  destruct (existsb _ (sh_features _)) eqn:Ef; [done|]. destruct (forallb literal_command _) eqn:El; cbn [negb] in Hok; [|done].
  injection Hok as Hok. apply andb_true_iff in Hok as [Hne Hall]. rewrite Ha in Hall. rewrite forallb_forall in Hall, El.
  assert (forall c, c ∈ sh_commands (an_ast sem) -> executable c = EmptyString \/ executable c ∈ allowed) as Hex.
  { intros c Hc. destruct (executable c) as [|a e] eqn:Ec; [by left|right]. rewrite <- Ec.
    apply (bool_decide_eq_true_1 (executable c ∈ allowed)). apply Hall. apply List.filter_In. rewrite Ec. split; [|done].
    rewrite <- Ec. apply list_elem_of_In, list_elem_of_fmap. by exists c. }
  split; [|split].
  - apply Forall_forall. intros f Hf. destruct (decide (f = "comment")) as [|Hx]; [done|]. enough (false = true) by done.
    rewrite <- Ef. apply existsb_exists. exists f. split; [by apply list_elem_of_In|]. by rewrite bool_decide_eq_false_2.
  - apply Forall_forall. intros c Hc. split; [|by apply Hex]. apply El. by apply list_elem_of_In.
  - destruct (List.filter _ _) as [|e l] eqn:E; [done|]. assert (e ∈ List.filter (fun e => negb (str_empty e)) (executable <$> sh_commands (an_ast sem))) as He.
    { rewrite E. left. }
    apply list_elem_of_In, List.filter_In in He as [He Hs]. apply list_elem_of_In, list_elem_of_fmap in He as (c & -> & Hc).
    exists c. split; [done|]. destruct (Hex c Hc) as [Hz|]; [by rewrite Hz in Hs|done].
Qed.

(** ** Examples *)
Definition blocking : CommandGuard := MkCommandGuard true true None {["docker"; "git push"]}.
Definition listing : CommandGuard := MkCommandGuard true true (Some {["pytest"; "ls"]}) ∅.
Definition level (m : res CommandCheckResult) : string := match m with Ok r => cc_risk_level r | Raise _ => "" end.
Definition result_of (m : res CommandCheckResult) : CommandCheckResult := match m with Ok r => r | Raise _ => MkCommandCheck false "" "" "" end.
Lemma docker_checked : check_command blocking DANGEROUS_COMMANDS "ls && /usr/bin/docker ps"
  = Ok (result_of (check_command blocking DANGEROUS_COMMANDS "ls && /usr/bin/docker ps")).
Proof. vm_compute. reflexivity. Qed.
Lemma docker_segment : "/usr/bin/docker ps" ∈ _split_shell_segments (py_strip "ls && /usr/bin/docker ps").
Proof. apply (bool_decide_unpack _). vm_compute. exact I. Qed.
Lemma docker_blocked : _base_command "/usr/bin/docker ps" ∈ cg_extra_blocked blocking.
Proof. apply (bool_decide_unpack _). vm_compute. exact I. Qed.
Lemma blocked_segment_refused_witness :
  refusing (cc_risk_level (result_of (check_command blocking DANGEROUS_COMMANDS "ls && /usr/bin/docker ps"))) = true.
Proof.
  refine (blocked_segment_refused blocking DANGEROUS_COMMANDS _ _ _ docker_segment _ docker_blocked _ docker_checked).
  - vm_compute. reflexivity.
  - split; [vm_compute; reflexivity|]. split; vm_compute; discriminate.
Defined.
Lemma listed_checked : check_command listing DANGEROUS_COMMANDS "ls -l; pytest -q"
  = Ok (result_of (check_command listing DANGEROUS_COMMANDS "ls -l; pytest -q")).
Proof. vm_compute. reflexivity. Qed.
Lemma allowlist_is_exhaustive_witness :
  exists semantic, analyze_shell_script (py_strip "ls -l; pytest -q") = Ok semantic
    /\ Forall (fun f => f = "comment") (sh_features (an_ast semantic))
    /\ Forall (fun c => literal_command c = true /\ (executable c = EmptyString \/ executable c ∈ ({["pytest"; "ls"]} : gset string)))
         (sh_commands (an_ast semantic))
    /\ exists c, c ∈ sh_commands (an_ast semantic) /\ executable c ∈ ({["pytest"; "ls"]} : gset string).
Proof.
  refine (allowlist_is_exhaustive listing DANGEROUS_COMMANDS _ _ _ eq_refl _ listed_checked _); vm_compute; discriminate.
Defined.

(** *** Where the lists do not reach *)
(** A single ampersand, a line break or an assignment hides a command that the policy blocks. *)
Example separator_hides_blocked_command :
  level (check_command blocking DANGEROUS_COMMANDS "docker ps") = "blocked"
  /\ level (check_command blocking DANGEROUS_COMMANDS "true & docker ps") = "semantic-unknown"
  /\ level (check_command blocking DANGEROUS_COMMANDS ("true" +:+ NEWLINE +:+ "docker ps")) = "semantic-unknown"
  /\ level (check_command blocking DANGEROUS_COMMANDS "A=1 docker ps") = "semantic-unknown".
Proof. vm_compute. done. Qed.
(** An entry of two words blocks nothing. *)
Example phrase_blocks_nothing : level (check_command blocking DANGEROUS_COMMANDS "git push origin main") = "semantic-unknown".
Proof. vm_compute. done. Qed.
(** The package managers that may follow [sudo] are refused with it. *)
Example sudo_prefixes_have_no_effect :
  _blocked_command_match "sudo apt-get update" ∅ = None
  /\ level (check_command (MkCommandGuard true true None ∅) DANGEROUS_COMMANDS "sudo apt-get update") = "blocked".
Proof. vm_compute. done. Qed.
