(* ===== verification/PathGuard.v ===== *)
(** * The path guard ([security/path_guard.py], [_apply_policy] of [security/middleware.py])

    The check of paths before a file tool runs: protected directories for writes, sensitive files for reads, the project root,
    and the denied paths of the policy, which extend the protected directories.  The home directory and symbolic links are
    of the host. *)
From Stdlib Require Import Ascii.
From stdpp Require Import gmap.
From S2P Require Import Prelude PyStr Json PyValue ShellSemantics PyText PermissionRules ResourceScope EffectivePolicy NetworkGuard.
Open Scope Z_scope.

(** [str(Path.home())], [os.path.expanduser] and [Path.is_symlink] *)
Class HostHome := { home : string; os_expanduser : string -> string; is_symlink : string -> bool }.

Definition PROTECTED_DIRS : list string :=
  ["/etc"; "/usr"; "/bin"; "/sbin"; "/boot"; "/dev"; "/proc"; "/sys"; "/lib"; "/lib64"; "/private/etc"; "/System"; "/Library"; "/Applications"].
Definition SENSITIVE_FILES : list string :=
  ["/etc/shadow"; "/etc/passwd"; "/etc/sudoers"; "/etc/ssh/sshd_config"; "/etc/ssh/ssh_host_*"; "/.ssh/id_rsa"; "/.ssh/id_ed25519";
   "/.gnupg/"; "~/.aws/credentials"; "~/.config/gcloud/credentials"].
Record PathCheckResult := MkPathCheck { pc_safe : bool; pc_risk_level : string; pc_reason : string; pc_normalized_path : string }.
Record PathGuard := MkPathGuard { pg_allow_writes_to_home : bool; pg_project_root : option string; pg_protected : gset string }.
(** [path.relative_to(base)] succeeds *)
Definition posix_relative_to (path base : string) : bool :=
  bool_decide (initial_slashes base = initial_slashes path)
  && bool_decide (take (length (path_parts base)) (path_parts path) = path_parts base).

Section guard.
Context `{Platform} `{HostPaths} `{HostHome}.
Definition make_path_guard (allow_writes_to_home : bool) (project_root : option string) (extra_protected : gset string) : res PathGuard :=
  let* root := match project_root with
               | Some p => if str_empty p then Ok None else let* r := full_path p in Ok (Some r)
               | None => Ok None end in
  Ok (MkPathGuard allow_writes_to_home root (list_to_set PROTECTED_DIRS ∪ extra_protected)).
Definition _normalize (path : string) : res string := full_path path.
Definition _is_protected_path (g : PathGuard) (path raw : string) : bool :=
  existsb (posix_relative_to path) (elements (pg_protected g))
  || (let lexical := slashes_of_backslashes raw in
      isabs lexical && existsb (fun protected => isabs protected && posix_relative_to lexical protected) (elements (pg_protected g))).
(** One candidate of a sensitive pattern *)
Definition candidate_matches (path_text candidate : string) : bool :=
  if has_suffix "/" candidate
  then bool_decide (path_text = rstrip_char SLASH candidate) || has_prefix candidate path_text
  else fnmatch path_text candidate.
Definition sensitive_pattern (path_text raw pattern : string) : res bool :=
  let lexical := slashes_of_backslashes raw in
  if isabs lexical && fnmatch lexical pattern then Ok true
  else
    let expanded := os_expanduser pattern in
    let* real := realpath expanded in
    if has_prefix "/." pattern && fnmatch path_text (home +:+ pattern +:+ "*") then Ok true
    else Ok (candidate_matches path_text expanded || candidate_matches path_text real).
Fixpoint any_sensitive (patterns : list string) (path_text raw : string) : res bool :=
  match patterns with
  | [] => Ok false
  | pattern :: rest => let* found := sensitive_pattern path_text raw pattern in
                       if found then Ok true else any_sensitive rest path_text raw
  end.
Definition _is_sensitive_path (path_text raw : string) : res bool := any_sensitive SENSITIVE_FILES path_text raw.
Definition outside (root : option string) (path : string) : bool :=
  match root with Some r => negb (posix_relative_to path r) | None => false end.
Definition check_read (g : PathGuard) (path : string) : res PathCheckResult :=
  let* normalized := _normalize path in
  let* sensitive := _is_sensitive_path normalized path in
  Ok (if sensitive then MkPathCheck false "sensitive" "path points to a sensitive file" normalized
      else if outside (pg_project_root g) normalized then MkPathCheck false "protected" "path escapes the project root" normalized
      else MkPathCheck true "safe" "" normalized).
Definition _is_symlink_escape (g : PathGuard) (target : string) : res bool :=
  match pg_project_root g with
  | None => Ok false
  | Some root =>
      try_except (let* t := path_resolve target in Ok (negb (posix_relative_to t root))) [OSError] (fun _ => Ok true)
  end.
Definition check_write (g : PathGuard) (path : string) : res PathCheckResult :=
  let* raw_path := expanduser path in
  let* normalized := _normalize path in
  if _is_protected_path g normalized path
  then Ok (MkPathCheck false "protected" "writes to protected system directories are blocked" normalized)
  else if outside (pg_project_root g) normalized
          && (negb (pg_allow_writes_to_home g) || negb (posix_relative_to normalized home))
  then Ok (MkPathCheck false "protected" "write path escapes the project root" normalized)
  else
    let* escape := (if is_symlink raw_path then _is_symlink_escape g normalized else Ok false) in
    Ok (if escape then MkPathCheck false "protected" "symlink points outside the allowed scope" normalized
        else MkPathCheck true "safe" "" normalized).
End guard.
(** The path part of [_apply_policy] *)
Definition apply_denied_paths (g : PathGuard) (denied_paths : gset string) : PathGuard :=
  let extra := list_to_set (List.filter (fun p => negb (str_empty p) && negb (bool_decide (p = "."))) (elements denied_paths)) in
  MkPathGuard (pg_allow_writes_to_home g) (pg_project_root g) (pg_protected g ∪ extra).

(** ** What the guard enforces *)
Lemma elem_of_denied g denied p : p ∈ pg_protected (apply_denied_paths g denied) <-> p ∈ pg_protected g \/ (p ∈ denied /\ p ≠ EmptyString /\ p ≠ ".").
Proof.
  unfold apply_denied_paths. cbn [pg_protected]. rewrite elem_of_union, elem_of_list_to_set, list_elem_of_In, List.filter_In, <- list_elem_of_In.
  rewrite elem_of_elements, andb_true_iff, !negb_true_iff, bool_decide_eq_false. destruct p; naive_solver.
Qed.
Lemma protected_spec (g : PathGuard) path : existsb (posix_relative_to path) (elements (pg_protected g)) = true <->
  exists p, p ∈ pg_protected g /\ posix_relative_to path p = true.
Proof.
  rewrite existsb_exists. split; intros (p & Hp & Hr); exists p; (split; [|done]).
  - by apply list_elem_of_In, elem_of_elements in Hp.
  - by apply list_elem_of_In, elem_of_elements.
Qed.
Section enforcement.
Context `{Platform} `{HostPathsLaws} `{HostHome}.
Lemma write_admitted g path r : check_write g path = Ok r -> pc_safe r = true -> exists n, full_path path = Ok n
  /\ (forall p, p ∈ pg_protected g -> posix_relative_to n p = false)
  /\ forall root, pg_project_root g = Some root ->
       posix_relative_to n root = true \/ (pg_allow_writes_to_home g = true /\ posix_relative_to n home = true).
Proof.
  unfold check_write, _normalize. intros E Hs. apply res_bind_Ok in E as (raw & _ & E). apply res_bind_Ok in E as (n & Hn & E).
  exists n. split; [done|]. destruct (_is_protected_path g n path) eqn:Hp; [by injection E as <-|].
  unfold _is_protected_path in Hp. apply orb_false_iff in Hp as [Hp _]. split.
  - intros p Hin. destruct (posix_relative_to n p) eqn:Er; [|done]. enough (false = true) by done. rewrite <- Hp.
    apply protected_spec. by exists p.
  - intros root Hroot. unfold outside in E. rewrite Hroot in E. destruct (posix_relative_to n root); [by left|right].
    cbn [negb andb] in E. destruct (pg_allow_writes_to_home g), (posix_relative_to n home); cbn [negb orb] in E; try done; by injection E as <-.
Qed.
(** A path that is written under the guard of a compiled policy is below no protected directory and below no absolute path that
    the project or the user layer denies, and it lies in the project root, if there is one, or in the home directory where that is
    allowed. *)
Theorem written_path_is_admitted project root user max_mode worktree has_git c g path r
  (Hc : compile_effective_policy project root (Some user) max_mode worktree has_git = Ok c)
  (Hr : check_write (apply_denied_paths g (ep_denied_paths (cp_policy c))) path = Ok r) (Hsafe : pc_safe r = true) :
  exists p u n, layer_alone root project = Ok p /\ layer_alone root user = Ok u /\ full_path path = Ok n
    /\ (forall d, d ∈ pg_protected g \/ (d ∈ ep_denied_paths p \/ d ∈ ep_denied_paths u) -> isabs d = true -> posix_relative_to n d = false)
    /\ forall base, pg_project_root g = Some base ->
         posix_relative_to n base = true \/ (pg_allow_writes_to_home g = true /\ posix_relative_to n home = true).
Proof.
  unfold compile_effective_policy in Hc. apply res_bind_Ok in Hc as (e & He & Hc). inv_res. cbn [cp_policy] in Hr.
  apply compile_fields_layers in He as (p & u & Hp & Hu & _ & _ & _ & _ & _ & _ & _ & _ & _ & _ & Hd & _).
  apply write_admitted in Hr as (n & Hn & Hprot & Hroot); [|done]. exists p, u, n. split_and!; [done..| |exact Hroot].
  intros d Hin Habs. apply Hprot, elem_of_denied. rewrite Hd, elem_of_union. destruct Hin as [?|Hin]; [by left|right].
  split; [done|]. split; by intros ->.
Qed.
(** A denied path that is not absolute, such as one below the tilde, denies nothing. *)
Theorem relative_denials_have_no_effect g denied path (Hd : forall d, d ∈ denied -> isabs d = false) :
  check_write (apply_denied_paths g denied) path = check_write g path.
Proof.
  unfold check_write, _normalize. destruct (expanduser path) as [raw|]; [|done]. cbn [res_bind].
  destruct (full_path path) as [n|] eqn:En; [|done]. cbn [res_bind].
  destruct (full_path_plain path n En) as (Hplain & _ & _).
  assert (_is_protected_path (apply_denied_paths g denied) n path = _is_protected_path g n path) as ->; [|done].
  unfold _is_protected_path. assert (forall d, d ∈ denied -> posix_relative_to n d = false) as Hno.
  { intros d Hin. unfold posix_relative_to. rewrite (plain_initial_slashes n Hplain). specialize (Hd d Hin).
    unfold initial_slashes. unfold isabs in *. destruct (has_prefix "//" d) eqn:E2.
    - apply has_prefix_spec in E2 as [t ->]. done.
    - by rewrite Hd. }
  f_equal; [|f_equal]; apply eq_true_iff_eq; rewrite !existsb_exists.
  - setoid_rewrite <- list_elem_of_In. setoid_rewrite elem_of_elements. setoid_rewrite elem_of_denied.
    split; [|naive_solver]. intros (x & [?|(Hin & _)] & Hx); [by exists x|]. by rewrite (Hno x Hin) in Hx.
  - setoid_rewrite <- list_elem_of_In. setoid_rewrite elem_of_elements. setoid_rewrite elem_of_denied.
    split; [|naive_solver]. intros (x & [?|(Hin & _)] & Hx); [by exists x|]. by rewrite (Hd x Hin) in Hx.
Qed.
(** Reading does not look at the denied paths. *)
Theorem reads_ignore_denials g denied path : check_read (apply_denied_paths g denied) path = check_read g path.
Proof. done. Qed.
End enforcement.

(** ** Examples *)
Import PermissionRules.Example.
#[export] Instance example_home : HostHome := {
  home := "/home/u";
  os_expanduser p := if has_prefix "~/" p then "/home/u" +:+ String.substring 1 (String.length p - 1) p else p;
  is_symlink _ := false
}.
Definition plain_guard : PathGuard := MkPathGuard true None (list_to_set PROTECTED_DIRS).
Definition path_or_none (m : res PathCheckResult) : PathCheckResult := match m with Ok r => r | Raise _ => MkPathCheck false "" "" "" end.
Definition denying : CompiledPolicy :=
  compiled_or_none (compile_effective_policy (loaded_or_default (Some (PDict [("sandbox", PDict [("denied_paths", str_list ["/w/secret"])])])))
    "/w" (Some default_policy) None "" false).
Lemma denying_compiled :
  compile_effective_policy (loaded_or_default (Some (PDict [("sandbox", PDict [("denied_paths", str_list ["/w/secret"])])])))
    "/w" (Some default_policy) None "" false = Ok denying.
Proof. vm_compute. reflexivity. Qed.
Definition denying_guard : PathGuard := apply_denied_paths plain_guard (ep_denied_paths (cp_policy denying)).
Lemma note_checked : check_write denying_guard "/w/notes/../a" = Ok (path_or_none (check_write denying_guard "/w/notes/../a")).
Proof. vm_compute. reflexivity. Qed.
Lemma written_path_is_admitted_witness :
  exists p u n, layer_alone "/w" (loaded_or_default (Some (PDict [("sandbox", PDict [("denied_paths", str_list ["/w/secret"])])]))) = Ok p
    /\ layer_alone "/w" default_policy = Ok u /\ full_path "/w/notes/../a" = Ok n
    /\ (forall d, d ∈ pg_protected plain_guard \/ (d ∈ ep_denied_paths p \/ d ∈ ep_denied_paths u) -> isabs d = true -> posix_relative_to n d = false)
    /\ forall base, pg_project_root plain_guard = Some base ->
         posix_relative_to n base = true \/ (pg_allow_writes_to_home plain_guard = true /\ posix_relative_to n home = true).
Proof.
  refine (written_path_is_admitted _ _ _ _ _ _ denying plain_guard "/w/notes/../a" _ denying_compiled note_checked _).
  vm_compute. reflexivity.
Defined.
(** The default denials below the tilde deny neither a read nor, at its resolved place, a write. *)
Example default_denials_do_not_deny :
  let g := apply_denied_paths plain_guard (list_to_set _DEFAULT_DENIED_PATHS) in
  pc_safe (path_or_none (check_write g "/home/u/.ssh/authorized_keys")) = true
  /\ pc_safe (path_or_none (check_read g "/home/u/.aws/config")) = true
  /\ pc_safe (path_or_none (check_write denying_guard "/w/secret/key")) = false
  /\ pc_safe (path_or_none (check_read denying_guard "/w/secret/key")) = true.
Proof. vm_compute. done. Qed.
